(* ===== verification/_CoqProject ===== *)
-Q . S2P
Prelude.v
Hresult.v
CStrings.v
Words.v
Maps.v
Paths.v
Sha256.v
Primes.v
P256.v
P256Facts.v
P256Ec.v
P256Limbs.v
P256Field.v
P256Points.v
P256Mult.v
Curve.v
P256Group.v
P256Fast.v
P256Table.v
P256Order.v
P256Scalar.v
P256Ecdsa.v
Files.v
FilesFacts.v
PackageCache.v
PackageCacheFacts.v
PurgeFacts.v
Text.v
Base64.v
Protocol.v
Cup.v
CupFacts.v
WebClient.v
Policy.v
PolicyFacts.v
Package.v
Registry.v
RegistryFacts.v
Machine.v
AppRegistry.v
Time.v
Gregorian.v
Labels.v
ExtraArgs.v
CommandLine.v
LabelsFacts.v
ExtraArgsFacts.v
CommandLineFacts.v
CommandLineBuilt.v
AppModel.v
AppManager.v
AppManagerFacts.v
Sample.v
UpdateResponse.v
UpdateFacts.v
Timers.v
Ping.v
PingFacts.v
AppFsm.v
AppRun.v
AppTheorems.v
AppFlow.v
Installer.v
InstallerFacts.v
Bundle.v
BundleFacts.v
DownloadManager.v
DownloadFacts.v
Worker.v
WorkerFacts.v
