(* ===== verification/Prelude.v ===== *)
(** * A verification development for Omaha (the Brave fork of Google Update)

    Omaha keeps applications of Windows up to date.  A client (an installer, an
    application, the scheduled updater) makes a bundle of applications and calls
    it; a worker carries the calls out: it asks the update server what there is
    to update, downloads packages into a cache, runs installers, and reports what
    happened with pings.  Administrators restrict it with policies.

    ** Conventions

    Every file of the sources is translated function by function; definitions
    keep the names of the sources, prefixed with a class where two classes share
    a name.  Stateful code is in the state monad [St] of this file; a method of a
    class takes and returns the object.  A [CString] is a list of UTF-16 units, an
    integer is a [Z] with its wrap-around written out ([u32], [s32], ...), an
    HRESULT is a signed 32-bit integer, an out-parameter is part of the result.
    Assertions of debug builds are left out, as in release builds; where an
    assertion says something about the result it is a theorem instead.

    What is not in the sources is a parameter, as a field of a class: the calls of
    Windows ([Win32], [BundleEnv], [Installers]), the HTTP stack and the XML of
    messages ([HttpStack], [Network]), the clock ([RegEnv]), the calendar
    ([Calendar]), resources and formatting ([Env]), taking command lines apart
    ([ShellApi]), decoding URLs ([UrlCodec]).  Calls that can fail or change
    from one to the next are numbered, so that a theorem covers every sequence of
    results.  The laws of these classes are documented behaviour; every class has
    an instance in the development.

    ** Files

    - Foundations.  Prelude.v: integers, the monad, [preserves].  Hresult.v:
      error.h, error.cc.  CStrings.v, Text.v: string.cc, utils.cc, net_utils.cc
      (comparison, tokens, numbers, versions).  Words.v: the parts between
      separators.  Maps.v: std::map with keys of text.  Base64.v: the codec of string.cc.
      Paths.v, Files.v: path.cc, file.cc and the directory functions of utils.cc
      over a file system [FS]; FilesFacts.v: hexadecimal text and hashes.
      Registry.v: reg_key.cc over a registry that is a map of keys;
      RegistryFacts.v: what one write does to other keys.  Machine.v: the machine
      all parts share (registry, files, processes, posts).  Time.v: time.cc;
      Gregorian.v: the calendar of Windows as an instance of [Calendar].
    - Sha256.v: sha256.c and hmac.c with the proof that the streaming interface
      computes SHA-256 and HMAC.
    - P256.v: p256.c, numbers of eight 32-bit digits; P256Facts.v: what they
      compute, and that the loop of the inverse ends.  P256Ec.v: p256_ec.c, the
      field in nine limbs and the points.  P256Limbs.v, P256Field.v: the limbs
      stay in bounds and are the field.  P256Points.v, P256Mult.v: the formulas
      for points, and the loops under masks as loops with branches.  Curve.v:
      an elliptic curve over any field is a group.  P256Group.v: P-256 as such a
      group, and the points of the code as its elements.  Primes.v: its modulus
      and its order are prime.  P256Fast.v, P256Table.v: the table of constants
      and the order of the base point, checked by evaluation.  P256Order.v: the
      curve has as many points as that order.  P256Scalar.v: the code computes
      multiples and sums in the group.  P256Ecdsa.v: p256_ecdsa.c, the
      verification of signatures.
    - Cup.v: cup_ecdsa_request.cc and cup_ecdsa_utils.cc.  CupFacts.v: what an
      accepted answer proves, and the encoding of signatures.
    - PackageCache.v: package_cache.cc.  PackageCacheFacts.v: what is put into the
      cache and taken out has the expected hash.  PurgeFacts.v: what purging
      deletes and what it keeps.
    - Protocol.v: protocol_definition.h, update_request.cc and the ping events.
      WebClient.v: web_services_client.cc, with the theorem that tokens are never
      posted over plain HTTP.
    - Policy.v: the policies of config_manager.cc; PolicyFacts.v: precedence of
      policy sources, suppression of updates, bounds.
    - Package.v: package.cc, app_version.cc, progress_sampler.h.
    - AppRegistry.v: app_registry_utils.cc, oem_install_utils.cc,
      application_usage_data.cc.  AppManager.v: app_manager.cc.
      AppManagerFacts.v: installer results, user counts, brands.
    - Labels.v: experiment_labels.cc.  LabelsFacts.v: the store of labels, deltas
      and the round trip through text.
    - CommandLine.v: command_line_parser.cc, command_line_validator.cc,
      goopdate_command_line_validator.cc, command_line_builder.cc, command_line.cc.
      CommandLineFacts.v: what a rule accepts, and that the rules exclude each
      other.  CommandLineBuilt.v: what the builder writes is read back.
      ExtraArgs.v: extra_args_parser.cc.  ExtraArgsFacts.v: which applications the
      extra arguments name.
    - AppModel.v: the class App (app.cc).  AppFsm.v: its state machine, the
      app_state_*.cc files.  UpdateResponse.v, UpdateFacts.v:
      update_response_utils.cc.  AppRun.v: the effect of every event.
      AppTheorems.v: invariants of reachable applications.  AppFlow.v: whole runs.
      Sample.v: concrete values for witnesses.
    - Timers.v: when an update check is due (config_manager.cc, ua.cc, core.cc).
    - Ping.v: ping.cc.  PingFacts.v: pings are kept until they were sent.
    - Installer.v: installer_wrapper.cc and install_manager.cc.
      InstallerFacts.v: outcomes, retries, registration.
    - DownloadManager.v: download_manager.cc.  DownloadFacts.v: what is in the
      cache afterwards and what the application was told.
    - Bundle.v: app_bundle.cc and the app_bundle_state_*.cc files.
      BundleFacts.v: the step relation of a bundle, the abstract machine of its
      contract, the simulation between them.
    - Worker.v: worker.cc, offline_utils.cc.  WorkerFacts.v: every call comes to
      its end.

    ** What is shown

    - Calls come to an end: [updateAllApps_completes], [install_completes],
      [checkForUpdate_completes] compose bundle, worker, applications, download
      and install managers; whatever the parameters return, the bundle is ready
      again and every application is settled.
    - Contracts: [bundle_refines] (simulation of an abstract machine),
      [bundle_invariant], [one_call_at_a_time]; for applications
      [state_never_goes_back], [completion_always_consistent],
      [one_completion_ping], [unexpected_call_fails].
    - Trust in the server: [Cup_Send_spec] (an answer is accepted exactly if it
      carries a valid signature of the request, the nonce and the response),
      [p256_ecdsa_verify_spec] (valid in the sense of ECDSA over the group of the
      curve, with associativity, the order of the group and the table of constants
      proved), [p256_points_mul_vartime_spec], [kPrecomputed_spec],
      [field_operations], [DecodeFromBuffer_spec].
    - Security: [policy_blocks_download], [Put_integrity], [Get_integrity],
      [DownloadApp_stores], [tokens_stay_encrypted], with SHA-256 itself proved
      against its definition.
    - Codecs and stores: [Put_Get_roundtrip], [labels_roundtrip],
      [ping_transport], [labels_invariant], [persisted_until_sent].
    - Command lines: [command_line_roundtrip] (the process that is started reads
      what the builder was given, in every mode), [scenarios_exclude_each_other],
      [extra_args_name_apps].
    - Error behaviour: [InstallApp_outcome], [DownloadApp_outcome],
      [reliable_ping_kept], [retry_after_honoured].

    ** Bounds and fuel

    Recursion is structural wherever the loops of the sources walk a list.  Loops
    over a text (tokens, labels) take the length of the text as fuel, and lemmas
    such as [DoDeserialize_spec] and [tokens_pieces] show that it is enough.  [retries_bounded] bounds
    the loop that waits for a busy MSI service; its number of tries is that of
    the sources.  The loop of [p256_modinv_vartime] has fuel 1026, twice the bits
    of its two numbers and a round to stop, and [modinv_spec] shows that it ends
    within it; the loop of [felem_is_zero_vartime] has fuel 4, and
    [felem_is_zero_spec] shows the same.

    ** Not modelled

    Threads other than the interleaving of a client's calls with the worker's
    steps; the locks (every method of the model runs under one lock and is one
    step); COM wrappers, windows, services, scheduled tasks and set-up, which are
    calls of Windows; WinHTTP, BITS and proxies; signing with ECDSA and its
    random numbers, which the product does not use; MSXML; the protocol buffers of
    device management, which the build generates; crash handling, logging and
    statistics. *)

From stdpp Require Export base list gmap strings.
From Stdlib Require Export ZArith Lia.

#[global] Open Scope Z_scope.

(** ** Machine integers

    The C++ sources use fixed-width integers.  They are [Z] here, with the
    wrap-around of the conversion written out. *)

Definition u16 (z : Z) : Z := z mod 2 ^ 16.
Definition u32 (z : Z) : Z := z mod 2 ^ 32.
Definition u64 (z : Z) : Z := z mod 2 ^ 64.
Definition s32 (z : Z) : Z := (z + 2 ^ 31) mod 2 ^ 32 - 2 ^ 31.

Definition s64 (z : Z) : Z := (z + 2 ^ 63) mod 2 ^ 64 - 2 ^ 63.

Lemma u32_range z : 0 <= u32 z < 2 ^ 32.
Proof. apply Z.mod_pos_bound. lia. Qed.

Lemma u64_range z : 0 <= u64 z < 2 ^ 64.
Proof. apply Z.mod_pos_bound. lia. Qed.

Lemma s32_range z : - 2 ^ 31 <= s32 z < 2 ^ 31.
Proof.
  unfold s32. pose proof (Z.mod_pos_bound (z + 2 ^ 31) (2 ^ 32) ltac:(lia)). lia.
Qed.

Lemma u32_small z : 0 <= z < 2 ^ 32 -> u32 z = z.
Proof. apply Z.mod_small. Qed.

Lemma u64_small z : 0 <= z < 2 ^ 64 -> u64 z = z.
Proof. apply Z.mod_small. Qed.

Lemma s32_small z : - 2 ^ 31 <= z < 2 ^ 31 -> s32 z = z.
Proof. intros H. unfold s32. rewrite Z.mod_small; lia. Qed.

Lemma s64_small z : - 2 ^ 63 <= z < 2 ^ 63 -> s64 z = z.
Proof. intros H. unfold s64. rewrite Z.mod_small; lia. Qed.

(** [s32] only looks at its argument modulo [2^32]. *)
Lemma s32_u32 z : s32 (u32 z) = s32 z.
Proof. unfold s32, u32. rewrite Zplus_mod_idemp_l. done. Qed.

(** [kSecondsPerDay] (omaha/base/constants.h). *)
Definition kSecondsPerDay : Z := 24 * 60 * 60.

(** A field of [n] bits below a shifted value: [|] of the two is their sum. *)
Lemma lor_shiftl_add a b n :
  0 <= n -> 0 <= b < 2 ^ n -> Z.lor (Z.shiftl a n) b = a * 2 ^ n + b.
Proof.
  intros Hn Hb.
  assert (Z.land (Z.shiftl a n) b = 0) as Hland.
  { apply Z.bits_inj'. intros i Hi. rewrite Z.land_spec, Z.bits_0.
    destruct (Z.lt_ge_cases i n) as [Hlt|Hge].
    - by rewrite Z.shiftl_spec_low.
    - destruct (Z.eq_dec b 0) as [->|Hb0]; [by rewrite Z.bits_0, andb_false_r|].
      rewrite (Z.bits_above_log2 b i), andb_false_r; [done|lia|].
      assert (Z.log2 b < n) by (apply Z.log2_lt_pow2; lia). lia. }
  rewrite <- (Z.shiftl_mul_pow2 a n Hn), <- Z.lxor_lor by done.
  by rewrite Z.add_nocarry_lxor.
Qed.

(** Masking with [2^n - 1] and shifting right, as arithmetic. *)
Lemma land_mask_mod a n : 0 <= n -> Z.land a (2 ^ n - 1) = a mod 2 ^ n.
Proof. intros Hn. rewrite <- Z.land_ones by done. by rewrite Z.ones_equiv, Z.sub_1_r. Qed.

(** ** Strings

    A [CString] is a sequence of UTF-16 code units. *)

Definition CString : Type := list Z.

(** [_T("...")]: a literal of the sources. *)
Definition _T (s : string) : CString :=
  (fun a : Ascii.ascii => Z.of_nat (Ascii.nat_of_ascii a)) <$> String.list_ascii_of_string s.
#[global] Arguments _T : simpl never.

(** [CString::IsEmpty]. *)
Definition IsEmpty (s : CString) : bool :=
  match s with [] => true | _ => false end.

Lemma IsEmpty_true s : IsEmpty s = true <-> s = [].
Proof. by destruct s. Qed.

Lemma IsEmpty_false s : IsEmpty s = false <-> s <> [].
Proof. by destruct s. Qed.

(** A GUID is a 128-bit value; the code only compares GUIDs and formats them. *)
Definition GUID : Type := Z.

(** ** The state monad

    Code that threads a mutable object and the calls it makes to other
    components is written in a state monad, with stdpp's notations. *)

Definition St (S A : Type) : Type := S -> A * S.

#[export] Instance St_ret {S} : MRet (St S) := fun A a s => (a, s).
#[export] Instance St_bind {S} : MBind (St S) :=
  fun A B f m s => let '(a, s') := m s in f a s'.

Definition get {S} : St S S := fun s => (s, s).
Definition gets {S A} (f : S -> A) : St S A := fun s => (f s, s).
Definition modify {S} (f : S -> S) : St S unit := fun s => (tt, f s).

(** [when (b) { m }]. *)
Definition when {S} (b : bool) (m : St S unit) : St S unit :=
  if b then m else mret tt.

(** [for (i = 0; i < l.size(); ++i) body(l[i])]. *)
Fixpoint for_each {S A} (body : A -> St S unit) (l : list A) : St S unit :=
  match l with
  | [] => mret tt
  | x :: l' => body x ;; for_each body l'
  end.

(** Running a computation for its final state. *)
Definition exec {S A} (m : St S A) (s : S) : S := (m s).2.
Definition eval {S A} (m : St S A) (s : S) : A := (m s).1.

Lemma exec_bind {S A B} (m : St S A) (f : A -> St S B) s :
  exec (m ≫= f) s = exec (f (eval m s)) (exec m s).
Proof. unfold exec, eval, mbind, St_bind. by destruct (m s). Qed.

Lemma eval_bind {S A B} (m : St S A) (f : A -> St S B) s :
  eval (m ≫= f) s = eval (f (eval m s)) (exec m s).
Proof. unfold exec, eval, mbind, St_bind. by destruct (m s). Qed.

Lemma exec_ret {S A} (a : A) (s : S) : exec (mret a) s = s.
Proof. done. Qed.

Lemma eval_ret {S A} (a : A) (s : S) : eval (mret a) s = a.
Proof. done. Qed.

Lemma exec_modify {S} (f : S -> S) s : exec (modify f) s = f s.
Proof. done. Qed.

Lemma exec_get {S} (s : S) : exec get s = s.
Proof. done. Qed.

Lemma eval_get {S} (s : S) : eval get s = s.
Proof. done. Qed.

Create Rewrite HintDb st.
#[export] Hint Rewrite @exec_bind @eval_bind @exec_ret @eval_ret @exec_modify @exec_get @eval_get : st.

(** A property kept by every step of a loop is kept by the loop. *)
Lemma for_each_inv {S A} (P : S -> Prop) (body : A -> St S unit) l s :
  (forall x s, x ∈ l -> P s -> P (exec (body x) s)) ->
  P s -> P (exec (for_each body l) s).
Proof.
  revert s. induction l as [|x l IH]; intros s Hstep Hs; cbn; [done|].
  rewrite exec_bind. apply IH.
  - intros y s' Hy. apply Hstep. by right.
  - apply Hstep; [by left|done].
Qed.

(** ** Computations that preserve a relation

    [preserves R m]: the states before and after [m] are related.  For a
    preorder the structure of a computation carries it, so that a proof is left
    with the calls that do something. *)

Definition preserves {S A} (R : relation S) (m : St S A) : Prop := forall s, R s (exec m s).

Lemma preserves_ret {S A} (R : relation S) `{!Reflexive R} (a : A) : preserves R (mret a).
Proof. intros s. by rewrite exec_ret. Qed.

Lemma preserves_bind {S A B} (R : relation S) `{!Transitive R} (m : St S A) (f : A -> St S B) :
  preserves R m -> (forall a, preserves R (f a)) -> preserves R (m ≫= f).
Proof. intros Hm Hf s. rewrite exec_bind. etrans; [apply Hm|apply Hf]. Qed.

Lemma preserves_gets {S A} (R : relation S) `{!Reflexive R} (f : S -> A) : preserves R (gets f).
Proof. by intros s. Qed.

Lemma preserves_get {S} (R : relation S) `{!Reflexive R} : preserves R (get (S:=S)).
Proof. by intros s. Qed.

Lemma preserves_when {S} (R : relation S) `{!Reflexive R} b (m : St S unit) :
  preserves R m -> preserves R (when b m).
Proof. intros Hm. destruct b; [exact Hm|by apply preserves_ret]. Qed.

Lemma preserves_for_each {S A} (R : relation S) `{!Reflexive R, !Transitive R} (body : A -> St S unit) l :
  (forall x, preserves R (body x)) -> preserves R (for_each body l).
Proof.
  intros Hbody. induction l as [|x l IH]; cbn [for_each]; [by apply preserves_ret|].
  by apply preserves_bind.
Qed.

Create HintDb preserves.

(** Follows the structure of a computation down to its calls, which the
    database [preserves] knows. *)
Ltac preserve :=
  cbv zeta;
  lazymatch goal with
  | |- preserves _ (mret _) => apply preserves_ret, _
  | |- preserves _ (gets _) => apply preserves_gets, _
  | |- preserves _ get => apply preserves_get, _
  | |- preserves _ (_ ≫= _) => apply preserves_bind; [apply _|preserve|intros ?; preserve]
  | |- preserves _ (when _ _) => apply preserves_when; [apply _|preserve]
  | |- preserves _ (for_each _ _) => apply preserves_for_each; [apply _|apply _|intros ?; preserve]
  | |- preserves _ (if ?b then _ else _) => destruct b eqn:?; preserve
  | |- preserves _ (match ?x with _ => _ end) => destruct x eqn:?; preserve
  | |- preserves _ (let '(_, _) := ?x in _) => destruct x eqn:?; preserve
  | |- _ => try solve [auto with preserves]
  end.
