(* ===== verification/Hresult.v ===== *)
(** HRESULTs: the 32-bit status codes every component returns
    ([omaha/base/error.h], [omaha/base/error.cc]). *)

From S2P Require Import Prelude.

Definition HRESULT : Type := Z.

(** [MAKE_HRESULT(sev, fac, code)] and [MAKE_OMAHA_HRESULT(sev, code)]. *)
Definition MAKE_HRESULT (sev fac code : Z) : HRESULT :=
  s32 (Z.lor (Z.lor (Z.shiftl sev 31) (Z.shiftl fac 16)) code).

Definition kHresultCBit : Z := 0x20000000.
Definition kFacilityOmaha : Z := 67.
Definition SEVERITY_SUCCESS : Z := 0.
Definition SEVERITY_ERROR : Z := 1.
Definition FACILITY_ITF : Z := 4.

Definition MAKE_OMAHA_HRESULT (sev code : Z) : HRESULT :=
  s32 (Z.lor (Z.lor (Z.lor (Z.shiftl sev 31) kHresultCBit)
                    (Z.shiftl kFacilityOmaha 16)) code).

Definition SUCCEEDED (hr : HRESULT) : bool := 0 <=? hr.
Definition FAILED (hr : HRESULT) : bool := hr <? 0.
Arguments SUCCEEDED : simpl never.
Arguments FAILED : simpl never.

(** Codes of the Windows SDK ([winerror.h]) the sources use. *)
Definition S_OK : HRESULT := 0.
Definition S_FALSE : HRESULT := 1.
Definition E_NOTIMPL : HRESULT := s32 0x80004001.
Definition E_POINTER : HRESULT := s32 0x80004003.
Definition E_FAIL : HRESULT := s32 0x80004005.
Definition E_UNEXPECTED : HRESULT := s32 0x8000FFFF.
Definition E_ACCESSDENIED : HRESULT := s32 0x80070005.
Definition E_INVALIDARG : HRESULT := s32 0x80070057.

Definition HRESULT_FROM_WIN32 (x : Z) : HRESULT :=
  if s32 x <=? 0 then s32 x
  else s32 (Z.lor (Z.lor (Z.land x 0xFFFF) (Z.shiftl 7 16)) 0x80000000).
(** [HRESULTFromLastError] when [GetLastError] is [error_code]. *)
Definition HRESULTFromLastError (error_code : Z) : HRESULT :=
  if negb (error_code =? 0) then HRESULT_FROM_WIN32 error_code else E_FAIL.
Definition ERROR_FILE_NOT_FOUND : Z := 2.
Definition ERROR_INVALID_INDEX : Z := 1413.

(** Codes of [omaha/base/error.h]. *)
Definition SIGS_E_INVALID_SIGNATURE : HRESULT := MAKE_HRESULT SEVERITY_ERROR FACILITY_ITF 0x0204.
Definition GOOPDATEDOWNLOAD_E_FILE_SIZE_ZERO : HRESULT := MAKE_HRESULT SEVERITY_ERROR FACILITY_ITF 0x507.
Definition GOOPDATEDOWNLOAD_E_FILE_SIZE_SMALLER : HRESULT := MAKE_HRESULT SEVERITY_ERROR FACILITY_ITF 0x508.
Definition GOOPDATEDOWNLOAD_E_FILE_SIZE_LARGER : HRESULT := MAKE_HRESULT SEVERITY_ERROR FACILITY_ITF 0x509.
Definition GOOPDATEDOWNLOAD_E_UNIQUE_FILE_PATH_EMPTY : HRESULT := MAKE_HRESULT SEVERITY_ERROR FACILITY_ITF 0x50A.
Definition GOOPDATEDOWNLOAD_E_CACHING_FAILED : HRESULT := MAKE_OMAHA_HRESULT SEVERITY_ERROR 0x50D.
Definition GOOPDATEDOWNLOAD_E_AUTHENTICODE_VERIFICATION_FAILED : HRESULT := MAKE_OMAHA_HRESULT SEVERITY_ERROR 0x50E.
Definition GOOPDATE_E_INSTANCES_RUNNING : HRESULT := MAKE_HRESULT SEVERITY_ERROR FACILITY_ITF 0x707.
Definition GOOPDATE_E_NO_NETWORK : HRESULT := MAKE_HRESULT SEVERITY_ERROR FACILITY_ITF 0x801.
Definition GOOPDATE_E_UNKNOWN_SERVER_RESPONSE : HRESULT := MAKE_HRESULT SEVERITY_ERROR FACILITY_ITF 0x805.
Definition GOOPDATE_E_RESTRICTED_SERVER_RESPONSE : HRESULT := MAKE_HRESULT SEVERITY_ERROR FACILITY_ITF 0x806.
Definition GOOPDATE_E_NO_UPDATE_RESPONSE : HRESULT := MAKE_HRESULT SEVERITY_ERROR FACILITY_ITF 0x809.
Definition GOOPDATE_E_UNKNOWN_APP_SERVER_RESPONSE : HRESULT := MAKE_HRESULT SEVERITY_ERROR FACILITY_ITF 0x80D.
Definition GOOPDATE_E_INTERNAL_ERROR_SERVER_RESPONSE : HRESULT := MAKE_HRESULT SEVERITY_ERROR FACILITY_ITF 0x80E.
Definition GOOPDATE_E_NO_SERVER_RESPONSE : HRESULT := MAKE_HRESULT SEVERITY_ERROR FACILITY_ITF 0x80F.
Definition GOOPDATE_E_CANCELLED : HRESULT := MAKE_HRESULT SEVERITY_ERROR FACILITY_ITF 0x810.
Definition GOOPDATE_E_OS_NOT_SUPPORTED : HRESULT := MAKE_HRESULT SEVERITY_ERROR FACILITY_ITF 0x811.
Definition GOOPDATE_E_APP_INSTALL_DISABLED_BY_POLICY : HRESULT := MAKE_HRESULT SEVERITY_ERROR FACILITY_ITF 0x812.
Definition GOOPDATE_E_APP_UPDATE_DISABLED_BY_POLICY : HRESULT := MAKE_HRESULT SEVERITY_ERROR FACILITY_ITF 0x813.
Definition GOOPDATE_E_CANNOT_USE_NETWORK : HRESULT := MAKE_HRESULT SEVERITY_ERROR FACILITY_ITF 0x815.
Definition GOOPDATE_E_APP_UPDATE_DISABLED_EULA_NOT_ACCEPTED : HRESULT := MAKE_HRESULT SEVERITY_ERROR FACILITY_ITF 0x816.
Definition GOOPDATE_E_NON_BLOCKING_CALL_PENDING : HRESULT := MAKE_OMAHA_HRESULT SEVERITY_ERROR 0x817.
Definition GOOPDATE_E_INVALID_STATE_TRANSITION : HRESULT := MAKE_OMAHA_HRESULT SEVERITY_ERROR 0x818.
Definition GOOPDATE_E_CALL_UNEXPECTED : HRESULT := MAKE_OMAHA_HRESULT SEVERITY_ERROR 0x819.
Definition GOOPDATE_E_SERVER_RESPONSE_NO_HASH : HRESULT := MAKE_HRESULT SEVERITY_ERROR FACILITY_ITF 0x81a.
Definition GOOPDATE_E_SERVER_RESPONSE_UNSUPPORTED_PROTOCOL : HRESULT := MAKE_HRESULT SEVERITY_ERROR FACILITY_ITF 0x81b.
Definition GOOPDATE_E_UPDATE_DEFERRED : HRESULT := MAKE_OMAHA_HRESULT SEVERITY_ERROR 0x81c.
Definition GOOPDATE_E_APP_USING_EXTERNAL_UPDATER : HRESULT := MAKE_OMAHA_HRESULT SEVERITY_ERROR 0x81d.
Definition GOOPDATE_E_HW_NOT_SUPPORTED : HRESULT := MAKE_HRESULT SEVERITY_ERROR FACILITY_ITF 0x81e.
Definition GOOPDATE_E_APP_UPDATE_DISABLED_BY_POLICY_MANUAL : HRESULT := MAKE_HRESULT SEVERITY_ERROR FACILITY_ITF 0x81f.
Definition OMAHA_NET_E_CUP_FIRST : HRESULT := MAKE_HRESULT SEVERITY_ERROR FACILITY_ITF 0x880.
Definition OMAHA_NET_E_CUP_LAST : HRESULT := MAKE_HRESULT SEVERITY_ERROR FACILITY_ITF 0x889.
Definition OMAHA_NET_E_CAPTIVEPORTAL : HRESULT := MAKE_HRESULT SEVERITY_ERROR FACILITY_ITF 0x891.
Definition GOOPDATEINSTALL_E_FILENAME_INVALID : HRESULT := MAKE_HRESULT SEVERITY_ERROR FACILITY_ITF 0x900.
Definition GOOPDATEINSTALL_E_INSTALLER_INTERNAL_ERROR : HRESULT := MAKE_HRESULT SEVERITY_ERROR FACILITY_ITF 0x903.
Definition GOOPDATEINSTALL_E_INSTALLER_TIMED_OUT : HRESULT := MAKE_HRESULT SEVERITY_ERROR FACILITY_ITF 0x904.
Definition GOOPDATEINSTALL_E_INSTALLER_DID_NOT_WRITE_CLIENTS_KEY : HRESULT := MAKE_HRESULT SEVERITY_ERROR FACILITY_ITF 0x905.
Definition GOOPDATEINSTALL_E_FAILED_INIT_INSTALLER_LOCK : HRESULT := MAKE_HRESULT SEVERITY_ERROR FACILITY_ITF 0x906.
Definition GOOPDATEINSTALL_E_MSI_INSTALL_ALREADY_RUNNING : HRESULT := MAKE_HRESULT SEVERITY_ERROR FACILITY_ITF 0x907.
Definition GOOPDATEINSTALL_E_INSTALLER_DID_NOT_CHANGE_VERSION : HRESULT := MAKE_HRESULT SEVERITY_ERROR FACILITY_ITF 0x908.
Definition GOOPDATEINSTALL_E_INSTALLER_VERSION_MISMATCH : HRESULT := MAKE_OMAHA_HRESULT SEVERITY_ERROR 0x90B.
Definition GOOPDATEINSTALL_E_INSTALLER_FAILED_START : HRESULT := MAKE_HRESULT SEVERITY_ERROR FACILITY_ITF 0x901.
Definition GOOPDATEINSTALL_E_INSTALLER_FAILED : HRESULT := MAKE_HRESULT SEVERITY_ERROR FACILITY_ITF 0x902.
Definition GOOPDATE_E_INVALID_INSTALL_DATA_INDEX : HRESULT := MAKE_HRESULT SEVERITY_ERROR FACILITY_ITF 0x909.
Definition GOOPDATEINSTALL_E_INVALID_UNTRUSTED_DATA : HRESULT := MAKE_OMAHA_HRESULT SEVERITY_ERROR 0x90C.
Definition GOOPDATE_E_NETWORK_FIRST : HRESULT := MAKE_HRESULT SEVERITY_ERROR FACILITY_ITF 0x2000.
Definition GOOPDATE_E_NETWORK_UNAUTHORIZED : HRESULT := MAKE_HRESULT SEVERITY_ERROR FACILITY_ITF 0x2191.
Definition GOOPDATE_E_NETWORK_FORBIDDEN : HRESULT := MAKE_HRESULT SEVERITY_ERROR FACILITY_ITF 0x2193.
Definition GOOPDATE_E_NETWORK_PROXYAUTHREQUIRED : HRESULT := MAKE_HRESULT SEVERITY_ERROR FACILITY_ITF 0x2197.
Definition GOOPDATE_E_NETWORK_LAST : HRESULT := MAKE_HRESULT SEVERITY_ERROR FACILITY_ITF 0x23FF.

(** [HRESULTFromHttpStatusCode] (wininet.h bounds the status codes). *)
Definition HTTP_STATUS_FIRST : Z := 100.
Definition HTTP_STATUS_LAST : Z := 505.

Definition HRESULTFromHttpStatusCode (status_code : Z) : HRESULT :=
  if (HTTP_STATUS_FIRST <=? status_code) && (status_code <=? HTTP_STATUS_LAST)
  then s32 (GOOPDATE_E_NETWORK_FIRST + status_code)
  else GOOPDATE_E_NETWORK_LAST.

Definition IsCupError (hr : HRESULT) : bool :=
  (OMAHA_NET_E_CUP_FIRST <=? hr) && (hr <=? OMAHA_NET_E_CUP_LAST).

(** [ErrorContext] of [app.h]: a code and the extra code reported in pings. *)
Record ErrorContext := mkErrorContext { error_code : HRESULT; extra_code1 : Z }.

Definition ErrorContext_default : ErrorContext := mkErrorContext S_OK 0.
Definition ErrorContext_of (hr : HRESULT) : ErrorContext := mkErrorContext hr 0.

(** ** Facts *)

Lemma FAILED_not_SUCCEEDED hr : FAILED hr = negb (SUCCEEDED hr).
Proof. unfold FAILED, SUCCEEDED. apply Z.ltb_antisym. Qed.

Lemma SUCCEEDED_not_FAILED hr : SUCCEEDED hr = negb (FAILED hr).
Proof. rewrite FAILED_not_SUCCEEDED, negb_involutive. done. Qed.

Lemma FAILED_S_OK : FAILED S_OK = false.
Proof. reflexivity. Qed.

(** Every HTTP status maps into the network error range, as a failure. *)
Lemma HRESULTFromHttpStatusCode_range status :
  GOOPDATE_E_NETWORK_FIRST <= HRESULTFromHttpStatusCode status <= GOOPDATE_E_NETWORK_LAST
  /\ FAILED (HRESULTFromHttpStatusCode status) = true.
Proof.
  unfold HRESULTFromHttpStatusCode, FAILED.
  change GOOPDATE_E_NETWORK_FIRST with (-2147213312).
  change GOOPDATE_E_NETWORK_LAST with (-2147212289).
  unfold HTTP_STATUS_FIRST, HTTP_STATUS_LAST.
  destruct (_ && _) eqn:E; [|split; [lia|reflexivity]].
  apply andb_true_iff in E as [E1 E2]. rewrite s32_small by lia. split; lia.
Qed.

(** Distinct HTTP statuses of the range give distinct codes. *)
Lemma HRESULTFromHttpStatusCode_inj a b :
  HTTP_STATUS_FIRST <= a <= HTTP_STATUS_LAST ->
  HTTP_STATUS_FIRST <= b <= HTTP_STATUS_LAST ->
  HRESULTFromHttpStatusCode a = HRESULTFromHttpStatusCode b -> a = b.
Proof.
  unfold HRESULTFromHttpStatusCode, HTTP_STATUS_FIRST, HTTP_STATUS_LAST. intros Ha Hb.
  change GOOPDATE_E_NETWORK_FIRST with (-2147213312).
  rewrite (proj2 (andb_true_iff _ _)) by lia.
  rewrite (proj2 (andb_true_iff (100 <=? b) (b <=? 505))) by lia.
  rewrite !s32_small by lia. lia.
Qed.

(** The codes of the system are in the facility of Windows. *)
Lemma HRESULTFromLastError_range e :
  0 <= e < 2 ^ 16 -> HRESULTFromLastError e = E_FAIL \/ 0x80070000 - 2 ^ 32 <= HRESULTFromLastError e < 0x80080000 - 2 ^ 32.
Proof.
  intros He. unfold HRESULTFromLastError. destruct (Z.eqb_spec e 0) as [->|Hne]; [by left|]. right. cbn [negb].
  unfold HRESULT_FROM_WIN32. rewrite s32_small by lia. rewrite (proj2 (Z.leb_gt _ _)) by lia.
  change 0xFFFF with (2 ^ 16 - 1). rewrite land_mask_mod, Z.mod_small by lia.
  rewrite (Z.lor_comm e), lor_shiftl_add by lia. change 0x80000000 with (Z.shiftl 1 31).
  rewrite Z.lor_comm, lor_shiftl_add by lia. unfold s32. Z.div_mod_to_equations. lia.
Qed.
