(* ===== verification/CStrings.v ===== *)
(** String and version helpers shared by the components: comparison without
    case, ATL's [CString::Tokenize], the checked decimal conversion of
    [omaha/base/string.cc] and the dotted-quad versions of
    [omaha/base/utils.cc]. *)

From S2P Require Import Prelude.

(** ** Characters and comparison *)

(** [_totlower] in the "C" locale. *)
Definition String_ToLowerChar (c : Z) : Z :=
  if (65 <=? c) && (c <=? 90) then c + 32 else c.

Definition MakeLower (s : CString) : CString := String_ToLowerChar <$> s.

(** [CString::CompareNoCase(b) == 0], [_tcsicmp(a, b) == 0]. *)
Definition EqualNoCase (a b : CString) : bool :=
  bool_decide (MakeLower a = MakeLower b).

Definition String_IsDigit (c : Z) : bool := (48 <=? c) && (c <=? 57).

(** [iswspace] in the "C" locale. *)
Definition is_space (c : Z) : bool := ((9 <=? c) && (c <=? 13)) || (c =? 32).

Fixpoint take_while (p : Z -> bool) (s : CString) : CString :=
  match s with
  | [] => []
  | c :: s' => if p c then c :: take_while p s' else []
  end.

Fixpoint drop_while (p : Z -> bool) (s : CString) : CString :=
  match s with
  | [] => []
  | c :: s' => if p c then drop_while p s' else s
  end.

(** A [const TCHAR*] argument ends at the first NUL. *)
Definition c_str (s : CString) : CString := take_while (fun c => negb (c =? 0)) s.

(** [CString::Trim]. *)
Definition Trim (s : CString) : CString :=
  reverse (drop_while is_space (reverse (drop_while is_space s))).

(** ** Tokenize

    [s.Tokenize(tokens, pos)] of ATL: skips delimiters from [pos], returns the
    run up to the next delimiter and the position after that delimiter, or the
    empty string and -1 when nothing is left. *)
Definition is_delim (delims : CString) (c : Z) : bool := existsb (Z.eqb c) delims.

Definition Tokenize (s delims : CString) (pos : Z) : CString * Z :=
  let place := drop (Z.to_nat pos) s in
  let rest := drop_while (is_delim delims) place in
  match rest with
  | [] => ([], -1)
  | _ =>
      let token := take_while (fun c => negb (is_delim delims c)) rest in
      let iFrom := pos + (Z.of_nat (length place) - Z.of_nat (length rest)) in
      (token, iFrom + Z.of_nat (length token) + 1)
  end.

(** ** Decimal conversion *)

Definition LONG_MAX : Z := 2 ^ 31 - 1.
Definition LONG_MIN : Z := - 2 ^ 31.

Definition digits_value (ds : CString) : Z :=
  fold_left (fun acc c => acc * 10 + (c - 48)) ds 0.

Definition strip_sign (s : CString) : bool * CString :=
  match s with
  | [] => (false, s)
  | c :: s' => if c =? 45 then (true, s') else if c =? 43 then (false, s') else (false, s)
  end.

(** [_tcstol(str, &end_ptr, 10)]: the value, what [end_ptr] points at ([None]
    when nothing was converted, so that [end_ptr] is [str]) and [ERANGE]. *)
Definition tcstol (str : CString) : Z * option CString * bool :=
  let s := drop_while is_space str in
  let '(neg, s1) := strip_sign s in
  let ds := take_while String_IsDigit s1 in
  let rest := drop_while String_IsDigit s1 in
  match ds with
  | [] => (0, None, false)
  | _ =>
      let v := if neg : bool then - digits_value ds else digits_value ds in
      if v >? LONG_MAX then (LONG_MAX, Some rest, true)
      else if v <? LONG_MIN then (LONG_MIN, Some rest, true)
      else (v, Some rest, false)
  end.

(** [String_StringToDecimalIntChecked(str, &value)]: [None] is [false]. *)
Definition String_StringToDecimalIntChecked (str : CString) : option Z :=
  let '(value, end_ptr, erange) := tcstol (c_str str) in
  if erange then None
  else if value =? 0 then
    match end_ptr with
    | None => None
    | Some rest => if IsEmpty rest then Some value else None
    end
  else
    match end_ptr with
    | None => None
    | Some rest => if IsEmpty rest then Some value else None
    end.

(** [printf]'s "%u" of an unsigned value; [fuel] bounds the digits printed,
    and 20 digits hold every 64-bit value. *)
Fixpoint decimal_go (fuel : nat) (n : Z) (acc : CString) : CString :=
  match fuel with
  | O => acc
  | S fuel' =>
      let acc' := (48 + n mod 10) :: acc in
      if n / 10 =? 0 then acc' else decimal_go fuel' (n / 10) acc'
  end.

Definition decimal (n : Z) : CString := decimal_go 20 n [].

(** [String_Int64ToString] and [String_Uint64ToString] write the digits into a
    buffer of 66 characters in reverse order, least significant first. *)
Definition digit_char (digit : Z) : Z :=
  if 9 <? digit then u16 (97 + digit - 10) else u16 (48 + digit).

(** The [do ... while (value > 0)] loop; 65 digits hold any 64-bit value in
    any radix from 2 on, [fuel] is that bound. *)
Fixpoint reversed_digits (fuel : nat) (value radix : Z) : CString :=
  match fuel with
  | O => []
  | S fuel' =>
      let digit := u16 (Z.rem value radix) in
      let value' := Z.quot value radix in
      digit_char digit :: (if 0 <? value' then reversed_digits fuel' value' radix else [])
  end.

Definition String_Int64ToString (value radix : Z) : CString :=
  let negative := value <? 0 in
  let value' := if negative then s64 (- value) else value in
  let temp := reversed_digits 65 value' radix ++ (if negative then _T "-" else []) in
  reverse temp.

Definition String_Uint64ToString (value radix : Z) : CString :=
  reverse (reversed_digits 65 value radix).

Definition itostr (i : Z) : CString := String_Int64ToString i 10.

(** [Tristate] and [String_StringToTristate]: [None] is [false]. *)
Inductive Tristate := TRISTATE_FALSE | TRISTATE_TRUE | TRISTATE_NONE.

#[export] Instance Tristate_eq_dec : EqDecision Tristate.
Proof. solve_decision. Defined.

Definition String_StringToTristate (str : CString) : option Tristate :=
  match String_StringToDecimalIntChecked str with
  | None => None
  | Some numerical_value =>
      if numerical_value =? 0 then Some TRISTATE_FALSE
      else if numerical_value =? 1 then Some TRISTATE_TRUE
      else if numerical_value =? 2 then Some TRISTATE_NONE
      else None
  end.

(** ** Dotted-quad versions *)

(** [MAKEDLLVERULL(major, minor, build, qfe)]. *)
Definition MAKEDLLVERULL (major minor build qfe : Z) : Z :=
  u64 (Z.lor (Z.lor (Z.lor (Z.shiftl major 48) (Z.shiftl minor 32)) (Z.shiftl build 16)) qfe).

(** The loop of [VersionFromString]: the quads parsed and the final [pos]. *)
Fixpoint version_quads (n : nat) (s : CString) (pos : Z) : option (list Z * Z) :=
  match n with
  | O => Some ([], pos)
  | S n' =>
      let '(q, pos') := Tokenize s (_T ".") pos in
      if pos' =? -1 then None
      else
        match String_StringToDecimalIntChecked q with
        | None => None
        | Some quad_value =>
            let quad := u32 quad_value in
            if 65535 <? quad then None
            else
              match version_quads n' s pos' with
              | None => None
              | Some (qs, p) => Some (quad :: qs, p)
              end
        end
  end.

Definition VersionFromString (s : CString) : Z :=
  match version_quads 4 s 0 with
  | Some ([q0; q1; q2; q3], pos) =>
      if negb (Z.of_nat (length s) + 1 =? pos) then 0
      else MAKEDLLVERULL q0 q1 q2 q3
  | _ => 0
  end.

Definition LOWORD (x : Z) : Z := Z.land x 0xFFFF.
Definition HIWORD (x : Z) : Z := Z.land (Z.shiftr x 16) 0xFFFF.

Definition StringFromVersion (version : Z) : CString :=
  let version_major := HIWORD (Z.shiftr version 32) in
  let version_minor := LOWORD (Z.shiftr version 32) in
  let version_build := HIWORD version in
  let version_patch := LOWORD version in
  decimal version_major ++ _T "." ++ decimal version_minor ++ _T "." ++
  decimal version_build ++ _T "." ++ decimal version_patch.

(** ** Facts about scanning *)

Lemma take_while_all p s : forallb p s = true -> take_while p s = s.
Proof.
  induction s as [|c s IH]; simpl; [done|]. intros [-> Hs]%andb_true_iff. by rewrite IH.
Qed.

Lemma take_while_stop p s c t :
  forallb p s = true -> p c = false -> take_while p (s ++ c :: t) = s.
Proof.
  induction s as [|d s IH]; simpl; [by intros _ ->|].
  intros [-> Hs]%andb_true_iff Hc. by rewrite IH.
Qed.

Lemma drop_while_all p s : forallb p s = true -> drop_while p s = [].
Proof. induction s as [|c s IH]; simpl; [done|]. intros [-> Hs]%andb_true_iff. by apply IH. Qed.

Lemma drop_while_none p c s : p c = false -> drop_while p (c :: s) = c :: s.
Proof. by simpl; intros ->. Qed.

Lemma take_drop_while p s : take_while p s ++ drop_while p s = s.
Proof. induction s as [|c s IH]; simpl; [done|]. destruct (p c); simpl; by rewrite ?IH. Qed.

Lemma forallb_impl {A} (p q : A -> bool) l :
  (forall x, p x = true -> q x = true) -> forallb p l = true -> forallb q l = true.
Proof.
  intros Hpq. induction l as [|x l IH]; simpl; [done|].
  intros [Hx Hl]%andb_true_iff. rewrite Hpq by done. by apply IH.
Qed.

(** A token between two dots (or before the end) is found whole, and the scan
    resumes right behind its dot. *)
Lemma Tokenize_token pre c tok post :
  forallb String_IsDigit (c :: tok) = true ->
  (post = [] \/ exists post', post = 46 :: post') ->
  Tokenize (pre ++ (c :: tok) ++ post) (_T ".") (Z.of_nat (length pre)) =
  (c :: tok, Z.of_nat (length pre) + Z.of_nat (length (c :: tok)) + 1).
Proof.
  intros Hd Hpost. unfold Tokenize. rewrite Nat2Z.id, drop_app_length.
  assert (forall x, String_IsDigit x = true -> negb (is_delim (_T ".") x) = true) as Hnd.
  { unfold String_IsDigit, is_delim. intros x Hx.
    change (_T ".") with [46]. cbn [existsb]. lia. }
  pose proof (forallb_impl _ _ _ Hnd Hd) as Hf.
  assert (is_delim (_T ".") c = false) as Hc.
  { apply negb_true_iff. simpl forallb in Hf. by apply andb_true_iff in Hf as [? _]. }
  change ((c :: tok) ++ post) with (c :: (tok ++ post)).
  rewrite drop_while_none by done. cbv beta iota zeta.
  assert (take_while (fun x => negb (is_delim (_T ".") x)) (c :: tok ++ post) = c :: tok) as ->.
  { destruct Hpost as [->|[post' ->]].
    - rewrite app_nil_r. by apply take_while_all.
    - change (c :: tok ++ 46 :: post') with ((c :: tok) ++ 46 :: post').
      by apply take_while_stop. }
  f_equal. lia.
Qed.

(** In general: separators are skipped, and the token ends at the next one. *)
Lemma Tokenize_next delims pre seps tok post :
  forallb (is_delim delims) seps = true -> tok <> [] ->
  forallb (fun c => negb (is_delim delims c)) tok = true ->
  (post = [] \/ exists d post', post = d :: post' /\ is_delim delims d = true) ->
  Tokenize (pre ++ seps ++ tok ++ post) delims (Z.of_nat (length pre)) =
  (tok, Z.of_nat (length pre) + Z.of_nat (length seps) + Z.of_nat (length tok) + 1).
Proof.
  intros Hseps Hne Htok Hpost. unfold Tokenize. rewrite Nat2Z.id, drop_app_length.
  assert (drop_while (is_delim delims) (seps ++ tok ++ post) = tok ++ post) as ->.
  { clear Hpost. induction seps as [|d seps IH]; cbn [app].
    - destruct tok as [|c tok]; [done|]. apply andb_true_iff in Htok as [Hc _].
      cbn [app]. rewrite drop_while_none; [done|]. by apply negb_true_iff.
    - apply andb_true_iff in Hseps as [Hd Hseps]. cbn [drop_while]. rewrite Hd. by apply IH. }
  assert (take_while (fun c => negb (is_delim delims c)) (tok ++ post) = tok) as ->.
  { destruct Hpost as [->|(d & post' & -> & Hd)].
    - rewrite app_nil_r. by apply take_while_all.
    - apply take_while_stop; [done|]. by rewrite Hd. }
  destruct (tok ++ post) as [|x l] eqn:E; [by destruct tok|].
  assert (length (x :: l) = length tok + length post)%nat as Hlen by (rewrite <- E; apply length_app).
  f_equal. rewrite <- E, !length_app. lia.
Qed.

(** The same along the rest of the string. *)
Lemma Tokenize_more delims s pos seps tok d rest :
  0 <= pos -> drop (Z.to_nat pos) s = seps ++ tok ++ d :: rest ->
  forallb (is_delim delims) seps = true -> tok <> [] ->
  forallb (fun c => negb (is_delim delims c)) tok = true -> is_delim delims d = true ->
  exists pos', Tokenize s delims pos = (tok, pos') /\ 0 <= pos' /\ drop (Z.to_nat pos') s = rest.
Proof.
  intros Hpos Hs Hseps Hne Htok Hd.
  assert (Z.to_nat pos <= length s)%nat as Hlen.
  { destruct (decide (Z.to_nat pos <= length s)%nat); [done|]. rewrite drop_ge in Hs by lia. by destruct seps, tok. }
  eexists. split; [|split; cycle 1].
  - pose proof (Tokenize_next delims (take (Z.to_nat pos) s) seps tok (d :: rest) Hseps Hne Htok ltac:(eauto)) as Ht.
    rewrite <- Hs, take_drop, length_take_le, Z2Nat.id in Ht by lia. exact Ht.
  - replace (Z.to_nat _) with (Z.to_nat pos + length (seps ++ tok ++ [d]))%nat by (rewrite !length_app; cbn; lia).
    rewrite <- drop_drop, Hs.
    replace (seps ++ tok ++ d :: rest) with ((seps ++ tok ++ [d]) ++ rest) by (by rewrite <- !app_assoc).
    apply drop_app_length.
  - lia.
Qed.

Lemma Tokenize_last delims s pos seps tok :
  0 <= pos -> drop (Z.to_nat pos) s = seps ++ tok ->
  forallb (is_delim delims) seps = true -> tok <> [] ->
  forallb (fun c => negb (is_delim delims c)) tok = true ->
  exists pos', Tokenize s delims pos = (tok, pos') /\ 0 <= pos' /\ drop (Z.to_nat pos') s = [].
Proof.
  intros Hpos Hs Hseps Hne Htok.
  assert (Z.to_nat pos <= length s)%nat as Hlen.
  { destruct (decide (Z.to_nat pos <= length s)%nat); [done|]. rewrite drop_ge in Hs by lia. by destruct seps, tok. }
  pose proof (Tokenize_next delims (take (Z.to_nat pos) s) seps tok [] Hseps Hne Htok ltac:(by left)) as Ht.
  rewrite app_nil_r, <- Hs, take_drop, length_take_le, Z2Nat.id in Ht by lia.
  eexists. split; [exact Ht|]. split; [lia|]. apply drop_ge.
  apply (f_equal length) in Hs. rewrite length_drop, length_app in Hs. lia.
Qed.

Lemma Tokenize_done delims s pos : drop (Z.to_nat pos) s = [] -> Tokenize s delims pos = ([], -1).
Proof. unfold Tokenize. by intros ->. Qed.

(** A token is followed by a position further on. *)
Lemma Tokenize_advances delims s pos tok pos' :
  0 <= pos -> Tokenize s delims pos = (tok, pos') -> tok <> [] -> pos < pos' <= Z.of_nat (length s) + 1.
Proof.
  intros Hpos Ht Hne. unfold Tokenize in Ht. set (place := drop _ s) in Ht. set (rest := drop_while _ place) in Ht.
  assert (length rest <= length place)%nat as Hle.
  { pose proof (take_drop_while (is_delim delims) place) as Hp. apply (f_equal length) in Hp.
    rewrite length_app in Hp. subst rest. lia. }
  destruct rest as [|c rest']; [by injection Ht as <- _|]. set (rest := c :: rest') in *. cbv zeta in Ht.
  remember (take_while _ rest) as t eqn:Hteq.
  assert (length t <= length rest)%nat as Hle2.
  { pose proof (take_drop_while (fun c => negb (is_delim delims c)) rest) as Hp. apply (f_equal length) in Hp.
    rewrite length_app in Hp. subst t. lia. }
  injection Ht as <- <-. destruct t as [|x t]; [done|]. cbn [length] in *.
  assert (length rest = S (length rest')) as Hrest by done.
  assert (length place = length s - Z.to_nat pos)%nat as Hplace by apply length_drop. lia.
Qed.

Lemma Tokenize_empty delims s pos pos' : Tokenize s delims pos = ([], pos') -> pos' = -1.
Proof.
  unfold Tokenize. destruct (drop_while _ _) as [|c rest] eqn:Hr; [by intros [= <-]|]. cbv zeta.
  assert (is_delim delims c = false) as Hc.
  { revert Hr. induction (drop (Z.to_nat pos) s) as [|d l IH]; cbn [drop_while]; [done|].
    destruct (is_delim delims d) eqn:Hd; [done|]. by intros [= -> ->]. }
  cbn [take_while]. by rewrite Hc.
Qed.

(** ** Facts about decimal conversion *)

Lemma digits_value_snoc ds c : digits_value (ds ++ [c]) = digits_value ds * 10 + (c - 48).
Proof. unfold digits_value. by rewrite fold_left_app. Qed.

Lemma decimal_go_spec fuel n acc :
  0 <= n < 10 ^ Z.of_nat fuel -> (0 < fuel)%nat ->
  exists c ds, decimal_go fuel n acc = (c :: ds) ++ acc
    /\ forallb String_IsDigit (c :: ds) = true /\ digits_value (c :: ds) = n.
Proof.
  revert n acc. induction fuel as [|fuel IH]; intros n acc Hn Hf; [lia|].
  cbn [decimal_go]. pose proof (Z.mod_pos_bound n 10 ltac:(lia)) as Hm.
  assert (String_IsDigit (48 + n mod 10) = true) as Hdig by (unfold String_IsDigit; lia).
  pose proof (Z.div_mod n 10 ltac:(lia)) as Hdm.
  destruct (Z.eqb_spec (n / 10) 0) as [H0|H0].
  - exists (48 + n mod 10), []. cbn [forallb]. rewrite Hdig. split_and!; [done|done|].
    unfold digits_value. simpl. lia.
  - rewrite Nat2Z.inj_succ, Z.pow_succ_r in Hn by lia.
    assert (0 <= n / 10 < 10 ^ Z.of_nat fuel) as Hn'.
    { split; [apply Z.div_pos; lia|apply Z.div_lt_upper_bound; lia]. }
    destruct fuel as [|fuel]; [rewrite Z.pow_0_r in Hn'; lia|].
    destruct (IH (n / 10) ((48 + n mod 10) :: acc) Hn' ltac:(lia)) as (c & ds & -> & Hall & Hv).
    exists c, (ds ++ [48 + n mod 10]).
    rewrite app_comm_cons, forallb_app, Hall, digits_value_snoc, Hv, <- app_assoc.
    cbn [forallb]. rewrite Hdig. split_and!; [done|done|lia].
Qed.

Lemma decimal_spec n :
  0 <= n < 10 ^ 20 ->
  exists c ds, decimal n = c :: ds
    /\ forallb String_IsDigit (c :: ds) = true /\ digits_value (c :: ds) = n.
Proof.
  intros Hn. destruct (decimal_go_spec 20 n [] Hn ltac:(lia)) as (c & ds & H & ? & ?).
  exists c, ds. rewrite app_nil_r in H. done.
Qed.

(** In radix 10, the digits written in reverse are those of [decimal_go]. *)
Lemma decimal_go_acc fuel n acc : decimal_go fuel n acc = decimal_go fuel n [] ++ acc.
Proof.
  revert n acc. induction fuel as [|fuel IH]; intros n acc; [done|]. cbn [decimal_go].
  destruct (n / 10 =? 0); [done|]. rewrite IH, (IH _ [_]), <- app_assoc. done.
Qed.

Lemma reversed_digits_decimal fuel n :
  0 <= n -> reverse (reversed_digits fuel n 10) = decimal_go fuel n [].
Proof.
  revert n. induction fuel as [|fuel IH]; intros n Hn; [done|].
  cbn [reversed_digits decimal_go]. rewrite Z.rem_mod_nonneg, Z.quot_div_nonneg by lia.
  pose proof (Z.mod_pos_bound n 10 ltac:(lia)).
  assert (0 <= n / 10) by (apply Z.div_pos; lia).
  assert (digit_char (u16 (n mod 10)) = 48 + n mod 10) as ->.
  { unfold digit_char, u16. rewrite (Z.mod_small (n mod 10)) by lia.
    destruct (Z.ltb_spec 9 (n mod 10)); [lia|]. apply Z.mod_small. lia. }
  rewrite reverse_cons.
  destruct (Z.ltb_spec 0 (n / 10)), (Z.eqb_spec (n / 10) 0); try lia; [|done].
  rewrite IH, (decimal_go_acc fuel _ [_]) by lia. done.
Qed.

(** The digits of a non-negative 64-bit value. *)
Lemma reversed_digits_spec n :
  0 <= n < 2 ^ 64 ->
  exists c ds, reverse (reversed_digits 65 n 10) = c :: ds
    /\ forallb String_IsDigit (c :: ds) = true /\ digits_value (c :: ds) = n.
Proof.
  intros Hn. rewrite reversed_digits_decimal by lia.
  assert (0 <= n < 10 ^ Z.of_nat 65) as Hn'.
  { split; [lia|]. transitivity (2 ^ 64); [lia|reflexivity]. }
  destruct (decimal_go_spec 65 n [] Hn' ltac:(lia)) as (c & ds & H & ? & ?).
  exists c, ds. rewrite app_nil_r in H. done.
Qed.

(** [tcstol] on an optional minus sign and digits. *)
Lemma tcstol_digits (neg : bool) c ds :
  forallb String_IsDigit (c :: ds) = true ->
  LONG_MIN <= (if neg then - digits_value (c :: ds) else digits_value (c :: ds)) <= LONG_MAX ->
  tcstol ((if neg then [45] else []) ++ c :: ds) =
  (if neg then - digits_value (c :: ds) else digits_value (c :: ds), Some [], false).
Proof.
  intros Hd Hv. unfold tcstol.
  assert (String_IsDigit c = true) as Hc by (simpl in Hd; by apply andb_true_iff in Hd as [? _]).
  assert (drop_while is_space ((if neg then [45] else []) ++ c :: ds) =
          (if neg then [45] else []) ++ c :: ds) as ->.
  { destruct neg; [done|]. apply drop_while_none. unfold String_IsDigit, is_space in *. lia. }
  assert (strip_sign ((if neg then [45] else []) ++ c :: ds) = (neg, c :: ds)) as ->.
  { destruct neg; [done|]. simpl. unfold String_IsDigit in Hc.
    destruct (Z.eqb_spec c 45), (Z.eqb_spec c 43); (done || lia). }
  rewrite take_while_all, drop_while_all by done.
  destruct (Z.gtb_spec (if neg then - digits_value (c :: ds) else digits_value (c :: ds)) LONG_MAX); [lia|].
  destruct (Z.ltb_spec (if neg then - digits_value (c :: ds) else digits_value (c :: ds)) LONG_MIN); [lia|].
  done.
Qed.

(** A run of digits that fits a [long] converts to its value. *)
Lemma StringToDecimalIntChecked_signed (neg : bool) c ds :
  forallb String_IsDigit (c :: ds) = true ->
  LONG_MIN <= (if neg then - digits_value (c :: ds) else digits_value (c :: ds)) <= LONG_MAX ->
  String_StringToDecimalIntChecked ((if neg then [45] else []) ++ c :: ds) =
  Some (if neg then - digits_value (c :: ds) else digits_value (c :: ds)).
Proof.
  intros Hd Hv. unfold String_StringToDecimalIntChecked, c_str.
  rewrite take_while_all.
  2:{ rewrite forallb_app. apply andb_true_iff. split; [by destruct neg|].
      eapply forallb_impl; [|exact Hd]. unfold String_IsDigit. lia. }
  rewrite tcstol_digits by done. simpl IsEmpty. by destruct (_ =? 0).
Qed.

Lemma StringToDecimalIntChecked_digits c ds :
  forallb String_IsDigit (c :: ds) = true -> 0 <= digits_value (c :: ds) <= LONG_MAX ->
  String_StringToDecimalIntChecked (c :: ds) = Some (digits_value (c :: ds)).
Proof.
  intros Hd Hv. apply (StringToDecimalIntChecked_signed false); [done|].
  unfold LONG_MIN. lia.
Qed.

(** Every [int] prints to a string that the checked conversion reads back. *)
Lemma itostr_roundtrip i :
  - 2 ^ 31 <= i < 2 ^ 31 -> String_StringToDecimalIntChecked (itostr i) = Some i.
Proof.
  intros Hi. unfold itostr, String_Int64ToString.
  destruct (Z.ltb_spec i 0) as [Hneg|Hpos].
  - rewrite s64_small, reverse_app by lia.
    destruct (reversed_digits_spec (- i) ltac:(lia)) as (c & ds & -> & Hd & Hv).
    change (reverse (_T "-")) with (if true then [45] else [] : CString).
    rewrite StringToDecimalIntChecked_signed, Hv; [f_equal; lia|done|].
    rewrite Hv. unfold LONG_MIN, LONG_MAX. lia.
  - rewrite app_nil_r. destruct (reversed_digits_spec i ltac:(lia)) as (c & ds & -> & Hd & Hv).
    rewrite StringToDecimalIntChecked_digits, Hv; [done|done|].
    rewrite Hv. unfold LONG_MAX. lia.
Qed.

(** What the two theorems above give a WORD printed with "%u". *)
Lemma decimal_word n :
  0 <= n < 2 ^ 16 ->
  exists c ds, decimal n = c :: ds /\ forallb String_IsDigit (c :: ds) = true
    /\ String_StringToDecimalIntChecked (c :: ds) = Some n.
Proof.
  intros Hn. destruct (decimal_spec n ltac:(lia)) as (c & ds & H1 & H2 & H3).
  exists c, ds. split_and!; [done..|]. rewrite StringToDecimalIntChecked_digits, H3; [done|done|].
  unfold LONG_MAX. lia.
Qed.

(** ** Facts about versions *)

Lemma MAKEDLLVERULL_add a b c d :
  0 <= a < 2 ^ 16 -> 0 <= b < 2 ^ 16 -> 0 <= c < 2 ^ 16 -> 0 <= d < 2 ^ 16 ->
  MAKEDLLVERULL a b c d = ((a * 2 ^ 16 + b) * 2 ^ 16 + c) * 2 ^ 16 + d.
Proof.
  intros Ha Hb Hc Hd. unfold MAKEDLLVERULL.
  replace (Z.shiftl a 48) with (Z.shiftl (Z.shiftl (Z.shiftl a 16) 16) 16)
    by (rewrite !Z.shiftl_shiftl by lia; f_equal).
  replace (Z.shiftl b 32) with (Z.shiftl (Z.shiftl b 16) 16)
    by (rewrite !Z.shiftl_shiftl by lia; f_equal).
  rewrite <- !Z.shiftl_lor, !lor_shiftl_add by lia.
  apply u64_small. lia.
Qed.

Lemma version_fields v :
  0 <= v < 2 ^ 64 ->
  exists a b c d, 0 <= a < 2 ^ 16 /\ 0 <= b < 2 ^ 16 /\ 0 <= c < 2 ^ 16 /\ 0 <= d < 2 ^ 16
    /\ HIWORD (Z.shiftr v 32) = a /\ LOWORD (Z.shiftr v 32) = b
    /\ HIWORD v = c /\ LOWORD v = d
    /\ v = ((a * 2 ^ 16 + b) * 2 ^ 16 + c) * 2 ^ 16 + d.
Proof.
  intros Hv. unfold HIWORD, LOWORD. change 0xFFFF with (2 ^ 16 - 1).
  rewrite !land_mask_mod, !Z.shiftr_shiftr, !Z.shiftr_div_pow2 by lia.
  exists (v / 2 ^ (32 + 16) mod 2 ^ 16), (v / 2 ^ 32 mod 2 ^ 16),
    (v / 2 ^ 16 mod 2 ^ 16), (v mod 2 ^ 16).
  split_and!; try reflexivity; try (apply Z.mod_pos_bound; lia).
  rewrite (Z.mod_small (v / 2 ^ (32 + 16))).
  2:{ split; [apply Z.div_pos; lia|apply Z.div_lt_upper_bound; lia]. }
  change (32 + 16) with 48.
  pose proof (Z.div_mod v (2 ^ 16) ltac:(lia)).
  pose proof (Z.div_mod (v / 2 ^ 16) (2 ^ 16) ltac:(lia)) as H1.
  pose proof (Z.div_mod (v / 2 ^ 32) (2 ^ 16) ltac:(lia)) as H2.
  rewrite Z.div_div in H1, H2 by lia. change (2 ^ 16 * 2 ^ 16) with (2 ^ 32) in H1.
  change (2 ^ 32 * 2 ^ 16) with (2 ^ 48) in H2. lia.
Qed.

(** One step of the loop of [VersionFromString] at a printed WORD. *)
Lemma version_quads_step n pre q post qs p :
  0 <= q < 2 ^ 16 -> (post = [] \/ exists post', post = 46 :: post') ->
  version_quads n (pre ++ decimal q ++ post)
    (Z.of_nat (length pre) + Z.of_nat (length (decimal q)) + 1) = Some (qs, p) ->
  version_quads (S n) (pre ++ decimal q ++ post) (Z.of_nat (length pre)) = Some (q :: qs, p).
Proof.
  intros Hq Hpost Hrec. destruct (decimal_word q Hq) as (c & ds & Hdec & Hd & Hval).
  rewrite Hdec in *. cbn [version_quads]. rewrite Tokenize_token by done.
  destruct (Z.eqb_spec (Z.of_nat (length pre) + Z.of_nat (length (c :: ds)) + 1) (-1)); [lia|].
  rewrite Hval, u32_small by lia. destruct (Z.ltb_spec 65535 q); [lia|]. by rewrite Hrec.
Qed.

Example VersionFromString_ex1 : VersionFromString (_T "1.3.99.0") = 0x0001000300630000.
Proof. vm_compute. reflexivity. Qed.
Example VersionFromString_ex2 :
  map VersionFromString [_T "1.2.3"; _T "1.2.3.4.5"; _T "1.2.3.65536"; _T "1.2.a.4"; _T ""] = [0; 0; 0; 0; 0].
Proof. vm_compute. reflexivity. Qed.
Example StringFromVersion_ex : StringFromVersion 0x0001000300630000 = _T "1.3.99.0".
Proof. vm_compute. reflexivity. Qed.

(** Printing a version and reading it back is the identity on all 64-bit
    versions, so package directories named by [StringFromVersion] are read
    back as the version they were made for. *)
Lemma StringFromVersion_roundtrip v :
  0 <= v < 2 ^ 64 -> VersionFromString (StringFromVersion v) = v.
Proof.
  intros Hv. destruct (version_fields v Hv) as (a & b & c & d & Ha & Hb & Hc & Hd & H1 & H2 & H3 & H4 & ->).
  unfold StringFromVersion. rewrite H1, H2, H3, H4. clear H1 H2 H3 H4 Hv.
  change (_T ".") with [46].
  set (s := decimal a ++ _). unfold VersionFromString.
  assert (version_quads 4 s 0 = Some ([a; b; c; d], Z.of_nat (length s) + 1)) as ->.
  { apply (version_quads_step 3 []); [done|eauto|].
    pose (p1 := decimal a ++ [46]). pose (p2 := p1 ++ decimal b ++ [46]).
    pose (p3 := p2 ++ decimal c ++ [46]).
    assert (s = p1 ++ decimal b ++ [46] ++ decimal c ++ [46] ++ decimal d) as E1
      by (unfold s, p1; by rewrite <- !app_assoc).
    assert (s = p2 ++ decimal c ++ [46] ++ decimal d) as E2
      by (unfold s, p2, p1; by rewrite <- !app_assoc).
    assert (s = p3 ++ decimal d ++ []) as E3
      by (unfold s, p3, p2, p1; by rewrite app_nil_r, <- !app_assoc).
    replace (_ + _ + 1) with (Z.of_nat (length p1)) by (unfold p1; rewrite length_app; simpl; lia).
    fold s. change (version_quads 3 s (Z.of_nat (length p1)) = Some ([b; c; d], Z.of_nat (length s) + 1)).
    rewrite E1. apply version_quads_step; [done|by right; eexists|]. rewrite <- E1.
    replace (_ + _ + 1) with (Z.of_nat (length p2)) by (unfold p2; rewrite !length_app; simpl; lia).
    rewrite E2. apply version_quads_step; [done|by right; eexists|]. rewrite <- E2.
    replace (_ + _ + 1) with (Z.of_nat (length p3)) by (unfold p3; rewrite !length_app; simpl; lia).
    rewrite E3. apply version_quads_step; [done|by left|]. cbn [version_quads].
    rewrite !length_app. do 2 f_equal. simpl. lia. }
  rewrite Z.eqb_refl. simpl. by apply MAKEDLLVERULL_add.
Qed.

(** Versions compare the way their dotted quads do, most significant first. *)
Lemma version_order a b c d a' b' c' d' :
  0 <= a < 2 ^ 16 -> 0 <= b < 2 ^ 16 -> 0 <= c < 2 ^ 16 -> 0 <= d < 2 ^ 16 ->
  0 <= a' < 2 ^ 16 -> 0 <= b' < 2 ^ 16 -> 0 <= c' < 2 ^ 16 -> 0 <= d' < 2 ^ 16 ->
  MAKEDLLVERULL a b c d < MAKEDLLVERULL a' b' c' d' <->
  a < a' \/ (a = a' /\ (b < b' \/ (b = b' /\ (c < c' \/ (c = c' /\ d < d'))))).
Proof. intros. rewrite !MAKEDLLVERULL_add by done. lia. Qed.

(** Whatever the string, the result is a 64-bit version. *)
Lemma VersionFromString_range s : 0 <= VersionFromString s < 2 ^ 64.
Proof.
  unfold VersionFromString.
  repeat case_match; try lia; apply u64_range.
Qed.

Example itostr_ex : map itostr [0; -2147483648; 4294967295] = [_T "0"; _T "-2147483648"; _T "4294967295"].
Proof. vm_compute. reflexivity. Qed.
