(* ===== verification/Words.v ===== *)
(** Strings taken apart at a separator: [Tokenize] of a string with one delimiter
    walks along its parts. *)

From S2P Require Import Prelude CStrings.

Fixpoint split_at (d : Z) (s : CString) : list CString :=
  match s with
  | [] => [[]]
  | c :: s' =>
      if c =? d then [] :: split_at d s'
      else match split_at d s' with
           | w :: ws => (c :: w) :: ws
           | [] => [[c]]
           end
  end.

Section Separator.
Context (d : Z).

(** The parts between the separators that are not empty. *)
Definition pieces (s : CString) : list CString := List.filter (fun w => negb (IsEmpty w)) (split_at d s).

Definition plain_word (s : CString) : Prop := forallb (fun c => negb (is_delim [d] c)) s = true.

Lemma is_separator c : is_delim [d] c = (c =? d).
Proof. unfold is_delim. cbn. by rewrite orb_false_r. Qed.

Lemma split_at_word w s : plain_word w -> split_at d (w ++ d :: s) = w :: split_at d s.
Proof.
  unfold plain_word. induction w as [|c w IH]; cbn [app split_at forallb]; [by rewrite Z.eqb_refl|].
  rewrite is_separator, andb_true_iff, negb_true_iff. intros [-> Hw]. by rewrite IH.
Qed.

Lemma split_at_last w : plain_word w -> split_at d w = [w].
Proof.
  unfold plain_word. induction w as [|c w IH]; cbn [app split_at forallb]; [done|].
  rewrite is_separator, andb_true_iff, negb_true_iff. intros [-> Hw]. by rewrite IH.
Qed.

Lemma pieces_word w s : w <> [] -> plain_word w -> pieces (w ++ d :: s) = w :: pieces s.
Proof. intros Hne Hw. unfold pieces. rewrite split_at_word by done. by destruct w. Qed.

Lemma pieces_last w : w <> [] -> plain_word w -> pieces w = [w].
Proof. intros Hne Hw. unfold pieces. rewrite split_at_last by done. by destruct w. Qed.

Lemma pieces_seps seps s : forallb (is_delim [d]) seps = true -> pieces (seps ++ s) = pieces s.
Proof.
  induction seps as [|c seps IH]; cbn [app forallb]; [done|]. rewrite is_separator. intros [->%Z.eqb_eq Hs]%andb_true_iff.
  rewrite <- (IH Hs). unfold pieces. cbn [split_at]. by rewrite Z.eqb_refl.
Qed.

(** A string is separators, a word and what follows the separator after it. *)
Lemma first_word s :
  (exists seps, s = seps /\ forallb (is_delim [d]) seps = true) \/
  exists seps w, forallb (is_delim [d]) seps = true /\ w <> [] /\ plain_word w /\
    (s = seps ++ w \/ exists rest, s = seps ++ w ++ d :: rest).
Proof.
  induction s as [|c s IH]; [by left; exists []|]. destruct (Z.eqb_spec c d) as [->|Hc].
  - destruct IH as [(seps & -> & Hs)|(seps & w & Hs & Hw & Hw2 & Hcase)].
    + left. exists (d :: seps). split; [done|]. cbn [forallb]. by rewrite is_separator, Z.eqb_refl.
    + right. exists (d :: seps), w. split; [cbn [forallb]; by rewrite is_separator, Z.eqb_refl|]. split; [done|]. split; [done|].
      destruct Hcase as [->|[rest ->]]; eauto.
  - right. exists [].
    assert (plain_word [c]) as Hc1 by (unfold plain_word; cbn [forallb]; rewrite is_separator, (proj2 (Z.eqb_neq c d)); done).
    destruct IH as [(seps & -> & Hs)|(seps & w & Hs & Hw & Hw2 & Hcase)].
    + exists [c]. split; [done|]. split; [done|]. split; [done|]. destruct seps as [|e seps]; [by left|].
      cbn [forallb] in Hs. rewrite is_separator in Hs. apply andb_true_iff in Hs as [->%Z.eqb_eq _]. eauto.
    + destruct seps as [|e seps].
      * exists (c :: w). split; [done|]. split; [done|].
        split; [unfold plain_word in *; cbn [forallb] in *; by rewrite Hw2, andb_true_r in * |].
        destruct Hcase as [->|[rest ->]]; eauto.
      * exists [c]. split; [done|]. split; [done|]. split; [done|].
        cbn [forallb] in Hs. rewrite is_separator in Hs. apply andb_true_iff in Hs as [->%Z.eqb_eq _].
        destruct Hcase as [->|[rest ->]]; cbn; eauto.
Qed.

(** [Tokenize] walks along the parts. *)
Lemma Tokenize_pieces s pos :
  0 <= pos ->
  match pieces (drop (Z.to_nat pos) s) with
  | [] => Tokenize s [d] pos = ([], -1)
  | w :: ws => w <> [] /\ exists pos', Tokenize s [d] pos = (w, pos') /\ 0 <= pos' /\ pieces (drop (Z.to_nat pos') s) = ws
  end.
Proof.
  intros Hpos. destruct (first_word (drop (Z.to_nat pos) s)) as [(seps & Hd & Hs)|(seps & w & Hs & Hw & Hw2 & [Hd|[rest Hd]])].
  - rewrite Hd, <- (app_nil_r seps), (pieces_seps seps [] Hs). change (pieces []) with (@nil CString). cbv iota.
    unfold Tokenize. by rewrite Hd, (drop_while_all _ seps Hs).
  - rewrite Hd, pieces_seps, pieces_last by done. split; [done|].
    destruct (Tokenize_last _ _ _ _ _ Hpos Hd Hs Hw Hw2) as (pos' & Ht & Hp & Hrest). exists pos'. by rewrite Hrest.
  - rewrite Hd, pieces_seps, pieces_word by done. split; [done|].
    destruct (Tokenize_more _ _ _ _ _ _ _ Hpos Hd Hs Hw Hw2 (eq_trans (is_separator d) (Z.eqb_refl d))) as (pos' & Ht & Hp & Hrest). exists pos'. by rewrite Hrest.
Qed.

(** Each part that is not empty has a character. *)
Lemma split_at_length s : exists w ws, split_at d s = w :: ws /\ (length w + length (List.filter (fun w => negb (IsEmpty w)) ws) <= length s)%nat.
Proof.
  induction s as [|c s (w & ws & Hs & Hl)]; [by exists [], []|]. cbn [split_at]. rewrite Hs. destruct (c =? d).
  - exists [], (w :: ws). split; [done|]. cbn [List.filter]. destruct w; cbn [IsEmpty negb length] in *; lia.
  - exists (c :: w), ws. split; [done|]. cbn [length]. lia.
Qed.
Lemma pieces_length s : (length (pieces s) <= length s)%nat.
Proof.
  unfold pieces. destruct (split_at_length s) as (w & ws & -> & Hl). cbn [List.filter]. destruct w; cbn [IsEmpty negb length] in *; lia.
Qed.

Lemma split_at_app s t : split_at d (s ++ d :: t) = split_at d s ++ split_at d t.
Proof.
  induction s as [|c s IH]; cbn [app split_at]; [by rewrite Z.eqb_refl|].
  destruct (c =? d); rewrite IH; [done|].
  assert (split_at d s <> []) as Hne by (destruct s as [|e s]; cbn [split_at]; [done|]; by repeat case_match).
  by destruct (split_at d s).
Qed.
End Separator.
