(* ===== verification/Maps.v ===== *)
(** [std::map<CString, V>]: an association list in the order of the keys. *)

From Stdlib Require Import Sorting.Sorted.
From S2P Require Import Prelude CStrings.

(** [CString::operator<]. *)
Fixpoint CString_ltb (a b : CString) : bool :=
  match a, b with
  | _, [] => false
  | [], _ :: _ => true
  | x :: a', y :: b' => (x <? y) || ((x =? y) && CString_ltb a' b')
  end.

Lemma CString_ltb_irrefl a : CString_ltb a a = false.
Proof. induction a as [|x a IH]; [done|]. cbn [CString_ltb]. rewrite Z.ltb_irrefl, Z.eqb_refl. exact IH. Qed.

Lemma CString_ltb_trans a b c : CString_ltb a b = true -> CString_ltb b c = true -> CString_ltb a c = true.
Proof.
  revert b c. induction a as [|x a IH]; intros [|y b] [|z c]; cbn [CString_ltb]; try done.
  rewrite !orb_true_iff, !andb_true_iff, !Z.ltb_lt, !Z.eqb_eq. intros [?|[-> ?]] [?|[-> ?]]; [lia..|].
  right. eauto.
Qed.

Lemma CString_ltb_total a b : a <> b -> CString_ltb a b = false -> CString_ltb b a = true.
Proof.
  revert b. induction a as [|x a IH]; intros [|y b] Hne; cbn [CString_ltb]; try done.
  rewrite orb_false_iff, andb_false_iff, orb_true_iff, andb_true_iff, Z.ltb_ge, Z.ltb_lt, Z.eqb_neq, Z.eqb_eq.
  intros [Hle [Hne'|Hab]]; [lia|]. destruct (decide (y = x)) as [->|]; [|lia].
  right. split; [done|]. apply IH; [congruence|done].
Qed.

(** ** The map *)

Section Maps.
Context {V : Type}.
#[local] Abbreviation smap := (list (CString * V)).

Fixpoint map_find (key : CString) (m : smap) : option V :=
  match m with
  | [] => None
  | (k, x) :: m' => if decide (k = key) then Some x else map_find key m'
  end.

Fixpoint map_put (key : CString) (x : V) (m : smap) : smap :=
  match m with
  | [] => [(key, x)]
  | (k, y) :: m' =>
      if decide (k = key) then (key, x) :: m'
      else if CString_ltb key k then (key, x) :: m
      else (k, y) :: map_put key x m'
  end.

Definition map_erase (key : CString) (m : smap) : smap :=
  List.filter (fun l => negb (bool_decide (l.1 = key))) m.

Definition key_lt (a b : CString * V) : Prop := CString_ltb a.1 b.1 = true.

Lemma map_find_put key key' x m : map_find key' (map_put key x m) = if decide (key = key') then Some x else map_find key' m.
Proof.
  induction m as [|[k y] m IH]; cbn [map_put map_find]; [done|].
  destruct (decide (k = key)) as [->|Hk]; [|destruct (CString_ltb key k)]; cbn [map_find]; rewrite ?IH;
    repeat case_decide; congruence || done.
Qed.

Lemma map_find_erase key key' m : map_find key' (map_erase key m) = if decide (key = key') then None else map_find key' m.
Proof.
  induction m as [|[k y] m IH]; cbn [map_erase map_find List.filter]; [by case_decide|].
  cbn [fst]. fold (map_erase key m). case_bool_decide; cbn [negb map_find]; rewrite IH;
    repeat case_decide; congruence || done.
Qed.

Lemma map_put_elem key x m l : l ∈ map_put key x m -> l = (key, x) \/ l ∈ m.
Proof.
  induction m as [|[k y] m IH]; cbn [map_put]; [rewrite list_elem_of_singleton; eauto|].
  repeat case_match; rewrite !elem_of_cons; naive_solver.
Qed.

Lemma map_put_sorted key x m : StronglySorted key_lt m -> StronglySorted key_lt (map_put key x m).
Proof.
  induction 1 as [|[k y] m Hm IH Hall]; cbn [map_put]; [by repeat constructor|].
  case_decide as Hk; [subst k; by constructor|]. destruct (CString_ltb key k) eqn:Hlt.
  - constructor; [by constructor|]. constructor; [done|]. eapply Forall_impl; [exact Hall|].
    intros l Hl. by eapply CString_ltb_trans.
  - constructor; [done|]. apply Forall_forall. intros l [->|Hl]%map_put_elem.
    + by apply CString_ltb_total.
    + by eapply Forall_forall in Hall.
Qed.

Lemma filter_sorted (p : CString * V -> bool) m : StronglySorted key_lt m -> StronglySorted key_lt (List.filter p m).
Proof.
  induction 1 as [|l m Hm IH Hall]; cbn [List.filter]; [constructor|]. destruct (p l); [|done].
  constructor; [done|]. apply Forall_forall. intros l' [Hl' _]%list_elem_of_In%filter_In.
  eapply Forall_forall in Hall; [done|]. by apply list_elem_of_In.
Qed.

Lemma map_erase_sorted key m : StronglySorted key_lt m -> StronglySorted key_lt (map_erase key m).
Proof. apply filter_sorted. Qed.

Lemma map_erase_elem key m l : l ∈ map_erase key m -> l ∈ m.
Proof. unfold map_erase. by intros [? _]%list_elem_of_In%filter_In; apply list_elem_of_In. Qed.


Lemma sorted_NoDup m : StronglySorted key_lt m -> NoDup m.*1.
Proof.
  induction 1 as [|[k x] m Hm IH Hall]; cbn; constructor; [|done]. intros ([k' y] & -> & Hin)%list_elem_of_fmap.
  eapply Forall_forall in Hall; [|exact Hin]. unfold key_lt in Hall. cbn in Hall. by rewrite CString_ltb_irrefl in Hall.
Qed.
End Maps.
