(* ===== verification/Paths.v ===== *)
(** Names of files and of registry keys: components separated by backslashes. *)

From S2P Require Import Prelude CStrings.

(** [path] names the directory [dir] or something below it. *)
Fixpoint strip_prefix (p l : list Z) : option (list Z) :=
  match p, l with
  | [], _ => Some l
  | x :: p', y :: l' => if x =? y then strip_prefix p' l' else None
  | _ :: _, [] => None
  end.

Definition is_at_or_below (dir path : CString) : bool :=
  match strip_prefix dir path with
  | Some [] => true
  | Some (c :: _) => c =? 92
  | None => false
  end.

(** The directories above a name. *)
Definition parents (path : CString) : list CString :=
  (fun i => take i path) <$> List.filter (fun i => match path !! i with Some c => c =? 92 | None => false end)
    (seq 0 (length path)).

(** The name of an entry of the directory [dir], when [path] is one. *)
Definition child_name (dir path : CString) : option CString :=
  match strip_prefix dir path with
  | Some (c :: name) =>
      if (c =? 92) && negb (IsEmpty name) && forallb (fun x => negb (x =? 92)) name then Some name else None
  | _ => None
  end.

Lemma strip_prefix_spec p l r : strip_prefix p l = Some r <-> l = p ++ r.
Proof.
  revert l. induction p as [|x p IH]; intros l; cbn.
  - split; [by intros [= ->]|by intros ->].
  - destruct l as [|y l]; [done|]. destruct (Z.eqb_spec x y) as [->|Hne].
    + rewrite IH. split; [by intros ->|by intros [= ->]].
    + split; [done|]. by intros [= ->].
Qed.

Lemma is_at_or_below_spec dir path :
  is_at_or_below dir path = true <-> exists r, path = dir ++ r /\ (r = [] \/ exists r', r = 92 :: r').
Proof.
  unfold is_at_or_below. split.
  - destruct (strip_prefix dir path) as [r|] eqn:E; [|done]. apply strip_prefix_spec in E as ->.
    destruct r as [|c r]; [by exists []; eauto|]. intros ->%Z.eqb_eq. exists (92 :: r). eauto.
  - intros (r & Hpath & Hr). rewrite (proj2 (strip_prefix_spec _ _ r) Hpath).
    by destruct Hr as [->|[r' ->]].
Qed.

Lemma is_at_or_below_refl p : is_at_or_below p p = true.
Proof. apply is_at_or_below_spec. exists []. rewrite app_nil_r. eauto. Qed.

Lemma is_at_or_below_trans a b c :
  is_at_or_below a b = true -> is_at_or_below b c = true -> is_at_or_below a c = true.
Proof.
  rewrite !is_at_or_below_spec. intros (r & -> & Hr) (r2 & -> & Hr2). exists (r ++ r2).
  split; [by rewrite (assoc_L (++))|]. destruct Hr as [->|[r' ->]]; [exact Hr2|]. right. by eexists.
Qed.

(** ** Names of files *)

(** [PathFindExtension]: from the last point of the last component on. *)
Fixpoint PathFindExtension (path ext : CString) : CString :=
  match path with
  | [] => ext
  | c :: path' => PathFindExtension path' (if c =? 46 then path else if (c =? 92) then [] else ext)
  end.

(** [EnclosePath]: a path that is not empty gets quotes, unless it has them. *)
Definition EnclosePath (path : CString) : CString :=
  match path with
  | [] => []
  | c :: _ => if (c =? 34) && (match last path with Some d => d =? 34 | None => false end) then path else 34 :: path ++ [34]
  end.
