(* ===== verification/Sha256.v ===== *)
(** The hash of downloaded and cached files: the streaming SHA-256 of
    omaha/base/security/sha256.c, its HMAC (hmac.c), and the theorem that
    hashing a message in pieces is the hash function of FIPS 180-4.

    A context is the byte counter, the block buffer and the eight words of
    state; [SHA256_update] feeds it byte by byte and compresses the buffer
    whenever it is full, [SHA256_final] pads through the same function. *)

From S2P Require Import Prelude.

(** ** The code *)

Definition ror (value bits : Z) : Z := Z.lor (Z.shiftr value bits) (u32 (Z.shiftl value (32 - bits))).
Definition shr (value bits : Z) : Z := Z.shiftr value bits.
Definition u8 (z : Z) : Z := z mod 2 ^ 8.

(** The [n] 32-bit words of a number, the most significant first. *)
Definition words (n : nat) (z : Z) : list Z :=
  (fun i => u32 (Z.shiftr z (32 * Z.of_nat (n - 1 - i)))) <$> seq 0 n.

(** The rows of the table of round constants. *)
Definition K : list Z := concat (words 4 <$> [
  0x428a2f9871374491b5c0fbcfe9b5dba5; 0x3956c25b59f111f1923f82a4ab1c5ed5;
  0xd807aa9812835b01243185be550c7dc3; 0x72be5d7480deb1fe9bdc06a7c19bf174;
  0xe49b69c1efbe47860fc19dc6240ca1cc; 0x2de92c6f4a7484aa5cb0a9dc76f988da;
  0x983e5152a831c66db00327c8bf597fc7; 0xc6e00bf3d5a7914706ca635114292967;
  0x27b70a852e1b21384d2c6dfc53380d13; 0x650a7354766a0abb81c2c92e92722c85;
  0xa2bfe8a1a81a664bc24b8b70c76c51a3; 0xd192e819d6990624f40e3585106aa070;
  0x19a4c1161e376c082748774c34b0bcb5; 0x391c0cb34ed8aa4a5b9cca4f682e6ff3;
  0x748f82ee78a5636f84c878148cc70208; 0x90befffaa4506cebbef9a3f7c67178f2]).

Record LITE_SHA256_CTX := mkCtx {
  ctx_count : Z;
  ctx_buf : list Z;
  ctx_state : list Z
}.

(** The first loop: four bytes make a word. *)
Fixpoint load_words (p : list Z) : list Z :=
  match p with
  | b0 :: b1 :: b2 :: b3 :: p' =>
      Z.lor (Z.lor (Z.lor (Z.shiftl b0 24) (Z.shiftl b1 16)) (Z.shiftl b2 8)) b3 :: load_words p'
  | _ => []
  end.

(** One iteration of the second loop, which fills [W[t]]. *)
Definition extend_step (W : list Z) : list Z :=
  let t := length W in
  let s0 := Z.lxor (Z.lxor (ror (W !!! (t - 15)%nat) 7) (ror (W !!! (t - 15)%nat) 18)) (shr (W !!! (t - 15)%nat) 3) in
  let s1 := Z.lxor (Z.lxor (ror (W !!! (t - 2)%nat) 17) (ror (W !!! (t - 2)%nat) 19)) (shr (W !!! (t - 2)%nat) 10) in
  W ++ [u32 (W !!! (t - 16)%nat + s0 + W !!! (t - 7)%nat + s1)].

Definition schedule (buf : list Z) : list Z := Nat.iter 48 extend_step (load_words buf).

Record Vars := mkVars { vA : Z; vB : Z; vC : Z; vD : Z; vE : Z; vF : Z; vG : Z; vH : Z }.

(** One iteration of the third loop; [~E] is the complement of 32 bits. *)
Definition round_step (W : list Z) (v : Vars) (t : nat) : Vars :=
  let '(mkVars A B C D E F G H) := v in
  let s0 := Z.lxor (Z.lxor (ror A 2) (ror A 13)) (ror A 22) in
  let maj := Z.lxor (Z.lxor (Z.land A B) (Z.land A C)) (Z.land B C) in
  let t2 := u32 (s0 + maj) in
  let s1 := Z.lxor (Z.lxor (ror E 6) (ror E 11)) (ror E 25) in
  let ch := Z.lxor (Z.land E F) (Z.land (u32 (Z.lnot E)) G) in
  let t1 := u32 (H + s1 + ch + K !!! t + W !!! t) in
  mkVars (u32 (t1 + t2)) A B C (u32 (D + t1)) E F G.

Definition SHA256_Transform (ctx : LITE_SHA256_CTX) : LITE_SHA256_CTX :=
  let W := schedule (ctx_buf ctx) in
  let st := ctx_state ctx in
  let v := fold_left (round_step W) (seq 0 64)
    (mkVars (st !!! 0%nat) (st !!! 1%nat) (st !!! 2%nat) (st !!! 3%nat)
            (st !!! 4%nat) (st !!! 5%nat) (st !!! 6%nat) (st !!! 7%nat)) in
  mkCtx (ctx_count ctx) (ctx_buf ctx)
    [u32 (st !!! 0%nat + vA v); u32 (st !!! 1%nat + vB v); u32 (st !!! 2%nat + vC v); u32 (st !!! 3%nat + vD v);
     u32 (st !!! 4%nat + vE v); u32 (st !!! 5%nat + vF v); u32 (st !!! 6%nat + vG v); u32 (st !!! 7%nat + vH v)].

(** [buf] is the content of the uninitialised buffer. *)
Definition SHA256_init (buf : list Z) : LITE_SHA256_CTX :=
  mkCtx 0 buf [0x6a09e667; 0xbb67ae85; 0x3c6ef372; 0xa54ff53a; 0x510e527f; 0x9b05688c; 0x1f83d9ab; 0x5be0cd19].

(** The loop of [SHA256_update] at the buffer index [i]. *)
Fixpoint update_loop (i : nat) (p : list Z) (ctx : LITE_SHA256_CTX) : LITE_SHA256_CTX :=
  match p with
  | [] => ctx
  | byte :: p' =>
      let ctx := mkCtx (ctx_count ctx) (<[i := byte]> (ctx_buf ctx)) (ctx_state ctx) in
      if Nat.eqb (S i) 64 then update_loop 0 p' (SHA256_Transform ctx)
      else update_loop (S i) p' ctx
  end.

Definition SHA256_update (ctx : LITE_SHA256_CTX) (data : list Z) : LITE_SHA256_CTX :=
  let i := Z.to_nat (Z.land (ctx_count ctx) 63) in
  update_loop i data
    (mkCtx (u64 (ctx_count ctx + Z.of_nat (length data))) (ctx_buf ctx) (ctx_state ctx)).

(** The padding loop: at most 63 zeros are needed. *)
Fixpoint pad_zeros (fuel : nat) (ctx : LITE_SHA256_CTX) : LITE_SHA256_CTX :=
  match fuel with
  | O => ctx
  | S fuel' =>
      if Z.land (ctx_count ctx) 63 =? 56 then ctx
      else pad_zeros fuel' (SHA256_update ctx [0])
  end.

(** The loop that appends the eight bytes of the bit count. *)
Fixpoint put_count (n : nat) (cnt : Z) (ctx : LITE_SHA256_CTX) : LITE_SHA256_CTX :=
  match n with
  | O => ctx
  | S n' => put_count n' (u64 (Z.shiftl cnt 8)) (SHA256_update ctx [u8 (Z.shiftr cnt 56)])
  end.

Definition be32 (tmp : Z) : list Z :=
  [u8 (Z.shiftr tmp 24); u8 (Z.shiftr tmp 16); u8 (Z.shiftr tmp 8); u8 (Z.shiftr tmp 0)].

(** Returns the context and the digest it points to. *)
Definition SHA256_final (ctx : LITE_SHA256_CTX) : LITE_SHA256_CTX * list Z :=
  let cnt := u64 (Z.shiftl (ctx_count ctx) 3) in
  let ctx := SHA256_update ctx [0x80] in
  let ctx := pad_zeros 64 ctx in
  let ctx := put_count 8 cnt ctx in
  let digest := concat (be32 <$> ctx_state ctx) in
  (mkCtx (ctx_count ctx) (digest ++ drop (length digest) (ctx_buf ctx)) (ctx_state ctx), digest).

Definition SHA256_hash (buf data : list Z) : list Z :=
  (SHA256_final (SHA256_update (SHA256_init buf) data)).2.

(** *** HMAC *)

Record LITE_HMAC_CTX := mkHmac { hmac_hash : LITE_SHA256_CTX; hmac_opad : list Z }.

Definition HMAC_init (ctx : LITE_HMAC_CTX) (key : list Z) : LITE_HMAC_CTX :=
  let buf := ctx_buf (hmac_hash ctx) in
  let '(h, k) :=
    if Nat.ltb 64 (length key)
    then SHA256_final (SHA256_update (SHA256_init buf) key)
    else (hmac_hash ctx, key) in
  let opad := k ++ replicate (64 - length k) 0 in
  let ipad := (fun b => Z.lxor b 0x36) <$> opad in
  mkHmac (SHA256_update (SHA256_init (ctx_buf h)) ipad)
    ((fun b => Z.lxor b (Z.lxor 0x36 0x5c)) <$> ipad).

Definition HMAC_SHA256_init (ctx : LITE_HMAC_CTX) (key : list Z) : LITE_HMAC_CTX :=
  HMAC_init (mkHmac (SHA256_init (ctx_buf (hmac_hash ctx))) (hmac_opad ctx)) key.

Definition HMAC_update (ctx : LITE_HMAC_CTX) (data : list Z) : LITE_HMAC_CTX :=
  mkHmac (SHA256_update (hmac_hash ctx) data) (hmac_opad ctx).

Definition HMAC_final (ctx : LITE_HMAC_CTX) : list Z :=
  let '(h, digest) := SHA256_final (hmac_hash ctx) in
  let h := SHA256_update (SHA256_init (ctx_buf h)) (hmac_opad ctx) in
  let h := SHA256_update h digest in
  (SHA256_final h).2.

(** ** The hash function of the standard

    A message is padded with a one bit, zeros and its length in bits to whole
    blocks of 64 bytes, and the blocks are compressed one after the other. *)

Definition compress (st block : list Z) : list Z := ctx_state (SHA256_Transform (mkCtx 0 block st)).

Definition hash_blocks (m : list Z) (n : nat) : list Z :=
  fold_left (fun st k => compress st (take 64 (drop (64 * k) m))) (seq 0 n) (ctx_state (SHA256_init [])).

Definition be64 (z : Z) : list Z := (fun i => u8 (Z.shiftr z (8 * Z.of_nat (7 - i)))) <$> seq 0 8.

Definition padding (m : list Z) : list Z :=
  0x80 :: replicate (Z.to_nat ((55 - Z.of_nat (length m)) mod 64)) 0 ++ be64 (u64 (8 * Z.of_nat (length m))).

Definition sha256 (m : list Z) : list Z :=
  let padded := m ++ padding m in
  concat (be32 <$> hash_blocks padded (length padded / 64)).

Definition hmac_sha256 (key m : list Z) : list Z :=
  let k := if Nat.ltb 64 (length key) then sha256 key else key in
  let k := k ++ replicate (64 - length k) 0 in
  sha256 (((fun b => Z.lxor b 0x5c) <$> k) ++ sha256 (((fun b => Z.lxor b 0x36) <$> k) ++ m)).

(** ** A context that has read a message *)

Definition holds (m : list Z) (ctx : LITE_SHA256_CTX) : Prop :=
  length (ctx_buf ctx) = 64%nat
  /\ take (length m mod 64) (ctx_buf ctx) = drop (64 * (length m / 64)) m
  /\ ctx_state ctx = hash_blocks m (length m / 64).

Definition has_read (m : list Z) (ctx : LITE_SHA256_CTX) : Prop :=
  ctx_count ctx = u64 (Z.of_nat (length m)) /\ holds m ctx.

Lemma Transform_buf ctx : ctx_buf (SHA256_Transform ctx) = ctx_buf ctx.
Proof. reflexivity. Qed.

Lemma Transform_count ctx : ctx_count (SHA256_Transform ctx) = ctx_count ctx.
Proof. reflexivity. Qed.

Lemma Transform_state ctx : ctx_state (SHA256_Transform ctx) = compress (ctx_state ctx) (ctx_buf ctx).
Proof. reflexivity. Qed.

#[local] Opaque SHA256_Transform compress.

Lemma hash_blocks_S m n :
  hash_blocks m (S n) = compress (hash_blocks m n) (take 64 (drop (64 * n) m)).
Proof. unfold hash_blocks. by rewrite seq_S, fold_left_app. Qed.

Lemma hash_blocks_app m l n : (64 * n <= length m)%nat -> hash_blocks (m ++ l) n = hash_blocks m n.
Proof.
  induction n as [|n IH]; intros Hn; [done|].
  rewrite !hash_blocks_S, IH, drop_app_le, take_app_le by (rewrite ?length_drop; lia). reflexivity.
Qed.

Lemma take_S_insert (l : list Z) i b : (i < length l)%nat -> take (S i) (<[i := b]> l) = take i l ++ [b].
Proof.
  intros Hi. rewrite (take_S_r _ _ b) by (by apply list_lookup_insert_eq). by rewrite take_insert_ge by lia.
Qed.

(** Lengths after one more byte. *)
Lemma block_position n :
  (S (n mod 64) = 64 /\ S n mod 64 = 0 /\ S n / 64 = S (n / 64))%nat
  \/ (S (n mod 64) <> 64 /\ S n mod 64 = S (n mod 64) /\ S n / 64 = n / 64)%nat.
Proof.
  pose proof (Nat.div_mod n 64 ltac:(lia)). pose proof (Nat.mod_upper_bound n 64 ltac:(lia)).
  destruct (decide (S (n mod 64) = 64)%nat) as [E|E]; [left|right]; (split; [done|]).
  - split; [symmetry; apply (Nat.mod_unique _ _ (S (n / 64)))|symmetry; apply (Nat.div_unique _ _ _ 0)]; lia.
  - split; [symmetry; apply (Nat.mod_unique _ _ (n / 64))|symmetry; apply (Nat.div_unique _ _ _ (S (n mod 64)))]; lia.
Qed.

(** One byte into the buffer, and the compression of a full one. *)
Definition put_byte (i : nat) (byte : Z) (ctx : LITE_SHA256_CTX) : LITE_SHA256_CTX :=
  mkCtx (ctx_count ctx) (<[i := byte]> (ctx_buf ctx)) (ctx_state ctx).

Lemma put_byte_block m b ctx :
  holds m ctx ->
  take (S (length m mod 64)) (<[(length m mod 64)%nat := b]> (ctx_buf ctx)) = drop (64 * (length m / 64)) (m ++ [b]).
Proof.
  intros (Hlen & Htake & _). pose proof (Nat.mod_upper_bound (length m) 64 ltac:(lia)).
  pose proof (Nat.div_mod (length m) 64 ltac:(lia)).
  rewrite take_S_insert, Htake by lia. by rewrite drop_app_le by lia.
Qed.

Lemma holds_byte m b ctx :
  holds m ctx ->
  let ctx' := put_byte (length m mod 64) b ctx in
  if Nat.eqb (S (length m mod 64)) 64 then holds (m ++ [b]) (SHA256_Transform ctx') else holds (m ++ [b]) ctx'.
Proof.
  intros Hh ctx'. pose proof (put_byte_block m b ctx Hh) as Hblock. destruct Hh as (Hlen & Htake & Hst).
  pose proof (Nat.div_mod (length m) 64 ltac:(lia)). unfold holds.
  rewrite length_app, Nat.add_1_r.
  destruct (block_position (length m)) as [(E & -> & ->)|(E & -> & ->)].
  - rewrite E in Hblock |- *. rewrite Nat.eqb_refl, Transform_buf, Transform_state.
    assert (length (ctx_buf ctx') = 64%nat) as Hlen' by (cbn; by rewrite length_insert).
    change (<[_ := b]> (ctx_buf ctx)) with (ctx_buf ctx') in Hblock. rewrite firstn_all2 in Hblock by lia.
    split_and!; [exact Hlen'| |].
    + rewrite drop_ge; [done|]. rewrite length_app. cbn [length]. lia.
    + rewrite hash_blocks_S, hash_blocks_app, <- Hst by lia.
      rewrite <- Hblock, firstn_all2 by lia. done.
  - rewrite (proj2 (Nat.eqb_neq _ _)) by done.
    split_and!; [cbn; by rewrite length_insert|exact Hblock|]. cbn [ctx' put_byte ctx_state]. rewrite Hst, hash_blocks_app by lia. done.
Qed.

Lemma update_loop_holds p : forall m ctx,
  holds m ctx -> holds (m ++ p) (update_loop (length m mod 64) p ctx)
  /\ ctx_count (update_loop (length m mod 64) p ctx) = ctx_count ctx.
Proof.
  induction p as [|b p IH]; intros m ctx Hh; cbn [update_loop].
  - by rewrite app_nil_r.
  - pose proof (holds_byte m b ctx Hh) as Hb. cbv zeta in Hb. fold (put_byte (length m mod 64) b ctx).
    assert (length (m ++ [b]) = S (length m)) as Hl by (rewrite length_app; cbn; lia).
    rewrite cons_middle, (assoc_L (++)).
    destruct (block_position (length m)) as [(E & Em & _)|(E & Em & _)].
    + rewrite E, Nat.eqb_refl in Hb |- *. destruct (IH _ _ Hb) as [H1 H2]. rewrite Hl, Em in H1, H2. by split.
    + rewrite (proj2 (Nat.eqb_neq _ _) E) in Hb |- *. destruct (IH _ _ Hb) as [H1 H2].
      rewrite Hl, Em in H1, H2. by split.
Qed.

Lemma u64_mod_64 n : Z.to_nat (Z.land (u64 (Z.of_nat n)) 63) = (n mod 64)%nat.
Proof.
  change 63 with (2 ^ 6 - 1). rewrite land_mask_mod by lia. unfold u64.
  rewrite Z.mod_mod_divide by (by exists (2 ^ 58)).
  change (2 ^ 6) with (Z.of_nat 64). by rewrite <- Nat2Z.inj_mod, Nat2Z.id.
Qed.

Lemma has_read_update m p ctx : has_read m ctx -> has_read (m ++ p) (SHA256_update ctx p).
Proof.
  intros [Hc Hh]. unfold SHA256_update. rewrite Hc, u64_mod_64.
  destruct (update_loop_holds p m (mkCtx (u64 (u64 (Z.of_nat (length m)) + Z.of_nat (length p))) (ctx_buf ctx)
    (ctx_state ctx)) Hh) as [H1 H2].
  split; [|exact H1]. rewrite H2. cbn [ctx_count]. unfold u64.
  rewrite length_app, Nat2Z.inj_add, Zplus_mod_idemp_l. done.
Qed.

Lemma has_read_init buf : length buf = 64%nat -> has_read [] (SHA256_init buf).
Proof. intros Hlen. split; [done|]. split_and!; [exact Hlen|done|done]. Qed.

(** Padding: zeros until the length is 56 modulo 64. *)
Lemma pad_zeros_read fuel : forall m ctx,
  has_read m ctx -> (Z.to_nat ((56 - Z.of_nat (length m)) mod 64) <= fuel)%nat ->
  has_read (m ++ replicate (Z.to_nat ((56 - Z.of_nat (length m)) mod 64)) 0) (pad_zeros fuel ctx).
Proof.
  induction fuel as [|fuel IH]; intros m ctx Hr Hf.
  - replace (Z.to_nat _) with 0%nat by lia. by rewrite app_nil_r.
  - cbn [pad_zeros]. pose proof (proj1 Hr) as Hc. rewrite Hc.
    assert (Z.land (u64 (Z.of_nat (length m))) 63 = Z.of_nat (length m) mod 64) as ->.
    { change 63 with (2 ^ 6 - 1). rewrite land_mask_mod by lia. unfold u64.
      by rewrite Z.mod_mod_divide by (by exists (2 ^ 58)). }
    destruct (Z.eqb_spec (Z.of_nat (length m) mod 64) 56) as [E|E].
    + replace ((56 - Z.of_nat (length m)) mod 64) with 0; [by rewrite app_nil_r|].
      rewrite Zminus_mod, E. done.
    + set (k := (56 - Z.of_nat (length m)) mod 64) in *.
      assert ((56 - Z.of_nat (length (m ++ [0]))) mod 64 = k - 1 /\ 0 < k) as [Hk Hpos].
      { rewrite length_app, Nat2Z.inj_add. cbn [length]. clear -E. subst k. Z.div_mod_to_equations. lia. }
      specialize (IH _ _ (has_read_update m [0] ctx Hr)). rewrite Hk in IH.
      replace (Z.to_nat k) with (S (Z.to_nat (k - 1))) in * by lia.
      rewrite <- (assoc_L (++)) in IH. apply IH. lia.
Qed.

(** The byte that leads after a shift by one byte. *)
Lemma shifted_byte cnt k :
  0 <= k <= 48 -> u8 (Z.shiftr (u64 (Z.shiftl cnt 8)) (k + 8)) = u8 (Z.shiftr cnt k).
Proof.
  intros Hk. apply Z.bits_inj'. intros j Hj. unfold u8, u64.
  destruct (Z.ltb_spec j 8).
  - rewrite !Z.mod_pow2_bits_low, !Z.shiftr_spec by lia.
    rewrite Z.mod_pow2_bits_low, Z.shiftl_spec by lia. f_equal. lia.
  - by rewrite !Z.mod_pow2_bits_high by lia.
Qed.

Lemma put_count_read n : forall cnt m ctx,
  (n <= 8)%nat -> has_read m ctx ->
  has_read (m ++ ((fun i => u8 (Z.shiftr cnt (8 * Z.of_nat (7 - i)))) <$> seq 0 n)) (put_count n cnt ctx).
Proof.
  induction n as [|n IH]; intros cnt m ctx Hn Hr; [by rewrite app_nil_r|].
  cbn [put_count seq fmap list_fmap]. rewrite cons_middle, (assoc_L (++)).
  replace (_ <$> seq 1 n) with
    ((fun i => u8 (Z.shiftr (u64 (Z.shiftl cnt 8)) (8 * Z.of_nat (7 - i)))) <$> seq 0 n).
  - apply IH; [lia|]. by apply has_read_update.
  - rewrite <- (fmap_S_seq 0 n), <- list_fmap_compose. apply list_fmap_ext. intros i x Hx.
    apply lookup_seq in Hx as [-> Hi]. cbn [compose].
    rewrite <- (shifted_byte cnt (8 * Z.of_nat (7 - S (0 + i)))) by lia. f_equal. f_equal. lia.
Qed.

Lemma bit_count m ctx : has_read m ctx -> u64 (Z.shiftl (ctx_count ctx) 3) = u64 (8 * Z.of_nat (length m)).
Proof.
  intros [-> _]. rewrite Z.shiftl_mul_pow2 by lia. unfold u64. rewrite Zmult_mod_idemp_l. f_equal. lia.
Qed.

(** The context after the padding has read the padded message. *)
Lemma final_padded m ctx :
  has_read m ctx ->
  has_read (m ++ padding m)
    (put_count 8 (u64 (Z.shiftl (ctx_count ctx) 3)) (pad_zeros 64 (SHA256_update ctx [0x80]))).
Proof.
  intros Hr. rewrite (bit_count m ctx Hr). apply (has_read_update m [0x80]) in Hr.
  apply (pad_zeros_read 64) in Hr.
  2:{ pose proof (Z.mod_pos_bound (56 - Z.of_nat (length (m ++ [0x80]))) 64 ltac:(lia)). lia. }
  apply (put_count_read 8 (u64 (8 * Z.of_nat (length m)))) in Hr; [|done].
  replace (m ++ padding m) with
    (((m ++ [0x80]) ++ replicate (Z.to_nat ((56 - Z.of_nat (length (m ++ [0x80]))) mod 64)) 0)
     ++ be64 (u64 (8 * Z.of_nat (length m)))); [exact Hr|].
  unfold padding. rewrite length_app, Nat2Z.inj_add. cbn [length].
  replace (56 - (Z.of_nat (length m) + Z.of_nat 1)) with (55 - Z.of_nat (length m)) by lia.
  by rewrite <- !(assoc_L (++)).
Qed.

Lemma length_hash_blocks m n : length (hash_blocks m n) = 8%nat.
Proof. destruct n; [done|]. by rewrite hash_blocks_S. Qed.

Lemma length_digest st : length st = 8%nat -> length (concat (be32 <$> st)) = 32%nat.
Proof. intros Hst. do 9 (destruct st as [|? st]; try discriminate Hst); reflexivity. Qed.

Lemma final_read m ctx :
  has_read m ctx ->
  (SHA256_final ctx).2 = sha256 m /\ length (ctx_buf (SHA256_final ctx).1) = 64%nat.
Proof.
  intros Hr. destruct (final_padded m ctx Hr) as (_ & Hbuf & _ & Hst). unfold SHA256_final. cbn [fst snd ctx_buf].
  rewrite Hst. split; [done|]. rewrite length_app, length_drop, Hbuf, length_digest by apply length_hash_blocks. done.
Qed.

Lemma update_pieces pieces : forall m ctx,
  has_read m ctx -> has_read (m ++ concat pieces) (fold_left SHA256_update pieces ctx).
Proof.
  induction pieces as [|p pieces IH]; intros m ctx Hr; cbn [concat fold_left]; [by rewrite app_nil_r|].
  rewrite (assoc_L (++)). by apply IH, has_read_update.
Qed.



Lemma SHA256_hash_eq buf data : length buf = 64%nat -> SHA256_hash buf data = sha256 data.
Proof. intros Hbuf. by apply final_read, (has_read_update []), has_read_init. Qed.

Lemma length_sha256 m : length (sha256 m) = 32%nat.
Proof. apply length_digest, length_hash_blocks. Qed.

Lemma xor_pads b : Z.lxor (Z.lxor b 0x36) (Z.lxor 0x36 0x5c) = Z.lxor b 0x5c.
Proof. by rewrite Z.lxor_assoc, <- (Z.lxor_assoc 0x36), Z.lxor_nilpotent, Z.lxor_0_l. Qed.

Lemma opad_of_ipad (k : list Z) :
  (fun b => Z.lxor b (Z.lxor 0x36 0x5c)) <$> ((fun b => Z.lxor b 0x36) <$> k) = (fun b => Z.lxor b 0x5c) <$> k.
Proof. rewrite <- list_fmap_compose. apply list_fmap_ext. intros i b _. apply xor_pads. Qed.

(** Hashing two parts from a fresh context. *)
Lemma hash_parts h p q :
  length (ctx_buf h) = 64%nat -> has_read (p ++ q) (SHA256_update (SHA256_update (SHA256_init (ctx_buf h)) p) q).
Proof. intros Hh. by apply has_read_update, (has_read_update []), has_read_init. Qed.

(** The rest of the computation, from the padded key on. *)
Lemma HMAC_from_key h k data :
  length (ctx_buf h) = 64%nat ->
  HMAC_final (HMAC_update (mkHmac (SHA256_update (SHA256_init (ctx_buf h)) ((fun b => Z.lxor b 0x36) <$> k))
    ((fun b => Z.lxor b (Z.lxor 0x36 0x5c)) <$> ((fun b => Z.lxor b 0x36) <$> k))) data) =
  sha256 (((fun b => Z.lxor b 0x5c) <$> k) ++ sha256 (((fun b => Z.lxor b 0x36) <$> k) ++ data)).
Proof.
  intros Hh. unfold HMAC_update, HMAC_final. cbn [hmac_hash hmac_opad]. rewrite opad_of_ipad.
  destruct (final_read _ _ (hash_parts h ((fun b => Z.lxor b 0x36) <$> k) data Hh)) as [Hd Hb].
  destruct (SHA256_final _) as [h' digest]. cbn [fst snd] in Hd, Hb. subst digest.
  by apply final_read, hash_parts.
Qed.

(** The HMAC of the code is the one of RFC 2104 over this hash, for keys of
    any length. *)
Theorem HMAC_correct ctx key data :
  length (ctx_buf (hmac_hash ctx)) = 64%nat ->
  HMAC_final (HMAC_update (HMAC_SHA256_init ctx key) data) = hmac_sha256 key data.
Proof.
  intros Hbuf. unfold HMAC_SHA256_init, HMAC_init, hmac_sha256. cbn [hmac_hash ctx_buf SHA256_init]. cbv zeta.
  destruct (Nat.ltb 64 (length key)); [|by apply (HMAC_from_key (SHA256_init (ctx_buf (hmac_hash ctx))))].
  destruct (final_read key (SHA256_update (SHA256_init (ctx_buf (hmac_hash ctx))) key)) as [Hd Hb].
  { by apply (has_read_update []), has_read_init. }
  destruct (SHA256_final _) as [h digest]. cbn [fst snd] in Hd, Hb. subst digest. by apply HMAC_from_key.
Qed.

Lemma HMAC_correct_witness :
  HMAC_final (HMAC_update (HMAC_SHA256_init (mkHmac (SHA256_init (replicate 64 0)) []) [1; 2]) [3]) =
  hmac_sha256 [1; 2] [3].
Proof. apply HMAC_correct. reflexivity. Defined.

(** ** Test vectors *)

Definition as_number (l : list Z) : Z := fold_left (fun a b => a * 256 + b) l 0.

(** The hash of "abc" in FIPS 180-4. *)
Example sha256_abc :
  as_number (SHA256_hash (replicate 64 0) [97; 98; 99]) =
  0xba7816bf8f01cfea414140de5dae2223b00361a396177a9cb410ff61f20015ad.
Proof. vm_compute. reflexivity. Qed.

(** Case 1 of RFC 4231. *)
Example hmac_rfc4231 :
  as_number (HMAC_final (HMAC_update
    (HMAC_SHA256_init (mkHmac (SHA256_init (replicate 64 0)) []) (replicate 20 0x0b))
    [72; 105; 32; 84; 104; 101; 114; 101])) =
  0xb0344c61d8db38535ca8afceaf0bf12b881dc200c9833da726e9376c2e32cff7.
Proof. vm_compute. reflexivity. Qed.

(** ** The message schedule *)

(** Every word beyond the block is computed from the earlier ones as in the
    standard. *)
Definition sigma0 (x : Z) : Z := Z.lxor (Z.lxor (ror x 7) (ror x 18)) (shr x 3).
Definition sigma1 (x : Z) : Z := Z.lxor (Z.lxor (ror x 17) (ror x 19)) (shr x 10).

Lemma length_load_words n p : length p = (4 * n)%nat -> length (load_words p) = n.
Proof.
  revert p. induction n as [|n IH]; intros p Hp.
  - by destruct p.
  - do 4 (destruct p as [|? p]; [cbn in Hp; lia|]). cbn [load_words length]. f_equal. apply IH. cbn in Hp. lia.
Qed.

Lemma length_iter_extend k W : length (Nat.iter k extend_step W) = (length W + k)%nat.
Proof.
  induction k as [|k IH]; cbn [Nat.iter nat_rect]; [lia|].
  unfold extend_step at 1. rewrite length_app. cbn [length]. unfold Nat.iter in IH. rewrite IH. lia.
Qed.

(** Later iterations do not change earlier words. *)
Lemma iter_extend_stable k d W t :
  (t < length W + k)%nat -> Nat.iter (d + k) extend_step W !!! t = Nat.iter k extend_step W !!! t.
Proof.
  intros Ht. induction d as [|d IH]; [done|].
  rewrite Nat.add_succ_l. cbn [Nat.iter nat_rect]. change (nat_rect _ W _ (d + k)) with (Nat.iter (d + k) extend_step W).
  unfold extend_step at 1. rewrite lookup_total_app_l by (rewrite length_iter_extend; lia). exact IH.
Qed.

Lemma schedule_recurrence buf t :
  length buf = 64%nat -> (16 <= t < 64)%nat ->
  let W := schedule buf in
  W !!! t = u32 (sigma1 (W !!! (t - 2)%nat) + W !!! (t - 7)%nat + sigma0 (W !!! (t - 15)%nat) + W !!! (t - 16)%nat).
Proof.
  intros Hbuf Ht W. set (M := load_words buf). assert (length M = 16%nat) as HM by by apply length_load_words.
  assert (forall u, (u <= t)%nat -> W !!! u = Nat.iter (t - 15) extend_step M !!! u) as Hw.
  { intros u Hu. unfold W, schedule. fold M. replace 48%nat with ((63 - t) + (t - 15))%nat by lia.
    apply iter_extend_stable. lia. }
  set (L := Nat.iter (t - 16) extend_step M). assert (length L = t) as HL by (unfold L; rewrite length_iter_extend; lia).
  assert (forall u, (u < t)%nat -> W !!! u = L !!! u) as Hw'.
  { intros u Hu. rewrite Hw by lia. replace (t - 15)%nat with (1 + (t - 16))%nat by lia. apply iter_extend_stable. lia. }
  assert (Nat.iter (t - 15) extend_step M = extend_step L) as Hlast.
  { by replace (t - 15)%nat with (S (t - 16)) by lia. }
  rewrite (Hw t), Hlast by lia. rewrite !Hw' by lia. unfold extend_step. rewrite HL.
  rewrite lookup_total_app_r by lia. rewrite HL, Nat.sub_diag. cbn [lookup_total list_lookup_total].
  unfold sigma0, sigma1. f_equal. lia.
Qed.
