(* ===== verification/Primes.v ===== *)
(** Two facts of number theory that the curve P-256 rests on: Fermat's little
    theorem, and Pocklington's criterion, by which p and n of P256Ecdsa.v are
    shown to be prime. *)

From Stdlib Require Import Znumtheory Zpow_facts Permutation.
From S2P Require Import Prelude.

(** ** Fermat's little theorem *)

Definition product (l : list Z) : Z := foldr Z.mul 1 l.

Lemma product_permutation l m : Permutation l m -> product l = product m.
Proof. unfold product. induction 1; cbn [foldr]; lia. Qed.

Lemma product_map a r l : product ((fun x => (a * x) mod r) <$> l) mod r = (a ^ Z.of_nat (length l) * product l) mod r.
Proof.
  unfold product. induction l as [|x l IH]; [done|]. cbn [fmap list_fmap foldr length]. rewrite Zmult_mod_idemp_l, <- Zmult_mod_idemp_r.
  change (list_fmap _ _ (fun x => (a * x) mod r) l) with ((fun x => (a * x) mod r) <$> l). rewrite IH, Zmult_mod_idemp_r.
  rewrite Nat2Z.inj_succ, Z.pow_succ_r by lia. f_equal. ring.
Qed.

Lemma prime_rel r x : prime r -> 0 < x < r -> rel_prime r x.
Proof. intros Hr Hx. apply prime_rel_prime; [done|]. intros Hd. apply Z.divide_pos_le in Hd; lia. Qed.

Lemma cancel_mod r a b c : prime r -> ~ (r | a) -> (a * b) mod r = (a * c) mod r -> b mod r = c mod r.
Proof.
  intros Hr Ha He. pose proof (prime_ge_2 r Hr). assert (r | a * (b - c)) as Hd.
  { apply Z.mod_divide; [lia|]. rewrite Z.mul_sub_distr_l, Zminus_mod, He, Z.sub_diag. done. }
  apply Gauss in Hd; [|by apply prime_rel_prime]. destruct Hd as [k Hk]. replace b with (c + k * r) by lia. apply Z.mod_add. lia.
Qed.

Section Fermat.
Variables (r a : Z).
Hypothesis Hr : prime r.
Hypothesis Ha : ~ (r | a).

Definition residues : list Z := seqZ 1 (r - 1).

Lemma residues_permuted : Permutation ((fun x => (a * x) mod r) <$> residues) residues.
Proof.
  pose proof (prime_ge_2 r Hr). apply NoDup_Permutation_bis.
  - apply NoDup_ListNoDup, NoDup_fmap_2_strong; [|apply NoDup_seqZ]. intros x y Hx Hy He. apply elem_of_seqZ in Hx, Hy.
    apply cancel_mod in He; [|done..]. rewrite !Z.mod_small in He; lia.
  - by rewrite length_fmap.
  - intros x Hx. apply list_elem_of_In in Hx. apply list_elem_of_In. apply list_elem_of_fmap in Hx as (y & -> & Hy).
    apply elem_of_seqZ in Hy. apply elem_of_seqZ. pose proof (Z.mod_pos_bound (a * y) r ltac:(lia)).
    enough ((a * y) mod r <> 0) by lia. intros Hz. apply Z.mod_divide in Hz; [|lia]. apply prime_mult in Hz as [Hz|Hz]; [done| |done].
    apply Z.divide_pos_le in Hz; lia.
Qed.

Lemma product_coprime l : Forall (fun x => 0 < x < r) l -> ~ (r | product l).
Proof.
  pose proof (prime_ge_2 r Hr). intros Hl. induction Hl as [|x l Hx Hl IH]; cbn [product foldr].
  - intros Hd. apply Z.divide_1_r in Hd. lia.
  - intros [Hd|Hd]%prime_mult; [|by apply IH|done]. apply Z.divide_pos_le in Hd; lia.
Qed.

Lemma fermat : a ^ (r - 1) mod r = 1.
Proof.
  pose proof (prime_ge_2 r Hr). pose proof (product_map a r residues) as Hp. rewrite (product_permutation _ _ residues_permuted) in Hp.
  assert (Forall (fun x => 0 < x < r) residues) as Hres.
  { apply Forall_forall. intros x Hx. apply elem_of_seqZ in Hx. lia. }
  unfold residues in Hp at 2. rewrite length_seqZ, Z2Nat.id, Z.mul_comm in Hp by lia. rewrite <- (Z.mul_1_r (product residues)) in Hp at 1.
  apply cancel_mod in Hp; [|done|by apply product_coprime]. rewrite <- Hp. apply Z.mod_small. lia.
Qed.
End Fermat.

(** ** Pocklington's criterion *)

(** The exponents that give one are closed under the greatest common divisor. *)
Lemma pow_mul_one r a u k : 1 < r -> 0 <= u -> 0 <= k -> a ^ u mod r = 1 -> a ^ (u * k) mod r = 1.
Proof. intros Hr Hu Hk Ha. rewrite Z.pow_mul_r, Zpower_mod, Ha, Z.pow_1_l by lia. by apply Z.mod_1_l. Qed.

Lemma pow_gcd r a u v : 1 < r -> 0 < u -> 0 < v -> a ^ u mod r = 1 -> a ^ v mod r = 1 -> a ^ Z.gcd u v mod r = 1.
Proof.
  intros Hr Hu Hv Hau Hav. pose proof (Z.gcd_nonneg u v). destruct (Z.gcd_bezout u v (Z.gcd u v) eq_refl) as (s & t & Hst).
  set (k := Z.abs s + Z.abs t). assert (a ^ (u * (s + k * v)) mod r = 1) as H1 by (apply pow_mul_one; lia || nia).
  assert (a ^ (v * (k * u - t)) mod r = 1) as H2 by (apply pow_mul_one; lia || nia).
  replace (u * (s + k * v)) with (Z.gcd u v + v * (k * u - t)) in H1 by lia.
  rewrite Z.pow_add_r, Z.mul_mod, H2, Z.mul_1_r, Z.mod_mod in H1 by (lia || nia). done.
Qed.

Lemma prime_divisor n : 1 < n -> exists r, prime r /\ (r | n).
Proof.
  intros Hn. assert (0 <= n) as H0 by lia. revert Hn. pattern n. apply Z_lt_induction; [|done]. clear n H0. intros n IH Hn.
  destruct (prime_dec n) as [Hp|Hp]; [by exists n|]. apply not_prime_divide in Hp as (d & Hd & Hdn); [|done].
  destruct (IH d ltac:(lia) ltac:(lia)) as (r & Hr & Hrd). exists r. split; [done|]. by apply (Z.divide_trans _ d).
Qed.

(** A number that is not prime has a prime divisor up to its square root. *)
Lemma small_divisor n : 1 < n -> ~ prime n -> exists r, prime r /\ (r | n) /\ r * r <= n.
Proof.
  intros Hn Hp. apply not_prime_divide in Hp as (d & Hd & [e He]); [|done].
  assert (exists m, 1 < m /\ (m | n) /\ m * m <= n) as (m & Hm & Hmn & Hsq).
  { destruct (Z.le_gt_cases d e); [exists d|exists e]; (split; [nia|]); (split; [|nia]); [by exists e|exists d; lia]. }
  destruct (prime_divisor m Hm) as (r & Hr & Hrm). exists r. pose proof (prime_ge_2 r Hr). apply Z.divide_pos_le in Hrm as Hle; [|lia].
  split_and!; [done|by apply (Z.divide_trans _ m)|nia].
Qed.

(** Distinct primes that divide a number have a product that does. *)
Lemma product_divides l x : NoDup l -> Forall prime l -> Forall (fun q => (q | x)) l -> (product l | x).
Proof.
  intros Hn Hp Hd. revert x Hd. induction Hp as [|q l Hq Hl IH]; intros x Hd; [apply Z.divide_1_l|].
  apply NoDup_cons in Hn as [Hni Hn]. apply Forall_cons in Hd as [[y Hy] Hd]. cbn [product foldr]. fold (product l). subst x.
  rewrite (Z.mul_comm y). apply Z.mul_divide_mono_l, IH; [done|]. apply Forall_forall. intros z Hz.
  rewrite Forall_forall in Hd, Hl. specialize (Hd z Hz). specialize (Hl z Hz). apply prime_mult in Hd as [Hd|Hd]; [done| |done].
  apply prime_div_prime in Hd; [congruence|done|done].
Qed.

(** The power modulo a number. *)
Fixpoint powmod (a : Z) (e : positive) (n : Z) : Z :=
  match e with
  | xH => a mod n
  | xO e => let b := powmod a e n in (b * b) mod n
  | xI e => let b := powmod a e n in (a * ((b * b) mod n)) mod n
  end.
Lemma powmod_spec a e n : 0 < n -> powmod a e n = a ^ Z.pos e mod n.
Proof.
  intros Hn. induction e as [e IH|e IH|]; cbn [powmod].
  - rewrite IH, Pos2Z.inj_xI, Z.pow_add_r, Z.pow_twice_r, Z.pow_1_r by lia. rewrite <- Zmult_mod, Zmult_mod_idemp_r.
    f_equal. ring.
  - by rewrite IH, Pos2Z.inj_xO, Z.pow_twice_r, <- Zmult_mod.
  - by rewrite Z.pow_1_r.
Qed.
Definition powm (a e n : Z) : Z := match e with Zpos e => powmod a e n | _ => 1 mod n end.
Lemma powm_spec a e n : 0 < n -> 0 <= e -> powm a e n = a ^ e mod n.
Proof. intros Hn He. destruct e as [|e|e]; [done|by apply powmod_spec|lia]. Qed.

(** The checks of the criterion: [a] shows that [n] is prime, given that the
    numbers [q :: qs] are. All the powers are taken of the power [c]. *)
Definition pocklington_check (n a q : Z) (qs : list Z) : bool :=
  let F := product (q :: qs) in
  let c := powm a ((n - 1) / F) n in
  let roots := (fun q => powm c (F / q) n) <$> q :: qs in
  (1 <? n) && (n <? F * F) && ((n - 1) mod F =? 0) && (powm (hd 0 roots) q n =? 1) &&
  forallb (fun root => Z.gcd (root - 1) n =? 1) roots && bool_decide (NoDup (q :: qs)).

(** A prime divisor of [n] is one more than a multiple of [q]. *)
Lemma pocklington_step n a q r : 1 < n -> prime r -> (r | n) -> prime q -> (q | n - 1) -> a ^ (n - 1) mod n = 1 ->
  Z.gcd (a ^ ((n - 1) / q) mod n - 1) n = 1 -> (q | r - 1).
Proof.
  intros Hn Hr Hrn Hq [m Hm] Hone Hg. pose proof (prime_ge_2 r Hr). pose proof (prime_ge_2 q Hq).
  assert (forall e, a ^ e mod n mod r = a ^ e mod r) as Hmod by (intros; by apply Z.mod_mod_divide).
  assert (a ^ (n - 1) mod r = 1) as Hone_r by (rewrite <- Hmod, Hone; apply Z.mod_1_l; lia).
  assert (~ (r | a)) as Ha.
  { intros Ha. replace (n - 1) with (Z.succ (n - 2)) in Hone_r by lia. rewrite Z.pow_succ_r in Hone_r by lia.
    rewrite (proj2 (Z.mod_divide _ r ltac:(lia))) in Hone_r; [done|]. by apply Z.divide_mul_l. }
  destruct (Zdivide_dec q (r - 1)) as [Hd|Hd]; [done|exfalso].
  assert (Z.gcd (n - 1) (r - 1) | (n - 1) / q) as [k Hk].
  { rewrite Hm at 2. rewrite Z.div_mul by lia. apply (Gauss _ q); [rewrite Z.mul_comm, <- Hm; apply Z.gcd_divide_l|].
    apply rel_prime_sym, prime_rel_prime; [done|]. intros Hqg. apply Hd. apply (Z.divide_trans _ _ _ Hqg), Z.gcd_divide_r. }
  assert (a ^ ((n - 1) / q) mod r = 1) as Hbad.
  { rewrite Hk, Z.mul_comm. pose proof (Z.gcd_nonneg (n - 1) (r - 1)). apply pow_mul_one; [lia|done| |].
    - assert ((n - 1) / q = m) as Hdiv by (rewrite Hm; apply Z.div_mul; lia). rewrite Hdiv in Hk. assert (0 < m) by nia. nia.
    - apply pow_gcd; [lia|lia|lia|done|by apply fermat]. }
  assert (r | 1) as Hr1; [|apply Z.divide_1_r in Hr1; lia]. rewrite <- Hg. apply Z.gcd_greatest; [|done].
  apply Z.mod_divide; [lia|]. rewrite Zminus_mod, Hmod, Hbad, (Z.mod_1_l r) by lia. by apply Z.mod_0_l; lia.
Qed.

Lemma product_pos qs : Forall prime qs -> 0 < product qs.
Proof. intros Hq. induction Hq as [|q qs Hq Hqs IH]; cbn [product foldr]; [lia|]. fold (product qs). pose proof (prime_ge_2 q Hq). nia. Qed.
Lemma product_elem q qs : q ∈ qs -> (q | product qs).
Proof.
  intros Hq. induction qs as [|x qs IH]; [by apply not_elem_of_nil in Hq|]. cbn [product foldr]. fold (product qs).
  apply elem_of_cons in Hq as [->|Hq]; [apply Z.divide_factor_l|by apply Z.divide_mul_r, IH].
Qed.

(** The power [(n - 1) / q], from the power [(n - 1) / F]. *)
Lemma powm_root n a F q : 0 < n -> 0 < F -> 0 < q -> (F | n - 1) -> (q | F) -> powm (powm a ((n - 1) / F) n) (F / q) n = a ^ ((n - 1) / q) mod n.
Proof.
  intros Hn HF Hq [x Hx] [y Hy]. assert (0 <= x) by nia. assert (0 < y) by nia.
  assert ((n - 1) / F = x) as -> by (rewrite Hx; apply Z.div_mul; lia). assert (F / q = y) as -> by (rewrite Hy; apply Z.div_mul; lia).
  assert ((n - 1) / q = x * y) as -> by (rewrite Hx, Hy, Z.mul_assoc; apply Z.div_mul; lia).
  rewrite !powm_spec, Zpower_mod, Z.mod_mod, <- Zpower_mod, Z.pow_mul_r by lia. done.
Qed.

(** Pocklington's criterion. *)
Lemma pocklington n a q qs : Forall prime (q :: qs) -> pocklington_check n a q qs = true -> prime n.
Proof.
  intros Hqs Hc. unfold pocklington_check in Hc. cbv zeta in Hc. pose proof (product_pos _ Hqs) as HF.
  apply andb_true_iff in Hc as [Hc Hnd%bool_decide_eq_true]. apply andb_true_iff in Hc as [Hc Hall].
  apply andb_true_iff in Hc as [Hc Hone%Z.eqb_eq]. apply andb_true_iff in Hc as [Hc HFn%Z.eqb_eq]. apply andb_true_iff in Hc as [Hn%Z.ltb_lt Hsq%Z.ltb_lt].
  set (F := product (q :: qs)) in *. apply Z.mod_divide in HFn; [|lia].
  assert (forall x, x ∈ q :: qs -> 1 < x /\ (x | F)) as Hx.
  { intros x Hx. split; [|by apply product_elem]. rewrite Forall_forall in Hqs. pose proof (prime_ge_2 x (Hqs x Hx)). lia. }
  assert (a ^ (n - 1) mod n = 1) as Hfull.
  { destruct (Hx q ltac:(by left)) as [Hq1 HqF]. cbn [fmap list_fmap hd] in Hone. rewrite powm_root in Hone by (done || lia).
    rewrite powm_spec, Zpower_mod, Z.mod_mod, <- Zpower_mod, <- Z.pow_mul_r in Hone by (lia || (apply Z.div_pos; lia)).
    rewrite Z.mul_comm, <- Z.divide_div_mul_exact, Z.mul_comm, Z.div_mul in Hone by (lia || by apply (Z.divide_trans _ F)). done. }
  destruct (prime_dec n) as [Hp|Hp]; [done|exfalso]. apply small_divisor in Hp as (r & Hr & Hrn & Hrr); [|done].
  assert (F | r - 1) as Hd.
  { apply product_divides; [done|done|]. rewrite Forall_forall in *. intros x Hxq. destruct (Hx x Hxq) as [Hx1 HxF].
    rewrite forallb_forall in Hall. specialize (Hall (powm (powm a ((n - 1) / F) n) (F / x) n) ltac:(apply (in_map (fun q => powm _ (F / q) n)); by apply list_elem_of_In)).
    apply Z.eqb_eq in Hall. rewrite powm_root in Hall by (done || lia).
    apply (pocklington_step n a x r); try done; [by apply Hqs|by apply (Z.divide_trans _ F)]. }
  pose proof (prime_ge_2 r Hr). apply Z.divide_pos_le in Hd; [|lia]. nia.
Qed.

(** Division by every number up to a bound, for the small primes. *)
Definition trial_check (n : Z) (m : nat) : bool :=
  (1 <? n) && (n <? (Z.of_nat m + 2) * (Z.of_nat m + 2)) && forallb (fun k => negb (n mod (Z.of_nat k + 2) =? 0)) (seq 0 m).

Lemma trial n m : trial_check n m = true -> prime n.
Proof.
  unfold trial_check. intros Hc. apply andb_true_iff in Hc as [Hc Hall]. apply andb_true_iff in Hc as [Hn%Z.ltb_lt Hsq%Z.ltb_lt].
  destruct (prime_dec n) as [Hp|Hp]; [done|exfalso]. apply small_divisor in Hp as (r & Hr & Hrn & Hrr); [|done]. pose proof (prime_ge_2 r Hr).
  rewrite forallb_forall in Hall. specialize (Hall (Z.to_nat (r - 2)) ltac:(apply in_seq; nia)).
  rewrite Z2Nat.id in Hall by lia. replace (r - 2 + 2) with r in Hall by lia. apply Z.mod_divide in Hrn; [|lia]. by rewrite Hrn in Hall.
Qed.

(** ** The prime and the order of P-256 *)

Ltac by_trial m := apply (trial _ m); vm_compute; reflexivity.
Ltac by_pocklington q qs := apply (pocklington _ 2 q qs); [repeat (constructor; [assumption|]); constructor|vm_compute; reflexivity].

Lemma order_prime : prime 0xffffffff00000000ffffffffffffffffbce6faada7179e84f3b9cac2fc632551.
Proof.
  assert (prime 155317) by by_trial 393%nat. assert (prime 191039911) by by_pocklington 155317 (@nil Z). assert (prime 3023) by by_trial 53%nat.
  assert (prime 208150935158385979) by by_pocklington 3023 [191039911].
  assert (prime 2624747550333869278416773953) by by_pocklington 208150935158385979 (@nil Z).
  assert (prime 3969899) by by_trial 1991%nat. assert (prime 1002328039319) by by_pocklington 3969899 (@nil Z).
  by_pocklington 1002328039319 [2624747550333869278416773953].
Qed.

Lemma field_prime : prime (2 ^ 256 - 2 ^ 224 + 2 ^ 192 + 2 ^ 96 - 1).
Proof.
  assert (prime 704251) by by_trial 838%nat. assert (prime 78283) by by_trial 278%nat.
  assert (prime 46076956964474543) by by_pocklington 78283 [704251].
  assert (prime 3769) by by_trial 60%nat. assert (prime 107) by by_trial 9%nat. assert (prime 204061199) by by_pocklington 107 [3769].
  assert (prime 34282281433) by by_pocklington 204061199 (@nil Z).
  assert (prime 774023187263532362759620327192479577272145303) by by_pocklington 34282281433 [46076956964474543].
  assert (prime 835945042244614951780389953367877943453916927241) by by_pocklington 774023187263532362759620327192479577272145303 (@nil Z).
  by_pocklington 835945042244614951780389953367877943453916927241 (@nil Z).
Qed.
