(* ===== verification/P256.v ===== *)
(** Numbers of 256 bits (omaha/base/security/p256.c).

    A number is a list of eight 32-bit digits, the least significant one first.
    Loops over the digits are recursions over the lists; a pointer into an array
    is an offset. *)

From S2P Require Import Prelude.

Definition P256_NDIGITS : nat := 8.
Definition P256_BITSPERDIGIT : Z := 32.
Definition P256_NBYTES : nat := 32.

Abbreviation p256_int := (list Z).

Definition P256_DIGIT (a : p256_int) (i : nat) : Z := nth i a 0.

Definition all_ones : Z := 0xffffffff.

Definition SECP256r1_n : p256_int :=
  [0xfc632551; 0xf3b9cac2; 0xa7179e84; 0xbce6faad; all_ones; all_ones; 0; all_ones].
Definition SECP256r1_nMin2 : p256_int :=
  [0xfc632551 - 2; 0xf3b9cac2; 0xa7179e84; 0xbce6faad; all_ones; all_ones; 0; all_ones].
Definition SECP256r1_p : p256_int := [all_ones; all_ones; all_ones; 0; 0; 0; 1; all_ones].
Definition SECP256r1_b : p256_int :=
  [0x27d2604b; 0x3bce3c3e; 0xcc53b0f6; 0x651d06b0; 0x769886bc; 0xb3ebbd55; 0xaa3a93e7; 0x5ac635d8].

Definition P256_ZERO : p256_int := replicate P256_NDIGITS 0.
Definition P256_ONE : p256_int := 1 :: replicate 7 0.

Definition p256_get_bit (scalar : p256_int) (bit : Z) : Z :=
  Z.land (Z.shiftr (P256_DIGIT scalar (Z.to_nat (bit / P256_BITSPERDIGIT))) (Z.land bit (P256_BITSPERDIGIT - 1))) 1.

Definition p256_is_zero (a : p256_int) : bool := fold_left Z.lor a 0 =? 0.
Definition p256_is_even (a : p256_int) : bool := Z.land (P256_DIGIT a 0) 1 =? 0.

(** ** Adding and subtracting into an array *)

(** [c[] += a[] * b] with a carry in 64 bits. *)
Fixpoint mulAdd_loop (a : list Z) (b carry : Z) (c : list Z) : list Z * Z :=
  match a, c with
  | a0 :: a, c0 :: c =>
      let carry := u64 (carry + c0) in
      let carry := u64 (carry + u64 (a0 * b)) in
      let '(c, top) := mulAdd_loop a b (Z.shiftr carry 32) c in
      (u32 carry :: c, top)
  | _, _ => (c, carry)
  end.
Definition mulAdd (a : p256_int) (b top : Z) (c : list Z) : list Z * Z :=
  let '(c, carry) := mulAdd_loop a b 0 c in (c, u32 (top + u32 carry)).

(** [c[] -= a[]] with a signed borrow in 64 bits; [a] is masked. *)
Fixpoint sub_loop (a : list Z) (mask borrow : Z) (c : list Z) : list Z * Z :=
  match a, c with
  | a0 :: a, c0 :: c =>
      let borrow := s64 (borrow + c0) in
      let borrow := s64 (borrow - Z.land a0 mask) in
      let '(c, top) := sub_loop a mask (Z.shiftr borrow 32) c in
      (u32 borrow :: c, top)
  | _, _ => (c, borrow)
  end.
(** Without the mask. *)
Definition subTop (top_a : Z) (a : list Z) (top_c : Z) (c : list Z) : list Z * Z :=
  let '(c, borrow) := sub_loop a all_ones 0 c in
  (c, u32 (s64 (s64 (borrow + top_c) - top_a))).
Definition subM (MOD : p256_int) (top : Z) (c : list Z) (mask : Z) : list Z * Z :=
  let '(c, borrow) := sub_loop MOD mask 0 c in (c, u32 (top + u32 borrow)).

Fixpoint addM_loop (MOD : list Z) (mask carry : Z) (c : list Z) : list Z * Z :=
  match MOD, c with
  | m :: MOD, c0 :: c =>
      let carry := u64 (carry + c0) in
      let carry := u64 (carry + Z.land m mask) in
      let '(c, top) := addM_loop MOD mask (Z.shiftr carry 32) c in
      (u32 carry :: c, top)
  | _, _ => (c, carry)
  end.
Definition addM (MOD : p256_int) (top : Z) (c : list Z) (mask : Z) : list Z * Z :=
  let '(c, carry) := addM_loop MOD mask 0 c in (c, u32 (top + u32 carry)).

(** The eight digits of an array from [i] on are changed. *)
Definition at_offset {A} (i : nat) (f : list Z -> list Z * A) (tmp : list Z) : list Z * A :=
  let '(c, r) := f (take P256_NDIGITS (drop i tmp)) in
  (take i tmp ++ c ++ drop (i + P256_NDIGITS) tmp, r).

(** ** Multiplication modulo a number *)

Fixpoint modmul_mul (a b : list Z) (i : nat) (top : Z) (tmp : list Z) : list Z * Z :=
  match b with
  | [] => (tmp, top)
  | b0 :: b =>
      let tmp := if decide (i = 0%nat) then tmp else <[(i + 7)%nat := top]> tmp in
      let '(tmp, top) := at_offset i (mulAdd a b0 0) tmp in
      modmul_mul a b (S i) top tmp
  end.

(** One digit of the reduction, at the offset [i]. *)
Definition modmul_reduce_step (MOD : p256_int) (i : nat) (top : Z) (tmp : list Z) : list Z * Z :=
  let '(reducer, top_reducer) := mulAdd MOD top 0 (replicate P256_NDIGITS 0) in
  let '(tmp, top) := at_offset i (subTop top_reducer reducer top) tmp in
  let '(tmp, _) := at_offset i (fun c => subM MOD top c (all_ones - u32 (top - 1))) tmp in
  (tmp, P256_DIGIT tmp (i + 7)).
Fixpoint modmul_reduce (MOD : p256_int) (n : nat) (top : Z) (tmp : list Z) : list Z :=
  match n with
  | O => tmp
  | S i => let '(tmp, top) := modmul_reduce_step MOD i top tmp in modmul_reduce MOD i top tmp
  end.

(** [addM(MOD, 0, c, subM(MOD, 0, c, -1))]: once less, unless that is negative. *)
Definition sub_once (MOD : p256_int) (c : list Z) : list Z :=
  let '(c, mask) := subM MOD 0 c all_ones in (addM MOD 0 c mask).1.

Definition p256_modmul (MOD a : p256_int) (top_b : Z) (b : p256_int) : p256_int :=
  let '(tmp, top) := modmul_mul a b 0 0 (replicate 17 0) in
  let tmp := <[15%nat := top]> tmp in
  let '(tmp, top) := at_offset 8 (mulAdd a top_b 0) tmp in
  let tmp := modmul_reduce MOD 9 top tmp in
  sub_once MOD (take P256_NDIGITS tmp).

Definition p256_mod (MOD a : p256_int) : p256_int := sub_once MOD a.

(** ** Shifts, sums and comparisons *)

Definition p256_shl (a : p256_int) (n : Z) : Z * p256_int :=
  let n := n mod P256_BITSPERDIGIT in
  (Z.shiftr (P256_DIGIT a 7) (P256_BITSPERDIGIT - n),
   zip_with (fun lower digit => Z.lor (u32 (Z.shiftl digit n)) (Z.shiftr lower (P256_BITSPERDIGIT - n))) (0 :: a) a).
Definition p256_shr (a : p256_int) (n : Z) : p256_int :=
  let n := n mod P256_BITSPERDIGIT in
  zip_with (fun digit higher => Z.lor (Z.shiftr digit n) (u32 (Z.shiftl higher (P256_BITSPERDIGIT - n)))) a (drop 1 a ++ [0]).
Definition p256_shr1 (a : p256_int) (highbit : Z) : p256_int :=
  zip_with (fun digit higher => Z.lor (Z.shiftr digit 1) (u32 (Z.shiftl higher 31))) a (drop 1 a ++ [highbit]).

Fixpoint cmp_loop (a b : list Z) (borrow notzero : Z) : Z * Z :=
  match a, b with
  | a0 :: a, b0 :: b =>
      let borrow := s64 (borrow + s64 (a0 - b0)) in
      let notzero := Z.lor notzero (if u32 borrow =? 0 then 0 else 1) in
      cmp_loop a b (Z.shiftr borrow 32) notzero
  | _, _ => (borrow, notzero)
  end.
Definition p256_cmp (a b : p256_int) : Z :=
  let '(borrow, notzero) := cmp_loop a b 0 0 in s32 (Z.lor (s32 borrow) notzero).

(** The borrow, 0 or -1, and the difference. *)
Fixpoint p256_sub_loop (a b : list Z) (borrow : Z) : Z * list Z :=
  match a, b with
  | a0 :: a, b0 :: b =>
      let borrow := s64 (borrow + s64 (a0 - b0)) in
      let '(top, c) := p256_sub_loop a b (Z.shiftr borrow 32) in
      (top, u32 borrow :: c)
  | _, _ => (borrow, [])
  end.
Definition p256_sub (a b : p256_int) : Z * p256_int :=
  let '(borrow, c) := p256_sub_loop a b 0 in (s32 borrow, c).

(** The carry, 0 or 1, and the sum. *)
Fixpoint p256_add_loop (a b : list Z) (carry : Z) : Z * list Z :=
  match a, b with
  | a0 :: a, b0 :: b =>
      let carry := u64 (carry + u64 (a0 + b0)) in
      let '(top, c) := p256_add_loop a b (Z.shiftr carry 32) in
      (top, u32 carry :: c)
  | _, _ => (carry, [])
  end.
Definition p256_add (a b : p256_int) : Z * p256_int :=
  let '(carry, c) := p256_add_loop a b 0 in (s32 carry, c).

Fixpoint add_d_loop (a : list Z) (carry : Z) : Z * list Z :=
  match a with
  | a0 :: a =>
      let carry := u64 (carry + a0) in
      let '(top, c) := add_d_loop a (Z.shiftr carry 32) in
      (top, u32 carry :: c)
  | [] => (carry, [])
  end.
Definition p256_add_d (a : p256_int) (d : Z) : Z * p256_int :=
  let '(carry, c) := add_d_loop a d in (s32 carry, c).

(** ** Inverses *)

(** The binary algorithm: [R], [S], [U] and [V] of the sources change until [V]
    is zero.  It does not end when [a] is zero, so that there is fuel. *)
Definition halve_mod (MOD r : p256_int) : p256_int :=
  if p256_is_even r then p256_shr1 r 0
  else let '(carry, r) := p256_add r MOD in p256_shr1 r carry.
Definition sub_mod (MOD s r : p256_int) : p256_int :=
  let '(borrow, s) := p256_sub s r in if borrow =? 0 then s else (p256_add s MOD).2.

Fixpoint modinv_loop (MOD : p256_int) (fuel : nat) (r s u v : p256_int) : option p256_int :=
  match fuel with
  | O => None
  | S fuel =>
      if p256_is_even u then modinv_loop MOD fuel (halve_mod MOD r) s (p256_shr1 u 0) v
      else if p256_is_even v then modinv_loop MOD fuel r (halve_mod MOD s) u (p256_shr1 v 0)
      else
        let '(borrow, difference) := p256_sub v u in
        if borrow =? 0 then
          let s := sub_mod MOD s r in
          if p256_is_zero difference then Some (p256_mod MOD r) else modinv_loop MOD fuel r s u difference
        else modinv_loop MOD fuel (sub_mod MOD r s) s (p256_sub u v).2 v
  end.

(** Each of the numbers has 256 bits, and every second step halves one. *)
Definition modinv_fuel : nat := 1026.
Definition p256_modinv_vartime (MOD a : p256_int) : option p256_int :=
  modinv_loop MOD modinv_fuel P256_ZERO P256_ONE MOD a.

(** ** The curve *)

(** [if (p256_sub(&x3, x, &x3)) p256_add(&x3, &SECP256r1_p, &x3)]. *)
Definition p256_is_valid_point (x y : p256_int) : bool :=
  if (p256_cmp SECP256r1_p x <=? 0) || (p256_cmp SECP256r1_p y <=? 0) || p256_is_zero x || p256_is_zero y then false
  else
    let y2 := p256_modmul SECP256r1_p y 0 y in
    let x3 := p256_modmul SECP256r1_p x 0 x in
    let x3 := p256_modmul SECP256r1_p x 0 x3 in
    let x3 := sub_mod SECP256r1_p x3 x in
    let x3 := sub_mod SECP256r1_p x3 x in
    let x3 := sub_mod SECP256r1_p x3 x in
    let '(carry, x3) := p256_add x3 SECP256r1_b in
    let x3 := if carry =? 0 then x3 else (p256_sub x3 SECP256r1_p).2 in
    let x3 := sub_mod SECP256r1_p x3 SECP256r1_p in
    p256_cmp y2 x3 =? 0.

(** ** Bytes *)

Definition digit_to_bytes (digit : Z) : list Z := [Z.shiftr digit 24 mod 256; Z.shiftr digit 16 mod 256; Z.shiftr digit 8 mod 256; digit mod 256].
Definition p256_to_bin (src : p256_int) : list Z := concat (digit_to_bytes <$> rev src).
Fixpoint bin_digits (n : nat) (p : list Z) : list Z :=
  match n, p with
  | S n, p0 :: p1 :: p2 :: p3 :: p =>
      u32 (Z.lor (Z.lor (Z.lor (Z.shiftl p0 24) (Z.shiftl p1 16)) (Z.shiftl p2 8)) p3) :: bin_digits n p
  | _, _ => []
  end.
Definition p256_from_bin (src : list Z) : p256_int := rev (bin_digits P256_NDIGITS src).
