(* ===== verification/P256Facts.v ===== *)
(** The arithmetic of P256.v computes what it is meant to: sums, differences and
    shifts are those of the numbers the digits stand for, multiplication is
    multiplication modulo a number, and the binary algorithm finds inverses. *)

From S2P Require Import Prelude P256.

(** ** Numbers *)

Definition B : Z := 2 ^ 32.
Notation is_digit d := (0 <= d < B).

(** The number that digits stand for. *)
Fixpoint val (l : list Z) : Z := match l with [] => 0 | x :: l => x + B * val l end.

Definition digits (l : list Z) : Prop := Forall (fun d => is_digit d) l.
Definition number (l : list Z) : Prop := digits l /\ length l = 8%nat.

Lemma B_pos : 0 < B.
Proof. done. Qed.

Lemma val_bound l : digits l -> 0 <= val l < B ^ Z.of_nat (length l).
Proof.
  induction 1 as [|x l Hx Hl IH]; cbn [val length]; [lia|].
  rewrite Nat2Z.inj_succ, Z.pow_succ_r by lia. pose proof B_pos. nia.
Qed.

Lemma val_app l k : val (l ++ k) = val l + B ^ Z.of_nat (length l) * val k.
Proof.
  induction l as [|x l IH]; cbn [val length app]; [lia|].
  rewrite Nat2Z.inj_succ, Z.pow_succ_r, IH by lia. ring.
Qed.

Lemma val_zeros n : val (replicate n 0) = 0.
Proof. induction n; cbn [val replicate]; lia. Qed.

Lemma digits_zeros n : digits (replicate n 0).
Proof. apply Forall_replicate. done. Qed.

Lemma number_bound a : number a -> 0 <= val a < 2 ^ 256.
Proof. intros [Hd Hl]. pose proof (val_bound a Hd) as Hb. rewrite Hl in Hb. exact Hb. Qed.

(** ** A word with its carry *)

Lemma low_high z : u32 z + B * Z.shiftr z 32 = z.
Proof. unfold u32, B. rewrite Z.shiftr_div_pow2 by lia. pose proof (Z.div_mod z (2 ^ 32)). lia. Qed.

Lemma low_digit z : is_digit (u32 z).
Proof. apply u32_range. Qed.

Lemma shiftr32_bounds z lo hi : lo * B <= z < hi * B -> lo <= Z.shiftr z 32 < hi.
Proof.
  unfold B. intros Hz. rewrite Z.shiftr_div_pow2 by lia.
  split; [apply Z.div_le_lower_bound; lia|apply Z.div_lt_upper_bound; lia].
Qed.

Lemma land_ones d : is_digit d -> Z.land d all_ones = d.
Proof. intros Hd. change all_ones with (Z.ones 32). rewrite Z.land_ones by lia. by apply Z.mod_small. Qed.

Lemma mul_digits a b : is_digit a -> is_digit b -> 0 <= a * b <= (B - 1) * (B - 1).
Proof. intros Ha Hb. nia. Qed.

(** [mask] selects all of [a] or nothing. *)
Definition masked (mask a : Z) : Z := if mask =? 0 then 0 else a.
Definition is_mask (mask : Z) : Prop := mask = 0 \/ mask = all_ones.

Lemma land_masked mask d : is_mask mask -> is_digit d -> Z.land d mask = masked mask d.
Proof. intros [->| ->] Hd; unfold masked; [by rewrite Z.land_0_r|by rewrite land_ones]. Qed.

Lemma masked_bound mask d : is_digit d -> is_digit (masked mask d).
Proof. unfold masked. by destruct (mask =? 0). Qed.

Lemma masked_val mask x l : masked mask (x + B * l) = masked mask x + B * masked mask l.
Proof. unfold masked. destruct (mask =? 0); lia. Qed.

(** ** The loops *)

(** The equation of the values of one more digit follows from that of the rest. *)
Ltac carry_step :=
  lazymatch goal with |- context [?b ^ Z.of_nat ?n] => remember (b ^ Z.of_nat n) in * end;
  repeat lazymatch goal with t := _ |- _ => subst t end; lia.

Lemma mulAdd_loop_spec a b : forall carry c,
  digits a -> digits c -> length a = length c -> is_digit b -> is_digit carry ->
  let '(c', k) := mulAdd_loop a b carry c in
  digits c' /\ length c' = length c /\ is_digit k /\
  val c' + B ^ Z.of_nat (length c) * k = val c + val a * b + carry.
Proof.
  induction a as [|a0 a IH]; intros carry [|c0 c] Ha Hc Hlen Hb Hk; try discriminate; cbn [mulAdd_loop].
  { split_and!; try done; cbn [val length Z.of_nat]; lia. }
  apply Forall_cons in Ha as [Ha0 Ha]. apply Forall_cons in Hc as [Hc0 Hc]. injection Hlen as Hlen.
  pose proof (mul_digits a0 b Ha0 Hb) as Hm. unfold B in *.
  rewrite (u64_small (carry + c0)), (u64_small (a0 * b)) by lia. rewrite u64_small by lia.
  set (t := carry + c0 + a0 * b) in *. assert (0 * B <= t < B * B) as Ht by (unfold B; lia).
  specialize (IH (Z.shiftr t 32) c Ha Hc Hlen Hb (shiftr32_bounds t 0 B Ht)).
  destruct (mulAdd_loop a b (Z.shiftr t 32) c) as [c' k]. destruct IH as (Hd & Hl & Hk' & Hv).
  split_and!; [constructor; [apply low_digit|done]|cbn [length]; lia|lia|lia|].
  cbn [val length]. rewrite Nat2Z.inj_succ, Z.pow_succ_r by lia. pose proof (low_high t) as Hlh. unfold B in *.
  carry_step.
Qed.

Lemma sub_loop_spec a mask : forall borrow c,
  digits a -> digits c -> length a = length c -> is_mask mask -> -1 <= borrow <= 0 ->
  let '(c', k) := sub_loop a mask borrow c in
  digits c' /\ length c' = length c /\ -1 <= k <= 0 /\
  val c' + B ^ Z.of_nat (length c) * k = val c - masked mask (val a) + borrow.
Proof.
  induction a as [|a0 a IH]; intros borrow [|c0 c] Ha Hc Hlen Hm Hb; try discriminate; cbn [sub_loop].
  { split_and!; try done; unfold masked; cbn [val length Z.of_nat]; destruct (mask =? 0); lia. }
  apply Forall_cons in Ha as [Ha0 Ha]. apply Forall_cons in Hc as [Hc0 Hc]. injection Hlen as Hlen.
  rewrite (land_masked mask a0 Hm Ha0). pose proof (masked_bound mask a0 Ha0) as Hma. unfold B in *.
  rewrite (s64_small (borrow + c0)) by lia. rewrite s64_small by lia.
  set (t := borrow + c0 - masked mask a0) in *. assert (-1 * B <= t < 1 * B) as Ht by (unfold B; lia).
  pose proof (shiftr32_bounds t (-1) 1 Ht) as Hs.
  specialize (IH (Z.shiftr t 32) c Ha Hc Hlen Hm ltac:(lia)).
  destruct (sub_loop a mask (Z.shiftr t 32) c) as [c' k]. destruct IH as (Hd & Hl & Hk' & Hv).
  split_and!; [constructor; [apply low_digit|done]|cbn [length]; lia|lia|lia|].
  cbn [val length]. rewrite Nat2Z.inj_succ, Z.pow_succ_r, masked_val by lia. pose proof (low_high t) as Hlh. unfold B in *.
  carry_step.
Qed.

Lemma addM_loop_spec m mask : forall carry c,
  digits m -> digits c -> length m = length c -> is_mask mask -> 0 <= carry <= 1 ->
  let '(c', k) := addM_loop m mask carry c in
  digits c' /\ length c' = length c /\ 0 <= k <= 1 /\
  val c' + B ^ Z.of_nat (length c) * k = val c + masked mask (val m) + carry.
Proof.
  induction m as [|m0 m IH]; intros carry [|c0 c] Ha Hc Hlen Hm Hb; try discriminate; cbn [addM_loop].
  { split_and!; try done; unfold masked; cbn [val length Z.of_nat]; destruct (mask =? 0); lia. }
  apply Forall_cons in Ha as [Ha0 Ha]. apply Forall_cons in Hc as [Hc0 Hc]. injection Hlen as Hlen.
  rewrite (land_masked mask m0 Hm Ha0). pose proof (masked_bound mask m0 Ha0) as Hma. unfold B in *.
  rewrite (u64_small (carry + c0)) by lia. rewrite u64_small by lia.
  set (t := carry + c0 + masked mask m0) in *. assert (0 * B <= t < 2 * B) as Ht by (unfold B; lia).
  pose proof (shiftr32_bounds t 0 2 Ht) as Hs.
  specialize (IH (Z.shiftr t 32) c Ha Hc Hlen Hm ltac:(lia)).
  destruct (addM_loop m mask (Z.shiftr t 32) c) as [c' k]. destruct IH as (Hd & Hl & Hk' & Hv).
  split_and!; [constructor; [apply low_digit|done]|cbn [length]; lia|lia|lia|].
  cbn [val length]. rewrite Nat2Z.inj_succ, Z.pow_succ_r, masked_val by lia. pose proof (low_high t) as Hlh. unfold B in *.
  carry_step.
Qed.

Lemma p256_sub_loop_spec a : forall b borrow,
  digits a -> digits b -> length a = length b -> -1 <= borrow <= 0 ->
  let '(k, c) := p256_sub_loop a b borrow in
  digits c /\ length c = length a /\ -1 <= k <= 0 /\
  val c + B ^ Z.of_nat (length a) * k = val a - val b + borrow.
Proof.
  induction a as [|a0 a IH]; intros [|b0 b] borrow Ha Hb Hlen Hk; try discriminate; cbn [p256_sub_loop].
  { split_and!; try done; cbn [val length Z.of_nat]; lia. }
  apply Forall_cons in Ha as [Ha0 Ha]. apply Forall_cons in Hb as [Hb0 Hb]. injection Hlen as Hlen. unfold B in *.
  rewrite (s64_small (a0 - b0)) by lia. rewrite s64_small by lia.
  set (t := borrow + (a0 - b0)) in *. assert (-1 * B <= t < 1 * B) as Ht by (unfold B; lia).
  pose proof (shiftr32_bounds t (-1) 1 Ht) as Hs. specialize (IH b (Z.shiftr t 32) Ha Hb Hlen ltac:(lia)).
  destruct (p256_sub_loop a b (Z.shiftr t 32)) as [k c]. destruct IH as (Hd & Hl & Hk' & Hv).
  split_and!; [constructor; [apply low_digit|done]|cbn [length]; lia|lia|lia|].
  cbn [val length]. rewrite Nat2Z.inj_succ, Z.pow_succ_r by lia. pose proof (low_high t) as Hlh. unfold B in *.
  carry_step.
Qed.

Lemma p256_add_loop_spec a : forall b carry,
  digits a -> digits b -> length a = length b -> 0 <= carry <= 1 ->
  let '(k, c) := p256_add_loop a b carry in
  digits c /\ length c = length a /\ 0 <= k <= 1 /\
  val c + B ^ Z.of_nat (length a) * k = val a + val b + carry.
Proof.
  induction a as [|a0 a IH]; intros [|b0 b] carry Ha Hb Hlen Hk; try discriminate; cbn [p256_add_loop].
  { split_and!; try done; cbn [val length Z.of_nat]; lia. }
  apply Forall_cons in Ha as [Ha0 Ha]. apply Forall_cons in Hb as [Hb0 Hb]. injection Hlen as Hlen. unfold B in *.
  rewrite (u64_small (a0 + b0)) by lia. rewrite u64_small by lia.
  set (t := carry + (a0 + b0)) in *. assert (0 * B <= t < 2 * B) as Ht by (unfold B; lia).
  pose proof (shiftr32_bounds t 0 2 Ht) as Hs. specialize (IH b (Z.shiftr t 32) Ha Hb Hlen ltac:(lia)).
  destruct (p256_add_loop a b (Z.shiftr t 32)) as [k c]. destruct IH as (Hd & Hl & Hk' & Hv).
  split_and!; [constructor; [apply low_digit|done]|cbn [length]; lia|lia|lia|].
  cbn [val length]. rewrite Nat2Z.inj_succ, Z.pow_succ_r by lia. pose proof (low_high t) as Hlh. unfold B in *.
  carry_step.
Qed.

Lemma add_d_loop_spec a : forall carry,
  digits a -> is_digit carry ->
  let '(k, c) := add_d_loop a carry in
  digits c /\ length c = length a /\ is_digit k /\ (a <> [] -> k <= 1) /\
  val c + B ^ Z.of_nat (length a) * k = val a + carry.
Proof.
  induction a as [|a0 a IH]; intros carry Ha Hk; cbn [add_d_loop].
  { split_and!; try done; cbn [val length Z.of_nat]; lia. }
  apply Forall_cons in Ha as [Ha0 Ha]. unfold B in *. rewrite u64_small by lia.
  set (t := carry + a0) in *. assert (0 * B <= t < 2 * B) as Ht by (unfold B; lia).
  pose proof (shiftr32_bounds t 0 2 Ht) as Hs. specialize (IH (Z.shiftr t 32) Ha ltac:(lia)).
  destruct (add_d_loop a (Z.shiftr t 32)) as [k c] eqn:E. destruct IH as (Hd & Hl & Hk' & Hle & Hv).
  split_and!; [constructor; [apply low_digit|done]|cbn [length]; lia|lia|lia| |].
  - intros _. destruct a; [injection E as <- <-; lia|by apply Hle].
  - cbn [val length]. rewrite Nat2Z.inj_succ, Z.pow_succ_r by lia. pose proof (low_high t) as Hlh. unfold B in *. carry_step.
Qed.

(** ** Numbers of eight digits *)

Lemma p256_sub_spec a b : number a -> number b ->
  let '(borrow, c) := p256_sub a b in
  number c /\ val c = val a - val b - 2 ^ 256 * borrow /\ borrow = if val a <? val b then -1 else 0.
Proof.
  intros [Ha Hla] [Hb Hlb]. unfold p256_sub. pose proof (p256_sub_loop_spec a b 0 Ha Hb ltac:(congruence) ltac:(lia)) as Hs.
  destruct (p256_sub_loop a b 0) as [k c]. destruct Hs as (Hc & Hl & Hk & Hv). rewrite Hla in *.
  rewrite s32_small by lia. change (B ^ Z.of_nat 8) with (2 ^ 256) in Hv.
  assert (number c) as Hn by done. pose proof (number_bound c Hn).
  pose proof (number_bound a (conj Ha Hla)). pose proof (number_bound b (conj Hb Hlb)).
  split_and!; [exact Hn|lia|]. destruct (Z.ltb_spec (val a) (val b)); lia.
Qed.

Lemma p256_add_spec a b : number a -> number b ->
  let '(carry, c) := p256_add a b in
  number c /\ val c = val a + val b - 2 ^ 256 * carry /\ carry = if val a + val b <? 2 ^ 256 then 0 else 1.
Proof.
  intros [Ha Hla] [Hb Hlb]. unfold p256_add. pose proof (p256_add_loop_spec a b 0 Ha Hb ltac:(congruence) ltac:(lia)) as Hs.
  destruct (p256_add_loop a b 0) as [k c]. destruct Hs as (Hc & Hl & Hk & Hv). rewrite Hla in *.
  rewrite s32_small by lia. change (B ^ Z.of_nat 8) with (2 ^ 256) in Hv.
  assert (number c) as Hn by done. pose proof (number_bound c Hn).
  split_and!; [exact Hn|lia|]. destruct (Z.ltb_spec (val a + val b) (2 ^ 256)); lia.
Qed.

Lemma p256_add_d_spec a d : number a -> is_digit d ->
  let '(carry, c) := p256_add_d a d in
  number c /\ val c = val a + d - 2 ^ 256 * carry /\ carry = if val a + d <? 2 ^ 256 then 0 else 1.
Proof.
  intros [Ha Hla] Hd. unfold p256_add_d. pose proof (add_d_loop_spec a d Ha Hd) as Hs.
  destruct (add_d_loop a d) as [k c]. destruct Hs as (Hc & Hl & Hk & Hle & Hv). rewrite Hla in *.
  assert (k <= 1) by (apply Hle; by intros ->). rewrite s32_small by lia. change (B ^ Z.of_nat 8) with (2 ^ 256) in Hv.
  assert (number c) as Hn by done. pose proof (number_bound c Hn).
  split_and!; [exact Hn|lia|]. destruct (Z.ltb_spec (val a + d) (2 ^ 256)); lia.
Qed.

(** Zero, parity and comparison. *)
Lemma lor_zero l : forall acc, fold_left Z.lor l acc = 0 <-> acc = 0 /\ Forall (fun d => d = 0) l.
Proof.
  induction l as [|x l IH]; intros acc; cbn [fold_left]; [by split; [intros ->|intros [-> _]]|].
  rewrite IH, Z.lor_eq_0_iff, Forall_cons. tauto.
Qed.

Lemma val_zero l : digits l -> val l = 0 <-> Forall (fun d => d = 0) l.
Proof.
  induction 1 as [|x l Hx Hl IH]; cbn [val]; [by split|]. rewrite Forall_cons, <- IH.
  pose proof (val_bound l Hl). pose proof B_pos. split; [intros Hv; nia|intros [-> ->]; lia].
Qed.

Lemma p256_is_zero_spec a : digits a -> p256_is_zero a = (val a =? 0).
Proof.
  intros Ha. unfold p256_is_zero. destruct (Z.eqb_spec (val a) 0) as [Hv|Hv].
  - apply Z.eqb_eq, lor_zero. split; [done|by apply val_zero].
  - apply Z.eqb_neq. intros [_ Hz]%lor_zero. by apply Hv, val_zero.
Qed.

Lemma p256_is_even_spec a : digits a -> p256_is_even a = Z.even (val a).
Proof.
  intros Ha. unfold p256_is_even, P256_DIGIT. change 1 with (Z.ones 1). rewrite Z.land_ones by lia.
  destruct Ha as [|x l Hx Hl]; cbn [nth val]; [done|]. unfold B. rewrite Z.even_add, Z.even_mul. cbn [Z.even].
  change (2 ^ 1) with 2. rewrite Zmod_even. by destruct (Z.even x).
Qed.

Lemma cmp_loop_spec a : forall b borrow nz,
  digits a -> digits b -> length a = length b -> -1 <= borrow <= 0 -> nz = 0 \/ nz = 1 ->
  let '(k, nz') := cmp_loop a b borrow nz in
  -1 <= k <= 0 /\ (nz' = 0 \/ nz' = 1) /\
  exists d, 0 <= d < B ^ Z.of_nat (length a) /\ d + B ^ Z.of_nat (length a) * k = val a - val b + borrow /\
    (nz' = 0 <-> nz = 0 /\ d = 0).
Proof.
  induction a as [|a0 a IH]; intros [|b0 b] borrow nz Ha Hb Hlen Hk Hnz; try discriminate; cbn [cmp_loop].
  { split_and!; [lia|lia|done|]. exists 0. cbn [val length Z.of_nat]. split_and!; [lia|lia|lia|tauto]. }
  apply Forall_cons in Ha as [Ha0 Ha]. apply Forall_cons in Hb as [Hb0 Hb]. injection Hlen as Hlen. unfold B in *.
  rewrite (s64_small (a0 - b0)) by lia. rewrite s64_small by lia.
  set (t := borrow + (a0 - b0)) in *. assert (-1 * B <= t < 1 * B) as Ht by (unfold B; lia).
  pose proof (shiftr32_bounds t (-1) 1 Ht) as Hs. set (z := Z.lor nz _).
  assert ((z = 0 \/ z = 1) /\ (z = 0 <-> nz = 0 /\ u32 t = 0)) as [Hz Hz0].
  { clear -Hnz. unfold z. generalize (u32 t). intros w. destruct Hnz as [-> | ->], (Z.eqb_spec w 0); cbv [Z.lor Pos.lor]; split; auto; split; intros; lia. }
  specialize (IH b (Z.shiftr t 32) z Ha Hb Hlen ltac:(lia) Hz).
  destruct (cmp_loop a b (Z.shiftr t 32) z) as [k nz']. destruct IH as (Hk' & Hnz' & d & Hd & Hv & Hiff).
  split_and!; [lia|lia|done|]. exists (u32 t + 2 ^ 32 * d). cbn [val length]. rewrite Nat2Z.inj_succ, Z.pow_succ_r by lia.
  pose proof (low_high t) as Hlh. pose proof (low_digit t) as Hld. unfold B in *.
  remember ((2 ^ 32) ^ Z.of_nat (length a)) as P. split_and!; [lia|nia|subst t; lia|]. rewrite Hiff, Hz0. nia.
Qed.

Lemma p256_cmp_spec a b : number a -> number b ->
  p256_cmp a b = if val a <? val b then -1 else if val a =? val b then 0 else 1.
Proof.
  intros [Ha Hla] [Hb Hlb]. unfold p256_cmp.
  pose proof (cmp_loop_spec a b 0 0 Ha Hb ltac:(congruence) ltac:(lia) ltac:(auto)) as Hs.
  destruct (cmp_loop a b 0 0) as [k nz]. destruct Hs as (Hk & Hnz & d & Hd & Hv & Hiff). rewrite Hla in *.
  change (B ^ Z.of_nat 8) with (2 ^ 256) in *.
  pose proof (number_bound a (conj Ha Hla)). pose proof (number_bound b (conj Hb Hlb)).
  rewrite (s32_small k) by lia. destruct (Z.ltb_spec (val a) (val b)), (Z.eqb_spec (val a) (val b)); try lia.
  - assert (k = -1) as -> by lia. rewrite Z.lor_m1_l. done.
  - assert (k = 0) as -> by lia. assert (nz = 0) as -> by (apply Hiff; lia). done.
  - assert (k = 0) as -> by lia. destruct Hnz as [-> | ->]; [|done]. destruct (proj1 Hiff eq_refl). lia.
Qed.

(** ** Shifts *)

(** A digit from the high bits of one and the low bits of the next. *)
Lemma lor_parts n digit higher :
  0 < n < 32 -> is_digit digit ->
  Z.lor (Z.shiftr digit n) (u32 (Z.shiftl higher (32 - n))) = Z.shiftr digit n + 2 ^ (32 - n) * (higher mod 2 ^ n).
Proof.
  intros Hn Hd. assert (u32 (Z.shiftl higher (32 - n)) = Z.shiftl (higher mod 2 ^ n) (32 - n)) as ->.
  { unfold u32. rewrite !Z.shiftl_mul_pow2 by lia. replace (2 ^ 32) with (2 ^ n * 2 ^ (32 - n)) by (rewrite <- Z.pow_add_r by lia; f_equal; lia).
    by rewrite Z.mul_mod_distr_r by lia. }
  rewrite Z.lor_comm, lor_shiftl_add; [lia|lia|]. rewrite Z.shiftr_div_pow2 by lia.
  split; [apply Z.div_pos; lia|]. apply Z.div_lt_upper_bound; [lia|]. rewrite <- Z.pow_add_r by lia.
  replace (n + (32 - n)) with 32 by lia. apply Hd.
Qed.

Definition shr_digits (n highbit : Z) (a : list Z) : list Z :=
  zip_with (fun digit higher => Z.lor (Z.shiftr digit n) (u32 (Z.shiftl higher (32 - n)))) a (drop 1 a ++ [highbit]).

Lemma shr_digit n d h :
  0 < n < 32 -> is_digit d ->
  let r := Z.lor (Z.shiftr d n) (u32 (Z.shiftl h (32 - n))) in
  is_digit r /\ 2 ^ n * r + d mod 2 ^ n = d + B * (h mod 2 ^ n).
Proof.
  intros Hn Hd. cbv zeta. rewrite lor_parts by done. rewrite Z.shiftr_div_pow2 by lia.
  assert (2 ^ n * 2 ^ (32 - n) = B) as HB by (rewrite <- Z.pow_add_r by lia; unfold B; f_equal; lia).
  assert (0 < 2 ^ n) as Hpos by lia. pose proof (Z.mod_pos_bound h (2 ^ n) Hpos).
  pose proof (Z.div_mod d (2 ^ n) ltac:(lia)) as Hdm. pose proof (Z.mod_pos_bound d (2 ^ n) Hpos).
  assert (d / 2 ^ n < 2 ^ (32 - n)) by (apply Z.div_lt_upper_bound; lia).
  assert (0 <= d / 2 ^ n) by (apply Z.div_pos; lia). rewrite <- HB. nia.
Qed.

Lemma shr_digits_spec n highbit l : forall x,
  0 < n < 32 -> is_digit x -> digits l ->
  let r := shr_digits n highbit (x :: l) in
  digits r /\ length r = S (length l) /\
  2 ^ n * val r + x mod 2 ^ n = val (x :: l) + B ^ Z.of_nat (S (length l)) * (highbit mod 2 ^ n).
Proof.
  induction l as [|y l IH]; intros x Hn Hx Hl; cbv zeta.
  - destruct (shr_digit n x highbit Hn Hx) as [Hd Hv]. split_and!; [by apply Forall_singleton|done|]. cbn [val length].
    change (B ^ Z.of_nat 1) with B. change (shr_digits n highbit [x]) with [Z.lor (Z.shiftr x n) (u32 (Z.shiftl highbit (32 - n)))].
    cbn [val]. lia.
  - apply Forall_cons in Hl as [Hy Hl]. destruct (IH y Hn Hy Hl) as (Hds & Hlen & Hv).
    destruct (shr_digit n x y Hn Hx) as [Hd Hvd].
    change (shr_digits n highbit (x :: y :: l)) with (Z.lor (Z.shiftr x n) (u32 (Z.shiftl y (32 - n))) :: shr_digits n highbit (y :: l)).
    set (r := shr_digits n highbit (y :: l)) in *. set (d := Z.lor _ _) in *. clearbody r d.
    split_and!; [by constructor|cbn [length]; lia|]. cbn [val length] in *. rewrite (Nat2Z.inj_succ (S (length l))), Z.pow_succ_r by lia.
    remember (B ^ Z.of_nat (S (length l))) as P. remember (2 ^ n) as N.
    rewrite Z.mul_add_distr_l. replace (N * (B * val r)) with (B * (val (y :: l) + P * (highbit mod N) - y mod N)) by (cbn [val]; nia).
    cbn [val]. nia.
Qed.

Lemma p256_shr_spec n a : 0 < n < 32 -> number a -> number (p256_shr a n) /\ val (p256_shr a n) = val a / 2 ^ n.
Proof.
  intros Hn [Ha Hl]. unfold p256_shr. rewrite (Z.mod_small n) by (unfold P256_BITSPERDIGIT; lia). change P256_BITSPERDIGIT with 32.
  fold (shr_digits n 0 a). destruct a as [|x l]; [done|]. apply Forall_cons in Ha as [Hx Hd]. injection Hl as Hl.
  destruct (shr_digits_spec n 0 l x Hn Hx Hd) as (Hr & Hlen & Hv). rewrite Hl in *. split; [done|].
  rewrite Zmod_0_l, Z.mul_0_r, Z.add_0_r in Hv. pose proof (Z.mod_pos_bound x (2 ^ n) ltac:(lia)).
  apply (Z.div_unique_pos _ _ _ (x mod 2 ^ n)); lia.
Qed.

Lemma p256_shr1_spec a highbit : number a -> 0 <= highbit <= 1 ->
  number (p256_shr1 a highbit) /\ val (p256_shr1 a highbit) = (val a + 2 ^ 256 * highbit) / 2.
Proof.
  intros [Ha Hl] Hh. unfold p256_shr1. change 31 with (32 - 1).
  fold (shr_digits 1 highbit a). destruct a as [|x l]; [done|]. apply Forall_cons in Ha as [Hx Hd]. injection Hl as Hl.
  destruct (shr_digits_spec 1 highbit l x ltac:(lia) Hx Hd) as (Hr & Hlen & Hv). rewrite Hl in *. split; [done|].
  change (2 ^ 1) with 2 in *. rewrite (Z.mod_small highbit) in Hv by lia. pose proof (Z.mod_pos_bound x 2 ltac:(lia)).
  change (B ^ Z.of_nat 8) with (2 ^ 256) in Hv. apply (Z.div_unique_pos _ _ _ (x mod 2)); lia.
Qed.

(** Shifting left; [lower] comes before the digits. *)
Lemma last_default (x : Z) l d : List.last (x :: l) d = List.last l x.
Proof. revert x d. induction l as [|y l IH]; intros x d; [done|]. transitivity (List.last (y :: l) d); [done|]. by rewrite !IH. Qed.

Definition shl_digits (n lower : Z) (l : list Z) : list Z :=
  zip_with (fun lower digit => Z.lor (u32 (Z.shiftl digit n)) (Z.shiftr lower (32 - n))) (lower :: l) l.

Lemma shl_digits_spec n l : forall lower,
  0 < n < 32 -> is_digit lower -> digits l ->
  let r := shl_digits n lower l in
  digits r /\ length r = length l /\
  val r + B ^ Z.of_nat (length l) * Z.shiftr (List.last l lower) (32 - n) = 2 ^ n * val l + Z.shiftr lower (32 - n).
Proof.
  induction l as [|x l IH]; intros lower Hn Hlow Hl; cbv zeta in *.
  { split_and!; [constructor|done|]. cbn [val length List.last Z.of_nat]. change (val (shl_digits n lower [])) with 0. lia. }
  apply Forall_cons in Hl as [Hx Hl]. destruct (IH x Hn Hx Hl) as (Hr & Hlen & Hv).
  pose proof (shr_digit (32 - n) lower x ltac:(lia) Hlow) as Hd. cbv zeta in Hd. replace (32 - (32 - n)) with n in Hd by lia.
  rewrite Z.lor_comm in Hd. destruct Hd as [Hd Hvd].
  change (shl_digits n lower (x :: l)) with (Z.lor (u32 (Z.shiftl x n)) (Z.shiftr lower (32 - n)) :: shl_digits n x l).
  set (r := shl_digits n x l) in *. set (d := Z.lor _ _) in *. clearbody r d.
  split_and!; [by constructor|cbn [length]; lia|].
  rewrite last_default. cbn [val length]. rewrite Nat2Z.inj_succ, Z.pow_succ_r by lia.
  remember (B ^ Z.of_nat (length l)) as P. remember (Z.shiftr (List.last l x) (32 - n)) as top.
  rewrite Z.shiftr_div_pow2 in * by lia.
  assert (2 ^ n * 2 ^ (32 - n) = B) as HB by (rewrite <- Z.pow_add_r by lia; unfold B; f_equal; lia).
  pose proof (Z.div_mod lower (2 ^ (32 - n)) ltac:(lia)) as Hlow2.
  pose proof (Z.div_mod x (2 ^ (32 - n)) ltac:(lia)) as Hx2. remember (2 ^ (32 - n)) as M. remember (2 ^ n) as N.
  apply (Z.mul_cancel_l _ _ M); [lia|].
  replace (M * (d + B * val r + B * P * top)) with (M * d + M * B * (val r + P * top)) by ring. rewrite Hv.
  assert (M * d = lower + B * (x mod M) - lower mod M) as -> by lia. rewrite <- HB. rewrite <- HB in *. nia.
Qed.

Lemma p256_shl_spec n a : 0 < n < 32 -> number a ->
  let '(top, r) := p256_shl a n in
  number r /\ val r + 2 ^ 256 * top = 2 ^ n * val a /\ 0 <= top < 2 ^ n.
Proof.
  intros Hn [Ha Hl]. unfold p256_shl. rewrite (Z.mod_small n) by (unfold P256_BITSPERDIGIT; lia). change P256_BITSPERDIGIT with 32.
  fold (shl_digits n 0 a). destruct (shl_digits_spec n a 0 Hn ltac:(by vm_compute) Ha) as (Hr & Hlen & Hv). rewrite Hl in *.
  assert (List.last a 0 = P256_DIGIT a 7) as Hlast by (do 9 (destruct a as [|? a]; try done)). rewrite Hlast, Z.shiftr_0_l in Hv.
  split; [done|]. split; [change (2 ^ 256) with (B ^ Z.of_nat 8); lia|].
  assert (is_digit (P256_DIGIT a 7)) as Hd.
  { unfold P256_DIGIT. destruct (nth_in_or_default 7 a 0) as [Hin| ->]; [|by vm_compute].
    by apply list_elem_of_In in Hin; apply (proj1 (Forall_forall _ _) Ha). }
  rewrite Z.shiftr_div_pow2 by lia. split; [apply Z.div_pos; lia|]. apply Z.div_lt_upper_bound; [lia|].
  rewrite <- Z.pow_add_r by lia. replace (32 - n + n) with 32 by lia. apply Hd.
Qed.

(** ** Multiplication modulo a number *)

(** A modulus: its highest digit has all bits. *)
Definition modulus (MOD : p256_int) : Prop := number MOD /\ 2 ^ 256 - 2 ^ 224 <= val MOD.

Lemma mulAdd_spec a b c : number a -> number c -> is_digit b ->
  let '(c', top) := mulAdd a b 0 c in number c' /\ is_digit top /\ val c' + 2 ^ 256 * top = val c + val a * b.
Proof.
  intros [Ha Hla] [Hc Hlc] Hb. unfold mulAdd. pose proof (mulAdd_loop_spec a b 0 c Ha Hc ltac:(congruence) Hb ltac:(done)) as Hs.
  destruct (mulAdd_loop a b 0 c) as [c' k]. destruct Hs as (Hd & Hl & Hk & Hv). rewrite Hlc in *.
  change (B ^ Z.of_nat 8) with (2 ^ 256) in Hv. rewrite Z.add_0_l, !u32_small by (rewrite ?u32_small; exact Hk).
  split; [done|]. split; [done|lia].
Qed.

Lemma subM_spec MOD top c mask : number MOD -> number c -> is_mask mask ->
  exists k, let '(c', top') := subM MOD top c mask in
  number c' /\ -1 <= k <= 0 /\ top' = u32 (top + u32 k) /\ val c' + 2 ^ 256 * k = val c - masked mask (val MOD).
Proof.
  intros [Ha Hla] [Hc Hlc] Hm. unfold subM. pose proof (sub_loop_spec MOD mask 0 c Ha Hc ltac:(congruence) Hm ltac:(lia)) as Hs.
  destruct (sub_loop MOD mask 0 c) as [c' k]. destruct Hs as (Hd & Hl & Hk & Hv). rewrite Hlc in *.
  change (B ^ Z.of_nat 8) with (2 ^ 256) in Hv. exists k. split; [done|]. split; [lia|]. split; [done|lia].
Qed.

Lemma sub_once_spec MOD c : number MOD -> number c ->
  number (sub_once MOD c) /\ val (sub_once MOD c) = if val c <? val MOD then val c else val c - val MOD.
Proof.
  intros HM Hc. unfold sub_once. destruct (subM_spec MOD 0 c all_ones HM Hc ltac:(by right)) as [k Hs].
  destruct (subM MOD 0 c all_ones) as [c1 mask]. destruct Hs as (Hn1 & Hk & -> & Hv1).
  rewrite Z.add_0_l, (u32_small (u32 k)) by apply u32_range. change (masked all_ones (val MOD)) with (val MOD) in Hv1.
  assert (is_mask (u32 k)) as Hm by (assert (k = 0 \/ k = -1) as [-> | ->] by lia; [by left|by right]).
  unfold addM. destruct HM as [HMd HMl], Hn1 as [Hd1 Hl1].
  pose proof (addM_loop_spec MOD (u32 k) 0 c1 HMd Hd1 ltac:(congruence) Hm ltac:(lia)) as Ha.
  destruct (addM_loop MOD (u32 k) 0 c1) as [c2 k2]. destruct Ha as (Hd2 & Hl2 & Hk2 & Hv2). rewrite Hl1 in *.
  change (B ^ Z.of_nat 8) with (2 ^ 256) in Hv2. cbn [fst].
  pose proof (number_bound c Hc). pose proof (number_bound MOD (conj HMd HMl)).
  pose proof (number_bound c1 (conj Hd1 Hl1)). pose proof (number_bound c2 (conj Hd2 Hl2)).
  split; [done|]. unfold masked in Hv2.
  assert (k = 0 \/ k = -1) as [-> | ->] by lia; destruct (Z.ltb_spec (val c) (val MOD)); try lia.
  - change (u32 0 =? 0) with true in Hv2. cbv iota in Hv2. lia.
  - change (u32 (-1) =? 0) with false in Hv2. cbv iota in Hv2. lia.
Qed.

(** One digit of the reduction takes a multiple of the modulus away. *)
Lemma reduce_digits MOD c top : modulus MOD -> number c -> is_digit top ->
  let '(reducer, top_reducer) := mulAdd MOD top 0 (replicate P256_NDIGITS 0) in
  let '(c1, top1) := subTop top_reducer reducer top c in
  let '(c2, _) := subM MOD top1 c1 (all_ones - u32 (top1 - 1)) in
  number c1 /\ number c2 /\ exists q, val c2 = val c + 2 ^ 256 * top - q * val MOD.
Proof.
  intros [HM HMb] Hc Ht. assert (number (replicate P256_NDIGITS 0)) as Hz by (split; [apply digits_zeros|done]).
  pose proof (mulAdd_spec MOD top _ HM Hz Ht) as Hr. destruct (mulAdd MOD top 0 _) as [red tr]. destruct Hr as (Hred & Htr & Hvr).
  rewrite val_zeros in Hvr. unfold subTop. destruct Hred as [Hrd Hrl], Hc as [Hcd Hcl].
  pose proof (sub_loop_spec red all_ones 0 c Hrd Hcd ltac:(congruence) ltac:(by right) ltac:(lia)) as Hs.
  destruct (sub_loop red all_ones 0 c) as [c1 k]. destruct Hs as (Hd1 & Hl1 & Hk & Hv1). rewrite Hcl in *.
  change (B ^ Z.of_nat 8) with (2 ^ 256) in Hv1. change (masked all_ones (val red)) with (val red) in Hv1.
  assert (number c1) as Hn1 by done. pose proof (number_bound c1 Hn1) as Hb1. pose proof (number_bound c (conj Hcd Hcl)) as Hbc.
  pose proof (number_bound MOD HM) as HbM.
  assert (val c1 + 2 ^ 256 * (k + top - tr) = val c + top * (2 ^ 256 - val MOD)) as He by lia.
  assert (0 <= top * (2 ^ 256 - val MOD) <= (2 ^ 32 - 1) * 2 ^ 224) as Hp by (unfold B in Ht; nia).
  change (2 ^ 256) with (2 ^ 32 * 2 ^ 224) in *. assert (0 <= k + top - tr <= 1) as Ht1 by lia.
  unfold B in *. rewrite (s64_small (k + top)) by lia. rewrite s64_small by lia. rewrite u32_small by lia.
  set (t1 := k + top - tr) in *. clearbody t1. clear Hvr Hv1.
  assert (t1 = 0 \/ t1 = 1) as Ht1' by lia.
  assert (is_mask (all_ones - u32 (t1 - 1))) as Hm by (destruct Ht1' as [-> | ->]; [by left|by right]).
  destruct (subM_spec MOD t1 c1 _ HM Hn1 Hm) as [k2 Hs]. destruct (subM MOD t1 c1 _) as [c2 top2].
  destruct Hs as (Hn2 & Hk2 & _ & Hv2). pose proof (number_bound c2 Hn2) as Hb2. split; [done|]. split; [done|].
  change (2 ^ 256) with (2 ^ 32 * 2 ^ 224) in *. exists (top + t1). unfold masked in Hv2.
  destruct Ht1' as [-> | ->].
  - change (all_ones - u32 (0 - 1) =? 0) with true in Hv2. cbv iota in Hv2. assert (k2 = 0) as -> by lia. lia.
  - change (all_ones - u32 (1 - 1) =? 0) with false in Hv2. cbv iota in Hv2. assert (k2 = -1) as -> by lia. lia.
Qed.

(** ** Parts of an array *)

Lemma number_slice i tmp : digits tmp -> (i + 8 <= length tmp)%nat -> number (take P256_NDIGITS (drop i tmp)).
Proof.
  intros Hd Hl. split; [by apply Forall_take, Forall_drop|]. rewrite length_take, length_drop. unfold P256_NDIGITS. lia.
Qed.

Lemma at_offset_spec {A} i (f : list Z -> list Z * A) tmp :
  digits tmp -> (i + 8 <= length tmp)%nat ->
  let c := take P256_NDIGITS (drop i tmp) in
  number (f c).1 ->
  let '(tmp', r) := at_offset i f tmp in
  r = (f c).2 /\ digits tmp' /\ length tmp' = length tmp /\
  val (take (i + 8) tmp) = val (take i tmp) + B ^ Z.of_nat i * val c /\
  val (take (i + 8) tmp') = val (take i tmp) + B ^ Z.of_nat i * val (f c).1.
Proof.
  intros Hd Hl c [Hc Hcl]. unfold at_offset. fold c. destruct (f c) as [c' r]. cbn [fst snd] in *.
  split_and!; [done| | | |].
  - apply Forall_app. split; [by apply Forall_take|]. apply Forall_app. split; [done|by apply Forall_drop].
  - rewrite !length_app, length_take, length_drop, Hcl. unfold P256_NDIGITS. lia.
  - rewrite <- (take_drop i (take (i + 8) tmp)), val_app, take_take, Nat.min_l by lia.
    rewrite length_take, Nat.min_l by lia. f_equal. f_equal. f_equal. rewrite <- take_drop_commute. done.
  - rewrite (app_assoc (take i tmp)), take_app_length' by (rewrite length_app, length_take, Hcl; lia).
    rewrite val_app, length_take, Nat.min_l by lia. done.
Qed.

Lemma val_take_insert k top tmp : (k < length tmp)%nat ->
  val (take (S k) (<[k := top]> tmp)) = val (take k tmp) + B ^ Z.of_nat k * top.
Proof.
  intros Hk. rewrite (take_S_r _ _ top) by (by apply list_lookup_insert_eq). rewrite take_insert_ge by lia.
  rewrite val_app, length_take, Nat.min_l by lia. cbn [val]. lia.
Qed.

Lemma digits_insert k top tmp : digits tmp -> is_digit top -> digits (<[k := top]> tmp).
Proof. intros Hd Ht. by apply Forall_insert. Qed.

(** After [i] digits of the second factor, the product is in the array, with its
    highest digit apart. *)
Lemma modmul_mul_spec a b : forall i top tmp done_,
  number a -> digits b -> digits tmp -> length tmp = 17%nat -> is_digit top -> (i + length b <= 8)%nat ->
  (if decide (i = 0%nat) then done_ = 0 /\ val (take 8 tmp) = 0
   else val (take (i + 7) tmp) + B ^ Z.of_nat (i + 7) * top = val a * done_) ->
  b <> [] ->
  let '(tmp', top') := modmul_mul a b i top tmp in
  digits tmp' /\ length tmp' = 17%nat /\ is_digit top' /\
  val (take (i + length b + 7) tmp') + B ^ Z.of_nat (i + length b + 7) * top' = val a * (done_ + B ^ Z.of_nat i * val b).
Proof.
  induction b as [|b0 b IH]; intros i top tmp d Ha Hb Htmp Hlen Htop Hi Hinv Hne; [done|]. cbn [modmul_mul].
  apply Forall_cons in Hb as [Hb0 Hb]. cbn [length] in Hi. set (tmp1 := if decide (i = 0%nat) then tmp else _).
  assert (digits tmp1 /\ length tmp1 = 17%nat /\ val (take (i + 8) tmp1) = val a * d) as (Hd1 & Hl1 & Hv1).
  { unfold tmp1. destruct (decide (i = 0%nat)) as [-> |Hi0].
    - destruct Hinv as [-> Hz]. split_and!; [done|done|]. cbn [Nat.add]. lia.
    - split_and!; [by apply digits_insert|by rewrite length_insert|]. replace (i + 8)%nat with (S (i + 7)) by lia.
      rewrite val_take_insert by lia. done. }
  pose proof (number_slice i tmp1 Hd1 ltac:(lia)) as Hc. pose proof (mulAdd_spec a b0 _ Ha Hc Hb0) as Hma.
  pose proof (at_offset_spec i (mulAdd a b0 0) tmp1 Hd1 ltac:(lia)) as Hat. cbv zeta in Hat.
  destruct (mulAdd a b0 0 (take P256_NDIGITS (drop i tmp1))) as [c' k]. destruct Hma as (Hc' & Hk & Hvk). specialize (Hat Hc').
  destruct (at_offset i (mulAdd a b0 0) tmp1) as [tmp2 top2]. cbn [fst snd] in Hat. destruct Hat as (-> & Hd2 & Hl2 & Hv2 & Hv2').
  assert (val (take (i + 8) tmp2) + B ^ Z.of_nat (i + 8) * k = val a * (d + B ^ Z.of_nat i * b0)) as Hnew.
  { rewrite Hv2'. rewrite Hv1 in Hv2. rewrite Nat2Z.inj_add, Z.pow_add_r by lia. change (B ^ Z.of_nat 8) with (2 ^ 256).
    remember (B ^ Z.of_nat i) as P. nia. }
  destruct b as [|b1 b].
  { cbn [modmul_mul length]. rewrite Nat.add_1_r. replace (S i + 7)%nat with (i + 8)%nat by lia.
    split_and!; [done|lia|apply Hk|apply Hk|]. cbn [val]. rewrite Hnew. f_equal. lia. }
  specialize (IH (S i) k tmp2 (d + B ^ Z.of_nat i * b0) Ha Hb Hd2 ltac:(lia) Hk ltac:(cbn [length] in *; lia)).
  rewrite decide_False in IH by lia. replace (S i + 7)%nat with (i + 8)%nat in IH by lia. specialize (IH Hnew ltac:(done)).
  destruct (modmul_mul a (b1 :: b) (S i) k tmp2) as [tmp' top']. destruct IH as (Hd' & Hl' & Ht' & Hv').
  split_and!; [done|done|apply Ht'|apply Ht'|]. cbn [length] in *.
  replace (i + S (S (length b)) + 7)%nat with (S i + S (length b) + 7)%nat by lia. rewrite Hv'.
  cbn [val]. rewrite Nat2Z.inj_succ, Z.pow_succ_r by lia. ring.
Qed.

(** Each step of the reduction leaves a number of one digit less, congruent to
    the one before. *)
Lemma modmul_reduce_step_spec MOD i top tmp :
  modulus MOD -> digits tmp -> (i + 8 <= length tmp)%nat -> is_digit top ->
  let '(tmp', top') := modmul_reduce_step MOD i top tmp in
  digits tmp' /\ length tmp' = length tmp /\ is_digit top' /\
  val (take (i + 8) tmp') = val (take (i + 7) tmp') + B ^ Z.of_nat (i + 7) * top' /\
  exists q, val (take (i + 8) tmp') = val (take (i + 8) tmp) + B ^ Z.of_nat (i + 8) * top - q * val MOD.
Proof.
  intros HM Hd Hl Ht. unfold modmul_reduce_step. pose proof (reduce_digits MOD _ top HM (number_slice i tmp Hd Hl) Ht) as Hr.
  destruct (mulAdd MOD top 0 (replicate P256_NDIGITS 0)) as [red tr].
  pose proof (at_offset_spec i (subTop tr red top) tmp Hd Hl) as H1. cbv zeta in H1.
  destruct (subTop tr red top (take P256_NDIGITS (drop i tmp))) as [c1 t1] eqn:E1. set (mask := all_ones - u32 (t1 - 1)) in Hr.
  destruct (subM MOD t1 c1 mask) as [c2 t2] eqn:E2. destruct Hr as (Hn1 & Hn2 & q & Hq). specialize (H1 Hn1).
  unfold at_offset in H1 |- *. rewrite E1 in *. cbn [fst snd] in *.
  set (tmp1 := take i tmp ++ c1 ++ drop (i + P256_NDIGITS) tmp) in *. destruct H1 as (_ & Hd1 & Hl1 & Hv1 & _).
  assert (take i tmp1 = take i tmp) as Hti.
  { unfold tmp1. rewrite take_app_le by (rewrite length_take; lia). rewrite take_take. f_equal. lia. }
  assert (take P256_NDIGITS (drop i tmp1) = c1) as Hsl.
  { unfold tmp1. rewrite drop_app_length' by (rewrite length_take; lia). apply take_app_length'. symmetry. apply Hn1. }
  pose proof (at_offset_spec i (fun c => subM MOD t1 c mask) tmp1 Hd1 ltac:(lia)) as H2. cbv zeta in H2. rewrite Hsl, E2 in H2.
  specialize (H2 Hn2). fold mask. unfold at_offset in H2. rewrite Hsl, E2 in H2 |- *. cbn [fst snd] in H2.
  set (tmp2 := take i tmp1 ++ c2 ++ drop (i + P256_NDIGITS) tmp1) in *. destruct H2 as (_ & Hd2 & Hl2 & _ & Hv2).
  assert ((i + 7 < length tmp2)%nat) as Hlt by lia. destruct (lookup_lt_is_Some_2 tmp2 (i + 7) Hlt) as [x Hx].
  assert (P256_DIGIT tmp2 (i + 7) = x) as Hdx by (unfold P256_DIGIT; by apply nth_lookup_Some).
  split_and!; [done|lia|rewrite Hdx; exact (proj1 (Forall_lookup_1 _ _ _ _ Hd2 Hx))|rewrite Hdx; exact (proj2 (Forall_lookup_1 _ _ _ _ Hd2 Hx))| |].
  - replace (i + 8)%nat with (S (i + 7)) by lia. rewrite (take_S_r _ _ x Hx), val_app, length_take, Nat.min_l, Hdx by lia.
    cbn [val]. lia.
  - exists (B ^ Z.of_nat i * q). rewrite Hv2, Hti, Hv1, Hq, Nat2Z.inj_add, Z.pow_add_r by lia.
    change (B ^ Z.of_nat 8) with (2 ^ 256). ring.
Qed.

Lemma modmul_reduce_spec MOD n : forall top tmp,
  modulus MOD -> digits tmp -> (n + 7 <= length tmp)%nat -> is_digit top -> (0 < n)%nat ->
  let tmp' := modmul_reduce MOD n top tmp in
  number (take 8 tmp') /\
  exists q, val (take 8 tmp') = val (take (n + 7) tmp) + B ^ Z.of_nat (n + 7) * top - q * val MOD.
Proof.
  induction n as [|i IH]; intros top tmp HM Hd Hl Ht Hn; [lia|]. cbv zeta. cbn [modmul_reduce].
  pose proof (modmul_reduce_step_spec MOD i top tmp HM Hd ltac:(lia) Ht) as Hs.
  destruct (modmul_reduce_step MOD i top tmp) as [tmp1 top1]. destruct Hs as (Hd1 & Hl1 & Ht1 & Hsplit & q & Hq).
  replace (S i + 7)%nat with (i + 8)%nat by lia. destruct i as [|i].
  - cbn [modmul_reduce]. split; [|by exists q]. exact (number_slice 0 tmp1 Hd1 ltac:(lia)).
  - destruct (IH top1 tmp1 HM Hd1 ltac:(lia) Ht1 ltac:(lia)) as [Hn' (q' & Hq')]. split; [done|]. exists (q + q').
    rewrite Hq', <- Hsplit. replace (S i + 8)%nat with (S i + 8)%nat in Hq by lia. lia.
Qed.

(** The product modulo [MOD], exactly. *)
Lemma p256_modmul_spec MOD a top_b b :
  modulus MOD -> number a -> number b -> is_digit top_b ->
  number (p256_modmul MOD a top_b b) /\
  val (p256_modmul MOD a top_b b) = (val a * (val b + 2 ^ 256 * top_b)) mod val MOD.
Proof.
  intros HM Ha [Hb Hlb] Ht. unfold p256_modmul.
  pose proof (modmul_mul_spec a b 0 0 (replicate 17 0) 0 Ha Hb (digits_zeros 17) eq_refl ltac:(by vm_compute) ltac:(lia)) as Hm.
  rewrite decide_True in Hm by done. specialize (Hm ltac:(by vm_compute) ltac:(by intros ->)).
  destruct (modmul_mul a b 0 0 _) as [tmp top]. rewrite Hlb in Hm. destruct Hm as (Hd & Hl & Htop & Hv). cbn [Nat.add] in Hv.
  set (tmp1 := <[15%nat := top]> tmp). assert (digits tmp1) as Hd1 by (by apply digits_insert).
  assert (length tmp1 = 17%nat) as Hl1 by (unfold tmp1; by rewrite length_insert).
  assert (val (take 16 tmp1) = val a * val b) as Hv1.
  { unfold tmp1. rewrite val_take_insert by lia. rewrite Hv. change (B ^ Z.of_nat 0) with 1. lia. }
  pose proof (mulAdd_spec a top_b _ Ha (number_slice 8 tmp1 Hd1 ltac:(lia)) Ht) as Hma.
  pose proof (at_offset_spec 8 (mulAdd a top_b 0) tmp1 Hd1 ltac:(lia)) as Hat. cbv zeta in Hat.
  destruct (mulAdd a top_b 0 (take P256_NDIGITS (drop 8 tmp1))) as [c k]. destruct Hma as (Hc & Hk & Hvk). specialize (Hat Hc).
  destruct (at_offset 8 (mulAdd a top_b 0) tmp1) as [tmp2 top2]. cbn [fst snd] in Hat. destruct Hat as (-> & Hd2 & Hl2 & Hs & Hs').
  cbn [Nat.add] in *. rewrite Hv1 in Hs. change (B ^ Z.of_nat 8) with (2 ^ 256) in *.
  destruct (modmul_reduce_spec MOD 9 k tmp2 HM Hd2 ltac:(lia) Hk ltac:(lia)) as [Hn (q & Hq)]. cbn [Nat.add] in Hq.
  set (r := take 8 (modmul_reduce MOD 9 k tmp2)) in *. destruct (sub_once_spec MOD r (proj1 HM) Hn) as [Hnr Hvr].
  split; [exact Hnr|]. change (take P256_NDIGITS (modmul_reduce MOD 9 k tmp2)) with r. rewrite Hvr.
  assert (val r = val a * (val b + 2 ^ 256 * top_b) - q * val MOD) as Hr.
  { rewrite Hq, Hs'. change (B ^ Z.of_nat 16) with (2 ^ 256 * 2 ^ 256). nia. }
  pose proof (number_bound r Hn). destruct HM as [HMn HMb]. pose proof (number_bound MOD HMn).
  destruct (Z.ltb_spec (val r) (val MOD)).
  - apply (Z.mod_unique_pos _ _ q); lia.
  - apply (Z.mod_unique_pos _ _ (q + 1)); lia.
Qed.

(** ** Inverses *)

Lemma halve_mod_spec MOD r : number MOD -> Z.odd (val MOD) = true -> number r -> val r < val MOD ->
  number (halve_mod MOD r) /\ 0 <= val (halve_mod MOD r) < val MOD /\
  exists k, 2 * val (halve_mod MOD r) = val r + k * val MOD.
Proof.
  intros HM Ho Hr Hlt. unfold halve_mod. rewrite p256_is_even_spec by apply Hr.
  pose proof (number_bound r Hr). pose proof (number_bound MOD HM). destruct (Z.even (val r)) eqn:He.
  - destruct (p256_shr1_spec r 0 Hr ltac:(lia)) as [Hn Hv]. rewrite Z.mul_0_r, Z.add_0_r in Hv.
    apply Z.even_spec in He as [h Hh]. rewrite Hh, Z.mul_comm, Z.div_mul in Hv by lia. split; [done|]. split; [lia|]. exists 0. lia.
  - pose proof (p256_add_spec r MOD Hr HM) as Ha. destruct (p256_add r MOD) as [carry c]. destruct Ha as (Hc & Hvc & Hcarry).
    assert (0 <= carry <= 1) as Hb by (rewrite Hcarry; destruct (_ <? _); lia).
    destruct (p256_shr1_spec c carry Hc Hb) as [Hn Hv]. rewrite Hvc in Hv.
    replace (val r + val MOD - 2 ^ 256 * carry + 2 ^ 256 * carry) with (val r + val MOD) in Hv by lia.
    assert (Z.odd (val r) = true) as Hor by (by rewrite <- Z.negb_even, He).
    apply Z.odd_spec in Hor as [x Hx], Ho as [y Hy].
    assert (val r + val MOD = (x + y + 1) * 2) as Hs by lia. rewrite Hs, Z.div_mul in Hv by lia.
    split; [done|]. split; [lia|]. exists 1. lia.
Qed.

Lemma sub_mod_spec MOD s r : number MOD -> number s -> number r -> val r <= val MOD ->
  number (sub_mod MOD s r) /\
  val (sub_mod MOD s r) = if val s <? val r then val s - val r + val MOD else val s - val r.
Proof.
  intros HM Hs Hr Hlr. unfold sub_mod. pose proof (p256_sub_spec s r Hs Hr) as Hsub. destruct (p256_sub s r) as [borrow c].
  destruct Hsub as (Hc & Hvc & ->). pose proof (number_bound r Hr). pose proof (number_bound s Hs). pose proof (number_bound MOD HM).
  destruct (Z.ltb_spec (val s) (val r)).
  - change (-1 =? 0) with false. cbv iota. pose proof (p256_add_spec c MOD Hc HM) as Hadd. destruct (p256_add c MOD) as [carry d].
    destruct Hadd as (Hd & Hvd & Hcarry). cbn [snd]. split; [done|]. destruct (Z.ltb_spec (val c + val MOD) (2 ^ 256)); lia.
  - change (0 =? 0) with true. cbv iota. split; [done|lia].
Qed.

(** The number of steps that are left. *)
Definition size (x : Z) : Z := Z.log2 x + 1.
Definition steps_left (u v : Z) : Z := 2 * (size u + size v) + (if Z.odd u && Z.odd v then 1 else 0).

Lemma size_half x : 0 < x -> size (2 * x) = size x + 1.
Proof. intros Hx. unfold size. rewrite Z.log2_double by lia. lia. Qed.

Lemma size_mono x y : 0 < x <= y -> size x <= size y.
Proof. intros Hxy. unfold size. pose proof (Z.log2_le_mono x y). lia. Qed.

Lemma size_pos x : 0 < x -> 1 <= size x.
Proof. intros Hx. unfold size. pose proof (Z.log2_nonneg x). lia. Qed.

(** Halving keeps a congruence of the odd modulus. *)
Lemma halve_congruence M a r r' k u : Z.odd M = true -> 2 * r' = r + k * M -> (M | r * a - 2 * u) -> (M | r' * a - u).
Proof.
  intros Ho Hr Hd. apply (Z.gauss M 2).
  - replace (2 * (r' * a - u)) with (r * a - 2 * u + (k * a) * M) by nia. apply Z.divide_add_r; [done|]. apply Z.divide_factor_r.
  - apply Z.odd_spec in Ho as [x ->]. replace (2 * x + 1) with (1 + x * 2) by lia. rewrite Z.gcd_comm, Z.gcd_add_mult_diag_r. apply Z.gcd_1_r.
Qed.

Lemma gcd_half_l u v : Z.odd v = true -> Z.gcd (2 * u) v = Z.gcd u v.
Proof.
  intros Ho. apply Z.divide_antisym_nonneg; [apply Z.gcd_nonneg|apply Z.gcd_nonneg|..].
  - apply Z.gcd_greatest; [|apply Z.gcd_divide_r]. apply (Z.gauss _ 2); [apply Z.gcd_divide_l|].
    apply Z.odd_spec in Ho as [k Hk]. destruct (Z.gcd_divide_r (2 * u) v) as [q Hq]. rewrite Hk in *.
    apply Z.bezout_1_gcd. exists q, (- k). lia.
  - apply Z.gcd_greatest; [apply Z.divide_mul_r, Z.gcd_divide_l|apply Z.gcd_divide_r].
Qed.

Lemma gcd_sub u v : Z.gcd u (v - u) = Z.gcd u v.
Proof. replace (v - u) with (v + (-1) * u) by lia. apply Z.gcd_add_mult_diag_r. Qed.

(** Half of an even number. *)
Lemma shr1_even u : number u -> Z.odd (val u) = false -> 0 < val u ->
  number (p256_shr1 u 0) /\ val u = 2 * val (p256_shr1 u 0) /\ 0 < val (p256_shr1 u 0).
Proof.
  intros Hu Ho Hpos. destruct (p256_shr1_spec u 0 Hu ltac:(lia)) as [Hn Hv]. rewrite Z.mul_0_r, Z.add_0_r in Hv.
  assert (Z.even (val u) = true) as He by (by rewrite <- Z.negb_odd, Ho). apply Z.even_spec in He as [h Hh].
  rewrite Hh, Z.mul_comm, Z.div_mul in Hv by lia. split; [done|]. lia.
Qed.

Lemma odd_sub u v : Z.odd u = true -> Z.odd v = true -> Z.odd (v - u) = false.
Proof. intros Hu Hv. by rewrite Z.odd_sub, Hu, Hv. Qed.

(** The difference of two coefficients belongs to the difference of the numbers. *)
Lemma sub_congruence MOD a s r u v : number MOD -> number s -> number r -> val s < val MOD -> val r < val MOD ->
  (val MOD | val r * a - u) -> (val MOD | val s * a - v) ->
  number (sub_mod MOD s r) /\ val (sub_mod MOD s r) < val MOD /\ (val MOD | val (sub_mod MOD s r) * a - (v - u)).
Proof.
  intros HM Hs Hr Hls Hlr [x Hx] [y Hy]. destruct (sub_mod_spec MOD s r HM Hs Hr ltac:(lia)) as [Hn Hv].
  pose proof (number_bound r Hr). split; [done|]. rewrite Hv. destruct (Z.ltb_spec (val s) (val r)).
  - split; [lia|]. exists (y - x + a). nia.
  - split; [lia|]. exists (y - x). nia.
Qed.

Lemma modinv_loop_spec MOD a g fuel : forall r s u v,
  number MOD -> Z.odd (val MOD) = true -> Z.odd g = true ->
  number r -> number s -> number u -> number v ->
  val r < val MOD -> val s < val MOD -> 0 < val u -> 0 < val v ->
  (val MOD | val r * a - val u) -> (val MOD | val s * a - val v) -> Z.gcd (val u) (val v) = g ->
  steps_left (val u) (val v) <= Z.of_nat fuel ->
  exists b, modinv_loop MOD fuel r s u v = Some b /\ number b /\ val b < val MOD /\ (val MOD | val b * a - g).
Proof.
  induction fuel as [|fuel IH]; intros r s u v HM Ho Hog Hr Hs Hu Hv Hlr Hls Hu0 Hv0 Hdr Hds Hg Hf.
  { pose proof (size_pos _ Hu0). pose proof (size_pos _ Hv0). unfold steps_left in Hf. destruct (_ && _); lia. }
  cbn [modinv_loop]. unfold steps_left in Hf. rewrite !p256_is_even_spec by (apply Hu || apply Hv).
  rewrite <- !Z.negb_odd. destruct (Z.odd (val u)) eqn:Hou; cbn [negb]; [destruct (Z.odd (val v)) eqn:Hov; cbn [negb]|].
  - pose proof (p256_sub_spec v u Hv Hu) as Hsub. destruct (p256_sub v u) as [borrow d]. destruct Hsub as (Hd & Hvd & ->).
    destruct (Z.ltb_spec (val v) (val u)) as [Hlt|Hge]; cbv iota.
    + change (-1 =? 0) with false. cbv iota. destruct (sub_congruence MOD a r s (val v) (val u) HM Hr Hs Hlr Hls Hds Hdr) as (Hn & Hl & Hc).
      pose proof (p256_sub_spec u v Hu Hv) as Hsub. destruct (p256_sub u v) as [borrow e]. destruct Hsub as (He & Hve & ->). cbn [snd].
      rewrite (proj2 (Z.ltb_ge _ _)) in Hve by lia. rewrite Z.mul_0_r, Z.sub_0_r in Hve.
      apply IH; rewrite ?Hve; try done; try lia; [by rewrite Z.gcd_comm, gcd_sub, Z.gcd_comm|].
      unfold steps_left. rewrite (odd_sub _ _ Hov Hou). pose proof (size_mono (val u - val v) (val u)). cbn [andb] in *. lia.
    + change (0 =? 0) with true. cbv iota. rewrite Z.mul_0_r, Z.sub_0_r in Hvd. rewrite p256_is_zero_spec by apply Hd.
      destruct (Z.eqb_spec (val d) 0) as [Hz|Hz].
      * assert (val u = val v) as Heq by lia. rewrite <- Heq, Z.gcd_diag, Z.abs_eq in Hg by lia. subst g.
        destruct (sub_once_spec MOD r HM Hr) as [Hn Hvr]. rewrite (proj2 (Z.ltb_lt _ _) Hlr) in Hvr.
        exists (p256_mod MOD r). unfold p256_mod. by rewrite Hvr.
      * destruct (sub_congruence MOD a s r (val u) (val v) HM Hs Hr Hls Hlr Hdr Hds) as (Hn & Hl & Hc).
        pose proof (number_bound d Hd). apply IH; rewrite ?Hvd; try done; try lia; [by rewrite gcd_sub|].
        unfold steps_left. rewrite (odd_sub _ _ Hou Hov), andb_false_r. pose proof (size_mono (val v - val u) (val v)). cbn [andb] in *. lia.
  - destruct (shr1_even v Hv Hov Hv0) as (Hn & Hh & Hpos). destruct (halve_mod_spec MOD s HM Ho Hs Hls) as (Hns & Hls' & k & Hk).
    rewrite Hh in Hds, Hg, Hf. rewrite size_half in Hf by done. apply IH; try done; try lia.
    + by apply (halve_congruence _ _ _ _ _ _ Ho Hk).
    + rewrite Z.gcd_comm, <- gcd_half_l by done. by rewrite Z.gcd_comm.
    + unfold steps_left. rewrite andb_false_r in Hf. destruct (_ && _); lia.
  - destruct (shr1_even u Hu Hou Hu0) as (Hn & Hh & Hpos). destruct (halve_mod_spec MOD r HM Ho Hr Hlr) as (Hnr & Hlr' & k & Hk).
    assert (Z.odd (val v) = true) as Hov.
    { destruct (Z.odd (val v)) eqn:E; [done|]. destruct (shr1_even v Hv E Hv0) as (_ & Hh2 & _).
      assert (2 | Z.gcd (val u) (val v)) as H2 by (apply Z.gcd_greatest; [rewrite Hh|rewrite Hh2]; apply Z.divide_factor_l).
      rewrite Hg in H2. destruct H2 as [h ->]. by rewrite Z.odd_mul, andb_false_r in Hog. }
    rewrite Hh in Hdr, Hg, Hf. rewrite size_half in Hf by done. apply IH; try done; try lia.
    + by apply (halve_congruence _ _ _ _ _ _ Ho Hk).
    + by rewrite <- gcd_half_l.
    + unfold steps_left. cbn [andb] in Hf. destruct (_ && _); lia.
Qed.

Lemma size_256 x : 0 < x < 2 ^ 256 -> size x <= 256.
Proof. intros Hx. unfold size. pose proof (proj1 (Z.log2_lt_pow2 x 256 ltac:(lia))). lia. Qed.

Lemma gcd_odd m a : Z.odd m = true -> Z.odd (Z.gcd m a) = true.
Proof.
  intros Ho. destruct (Z.gcd_divide_l m a) as [q Hq]. rewrite Hq, Z.odd_mul in Ho. by apply andb_prop in Ho as [_ ?].
Qed.

(** The binary algorithm ends within its fuel on every number but zero, and finds
    the coefficient of the greatest common divisor. *)
Lemma modinv_spec MOD a :
  modulus MOD -> Z.odd (val MOD) = true -> number a -> val a <> 0 ->
  exists b, p256_modinv_vartime MOD a = Some b /\ number b /\ val b < val MOD /\
    (val a * val b) mod val MOD = Z.gcd (val MOD) (val a) mod val MOD.
Proof.
  intros [HM Hb] Ho Ha Hz. pose proof (number_bound MOD HM). pose proof (number_bound a Ha).
  destruct (modinv_loop_spec MOD (val a) (Z.gcd (val MOD) (val a)) modinv_fuel P256_ZERO P256_ONE MOD a)
    as (b & He & Hn & Hl & [q Hq]); try done.
  - by apply gcd_odd.
  - by apply (bool_decide_unpack _).
  - by apply (bool_decide_unpack _).
  - change (val P256_ZERO) with 0. lia.
  - change (val P256_ONE) with 1. lia.
  - lia.
  - lia.
  - change (val P256_ZERO) with 0. exists (-1). lia.
  - change (val P256_ONE) with 1. exists 0. lia.
  - unfold steps_left. pose proof (size_256 (val MOD)). pose proof (size_256 (val a)). unfold modinv_fuel. destruct (_ && _); lia.
  - exists b. split_and!; [done|done|done|]. rewrite Z.mul_comm. replace (val b * val a) with (Z.gcd (val MOD) (val a) + q * val MOD) by lia.
    apply Z.mod_add. lia.
Qed.

(** ** The curve *)

Lemma SECP256r1_p_modulus : modulus SECP256r1_p.
Proof. split; [by apply (bool_decide_unpack _)|]. by apply Z.leb_le; vm_compute. Qed.
Lemma SECP256r1_n_modulus : modulus SECP256r1_n.
Proof. split; [by apply (bool_decide_unpack _)|]. by apply Z.leb_le; vm_compute. Qed.

(** [x3 - x], [x3] having been reduced. *)
Lemma sub_mod_mod MOD s x : number MOD -> number s -> number x -> val s < val MOD -> val x < val MOD ->
  number (sub_mod MOD s x) /\ val (sub_mod MOD s x) = (val s - val x) mod val MOD.
Proof.
  intros HM Hs Hx Hls Hlx. destruct (sub_mod_spec MOD s x HM Hs Hx ltac:(lia)) as [Hn Hv]. split; [done|].
  pose proof (number_bound s Hs). pose proof (number_bound x Hx). rewrite Hv. destruct (Z.ltb_spec (val s) (val x)).
  - apply (Z.mod_unique_pos _ _ (-1)); lia.
  - symmetry. apply Z.mod_small. lia.
Qed.

(** The sum with one of two reduced numbers, reduced. *)
Lemma add_mod_mod MOD s x : modulus MOD -> number s -> number x -> val s < val MOD -> val x < val MOD ->
  let '(carry, c) := p256_add s x in
  let c := if carry =? 0 then c else (p256_sub c MOD).2 in
  number (sub_mod MOD c MOD) /\ val (sub_mod MOD c MOD) = (val s + val x) mod val MOD.
Proof.
  intros [HM HbM] Hs Hx Hls Hlx. pose proof (number_bound s Hs). pose proof (number_bound x Hx). pose proof (number_bound MOD HM).
  pose proof (p256_add_spec s x Hs Hx) as Ha. destruct (p256_add s x) as [carry c]. destruct Ha as (Hc & Hvc & ->).
  destruct (Z.ltb_spec (val s + val x) (2 ^ 256)); cbv zeta.
  - change (0 =? 0) with true. cbv iota. destruct (sub_mod_spec MOD c MOD HM Hc HM ltac:(lia)) as [Hn Hv]. split; [done|].
    rewrite Hv. destruct (Z.ltb_spec (val c) (val MOD)).
    + symmetry. rewrite Z.mod_small; lia.
    + apply (Z.mod_unique_pos _ _ 1); lia.
  - change (1 =? 0) with false. cbv iota. pose proof (p256_sub_spec c MOD Hc HM) as Hb. destruct (p256_sub c MOD) as [borrow d].
    destruct Hb as (Hd & Hvd & ->). cbn [snd]. destruct (sub_mod_spec MOD d MOD HM Hd HM ltac:(lia)) as [Hn Hv]. split; [done|].
    rewrite Hv. destruct (Z.ltb_spec (val c) (val MOD)); [|lia]. destruct (Z.ltb_spec (val d) (val MOD)); [|lia].
    apply (Z.mod_unique_pos _ _ 1); lia.
Qed.

(** The right-hand side of the equation of the curve. *)
Definition curve_rhs (x : Z) : Z := x * x * x - 3 * x + val SECP256r1_b.

(** The points of the curve: both coordinates are non-zero residues and they
    satisfy the equation y^2 = x^3 - 3x + b modulo p. *)
Definition on_curve (x y : Z) : Prop :=
  0 < x < val SECP256r1_p /\ 0 < y < val SECP256r1_p /\ (y * y) mod val SECP256r1_p = curve_rhs x mod val SECP256r1_p.

Lemma mod_sub_l a b m : (a mod m - b) mod m = (a - b) mod m.
Proof. rewrite <- (Zminus_mod_idemp_l a). done. Qed.

(** The cube of [x] less three times [x], as the code computes it. *)
Lemma valid_point_cubic x : number x -> val x < val SECP256r1_p ->
  let x3 := p256_modmul SECP256r1_p x 0 (p256_modmul SECP256r1_p x 0 x) in
  let x3 := sub_mod SECP256r1_p (sub_mod SECP256r1_p (sub_mod SECP256r1_p x3 x) x) x in
  number x3 /\ val x3 = (val x * val x * val x - 3 * val x) mod val SECP256r1_p.
Proof.
  pose proof SECP256r1_p_modulus as HP. pose proof (proj1 HP) as Hp. remember SECP256r1_p as P eqn:HeP. clear HeP. intros Hx Hlx.
  assert (0 < val P) as HP0 by (pose proof (number_bound x Hx); lia). assert (is_digit 0) as H0 by done.
  destruct (p256_modmul_spec P x 0 x HP Hx Hx H0) as [Hn2 Hv2].
  destruct (p256_modmul_spec P x 0 (p256_modmul P x 0 x) HP Hx Hn2 H0) as [Hn3 Hv3]. cbv zeta.
  remember (p256_modmul P x 0 (p256_modmul P x 0 x)) as c eqn:Hc. clear Hc.
  rewrite Hv2, !Z.mul_0_r, !Z.add_0_r, Z.mul_mod_idemp_r in Hv3 by lia.
  assert (forall z, z mod val P < val P) as Hlt by (intros; apply Z.mod_pos_bound; lia).
  destruct (sub_mod_mod P c x Hp Hn3 Hx ltac:(rewrite Hv3; auto) Hlx) as [Hn4 Hv4].
  destruct (sub_mod_mod P _ x Hp Hn4 Hx ltac:(rewrite Hv4; auto) Hlx) as [Hn5 Hv5].
  destruct (sub_mod_mod P _ x Hp Hn5 Hx ltac:(rewrite Hv5; auto) Hlx) as [Hn6 Hv6].
  rewrite Hv3, mod_sub_l in Hv4. rewrite Hv4, mod_sub_l in Hv5. rewrite Hv5, mod_sub_l in Hv6.
  split; [done|]. rewrite Hv6. apply (f_equal (fun z => z mod val P)). lia.
Qed.

(** The check of a public key is exactly the membership in the curve, with neither
    coordinate zero. *)
Lemma key_check x y : number x -> number y ->
  p256_is_valid_point x y = true <-> on_curve (val x) (val y).
Proof.
  intros Hx Hy. pose proof (number_bound x Hx). pose proof (number_bound y Hy). pose proof SECP256r1_p_modulus as HP.
  unfold p256_is_valid_point, on_curve. rewrite !p256_cmp_spec, !p256_is_zero_spec by (done || apply HP || apply Hx || apply Hy).
  destruct (Z.ltb_spec (val SECP256r1_p) (val x)); [split; [done|lia]|].
  destruct (Z.eqb_spec (val SECP256r1_p) (val x)); [split; [done|lia]|].
  destruct (Z.ltb_spec (val SECP256r1_p) (val y)); [split; [done|lia]|].
  destruct (Z.eqb_spec (val SECP256r1_p) (val y)); [split; [done|lia]|].
  destruct (Z.eqb_spec (val x) 0); [split; [done|lia]|]. destruct (Z.eqb_spec (val y) 0); [split; [done|lia]|].
  change (1 <=? 0) with false. cbn [orb]. cbv zeta.
  destruct (valid_point_cubic x Hx ltac:(lia)) as [Hn3 Hv3]. cbv zeta in Hn3, Hv3.
  destruct (p256_modmul_spec SECP256r1_p y 0 y HP Hy Hy ltac:(done)) as [Hn2 Hv2].
  assert (number SECP256r1_b) as Hb by (by apply (bool_decide_unpack _)).
  pose proof (Z.mod_pos_bound (val x * val x * val x - 3 * val x) (val SECP256r1_p) ltac:(lia)).
  pose proof (add_mod_mod SECP256r1_p _ SECP256r1_b HP Hn3 Hb ltac:(lia) ltac:(by apply Z.ltb_lt; vm_compute)) as Ha.
  destruct (p256_add _ SECP256r1_b) as [carry c]. destruct Ha as [Hn4 Hv4].
  rewrite p256_cmp_spec by done. rewrite Hv2, Hv4, Hv3, Z.mul_0_r, Z.add_0_r, Z.add_mod_idemp_l by lia.
  unfold curve_rhs. destruct (Z.ltb_spec ((val y * val y) mod val SECP256r1_p) ((val x * val x * val x - 3 * val x + val SECP256r1_b) mod val SECP256r1_p)); [split; [done|lia]|].
  destruct (Z.eqb_spec ((val y * val y) mod val SECP256r1_p) ((val x * val x * val x - 3 * val x + val SECP256r1_b) mod val SECP256r1_p)); (split; [try done|lia]); lia.
Qed.

(** Two numbers with the same value are the same. *)
Lemma val_inj a : forall b, digits a -> digits b -> length a = length b -> val a = val b -> a = b.
Proof.
  induction a as [|x a IH]; intros [|y b] Ha Hb Hl Hv; try done. apply Forall_cons in Ha as [Hx Ha], Hb as [Hy Hb].
  cbn [val] in Hv. unfold B in *. injection Hl as Hl. assert (x = y /\ val a = val b) as [-> Hv'] by lia. f_equal. by apply IH.
Qed.
Lemma number_inj a b : number a -> number b -> val a = val b -> a = b.
Proof. intros [Ha Hla] [Hb Hlb]. apply val_inj; [done|done|congruence]. Qed.

(** ** Bytes *)

Notation is_byte b := (0 <= b < 256).

(** The number that bytes stand for, the most significant first. *)
Definition big_endian (l : list Z) : Z := foldl (fun v b => 256 * v + b) 0 l.

Lemma big_endian_acc l : forall v, foldl (fun v b => 256 * v + b) v l = 256 ^ Z.of_nat (length l) * v + big_endian l.
Proof.
  unfold big_endian. induction l as [|b l IH]; intros v; [cbn; lia|]. cbn [foldl length]. rewrite IH, (IH (256 * 0 + b)).
  rewrite Nat2Z.inj_succ, Z.pow_succ_r by lia. lia.
Qed.

Lemma big_endian_app l k : big_endian (l ++ k) = 256 ^ Z.of_nat (length k) * big_endian l + big_endian k.
Proof. unfold big_endian at 1. rewrite foldl_app. apply big_endian_acc. Qed.

Lemma digit_bytes p0 p1 p2 p3 : is_byte p0 -> is_byte p1 -> is_byte p2 -> is_byte p3 ->
  u32 (Z.lor (Z.lor (Z.lor (Z.shiftl p0 24) (Z.shiftl p1 16)) (Z.shiftl p2 8)) p3) = big_endian [p0; p1; p2; p3].
Proof.
  intros. replace (Z.shiftl p0 24) with (Z.shiftl (Z.shiftl (Z.shiftl p0 8) 8) 8) by (by rewrite !Z.shiftl_shiftl).
  replace (Z.shiftl p1 16) with (Z.shiftl (Z.shiftl p1 8) 8) by (by rewrite !Z.shiftl_shiftl).
  rewrite <- !Z.shiftl_lor, !lor_shiftl_add, u32_small by lia. unfold big_endian. cbn [foldl]. lia.
Qed.

Lemma digit_to_bytes_spec d : is_digit d -> Forall (fun b => is_byte b) (digit_to_bytes d) /\ big_endian (digit_to_bytes d) = d.
Proof.
  intros Hd. unfold digit_to_bytes, big_endian. rewrite !Z.shiftr_div_pow2 by lia. cbn [foldl]. split.
  - repeat constructor; try (apply Z.mod_pos_bound; lia). 
  - unfold B in Hd. change (2 ^ 32) with 4294967296 in Hd. change (2 ^ 24) with 16777216. change (2 ^ 16) with 65536. change (2 ^ 8) with 256. Z.div_mod_to_equations. lia.
Qed.

(** The bytes of a number are read digit by digit. *)
Lemma bin_digits_spec n : forall l, Forall (fun b => is_byte b) l -> (4 * n <= length l)%nat ->
  digits (bin_digits n l) /\ length (bin_digits n l) = n /\ val (rev (bin_digits n l)) = big_endian (take (4 * n) l).
Proof.
  induction n as [|n IH]; intros l Hl Hlen; [split_and!; [constructor|done|by rewrite Nat.mul_0_r, take_0]|].
  destruct l as [|p0 [|p1 [|p2 [|p3 l]]]]; cbn [length] in Hlen; try lia. rewrite !Forall_cons in Hl. destruct Hl as (? & ? & ? & ? & Hl).
  cbn [bin_digits]. destruct (IH l) as (Hd & Hn & Hv); [done|lia|]. rewrite digit_bytes by done.
  replace (4 * S n)%nat with (4 + 4 * n)%nat by lia. cbn [Nat.add take]. split_and!.
  - constructor; [|done]. unfold big_endian, B. cbn [foldl]. lia.
  - cbn [length]. lia.
  - cbn [rev]. change (p0 :: p1 :: p2 :: p3 :: take (4 * n) l) with ([p0; p1; p2; p3] ++ take (4 * n) l).
    rewrite big_endian_app, val_app, Hv, length_rev, Hn, length_take, Nat.min_l by lia. cbn [val].
    replace (256 ^ Z.of_nat (4 * n)) with (B ^ Z.of_nat n); [lia|].
    rewrite Nat2Z.inj_mul, Z.pow_mul_r by lia. done.
Qed.

Lemma p256_from_bin_spec l : Forall (fun b => is_byte b) l -> (32 <= length l)%nat ->
  number (p256_from_bin l) /\ val (p256_from_bin l) = big_endian (take 32 l).
Proof.
  intros Hl Hlen. destruct (bin_digits_spec 8 l Hl Hlen) as (Hd & Hn & Hv). unfold p256_from_bin. split; [|done].
  split; [by apply Forall_rev|by rewrite length_rev].
Qed.

Lemma bytes_of_digits l : digits l ->
  Forall (fun b => is_byte b) (concat (digit_to_bytes <$> l)) /\ length (concat (digit_to_bytes <$> l)) = (4 * length l)%nat /\
  bin_digits (length l) (concat (digit_to_bytes <$> l)) = l.
Proof.
  intros Hl. induction Hl as [|d l Hd Hl (Hb & Hn & IH)]; [done|]. destruct (digit_to_bytes_spec d Hd) as [Hbd Hv].
  cbn [fmap list_fmap concat]. rewrite length_app. split_and!.
  - by apply Forall_app.
  - change (list_fmap Z (list Z) digit_to_bytes l) with (digit_to_bytes <$> l). rewrite Hn. cbn [length digit_to_bytes]. lia.
  - unfold digit_to_bytes in *. cbn [app bin_digits length]. rewrite !Forall_cons in Hbd. destruct Hbd as (? & ? & ? & ? & _).
    rewrite digit_bytes, Hv by done. f_equal. exact IH.
Qed.

(** The bytes of a number are 32, and reading them gives the number back. *)
Lemma p256_bin_roundtrip a : number a ->
  Forall (fun b => is_byte b) (p256_to_bin a) /\ length (p256_to_bin a) = 32%nat /\ p256_from_bin (p256_to_bin a) = a.
Proof.
  intros [Hd Hl]. destruct (bytes_of_digits (rev a)) as (Hb & Hn & Hv); [by apply Forall_rev|]. rewrite length_rev, Hl in *.
  unfold p256_to_bin, p256_from_bin. split_and!; [done|done|]. change P256_NDIGITS with 8%nat. rewrite Hv. apply rev_involutive.
Qed.
