(* ===== verification/P256Ec.v ===== *)
(** The group of the elliptic curve P-256 (omaha/base/security/p256_ec.c).

    A field element is a list of nine 32-bit limbs, alternately 29 and 28 bits
    wide, in Montgomery form. Every word operation wraps at 32 bits ([limb]) and
    every sum of products at 64 bits ([wide]), as in the code. An array that a
    function fills is its result; the loops that alternate the two widths are
    recursions whose width [w] goes from 29 to 28 and back ([57 - w]). *)

From S2P Require Import Prelude P256.

Definition NLIMBS : nat := 9.
Abbreviation felem := (list Z).

(** The conversions [(limb) z] and [(u64) z]. *)
Definition limb (z : Z) : Z := Z.land z 0xffffffff.
Definition wide (z : Z) : Z := Z.land z 0xffffffffffffffff.

Definition kBottom28Bits : Z := 0xfffffff.
Definition kBottom29Bits : Z := 0x1fffffff.
Definition kBottom (w : Z) : Z := if w =? 29 then kBottom29Bits else kBottom28Bits.

Definition kOne : felem := [2; 0; 0; 0xffff800; 0x1fffffff; 0xfffffff; 0x1fbfffff; 0x1ffffff; 0].
Definition kZero : felem := replicate NLIMBS 0.
Definition kP : felem := [0x1fffffff; 0xfffffff; 0x1fffffff; 0x3ff; 0; 0; 0x200000; 0xf000000; 0xfffffff].
Definition k2P : felem := [0x1ffffffe; 0xfffffff; 0x1fffffff; 0x7ff; 0; 0; 0x400000; 0xe000000; 0x1fffffff].

Definition kPrecomputed : list Z :=
  [0x11522878; 0xe730d41; 0xdb60179; 0x4afe2ff; 0x12883add; 0xcaddd88; 0x119e7edc; 0xd4a6eab; 0x3120bee;
   0x1d2aac15; 0xf25357c; 0x19e45cdd; 0x5c721d0; 0x1992c5a5; 0xa237487; 0x154ba21; 0x14b10bb; 0xae3fe3;
   0xd41a576; 0x922fc51; 0x234994f; 0x60b60d3; 0x164586ae; 0xce95f18; 0x1fe49073; 0x3fa36cc; 0x5ebcd2c;
   0xb402f2f; 0x15c70bf; 0x1561925c; 0x5a26704; 0xda91e90; 0xcdc1c7f; 0x1ea12446; 0xe1ade1e; 0xec91f22;
   0x26f7778; 0x566847e; 0xa0bec9e; 0x234f453; 0x1a31f21a; 0xd85e75c; 0x56c7109; 0xa267a00; 0xb57c050;
   0x98fb57; 0xaa837cc; 0x60c0792; 0xcfa5e19; 0x61bab9e; 0x589e39b; 0xa324c5; 0x7d6dee7; 0x2976e4b;
   0x1fc4124a; 0xa8c244b; 0x1ce86762; 0xcd61c7e; 0x1831c8e0; 0x75774e1; 0x1d96a5a9; 0x843a649; 0xc3ab0fa;
   0x6e2e7d5; 0x7673a2a; 0x178b65e8; 0x4003e9b; 0x1a1f11c2; 0x7816ea; 0xf643e11; 0x58c43df; 0xf423fc2;
   0x19633ffa; 0x891f2b2; 0x123c231c; 0x46add8c; 0x54700dd; 0x59e2b17; 0x172db40f; 0x83e277d; 0xb0dd609;
   0xfd1da12; 0x35c6e52; 0x19ede20c; 0xd19e0c0; 0x97d0f40; 0xb015b19; 0x449e3f5; 0xe10c9e; 0x33ab581;
   0x56a67ab; 0x577734d; 0x1dddc062; 0xc57b10d; 0x149b39d; 0x26a9e7b; 0xc35df9f; 0x48764cd; 0x76dbcca;
   0xca4b366; 0xe9303ab; 0x1a7480e7; 0x57e9e81; 0x1e13eb50; 0xf466cf3; 0x6f16b20; 0x4ba3173; 0xc168c33;
   0x15cb5439; 0x6a38e11; 0x73658bd; 0xb29564f; 0x3f6dc5b; 0x53b97e; 0x1322c4c0; 0x65dd7ff; 0x3a1e4f6;
   0x14e614aa; 0x9246317; 0x1bc83aca; 0xad97eed; 0xd38ce4a; 0xf82b006; 0x341f077; 0xa6add89; 0x4894acd;
   0x9f162d5; 0xf8410ef; 0x1b266a56; 0xd7f223; 0x3e0cb92; 0xe39b672; 0x6a2901a; 0x69a8556; 0x7e7c0;
   0x9b7d8d3; 0x309a80; 0x1ad05f7f; 0xc2fb5dd; 0xcbfd41d; 0x9ceb638; 0x1051825c; 0xda0cf5b; 0x812e881;
   0x6f35669; 0x6a56f2c; 0x1df8d184; 0x345820; 0x1477d477; 0x1645db1; 0xbe80c51; 0xc22be3e; 0xe35e65a;
   0x1aeb7aa0; 0xc375315; 0xf67bc99; 0x7fdd7b9; 0x191fc1be; 0x61235d; 0x2c184e9; 0x1c5a839; 0x47a1e26;
   0xb7cb456; 0x93e225d; 0x14f3c6ed; 0xccc1ac9; 0x17fe37f3; 0x4988989; 0x1a90c502; 0x2f32042; 0xa17769b;
   0xafd8c7c; 0x8191c6e; 0x1dcdb237; 0x16200c0; 0x107b32a1; 0x66c08db; 0x10d06a02; 0x3fc93; 0x5620023;
   0x16722b27; 0x68b5c59; 0x270fcfc; 0xfad0ecc; 0xe5de1c2; 0xeab466b; 0x2fc513c; 0x407f75c; 0xbaab133;
   0x9705fe9; 0xb88b8e7; 0x734c993; 0x1e1ff8f; 0x19156970; 0xabd0f00; 0x10469ea7; 0x3293ac0; 0xcdc98aa;
   0x1d843fd; 0xe14bfe8; 0x15be825f; 0x8b5212; 0xeb3fb67; 0x81cbd29; 0xbc62f16; 0x2b6fcc7; 0xf5a4e29;
   0x13560b66; 0xc0b6ac2; 0x51ae690; 0xd41e271; 0xf3e9bd4; 0x1d70aab; 0x1029f72; 0x73e1c35; 0xee70fbc;
   0xad81baf; 0x9ecc49a; 0x86c741e; 0xfe6be30; 0x176752e7; 0x23d416; 0x1f83de85; 0x27de188; 0x66f70b8;
   0x181cd51f; 0x96b6e4c; 0x188f2335; 0xa5df759; 0x17a77eb6; 0xfeb0e73; 0x154ae914; 0x2f3ec51; 0x3826b59;
   0xb91f17d; 0x1c72949; 0x1362bf0a; 0xe23fddf; 0xa5614b0; 0xf7d8f; 0x79061; 0x823d9d2; 0x8213f39;
   0x1128ae0b; 0xd095d05; 0xb85c0c2; 0x1ecb2ef; 0x24ddc84; 0xe35e901; 0x18411a4a; 0xf5ddc3d; 0x3786689;
   0x52260e8; 0x5ae3564; 0x542b10d; 0x8d93a45; 0x19952aa4; 0x996cc41; 0x1051a729; 0x4be3499; 0x52b23aa;
   0x109f307e; 0x6f5b6bb; 0x1f84e1e7; 0x77a0cfa; 0x10c4df3f; 0x25a02ea; 0xb048035; 0xe31de66; 0xc6ecaa3;
   0x28ea335; 0x2886024; 0x1372f020; 0xf55d35; 0x15e4684c; 0xf2a9e17; 0x1a4a7529; 0xcb7beb1; 0xb2a78a1;
   0x1ab21f1f; 0x6361ccf; 0x6c9179d; 0xb135627; 0x1267b974; 0x4408bad; 0x1cbff658; 0xe3d6511; 0xc7d76f;
   0x1cc7a69; 0xe7ee31b; 0x54fab4f; 0x2b914f; 0x1ad27a30; 0xcd3579e; 0xc50124c; 0x50daa90; 0xb13f72;
   0xb06aa75; 0x70f5cc6; 0x1649e5aa; 0x84a5312; 0x329043c; 0x41c4011; 0x13d32411; 0xb04a838; 0xd760d2d;
   0x1713b532; 0xbaa0c03; 0x84022ab; 0x6bcf5c1; 0x2f45379; 0x18ae070; 0x18c9e11e; 0x20bca9a; 0x66f496b;
   0x3eef294; 0x67500d2; 0xd7f613c; 0x2dbbeb; 0xb741038; 0xe04133f; 0x1582968d; 0xbe985f7; 0x1acbc1a;
   0x1a6a939f; 0x33e50f6; 0xd665ed4; 0xb4b7bd6; 0x1e5a3799; 0x6b33847; 0x17fa56ff; 0x65ef930; 0x21dc4a;
   0x2b37659; 0x450fe17; 0xb357b65; 0xdf5efac; 0x15397bef; 0x9d35a7f; 0x112ac15f; 0x624e62e; 0xa90ae2f;
   0x107eecd2; 0x1f69bbe; 0x77d6bce; 0x5741394; 0x13c684fc; 0x950c910; 0x725522b; 0xdc78583; 0x40eeabb;
   0x1fde328a; 0xbd61d96; 0xd28c387; 0x9e77d89; 0x12550c40; 0x759cb7d; 0x367ef34; 0xae2a960; 0x91b8bdc;
   0x93462a9; 0xf469ef; 0xb2e9aef; 0xd2ca771; 0x54e1f42; 0x7aaa49; 0x6316abb; 0x2413c8e; 0x5425bf9;
   0x1bed3e3a; 0xf272274; 0x1f5e7326; 0x6416517; 0xea27072; 0x9cedea7; 0x6e7633; 0x7c91952; 0xd806dce;
   0x8e2a7e1; 0xe421e1a; 0x418c9e1; 0x1dbc890; 0x1b395c36; 0xa1dc175; 0x1dc4ef73; 0x8956f34; 0xe4b5cf2;
   0x1b0d3a18; 0x3194a36; 0x6c2641f; 0xe44124c; 0xa2f4eaa; 0xa8c25ba; 0xf927ed7; 0x627b614; 0x7371cca;
   0xba16694; 0x417bc03; 0x7c0a7e3; 0x9c35c19; 0x1168a205; 0x8b6b00d; 0x10e3edc9; 0x9c19bf2; 0x5882229;
   0x1b2b4162; 0xa5cef1a; 0x1543622b; 0x9bd433e; 0x364e04d; 0x7480792; 0x5c9b5b3; 0xe85ff25; 0x408ef57;
   0x1814cfa4; 0x121b41b; 0xd248a0f; 0x3b05222; 0x39bb16a; 0xc75966d; 0xa038113; 0xa4a1769; 0x11fbc6c;
   0x917e50e; 0xeec3da8; 0x169d6eac; 0x10c1699; 0xa416153; 0xf724912; 0x15cd60b7; 0x4acbad9; 0x5efc5fa;
   0xf150ed7; 0x122b51; 0x1104b40a; 0xcb7f442; 0xfbb28ff; 0x6ac53ca; 0x196142cc; 0x7bf0fa9; 0x957651;
   0x4e0f215; 0xed439f8; 0x3f46bd5; 0x5ace82f; 0x110916b6; 0x6db078; 0xffd7d57; 0xf2ecaac; 0xca86dec;
   0x15d6b2da; 0x965ecc9; 0x1c92b4c2; 0x1f3811; 0x1cb080f5; 0x2d8b804; 0x19d1c12d; 0xf20bd46; 0x1951fa7;
   0xa3656c3; 0x523a425; 0xfcd0692; 0xd44ddc8; 0x131f0f5b; 0xaf80e4a; 0xcd9fc74; 0x99bb618; 0x2db944c;
   0xa673090; 0x1c210e1; 0x178c8d23; 0x1474383; 0x10b8743d; 0x985a55b; 0x2e74779; 0x576138; 0x9587927;
   0x133130fa; 0xbe05516; 0x9f4d619; 0xbb62570; 0x99ec591; 0xd9468fe; 0x1d07782d; 0xfc72e0b; 0x701b298;
   0x1863863b; 0x85954b8; 0x121a0c36; 0x9e7fedf; 0xf64b429; 0x9b9d71e; 0x14e2f5d8; 0xf858d3a; 0x942eea8;
   0xda5b765; 0x6edafff; 0xa9d18cc; 0xc65e4ba; 0x1c747e86; 0xe4ea915; 0x1981d7a1; 0x8395659; 0x52ed4e2;
   0x87d43b7; 0x37ab11b; 0x19d292ce; 0xf8d4692; 0x18c3053f; 0x8863e13; 0x4c146c0; 0x6bdf55a; 0x4e4457d;
   0x16152289; 0xac78ec2; 0x1a59c5a2; 0x2028b97; 0x71c2d01; 0x295851f; 0x404747b; 0x878558d; 0x7d29aa4;
   0x13d8341f; 0x8daefd7; 0x139c972d; 0x6b7ea75; 0xd4a9dde; 0xff163d8; 0x81d55d7; 0xa5bef68; 0xb7b30d8;
   0xbe73d6f; 0xaa88141; 0xd976c81; 0x7e7a9cc; 0x18beb771; 0xd773cbd; 0x13f51951; 0x9d0c177; 0x1c49a78].

(** ** Field elements *)

Definition shl32 (x n : Z) : Z := limb (Z.shiftl x n).
Definition NON_ZERO_TO_ALL_ONES (x : Z) : Z := limb (Z.shiftr (limb (x - 1)) 31 - 1).

Definition felem_reduce_carry (inout : felem) (carry : Z) : felem :=
  let carry_mask := NON_ZERO_TO_ALL_ONES carry in
  match inout with
  | [x0; x1; x2; x3; x4; x5; x6; x7; x8] =>
      let x0 := limb (x0 + shl32 carry 1) in
      let x3 := limb (x3 + Z.land 0x10000000 carry_mask) in
      let x3 := limb (x3 - shl32 carry 11) in
      let x4 := limb (x4 + Z.land (0x20000000 - 1) carry_mask) in
      let x5 := limb (x5 + Z.land (0x10000000 - 1) carry_mask) in
      let x6 := limb (x6 + Z.land (0x20000000 - 1) carry_mask) in
      let x6 := limb (x6 - shl32 carry 22) in
      let x7 := limb (x7 - Z.land 1 carry_mask) in
      let x7 := limb (x7 + shl32 carry 25) in
      [x0; x1; x2; x3; x4; x5; x6; x7; x8]
  | _ => inout
  end.

(** The loop that [felem_sum], [felem_diff], [felem_scalar_3] and
    [felem_is_zero_vartime] share: a carry goes through the limbs. *)
Fixpoint carry_loop (w : Z) (words : list Z) (carry : Z) : list Z * Z :=
  match words with
  | [] => ([], carry)
  | word :: words =>
      let out := limb (word + carry) in
      let '(outs, top) := carry_loop (57 - w) words (Z.shiftr out w) in
      (Z.land out (kBottom w) :: outs, top)
  end.
Definition carry_and_reduce (words : list Z) : felem :=
  let '(out, carry) := carry_loop 29 words 0 in felem_reduce_carry out carry.

Definition felem_sum (a b : felem) : felem := carry_and_reduce (zip_with (fun x y => limb (x + y)) a b).

Definition zero31 : felem :=
  let two31m3 := 2 ^ 31 - 2 ^ 3 in
  let two30m2 := 2 ^ 30 - 2 ^ 2 in
  let two30p13m2 := 2 ^ 30 + 2 ^ 13 - 2 ^ 2 in
  let two31m2 := 2 ^ 31 - 2 ^ 2 in
  let two31p24m2 := 2 ^ 31 + 2 ^ 24 - 2 ^ 2 in
  let two30m27m2 := 2 ^ 30 - 2 ^ 27 - 2 ^ 2 in
  [two31m3; two30m2; two31m2; two30p13m2; two31m2; two30m2; two31p24m2; two30m27m2; two31m2].
Definition felem_diff (a b : felem) : felem :=
  carry_and_reduce (zip_with (fun d z => limb (d + z)) (zip_with (fun x y => limb (x - y)) a b) zero31).

(** ** Montgomery reduction *)

(** The 64-bit words overlap; [split_loop] moves the bits of the two words below
    ([t2] two below, [t1] one below) to where they belong. *)
Fixpoint split_loop (w t2 t1 : Z) (tmp : list Z) (carry : Z) : list Z :=
  match tmp with
  | [] =>
      let word := Z.shiftr (limb (Z.shiftr t2 32)) 25 in
      let word := limb (word + Z.shiftr (limb t1) 29) in
      let word := limb (word + shl32 (limb (Z.shiftr t1 32)) 3) in
      [limb (word + carry)]
  | t :: tmp =>
      let word := Z.shiftr (limb (Z.shiftr t2 32)) 25 in
      let word := limb (word + Z.shiftr (limb t1) (57 - w)) in
      let word := limb (word + Z.land (shl32 (limb (Z.shiftr t1 32)) (32 - (57 - w))) (kBottom w)) in
      let word := limb (word + Z.land (limb t) (kBottom w)) in
      let word := limb (word + carry) in
      Z.land word (kBottom w) :: split_loop (57 - w) t1 t tmp (Z.shiftr word w)
  end.
Definition split_words (tmp : list Z) : list Z :=
  match tmp with
  | t0 :: t1 :: tmp =>
      let word := Z.shiftr (limb t0) 29 in
      let word := Z.lor word (Z.land (shl32 (limb (Z.shiftr t0 32)) 3) kBottom28Bits) in
      let word := limb (word + Z.land (limb t1) kBottom28Bits) in
      limb (Z.land t0 kBottom29Bits) :: Z.land word kBottom28Bits :: split_loop 29 t0 t1 tmp (Z.shiftr word 28)
  | _ => []
  end.

(** The two halves of the loop that eliminates words: the first word of the list
    is the one to clear, and the result is the words after it. *)
Definition eliminate29 (tmp2 : list Z) : list Z :=
  match tmp2 with
  | t0 :: t1 :: t2 :: t3 :: t4 :: t5 :: t6 :: t7 :: t8 :: t9 :: rest =>
      let t1 := limb (t1 + Z.shiftr t0 29) in
      let x := Z.land t0 kBottom29Bits in
      let xMask := NON_ZERO_TO_ALL_ONES x in
      let t3 := limb (t3 + Z.land (shl32 x 10) kBottom28Bits) in
      let t4 := limb (t4 + Z.shiftr x 18) in
      let t6 := limb (t6 + Z.land (shl32 x 21) kBottom29Bits) in
      let t7 := limb (t7 + Z.shiftr x 8) in
      let t7 := limb (t7 + Z.land 0x10000000 xMask) in
      let t8 := limb (t8 + Z.land (limb (x - 1)) xMask) in
      let t7 := limb (t7 - Z.land (shl32 x 24) kBottom28Bits) in
      let t8 := limb (t8 - Z.shiftr x 4) in
      let t8 := limb (t8 + Z.land 0x20000000 xMask) in
      let t8 := limb (t8 - x) in
      let t8 := limb (t8 + Z.land (shl32 x 28) kBottom29Bits) in
      let t9 := limb (t9 + Z.land (limb (Z.shiftr x 1 - 1)) xMask) in
      t1 :: t2 :: t3 :: t4 :: t5 :: t6 :: t7 :: t8 :: t9 :: rest
  | _ => []
  end.
Definition eliminate28 (tmp2 : list Z) : list Z :=
  match tmp2 with
  | t1 :: t2 :: t3 :: t4 :: t5 :: t6 :: t7 :: t8 :: t9 :: t10 :: rest =>
      let t2 := limb (t2 + Z.shiftr t1 28) in
      let x := Z.land t1 kBottom28Bits in
      let xMask := NON_ZERO_TO_ALL_ONES x in
      let t4 := limb (t4 + Z.land (shl32 x 11) kBottom29Bits) in
      let t5 := limb (t5 + Z.shiftr x 18) in
      let t7 := limb (t7 + Z.land (shl32 x 21) kBottom28Bits) in
      let t8 := limb (t8 + Z.shiftr x 7) in
      let t8 := limb (t8 + Z.land 0x20000000 xMask) in
      let t9 := limb (t9 + Z.land (limb (x - 1)) xMask) in
      let t8 := limb (t8 - Z.land (shl32 x 25) kBottom29Bits) in
      let t9 := limb (t9 - Z.shiftr x 4) in
      let t9 := limb (t9 + Z.land 0x10000000 xMask) in
      let t9 := limb (t9 - x) in
      let t10 := limb (t10 + Z.land (limb (x - 1)) xMask) in
      t2 :: t3 :: t4 :: t5 :: t6 :: t7 :: t8 :: t9 :: t10 :: rest
  | _ => []
  end.
(** [i] goes from 0 to 8 by two; the last round has only its first half. *)
Fixpoint eliminate (rounds : nat) (tmp2 : list Z) : list Z :=
  match rounds with
  | O => eliminate29 tmp2
  | S rounds => eliminate rounds (eliminate28 (eliminate29 tmp2))
  end.

(** The shift by 257 bits: the words above have widths 28, 29, ... *)
Fixpoint shift_loop (tmp2 : list Z) (carry : Z) : list Z * Z :=
  match tmp2 with
  | t9 :: t10 :: rest =>
      let out0 := limb (t9 + carry) in
      let out0 := limb (out0 + Z.land (shl32 t10 28) kBottom29Bits) in
      let carry := Z.shiftr out0 29 in
      let out1 := limb (Z.shiftr t10 1 + carry) in
      let '(outs, top) := shift_loop rest (Z.shiftr out1 28) in
      (Z.land out0 kBottom29Bits :: Z.land out1 kBottom28Bits :: outs, top)
  | [t17] =>
      let out8 := limb (t17 + carry) in
      ([Z.land out8 kBottom29Bits], Z.shiftr out8 29)
  | [] => ([], carry)
  end.

Definition felem_reduce_degree (tmp : list Z) : felem :=
  let '(out, carry) := shift_loop (eliminate 4 (split_words tmp)) 0 in felem_reduce_carry out carry.

Definition felem_square (a : felem) : felem :=
  match a with
  | [a0; a1; a2; a3; a4; a5; a6; a7; a8] =>
      felem_reduce_degree
        [wide (a0 * a0);
         wide (a0 * shl32 a1 1);
         wide (a0 * shl32 a2 1 + a1 * shl32 a1 1);
         wide (a0 * shl32 a3 1 + a1 * shl32 a2 1);
         wide (a0 * shl32 a4 1 + a1 * shl32 a3 2 + a2 * a2);
         wide (a0 * shl32 a5 1 + a1 * shl32 a4 1 + a2 * shl32 a3 1);
         wide (a0 * shl32 a6 1 + a1 * shl32 a5 2 + a2 * shl32 a4 1 + a3 * shl32 a3 1);
         wide (a0 * shl32 a7 1 + a1 * shl32 a6 1 + a2 * shl32 a5 1 + a3 * shl32 a4 1);
         wide (a0 * shl32 a8 1 + a1 * shl32 a7 2 + a2 * shl32 a6 1 + a3 * shl32 a5 2 + a4 * a4);
         wide (a1 * shl32 a8 1 + a2 * shl32 a7 1 + a3 * shl32 a6 1 + a4 * shl32 a5 1);
         wide (a2 * shl32 a8 1 + a3 * shl32 a7 2 + a4 * shl32 a6 1 + a5 * shl32 a5 1);
         wide (a3 * shl32 a8 1 + a4 * shl32 a7 1 + a5 * shl32 a6 1);
         wide (a4 * shl32 a8 1 + a5 * shl32 a7 2 + a6 * a6);
         wide (a5 * shl32 a8 1 + a6 * shl32 a7 1);
         wide (a6 * shl32 a8 1 + a7 * shl32 a7 1);
         wide (a7 * shl32 a8 1);
         wide (a8 * a8)]
  | _ => []
  end.

Definition felem_mul (a b : felem) : felem :=
  match a, b with
  | [a0; a1; a2; a3; a4; a5; a6; a7; a8], [b0; b1; b2; b3; b4; b5; b6; b7; b8] =>
      felem_reduce_degree
        [wide (a0 * b0);
         wide (a0 * b1 + a1 * b0);
         wide (a0 * b2 + a1 * shl32 b1 1 + a2 * b0);
         wide (a0 * b3 + a1 * b2 + a2 * b1 + a3 * b0);
         wide (a0 * b4 + a1 * shl32 b3 1 + a2 * b2 + a3 * shl32 b1 1 + a4 * b0);
         wide (a0 * b5 + a1 * b4 + a2 * b3 + a3 * b2 + a4 * b1 + a5 * b0);
         wide (a0 * b6 + a1 * shl32 b5 1 + a2 * b4 + a3 * shl32 b3 1 + a4 * b2 + a5 * shl32 b1 1 + a6 * b0);
         wide (a0 * b7 + a1 * b6 + a2 * b5 + a3 * b4 + a4 * b3 + a5 * b2 + a6 * b1 + a7 * b0);
         wide (a0 * b8 + a1 * shl32 b7 1 + a2 * b6 + a3 * shl32 b5 1 + a4 * b4 + a5 * shl32 b3 1 + a6 * b2 + a7 * shl32 b1 1 + a8 * b0);
         wide (a1 * b8 + a2 * b7 + a3 * b6 + a4 * b5 + a5 * b4 + a6 * b3 + a7 * b2 + a8 * b1);
         wide (a2 * b8 + a3 * shl32 b7 1 + a4 * b6 + a5 * shl32 b5 1 + a6 * b4 + a7 * shl32 b3 1 + a8 * b2);
         wide (a3 * b8 + a4 * b7 + a5 * b6 + a6 * b5 + a7 * b4 + a8 * b3);
         wide (a4 * b8 + a5 * shl32 b7 1 + a6 * b6 + a7 * shl32 b5 1 + a8 * b4);
         wide (a5 * b8 + a6 * b7 + a7 * b6 + a8 * b5);
         wide (a6 * b8 + a7 * shl32 b7 1 + a8 * b6);
         wide (a7 * b8 + a8 * b7);
         wide (a8 * b8)]
  | _, _ => []
  end.

(** [for (i = 0; i < n; i++) felem_square(ftmp, ftmp)]. *)
Fixpoint felem_squares (n : nat) (a : felem) : felem :=
  match n with O => a | S n => felem_squares n (felem_square a) end.

Definition felem_inv (a : felem) : felem :=
  let ftmp := felem_square a in
  let ftmp := felem_mul a ftmp in
  let e2 := ftmp in
  let ftmp := felem_square ftmp in
  let ftmp := felem_square ftmp in
  let ftmp := felem_mul ftmp e2 in
  let e4 := ftmp in
  let ftmp := felem_square ftmp in
  let ftmp := felem_square ftmp in
  let ftmp := felem_square ftmp in
  let ftmp := felem_square ftmp in
  let ftmp := felem_mul ftmp e4 in
  let e8 := ftmp in
  let ftmp := felem_squares 8 ftmp in
  let ftmp := felem_mul ftmp e8 in
  let e16 := ftmp in
  let ftmp := felem_squares 16 ftmp in
  let ftmp := felem_mul ftmp e16 in
  let e32 := ftmp in
  let ftmp := felem_squares 32 ftmp in
  let e64 := ftmp in
  let ftmp := felem_mul ftmp a in
  let ftmp := felem_squares 192 ftmp in
  let ftmp2 := felem_mul e64 e32 in
  let ftmp2 := felem_squares 16 ftmp2 in
  let ftmp2 := felem_mul ftmp2 e16 in
  let ftmp2 := felem_squares 8 ftmp2 in
  let ftmp2 := felem_mul ftmp2 e8 in
  let ftmp2 := felem_squares 4 ftmp2 in
  let ftmp2 := felem_mul ftmp2 e4 in
  let ftmp2 := felem_square ftmp2 in
  let ftmp2 := felem_square ftmp2 in
  let ftmp2 := felem_mul ftmp2 e2 in
  let ftmp2 := felem_square ftmp2 in
  let ftmp2 := felem_square ftmp2 in
  let ftmp2 := felem_mul ftmp2 a in
  felem_mul ftmp2 ftmp.

(** ** Small multiples and zero *)

Definition felem_scalar_3 (out : felem) : felem := carry_and_reduce ((fun x => limb (x * 3)) <$> out).

(** The loop of [felem_scalar_4] ([n] is 2) and [felem_scalar_8] ([n] is 3). *)
Fixpoint scalar_loop (n w : Z) (words : list Z) (carry : Z) : list Z * Z :=
  match words with
  | [] => ([], carry)
  | word :: words =>
      let next_carry := Z.shiftr word (w - n) in
      let out := Z.land (shl32 word n) (kBottom w) in
      let out := limb (out + carry) in
      let '(outs, top) := scalar_loop n (57 - w) words (limb (next_carry + Z.shiftr out w)) in
      (Z.land out (kBottom w) :: outs, top)
  end.
Definition felem_scalar_4 (out : felem) : felem :=
  let '(out, carry) := scalar_loop 2 29 out 0 in felem_reduce_carry out carry.
Definition felem_scalar_8 (out : felem) : felem :=
  let '(out, carry) := scalar_loop 3 29 out 0 in felem_reduce_carry out carry.

(** [do { ... } while (carry)]; the fuel bounds the rounds. *)
Fixpoint reduce_minimal (fuel : nat) (tmp : felem) : option felem :=
  match fuel with
  | O => None
  | S fuel =>
      let '(out, carry) := carry_loop 29 tmp 0 in
      let tmp := felem_reduce_carry out carry in
      if carry =? 0 then Some tmp else reduce_minimal fuel tmp
  end.
Definition minimal_fuel : nat := 4.
Definition felem_is_zero_vartime (a : felem) : option bool :=
  tmp ← reduce_minimal minimal_fuel a;
  Some (bool_decide (tmp = kZero) || bool_decide (tmp = kP) || bool_decide (tmp = k2P)).

(** ** Points in Jacobian coordinates *)

Abbreviation jacobian := (felem * felem * felem)%type.

Definition point_double (p : jacobian) : jacobian :=
  let '(x, y, z) := p in
  let delta := felem_square z in
  let gamma := felem_square y in
  let beta := felem_mul x gamma in
  let tmp := felem_sum x delta in
  let tmp2 := felem_diff x delta in
  let alpha := felem_mul tmp tmp2 in
  let alpha := felem_scalar_3 alpha in
  let tmp := felem_sum y z in
  let tmp := felem_square tmp in
  let tmp := felem_diff tmp gamma in
  let z_out := felem_diff tmp delta in
  let beta := felem_scalar_4 beta in
  let x_out := felem_square alpha in
  let x_out := felem_diff x_out beta in
  let x_out := felem_diff x_out beta in
  let tmp := felem_diff beta x_out in
  let tmp := felem_mul alpha tmp in
  let tmp2 := felem_square gamma in
  let tmp2 := felem_scalar_8 tmp2 in
  let y_out := felem_diff tmp tmp2 in
  (x_out, y_out, z_out).

Definition point_add_mixed (p1 : jacobian) (x2 y2 : felem) : jacobian :=
  let '(x1, y1, z1) := p1 in
  let z1z1 := felem_square z1 in
  let tmp := felem_sum z1 z1 in
  let u2 := felem_mul x2 z1z1 in
  let z1z1z1 := felem_mul z1 z1z1 in
  let s2 := felem_mul y2 z1z1z1 in
  let h := felem_diff u2 x1 in
  let i := felem_sum h h in
  let i := felem_square i in
  let j := felem_mul h i in
  let r := felem_diff s2 y1 in
  let r := felem_sum r r in
  let v := felem_mul x1 i in
  let z_out := felem_mul tmp h in
  let rr := felem_square r in
  let x_out := felem_diff rr j in
  let x_out := felem_diff x_out v in
  let x_out := felem_diff x_out v in
  let tmp := felem_diff v x_out in
  let y_out := felem_mul tmp r in
  let tmp := felem_mul y1 j in
  let y_out := felem_diff y_out tmp in
  let y_out := felem_diff y_out tmp in
  (x_out, y_out, z_out).

Definition point_add (p1 p2 : jacobian) : jacobian :=
  let '(x1, y1, z1) := p1 in
  let '(x2, y2, z2) := p2 in
  let z1z1 := felem_square z1 in
  let z2z2 := felem_square z2 in
  let u1 := felem_mul x1 z2z2 in
  let tmp := felem_sum z1 z2 in
  let tmp := felem_square tmp in
  let tmp := felem_diff tmp z1z1 in
  let tmp := felem_diff tmp z2z2 in
  let z2z2z2 := felem_mul z2 z2z2 in
  let s1 := felem_mul y1 z2z2z2 in
  let u2 := felem_mul x2 z1z1 in
  let z1z1z1 := felem_mul z1 z1z1 in
  let s2 := felem_mul y2 z1z1z1 in
  let h := felem_diff u2 u1 in
  let i := felem_sum h h in
  let i := felem_square i in
  let j := felem_mul h i in
  let r := felem_diff s2 s1 in
  let r := felem_sum r r in
  let v := felem_mul u1 i in
  let z_out := felem_mul tmp h in
  let rr := felem_square r in
  let x_out := felem_diff rr j in
  let x_out := felem_diff x_out v in
  let x_out := felem_diff x_out v in
  let tmp := felem_diff v x_out in
  let y_out := felem_mul tmp r in
  let tmp := felem_mul s1 j in
  let y_out := felem_diff y_out tmp in
  let y_out := felem_diff y_out tmp in
  (x_out, y_out, z_out).

Definition point_add_or_double_vartime (p1 p2 : jacobian) : option jacobian :=
  let '(x1, y1, z1) := p1 in
  let '(x2, y2, z2) := p2 in
  let z1z1 := felem_square z1 in
  let z2z2 := felem_square z2 in
  let u1 := felem_mul x1 z2z2 in
  let tmp := felem_sum z1 z2 in
  let tmp := felem_square tmp in
  let tmp := felem_diff tmp z1z1 in
  let tmp := felem_diff tmp z2z2 in
  let z2z2z2 := felem_mul z2 z2z2 in
  let s1 := felem_mul y1 z2z2z2 in
  let u2 := felem_mul x2 z1z1 in
  let z1z1z1 := felem_mul z1 z1z1 in
  let s2 := felem_mul y2 z1z1z1 in
  let h := felem_diff u2 u1 in
  x_equal ← felem_is_zero_vartime h;
  let i := felem_sum h h in
  let i := felem_square i in
  let j := felem_mul h i in
  let r := felem_diff s2 s1 in
  y_equal ← felem_is_zero_vartime r;
  if x_equal && y_equal then Some (point_double (x1, y1, z1))
  else
    let r := felem_sum r r in
    let v := felem_mul u1 i in
    let z_out := felem_mul tmp h in
    let rr := felem_square r in
    let x_out := felem_diff rr j in
    let x_out := felem_diff x_out v in
    let x_out := felem_diff x_out v in
    let tmp := felem_diff v x_out in
    let y_out := felem_mul tmp r in
    let tmp := felem_mul s1 j in
    let y_out := felem_diff y_out tmp in
    let y_out := felem_diff y_out tmp in
    Some (x_out, y_out, z_out).

(** ** Selection without branches *)

Definition copy_conditional (out a : felem) (mask : Z) : felem :=
  zip_with (fun o i => Z.lxor o (Z.land mask (Z.lxor i o))) out a.

Definition select_mask (i index : Z) : Z :=
  let mask := Z.lxor i index in
  let mask := Z.lor mask (Z.shiftr mask 2) in
  let mask := Z.lor mask (Z.shiftr mask 1) in
  let mask := Z.land mask 1 in
  limb (mask - 1).
(** [for (j = 0; j < NLIMBS; j++, table++) out[j] |= *table & mask]. *)
Definition or_masked (out table : list Z) (mask : Z) : felem :=
  zip_with (fun o t => Z.lor o (Z.land t mask)) out table.

Fixpoint select_affine_loop (indices : list Z) (table : list Z) (index : Z) (x y : felem) : felem * felem :=
  match indices with
  | [] => (x, y)
  | i :: indices =>
      let mask := select_mask i index in
      select_affine_loop indices (drop (2 * NLIMBS) table) index (or_masked x table mask) (or_masked y (drop NLIMBS table) mask)
  end.
Definition one_to_fifteen : list Z := [1; 2; 3; 4; 5; 6; 7; 8; 9; 10; 11; 12; 13; 14; 15].
Definition select_affine_point (table : list Z) (index : Z) : felem * felem :=
  select_affine_loop one_to_fifteen table index kZero kZero.

Fixpoint select_jacobian_loop (indices : list Z) (table : list Z) (index : Z) (p : jacobian) : jacobian :=
  match indices with
  | [] => p
  | i :: indices =>
      let '(x, y, z) := p in
      let mask := select_mask i index in
      select_jacobian_loop indices (drop (3 * NLIMBS) table) index
        (or_masked x table mask, or_masked y (drop NLIMBS table) mask, or_masked z (drop (2 * NLIMBS) table) mask)
  end.
Definition select_jacobian_point (table : list Z) (index : Z) : jacobian :=
  select_jacobian_loop one_to_fifteen (drop (3 * NLIMBS) table) index (kZero, kZero, kZero).

(** ** Multiples of a point *)

(** The point so far, and the mask that says whether it is still at infinity. *)
Abbreviation mult_state := (jacobian * Z)%type.

(** What follows the addition in both loops: [p] is the entry of the table, [t]
    its sum with the point so far. *)
Definition accumulate (n p t : jacobian) (index n_is_infinity_mask : Z) : mult_state :=
  let '(nx, ny, nz) := n in
  let '(px, py, pz) := p in
  let '(tx, ty, tz) := t in
  let nx := copy_conditional nx px n_is_infinity_mask in
  let ny := copy_conditional ny py n_is_infinity_mask in
  let nz := copy_conditional nz pz n_is_infinity_mask in
  let p_is_noninfinite_mask := NON_ZERO_TO_ALL_ONES index in
  let mask := Z.land p_is_noninfinite_mask (limb (Z.lnot n_is_infinity_mask)) in
  let nx := copy_conditional nx tx mask in
  let ny := copy_conditional ny ty mask in
  let nz := copy_conditional nz tz mask in
  ((nx, ny, nz), Z.land n_is_infinity_mask (limb (Z.lnot p_is_noninfinite_mask))).

Definition base_index (scalar : p256_int) (i j : Z) : Z :=
  let bit0 := p256_get_bit scalar (31 - i + j) in
  let bit1 := p256_get_bit scalar (95 - i + j) in
  let bit2 := p256_get_bit scalar (159 - i + j) in
  let bit3 := p256_get_bit scalar (223 - i + j) in
  Z.lor (Z.lor (Z.lor bit0 (Z.shiftl bit1 1)) (Z.shiftl bit2 2)) (Z.shiftl bit3 3).
(** One round of the inner loop, [j] being 0 or 32. *)
Definition scalar_base_add (scalar : p256_int) (i j : Z) (table_offset : nat) (st : mult_state) : mult_state :=
  let '(n, n_is_infinity_mask) := st in
  let index := base_index scalar i j in
  let '(px, py) := select_affine_point (drop table_offset kPrecomputed) index in
  accumulate n (px, py, kOne) (point_add_mixed n px py) index n_is_infinity_mask.
Definition scalar_base_round (scalar : p256_int) (st : mult_state) (i : Z) : mult_state :=
  let '(n, n_is_infinity_mask) := st in
  let n := if i =? 0 then n else point_double n in
  scalar_base_add scalar i 32 (30 * NLIMBS) (scalar_base_add scalar i 0 0 (n, n_is_infinity_mask)).
Definition infinity : mult_state := ((kZero, kZero, kZero), all_ones).
Definition scalar_base_mult (scalar : p256_int) : jacobian :=
  (fold_left (scalar_base_round scalar) (seqZ 0 32) infinity).1.

Definition point_to_affine (p : jacobian) : felem * felem :=
  let '(nx, ny, nz) := p in
  let z_inv := felem_inv nz in
  let z_inv_sq := felem_square z_inv in
  let x_out := felem_mul nx z_inv_sq in
  let z_inv := felem_mul z_inv z_inv_sq in
  (x_out, felem_mul ny z_inv).

Definition jacobian_words (p : jacobian) : list Z := p.1.1 ++ p.1.2 ++ p.2.
(** [for (i = 2; i < 16; i += 2)]: twice the entry [i / 2], and that plus the point. *)
Definition precompute_step (x y : felem) (precomp : list jacobian) (i : nat) : list jacobian :=
  let twice := point_double (nth (i / 2) precomp (kZero, kZero, kZero)) in
  precomp ++ [twice; point_add_mixed twice x y].
Definition precompute (x y : felem) : list jacobian :=
  fold_left (precompute_step x y) [2; 4; 6; 8; 10; 12; 14]%nat [(kZero, kZero, kZero); (x, y, kOne)].

Definition mult_index (scalar : p256_int) (i : Z) : Z :=
  Z.lor (Z.lor (Z.lor (Z.shiftl (p256_get_bit scalar (255 - i - 0)) 3) (Z.shiftl (p256_get_bit scalar (255 - i - 1)) 2))
    (Z.shiftl (p256_get_bit scalar (255 - i - 2)) 1)) (p256_get_bit scalar (255 - i - 3)).
Definition scalar_mult_round (table : list Z) (scalar : p256_int) (st : mult_state) (i : Z) : mult_state :=
  let '(n, n_is_infinity_mask) := st in
  let n := if i =? 0 then n else point_double (point_double (point_double (point_double n))) in
  let index := mult_index scalar i in
  let p := select_jacobian_point table index in
  accumulate n p (point_add n p) index n_is_infinity_mask.
Definition scalar_mult (x y : felem) (scalar : p256_int) : jacobian :=
  let table := concat (jacobian_words <$> precompute x y) in
  (fold_left (scalar_mult_round table scalar) (Z.mul 4 <$> seqZ 0 64) infinity).1.

(** ** Conversion *)

Definition kR : p256_int := [2; 0; 0; 0xfffffffe; 0xffffffff; 0xffffffff; 0xfffffffd; 1].
Definition kRInv : p256_int := [0x80000000; 1; 0xffffffff; 0; 0x80000001; 0xfffffffe; 1; 0x7fffffff].

Fixpoint to_limbs (n : nat) (w : Z) (a : p256_int) : felem :=
  match n with
  | O => []
  | S n => Z.land (P256_DIGIT a 0) (kBottom w) :: to_limbs n (57 - w) (p256_shr a w)
  end.
Definition to_montgomery (a : p256_int) : felem := to_limbs NLIMBS 29 (p256_modmul SECP256r1_p a 0 kR).

(** The limbs from the highest; [top] and [result] as the loop leaves them. *)
Fixpoint from_limbs (w : Z) (limbs : felem) : Z * p256_int :=
  match limbs with
  | [] => (0, P256_ZERO)
  | [x] => (0, (p256_add_d P256_ZERO x).2)
  | x :: limbs =>
      let '(_, result) := from_limbs (57 - w) limbs in
      let '(top, tmp) := p256_shl result w in
      let '(carry, result) := p256_add_d tmp x in
      (Z.lor top carry, result)
  end.
Definition from_montgomery (a : felem) : p256_int :=
  let '(top, result) := from_limbs 29 a in p256_modmul SECP256r1_p kRInv top result.

Definition affine_of (p : jacobian) : p256_int * p256_int :=
  let '(x_affine, y_affine) := point_to_affine p in (from_montgomery x_affine, from_montgomery y_affine).
Definition p256_base_point_mul (n : p256_int) : p256_int * p256_int := affine_of (scalar_base_mult n).
Definition p256_point_mul (n in_x in_y : p256_int) : p256_int * p256_int :=
  affine_of (scalar_mult (to_montgomery in_x) (to_montgomery in_y) n).

Definition p256_points_mul_vartime (n1 n2 in_x in_y : p256_int) : option (p256_int * p256_int) :=
  if p256_is_zero n1 && p256_is_zero n2 then Some (P256_ZERO, P256_ZERO)
  else
    let px := to_montgomery in_x in
    let py := to_montgomery in_y in
    let p1 := scalar_base_mult n1 in
    let p2 := scalar_mult px py n2 in
    p1 ← (if p256_is_zero n2 then Some p1
          else if p256_is_zero n1 then Some p2
          else point_add_or_double_vartime p1 p2);
    Some (affine_of p1).
