(* ===== verification/P256Limbs.v ===== *)
(** The limbs of the field elements of P256Ec.v: every carry chain keeps the
    documented bounds, no word overflows, and Montgomery reduction divides by
    2^257 modulo the prime of the curve. *)

From S2P Require Import Prelude P256 P256Facts P256Ec.

(** ** The values of limbs *)

(** The prime of the curve. *)
Definition p : Z := 2 ^ 256 - 2 ^ 224 + 2 ^ 192 + 2 ^ 96 - 1.
Lemma p_val : val SECP256r1_p = p.
Proof. vm_compute. reflexivity. Qed.

Lemma p_bounds : 2 ^ 256 - 2 ^ 224 <= p < 2 ^ 256.
Proof. unfold p. lia. Qed.

(** [x[0] + x[1] * 2^29 + x[2] * 2^57 + ...], [w] being the first width. *)
Fixpoint fval (w : Z) (l : list Z) : Z :=
  match l with [] => 0 | x :: l => x + 2 ^ w * fval (57 - w) l end.
(** The limbs have at most [k] bits more than their widths. *)
Fixpoint below (k w : Z) (l : list Z) : Prop :=
  match l with [] => True | x :: l => 0 <= x < 2 ^ (w + k) /\ below k (57 - w) l end.
Fixpoint span (w : Z) (n : nat) : Z :=
  match n with O => 0 | S n => w + span (57 - w) n end.

(** The bounds that the operations promise, [out[0,2,...] < 2**30] and
    [out[1,3,...] < 2**29], and one that they keep and [felem_scalar_8] needs:
    the highest limb has no bit above its width. *)
Definition fe (l : felem) : Prop := length l = NLIMBS /\ below 1 29 l /\ nth 8 l 0 < 2 ^ 29.

Notation width w := (w = 29 \/ w = 28).
Lemma width_other w : width w -> width (57 - w).
Proof. lia. Qed.

Lemma limb_mod z : limb z = z mod 2 ^ 32.
Proof. unfold limb. change 0xffffffff with (Z.ones 32). by apply Z.land_ones. Qed.
Lemma limb_range z : 0 <= limb z < 2 ^ 32.
Proof. rewrite limb_mod. by apply Z.mod_pos_bound. Qed.
Lemma limb_small z : 0 <= z < 2 ^ 32 -> limb z = z.
Proof. intros Hz. rewrite limb_mod. by apply Z.mod_small. Qed.
Lemma limb_cong a b : (2 ^ 32 | a - b) -> limb a = limb b.
Proof. intros [k Hk]. rewrite !limb_mod. replace a with (b + k * 2 ^ 32) by lia. by apply Z.mod_add. Qed.
Lemma wide_small z : 0 <= z < 2 ^ 64 -> wide z = z.
Proof.
  intros Hz. unfold wide. change 0xffffffffffffffff with (Z.ones 64). rewrite Z.land_ones by lia. by apply Z.mod_small.
Qed.
Lemma land_bottom w z : width w -> Z.land z (kBottom w) = z mod 2 ^ w.
Proof. intros [-> | ->]; [apply (Z.land_ones _ 29)|apply (Z.land_ones _ 28)]; lia. Qed.
Lemma land_bottom29 z : Z.land z kBottom29Bits = z mod 2 ^ 29.
Proof. apply (land_bottom 29). auto. Qed.
Lemma land_bottom28 z : Z.land z kBottom28Bits = z mod 2 ^ 28.
Proof. apply (land_bottom 28). auto. Qed.

Lemma mask_zero : NON_ZERO_TO_ALL_ONES 0 = 0.
Proof. reflexivity. Qed.
Lemma mask_ones x : 0 < x < 2 ^ 31 -> NON_ZERO_TO_ALL_ONES x = 0xffffffff.
Proof.
  intros Hx. unfold NON_ZERO_TO_ALL_ONES. rewrite (limb_small (x - 1)), Z.shiftr_div_pow2 by lia.
  replace ((x - 1) / 2 ^ 31) with 0; [reflexivity|]. symmetry. apply Z.div_small. lia.
Qed.
Lemma land_all_ones z : Z.land z 0xffffffff = limb z.
Proof. reflexivity. Qed.

Lemma limb_add a b : limb (limb a + b) = limb (a + b).
Proof. rewrite !limb_mod. by apply Zplus_mod_idemp_l. Qed.
Lemma limb_add_r a b : limb (a + limb b) = limb (a + b).
Proof. rewrite !limb_mod. by apply Zplus_mod_idemp_r. Qed.
Lemma limb_sub a b : limb (limb a - b) = limb (a - b).
Proof. rewrite !limb_mod. by apply Zminus_mod_idemp_l. Qed.

(** A chain of additions and subtractions wraps once, at its end. *)
Ltac limbs := rewrite ?limb_sub, ?limb_add, ?limb_add_r; repeat (rewrite ?limb_sub, ?limb_add, ?limb_add_r);
  repeat match goal with |- context [limb ?z] => rewrite (limb_small z) by lia end.

(** ** Carries *)

(** The term at 2^257 that [felem_reduce_carry] cancels is replaced by its residue. *)
Lemma felem_reduce_carry_spec l carry : length l = NLIMBS -> below 0 29 l -> 0 <= carry <= 8 ->
  fe (felem_reduce_carry l carry) /\ fval 29 (felem_reduce_carry l carry) = fval 29 l + carry * (2 ^ 257 - 2 * p).
Proof.
  intros Hl Hb Hc. do 9 (destruct l as [|? l]; [done|]). destruct l; [|done].
  cbn [below] in Hb. cbn [felem_reduce_carry]. cbv zeta. unfold shl32. rewrite !Z.shiftl_mul_pow2 by lia.
  destruct (Z.eq_dec carry 0) as [->|Hn].
  - rewrite mask_zero, !Z.land_0_r, !Z.mul_0_l. limbs. split; [split; [done|]; cbn [below nth]; lia|cbn [fval]; lia].
  - rewrite mask_ones by lia. rewrite !(limb_small (carry * _)) by lia. change (Z.land 0x10000000 0xffffffff) with (2 ^ 28).
    change (Z.land (0x20000000 - 1) 0xffffffff) with (2 ^ 29 - 1). change (Z.land (0x10000000 - 1) 0xffffffff) with (2 ^ 28 - 1).
    change (Z.land 1 0xffffffff) with 1. limbs. split; [split; [done|]; cbn [below nth]; lia|cbn [fval]; unfold p; lia].
Qed.

Lemma shiftr_range z w : width w -> 0 <= z < 2 ^ 32 -> 0 <= Z.shiftr z w < 16.
Proof. intros [-> | ->] Hz; rewrite Z.shiftr_div_pow2 by lia; Z.div_mod_to_equations; lia. Qed.
Lemma bottom_top z w : width w -> z = Z.land z (kBottom w) + 2 ^ w * Z.shiftr z w.
Proof. intros Hw. rewrite land_bottom, Z.shiftr_div_pow2 by lia. rewrite Z.add_comm. apply Z.div_mod. lia. Qed.
Lemma bottom_range z w : width w -> 0 <= Z.land z (kBottom w) < 2 ^ (w + 0).
Proof. intros Hw. rewrite land_bottom, Z.add_0_r by done. apply Z.mod_pos_bound. lia. Qed.

Lemma span_nonneg n : forall w, width w -> 0 <= span w n.
Proof. induction n as [|n IH]; intros w Hw; cbn [span]; [lia|]. pose proof (IH (57 - w) ltac:(lia)). lia. Qed.

Lemma carry_loop_spec words : forall w carry, width w -> Forall (fun x => 0 <= x < 2 ^ 32 - 16) words -> 0 <= carry < 16 ->
  let '(outs, top) := carry_loop w words carry in
  length outs = length words /\ below 0 w outs /\ 0 <= top < 16 /\
  fval w words + carry = fval w outs + 2 ^ span w (length words) * top.
Proof.
  induction words as [|x words IH]; intros w carry Hw Hb Hc; [cbn; lia|].
  apply Forall_cons in Hb as [Hx Hb]. cbn [carry_loop]. cbv zeta. rewrite limb_small by lia.
  pose proof (bottom_top (x + carry) w Hw) as He. pose proof (shiftr_range (x + carry) w Hw ltac:(lia)) as Hs.
  specialize (IH (57 - w) (Z.shiftr (x + carry) w) ltac:(lia) Hb Hs).
  destruct (carry_loop (57 - w) words _) as [outs top]. destruct IH as (Hl & Hbo & Ht & Hv).
  cbn [length below fval span]. split_and!; [lia|apply bottom_range; done|apply bottom_range; done|done|lia|lia|].
  rewrite Z.pow_add_r by (pose proof (span_nonneg (length words) (57 - w)); lia). nia.
Qed.

Lemma fval_bound l : forall w, width w -> Forall (fun x => 0 <= x <= 2 ^ 32 - 2 ^ 29) l -> length l = NLIMBS -> w = 29 ->
  0 <= fval w l < 8 * 2 ^ 257.
Proof.
  intros w Hw Hb Hl ->. do 9 (destruct l as [|? l]; [done|]). destruct l; [|done]. rewrite !Forall_cons in Hb. cbn [fval]. lia.
Qed.
Lemma below_bound l : below 0 29 l -> length l = NLIMBS -> 0 <= fval 29 l < 2 ^ 257.
Proof. intros Hb Hl. do 9 (destruct l as [|? l]; [done|]). destruct l; [|done]. cbn [below fval] in *. lia. Qed.

(** Every loop that ends in [felem_reduce_carry] keeps the value modulo p. *)
Lemma reduce_top l out carry v : length out = NLIMBS -> below 0 29 out -> 0 <= carry -> 0 <= v < 9 * 2 ^ 257 ->
  v = fval 29 out + 2 ^ 257 * carry -> l = felem_reduce_carry out carry ->
  fe l /\ exists k, fval 29 l = v - k * p.
Proof.
  intros Hl Hb Hc Hv He ->. pose proof (below_bound out Hb Hl).
  destruct (felem_reduce_carry_spec out carry Hl Hb ltac:(lia)) as [Hf Hfv]. split; [done|]. exists (2 * carry). lia.
Qed.

Lemma carry_and_reduce_spec words : length words = NLIMBS -> Forall (fun x => 0 <= x <= 2 ^ 32 - 2 ^ 29) words ->
  fe (carry_and_reduce words) /\ exists k, fval 29 (carry_and_reduce words) = fval 29 words - k * p.
Proof.
  intros Hl Hb. unfold carry_and_reduce. pose proof (carry_loop_spec words 29 0 ltac:(auto)) as Hs.
  destruct (carry_loop 29 words 0) as [out carry]. destruct Hs as (Hlo & Hbo & Ht & Hv); [|lia|].
  { eapply Forall_impl; [exact Hb|]. cbn. lia. }
  rewrite Hl in *. change (span 29 NLIMBS) with 257 in Hv.
  pose proof (fval_bound words 29 ltac:(auto) Hb Hl eq_refl). apply (reduce_top _ out carry (fval 29 words)); try done; lia.
Qed.

(** ** Montgomery reduction *)

(** The words of [eliminate29] and [eliminate28] may wrap below zero on the way;
    [tracks] relates them to the integers they stand for. *)
Definition tracks (tmp2 g : list Z) : Prop := tmp2 = limb <$> g.

Lemma limb_limb a : limb (limb a) = limb a.
Proof. apply limb_small, limb_range. Qed.

Lemma shl_bottom x n w : width w -> 0 <= n -> Z.land (shl32 x n) (kBottom w) = (x * 2 ^ n) mod 2 ^ w.
Proof.
  intros Hw Hn. rewrite land_bottom by done. unfold shl32. rewrite limb_mod, Z.shiftl_mul_pow2 by done.
  apply Z.mod_mod_divide. exists (2 ^ (32 - w)). rewrite <- Z.pow_add_r by lia. f_equal. lia.
Qed.
Lemma shl_bottom29 x n : 0 <= n -> Z.land (shl32 x n) kBottom29Bits = (x * 2 ^ n) mod 2 ^ 29.
Proof. apply (shl_bottom x n 29). auto. Qed.
Lemma shl_bottom28 x n : 0 <= n -> Z.land (shl32 x n) kBottom28Bits = (x * 2 ^ n) mod 2 ^ 28.
Proof. apply (shl_bottom x n 28). auto. Qed.

(** The limbs of the same integers are the same: wrapping is moved outwards. *)
Ltac no_limb a := lazymatch a with context [limb _] => fail | _ => idtac end.
Ltac same_limb :=
  repeat match goal with
  | |- context [limb (limb ?a + ?b)] => no_limb a; rewrite (limb_add a b)
  | |- context [limb (limb ?a - ?b)] => no_limb a; rewrite (limb_sub a b)
  | |- context [limb (limb ?a)] => no_limb a; rewrite (limb_limb a)
  | |- context [limb (?a + limb ?b)] => no_limb a; no_limb b; rewrite (limb_add_r a b)
  end; apply (f_equal limb); ring.
Ltac same_limbs := repeat (apply (f_equal2 (@cons Z)); [same_limb|]); reflexivity.

(** The bits of [x << n] in a word of [m] bits, and those that go to the next word. *)
Lemma shl_parts x n m : 0 <= n <= m -> (x * 2 ^ n) mod 2 ^ m = x * 2 ^ n - 2 ^ m * (x / 2 ^ (m - n)).
Proof.
  intros Hn. replace (2 ^ m) with (2 ^ (m - n) * 2 ^ n) by (rewrite <- Z.pow_add_r by lia; f_equal; lia).
  rewrite Z.mul_mod_distr_r, Z.mod_eq by lia. lia.
Qed.

Lemma div_parts x n : 0 <= n -> 2 ^ n * (x / 2 ^ n) <= x < 2 ^ n * (x / 2 ^ n) + 2 ^ n.
Proof. intros Hn. pose proof (Z.mul_div_le x (2 ^ n) ltac:(lia)). pose proof (Z.mul_succ_div_gt x (2 ^ n) ltac:(lia)). lia. Qed.
Ltac parts x n := let H := fresh in pose proof (div_parts x n ltac:(lia)) as H; generalize dependent (x / 2 ^ n).

(** What one step adds to the words from 3 on when it clears the low bits [x]. *)
Lemma eliminate29_spec g0 g1 g2 g3 g4 g5 g6 g7 g8 g9 rest : 0 <= g0 < 2 ^ 32 ->
  exists a3 a4 a6 a7 a8 a9,
    eliminate29 (limb <$> (g0 :: g1 :: g2 :: g3 :: g4 :: g5 :: g6 :: g7 :: g8 :: g9 :: rest)) =
      limb <$> (g1 + g0 / 2 ^ 29 :: g2 :: g3 + a3 :: g4 + a4 :: g5 :: g6 + a6 :: g7 + a7 :: g8 + a8 :: g9 + a9 :: rest) /\
    0 <= a3 < 2 ^ 28 /\ 0 <= a4 < 2 ^ 11 /\ 0 <= a6 < 2 ^ 29 /\ 0 <= a7 < 2 ^ 28 + 2 ^ 21 /\ 0 <= a8 < 2 ^ 30 /\
    -1 <= a9 < 2 ^ 28 /\ (a9 = -1 -> 2 ^ 29 <= a8) /\
    a3 * 2 ^ 86 + a4 * 2 ^ 114 + a6 * 2 ^ 171 + a7 * 2 ^ 200 + a8 * 2 ^ 228 + a9 * 2 ^ 257 = g0 mod 2 ^ 29 * (p + 1).
Proof.
  intros H0. cbn [eliminate29 fmap list_fmap]. cbv zeta. rewrite (limb_small g0) by lia.
  rewrite land_bottom29, (Z.shiftr_div_pow2 g0) by lia. pose proof (Z.mod_pos_bound g0 (2 ^ 29) ltac:(lia)) as Hx.
  set (x := g0 mod 2 ^ 29) in *. clearbody x. rewrite !shl_bottom29, !shl_bottom28, !Z.shiftr_div_pow2 by lia.
  destruct (Z.eq_dec x 0) as [->|Hn].
  - exists 0, 0, 0, 0, 0, 0. rewrite mask_zero, !Z.land_0_r. cbn -[limb Z.pow]. rewrite !Z.add_0_r, !Z.sub_0_r, !limb_limb, limb_add.
    split; [done|]. lia.
  - rewrite mask_ones, !land_all_ones, (limb_small (x - 1)) by lia. change (limb 0x10000000) with (2 ^ 28). change (limb 0x20000000) with (2 ^ 29).
    exists ((x * 2 ^ 10) mod 2 ^ 28), (x / 2 ^ 18), ((x * 2 ^ 21) mod 2 ^ 29), (x / 2 ^ 8 + 2 ^ 28 - (x * 2 ^ 24) mod 2 ^ 28),
      (2 ^ 29 - 1 - x / 2 ^ 4 + (x * 2 ^ 28) mod 2 ^ 29), (x / 2 ^ 1 - 1).
    split; [same_limbs|]. rewrite !shl_parts by lia. change (28 - 10) with 18. change (29 - 21) with 8. change (28 - 24) with 4. change (29 - 28) with 1.
    parts x 18. parts x 8. parts x 4. parts x 1. unfold p. intros. lia.
Qed.

Lemma eliminate28_spec g1 g2 g3 g4 g5 g6 g7 g8 g9 g10 rest : 0 <= g1 < 2 ^ 32 ->
  exists a4 a5 a7 a8 a9 a10,
    eliminate28 (limb <$> (g1 :: g2 :: g3 :: g4 :: g5 :: g6 :: g7 :: g8 :: g9 :: g10 :: rest)) =
      limb <$> (g2 + g1 / 2 ^ 28 :: g3 :: g4 + a4 :: g5 + a5 :: g6 :: g7 + a7 :: g8 + a8 :: g9 + a9 :: g10 + a10 :: rest) /\
    0 <= a4 < 2 ^ 29 /\ 0 <= a5 < 2 ^ 10 /\ 0 <= a7 < 2 ^ 28 /\ 0 <= a8 < 2 ^ 29 + 2 ^ 21 /\ 0 <= a9 < 2 ^ 28 /\ 0 <= a10 < 2 ^ 28 /\
    a4 * 2 ^ 85 + a5 * 2 ^ 114 + a7 * 2 ^ 171 + a8 * 2 ^ 199 + a9 * 2 ^ 228 + a10 * 2 ^ 256 = g1 mod 2 ^ 28 * (p + 1).
Proof.
  intros H1. cbn [eliminate28 fmap list_fmap]. cbv zeta. rewrite (limb_small g1) by lia.
  rewrite land_bottom28, (Z.shiftr_div_pow2 g1) by lia. pose proof (Z.mod_pos_bound g1 (2 ^ 28) ltac:(lia)) as Hx.
  set (x := g1 mod 2 ^ 28) in *. clearbody x. rewrite !shl_bottom29, !shl_bottom28, !Z.shiftr_div_pow2 by lia.
  destruct (Z.eq_dec x 0) as [->|Hn].
  - exists 0, 0, 0, 0, 0, 0. rewrite mask_zero, !Z.land_0_r. cbn -[limb Z.pow]. rewrite !Z.add_0_r, !Z.sub_0_r, !limb_limb, limb_add.
    split; [done|]. lia.
  - rewrite mask_ones, !land_all_ones by lia. change (limb 0x10000000) with (2 ^ 28). change (limb 0x20000000) with (2 ^ 29).
    exists ((x * 2 ^ 11) mod 2 ^ 29), (x / 2 ^ 18), ((x * 2 ^ 21) mod 2 ^ 28), (x / 2 ^ 7 + 2 ^ 29 - (x * 2 ^ 25) mod 2 ^ 29),
      (2 ^ 28 - 1 - x / 2 ^ 4), (x - 1).
    split; [same_limbs|]. rewrite !shl_parts by lia. change (29 - 11) with 18. change (28 - 21) with 7. change (29 - 25) with 4.
    parts x 18. parts x 7. parts x 4. unfold p. intros. lia.
Qed.

(** The widths of the limbs, computed. *)
Ltac widths := repeat first [progress change (57 - 29) with 28 | progress change (57 - 28) with 29].

(** An equation that follows from two others. *)
Lemma combine2 a b c d x y m n : a = b -> c = d -> x - y = m * (a - b) + n * (c - d) -> x = y.
Proof. intros -> -> Hxy. lia. Qed.

(** ** Multiplication by four and by eight *)

Lemma scalar_limb n w x carry : n = 2 \/ n = 3 -> width w -> 0 <= x < 2 ^ (w + 1) -> 0 <= carry < 32 ->
  let out := limb (Z.land (shl32 x n) (kBottom w) + carry) in
  let next := limb (Z.shiftr x (w - n) + Z.shiftr out w) in
  0 <= next < 32 /\ x * 2 ^ n + carry = Z.land out (kBottom w) + 2 ^ w * next.
Proof.
  intros Hn Hw Hx Hc. cbv zeta. rewrite shl_bottom, shl_parts, (Z.shiftr_div_pow2 x) by lia. pose proof (div_parts x (w - n) ltac:(lia)) as Hd.
  set (q := x / 2 ^ (w - n)) in *. clearbody q.
  assert (0 <= q < 16 /\ 0 <= x * 2 ^ n - 2 ^ w * q < 2 ^ w /\ 2 ^ w <= 2 ^ 29) as (Hq & Hr & Hp)
    by (destruct Hn as [-> | ->], Hw as [-> | ->]; cbn in *; lia).
  rewrite (limb_small (_ + carry)) by lia. set (out := x * 2 ^ n - 2 ^ w * q + carry) in *.
  pose proof (bottom_top out w Hw) as Hb. pose proof (shiftr_range out w Hw ltac:(lia)) as Hs. rewrite limb_small by lia.
  split; [lia|]. rewrite Z.mul_add_distr_l. lia.
Qed.

Lemma scalar_loop_spec n words : n = 2 \/ n = 3 -> forall w carry, width w -> below 1 w words -> 0 <= carry < 32 ->
  let '(outs, top) := scalar_loop n w words carry in
  length outs = length words /\ below 0 w outs /\ 0 <= top /\ fval w words * 2 ^ n + carry = fval w outs + 2 ^ span w (length words) * top.
Proof.
  intros Hn. induction words as [|x words IH]; intros w carry Hw Hb Hc; [cbn; lia|]. destruct Hb as [Hx Hb].
  cbn [scalar_loop]. cbv zeta. destruct (scalar_limb n w x carry Hn Hw Hx Hc) as [Hnext He]. cbv zeta in Hnext, He.
  set (out := limb (Z.land (shl32 x n) (kBottom w) + carry)) in *. set (next := limb (Z.shiftr x (w - n) + _)) in *.
  specialize (IH (57 - w) next ltac:(lia) Hb Hnext). destruct (scalar_loop n (57 - w) words next) as [outs top].
  destruct IH as (Hl & Hbo & Ht & Hv). cbn [length below fval span]. split_and!; [lia|apply bottom_range; done|apply bottom_range; done|done|done|].
  rewrite Z.pow_add_r by (pose proof (span_nonneg (length words) (57 - w)); lia). apply (combine2 _ _ _ _ _ _ 1 (2 ^ w) He Hv). ring.
Qed.

(** Both leave the value, multiplied, modulo p. *)
Lemma scalar_reduce n l : n = 2 \/ n = 3 -> fe l ->
  let '(out, carry) := scalar_loop n 29 l 0 in
  fe (felem_reduce_carry out carry) /\ exists k, fval 29 (felem_reduce_carry out carry) = fval 29 l * 2 ^ n - k * p.
Proof.
  intros Hn (Hl & Hb & Ht). pose proof (scalar_loop_spec n l Hn 29 0 ltac:(auto) Hb ltac:(lia)) as Hs.
  destruct (scalar_loop n 29 l 0) as [out carry]. destruct Hs as (Hlo & Hbo & Hc & Hv). rewrite Hl in *. change (span 29 NLIMBS) with 257 in Hv.
  apply (reduce_top _ out carry (fval 29 l * 2 ^ n)); try done; [|lia].
  do 9 (destruct l as [|? l]; [done|]). destruct l; [|done]. cbn [below nth fval] in *. widths. destruct Hn as [-> | ->]; lia.
Qed.

(** Two neighbouring words while terms are eliminated: the upper one may have gone
    below zero only if the lower one carries into it. *)
Definition carried (e o : Z) : Prop := 0 <= e /\ -1 <= o /\ (o = -1 -> 2 ^ 29 <= e).
(** The words before a round: only those that a round has changed can be negative. *)
Definition eliminable (g : list Z) : Prop :=
  match g with
  | e0 :: o0 :: e1 :: o1 :: e2 :: o2 :: e3 :: o3 :: rest =>
      carried e0 o0 /\ carried e1 o1 /\ carried e2 o2 /\ carried e3 o3 /\ Forall (fun x => 0 <= x) rest
  | _ => False
  end.
(** How much a round adds at most, to the words that remain. *)
Definition bump (u : list Z) : list Z :=
  match u with
  | _ :: _ :: u2 :: u3 :: u4 :: u5 :: u6 :: u7 :: u8 :: u9 :: u10 :: rest =>
      u2 + 16 :: u3 + 2 ^ 28 :: u4 + 2 ^ 29 + 2 ^ 11 :: u5 + 2 ^ 10 :: u6 + 2 ^ 29 :: u7 + 2 ^ 29 + 2 ^ 21 ::
      u8 + 2 ^ 30 + 2 ^ 29 + 2 ^ 21 :: u9 + 2 ^ 29 :: u10 + 2 ^ 28 :: rest
  | _ => []
  end.
Definition readable (u : list Z) : Prop :=
  match u with u0 :: u1 :: _ => u0 < 2 ^ 32 /\ u1 + 16 < 2 ^ 32 | _ => False end.

Ltac forall2_inv :=
  repeat match goal with
  | H : Forall2 _ (_ :: _) _ |- _ => let u := fresh "u" in let us := fresh "us" in apply Forall2_cons_inv_l in H as (u & us & ? & H & ->)
  end.

Lemma eliminate_round g u : (11 <= length g)%nat -> eliminable g -> Forall2 Z.le g u -> readable u ->
  exists g', eliminate28 (eliminate29 (limb <$> g)) = limb <$> g' /\ eliminable g' /\ Forall2 Z.le g' (bump u) /\
    length g = S (S (length g')) /\ exists k, 0 <= k < 2 ^ 57 /\ 2 ^ 57 * fval 29 g' = fval 29 g + k * p.
Proof.
  intros Hl He Hu Hr. do 11 (destruct g as [|? g]; [cbn [length] in Hl; lia|]). clear Hl. cbn [eliminable] in He.
  rewrite !Forall_cons in He. unfold carried in He. forall2_inv. cbn [readable] in Hr.
  destruct (eliminate29_spec z z0 z1 z2 z3 z4 z5 z6 z7 z8 (z9 :: g)) as (a3 & a4 & a6 & a7 & a8 & a9 & -> & Ha); [lia|].
  pose proof (div_parts z 29 ltac:(lia)) as Hz. pose proof (Z.mod_eq z (2 ^ 29) ltac:(lia)) as Hm. rewrite Hm in Ha. clear Hm.
  set (q := z / 2 ^ 29) in *. clearbody q.
  destruct (eliminate28_spec (z0 + q) z1 (z2 + a3) (z3 + a4) z4 (z5 + a6) (z6 + a7) (z7 + a8) (z8 + a9) z9 g)
    as (b4 & b5 & b7 & b8 & b9 & b10 & -> & Hb); [lia|].
  pose proof (div_parts (z0 + q) 28 ltac:(lia)) as Hz0. pose proof (Z.mod_eq (z0 + q) (2 ^ 28) ltac:(lia)) as Hm. rewrite Hm in Hb. clear Hm.
  set (q0 := (z0 + q) / 2 ^ 28) in *. clearbody q0. eexists. split; [reflexivity|]. split_and!.
  - cbn [eliminable]. rewrite !Forall_cons. unfold carried. split_and!; try lia. tauto.
  - cbn [bump]. repeat (constructor; [lia|]). done.
  - done.
  - exists (z - 2 ^ 29 * q + 2 ^ 29 * (z0 + q - 2 ^ 28 * q0)). split; [lia|]. cbn [fval]. widths.
    destruct Ha as (_ & _ & _ & _ & _ & _ & _ & Ha). destruct Hb as (_ & _ & _ & _ & _ & _ & Hb). generalize dependent p. intros p' Ha Hb.
    apply (combine2 _ _ _ _ _ _ 1 (2 ^ 29) Ha Hb). ring.
Qed.

(** The words above 2^257 as the shift reads them: the lower word of a pair may be
    negative if the pair before carries into it. *)
Fixpoint shiftable (least : Z) (g : list Z) : Prop :=
  match g with
  | [o] => 0 <= o + least /\ o < 2 ^ 32 - 32
  | o :: e :: rest =>
      0 <= o + least /\ o < 2 ^ 32 - 2 ^ 30 /\ 0 <= e < 2 ^ 32 /\ shiftable (if 2 ^ 29 <=? e then 1 else 0) rest
  | [] => False
  end.

Lemma carried_least e o : carried e o -> 0 <= o + (if 2 ^ 29 <=? e then 1 else 0).
Proof. unfold carried. destruct (Z.leb_spec (2 ^ 29) e); lia. Qed.

Definition last_bounds (u : list Z) : Prop :=
  match u with
  | [_; o0; e1; o1; e2; o2; e3; o3; e4; o4] =>
      o0 < 2 ^ 31 /\ e1 < 2 ^ 32 /\ o1 < 2 ^ 31 /\ e2 < 3 * 2 ^ 30 /\ o2 < 2 ^ 31 /\ e3 < 3 * 2 ^ 30 /\ o3 < 2 ^ 31 /\ e4 < 3 * 2 ^ 30 /\
      o4 < 2 ^ 31 + 2 ^ 29
  | _ => False
  end.

(** The last half round. *)
Lemma eliminate_last g u : length g = 10%nat -> eliminable g -> Forall2 Z.le g u -> readable u ->
  last_bounds u ->
  exists g', eliminate29 (limb <$> g) = limb <$> g' /\ length g' = 9%nat /\ shiftable 0 g' /\ fval 28 g' < 8 * 2 ^ 257 /\
    exists k, 0 <= k < 2 ^ 29 /\ 2 ^ 29 * fval 28 g' = fval 29 g + k * p.
Proof.
  intros Hl He Hu Hr Hb. do 10 (destruct g as [|? g]; [done|]). destruct g; [|done]. clear Hl. cbn [eliminable] in He.
  rewrite !Forall_cons in He. unfold carried in He. forall2_inv. cbn [readable] in Hr. 
  match type of Hu with Forall2 _ [] ?us => destruct us; [|by inversion Hu] end. cbn [last_bounds] in Hb.
  destruct (eliminate29_spec z z0 z1 z2 z3 z4 z5 z6 z7 z8 []) as (a3 & a4 & a6 & a7 & a8 & a9 & -> & Ha); [lia|].
  pose proof (div_parts z 29 ltac:(lia)) as Hz. pose proof (Z.mod_eq z (2 ^ 29) ltac:(lia)) as Hm. rewrite Hm in Ha. clear Hm.
  set (q := z / 2 ^ 29) in *. clearbody q. eexists. split; [reflexivity|]. split_and!; [done| | |].
  - cbn [shiftable]. split_and!; try (apply carried_least; unfold carried); lia.
  - cbn [fval]. widths. lia.
  - exists (z - 2 ^ 29 * q). split; [lia|]. cbn [fval]. widths. destruct Ha as (_ & _ & _ & _ & _ & _ & _ & Ha).
    generalize dependent p. intros p' Ha. apply (combine2 _ _ _ _ _ _ 1 0 Ha Ha). ring.
Qed.

Lemma shift_loop_spec n : forall least g carry, length g = S (2 * n) -> shiftable least g -> least <= carry < 32 ->
  let '(outs, top) := shift_loop (limb <$> g) carry in
  length outs = length g /\ below 0 29 outs /\ 0 <= top /\ fval 28 g + carry = fval 29 outs + 2 ^ span 29 (length g) * top.
Proof.
  induction n as [|n IH]; intros least g carry Hl Hs Hc.
  - destruct g as [|o [|? ?]]; try done. cbn [shift_loop fmap list_fmap]. cbn [shiftable] in Hs. cbv zeta. limbs.
    pose proof (bottom_top (o + carry) 29 ltac:(auto)). pose proof (bottom_range (o + carry) 29 ltac:(auto)).
    pose proof (shiftr_range (o + carry) 29 ltac:(auto) ltac:(lia)). change (kBottom 29) with kBottom29Bits in *.
    cbn [length below fval span]. split_and!; lia.
  - destruct g as [|o [|e g]]; try done. cbn [shiftable] in Hs. cbn [fmap list_fmap shift_loop]. cbv zeta.
    destruct Hs as (Ho & Hob & He & Hs). rewrite (limb_small e), (limb_add o), (limb_add (o + carry)), shl_bottom29 by lia.
    rewrite shl_parts by lia. change (29 - 28) with 1. rewrite (Z.shiftr_div_pow2 e 1) by lia. pose proof (div_parts e 1 ltac:(lia)) as Hd.
    set (q := e / 2 ^ 1) in *. clearbody q. rewrite (limb_small (o + carry + _)) by lia.
    set (out0 := o + carry + (e * 2 ^ 28 - 2 ^ 29 * q)). pose proof (bottom_top out0 29 ltac:(auto)) as H0.
    pose proof (bottom_range out0 29 ltac:(auto)) as Hr0. pose proof (shiftr_range out0 29 ltac:(auto) ltac:(lia)) as Hs0.
    rewrite limb_small by lia. set (out1 := q + Z.shiftr out0 29). pose proof (bottom_top out1 28 ltac:(auto)) as H1.
    pose proof (bottom_range out1 28 ltac:(auto)) as Hr1. pose proof (shiftr_range out1 28 ltac:(auto) ltac:(lia)) as Hs1.
    change (kBottom 29) with kBottom29Bits in *. change (kBottom 28) with kBottom28Bits in *.
    specialize (IH _ g (Z.shiftr out1 28) ltac:(cbn [length] in Hl; lia) Hs). destruct (shift_loop _ _) as [outs top].
    destruct IH as (Hlo & Hbo & Ht & Hv); [destruct (Z.leb_spec (2 ^ 29) e); lia|].
    cbn [length below fval span]. widths. replace (2 ^ (29 + (28 + span 29 (length g)))) with (2 ^ 57 * 2 ^ span 29 (length g))
      by (rewrite <- Z.pow_add_r by (pose proof (span_nonneg (length g) 29); lia); f_equal; lia).
    rewrite <- (Z.mul_assoc (2 ^ 57)). generalize dependent (2 ^ span 29 (length g) * top). intros m Hv.
    assert (out0 = o + carry + (e * 2 ^ 28 - 2 ^ 29 * q)) as E0 by done. assert (out1 = q + Z.shiftr out0 29) as E1 by done.
    clearbody out0 out1. split_and!; [lia|lia|lia|lia|lia|done|lia|lia].
Qed.

(** ** The words of a product *)

Notation is_wide t := (0 <= t < 2 ^ 64).

(** The limbs have their widths, but for the last one. *)
Fixpoint below_but_last (w : Z) (l : list Z) : Prop :=
  match l with
  | [] => False
  | [x] => 0 <= x < 2 ^ 31 + 2 ^ 9
  | x :: l => 0 <= x < 2 ^ w /\ below_but_last (57 - w) l
  end.

(** A 64-bit word is read in two halves. *)
Lemma high_half t : is_wide t -> limb (Z.shiftr t 32) = t / 2 ^ 32.
Proof. intros Ht. rewrite Z.shiftr_div_pow2 by lia. apply limb_small. Z.div_mod_to_equations. lia. Qed.
Lemma div_57 t : t / 2 ^ 32 / 2 ^ 25 = t / 2 ^ 57.
Proof. by rewrite Z.div_div by lia. Qed.
Lemma div_halves t k : 0 <= k <= 32 -> t / 2 ^ k = t / 2 ^ 32 * 2 ^ (32 - k) + t mod 2 ^ 32 / 2 ^ k.
Proof.
  intros Hk. rewrite (Z.div_mod t (2 ^ 32)) at 1 by lia. rewrite <- Z.div_add_l by lia. f_equal.
  rewrite <- Z.mul_assoc, <- Z.pow_add_r by lia. replace (32 - k + k) with 32 by lia. lia.
Qed.

(** The bits of a word that belong to the word above, taken from its two halves. *)
Lemma middle_bits t w : width w -> is_wide t ->
  Z.shiftr (limb t) (57 - w) + Z.land (shl32 (limb (Z.shiftr t 32)) (32 - (57 - w))) (kBottom w) =
    t / 2 ^ (57 - w) - 2 ^ w * (t / 2 ^ 57).
Proof.
  intros Hw Ht. rewrite high_half, shl_bottom, limb_mod, Z.shiftr_div_pow2, shl_parts by lia.
  replace (w - (32 - (57 - w))) with 25 by lia. rewrite div_57, (div_halves t (57 - w)) by lia. lia.
Qed.

Lemma middle_range t w : width w -> 0 <= t / 2 ^ (57 - w) - 2 ^ w * (t / 2 ^ 57) < 2 ^ w.
Proof.
  pose proof (div_parts t 57 ltac:(lia)). intros [-> | ->]; widths; [pose proof (div_parts t 28 ltac:(lia))|pose proof (div_parts t 29 ltac:(lia))]; lia.
Qed.
Lemma low_bits t w : width w -> Z.land (limb t) (kBottom w) = t - 2 ^ w * (t / 2 ^ w).
Proof.
  intros Hw. rewrite land_bottom, limb_mod, Z.mod_mod_divide, Z.mod_eq by (done || lia || (exists (2 ^ (32 - w)); rewrite <- Z.pow_add_r by lia; f_equal; lia)).
  done.
Qed.

Lemma split_loop_spec tmp : forall w t2 t1 carry, w = (if Nat.even (length tmp) then 28 else 29) ->
  is_wide t2 -> is_wide t1 -> Forall (fun t => is_wide t) tmp -> 0 <= carry < 16 ->
  (forall t, last (t1 :: tmp) = Some t -> t < 2 ^ 60) ->
  below_but_last w (split_loop w t2 t1 tmp carry) /\ length (split_loop w t2 t1 tmp carry) = S (length tmp) /\
  fval w (split_loop w t2 t1 tmp carry) = t2 / 2 ^ 57 + t1 / 2 ^ (57 - w) + carry + fval w tmp.
Proof.
  induction tmp as [|t tmp IH]; intros w t2 t1 carry Hw H2 H1 Ht Hc Hlast.
  - cbn [length Nat.even] in Hw. subst w. specialize (Hlast t1 eq_refl). cbn [split_loop]. cbv zeta. rewrite (high_half t2), (high_half t1) by done.
    unfold shl32. rewrite (limb_mod t1), !Z.shiftr_div_pow2, div_57, Z.shiftl_mul_pow2 by lia. change (57 - 28) with 29.
    pose proof (div_halves t1 29 ltac:(lia)) as Hd. change (32 - 29) with 3 in Hd. pose proof (div_parts t1 29 ltac:(lia)).
    pose proof (div_parts t2 57 ltac:(lia)). pose proof (div_parts (t1 mod 2 ^ 32) 29 ltac:(lia)).
    pose proof (Z.mod_pos_bound t1 (2 ^ 32) ltac:(lia)). limbs. cbn [below_but_last fval length]. split_and!; lia.
  - apply Forall_cons in Ht as [Ht Htmp]. assert (width w) as Hwd by (rewrite Hw; case_match; lia).
    cbn [split_loop]. cbv zeta. rewrite (high_half t2), (Z.shiftr_div_pow2 _ 25), div_57 by lia. pose proof (middle_bits t1 w Hwd H1) as Hm.
    rewrite (low_bits t) by done. pose proof (div_parts t1 57 ltac:(lia)). pose proof (div_parts t2 57 ltac:(lia)). pose proof (div_parts t w ltac:(lia)).
    set (b := Z.shiftr (limb t1) (57 - w)) in *. set (c := Z.land (shl32 _ _) _) in *.
    set (word := limb (limb (limb (limb (t2 / 2 ^ 57 + b) + c) + (t - 2 ^ w * (t / 2 ^ w))) + carry)).
    assert (word = t2 / 2 ^ 57 + (t1 / 2 ^ (57 - w) - 2 ^ w * (t1 / 2 ^ 57)) + (t - 2 ^ w * (t / 2 ^ w)) + carry) as Hword.
    { pose proof (middle_range t1 w Hwd). assert (2 ^ w <= 2 ^ 29) by (destruct Hwd as [-> | ->]; lia).
      unfold word. rewrite (limb_add (t2 / 2 ^ 57 + b)), (limb_add (t2 / 2 ^ 57 + b + c)), limb_add, limb_small by lia. lia. }
    pose proof (bottom_top word w Hwd) as Hb. pose proof (bottom_range word w Hwd) as Hr. rewrite Z.add_0_r in Hr.
    pose proof (shiftr_range word w Hwd (limb_range _)) as Hs.
    destruct (IH (57 - w) t1 t (Z.shiftr word w)) as (IHb & IHl & IHv); try done.
    { rewrite Hw. cbn [length]. rewrite Nat.even_succ, <- Nat.negb_even. by destruct (Nat.even (length tmp)). }
    replace (57 - (57 - w)) with w in IHv by lia. clearbody word. cbn [below_but_last length fval]. split_and!.
    + destruct (split_loop (57 - w) t1 t tmp (Z.shiftr word w)); [done|split; done].
    + lia.
    + rewrite IHv. apply (combine2 _ _ _ _ _ _ 1 (-1) Hword Hb). ring.
Qed.

(** The only place where the code joins the two halves with [|]: they do not overlap. *)
Lemma join_halves t : is_wide t ->
  Z.lor (Z.shiftr (limb t) 29) (Z.land (shl32 (limb (Z.shiftr t 32)) 3) kBottom28Bits) =
  Z.shiftr (limb t) 29 + Z.land (shl32 (limb (Z.shiftr t 32)) 3) kBottom28Bits.
Proof.
  intros Ht. rewrite shl_bottom28, high_half by (done || lia). replace ((t / 2 ^ 32 * 2 ^ 3) mod 2 ^ 28) with (Z.shiftl ((t / 2 ^ 32) mod 2 ^ 25) 3).
  - rewrite Z.lor_comm, lor_shiftl_add, Z.shiftl_mul_pow2 by (lia || (pose proof (limb_range t); rewrite Z.shiftr_div_pow2 by lia; Z.div_mod_to_equations; lia)).
    lia.
  - rewrite Z.shiftl_mul_pow2 by lia. change (2 ^ 28) with (2 ^ 25 * 2 ^ 3). rewrite Z.mul_mod_distr_r; lia.
Qed.

Lemma split_words_spec tmp : length tmp = 17%nat -> Forall (fun t => is_wide t) tmp -> (forall t, last tmp = Some t -> t < 2 ^ 60) ->
  below_but_last 29 (split_words tmp) /\ length (split_words tmp) = 18%nat /\ fval 29 (split_words tmp) = fval 29 tmp.
Proof.
  intros Hl Hw Hlast. destruct tmp as [|t0 [|t1 tmp]]; try done. rewrite !Forall_cons in Hw. destruct Hw as (H0 & H1 & Hw).
  cbn [split_words]. cbv zeta. rewrite join_halves by done. pose proof (middle_bits t0 28 ltac:(auto) H0) as Hm. pose proof (middle_range t0 28 ltac:(auto)) as Hmr.
  change (57 - 28) with 29 in *. change (32 - 29) with 3 in Hm. change (kBottom 28) with kBottom28Bits in Hm. rewrite Hm.
  pose proof (low_bits t1 28 ltac:(auto)) as Hlow. change (kBottom 28) with kBottom28Bits in Hlow. rewrite Hlow.
  pose proof (div_parts t1 28 ltac:(lia)). rewrite land_bottom29, (Z.mod_eq t0) by lia. pose proof (div_parts t0 29 ltac:(lia)).
  rewrite !limb_small by lia. set (word := t0 / 2 ^ 29 - 2 ^ 28 * (t0 / 2 ^ 57) + (t1 - 2 ^ 28 * (t1 / 2 ^ 28))).
  pose proof (bottom_top word 28 ltac:(auto)) as Hb. pose proof (bottom_range word 28 ltac:(auto)) as Hr.
  pose proof (shiftr_range word 28 ltac:(auto) ltac:(lia)) as Hs. change (kBottom 28) with kBottom28Bits in *.
  destruct (split_loop_spec tmp 29 t0 t1 (Z.shiftr word 28)) as (Hbl & Hlen & Hv); try done.
  { injection Hl as Hl. by rewrite Hl. }
  cbn [length] in *. split_and!.
  - cbn [below_but_last]. widths. destruct (split_loop 29 t0 t1 tmp (Z.shiftr word 28)); [done|]. split_and!; done || lia.
  - lia.
  - cbn [fval]. widths. rewrite Hv. change (57 - 29) with 28. unfold word at 1 in Hb. apply (combine2 _ _ _ _ _ _ (- 2 ^ 29) 0 Hb Hb). ring.
Qed.

Fixpoint rounds_ok (n : nat) (u : list Z) : Prop :=
  match n with O => readable u /\ last_bounds u | S n => readable u /\ rounds_ok n (bump u) end.

Lemma eliminate_spec n : forall g u, length g = (10 + 2 * n)%nat -> eliminable g -> Forall2 Z.le g u -> rounds_ok n u ->
  exists g', eliminate n (limb <$> g) = limb <$> g' /\ length g' = 9%nat /\ shiftable 0 g' /\ fval 28 g' < 8 * 2 ^ 257 /\
    exists k, 0 <= k < 2 ^ (57 * Z.of_nat n + 29) /\ 2 ^ (57 * Z.of_nat n + 29) * fval 28 g' = fval 29 g + k * p.
Proof.
  induction n as [|n IH]; intros g u Hl He Hu Hr.
  - destruct Hr as [Hr Hb]. exact (eliminate_last g u Hl He Hu Hr Hb).
  - destruct Hr as [Hr Hn]. cbn [eliminate]. destruct (eliminate_round g u) as (g1 & -> & He1 & Hu1 & Hl1 & k1 & Hr1 & Hk1); [lia|done..|].
    destruct (IH g1 (bump u)) as (g' & -> & Hl' & Hs & Hb & k & Hrk & Hk); [lia|done..|]. exists g'. split_and!; try done.
    exists (k1 + 2 ^ 57 * k). replace (57 * Z.of_nat (S n) + 29) with (57 + (57 * Z.of_nat n + 29)) by lia.
    rewrite Z.pow_add_r by lia. split; [nia|]. rewrite <- Z.mul_assoc, Hk. lia.
Qed.

(** Bounds on the eighteen words before the elimination. *)
Definition split_bounds : list Z :=
  let a := 2 ^ 29 in let b := 2 ^ 28 in
  [a; b; a; b; a; b; a; b; a; b; a; b; a; b; a; b; a; 2 ^ 31 + 2 ^ 9].

Lemma split_eliminable g : length g = 18%nat -> below_but_last 29 g ->
  limb <$> g = g /\ eliminable g /\ Forall2 Z.le g split_bounds.
Proof.
  intros Hl Hb. do 18 (destruct g as [|? g]; [done|]). destruct g; [|done]. clear Hl. cbn [below_but_last] in Hb. widths.
  split_and!.
  - cbn [fmap list_fmap]. rewrite !limb_small by lia. done.
  - cbn [eliminable]. unfold carried. rewrite !Forall_cons. split_and!; lia || done.
  - unfold split_bounds. cbv zeta. repeat (constructor; [lia|]). constructor.
Qed.

Lemma split_rounds_ok : rounds_ok 4 split_bounds.
Proof. cbn [rounds_ok bump split_bounds readable last_bounds]. lia. Qed.

(** Montgomery reduction: the limbs are in bounds and their value is that of
    the words divided by R = 2^257, modulo p. The highest word must have fewer
    than 60 bits, which the products of field elements satisfy. A value of the
    size of such a product is below 2^257 afterwards. *)
Lemma felem_reduce_degree_spec tmp : length tmp = 17%nat -> Forall (fun t => is_wide t) tmp -> (forall t, last tmp = Some t -> t < 2 ^ 60) ->
  fe (felem_reduce_degree tmp) /\ (exists k, 2 ^ 257 * fval 29 (felem_reduce_degree tmp) = fval 29 tmp + k * p) /\
  (fval 29 tmp < 2 ^ 514 + 2 ^ 489 -> fval 29 (felem_reduce_degree tmp) < 2 ^ 257).
Proof.
  intros Hl Hw Hlast. destruct (split_words_spec tmp Hl Hw Hlast) as (Hb & Hl18 & Hv). unfold felem_reduce_degree.
  destruct (split_eliminable _ Hl18 Hb) as (Hlimb & He & Hu). rewrite <- Hlimb.
  destruct (eliminate_spec 4 _ _ Hl18 He Hu split_rounds_ok) as (g & -> & Hl9 & Hs & Hlt & k & Hrk & Hk).
  pose proof (shift_loop_spec 4 0 g 0 Hl9 Hs ltac:(lia)) as Hsh. destruct (shift_loop (limb <$> g) 0) as [out carry].
  rewrite Hl9 in Hsh. destruct Hsh as (Hlo & Hbo & Ht & Hvo). change (span 29 9) with 257 in Hvo. change (57 * Z.of_nat 4 + 29) with 257 in Hk, Hrk.
  pose proof (below_bound out Hbo Hlo). destruct (felem_reduce_carry_spec out carry Hlo Hbo ltac:(lia)) as [Hf Hm].
  split; [done|]. rewrite Hm. split; [exists (k - 2 ^ 258 * carry); lia|]. intros Hsmall. pose proof p_bounds. rewrite Hv in Hk.
  assert (fval 28 g < 2 ^ 257 + 2 ^ 256 + 2 ^ 233) by nia. assert (carry = 0 \/ carry = 1) as [-> | ->] by lia; lia.
Qed.

(** ** Products *)

(** Bounds on sums of products. *)
Definition within (k z : Z) : Prop := 0 <= z <= k.
Lemma within_add k m a b : within k a -> within m b -> within (k + m) (a + b).
Proof. unfold within. lia. Qed.
Lemma within_mul k m a b : within k a -> within m b -> within (k * m) (a * b).
Proof. unfold within. nia. Qed.
Lemma within_pow n : 0 <= n -> within (2 ^ n) (2 ^ n).
Proof. unfold within. lia. Qed.
Lemma wide_within k z : within k z -> k < 2 ^ 64 -> wide z = z.
Proof. unfold within. intros Hz Hk. apply wide_small. lia. Qed.
Lemma wide_range z : is_wide (wide z).
Proof. unfold wide. change 0xffffffffffffffff with (Z.ones 64). rewrite Z.land_ones by lia. apply Z.mod_pos_bound. lia. Qed.
Ltac within :=
  lazymatch goal with
  | |- within _ (_ + _) => eapply within_add; within
  | |- within _ (_ * _) => eapply within_mul; within
  | |- within _ (2 ^ _) => apply within_pow; lia
  | _ => eassumption
  end.
(** No sum of products wraps at 64 bits. *)
Ltac wides := repeat match goal with |- context [wide ?z] => rewrite (wide_within _ z ltac:(within)) by (by apply Z.ltb_lt; vm_compute) end.

Lemma shl_within k a n : within k a -> 0 <= n -> k * 2 ^ n < 2 ^ 32 -> shl32 a n = a * 2 ^ n.
Proof. unfold within. intros Ha Hn Hk. unfold shl32. rewrite Z.shiftl_mul_pow2 by done. apply limb_small. nia. Qed.
Ltac shls := repeat match goal with |- context [shl32 ?a ?n] => rewrite (shl_within _ a n ltac:(eassumption)) by lia end.

(** The limbs of a field element, one by one. *)
Lemma fe_limbs l : fe l -> exists x0 x1 x2 x3 x4 x5 x6 x7 x8, l = [x0; x1; x2; x3; x4; x5; x6; x7; x8] /\
  within (2 ^ 30 - 1) x0 /\ within (2 ^ 29 - 1) x1 /\ within (2 ^ 30 - 1) x2 /\ within (2 ^ 29 - 1) x3 /\ within (2 ^ 30 - 1) x4 /\
  within (2 ^ 29 - 1) x5 /\ within (2 ^ 30 - 1) x6 /\ within (2 ^ 29 - 1) x7 /\ within (2 ^ 29 - 1) x8.
Proof.
  intros (Hl & Hb & Ht). do 9 (destruct l as [|? l]; [done|]). destruct l; [|done]. cbn [below nth] in Hb, Ht. widths. unfold within.
  repeat eexists; lia.
Qed.

(** The words of a product are the sums of the products of limbs whose positions
    add up; where two odd positions meet there is one bit more. *)
Lemma felem_mul_words a b : fe a -> fe b -> exists tmp,
  felem_mul a b = felem_reduce_degree tmp /\ length tmp = 17%nat /\ Forall (fun t => is_wide t) tmp /\
  (forall t, last tmp = Some t -> t < 2 ^ 60) /\ fval 29 tmp = fval 29 a * fval 29 b.
Proof.
  intros (a0 & a1 & a2 & a3 & a4 & a5 & a6 & a7 & a8 & -> & ? & ? & ? & ? & ? & ? & ? & ? & ?)%fe_limbs.
  intros (b0 & b1 & b2 & b3 & b4 & b5 & b6 & b7 & b8 & -> & ? & ? & ? & ? & ? & ? & ? & ? & ?)%fe_limbs.
  eexists. split; [reflexivity|]. split; [done|]. split; [repeat (constructor; [apply wide_range|]); constructor|].
  shls. wides. split.
  - intros t [= <-]. apply (Z.le_lt_trans _ ((2 ^ 29 - 1) * (2 ^ 29 - 1))); [|done]. by apply within_mul.
  - cbn [fval]. widths. ring.
Qed.

Lemma felem_square_words a : fe a -> exists tmp,
  felem_square a = felem_reduce_degree tmp /\ length tmp = 17%nat /\ Forall (fun t => is_wide t) tmp /\
  (forall t, last tmp = Some t -> t < 2 ^ 60) /\ fval 29 tmp = fval 29 a * fval 29 a.
Proof.
  intros (a0 & a1 & a2 & a3 & a4 & a5 & a6 & a7 & a8 & -> & ? & ? & ? & ? & ? & ? & ? & ? & ?)%fe_limbs.
  eexists. split; [reflexivity|]. split; [done|]. split; [repeat (constructor; [apply wide_range|]); constructor|].
  shls. wides. split.
  - intros t [= <-]. apply (Z.le_lt_trans _ ((2 ^ 29 - 1) * (2 ^ 29 - 1))); [|done]. by apply within_mul.
  - cbn [fval]. widths. ring.
Qed.

(** ** The minimal form *)

Lemma felem_reduce_carry_0 l : length l = NLIMBS -> below 0 29 l -> felem_reduce_carry l 0 = l.
Proof.
  intros Hl Hb. do 9 (destruct l as [|? l]; [done|]). destruct l; [|done]. cbn [below] in Hb. widths. cbn [felem_reduce_carry]. cbv zeta.
  rewrite mask_zero, !Z.land_0_r. change (shl32 0 1) with 0. change (shl32 0 11) with 0. change (shl32 0 22) with 0. change (shl32 0 25) with 0.
  rewrite !Z.add_0_r, !Z.sub_0_r, !limb_limb, !limb_small by lia. done.
Qed.

Lemma fe_words l : fe l -> length l = NLIMBS /\ Forall (fun x => 0 <= x < 2 ^ 32 - 16) l /\ 0 <= fval 29 l < 2 ^ 257 + 2 ^ 230.
Proof.
  intros (x0 & x1 & x2 & x3 & x4 & x5 & x6 & x7 & x8 & -> & Hx)%fe_limbs. unfold within in Hx. split; [done|].
  rewrite !Forall_cons. split; [split_and!; [lia..|done]|]. cbn [fval]. widths. lia.
Qed.

Lemma reduce_minimal_S n tmp : reduce_minimal (S n) tmp =
  let '(out, carry) := carry_loop 29 tmp 0 in
  if carry =? 0 then Some (felem_reduce_carry out carry) else reduce_minimal n (felem_reduce_carry out carry).
Proof. reflexivity. Qed.

(** A value below 2^257 is in minimal form after one round. *)
Lemma reduce_minimal_done n l : fe l -> fval 29 l < 2 ^ 257 ->
  exists out, reduce_minimal (S n) l = Some out /\ length out = NLIMBS /\ below 0 29 out /\ fval 29 out = fval 29 l.
Proof.
  intros Hf Hlt. destruct (fe_words l Hf) as (Hl & Hb & Hv). rewrite reduce_minimal_S.
  pose proof (carry_loop_spec l 29 0 ltac:(auto) Hb ltac:(lia)) as Hs. destruct (carry_loop 29 l 0) as [out carry]. rewrite Hl in Hs.
  destruct Hs as (Hlo & Hbo & Hc & Hvo). change (span 29 NLIMBS) with 257 in Hvo. pose proof (below_bound out Hbo Hlo).
  assert (carry = 0) as -> by lia. change (0 =? 0) with true. cbv iota. rewrite felem_reduce_carry_0 by done.
  exists out. split_and!; [done|done|done|lia].
Qed.

Lemma reduce_minimal_spec n l : fe l ->
  exists out, reduce_minimal (S (S n)) l = Some out /\ length out = NLIMBS /\ below 0 29 out /\ exists k, fval 29 out = fval 29 l - k * p.
Proof.
  intros Hf. destruct (fe_words l Hf) as (Hl & Hb & Hv). rewrite reduce_minimal_S.
  pose proof (carry_loop_spec l 29 0 ltac:(auto) Hb ltac:(lia)) as Hs. destruct (carry_loop 29 l 0) as [out carry]. rewrite Hl in Hs.
  destruct Hs as (Hlo & Hbo & Hc & Hvo). change (span 29 NLIMBS) with 257 in Hvo. pose proof (below_bound out Hbo Hlo).
  destruct (Z.eqb_spec carry 0) as [->|Hn].
  - rewrite felem_reduce_carry_0 by done. exists out. split_and!; try done. exists 0. lia.
  - destruct (felem_reduce_carry_spec out carry Hlo Hbo ltac:(lia)) as [Hf1 Hv1].
    pose proof p_bounds. destruct (reduce_minimal_done n _ Hf1) as (out' & He & Hlo' & Hbo' & Hv'); [nia|].
    exists out'. split_and!; try done. exists (2 * carry). lia.
Qed.

(** Limbs within their widths are determined by their value. *)
Lemma fval_inj l : forall m w, width w -> length l = length m -> below 0 w l -> below 0 w m -> fval w l = fval w m -> l = m.
Proof.
  induction l as [|x l IH]; intros [|y m] w Hw Hl Hbl Hbm Hv; try done. destruct Hbl as [Hx Hbl], Hbm as [Hy Hbm].
  cbn [fval] in Hv. rewrite Z.add_0_r in Hx, Hy. injection Hl as Hl. 
  assert (x = y /\ fval (57 - w) l = fval (57 - w) m) as [-> Hv'].
  { destruct Hw as [-> | ->]; lia. }
  f_equal. apply (IH m (57 - w)); auto. lia.
Qed.

Lemma is_zero_minimal out : length out = NLIMBS -> below 0 29 out ->
  bool_decide (out = kZero) || bool_decide (out = kP) || bool_decide (out = k2P) = true <-> fval 29 out mod p = 0.
Proof.
  intros Hl Hb. pose proof (below_bound out Hb Hl) as Hv. rewrite !orb_true_iff, !bool_decide_eq_true.
  assert (forall m, length m = NLIMBS -> below 0 29 m -> fval 29 out = fval 29 m <-> out = m) as Hm.
  { intros m Hlm Hbm. split; [|by intros ->]. intros He. apply (fval_inj out m 29); auto. congruence. }
  rewrite <- (Hm kZero), <- (Hm kP), <- (Hm k2P) by (done || (cbn; lia)).
  change (fval 29 kZero) with 0. change (fval 29 kP) with p. change (fval 29 k2P) with (2 * p). split.
  - intros [[-> | ->] | ->]; [done|by apply Z.mod_same|by apply Z.mod_mul].
  - intros Hz. pose proof p_bounds. apply Z.mod_divide in Hz as [k Hk]; [|lia]. assert (k = 0 \/ k = 1 \/ k = 2) as [-> | [-> | ->]] by nia; lia.
Qed.

(** The value of a product is below 2^257. *)
Lemma felem_mul_reduced a b : fe a -> fe b -> fval 29 (felem_mul a b) < 2 ^ 257.
Proof.
  intros Ha Hb. destruct (felem_mul_words a b Ha Hb) as (tmp & -> & Hl & Hw & Ht & Hv).
  destruct (felem_reduce_degree_spec tmp Hl Hw Ht) as (_ & _ & Hr). apply Hr. rewrite Hv.
  destruct (fe_words a Ha) as (_ & _ & Hva). destruct (fe_words b Hb) as (_ & _ & Hvb). nia.
Qed.

(** ** Numbers and limbs *)

Lemma low_digit_bits a w : number a -> width w -> Z.land (P256_DIGIT a 0) (kBottom w) = val a mod 2 ^ w.
Proof.
  intros [Hd Hl] Hw. rewrite land_bottom by done. destruct a as [|x a]; [done|]. change (P256_DIGIT (x :: a) 0) with x. cbn [val].
  replace (x + B * val a) with (x + 2 ^ (32 - w) * val a * 2 ^ w); [symmetry; apply Z.mod_add; lia|].
  unfold B. replace (2 ^ 32) with (2 ^ (32 - w) * 2 ^ w); [lia|]. rewrite <- Z.pow_add_r by lia. f_equal. lia.
Qed.

Lemma to_limbs_spec n : forall w a, width w -> number a -> val a < 2 ^ span w n ->
  length (to_limbs n w a) = n /\ below 0 w (to_limbs n w a) /\ fval w (to_limbs n w a) = val a.
Proof.
  induction n as [|n IH]; intros w a Hw Ha Hlt; [pose proof (number_bound a Ha); cbn in *; lia|]. cbn [to_limbs].
  rewrite low_digit_bits by done. destruct (p256_shr_spec w a ltac:(lia) Ha) as [Hn Hv].
  destruct (IH (57 - w) (p256_shr a w)) as (Hl & Hb & Hf); [lia|done| |].
  - rewrite Hv. apply Z.div_lt_upper_bound; [lia|]. cbn [span] in Hlt. rewrite Z.pow_add_r in Hlt by (pose proof (span_nonneg n (57 - w)); lia). done.
  - cbn [length below fval]. rewrite Hl, Hf, Hv, Z.add_0_r. pose proof (Z.mod_pos_bound (val a) (2 ^ w) ltac:(lia)).
    split_and!; try done; try lia. rewrite Z.add_comm. symmetry. apply Z.div_mod. lia.
Qed.

Lemma p256_zero_number : number P256_ZERO.
Proof. by apply (bool_decide_unpack _). Qed.

Lemma from_limbs_cons w x l : l <> [] -> from_limbs w (x :: l) =
  let '(_, result) := from_limbs (57 - w) l in
  let '(top, tmp) := p256_shl result w in
  let '(carry, result) := p256_add_d tmp x in (Z.lor top carry, result).
Proof. by destruct l. Qed.

Lemma fval_nonneg l : forall w, Forall (fun x => is_digit x) l -> 0 <= fval w l.
Proof. induction l as [|x l IH]; intros w Hd; [done|]. apply Forall_cons in Hd as [Hx Hd]. cbn [fval]. specialize (IH (57 - w) Hd). nia. Qed.

(** Below 2^257 the highest bit and the carry are never both set, so that [|=]
    loses nothing. *)
Lemma from_limbs_spec l : forall w, width w -> l <> [] -> Forall (fun x => is_digit x) l -> 0 <= fval w l < 2 ^ 257 ->
  let '(top, result) := from_limbs w l in
  number result /\ 0 <= top <= 1 /\ val result + 2 ^ 256 * top = fval w l.
Proof.
  induction l as [|x l IH]; intros w Hw Hne Hd Hv; [done|]. apply Forall_cons in Hd as [Hx Hd]. cbn [fval] in Hv.
  destruct (decide (l = [])) as [->|Hl].
  - cbn [from_limbs]. pose proof (p256_add_d_spec P256_ZERO x p256_zero_number Hx) as Ha. destruct (p256_add_d P256_ZERO x) as [carry r].
    destruct Ha as (Hn & Hvr & ->). change (val P256_ZERO) with 0 in Hvr. cbn [snd fval]. unfold B in Hx.
    destruct (Z.ltb_spec (0 + x) (2 ^ 256)); split_and!; try done; lia.
  - rewrite from_limbs_cons by done. assert (0 <= fval (57 - w) l < 2 ^ 229) as Hv'.
    { pose proof (fval_nonneg l (57 - w) Hd). assert (2 ^ 28 <= 2 ^ w) by (destruct Hw as [-> | ->]; lia). unfold B in Hx. nia. }
    specialize (IH (57 - w) ltac:(lia) Hl Hd ltac:(lia)). destruct (from_limbs (57 - w) l) as [t0 result]. destruct IH as (Hn & Ht0 & Hr).
    pose proof (number_bound result Hn). assert (t0 = 0) as -> by lia. rewrite Z.mul_0_r, Z.add_0_r in Hr.
    pose proof (p256_shl_spec w result ltac:(lia) Hn) as Hs. destruct (p256_shl result w) as [top tmp]. destruct Hs as (Hnt & Hvt & Ht).
    pose proof (p256_add_d_spec tmp x Hnt Hx) as Ha. destruct (p256_add_d tmp x) as [carry r]. destruct Ha as (Hnr & Hvr & Hc).
    pose proof (number_bound tmp Hnt). pose proof (number_bound r Hnr). rewrite Hr in Hvt.
    assert (0 <= carry <= 1 /\ Z.lor top carry = top + carry) as [Hc1 ->].
    { assert (carry = 0 \/ carry = 1) as Hcc by (rewrite Hc; destruct (_ <? _); auto). split; [lia|].
      assert (top = 0 \/ top = 1 /\ carry = 0) as [-> | [-> ->]] by lia; [by rewrite Z.lor_0_l|done]. }
    cbn [fval]. split_and!; [done|lia|lia|lia].
Qed.
