(* ===== verification/P256Field.v ===== *)
(** The field elements of P256Ec.v compute modulo the prime of the curve: every
    operation on limbs, given elements that stand for residues, returns the
    element that stands for the result, in Montgomery form. *)

From Stdlib Require Import Zdiv Znumtheory Setoid.
From S2P Require Import Prelude Primes P256 P256Facts P256Ec P256Limbs.

(** ** Residues *)

Notation "a =p b" := (eqm p a b) (at level 70, no associativity) : Z_scope.

#[global] Instance eqm_p_equivalence : Equivalence (eqm p).
Proof. split; [done|by intros a b|unfold eqm; by intros a b c -> ->]. Qed.
#[global] Instance add_proper : Proper (eqm p ==> eqm p ==> eqm p) Z.add.
Proof. apply Zplus_eqm. Qed.
#[global] Instance mul_proper : Proper (eqm p ==> eqm p ==> eqm p) Z.mul.
Proof. apply Zmult_eqm. Qed.
#[global] Instance opp_proper : Proper (eqm p ==> eqm p) Z.opp.
Proof. apply Zopp_eqm. Qed.
#[global] Instance sub_proper : Proper (eqm p ==> eqm p ==> eqm p) Z.sub.
Proof. apply Zminus_eqm. Qed.

Lemma eqm_of_eq a b : a = b -> a =p b.
Proof. by intros ->. Qed.
Lemma eqm_add_p a k : a + k * p =p a.
Proof. apply Z.mod_add. by compute. Qed.

(** An identity of polynomials holds modulo p. *)
Ltac ringp := apply eqm_of_eq; ring.

Definition Rinv : Z := val kRInv.
Lemma R_inverse : 2 ^ 257 * Rinv =p 1.
Proof. vm_compute. reflexivity. Qed.

(** [zero31] is zero modulo p. *)
Lemma zero31_spec : fval 29 zero31 =p 0.
Proof. vm_compute. reflexivity. Qed.
Lemma p_prime : prime p.
Proof. exact field_prime. Qed.
Lemma p_pos : 0 < p.
Proof. by compute. Qed.
#[global] Opaque p Rinv.

(** The limbs are in bounds and stand, in Montgomery form, for the residue [x]. *)
Definition repr (l : felem) (x : Z) : Prop := fe l /\ fval 29 l * Rinv =p x.

#[global] Instance repr_proper : Proper (eq ==> eqm p ==> iff) repr.
Proof. intros l ? <- x y Hxy. unfold repr. by rewrite Hxy. Qed.

Lemma repr_eq l x y : repr l x -> x =p y -> repr l y.
Proof. by intros Hl <-. Qed.

Lemma repr_fval l v x : fe l -> (exists k, fval 29 l = v - k * p) -> v * Rinv =p x -> repr l x.
Proof.
  intros Hf [k Hk] Hv. split; [done|]. rewrite Hk, <- Hv. transitivity (v * Rinv + (- k * Rinv) * p); [ringp|apply eqm_add_p].
Qed.

(** ** Sums, differences and small multiples *)

Lemma carry_repr words x : length words = NLIMBS -> Forall (fun z => 0 <= z <= 2 ^ 32 - 2 ^ 29) words -> fval 29 words * Rinv =p x ->
  repr (carry_and_reduce words) x.
Proof. intros Hl Hb Hv. destruct (carry_and_reduce_spec words Hl Hb) as [Hf Hk]. by apply (repr_fval _ (fval 29 words)). Qed.

Ltac limbs_of H := apply fe_limbs in H as (? & ? & ? & ? & ? & ? & ? & ? & ? & -> & ?); unfold within in *.
Ltac each_limb := rewrite ?Forall_cons; split_and!; [lia..|done].

Lemma repr_sum l m x y : repr l x -> repr m y -> repr (felem_sum l m) (x + y).
Proof.
  intros [Hl Hx] [Hm Hy]. limbs_of Hl. limbs_of Hm. unfold felem_sum. cbn [zip_with]. rewrite !limb_small by lia.
  apply carry_repr; [done|each_limb|]. rewrite <- Hx, <- Hy. cbn [fval]. ringp.
Qed.

Lemma repr_diff l m x y : repr l x -> repr m y -> repr (felem_diff l m) (x - y).
Proof.
  intros [Hl Hx] [Hm Hy]. limbs_of Hl. limbs_of Hm. unfold felem_diff, zero31. cbv zeta. cbn [zip_with]. rewrite !limb_add.
  rewrite !limb_small by lia. apply carry_repr; [done|each_limb|]. rewrite <- Hx, <- Hy.
  transitivity ((fval 29 zero31 + 0) * Rinv + (fval 29 [x0; x1; x2; x3; x4; x5; x6; x7; x8] * Rinv - fval 29 [x9; x10; x11; x12; x13; x14; x15; x16; x17] * Rinv)).
  - unfold zero31. cbn [fval]. ringp.
  - rewrite zero31_spec. ringp.
Qed.

Lemma repr_3 l x : repr l x -> repr (felem_scalar_3 l) (3 * x).
Proof.
  intros [Hl Hx]. limbs_of Hl. unfold felem_scalar_3. cbn [fmap list_fmap]. rewrite !limb_small by lia.
  apply carry_repr; [done|each_limb|]. rewrite <- Hx. cbn [fval]. ringp.
Qed.

Lemma repr_4 l x : repr l x -> repr (felem_scalar_4 l) (4 * x).
Proof.
  intros [Hl Hx]. unfold felem_scalar_4. pose proof (scalar_reduce 2 l ltac:(auto) Hl) as Hs. destruct (scalar_loop 2 29 l 0) as [out carry].
  destruct Hs as [Hf Hk]. apply (repr_fval _ _ _ Hf Hk). rewrite <- Hx. ringp.
Qed.
Lemma repr_8 l x : repr l x -> repr (felem_scalar_8 l) (8 * x).
Proof.
  intros [Hl Hx]. unfold felem_scalar_8. pose proof (scalar_reduce 3 l ltac:(auto) Hl) as Hs. destruct (scalar_loop 3 29 l 0) as [out carry].
  destruct Hs as [Hf Hk]. apply (repr_fval _ _ _ Hf Hk). rewrite <- Hx. ringp.
Qed.

(** ** Products *)

Lemma reduce_repr tmp x : length tmp = 17%nat -> Forall (fun t => is_wide t) tmp -> (forall t, last tmp = Some t -> t < 2 ^ 60) ->
  fval 29 tmp * Rinv * Rinv =p x -> repr (felem_reduce_degree tmp) x.
Proof.
  intros Hl Hw Ht Hx. destruct (felem_reduce_degree_spec tmp Hl Hw Ht) as (Hf & [k Hk] & _). split; [done|]. rewrite <- Hx.
  transitivity (2 ^ 257 * fval 29 (felem_reduce_degree tmp) * Rinv * Rinv).
  - transitivity (2 ^ 257 * Rinv * (fval 29 (felem_reduce_degree tmp) * Rinv)); [|ringp]. rewrite R_inverse. ringp.
  - rewrite Hk. transitivity (fval 29 tmp * Rinv * Rinv + (k * Rinv * Rinv) * p); [ringp|apply eqm_add_p].
Qed.

Lemma repr_mul l m x y : repr l x -> repr m y -> repr (felem_mul l m) (x * y).
Proof.
  intros [Hl Hx] [Hm Hy]. destruct (felem_mul_words l m Hl Hm) as (tmp & -> & Hlen & Hw & Ht & Hv). apply reduce_repr; try done.
  rewrite Hv, <- Hx, <- Hy. ringp.
Qed.
Lemma repr_square l x : repr l x -> repr (felem_square l) (x * x).
Proof.
  intros [Hl Hx]. destruct (felem_square_words l Hl) as (tmp & -> & Hlen & Hw & Ht & Hv). apply reduce_repr; try done.
  rewrite Hv, <- Hx. ringp.
Qed.

(** ** Powers *)

(** The element stands for the power [e] of [x]. *)
Definition repr_pow (l : felem) (x e : Z) : Prop := 0 <= e /\ repr l (x ^ e).

Lemma repr_pow_mul l m x e f : repr_pow l x e -> repr_pow m x f -> repr_pow (felem_mul l m) x (e + f).
Proof. intros [He Hl] [Hf Hm]. split; [lia|]. rewrite Z.pow_add_r by done. by apply repr_mul. Qed.
Lemma repr_pow_square l x e : repr_pow l x e -> repr_pow (felem_square l) x (2 * e).
Proof.
  intros [He Hl]. split; [lia|]. replace (2 * e) with (e + e) by lia. rewrite Z.pow_add_r by done. by apply repr_square.
Qed.
Lemma repr_pow_squares n : forall l x e, repr_pow l x e -> repr_pow (felem_squares n l) x (2 ^ Z.of_nat n * e).
Proof.
  induction n as [|n IH]; intros l x e Hl; [by rewrite Z.mul_1_l|]. cbn [felem_squares].
  rewrite Nat2Z.inj_succ, Z.pow_succ_r, (Z.mul_comm 2), <- Z.mul_assoc by lia. by apply IH, repr_pow_square.
Qed.
(** A local variable of the code. *)
Lemma repr_pow_let l (b : felem -> felem) x e f : repr_pow l x e -> (forall v, repr_pow v x e -> repr_pow (b v) x f) ->
  repr_pow (let v := l in b v) x f.
Proof. intros Hl Hb. by apply Hb. Qed.
Ltac repr_pow_step :=
  lazymatch goal with
  | |- repr_pow (felem_mul _ _) _ _ => eapply repr_pow_mul; repr_pow_step
  | |- repr_pow (felem_square _) _ _ => eapply repr_pow_square; repr_pow_step
  | |- repr_pow (felem_squares _ _) _ _ => eapply repr_pow_squares; repr_pow_step
  | _ => eassumption
  end.

(** [felem_inv] raises to the power p - 2: the chain of squarings and products adds
    up to that exponent, in bounds throughout. *)
Lemma felem_inv_pow l x : repr l x -> repr (felem_inv l) (x ^ (p - 2)).
Proof.
  intros Hl. assert (repr_pow l x 1) as H1 by (split; [lia|by rewrite Z.pow_1_r]). clear Hl.
  cut (repr_pow (felem_inv l) x (p - 2)); [by intros [_ ?]|]. cbv beta delta [felem_inv].
  repeat match goal with |- repr_pow (let v := ?e in @?b v) _ _ => eapply (repr_pow_let e b); [repr_pow_step|intros] end.
  match goal with |- repr_pow ?m x _ => assert (exists e, repr_pow m x e /\ e = p - 2) as (? & ? & <-); [|done] end.
  eexists. split; [repr_pow_step|]. vm_compute. reflexivity.
Qed.

(** ** Zero *)

(** The loop of [felem_is_zero_vartime] ends within its fuel, and the three
    comparisons find exactly the representations of zero. *)
Lemma felem_is_zero_spec l x : repr l x -> exists b, felem_is_zero_vartime l = Some b /\ (b = true <-> x =p 0).
Proof.
  intros [Hf Hx]. unfold felem_is_zero_vartime, minimal_fuel. destruct (reduce_minimal_spec 2 l Hf) as (out & -> & Hl & Hb & k & Hk).
  cbn [mbind option_bind]. eexists. split; [reflexivity|]. rewrite is_zero_minimal by done. rewrite <- Hx.
  assert (fval 29 out =p fval 29 l) as Ho by (rewrite Hk; transitivity (fval 29 l + (- k) * p); [ringp|apply eqm_add_p]).
  change (fval 29 out mod p = 0) with (fval 29 out mod p = 0 mod p). fold (eqm p (fval 29 out) 0). rewrite Ho. split; intros Hz.
  - rewrite Hz. ringp.
  - transitivity (2 ^ 257 * Rinv * fval 29 l); [rewrite R_inverse; ringp|].
    transitivity (2 ^ 257 * (fval 29 l * Rinv)); [ringp|]. rewrite Hz. ringp.
Qed.

(** ** Conversion *)

Lemma kR_value : val kR * Rinv =p 1.
Proof. vm_compute. reflexivity. Qed.

Lemma repr_to_montgomery a : number a -> repr (to_montgomery a) (val a).
Proof.
  intros Ha. unfold to_montgomery. assert (number kR) as HR by (by apply (bool_decide_unpack _)).
  destruct (p256_modmul_spec SECP256r1_p a 0 kR SECP256r1_p_modulus Ha HR ltac:(done)) as [Hn Hv].
  rewrite p_val, Z.mul_0_r, Z.add_0_r in Hv. pose proof (number_bound _ Hn).
  destruct (to_limbs_spec NLIMBS 29 _ ltac:(auto) Hn) as (Hl & Hb & Hf); [change (span 29 NLIMBS) with 257; lia|].
  split.
  - split; [done|]. destruct (to_limbs _ _ _) as [|x0 [|x1 [|x2 [|x3 [|x4 [|x5 [|x6 [|x7 [|x8 [|]]]]]]]]]]; try done.
    cbn [below nth] in *. lia.
  - rewrite Hf, Hv. unfold eqm at 1. rewrite Z.mul_mod_idemp_l by (pose proof p_pos; lia). fold (eqm p (val a * val kR * Rinv) (val a)).
    transitivity (val a * (val kR * Rinv)); [ringp|]. rewrite kR_value. ringp.
Qed.

Lemma from_montgomery_spec l x : repr l x -> fval 29 l < 2 ^ 257 ->
  number (from_montgomery l) /\ val (from_montgomery l) = x mod p.
Proof.
  intros [Hf Hx] Hlt. destruct (fe_words l Hf) as (Hl & Hb & Hv). unfold from_montgomery.
  pose proof (from_limbs_spec l 29 ltac:(auto) ltac:(by destruct l) ltac:(eapply Forall_impl; [exact Hb|]; cbn; unfold B; lia) ltac:(lia)) as Hs.
  destruct (from_limbs 29 l) as [top result]. destruct Hs as (Hn & Ht & Hr). assert (number kRInv) as HR by (by apply (bool_decide_unpack _)).
  destruct (p256_modmul_spec SECP256r1_p kRInv top result SECP256r1_p_modulus HR Hn ltac:(unfold B; lia)) as [Hnr Hvr].
  rewrite p_val, Hr in Hvr. split; [done|]. rewrite Hvr, Z.mul_comm. exact Hx.
Qed.

(** ** Inverses *)

Lemma unit_not_zero z : ~ z =p 0 <-> ~ (p | z).
Proof.
  unfold eqm. rewrite Z.mod_0_l by (pose proof p_pos; lia). pose proof p_pos. split; intros Hz Hd; apply Hz; apply Z.mod_divide; done || lia.
Qed.
Lemma one_not_zero : ~ 1 =p 0.
Proof. unfold eqm. pose proof (prime_ge_2 p p_prime). rewrite Z.mod_0_l, Z.mod_1_l; lia. Qed.

(** Fermat's little theorem makes the power p - 2 the inverse. *)
Lemma power_inverse z : ~ z =p 0 -> z * z ^ (p - 2) =p 1.
Proof.
  intros Hz%unit_not_zero. pose proof (prime_ge_2 p p_prime). pose proof (fermat p z p_prime Hz) as Hf.
  rewrite <- Z.pow_succ_r by lia. replace (Z.succ (p - 2)) with (p - 1) by lia. unfold eqm. rewrite Hf. symmetry. apply Z.mod_1_l. lia.
Qed.
Lemma inverse_is_power z zi : z * zi =p 1 -> z ^ (p - 2) =p zi.
Proof.
  intros Hz. assert (~ z =p 0) as Hn by (intros H0; apply one_not_zero; rewrite <- Hz, H0; ringp).
  pose proof (power_inverse z Hn) as Hp. transitivity (z * zi * z ^ (p - 2)); [rewrite Hz; ringp|].
  transitivity (z * z ^ (p - 2) * zi); [ringp|]. rewrite Hp. ringp.
Qed.

(** The inverse in the field: [felem_inv] of an element that does not stand for
    zero stands for the residue whose product with the given one is one. *)
Theorem felem_inv_spec l x : repr l x -> ~ x =p 0 -> exists y, repr (felem_inv l) y /\ x * y =p 1.
Proof. intros Hl Hx. exists (x ^ (p - 2)). split; [by apply felem_inv_pow|by apply power_inverse]. Qed.

(** C29. The operations on limbs are the operations of the field: sums, differences,
    products, squares and small multiples of elements in bounds are in bounds and
    stand for the sums, differences, products, squares and multiples, and the test
    for zero decides. *)
Theorem field_operations l m x y : repr l x -> repr m y ->
  repr (felem_sum l m) (x + y) /\ repr (felem_diff l m) (x - y) /\ repr (felem_mul l m) (x * y) /\ repr (felem_square l) (x * x) /\
  repr (felem_scalar_3 l) (3 * x) /\ repr (felem_scalar_4 l) (4 * x) /\ repr (felem_scalar_8 l) (8 * x) /\
  exists b, felem_is_zero_vartime l = Some b /\ (b = true <-> x =p 0).
Proof.
  intros Hl Hm. split_and!; [by apply repr_sum|by apply repr_diff|by apply repr_mul|by apply repr_square|by apply repr_3|by apply repr_4|by apply repr_8|].
  by apply felem_is_zero_spec.
Qed.

(** Montgomery's one is 2^257 modulo p. *)
Lemma repr_one : repr kOne 1.
Proof.
  split.
  - split_and!; [reflexivity| |reflexivity]. apply (bool_decide_unpack _). vm_compute. exact I.
  - unfold eqm. vm_compute. reflexivity.
Qed.

Lemma felem_inv_spec_witness : exists y, repr (felem_inv (felem_scalar_3 kOne)) y /\ 3 * y =p 1.
Proof.
  apply (felem_inv_spec (felem_scalar_3 kOne) 3).
  - rewrite <- (Z.mul_1_r 3). apply repr_3, repr_one.
  - unfold eqm. vm_compute. discriminate.
Defined.

Lemma field_operations_witness :
  repr (felem_sum kOne kOne) 2 /\ repr (felem_diff kOne kOne) 0 /\ exists b, felem_is_zero_vartime kOne = Some b /\ (b = true <-> 1 =p 0).
Proof. destruct (field_operations kOne kOne 1 1 repr_one repr_one) as (Hs & Hd & _ & _ & _ & _ & _ & Hz). split; [exact Hs|]. split; [exact Hd|exact Hz]. Defined.
