(* ===== verification/P256Points.v ===== *)
(** The points of the curve: the formulas of P256Ec.v in Jacobian coordinates are
    the chord and tangent constructions, and selecting without branches is
    selecting. *)

From Stdlib Require Import Zdiv Setoid.
From S2P Require Import Prelude P256 P256Facts P256Ec P256Limbs P256Field.

(** ** The coordinates of a point *)

Definition reprJ (P : jacobian) (X Y Z : Z) : Prop := repr P.1.1 X /\ repr P.1.2 Y /\ repr P.2 Z.

(** The tactic walks through an expression of field operations. *)
Ltac repr_step :=
  lazymatch goal with
  | |- repr (felem_mul _ _) _ => eapply repr_mul; repr_step
  | |- repr (felem_square _) _ => eapply repr_square; repr_step
  | |- repr (felem_sum _ _) _ => eapply repr_sum; repr_step
  | |- repr (felem_diff _ _) _ => eapply repr_diff; repr_step
  | |- repr (felem_scalar_3 _) _ => eapply repr_3; repr_step
  | |- repr (felem_scalar_4 _) _ => eapply repr_4; repr_step
  | |- repr (felem_scalar_8 _) _ => eapply repr_8; repr_step
  | _ => eassumption
  end.
Ltac repr_is := eapply repr_eq; [repr_step|ringp].

(** Doubling, as polynomials of the coordinates. *)
Lemma point_double_repr P X Y Z : reprJ P X Y Z ->
  let alpha := 3 * (X + Z * Z) * (X - Z * Z) in
  let X3 := alpha * alpha - 8 * X * Y * Y in
  reprJ (point_double P) X3 (alpha * (4 * X * Y * Y - X3) - 8 * Y * Y * Y * Y) (2 * Y * Z).
Proof. destruct P as [[x y] z]. intros (Hx & Hy & Hz). cbv zeta. unfold point_double. cbv zeta. split_and!; cbn [fst snd] in *; repr_is. Qed.

(** Addition, as polynomials: [H] and [r] are what the two points differ in. *)
Definition add_X (U1 H r : Z) : Z := r * r - 4 * H * H * H - 8 * U1 * H * H.
Definition add_Y (U1 S1 H r : Z) : Z := r * (4 * U1 * H * H - add_X U1 H r) - 8 * S1 * H * H * H.

Lemma point_add_repr P Q X1 Y1 Z1 X2 Y2 Z2 : reprJ P X1 Y1 Z1 -> reprJ Q X2 Y2 Z2 ->
  let U1 := X1 * Z2 * Z2 in let S1 := Y1 * Z2 * Z2 * Z2 in
  let H := X2 * Z1 * Z1 - U1 in let r := 2 * (Y2 * Z1 * Z1 * Z1 - S1) in
  reprJ (point_add P Q) (add_X U1 H r) (add_Y U1 S1 H r) (2 * Z1 * Z2 * H).
Proof.
  destruct P as [[x1 y1] z1], Q as [[x2 y2] z2]. intros (Hx1 & Hy1 & Hz1) (Hx2 & Hy2 & Hz2). cbv zeta. unfold point_add, add_Y, add_X. cbv zeta.
  split_and!; cbn [fst snd] in *; repr_is.
Qed.

Lemma point_add_mixed_repr P x2 y2 X1 Y1 Z1 X2 Y2 : reprJ P X1 Y1 Z1 -> repr x2 X2 -> repr y2 Y2 ->
  let H := X2 * Z1 * Z1 - X1 in let r := 2 * (Y2 * Z1 * Z1 * Z1 - Y1) in
  reprJ (point_add_mixed P x2 y2) (add_X X1 H r) (add_Y X1 Y1 H r) (2 * Z1 * H).
Proof.
  destruct P as [[x1 y1] z1]. intros (Hx1 & Hy1 & Hz1) Hx2 Hy2. cbv zeta. unfold point_add_mixed, add_Y, add_X. cbv zeta.
  split_and!; cbn [fst snd] in *; repr_is.
Qed.

(** ** Affine points *)

(** [P] stands for the affine point (x, y): [Z] is invertible, [x = X / Z^2] and
    [y = Y / Z^3]. *)
Definition is_point (P : jacobian) (x y : Z) : Prop :=
  exists X Y Z Zi, reprJ P X Y Z /\ Z * Zi =p 1 /\ X =p x * Z * Z /\ Y =p y * Z * Z * Z.

(** The third point of the line of slope [s] through (x1, y1) that meets the curve
    again at the abscissa [x2], reflected. *)
Definition line_x (s x1 x2 : Z) : Z := s * s - x1 - x2.
Definition line_y (s x1 x2 y1 : Z) : Z := s * (x1 - line_x s x1 x2) - y1.

#[global] Instance reprJ_proper : Proper (eq ==> eqm p ==> eqm p ==> eqm p ==> iff) reprJ.
Proof. intros P ? <- X X' HX Y Y' HY Z Z' HZ. unfold reprJ. by rewrite HX, HY, HZ. Qed.

(** [point_double] is the tangent construction: if [P] stands for (x, y) and
    [d] is the inverse of 2y, the result stands for the point that the tangent of
    slope (3x^2 - 3) / 2y gives. *)
Theorem point_double_spec P x y d : is_point P x y -> d * (2 * y) =p 1 ->
  let s := (3 * x * x - 3) * d in is_point (point_double P) (line_x s x x) (line_y s x x y).
Proof.
  intros (X & Y & Z & Zi & HP & HZ & HX & HY) Hd. pose proof (point_double_repr P X Y Z HP) as H3. cbv zeta in *.
  exists (3 * (X + Z * Z) * (X - Z * Z) * (3 * (X + Z * Z) * (X - Z * Z)) - 8 * X * Y * Y),
    (3 * (X + Z * Z) * (X - Z * Z) * (4 * X * Y * Y - (3 * (X + Z * Z) * (X - Z * Z) * (3 * (X + Z * Z) * (X - Z * Z)) - 8 * X * Y * Y)) - 8 * Y * Y * Y * Y),
    (2 * Y * Z), (d * Zi * Zi * Zi * Zi).
  split; [done|]. clear HP H3. rewrite HX, HY. clear HX HY. unfold line_y, line_x. split_and!.
  - transitivity ((d * (2 * y)) * (Z * Zi) * (Z * Zi) * (Z * Zi) * (Z * Zi)); [ringp|]. by rewrite Hd, HZ.
  - symmetry. transitivity (9 * (x * x - 1) * (x * x - 1) * Z ^ 8 * (d * (2 * y)) * (d * (2 * y)) - 8 * x * y * y * Z ^ 8); [ringp|].
    rewrite Hd. ringp.
  - symmetry. transitivity (Z ^ 12 * (36 * (x * x - 1) * x * y * y * (d * (2 * y)) - 27 * (x * x - 1) ^ 3 * ((d * (2 * y)) * (d * (2 * y)) * (d * (2 * y))) - 8 * y ^ 4));
      [ringp|]. rewrite Hd. ringp.
Qed.

Lemma half_p : exists h, 2 * h =p 1.
Proof. exists ((p + 1) / 2). vm_compute. reflexivity. Qed.

(** The coordinates that an addition computes from [H = (x2 - x1) W^2] and
    [r = 2 (y2 - y1) W^3]. *)
Lemma add_line x1 y1 x2 y2 d W : d * (x2 - x1) =p 1 ->
  let s := (y2 - y1) * d in let H := (x2 - x1) * W * W in let r := 2 * (y2 - y1) * W * W * W in
  add_X (x1 * W * W) H r =p line_x s x1 x2 * (2 * W * H) * (2 * W * H) /\
  add_Y (x1 * W * W) (y1 * W * W * W) H r =p line_y s x1 x2 y1 * (2 * W * H) * (2 * W * H) * (2 * W * H).
Proof.
  intros Hd. cbv zeta. unfold add_Y, add_X, line_y, line_x. split; symmetry.
  - transitivity (4 * W ^ 6 * ((y2 - y1) * (y2 - y1) * (d * (x2 - x1)) * (d * (x2 - x1)) - (x1 + x2) * (x2 - x1) * (x2 - x1))); [ringp|].
    rewrite Hd. ringp.
  - transitivity (8 * W ^ 9 * ((y2 - y1) * (d * (x2 - x1)) * (2 * x1 + x2) * (x2 - x1) * (x2 - x1)
      - (y2 - y1) ^ 3 * ((d * (x2 - x1)) * (d * (x2 - x1)) * (d * (x2 - x1))) - y1 * (x2 - x1) ^ 3)); [ringp|].
    rewrite Hd. ringp.
Qed.

#[global] Instance add_X_proper : Proper (eqm p ==> eqm p ==> eqm p ==> eqm p) add_X.
Proof. intros U U' HU H H' HH r r' Hr. unfold add_X. by rewrite HU, HH, Hr. Qed.
#[global] Instance add_Y_proper : Proper (eqm p ==> eqm p ==> eqm p ==> eqm p ==> eqm p) add_Y.
Proof. intros U U' HU S S' HS H H' HH r r' Hr. unfold add_Y. by rewrite HU, HS, HH, Hr. Qed.

(** The sum of two points whose denominators have the product [W]. *)
Lemma sum_is_point R x1 y1 x2 y2 d W Wi U1 S1 H r Z3 : reprJ R (add_X U1 H r) (add_Y U1 S1 H r) Z3 ->
  W * Wi =p 1 -> d * (x2 - x1) =p 1 -> U1 =p x1 * W * W -> S1 =p y1 * W * W * W -> H =p (x2 - x1) * W * W ->
  r =p 2 * (y2 - y1) * W * W * W -> Z3 =p 2 * W * H ->
  let s := (y2 - y1) * d in is_point R (line_x s x1 x2) (line_y s x1 x2 y1).
Proof.
  intros HR HW Hd HU HS HH Hr HZ. rewrite HZ, HU, HS, Hr, HH in HR. pose proof half_p as [h Hh]. cbv zeta.
  destruct (add_line x1 y1 x2 y2 d W Hd) as [HX HY]. cbv zeta in HX, HY.
  eexists _, _, _, (h * d * Wi * Wi * Wi). split; [exact HR|]. split; [|by split].
  transitivity (2 * h * (d * (x2 - x1)) * (W * Wi) * (W * Wi) * (W * Wi)); [ringp|]. by rewrite Hh, Hd, HW.
Qed.

(** [point_add] is the chord construction: if [P] and [Q] stand for (x1, y1)
    and (x2, y2) and [d] is the inverse of x2 - x1, the result stands for the
    point that the chord of slope (y2 - y1) / (x2 - x1) gives. *)
Theorem point_add_spec P Q x1 y1 x2 y2 d : is_point P x1 y1 -> is_point Q x2 y2 -> d * (x2 - x1) =p 1 ->
  let s := (y2 - y1) * d in is_point (point_add P Q) (line_x s x1 x2) (line_y s x1 x2 y1).
Proof.
  intros (X1 & Y1 & Z1 & I1 & HP & HI1 & HX1 & HY1) (X2 & Y2 & Z2 & I2 & HQ & HI2 & HX2 & HY2) Hd.
  eapply (sum_is_point _ x1 y1 x2 y2 d (Z1 * Z2) (I1 * I2)); [exact (point_add_repr P Q _ _ _ _ _ _ HP HQ)|..]; rewrite ?HX1, ?HY1, ?HX2, ?HY2.
  - transitivity ((Z1 * I1) * (Z2 * I2)); [ringp|]. by rewrite HI1, HI2.
  - done.
  - ringp.
  - ringp.
  - ringp.
  - ringp.
  - ringp.
Qed.

(** The same for a second point in affine coordinates. *)
Lemma point_add_mixed_spec P a b x1 y1 x2 y2 d : is_point P x1 y1 -> repr a x2 -> repr b y2 -> d * (x2 - x1) =p 1 ->
  let s := (y2 - y1) * d in is_point (point_add_mixed P a b) (line_x s x1 x2) (line_y s x1 x2 y1).
Proof.
  intros (X1 & Y1 & Z1 & I1 & HP & HI1 & HX1 & HY1) Ha Hb Hd.
  eapply (sum_is_point _ x1 y1 x2 y2 d Z1 I1); [exact (point_add_mixed_repr P a b _ _ _ _ _ HP Ha Hb)|..]; rewrite ?HX1, ?HY1; done || ringp.
Qed.

Lemma eqm_cancel a u ui : u * ui =p 1 -> a * u =p 0 -> a =p 0.
Proof. intros Hu Ha. transitivity (a * u * ui); [|by rewrite Ha]. transitivity (a * (u * ui)); [rewrite Hu|]; ringp. Qed.
Lemma eqm_sub_0 a b : a - b =p 0 <-> a =p b.
Proof.
  split; intros H; [|rewrite H; ringp]. transitivity (a - b + b); [ringp|]. rewrite H. ringp.
Qed.

(** Adding or doubling: the code doubles when what it would divide by vanishes. *)
Lemma point_add_or_double_repr P Q X1 Y1 Z1 X2 Y2 Z2 : reprJ P X1 Y1 Z1 -> reprJ Q X2 Y2 Z2 -> exists b,
  point_add_or_double_vartime P Q = Some (if b : bool then point_double P else point_add P Q) /\
  (b = true <-> X2 * Z1 * Z1 =p X1 * Z2 * Z2 /\ Y2 * Z1 * Z1 * Z1 =p Y1 * Z2 * Z2 * Z2).
Proof.
  destruct P as [[x1 y1] z1], Q as [[x2 y2] z2]. intros (Hx1 & Hy1 & Hz1) (Hx2 & Hy2 & Hz2). cbn [fst snd] in *.
  unfold point_add_or_double_vartime, point_add. cbv zeta.
  destruct (felem_is_zero_spec (felem_diff (felem_mul x2 (felem_square z1)) (felem_mul x1 (felem_square z2))) (X2 * Z1 * Z1 - X1 * Z2 * Z2))
    as (bx & -> & Hbx); [repr_is|].
  destruct (felem_is_zero_spec (felem_diff (felem_mul y2 (felem_mul z1 (felem_square z1))) (felem_mul y1 (felem_mul z2 (felem_square z2))))
    (Y2 * Z1 * Z1 * Z1 - Y1 * Z2 * Z2 * Z2)) as (bz & -> & Hby); [repr_is|]. cbn [mbind option_bind].
  exists (bx && bz). split; [by destruct (bx && bz)|]. by rewrite andb_true_iff, Hbx, Hby, !eqm_sub_0.
Qed.

(** Adding two points that may be equal: the result is the tangent construction
    exactly when the points are the same, and the chord construction otherwise; the
    comparison always ends. *)
Lemma point_add_or_double_spec P Q x1 y1 x2 y2 : is_point P x1 y1 -> is_point Q x2 y2 -> exists b,
  point_add_or_double_vartime P Q = Some (if b : bool then point_double P else point_add P Q) /\ (b = true <-> x1 =p x2 /\ y1 =p y2).
Proof.
  intros (X1 & Y1 & Z1 & I1 & HP & HI1 & HX1 & HY1) (X2 & Y2 & Z2 & I2 & HQ & HI2 & HX2 & HY2).
  destruct (point_add_or_double_repr P Q _ _ _ _ _ _ HP HQ) as (b & He & Hb). exists b. split; [done|]. rewrite Hb, HX1, HY1, HX2, HY2.
  clear - HI1 HI2. split.
  - intros [Hx Hy]. split; symmetry; apply eqm_sub_0.
    + apply (eqm_cancel _ (Z1 * Z1 * Z2 * Z2) (I1 * I1 * I2 * I2)).
      * transitivity ((Z1 * I1) * (Z1 * I1) * (Z2 * I2) * (Z2 * I2)); [ringp|]. by rewrite HI1, HI2.
      * rewrite <- eqm_sub_0 in Hx. rewrite <- Hx. ringp.
    + apply (eqm_cancel _ (Z1 * Z1 * Z1 * Z2 * Z2 * Z2) (I1 * I1 * I1 * I2 * I2 * I2)).
      * transitivity ((Z1 * I1) * (Z1 * I1) * (Z1 * I1) * (Z2 * I2) * (Z2 * I2) * (Z2 * I2)); [ringp|]. by rewrite HI1, HI2.
      * rewrite <- eqm_sub_0 in Hy. rewrite <- Hy. ringp.
  - intros [-> ->]. split; ringp.
Qed.
