(* ===== verification/P256Mult.v ===== *)
(** Multiples of a point: the loops of P256Ec.v that select and copy under masks
    do what loops with branches would do, and every limb stays in bounds. *)

From S2P Require Import Prelude P256 P256Facts P256Ec P256Limbs P256Field P256Points.

(** ** Masks *)

(** Nine words of 32 bits. *)
Definition words (l : felem) : Prop := length l = NLIMBS /\ Forall (fun x => 0 <= x < 2 ^ 32) l.

Lemma fe_is_words l : fe l -> words l.
Proof. intros (Hl & Hb & _)%fe_words. split; [done|]. eapply Forall_impl; [exact Hb|]. cbn. lia. Qed.

Lemma high_bit x n : 0 <= x < 2 ^ 32 -> 32 <= n -> Z.testbit x n = false.
Proof. intros Hx Hn. rewrite <- (Z.mod_small x (2 ^ 32)) by done. apply Z.mod_pow2_bits_high. lia. Qed.

Lemma copy_none out a : length out = length a -> copy_conditional out a 0 = out.
Proof.
  unfold copy_conditional. revert a. induction out as [|o out IH]; intros [|i a] Hl; try done. cbn [zip_with].
  rewrite Z.land_0_l, Z.lxor_0_r, IH by (by injection Hl). done.
Qed.
Lemma copy_all out a : words out -> words a -> copy_conditional out a all_ones = a.
Proof.
  unfold copy_conditional, words. intros [Hl1 Ho] [Hl2 Ha]. rewrite <- Hl2 in Hl1. clear Hl2. revert a Hl1 Ha.
  induction Ho as [|o out Ho Hos IH]; intros [|i a] Hl Ha; try done. apply Forall_cons in Ha as [Hi Ha]. cbn [zip_with].
  rewrite IH by (done || by injection Hl). f_equal. apply Z.bits_inj'. intros n Hn. rewrite Z.lxor_spec, Z.land_spec, Z.lxor_spec.
  change all_ones with (Z.ones 32). rewrite Z.testbit_ones_nonneg by lia. destruct (Z.ltb_spec n 32).
  - by destruct (Z.testbit o n), (Z.testbit i n).
  - by rewrite !high_bit by done.
Qed.

(** The fifteen indices of a table. *)
Definition is_index (i : Z) : Prop := 0 <= i < 16.
Lemma select_mask_spec i index : is_index i -> is_index index -> select_mask i index = if i =? index then all_ones else 0.
Proof.
  unfold is_index. intros Hi Hx.
  assert (forallb (fun i => forallb (fun x => select_mask i x =? if i =? x then all_ones else 0) (seqZ 0 16)) (seqZ 0 16) = true) as Hall
    by (vm_compute; reflexivity).
  rewrite forallb_forall in Hall. specialize (Hall i ltac:(apply list_elem_of_In, elem_of_seqZ; lia)).
  rewrite forallb_forall in Hall. specialize (Hall index ltac:(apply list_elem_of_In, elem_of_seqZ; lia)). by apply Z.eqb_eq.
Qed.

Lemma or_masked_none out table : (length out <= length table)%nat -> or_masked out table 0 = out.
Proof.
  unfold or_masked. revert table. induction out as [|o out IH]; intros [|t table] Hl; cbn [length] in Hl; try done; try lia.
  cbn [zip_with]. rewrite Z.land_0_r, Z.lor_0_r, IH by lia. done.
Qed.
Lemma or_masked_all n table : (n <= length table)%nat -> Forall (fun x => 0 <= x < 2 ^ 32) table -> or_masked (replicate n 0) table all_ones = take n table.
Proof.
  unfold or_masked. intros Hl Ht. revert n Hl. induction Ht as [|t table Ht Hts IH]; intros [|n] Hl; cbn [length] in Hl; try done; try lia.
  cbn [replicate zip_with take]. rewrite IH by lia. f_equal. rewrite Z.lor_0_l. change all_ones with (Z.ones 32). rewrite Z.land_ones by lia. by apply Z.mod_small.
Qed.

(** ** Entries of a table *)

Abbreviation indices k m := (Z.of_nat <$> seq k m).
Lemma indices_S k m : indices k (S m) = Z.of_nat k :: indices (S k) m.
Proof. reflexivity. Qed.

Definition all_words (l : list Z) : Prop := Forall (fun x => 0 <= x < 2 ^ 32) l.

(** Indices above the one that is looked up change nothing. *)
Lemma select_affine_skip m : forall k index table x y, 0 <= index < Z.of_nat k -> (k + m <= 16)%nat ->
  length x = NLIMBS -> length y = NLIMBS -> (18 * m <= length table)%nat ->
  select_affine_loop (indices k m) table index x y = (x, y).
Proof.
  induction m as [|m IH]; intros k index table x y Hi Hk Hx Hy Ht; [done|]. rewrite indices_S. cbn [select_affine_loop].
  rewrite select_mask_spec, (proj2 (Z.eqb_neq _ _)) by (unfold is_index; lia). unfold NLIMBS in *.
  rewrite !or_masked_none by (rewrite ?length_drop; lia). apply IH; try done; try lia. rewrite length_drop. lia.
Qed.

Lemma select_affine_hit m : forall k j table, (j < m)%nat -> (k + m <= 16)%nat -> (18 * m <= length table)%nat -> all_words table ->
  select_affine_loop (indices k m) table (Z.of_nat (k + j)) kZero kZero = (take 9 (drop (18 * j) table), take 9 (drop (18 * j + 9) table)).
Proof.
  induction m as [|m IH]; intros k j table Hj Hk Ht Hw; [lia|]. rewrite indices_S. cbn [select_affine_loop].
  rewrite select_mask_spec by (unfold is_index; lia). unfold NLIMBS in *. destruct j as [|j].
  - rewrite Nat.add_0_r, Z.eqb_refl. unfold kZero, NLIMBS. rewrite !or_masked_all by (rewrite ?length_drop; try apply Forall_drop; done || lia).
    apply select_affine_skip; try lia; rewrite ?length_take, ?length_drop; unfold NLIMBS; lia.
  - rewrite (proj2 (Z.eqb_neq _ _)) by lia. rewrite !or_masked_none by (rewrite ?length_drop; unfold kZero, NLIMBS; cbn [length replicate]; lia).
    replace (k + S j)%nat with (S k + j)%nat by lia. rewrite IH; [|lia|lia|rewrite length_drop; lia|by apply Forall_drop].
    rewrite !drop_drop. f_equal; f_equal; f_equal; lia.
Qed.

Lemma select_jacobian_skip m : forall k index table x y z, 0 <= index < Z.of_nat k -> (k + m <= 16)%nat ->
  length x = NLIMBS -> length y = NLIMBS -> length z = NLIMBS -> (27 * m <= length table)%nat ->
  select_jacobian_loop (indices k m) table index (x, y, z) = (x, y, z).
Proof.
  induction m as [|m IH]; intros k index table x y z Hi Hk Hx Hy Hz Ht; [done|]. rewrite indices_S. cbn [select_jacobian_loop].
  rewrite select_mask_spec, (proj2 (Z.eqb_neq _ _)) by (unfold is_index; lia). unfold NLIMBS in *.
  rewrite !or_masked_none by (rewrite ?length_drop; lia). apply IH; try done; try lia. rewrite length_drop. lia.
Qed.

Lemma select_jacobian_hit m : forall k j table, (j < m)%nat -> (k + m <= 16)%nat -> (27 * m <= length table)%nat -> all_words table ->
  select_jacobian_loop (indices k m) table (Z.of_nat (k + j)) (kZero, kZero, kZero) =
    (take 9 (drop (27 * j) table), take 9 (drop (27 * j + 9) table), take 9 (drop (27 * j + 18) table)).
Proof.
  induction m as [|m IH]; intros k j table Hj Hk Ht Hw; [lia|]. rewrite indices_S. cbn [select_jacobian_loop].
  rewrite select_mask_spec by (unfold is_index; lia). unfold NLIMBS in *. destruct j as [|j].
  - rewrite Nat.add_0_r, Z.eqb_refl. unfold kZero, NLIMBS. rewrite !or_masked_all by (rewrite ?length_drop; try apply Forall_drop; done || lia).
    apply select_jacobian_skip; try lia; rewrite ?length_take, ?length_drop; unfold NLIMBS; lia.
  - rewrite (proj2 (Z.eqb_neq _ _)) by lia. rewrite !or_masked_none by (rewrite ?length_drop; unfold kZero, NLIMBS; cbn [length replicate]; lia).
    replace (k + S j)%nat with (S k + j)%nat by lia. rewrite IH; [|lia|lia|rewrite length_drop; lia|by apply Forall_drop].
    rewrite !drop_drop. f_equal; [f_equal|]; f_equal; f_equal; lia.
Qed.

(** The entry of a table of affine points; entry zero is implicit. *)
Definition affine_entry (table : list Z) (index : Z) : felem * felem :=
  let j := (18 * (Z.to_nat index - 1))%nat in (take 9 (drop j table), take 9 (drop (j + 9) table)).

Lemma select_affine_spec table index : is_index index -> (270 <= length table)%nat -> all_words table ->
  select_affine_point table index = if index =? 0 then (kZero, kZero) else affine_entry table index.
Proof.
  intros Hi Ht Hw. unfold select_affine_point. change one_to_fifteen with (indices 1 15). unfold is_index in Hi.
  destruct (Z.eqb_spec index 0) as [->|Hn].
  - apply select_affine_skip; done || lia.
  - replace index with (Z.of_nat (1 + (Z.to_nat index - 1))) at 1 by lia. apply select_affine_hit; done || lia.
Qed.

Definition jacobian_fe (P : jacobian) : Prop := fe P.1.1 /\ fe P.1.2 /\ fe P.2.
Definition jacobian_wide (P : jacobian) : Prop := words P.1.1 /\ words P.1.2 /\ words P.2.

Lemma jacobian_fe_words P : jacobian_fe P -> jacobian_wide P.
Proof. intros (? & ? & ?). split_and!; by apply fe_is_words. Qed.

Lemma concat_entry n : forall (l : list jacobian) P, Forall jacobian_wide l -> l !! n = Some P ->
  exists rest, drop (27 * n) (concat (jacobian_words <$> l)) = jacobian_words P ++ rest.
Proof.
  induction n as [|n IH]; intros [|Q l] P Hl HP; try done; apply Forall_cons in Hl as [HQ Hl].
  - injection HP as ->. by eexists.
  - destruct (IH l P Hl HP) as [rest Hr]. exists rest. rewrite <- Hr. destruct HQ as ([Hx _] & [Hy _] & [Hz _]). unfold NLIMBS in *.
    cbn [fmap list_fmap concat]. replace (27 * S n)%nat with (length (jacobian_words Q) + 27 * n)%nat; [by rewrite drop_app_add|].
    unfold jacobian_words. rewrite !length_app. lia.
Qed.

Lemma concat_words (l : list jacobian) : Forall jacobian_wide l ->
  all_words (concat (jacobian_words <$> l)) /\ length (concat (jacobian_words <$> l)) = (27 * length l)%nat.
Proof.
  intros Hl. induction Hl as [|P l ([Hx Hxw] & [Hy Hyw] & [Hz Hzw]) Hl [IHw IHl]]; [split; [constructor|done]|]. cbn [fmap list_fmap concat]. split.
  - unfold all_words, jacobian_words in *. by rewrite !Forall_app.
  - rewrite length_app. change (list_fmap _ _ jacobian_words l) with (jacobian_words <$> l). rewrite IHl. unfold jacobian_words, NLIMBS in *. rewrite !length_app. cbn [length]. lia.
Qed.

(** Looking up in the table of sixteen points. *)
Lemma select_jacobian_spec (l : list jacobian) index P : length l = 16%nat -> Forall jacobian_wide l -> is_index index ->
  l !! 0%nat = Some (kZero, kZero, kZero) -> l !! Z.to_nat index = Some P -> select_jacobian_point (concat (jacobian_words <$> l)) index = P.
Proof.
  intros Hl Hw Hi H0 HP. unfold select_jacobian_point. change one_to_fifteen with (indices 1 15). unfold is_index in Hi.
  destruct (concat_words l Hw) as [Haw Hlen]. destruct (Z.eq_dec index 0) as [->|Hn].
  - assert (P = (kZero, kZero, kZero)) as -> by (change (Z.to_nat 0) with 0%nat in HP; congruence).
    apply select_jacobian_skip; try done; try lia. rewrite length_drop, Hlen. unfold NLIMBS. lia.
  - replace index with (Z.of_nat (1 + (Z.to_nat index - 1))) by lia.
    rewrite select_jacobian_hit; [|lia|lia|rewrite length_drop, Hlen; unfold NLIMBS; lia|by apply Forall_drop].
    rewrite !drop_drop. destruct (concat_entry _ _ _ Hw HP) as [rest Hr]. unfold NLIMBS.
    replace (3 * 9 + 27 * (Z.to_nat index - 1))%nat with (27 * Z.to_nat index)%nat by lia.
    replace (3 * 9 + (27 * (Z.to_nat index - 1) + 9))%nat with (27 * Z.to_nat index + 9)%nat by lia.
    replace (3 * 9 + (27 * (Z.to_nat index - 1) + 18))%nat with (27 * Z.to_nat index + 18)%nat by lia.
    rewrite <- (drop_drop _ 9 (27 * _)), <- (drop_drop _ 18 (27 * _)), Hr. eapply (Forall_lookup_1 _ _ _ _ Hw) in HP as ([Hx _] & [Hy _] & [Hz _]).
    destruct P as [[x y] z]. unfold jacobian_words, NLIMBS in *. cbn [fst snd] in *. rewrite <- !app_assoc. f_equal; [f_equal|].
    + by apply take_app_length'.
    + rewrite drop_app_length' by done. by apply take_app_length'.
    + rewrite app_assoc, drop_app_length' by (rewrite length_app; lia). by apply take_app_length'.
Qed.

(** ** Accumulation *)

Lemma mask_of_index index : is_index index -> NON_ZERO_TO_ALL_ONES index = if index =? 0 then 0 else all_ones.
Proof. intros Hi. unfold is_index in Hi. destruct (Z.eqb_spec index 0) as [->|]; [done|]. apply mask_ones. lia. Qed.

Lemma copy_none_words out a : words out -> words a -> copy_conditional out a 0 = out.
Proof. intros [Ho _] [Ha _]. apply copy_none. congruence. Qed.

(** While the point is at infinity the entry replaces it; afterwards the sum does,
    unless the entry is the point at infinity. *)
Lemma accumulate_infinity n P T index : jacobian_wide n -> jacobian_wide P -> jacobian_wide T -> is_index index ->
  accumulate n P T index all_ones = (P, if index =? 0 then all_ones else 0).
Proof.
  destruct n as [[nx ny] nz], P as [[px py] pz], T as [[tx ty] tz]. intros (? & ? & ?) (? & ? & ?) (? & ? & ?) Hi. cbn [fst snd] in *.
  unfold accumulate. rewrite !copy_all by done. rewrite mask_of_index by done. change (limb (Z.lnot all_ones)) with 0. rewrite Z.land_0_r.
  rewrite !copy_none_words by done. by destruct (index =? 0).
Qed.
Lemma accumulate_finite n P T index : jacobian_wide n -> jacobian_wide P -> jacobian_wide T -> is_index index ->
  accumulate n P T index 0 = (if index =? 0 then n else T, 0).
Proof.
  destruct n as [[nx ny] nz], P as [[px py] pz], T as [[tx ty] tz]. intros (? & ? & ?) (? & ? & ?) (? & ? & ?) Hi. cbn [fst snd] in *.
  unfold accumulate. rewrite !(copy_none_words _ _) by done. rewrite mask_of_index by done. change (limb (Z.lnot 0)) with all_ones.
  destruct (index =? 0).
  - rewrite Z.land_0_l, !copy_none_words by done. done.
  - change (Z.land all_ones all_ones) with all_ones. rewrite !copy_all by done. done.
Qed.

(** ** Bounds on the points *)

Lemma fe_repr l : fe l -> repr l (fval 29 l * Rinv).
Proof. by split. Qed.
Lemma jacobian_fe_repr P : jacobian_fe P -> reprJ P (fval 29 P.1.1 * Rinv) (fval 29 P.1.2 * Rinv) (fval 29 P.2 * Rinv).
Proof. intros (? & ? & ?). split_and!; by apply fe_repr. Qed.
Lemma reprJ_fe P X Y Z : reprJ P X Y Z -> jacobian_fe P.
Proof. intros ([? _] & [? _] & [? _]). by split_and!. Qed.

Lemma point_double_fe P : jacobian_fe P -> jacobian_fe (point_double P).
Proof. intros HP%jacobian_fe_repr. eapply reprJ_fe, point_double_repr, HP. Qed.
Lemma point_add_fe P Q : jacobian_fe P -> jacobian_fe Q -> jacobian_fe (point_add P Q).
Proof. intros HP%jacobian_fe_repr HQ%jacobian_fe_repr. eapply reprJ_fe, point_add_repr; [exact HP|exact HQ]. Qed.
Lemma point_add_mixed_fe P x y : jacobian_fe P -> fe x -> fe y -> jacobian_fe (point_add_mixed P x y).
Proof. intros HP%jacobian_fe_repr Hx%fe_repr Hy%fe_repr. eapply reprJ_fe, point_add_mixed_repr; [exact HP|exact Hx|exact Hy]. Qed.

Lemma kZero_fe : fe kZero.
Proof. split; [done|]. cbn. lia. Qed.
Lemma kOne_fe : fe kOne.
Proof. split; [done|]. cbn. lia. Qed.
#[export] Hint Resolve point_double_fe point_add_fe point_add_mixed_fe kZero_fe kOne_fe jacobian_fe_words : field.

Lemma get_bit_range a bit : p256_get_bit a bit = 0 \/ p256_get_bit a bit = 1.
Proof. unfold p256_get_bit. change 1 with (Z.ones 1) at 2 4. rewrite Z.land_ones by lia. pose proof (Z.mod_pos_bound (Z.shiftr (P256_DIGIT a (Z.to_nat (bit / P256_BITSPERDIGIT))) (Z.land bit (P256_BITSPERDIGIT - 1))) (2 ^ 1)). lia. Qed.
Lemma base_index_range scalar i j : is_index (base_index scalar i j).
Proof.
  unfold base_index, is_index.
  destruct (get_bit_range scalar (31 - i + j)) as [-> | ->], (get_bit_range scalar (95 - i + j)) as [-> | ->],
    (get_bit_range scalar (159 - i + j)) as [-> | ->], (get_bit_range scalar (223 - i + j)) as [-> | ->]; done.
Qed.
Lemma mult_index_range scalar i : is_index (mult_index scalar i).
Proof.
  unfold mult_index, is_index.
  destruct (get_bit_range scalar (255 - i - 0)) as [-> | ->], (get_bit_range scalar (255 - i - 1)) as [-> | ->],
    (get_bit_range scalar (255 - i - 2)) as [-> | ->], (get_bit_range scalar (255 - i - 3)) as [-> | ->]; done.
Qed.

(** ** The loops with branches *)

(** An entry of a table is added, unless it is the point at infinity; [None] is
    the point at infinity. *)
Definition add_entry (add : jacobian -> jacobian) (entry : jacobian) (index : Z) (n : option jacobian) : option jacobian :=
  if index =? 0 then n else Some (match n with None => entry | Some q => add q end).

Definition base_add (scalar : p256_int) (i j : Z) (table_offset : nat) (n : option jacobian) : option jacobian :=
  let index := base_index scalar i j in
  let '(px, py) := affine_entry (drop table_offset kPrecomputed) index in
  add_entry (fun q => point_add_mixed q px py) (px, py, kOne) index n.
Definition base_round (scalar : p256_int) (n : option jacobian) (i : Z) : option jacobian :=
  let n := if i =? 0 then n else point_double <$> n in
  base_add scalar i 32 270 (base_add scalar i 0 0 n).

Definition mult_round (precomp : list jacobian) (scalar : p256_int) (n : option jacobian) (i : Z) : option jacobian :=
  let n := if i =? 0 then n else (fun q => point_double (point_double (point_double (point_double q)))) <$> n in
  let index := mult_index scalar i in
  let entry := nth (Z.to_nat index) precomp (kZero, kZero, kZero) in
  add_entry (fun q => point_add q entry) entry index n.

(** The state of the loops under masks and the point of the loops with branches. *)
Definition simulates (st : mult_state) (n : option jacobian) : Prop :=
  jacobian_fe st.1 /\ match n with None => st.2 = all_ones | Some q => st = (q, 0) end.

Lemma accumulate_simulates (add : jacobian -> jacobian) q mask n entry index :
  simulates (q, mask) n -> jacobian_fe entry -> is_index index -> (forall q, jacobian_fe q -> jacobian_fe (add q)) ->
  simulates (accumulate q entry (add q) index mask) (add_entry add entry index n) /\
  (index = 0 -> n = None -> accumulate q entry (add q) index mask = (entry, all_ones)).
Proof.
  intros [Hq Hn] He Hi Hadd. cbn [fst snd] in *. unfold add_entry. destruct n as [r|].
  - injection Hn as -> ->. rewrite accumulate_finite by auto with field. destruct (index =? 0); (split; [|done]); split; cbn; auto.
  - subst mask. rewrite accumulate_infinity by auto with field. destruct (Z.eqb_spec index 0); (split; [|done]); split; cbn; auto.
Qed.

Lemma simulates_double (f : jacobian -> jacobian) i q mask n : (forall q, jacobian_fe q -> jacobian_fe (f q)) -> simulates (q, mask) n ->
  simulates (if i =? 0 then q else f q, mask) (if i =? 0 then n else f <$> n).
Proof.
  intros Hf [Hq Hn]. destruct (i =? 0); [done|]. cbn [fst snd] in *. split; [by apply Hf|]. destruct n; [|done]. cbn. by injection Hn as -> ->.
Qed.

(** A loop of rounds under masks does what the loop of rounds with branches does;
    [D] is what the code leaves in the point if it stays at infinity. *)
Lemma loop_simulates (step : mult_state -> Z -> mult_state) (round : option jacobian -> Z -> option jacobian) D l :
  (forall st n i, simulates st n -> simulates (step st i) (round n i) /\ (round n i = None -> (step st i).1 = D)) ->
  forall st n, simulates st n -> l <> [] -> simulates (fold_left step l st) (fold_left round l n) /\
    (fold_left step l st).1 = default D (fold_left round l n).
Proof.
  intros Hstep. induction l as [|i l IH]; intros st n Hst Hl; [done|]. destruct (Hstep st n i Hst) as [Hs Hd].
  cbn [fold_left]. destruct (decide (l = [])) as [->|Hne]; [|by apply IH]. cbn [fold_left]. split; [done|].
  destruct Hs as [_ Hn]. destruct (round n i); cbn [default]; [by rewrite Hn|by apply Hd].
Qed.

(** ** The table of multiples of the base point *)

Fixpoint belowb (k w : Z) (l : list Z) : bool :=
  match l with [] => true | x :: l => (0 <=? x) && (x <? 2 ^ (w + k)) && belowb k (57 - w) l end.
Lemma belowb_below k l : forall w, belowb k w l = true -> below k w l.
Proof.
  induction l as [|x l IH]; intros w Hb; [done|]. cbn [belowb] in Hb. apply andb_true_iff in Hb as [[H1 H2]%andb_true_iff Hb].
  split; [by split; [apply Z.leb_le|apply Z.ltb_lt]|by apply IH].
Qed.
Definition feb (l : felem) : bool := (length l =? NLIMBS)%nat && belowb 1 29 l && (nth 8 l 0 <? 2 ^ 29).
Lemma feb_fe l : feb l = true -> fe l.
Proof.
  unfold feb. intros [[H1 H2]%andb_true_iff H3]%andb_true_iff. split; [by apply Nat.eqb_eq|]. split; [by apply belowb_below|by apply Z.ltb_lt].
Qed.

Definition entry_ok (table_offset index : nat) : bool :=
  let '(x, y) := affine_entry (drop table_offset kPrecomputed) (Z.of_nat index) in feb x && feb y.
Lemma precomputed_fe table_offset index : table_offset = 0%nat \/ table_offset = 270%nat -> is_index index -> index <> 0 ->
  fe (affine_entry (drop table_offset kPrecomputed) index).1 /\ fe (affine_entry (drop table_offset kPrecomputed) index).2.
Proof.
  intros Ho Hi Hn. unfold is_index in Hi.
  assert (forallb (entry_ok 0) (seq 1 15) && forallb (entry_ok 270) (seq 1 15) = true) as Hall by (vm_compute; reflexivity).
  apply andb_true_iff in Hall as [H0 H1]. rewrite forallb_forall in H0, H1.
  assert (entry_ok table_offset (Z.to_nat index) = true) as He by (destruct Ho as [-> | ->]; [apply H0|apply H1]; apply in_seq; lia).
  unfold entry_ok in He. rewrite Z2Nat.id in He by lia. destruct (affine_entry (drop table_offset kPrecomputed) index) as [x y].
  apply andb_true_iff in He as [Hx Hy]. by split; apply feb_fe.
Qed.
Lemma precomputed_words table_offset : table_offset = 0%nat \/ table_offset = 270%nat ->
  (270 <= length (drop table_offset kPrecomputed))%nat /\ all_words (drop table_offset kPrecomputed).
Proof.
  intros Ho. split; [destruct Ho as [-> | ->]; rewrite length_drop; change (length kPrecomputed) with 540%nat; lia|].
  apply Forall_drop. change (all_words kPrecomputed). unfold all_words. apply List.Forall_forall. intros x Hx.
  assert (forallb (fun x => (0 <=? x) && (x <? 2 ^ 32)) kPrecomputed = true) as Hall by (vm_compute; reflexivity).
  rewrite forallb_forall in Hall. specialize (Hall x Hx). apply andb_true_iff in Hall as [H1 H2]. split; [by apply Z.leb_le|by apply Z.ltb_lt].
Qed.

Lemma scalar_base_add_simulates scalar i j table_offset st n : table_offset = 0%nat \/ table_offset = 270%nat -> simulates st n ->
  simulates (scalar_base_add scalar i j table_offset st) (base_add scalar i j table_offset n) /\
  (base_add scalar i j table_offset n = None -> (scalar_base_add scalar i j table_offset st).1 = (kZero, kZero, kOne)).
Proof.
  intros Ho Hs. destruct st as [q mask]. unfold scalar_base_add, base_add. pose proof (base_index_range scalar i j) as Hi.
  destruct (precomputed_words table_offset Ho) as [Hl Hw]. rewrite select_affine_spec by done.
  set (index := base_index scalar i j) in *. clearbody index. cbv zeta.
  destruct (Z.eqb_spec index 0) as [->|Hn].
  - destruct (affine_entry (drop table_offset kPrecomputed) 0) as [px py]. unfold add_entry. change (0 =? 0) with true. cbv iota.
    destruct (accumulate_simulates (fun q => point_add_mixed q kZero kZero) q mask n (kZero, kZero, kOne) 0) as [Ha Hd];
      [done|split_and!; auto with field|done|auto with field|]. split; [exact Ha|]. intros Hnone. by rewrite (Hd eq_refl Hnone).
  - destruct (precomputed_fe table_offset index Ho Hi Hn) as [Hx Hy]. destruct (affine_entry (drop table_offset kPrecomputed) index) as [px py].
    cbn [fst snd] in Hx, Hy.
    destruct (accumulate_simulates (fun q => point_add_mixed q px py) q mask n (px, py, kOne) index) as [Ha Hd];
      [done|split_and!; auto with field|done|auto with field|]. split; [exact Ha|].
    unfold add_entry. by rewrite (proj2 (Z.eqb_neq _ _) Hn).
Qed.

(** The multiplication of the base point: with its table, its masks and its
    conditional copies, the code computes what the loop with branches computes,
    which skips the entries of index zero and starts at the first other one. *)
Lemma scalar_base_mult_spec scalar :
  scalar_base_mult scalar = default (kZero, kZero, kOne) (fold_left (base_round scalar) (seqZ 0 32) None) /\ jacobian_fe (scalar_base_mult scalar).
Proof.
  unfold scalar_base_mult. destruct (loop_simulates (scalar_base_round scalar) (base_round scalar) (kZero, kZero, kOne) (seqZ 0 32)) with (st := infinity) (n := @None jacobian)
    as [[Hf _] He]; [|split; [split_and!; auto with field|done]|done|by split].
  intros [q mask] n i Hs. unfold scalar_base_round, base_round.
  pose proof (simulates_double point_double i q mask n point_double_fe Hs) as Hd.
  destruct (scalar_base_add_simulates scalar i 0 0 _ _ ltac:(auto) Hd) as [H0 _].
  exact (scalar_base_add_simulates scalar i 32 270 _ _ ltac:(auto) H0).
Qed.

(** ** Multiples of any point *)

Lemma precompute_spec x y : fe x -> fe y ->
  length (precompute x y) = 16%nat /\ Forall jacobian_fe (precompute x y) /\ precompute x y !! 0%nat = Some (kZero, kZero, kZero).
Proof.
  intros Hx Hy. assert (jacobian_fe (kZero, kZero, kZero)) by (split_and!; auto with field).
  assert (jacobian_fe (x, y, kOne)) by (split_and!; auto with field).
  cbv [precompute fold_left precompute_step app nth Nat.div Nat.divmod fst snd]. split_and!; [done| |done].
  repeat (constructor; [auto 20 with field|]). constructor.
Qed.

(** The multiplication of a point in windows of four bits: the code with its
    table of sixteen multiples, its masks and its conditional copies computes what
    the loop with branches computes. *)
Lemma scalar_mult_spec x y scalar : fe x -> fe y ->
  scalar_mult x y scalar = default (kZero, kZero, kZero) (fold_left (mult_round (precompute x y) scalar) (Z.mul 4 <$> seqZ 0 64) None) /\
  jacobian_fe (scalar_mult x y scalar).
Proof.
  intros Hx Hy. destruct (precompute_spec x y Hx Hy) as (Hl & Hf & H0). unfold scalar_mult. cbv zeta.
  set (l := precompute x y) in *. clearbody l. assert (Forall jacobian_wide l) as Hw by (eapply Forall_impl; [exact Hf|]; apply jacobian_fe_words).
  destruct (loop_simulates (scalar_mult_round (concat (jacobian_words <$> l)) scalar) (mult_round l scalar) (kZero, kZero, kZero) (Z.mul 4 <$> seqZ 0 64))
    with (st := infinity) (n := @None jacobian) as [[Hq _] He]; [|split; [split_and!; auto with field|done]|done|by split].
  intros [q mask] n i Hs. unfold scalar_mult_round, mult_round. pose proof (mult_index_range scalar i) as Hi.
  set (index := mult_index scalar i) in *. clearbody index. cbv zeta.
  assert (l !! Z.to_nat index = Some (nth (Z.to_nat index) l (kZero, kZero, kZero))) as Hnth.
  { destruct (lookup_lt_is_Some_2 l (Z.to_nat index)) as [P HP]; [rewrite Hl; unfold is_index in Hi; lia|]. rewrite HP. f_equal. symmetry. by apply nth_lookup_Some. }
  rewrite (select_jacobian_spec l index _ Hl Hw Hi H0 Hnth). set (entry := nth (Z.to_nat index) l (kZero, kZero, kZero)) in *.
  assert (jacobian_fe entry) as He by (by apply (Forall_lookup_1 _ _ _ _ Hf) in Hnth).
  pose proof (simulates_double (fun q => point_double (point_double (point_double (point_double q)))) i q mask n ltac:(intros; do 4 apply point_double_fe; done) Hs) as Hd.
  destruct (accumulate_simulates (fun q => point_add q entry) _ _ _ entry index Hd He Hi ltac:(intros; by apply point_add_fe)) as [Ha Hz]. split; [exact Ha|].
  unfold add_entry. destruct (Z.eqb_spec index 0) as [->|]; [|done]. intros Hnone. rewrite (Hz eq_refl Hnone). cbn [fst].
  change (Z.to_nat 0) with 0%nat in Hnth. rewrite H0 in Hnth. by injection Hnth as <-.
Qed.

(** ** Affine results *)

Lemma felem_inv_fe l : fe l -> fe (felem_inv l).
Proof. intros Hl%fe_repr. by apply felem_inv_pow in Hl as [? _]. Qed.

(** The coordinates that a point is given back with are X / Z^2 and Y / Z^3, the
    division being by the power p - 2. *)
Lemma affine_of_repr P X Y Z : reprJ P X Y Z ->
  let Zi := Z ^ (p - 2) in
  number (affine_of P).1 /\ val (affine_of P).1 = (X * (Zi * Zi)) mod p /\ number (affine_of P).2 /\ val (affine_of P).2 = (Y * (Zi * (Zi * Zi))) mod p.
Proof.
  intros (Hx & Hy & Hz). destruct P as [[x y] z]. cbn [fst snd] in *. unfold affine_of, point_to_affine. cbn [fst snd]. cbv zeta.
  pose proof (felem_inv_pow z Z Hz) as Hi. set (i := felem_inv z) in *. clearbody i.
  destruct (from_montgomery_spec (felem_mul x (felem_square i)) (X * (Z ^ (p - 2) * Z ^ (p - 2)))) as [Hnx Hvx].
  { repr_step. }
  { apply felem_mul_reduced; [apply Hx|by apply repr_square in Hi as [? _]]. }
  destruct (from_montgomery_spec (felem_mul y (felem_mul i (felem_square i))) (Y * (Z ^ (p - 2) * (Z ^ (p - 2) * Z ^ (p - 2))))) as [Hny Hvy].
  { repr_step. }
  { apply felem_mul_reduced; [apply Hy|]. eapply repr_mul; [exact Hi|]. by apply repr_square. }
  done.
Qed.

(** A point is given back in affine coordinates: if [P] stands for (x, y), the
    two numbers are the residues of [x] and [y]. *)
Theorem affine_of_spec P x y : is_point P x y ->
  number (affine_of P).1 /\ val (affine_of P).1 = x mod p /\ number (affine_of P).2 /\ val (affine_of P).2 = y mod p.
Proof.
  intros (X & Y & Z & Zi & HP & HZ & HX & HY). destruct (affine_of_repr P X Y Z HP) as (Hnx & Hvx & Hny & Hvy).
  pose proof (inverse_is_power Z Zi HZ) as Hi. split_and!; [done| |done|].
  - rewrite Hvx. change (X * (Z ^ (p - 2) * Z ^ (p - 2)) =p x). rewrite Hi, HX.
    transitivity (x * (Z * Zi) * (Z * Zi)); [ringp|]. rewrite HZ. ringp.
  - rewrite Hvy. change (Y * (Z ^ (p - 2) * (Z ^ (p - 2) * Z ^ (p - 2))) =p y). rewrite Hi, HY.
    transitivity (y * (Z * Zi) * (Z * Zi) * (Z * Zi)); [ringp|]. rewrite HZ. ringp.
Qed.

(** The sum of a multiple of the base point and a multiple of a given point is
    computed for every input. *)
Lemma points_mul_total n1 n2 x y : number x -> number y -> exists rx ry, p256_points_mul_vartime n1 n2 x y = Some (rx, ry) /\ number rx.
Proof.
  intros Hx Hy. unfold p256_points_mul_vartime. destruct (p256_is_zero n1 && p256_is_zero n2).
  { exists P256_ZERO, P256_ZERO. split; [done|apply p256_zero_number]. }
  cbv zeta. destruct (repr_to_montgomery x Hx) as [Hfx _], (repr_to_montgomery y Hy) as [Hfy _].
  destruct (scalar_base_mult_spec n1) as [_ H1]. destruct (scalar_mult_spec _ _ n2 Hfx Hfy) as [_ H2].
  set (P1 := scalar_base_mult n1) in *. set (P2 := scalar_mult _ _ n2) in *. clearbody P1 P2.
  assert (exists P, (if p256_is_zero n2 then Some P1 else if p256_is_zero n1 then Some P2 else point_add_or_double_vartime P1 P2) = Some P /\ jacobian_fe P)
    as (P & -> & HP).
  { destruct (p256_is_zero n2); [by eexists|]. destruct (p256_is_zero n1); [by eexists|].
    destruct (point_add_or_double_repr P1 P2 _ _ _ _ _ _ (jacobian_fe_repr _ H1) (jacobian_fe_repr _ H2)) as (b & -> & _).
    eexists. split; [reflexivity|]. destruct b; auto with field. }
  cbn [mbind option_bind]. destruct (affine_of_repr P _ _ _ (jacobian_fe_repr _ HP)) as (Hnx & Hvx & Hny & Hvy).
  destruct (affine_of P) as [rx ry]. cbn [fst snd] in *. by exists rx, ry.
Qed.
