(* ===== verification/Curve.v ===== *)
(** The group of a curve y^2 = x^3 + a x + b: points and their sums over any field
    in which 2 is not 0, and the proof that they form an abelian group.

    The line through two points that are not opposite has one slope, which two
    equations determine together: one for the chord, one for the tangent.  All
    cases of associativity but two then follow from one polynomial identity. *)

From Stdlib Require Import Field Znumtheory.
From S2P Require Import Prelude.

Section Curve.
Context {F : Type} (fzero fone : F) (fadd fmul fsub : F -> F -> F) (fopp : F -> F) (fdiv : F -> F -> F) (finv : F -> F).
Context (Fth : field_theory fzero fone fadd fmul fsub fopp fdiv finv eq).
Context `{!EqDecision F}.
Context (a b : F).

#[local] Infix "+" := fadd.
#[local] Infix "-" := fsub.
#[local] Infix "*" := fmul.
#[local] Infix "/" := fdiv.
#[local] Notation "- x" := (fopp x).
#[local] Notation "0" := fzero.
#[local] Notation "1" := fone.
#[local] Notation "2" := (1 + 1).
#[local] Notation "3" := (1 + 1 + 1).
Context (two_not_0 : 2 <> 0) (nonsingular : forall x, x * x * x + a * x + b = 0 -> 3 * x * x + a <> 0).

Add Field curve_field : Fth.

(** A point is at infinity or has coordinates. *)
Definition point : Type := option (F * F).

Definition curve_point (P : point) : Prop :=
  match P with
  | None => True
  | Some (x, y) => y * y = x * x * x + a * x + b
  end.

Definition popp (P : point) : point :=
  match P with
  | None => None
  | Some (x, y) => Some (x, - y)
  end.

(** The third point of the line of slope [s] through (x1, y1) and a point of the
    abscissa [x2], reflected. *)
Definition third (s x1 y1 x2 : F) : F * F :=
  let x3 := s * s - x1 - x2 in (x3, s * (x1 - x3) - y1).

(** The slope of the line through two points that are not opposite. *)
Definition slope (x1 y1 x2 y2 : F) : F :=
  if decide (x1 = x2) then (3 * x1 * x1 + a) / (2 * y1) else (y1 - y2) / (x1 - x2).

Definition padd (P Q : point) : point :=
  match P, Q with
  | None, _ => Q
  | _, None => P
  | Some (x1, y1), Some (x2, y2) =>
      if decide (x1 = x2 /\ y1 = - y2) then None else Some (third (slope x1 y1 x2 y2) x1 y1 x2)
  end.

(** ** Lines *)

Lemma f_cancel u v : u * v = 0 -> u <> 0 -> v = 0.
Proof. intros Huv Hu. transitivity (u * v / u); [by field|]. rewrite Huv. by field. Qed.
Lemma f_eq u v : u - v = 0 -> u = v.
Proof. intros He. transitivity (u - v + v); [ring|]. rewrite He. ring. Qed.
Lemma f_sub_ne u v : u <> v -> u - v <> 0.
Proof. intros Hn He. by apply Hn, f_eq. Qed.
Lemma f_half u : u + u = 0 -> u = 0.
Proof. intros He. apply (f_cancel 2); [|done]. rewrite <- He. ring. Qed.

(** [s] is the slope of the line through the points: as a chord and as a tangent. *)
Definition on_line (s x1 y1 x2 y2 : F) : Prop :=
  s * (x1 - x2) = y1 - y2 /\ s * (y1 + y2) = x1 * x1 + x1 * x2 + x2 * x2 + a.

Lemma opposite_or x y1 y2 : curve_point (Some (x, y1)) -> curve_point (Some (x, y2)) -> y1 = y2 \/ y1 = - y2.
Proof.
  cbn. intros H1 H2. destruct (decide (y1 = y2)) as [|Hn]; [by left|right]. apply f_eq, (f_cancel (y1 - y2)); [|by apply f_sub_ne].
  transitivity (y1 * y1 - y2 * y2); [ring|]. rewrite H1, H2. ring.
Qed.

Lemma slope_on_line x1 y1 x2 y2 : curve_point (Some (x1, y1)) -> curve_point (Some (x2, y2)) -> ~ (x1 = x2 /\ y1 = - y2) ->
  on_line (slope x1 y1 x2 y2) x1 y1 x2 y2.
Proof.
  intros H1 H2 Hn. unfold slope, on_line. destruct (decide (x1 = x2)) as [<-|Hx].
  - destruct (opposite_or x1 y1 y2 H1 H2) as [<-|Ho]; [|tauto]. assert (2 * y1 <> 0).
    { intros He. apply Hn. split; [done|]. assert (y1 = 0) as ->; [|ring]. apply f_half. rewrite <- He. ring. }
    split; [ring|]. field. split; [|done]. intros ->. apply H. ring.
  - pose proof (f_sub_ne x1 x2 Hx). split; [by field|]. transitivity ((y1 * y1 - y2 * y2) / (x1 - x2)); [by field|].
    cbn in H1, H2. rewrite H1, H2. by field.
Qed.

(** Only one slope does, unless the points are opposite. *)
Lemma on_line_unique s t x1 y1 x2 y2 : on_line s x1 y1 x2 y2 -> on_line t x1 y1 x2 y2 -> ~ (x1 = x2 /\ y1 = - y2) -> s = t.
Proof.
  intros [Hs1 Hs2] [Ht1 Ht2] Hn. apply f_eq. destruct (decide (x1 = x2)) as [Hx|Hx].
  - apply (f_cancel (y1 + y2)); [|intros He; apply Hn; split; [done|]; apply f_eq; rewrite <- He; ring].
    transitivity (s * (y1 + y2) - t * (y1 + y2)); [ring|]. rewrite Hs2, Ht2. ring.
  - apply (f_cancel (x1 - x2)); [|by apply f_sub_ne]. transitivity (s * (x1 - x2) - t * (x1 - x2)); [ring|]. rewrite Hs1, Ht1. ring.
Qed.

(** So a sum is known from any slope that fits. *)
Lemma padd_line s x1 y1 x2 y2 : curve_point (Some (x1, y1)) -> curve_point (Some (x2, y2)) -> ~ (x1 = x2 /\ y1 = - y2) ->
  on_line s x1 y1 x2 y2 -> padd (Some (x1, y1)) (Some (x2, y2)) = Some (third s x1 y1 x2).
Proof.
  intros H1 H2 Hn Hs. unfold padd. rewrite decide_False by done. do 2 f_equal. eapply on_line_unique; [by apply slope_on_line|done|done].
Qed.


(** ** The group *)

Lemma line_a s x1 y1 x2 y2 : on_line s x1 y1 x2 y2 ->
  y2 = y1 - s * (x1 - x2) /\ a = s * (y1 + y1 - s * (x1 - x2)) - (x1 * x1 + x1 * x2 + x2 * x2).
Proof.
  intros [H1 H2]. assert (y2 = y1 - s * (x1 - x2)) as Hy by (rewrite H1; ring). split; [done|].
  transitivity (s * (y1 + y2) - (x1 * x1 + x1 * x2 + x2 * x2)); [rewrite H2|rewrite Hy]; ring.
Qed.
Lemma curve_b x y : curve_point (Some (x, y)) -> b = y * y - x * x * x - a * x.
Proof. cbn. intros ->. ring. Qed.

Lemma third_curve s x1 y1 x2 y2 : curve_point (Some (x1, y1)) -> on_line s x1 y1 x2 y2 -> curve_point (Some (third s x1 y1 x2)).
Proof. intros H1 [_ Ha]%line_a. pose proof (curve_b x1 y1 H1) as Hb. cbn. rewrite Hb, Ha. ring. Qed.

Lemma padd_curve P Q : curve_point P -> curve_point Q -> curve_point (padd P Q).
Proof.
  intros HP HQ. destruct P as [[x1 y1]|]; [|done]. destruct Q as [[x2 y2]|]; [|done]. unfold padd.
  case_decide as Hn; [done|]. eapply third_curve; [done|by apply slope_on_line].
Qed.
Lemma popp_curve P : curve_point P -> curve_point (popp P).
Proof. destruct P as [[x y]|]; [|done]. cbn. intros <-. ring. Qed.
Lemma popp_popp P : popp (popp P) = P.
Proof. destruct P as [[x y]|]; [|done]. cbn. do 2 f_equal. ring. Qed.

(** The cases of a sum. *)
Lemma padd_cases P Q : curve_point P -> curve_point Q ->
  P = None \/ Q = None \/ Q = popp P \/
  exists x1 y1 x2 y2 s, P = Some (x1, y1) /\ Q = Some (x2, y2) /\ ~ (x1 = x2 /\ y1 = - y2) /\ on_line s x1 y1 x2 y2 /\
    padd P Q = Some (third s x1 y1 x2).
Proof.
  intros HP HQ. destruct P as [[x1 y1]|]; [|by left]. destruct Q as [[x2 y2]|]; [|by right; left]. right. right.
  destruct (decide (x1 = x2 /\ y1 = - y2)) as [[<- ->]|Hn]; [left; cbn; do 2 f_equal; ring|right].
  exists x1, y1, x2, y2, (slope x1 y1 x2 y2). pose proof (slope_on_line _ _ _ _ HP HQ Hn). split_and!; try done. by apply padd_line.
Qed.
Lemma padd_None_l P : padd None P = P.
Proof. done. Qed.
Lemma padd_None_r P : padd P None = P.
Proof. by destruct P as [[]|]. Qed.
Lemma padd_popp P : padd P (popp P) = None.
Proof. destruct P as [[x y]|]; [|done]. cbn. rewrite decide_True; [done|]. split; [done|ring]. Qed.

Lemma on_line_sym s x1 y1 x2 y2 : on_line s x1 y1 x2 y2 -> on_line s x2 y2 x1 y1.
Proof.
  intros [H1 H2]. split.
  - transitivity (- (s * (x1 - x2))); [ring|]. rewrite H1. ring.
  - transitivity (s * (y1 + y2)); [ring|]. rewrite H2. ring.
Qed.
Lemma third_sym s x1 y1 x2 y2 : on_line s x1 y1 x2 y2 -> third s x1 y1 x2 = third s x2 y2 x1.
Proof. intros [-> _]%line_a. unfold third. f_equal; ring. Qed.

Lemma padd_comm P Q : curve_point P -> curve_point Q -> padd P Q = padd Q P.
Proof.
  intros HP HQ. destruct (padd_cases P Q HP HQ) as [->|[->|[->|(x1 & y1 & x2 & y2 & s & -> & -> & Hn & Hs & ->)]]].
  - by rewrite padd_None_r.
  - by rewrite padd_None_r.
  - rewrite <- (popp_popp P) at 4. by rewrite !padd_popp.
  - rewrite (third_sym s x1 y1 x2 y2 Hs). symmetry. apply padd_line; [done|done| |by apply on_line_sym].
    intros [-> ->]. apply Hn. split; [done|ring].
Qed.

Lemma popp_padd P Q : curve_point P -> curve_point Q -> popp (padd P Q) = padd (popp P) (popp Q).
Proof.
  intros HP HQ. destruct (padd_cases P Q HP HQ) as [->|[->|[->|(x1 & y1 & x2 & y2 & s & -> & -> & Hn & Hs & ->)]]].
  - done.
  - by rewrite !padd_None_r.
  - by rewrite !padd_popp.
  - symmetry. cbn [popp]. rewrite (padd_line (- s) x1 (- y1) x2 (- y2)).
    + unfold third. cbn. f_equal. f_equal; ring.
    + apply (popp_curve (Some (x1, y1)) HP).
    + apply (popp_curve (Some (x2, y2)) HQ).
    + intros [-> He]. apply Hn. split; [done|]. transitivity (- - y1); [ring|]. rewrite He. ring.
    + destruct Hs as [H1 H2]. split; [transitivity (- (s * (x1 - x2)))|transitivity (s * (y1 + y2))]; (ring || rewrite ?H1, ?H2; ring).
Qed.

(** The third point of a line, reflected and added to the opposite of the first,
    is the second. *)
Lemma padd_cancel P Q : curve_point P -> curve_point Q -> padd (popp P) (padd P Q) = Q.
Proof.
  intros HP HQ. destruct (padd_cases P Q HP HQ) as [->|[->|[->|(x1 & y1 & x2 & y2 & s & -> & -> & Hn & Hs & He)]]].
  - done.
  - rewrite padd_None_r. rewrite <- (popp_popp P) at 2. apply padd_popp.
  - by rewrite padd_popp, padd_None_r.
  - rewrite He. destruct (line_a _ _ _ _ _ Hs) as [Hy Ha]. pose proof (third_curve s x1 y1 x2 y2 HP Hs) as H3. unfold third in *. cbv zeta in *.
    set (x3 := s * s - x1 - x2) in *. set (y3 := s * (x1 - x3) - y1) in *. cbn [popp].
    rewrite (padd_line (- s) x1 (- y1) x3 y3).
    + unfold third. f_equal. f_equal; [unfold x3; ring|]. rewrite Hy. unfold x3. ring.
    + apply (popp_curve (Some (x1, y1)) HP).
    + exact H3.
    + intros [Hx Hyy]. assert (y1 = 0) as Hy0.
      { apply f_half. transitivity (- (- y1) + y1); [ring|]. rewrite Hyy. unfold y3. rewrite <- Hx. ring. }
      apply (nonsingular x1); [cbn in HP; rewrite <- HP, Hy0; ring|]. rewrite Ha, Hy0.
      transitivity ((s * s - x1 - x2 - x1) * (x2 - x1)); [ring|]. fold x3. rewrite Hx. ring.
    + split; [unfold y3; ring|]. rewrite Ha. unfold y3, x3. ring.
Qed.

(** Two lines through the middle point, of slopes [l] and [m]: [t], the quotient of
    x1 - x3 by l - m, gives the slopes of the two lines that remain. *)
Section Lines.
Context (l m t x1 y1 x2 y2 x3 y3 : F).
Context (Hl : on_line l x1 y1 x2 y2) (Hm : on_line m x2 y2 x3 y3) (Hlm : l <> m) (Ht : x3 = x1 - t * (l - m)).

Lemma lines_y : y1 = y2 + l * (x1 - x2) /\ y3 = y2 + m * (x3 - x2) /\
  a = l * (y2 + y2 + l * (x1 - x2)) - (x1 * x1 + x1 * x2 + x2 * x2) /\
  y2 + y2 - (t * (x1 + x2 + x3) - (l + m) * (x1 - x2) - m * m * t) = 0.
Proof.
  destruct (line_a _ _ _ _ _ (on_line_sym _ _ _ _ _ Hl)) as [H1 Ha]. destruct (line_a _ _ _ _ _ Hm) as [H3 Ha'].
  assert (a = l * (y2 + y2 + l * (x1 - x2)) - (x1 * x1 + x1 * x2 + x2 * x2)) as Ha2 by (rewrite Ha; ring).
  split; [rewrite H1; ring|]. split; [rewrite H3; ring|]. split; [done|].
  apply (f_cancel (l - m)); [|by apply f_sub_ne]. transitivity (l * (y2 + y2 + l * (x1 - x2)) - (x1 * x1 + x1 * x2 + x2 * x2) -
    (m * (y2 + y2 - m * (x2 - x3)) - (x2 * x2 + x2 * x3 + x3 * x3))); [rewrite Ht; ring|]. rewrite <- Ha2, <- Ha'. ring.
Qed.

#[local] Abbreviation x4 := (third l x1 y1 x2).1.
#[local] Abbreviation y4 := (third l x1 y1 x2).2.
#[local] Abbreviation x5 := (third m x2 y2 x3).1.
#[local] Abbreviation y5 := (third m x2 y2 x3).2.

Lemma lines_left : on_line (t - l) x4 y4 x3 y3.
Proof.
  destruct lines_y as (H1 & H3 & Ha & HY). unfold third. cbn [fst snd]. split; apply f_eq.
  - rewrite <- HY, H3, H1, Ht. ring.
  - transitivity ((- l) * (y2 + y2 - (t * (x1 + x2 + x3) - (l + m) * (x1 - x2) - m * m * t))); [rewrite Ha, H3, H1, Ht; ring|]. rewrite HY. ring.
Qed.
Lemma lines_right : on_line (t - m) x1 y1 x5 y5.
Proof.
  destruct lines_y as (H1 & H3 & Ha & HY). unfold third. cbn [fst snd]. split; apply f_eq.
  - transitivity (- (y2 + y2 - (t * (x1 + x2 + x3) - (l + m) * (x1 - x2) - m * m * t))); [rewrite H1, Ht; ring|]. rewrite HY. ring.
  - transitivity ((- l) * (y2 + y2 - (t * (x1 + x2 + x3) - (l + m) * (x1 - x2) - m * m * t))); [rewrite Ha, H1, Ht; ring|]. rewrite HY. ring.
Qed.
Lemma lines_meet : third (t - l) x4 y4 x3 = third (t - m) x1 y1 x5.
Proof.
  destruct lines_y as (H1 & H3 & Ha & HY). unfold third. cbn [fst snd]. f_equal; [rewrite Ht; ring|]. apply f_eq.
  rewrite <- HY, H1, Ht. ring.
Qed.

End Lines.

(** Lines of one slope through the middle point are one line. *)
Lemma one_line s x1 y1 x2 y2 x3 y3 : on_line s x1 y1 x2 y2 -> on_line s x2 y2 x3 y3 ->
  (x1 = x3 /\ y1 = y3) \/ third s x1 y1 x2 = (x3, - y3).
Proof.
  intros Hl Hm. destruct (line_a _ _ _ _ _ (on_line_sym _ _ _ _ _ Hl)) as [H1 Ha]. destruct (line_a _ _ _ _ _ Hm) as [H3 Ha'].
  destruct (decide (x1 = x3)) as [<-|Hn]; [left; split; [done|]; rewrite H1, H3; ring|right].
  assert (x3 = s * s - x1 - x2) as Hx.
  { apply f_eq, (f_cancel (x3 - x1)); [|by apply f_sub_ne, not_eq_sym].
    transitivity (s * (y2 + y2 - s * (x2 - x1)) - (x2 * x2 + x2 * x1 + x1 * x1) - (s * (y2 + y2 - s * (x2 - x3)) - (x2 * x2 + x2 * x3 + x3 * x3)) ); [ring|].
    rewrite <- Ha, <- Ha'. ring. }
  unfold third. rewrite <- Hx. f_equal. rewrite H1, H3. ring.
Qed.

Lemma padd_cancel_r P Q : curve_point P -> curve_point Q -> padd (padd P Q) (popp Q) = P.
Proof.
  intros HP HQ. rewrite padd_comm, (padd_comm P Q) by auto using padd_curve, popp_curve. by apply padd_cancel.
Qed.
Lemma padd_back P Q : curve_point P -> curve_point Q -> padd P (padd (popp P) Q) = Q.
Proof. intros HP HQ. rewrite <- (popp_popp P) at 1. apply padd_cancel; [by apply popp_curve|done]. Qed.

(** If the sum of two points is the opposite of the third, all three add up to
    infinity in either order. *)
Lemma padd_opposite P Q : curve_point P -> curve_point Q -> padd P (padd Q (popp (padd P Q))) = None.
Proof.
  intros HP HQ. rewrite popp_padd, (padd_comm (popp P)) by auto using popp_curve. rewrite padd_back by auto using popp_curve. apply padd_popp.
Qed.

(** ** Associativity *)

Lemma padd_assoc_lines P Q R l m x1 y1 x2 y2 x3 y3 : curve_point P -> curve_point Q -> curve_point R ->
  P = Some (x1, y1) -> Q = Some (x2, y2) -> R = Some (x3, y3) -> on_line l x1 y1 x2 y2 -> on_line m x2 y2 x3 y3 ->
  padd P Q = Some (third l x1 y1 x2) -> padd Q R = Some (third m x2 y2 x3) -> P <> R -> R <> popp (padd P Q) -> P <> popp (padd Q R) ->
  padd (padd P Q) R = padd P (padd Q R).
Proof.
  intros HP HQ HR -> -> -> Hl Hm El Em Hne HnR HnP. pose proof (padd_curve _ _ HP HQ) as Hc4. pose proof (padd_curve _ _ HQ HR) as Hc5.
  rewrite El in *. rewrite Em in *. destruct (decide (l = m)) as [<-|Hlm].
  { destruct (one_line l x1 y1 x2 y2 x3 y3 Hl Hm) as [[-> ->]|He]; [done|]. destruct HnR. rewrite He. cbn. do 2 f_equal. ring. }
  set (t := (x1 - x3) / (l - m)). assert (x3 = x1 - t * (l - m)) as Ht by (unfold t; field; by apply f_sub_ne).
  pose proof (lines_left l m t x1 y1 x2 y2 x3 y3 Hl Hm Hlm Ht) as HL. pose proof (lines_right l m t x1 y1 x2 y2 x3 y3 Hl Hm Hlm Ht) as HR'.
  pose proof (lines_meet l m t x1 y1 x2 y2 x3 y3 Hl Hm Hlm Ht) as HM.
  destruct (third l x1 y1 x2) as [x4 y4]. destruct (third m x2 y2 x3) as [x5 y5]. cbn [fst snd] in *.
  rewrite (padd_line (t - l) x4 y4 x3 y3), (padd_line (t - m) x1 y1 x5 y5), HM; try done.
  - intros [<- ->]. by apply HnP.
  - intros [<- ->]. apply HnR. cbn. do 2 f_equal. ring.
Qed.

Theorem padd_assoc P Q R : curve_point P -> curve_point Q -> curve_point R -> padd (padd P Q) R = padd P (padd Q R).
Proof.
  intros HP HQ HR. destruct (padd_cases P Q HP HQ) as [->|[->|[->|(x1 & y1 & x2 & y2 & l & E1 & E2 & Hn & Hl & He)]]].
  - done.
  - by rewrite padd_None_r.
  - rewrite padd_popp, padd_None_l. symmetry. by apply padd_back.
  - destruct (padd_cases Q R HQ HR) as [->|[->|[->|(x2' & y2' & x3 & y3 & m & E2' & E3 & Hn' & Hm & He')]]].
    + done.
    + by rewrite !padd_None_r.
    + rewrite padd_popp, padd_None_r. by apply padd_cancel_r.
    + destruct (decide (R = popp (padd P Q))) as [->|HnR]; [rewrite padd_popp; symmetry; by apply padd_opposite|].
      destruct (decide (P = popp (padd Q R))) as [->|HnP].
      { rewrite (padd_comm (popp (padd Q R)) (padd Q R)), padd_popp by auto using padd_curve, popp_curve.
        rewrite (padd_comm (padd (popp (padd Q R)) Q) R), (padd_comm (popp (padd Q R)) Q), (padd_comm Q R) by auto using padd_curve, popp_curve.
        by apply padd_opposite. }
      destruct (decide (P = R)) as [->|Hne].
      { rewrite (padd_comm (padd R Q)), (padd_comm R Q) by auto using padd_curve. done. }
      subst Q. injection E2' as <- <-. by eapply padd_assoc_lines.
Qed.

(** ** Multiples *)

(** The sum of [k] times [P], computed by doubling. *)
Definition pmul (k : Z) (P : point) : point :=
  match k with
  | Zpos q => Pos.iter_op padd q P
  | _ => None
  end.

Fixpoint times (k : nat) (P : point) : point :=
  match k with
  | O => None
  | S k => padd P (times k P)
  end.

Lemma times_curve P : curve_point P -> forall k : nat, curve_point (times k P).
Proof. intros HP k. induction k as [|k IH]; [done|]. by apply padd_curve. Qed.
Lemma times_add P : curve_point P -> forall j k : nat,
  times (j + k) P = padd (times j P) (times k P).
Proof.
  intros HP j k. induction j as [|j IH]; [done|]. cbn [Nat.add times]. rewrite IH. symmetry. apply padd_assoc; auto using times_curve.
Qed.
Lemma times_double P : curve_point P -> forall k : nat, times k (padd P P) = times (k + k) P.
Proof.
  intros HP k. induction k as [|k IH]; [done|]. cbn [times]. rewrite IH, Nat.add_succ_r. cbn [Nat.add times].
  apply padd_assoc; auto using times_curve.
Qed.

(** [pmul] is the repeated sum. *)
Lemma pmul_nat P k : curve_point P -> 0 <= k -> pmul k P = times (Z.to_nat k) P.
Proof.
  intros HP Hk. destruct k as [|q|q]; [done| |lia]. clear Hk. change (Z.to_nat (Zpos q)) with (Pos.to_nat q). unfold pmul.
  revert P HP. induction q as [q IH|q IH|]; intros P HP; cbn [Pos.iter_op].
  - rewrite IH, times_double, Pos2Nat.inj_xI by auto using padd_curve. cbn [times]. do 2 f_equal. lia.
  - rewrite IH, times_double, Pos2Nat.inj_xO by auto using padd_curve. f_equal. lia.
  - change (Pos.to_nat 1) with 1%nat. cbn [times]. by rewrite padd_None_r.
Qed.
Lemma pmul_curve P k : curve_point P -> curve_point (pmul k P).
Proof. intros HP. destruct (Z.le_gt_cases 0 k); [rewrite pmul_nat by done; by apply times_curve|by destruct k]. Qed.
Lemma pmul_add P j k : curve_point P -> 0 <= j -> 0 <= k -> pmul (j + k) P = padd (pmul j P) (pmul k P).
Proof. intros HP Hj Hk. rewrite !pmul_nat, Z2Nat.inj_add by (done || lia). by apply times_add. Qed.
Lemma pmul_1 P : pmul 1 P = P.
Proof. done. Qed.
Lemma pmul_0 P : pmul 0 P = None.
Proof. done. Qed.
Lemma pmul_None k : pmul k None = None.
Proof. destruct (Z.le_gt_cases 0 k); [|by destruct k]. rewrite pmul_nat by done. induction (Z.to_nat k) as [|n IH]; [done|]. exact IH. Qed.
Lemma pmul_double P k : curve_point P -> 0 <= k -> pmul (2 * k) P = padd (pmul k P) (pmul k P).
Proof. intros HP Hk. replace (2 * k)%Z with (k + k)%Z by lia. by apply pmul_add. Qed.
Lemma pmul_mul P j k : curve_point P -> 0 <= j -> 0 <= k -> pmul (j * k) P = pmul j (pmul k P).
Proof.
  intros HP Hj Hk. rewrite (pmul_nat (pmul k P)) by auto using pmul_curve. rewrite <- (Z2Nat.id j) at 1 by done.
  induction (Z.to_nat j) as [|n IH]; [done|]. rewrite Nat2Z.inj_succ, Z.mul_succ_l, Z.add_comm, pmul_add by (done || lia). rewrite IH. done.
Qed.

(** A point whose multiple by a prime is infinity has no smaller multiple that is. *)
Lemma pmul_order P n k : curve_point P -> P <> None -> prime n -> pmul n P = None -> 0 <= k -> pmul k P = None -> (n | k).
Proof.
  intros HP Hne Hn HnP Hk HkP. destruct (Zdivide_dec n k) as [|Hnd]; [done|exfalso]. pose proof (prime_ge_2 n Hn).
  destruct (rel_prime_bezout k n) as [u v Huv]; [by apply rel_prime_sym, prime_rel_prime|].
  set (w := (u mod n)%Z). pose proof (Z.mod_pos_bound u n ltac:(lia)) as Hw. fold w in Hw.
  assert (exists j, 0 <= j /\ (w * k = 1 + j * n)%Z) as (j & Hj & Hwk).
  { exists (w * k / n)%Z. split; [apply Z.div_pos; lia|]. rewrite (Z.mul_comm _ n).
    assert ((w * k) mod n = 1)%Z as Hm; [|pose proof (Z.div_mod (w * k) n ltac:(lia)); lia].
    unfold w. rewrite Zmult_mod_idemp_l. replace (u * k)%Z with (1 + (- v) * n)%Z by lia. rewrite Z_mod_plus_full. apply Z.mod_small. lia. }
  apply Hne. transitivity (pmul (w * k) P).
  - rewrite Hwk, pmul_add, pmul_mul, HnP, pmul_None, padd_None_r by lia || done. done.
  - rewrite pmul_mul, HkP by (done || lia). apply pmul_None.
Qed.

(** Two multiples agree, or are opposite, only if the factors do modulo the order. *)
Lemma pmul_opposite P n j k : curve_point P -> P <> None -> prime n -> pmul n P = None -> 0 <= j -> 0 <= k ->
  pmul k P = popp (pmul j P) -> (n | j + k).
Proof.
  intros HP Hne Hn HnP Hj Hk He. apply (pmul_order P n); try done; [lia|]. rewrite pmul_add, He by done. apply padd_popp.
Qed.
Lemma pmul_difference P j k : curve_point P -> 0 <= j -> 0 <= k -> pmul (j + k) P = pmul j P -> pmul k P = None.
Proof.
  intros HP Hj Hk He. rewrite pmul_add in He by done.
  rewrite <- (padd_cancel (pmul j P) (pmul k P)), He by auto using pmul_curve. rewrite <- (padd_None_r (pmul j P)) at 2. apply padd_cancel; [by apply pmul_curve|exact I].
Qed.
Lemma pmul_same P n j k : curve_point P -> P <> None -> prime n -> pmul n P = None -> 0 <= j -> j <= k ->
  pmul k P = pmul j P -> (n | k - j).
Proof.
  intros HP Hne Hn HnP Hj Hk He. apply (pmul_order P n); try done; [lia|]. apply (pmul_difference P j); [done|done|lia|].
  by replace (j + (k - j))%Z with k by lia.
Qed.

End Curve.
