(* ===== verification/P256Group.v ===== *)
(** The group of P-256: the curve y^2 = x^3 - 3 x + b over the residues modulo p,
    as the reference for the points in Jacobian coordinates of P256Ec.v. *)

From Stdlib Require Import Field Zdiv Znumtheory Setoid Zmod.
From S2P Require Import Prelude Primes P256 P256Facts P256Ec P256Limbs P256Field P256Points P256Mult Curve.

(** ** The field *)

Abbreviation Fp := (Zmod p).
Definition of_Z (z : Z) : Fp := Zmod.of_Z p z.

#[export] Instance Fp_eq_dec : EqDecision Fp.
Proof. intros x y. destruct (Z.eq_dec (Zmod.unsigned x) (Zmod.unsigned y)) as [He|Hn]; [left; by apply Zmod.unsigned_inj|right; congruence]. Defined.

Lemma of_Z_eq x y : of_Z x = of_Z y <-> x =p y.
Proof. apply Zmod.of_Z_inj. Qed.
Lemma of_Z_unsigned (x : Fp) : of_Z (Zmod.unsigned x) = x.
Proof. apply Zmod.of_Z_unsigned. Qed.
Lemma of_Z_add x y : of_Z (x + y) = Zmod.add (of_Z x) (of_Z y).
Proof. apply Zmod.of_Z_add. Qed.
Lemma of_Z_sub x y : of_Z (x - y) = Zmod.sub (of_Z x) (of_Z y).
Proof. apply Zmod.of_Z_sub. Qed.
Lemma of_Z_mul x y : of_Z (x * y) = Zmod.mul (of_Z x) (of_Z y).
Proof. apply Zmod.of_Z_mul. Qed.

Lemma Fp_field : field_theory (Zmod.zero : Fp) Zmod.one Zmod.add Zmod.mul Zmod.sub Zmod.opp Zmod.mdiv Zmod.inv eq.
Proof. apply Zmod.field_theory, prime_alt, p_prime. Qed.
Add Field Fp_field_inst : Fp_field.
#[global] Opaque Zmod.of_Z Zmod.add Zmod.mul Zmod.sub Zmod.opp Zmod.inv Zmod.mdiv Zmod.zero Zmod.one.

Lemma of_Z_0 : of_Z 0 = Zmod.zero.
Proof. done. Qed.
Lemma of_Z_1 : of_Z 1 = Zmod.one.
Proof. done. Qed.
Lemma of_Z_inverse x y : x * y =p 1 -> of_Z x <> Zmod.zero /\ of_Z y = Zmod.inv (of_Z x).
Proof.
  intros He%of_Z_eq. rewrite of_Z_mul, of_Z_1 in He. assert (of_Z x <> Zmod.zero) as Hx.
  { intros Hz. rewrite Hz in He. pose proof (F_1_neq_0 Fp_field) as H10. apply H10. rewrite <- He. ring. }
  split; [done|]. transitivity (Zmod.mul (Zmod.inv (of_Z x)) (Zmod.mul (of_Z x) (of_Z y))); [by field|]. rewrite He. ring.
Qed.
Lemma inverse_of_Z x : of_Z x <> Zmod.zero -> Zmod.unsigned (Zmod.inv (of_Z x)) * x =p 1.
Proof. intros Hx. apply of_Z_eq. rewrite of_Z_mul, of_Z_unsigned, of_Z_1. by field. Qed.

(** ** The curve *)

Definition curve_a : Fp := of_Z (-3).
Definition curve_b : Fp := of_Z (val SECP256r1_b).

Abbreviation point := (Curve.point (F := Fp)).
Abbreviation add_points := (padd (Zmod.one : Fp) Zmod.add Zmod.mul Zmod.sub Zmod.opp Zmod.mdiv curve_a).
Abbreviation opposite := (popp (F := Fp) Zmod.opp).
Abbreviation multiple := (pmul (Zmod.one : Fp) Zmod.add Zmod.mul Zmod.sub Zmod.opp Zmod.mdiv curve_a).
Abbreviation is_curve_point := (curve_point (F := Fp) Zmod.add Zmod.mul curve_a curve_b).

Lemma curve_point_of_Z x y : is_curve_point (Some (of_Z x, of_Z y)) <-> y * y =p curve_rhs x.
Proof. unfold curve_point, curve_a, curve_b. rewrite <- !of_Z_mul, <- !of_Z_add, of_Z_eq. unfold curve_rhs. split; intros He; rewrite He; ringp. Qed.

Lemma Fp_two : Zmod.add (Zmod.one : Fp) Zmod.one <> Zmod.zero.
Proof. rewrite <- of_Z_1, <- of_Z_add, <- of_Z_0, of_Z_eq. by vm_compute. Qed.

Lemma Fp_product (x y : Fp) : Zmod.mul x y = Zmod.zero -> x = Zmod.zero \/ y = Zmod.zero.
Proof.
  intros He. destruct (decide (x = Zmod.zero)) as [|Hx]; [by left|right]. transitivity (Zmod.mdiv (Zmod.mul x y) x); [by field|]. rewrite He. by field.
Qed.

Lemma curve_a_eq : curve_a = Zmod.opp (Zmod.add (Zmod.add Zmod.one Zmod.one) Zmod.one).
Proof. unfold curve_a. change (-3) with (0 - (1 + 1 + 1)). rewrite of_Z_sub, !of_Z_add, of_Z_1, of_Z_0. ring. Qed.
Lemma Fp_nonsingular (x : Fp) :
  Zmod.add (Zmod.add (Zmod.mul (Zmod.mul x x) x) (Zmod.mul curve_a x)) curve_b = Zmod.zero ->
  Zmod.add (Zmod.mul (Zmod.mul (Zmod.add (Zmod.add Zmod.one Zmod.one) Zmod.one) x) x) curve_a <> Zmod.zero.
Proof.
  intros Hc Hd. pose proof curve_a_eq as Ha. rewrite Ha in Hc, Hd.
  assert (Zmod.mul (Zmod.sub x Zmod.one) (Zmod.add x Zmod.one) = Zmod.zero) as [Hx|Hx]%Fp_product.
  { destruct (Fp_product (Zmod.add (Zmod.add Zmod.one Zmod.one) Zmod.one) (Zmod.mul (Zmod.sub x Zmod.one) (Zmod.add x Zmod.one))) as [H3|]; [|exfalso|done].
    - rewrite <- Hd. ring.
    - revert H3. rewrite <- of_Z_1, <- !of_Z_add, <- of_Z_0, of_Z_eq. by vm_compute. }
  - assert (x = Zmod.one) as -> by (transitivity (Zmod.add (Zmod.sub x Zmod.one) Zmod.one); [ring|rewrite Hx; ring]).
    assert (curve_b = of_Z 2) as Hb; [|revert Hb; unfold curve_b; rewrite of_Z_eq; by vm_compute].
    change 2 with (1 + 1). rewrite of_Z_add, of_Z_1. transitivity (Zmod.add (Zmod.zero : Fp) (Zmod.add Zmod.one Zmod.one)); [rewrite <- Hc|]; ring.
  - assert (x = Zmod.opp Zmod.one) as -> by (transitivity (Zmod.sub (Zmod.add x Zmod.one) Zmod.one); [ring|rewrite Hx; ring]).
    assert (curve_b = of_Z (0 - 2)) as Hb; [|revert Hb; unfold curve_b; rewrite of_Z_eq; by vm_compute].
    change 2 with (1 + 1). rewrite of_Z_sub, of_Z_add, of_Z_1, of_Z_0.
    transitivity (Zmod.sub (Zmod.zero : Fp) (Zmod.add Zmod.one Zmod.one)); [rewrite <- Hc|]; ring.
Qed.

(** ** The group *)

Tactic Notation "group" uconstr(lem) := intros; eapply lem; eauto using Fp_field, Fp_two, Fp_nonsingular.

Lemma add_points_curve P Q : is_curve_point P -> is_curve_point Q -> is_curve_point (add_points P Q).
Proof. group padd_curve. Qed.
Lemma opposite_curve P : is_curve_point P -> is_curve_point (opposite P).
Proof. group popp_curve. Qed.
Lemma add_points_comm P Q : is_curve_point P -> is_curve_point Q -> add_points P Q = add_points Q P.
Proof. group padd_comm. Qed.
Lemma add_points_assoc P Q R : is_curve_point P -> is_curve_point Q -> is_curve_point R -> add_points (add_points P Q) R = add_points P (add_points Q R).
Proof. group padd_assoc. Qed.
Lemma add_points_cancel P Q : is_curve_point P -> is_curve_point Q -> add_points (opposite P) (add_points P Q) = Q.
Proof. group padd_cancel. Qed.
Lemma add_points_inj P Q R : is_curve_point P -> is_curve_point Q -> is_curve_point R -> add_points P Q = add_points P R -> Q = R.
Proof. intros HP HQ HR He. rewrite <- (add_points_cancel P Q), He by done. by apply add_points_cancel. Qed.
Lemma add_points_back P Q : is_curve_point P -> is_curve_point Q -> add_points P (add_points (opposite P) Q) = Q.
Proof. group padd_back. Qed.
Lemma multiple_curve P k : is_curve_point P -> is_curve_point (multiple k P).
Proof. group pmul_curve. Qed.
Lemma multiple_add P j k : is_curve_point P -> 0 <= j -> 0 <= k -> multiple (j + k) P = add_points (multiple j P) (multiple k P).
Proof. group pmul_add. Qed.
Lemma multiple_double P k : is_curve_point P -> 0 <= k -> multiple (2 * k) P = add_points (multiple k P) (multiple k P).
Proof. group pmul_double. Qed.
Lemma multiple_order P q k : is_curve_point P -> P <> None -> prime q -> multiple q P = None -> 0 <= k -> multiple k P = None -> (q | k).
Proof. group pmul_order. Qed.
Lemma multiple_opposite P q j k : is_curve_point P -> P <> None -> prime q -> multiple q P = None -> 0 <= j -> 0 <= k ->
  multiple k P = opposite (multiple j P) -> (q | j + k).
Proof. group pmul_opposite. Qed.
Lemma multiple_difference P j k : is_curve_point P -> 0 <= j -> 0 <= k -> multiple (j + k) P = multiple j P -> multiple k P = None.
Proof. intros. eapply pmul_difference with (j := j); eauto using Fp_field, Fp_two, Fp_nonsingular. Qed.
Lemma multiple_same P q j k : is_curve_point P -> P <> None -> prime q -> multiple q P = None -> 0 <= j -> j <= k ->
  multiple k P = multiple j P -> (q | k - j).
Proof. group pmul_same. Qed.

(** ** Jacobian coordinates *)

(** The coordinates stand for a point; the point at infinity has [Z] zero. *)
Definition stands (P : jacobian) (A : point) : Prop :=
  match A with
  | None => exists X Y Z, reprJ P X Y Z /\ Z =p 0
  | Some (x, y) => is_point P (Zmod.unsigned x) (Zmod.unsigned y)
  end.

Lemma is_point_of P x y (x' y' : Fp) : is_point P x y -> of_Z x = x' -> of_Z y = y' -> stands P (Some (x', y')).
Proof.
  intros (X & Y & Z & Zi & HP & HZ & HX & HY) <- <-. exists X, Y, Z, Zi. split; [done|]. split; [done|].
  assert (forall z, Zmod.unsigned (of_Z z) =p z) as Hz by (intros z; apply of_Z_eq, of_Z_unsigned). rewrite !Hz. done.
Qed.

(** The constructions of P256Points.v, in the field. *)
Lemma of_line s x1 x2 y1 : (of_Z (line_x s x1 x2), of_Z (line_y s x1 x2 y1)) = third Zmod.mul Zmod.sub (of_Z s) (of_Z x1) (of_Z y1) (of_Z x2).
Proof. unfold third, line_y, line_x. cbv zeta. rewrite !of_Z_sub, !of_Z_mul, !of_Z_sub, !of_Z_mul. done. Qed.
Lemma stands_line P s x1 x2 y1 (s' x1' y1' x2' : Fp) : is_point P (line_x s x1 x2) (line_y s x1 x2 y1) ->
  of_Z s = s' -> of_Z x1 = x1' -> of_Z y1 = y1' -> of_Z x2 = x2' -> stands P (Some (third Zmod.mul Zmod.sub s' x1' y1' x2')).
Proof. intros HP <- <- <- <-. rewrite <- of_line. by eapply is_point_of. Qed.

Lemma of_Z_double x : of_Z (2 * x) = Zmod.mul (Zmod.add Zmod.one Zmod.one) (of_Z x).
Proof. change 2 with (1 + 1). by rewrite of_Z_mul, of_Z_add, of_Z_1. Qed.
Lemma of_Z_triple x : of_Z (3 * x) = Zmod.mul (Zmod.add (Zmod.add Zmod.one Zmod.one) Zmod.one) (of_Z x).
Proof. change 3 with (1 + 1 + 1). by rewrite of_Z_mul, !of_Z_add, of_Z_1. Qed.

Lemma stands_double P A : stands P A -> A <> opposite A -> stands (point_double P) (add_points A A).
Proof.
  destruct A as [[x y]|]; [|done]. intros HP Hn. unfold padd. assert (y <> Zmod.opp y) as Hy by (intros He; apply Hn; cbn; by rewrite <- He).
  rewrite decide_False by tauto. unfold slope. rewrite decide_True by done.
  assert (of_Z (2 * Zmod.unsigned y) <> Zmod.zero) as H2.
  { rewrite of_Z_double, of_Z_unsigned. intros [?%Fp_two|Hz]%Fp_product; [done|]. apply Hy. rewrite Hz. ring. }
  pose proof (point_double_spec P _ _ _ HP (inverse_of_Z _ H2)) as HD. cbv zeta in HD. rewrite of_Z_double, of_Z_unsigned in H2.
  eapply stands_line; [exact HD| |apply of_Z_unsigned..]. rewrite of_Z_mul, of_Z_sub, !of_Z_unsigned, of_Z_double, <- Z.mul_assoc, of_Z_triple, of_Z_mul, !of_Z_unsigned.
  rewrite curve_a_eq, (eq_refl : of_Z 3 = of_Z (3 * 1)), of_Z_triple, of_Z_1. field. split; [|apply Fp_two]. intros ->. apply H2. ring.
Qed.

(** The points differ in their first coordinates. *)
Definition distinct (A B : point) : Prop := A <> None /\ B <> None /\ A <> B /\ A <> opposite B.

Lemma distinct_x x1 y1 x2 y2 : is_curve_point (Some (x1, y1)) -> is_curve_point (Some (x2, y2)) -> distinct (Some (x1, y1)) (Some (x2, y2)) -> x1 <> x2.
Proof.
  intros H1 H2 (_ & _ & Hn & Ho) <-. destruct (opposite_or _ _ _ _ _ _ _ _ Fp_field _ _ x1 y1 y2 H1 H2) as [->| ->]; [done|]. by apply Ho.
Qed.

(** The inverse of the difference. *)
Lemma inverse_difference (x1 x2 : Fp) : x1 <> x2 ->
  exists d, d * (Zmod.unsigned x2 - Zmod.unsigned x1) =p 1 /\ of_Z d = Zmod.inv (Zmod.sub x2 x1).
Proof.
  intros Hx. assert (of_Z (Zmod.unsigned x2 - Zmod.unsigned x1) = Zmod.sub x2 x1) as He by (by rewrite of_Z_sub, !of_Z_unsigned).
  assert (Zmod.sub x2 x1 <> Zmod.zero) as Hz.
  { intros Hz. apply Hx. transitivity (Zmod.sub x2 (Zmod.sub x2 x1)); [ring|]. rewrite Hz. ring. }
  exists (Zmod.unsigned (Zmod.inv (Zmod.sub x2 x1))). rewrite of_Z_unsigned. split; [|done]. rewrite <- He in Hz |- *. by apply inverse_of_Z.
Qed.
Lemma chord_slope (x1 y1 x2 y2 : Fp) d : x1 <> x2 -> of_Z d = Zmod.inv (Zmod.sub x2 x1) ->
  of_Z ((Zmod.unsigned y2 - Zmod.unsigned y1) * d) = slope Zmod.one Zmod.add Zmod.mul Zmod.sub Zmod.mdiv curve_a x1 y1 x2 y2.
Proof.
  intros Hx Hd. unfold slope. rewrite decide_False by done. rewrite of_Z_mul, of_Z_sub, !of_Z_unsigned, Hd. field.
  split; intros Hz; apply Hx; [transitivity (Zmod.add (Zmod.sub x1 x2) x2)|transitivity (Zmod.sub x2 (Zmod.sub x2 x1))]; (ring || rewrite Hz; ring).
Qed.

Lemma stands_add P Q A B : stands P A -> stands Q B -> is_curve_point A -> is_curve_point B -> distinct A B -> stands (point_add P Q) (add_points A B).
Proof.
  intros HP HQ HA HB Hd. destruct A as [[x1 y1]|]; [|by destruct Hd]. destruct B as [[x2 y2]|]; [|by destruct Hd as (_ & ? & _)].
  pose proof (distinct_x _ _ _ _ HA HB Hd) as Hx. destruct (inverse_difference x1 x2 Hx) as (d & Hi & Hd').
  unfold padd. rewrite decide_False by tauto. eapply stands_line; [exact (point_add_spec P Q _ _ _ _ d HP HQ Hi)|by apply chord_slope|apply of_Z_unsigned..].
Qed.

(** A second point in affine coordinates. *)
Lemma stands_add_mixed P a b A x2 y2 : stands P A -> repr a (Zmod.unsigned x2) -> repr b (Zmod.unsigned y2) -> is_curve_point A -> is_curve_point (Some (x2, y2)) ->
  distinct A (Some (x2, y2)) -> stands (point_add_mixed P a b) (add_points A (Some (x2, y2))).
Proof.
  intros HP Ha Hb HA HB Hd. destruct A as [[x1 y1]|]; [|by destruct Hd].
  pose proof (distinct_x _ _ _ _ HA HB Hd) as Hx. destruct (inverse_difference x1 x2 Hx) as (d & Hi & Hd').
  unfold padd. rewrite decide_False by tauto. eapply stands_line; [exact (point_add_mixed_spec P a b _ _ _ _ d HP Ha Hb Hi)|by apply chord_slope|apply of_Z_unsigned..].
Qed.

(** The sum of opposite points. *)
Lemma stands_add_opposite P Q A : A <> None -> stands P A -> stands Q (opposite A) -> stands (point_add P Q) None.
Proof.
  destruct A as [[x y]|]; [|done]. intros _ (X1 & Y1 & Z1 & I1 & HP & HI1 & HX1 & HY1) (X2 & Y2 & Z2 & I2 & HQ & HI2 & HX2 & HY2).
  eexists _, _, _. split; [exact (point_add_repr P Q _ _ _ _ _ _ HP HQ)|]. rewrite HX1, HX2. ringp.
Qed.
