(* ===== verification/P256Fast.v ===== *)
(** Computations with the points of P-256 that a proof can run: residues as
    integers that are not reduced completely, points in Jacobian coordinates. *)

From Stdlib Require Import Zdiv Znumtheory Setoid Zmod.
From S2P Require Import Prelude Primes P256 P256Facts P256Ec P256Limbs P256Field P256Points P256Mult Curve P256Group.

(** ** Residues *)

Fixpoint split (n : nat) (z : Z) : list Z :=
  match n with
  | O => [z]
  | S n => Z.land z 0xffffffff :: split n (Z.shiftr z 32)
  end.
Definition join (r : list Z) : Z := fold_right (fun r z => r + Z.shiftl z 32) 0 r.

(** A number of up to 17 words is congruent to one of 8 that are hardly longer. *)
Definition red (z : Z) : Z :=
  match split 16 z with
  | [c0; c1; c2; c3; c4; c5; c6; c7; c8; c9; c10; c11; c12; c13; c14; c15; c16] =>
      join [c0 + c8 + c9 - c11 - c12 - c13 - c14 + 3 * c16;
            c1 + c9 + c10 - c12 - c13 - c14 - c15;
            c2 + c10 + c11 - c13 - c14 - c15 - c16;
            c3 - c8 - c9 + 2 * c11 + 2 * c12 + c13 - c15 - 4 * c16;
            c4 - c9 - c10 + 2 * c12 + 2 * c13 + c14 - c16;
            c5 - c10 - c11 + 2 * c13 + 2 * c14 + c15;
            c6 - c8 - c9 + c13 + 3 * c14 + 2 * c15 - 2 * c16;
            c7 + c8 - c10 - c11 - c12 - c13 + 3 * c15 + 5 * c16]
  | _ => 0
  end.

Lemma join_split n : forall z, join (split n z) = z.
Proof.
  induction n as [|n IH]; intros z; cbn [split join fold_right].
  - rewrite Z.shiftl_0_l. lia.
  - fold (join (split n (Z.shiftr z 32))). rewrite IH. change 0xffffffff with (Z.ones 32). rewrite Z.land_ones, Z.shiftr_div_pow2, Z.shiftl_mul_pow2 by lia.
    pose proof (Z.div_mod z (2 ^ 32)). lia.
Qed.
Lemma length_split n : forall z, length (split n z) = S n.
Proof. induction n as [|n IH]; intros z; cbn; [done|]. by rewrite IH. Qed.

Lemma p_words : p = let b := 2 ^ 32 in b ^ 8 - b ^ 7 + b ^ 6 + b ^ 3 - 1.
Proof. vm_compute. reflexivity. Qed.
Definition quotient (c8 c9 c10 c11 c12 c13 c14 c15 c16 : Z) : Z :=
  let b := 2 ^ 32 in
  c8 + c9 * (1 + b) + c10 * (b + b ^ 2) + c11 * (-1 + b ^ 2 + b ^ 3) + c12 * (-1 - b + b ^ 3 + b ^ 4)
  + c13 * (-1 - b - b ^ 2 + b ^ 4 + b ^ 5) + c14 * (-1 - b - b ^ 2 - b ^ 3 + b ^ 5 + b ^ 6)
  + c15 * (- b - b ^ 2 - b ^ 3 - b ^ 4 + b ^ 6 + b ^ 7) + c16 * (3 - b ^ 2 - b ^ 3 - b ^ 4 - b ^ 5 + b ^ 7 + b ^ 8).
Lemma red_spec z : red z =p z.
Proof.
  unfold red. pose proof (length_split 16 z) as Hl. pose proof (join_split 16 z) as Hj. set (l := split 16 z) in *. clearbody l.
  destruct l as [|c0 [|c1 [|c2 [|c3 [|c4 [|c5 [|c6 [|c7 [|c8 [|c9 [|c10 [|c11 [|c12 [|c13 [|c14 [|c15 [|c16 l]]]]]]]]]]]]]]]]]; try discriminate Hl. destruct l; [|discriminate Hl]. subst z. unfold join. cbn [fold_right]. rewrite !Z.shiftl_mul_pow2 by lia.
  symmetry. etransitivity; [|apply (eqm_add_p _ (quotient c8 c9 c10 c11 c12 c13 c14 c15 c16))]. apply eqm_of_eq. rewrite p_words. unfold quotient. cbv zeta.
  generalize (2 ^ 32). intros b. ring.
Qed.

#[global] Opaque red.
#[global] Instance red_proper : Proper (eqm p ==> eqm p) red.
Proof. intros a b Hab. by rewrite !red_spec. Qed.

Definition zerob (z : Z) : bool := red z mod p =? 0.
Lemma zerob_spec z : zerob z = true <-> z =p 0.
Proof. unfold zerob. rewrite Z.eqb_eq. change (red z =p 0 <-> z =p 0). by rewrite red_spec. Qed.

(** ** Points *)

Definition jdouble (J : Z * Z * Z) : Z * Z * Z :=
  let '(X, Y, Z) := J in
  let zz := red (Z.square Z) in
  let alpha := red (3 * (X + zz) * (X - zz)) in
  let yy := red (Z.square Y) in
  let beta := red (X * yy) in
  let X3 := red (Z.square alpha - 8 * beta) in
  (X3, red (alpha * (4 * beta - X3) - 8 * Z.square yy), red (2 * Y * Z)).
Definition jadd (J : Z * Z * Z) (x2 y2 : Z) : Z * Z * Z :=
  let '(X1, Y1, Z1) := J in
  let zz := red (Z.square Z1) in
  let h := red (x2 * zz - X1) in
  let r := red (2 * (y2 * red (zz * Z1) - Y1)) in
  let hh := red (Z.square h) in
  let hhh := red (h * hh) in
  let v := red (X1 * hh) in
  let X3 := red (Z.square r - 4 * hhh - 8 * v) in
  (X3, red (r * (4 * v - X3) - 8 * Y1 * hhh), red (2 * Z1 * h)).

Definition jrepr (P : jacobian) (J : Z * Z * Z) : Prop := reprJ P J.1.1 J.1.2 J.2.
(** The coordinates stand for a point. *)
Definition jstands (J : Z * Z * Z) (A : point) : Prop := exists P, jrepr P J /\ stands P A.

Lemma jdouble_repr P J : jrepr P J -> jrepr (point_double P) (jdouble J).
Proof.
  destruct J as [[X Y] Z]. intros HP%point_double_repr. cbv zeta in HP. unfold jrepr, jdouble in *. cbv zeta. cbn [fst snd] in *.
  rewrite !Z.square_spec, !red_spec. revert HP. apply reprJ_proper; [done|ringp..].
Qed.
Lemma jadd_repr P J x2 y2 x y : jrepr P J -> repr x x2 -> repr y y2 -> jrepr (point_add_mixed P x y) (jadd J x2 y2).
Proof.
  destruct J as [[X1 Y1] Z1]. intros HP Hx Hy. pose proof (point_add_mixed_repr P x y X1 Y1 Z1 x2 y2 HP Hx Hy) as HR. cbv zeta in HR.
  unfold jrepr, jadd in *. cbv zeta. cbn [fst snd] in *.
  rewrite !Z.square_spec, !red_spec. revert HR. apply reprJ_proper; [done|unfold add_Y, add_X; ringp..].
Qed.

Lemma repr_exists z : exists l, repr l z.
Proof.
  assert (forall k, 0 <= k -> exists l, repr l k) as Hk.
  { apply natlike_ind; [exists (felem_diff kOne kOne); apply (repr_diff kOne kOne 1 1); apply repr_one|]. intros k Hk [l Hl]. exists (felem_sum l kOne).
    unfold Z.succ. apply repr_sum; [done|apply repr_one]. }
  destruct (Hk (z mod p)) as [l Hl]; [apply Z.mod_pos_bound, p_pos|]. exists l. eapply repr_eq; [exact Hl|]. apply Z.mod_mod. pose proof p_pos. lia.
Qed.

(** ** Programs *)

(** Doubling, and adding a point given with its factor. *)
Inductive jop := Dbl | Add (k x y : Z).

Definition jstep (J : Z * Z * Z) (o : jop) : Z * Z * Z :=
  match o with
  | Dbl => jdouble J
  | Add _ x y => jadd J x y
  end.
Definition kstep (k : Z) (o : jop) : Z :=
  match o with
  | Dbl => 2 * k
  | Add j _ _ => k + j
  end.
Definition jrun : list jop -> Z * Z * Z -> Z * Z * Z := fold_left jstep.
Definition krun : list jop -> Z -> Z := fold_left kstep.

(** [Z] is a product: once it is zero it stays zero. *)
Lemma jstep_Z J o : J.2 =p 0 -> (jstep J o).2 =p 0.
Proof.
  destruct J as [[X Y] Z], o; cbn [snd jstep]; unfold jdouble, jadd; cbv zeta; cbn [snd]; intros HZ; rewrite ?Z.square_spec, !red_spec, HZ; ringp.
Qed.
Lemma jrun_Z ops : forall J, J.2 =p 0 -> (jrun ops J).2 =p 0.
Proof. induction ops as [|o ops IH]; intros J HJ; [done|]. by apply IH, jstep_Z. Qed.

Lemma stands_finite P A Z : stands P A -> repr P.2 Z -> ~ Z =p 0 -> A <> None.
Proof.
  intros HP HZ Hn ->. destruct HP as (X & Y & Z' & (_ & _ & [_ HZ']) & H0). destruct HZ as [_ HZ]. apply Hn. by rewrite <- HZ, HZ'.
Qed.

Section Multiples.
Context (B : point) (HB : is_curve_point B).

Definition good_op (o : jop) : Prop :=
  match o with
  | Dbl => True
  | Add k x y => 0 <= k /\ multiple k B = Some (of_Z x, of_Z y)
  end.

Lemma jdouble_stands J k : 0 <= k -> jstands J (multiple k B) -> ~ (jdouble J).2 =p 0 -> jstands (jdouble J) (multiple (2 * k) B).
Proof.
  intros Hk (P & HJ & HP) Hn. exists (point_double P). split; [by apply jdouble_repr|]. rewrite multiple_double by done. apply stands_double; [done|].
  destruct J as [[X Y] Z]. unfold jdouble in Hn. cbv zeta in Hn. cbn [snd] in Hn. rewrite red_spec in Hn. destruct (multiple k B) as [[x y]|] eqn:E.
  - intros Ho. injection Ho as Ho. apply Hn. destruct HP as (X' & Y' & Z' & Zi & HP & HZ & HX & HY). destruct HJ as (_ & [_ HJY] & _), HP as (_ & [_ HPY] & _).
    assert (y = Zmod.zero) as Hy.
    { destruct (Fp_product (Zmod.add Zmod.one Zmod.one) y) as [?%Fp_two|]; [|done|done]. transitivity (Zmod.add y y); [ring|]. rewrite Ho at 2. ring. }
    assert (Y =p 0) as HY0; [|rewrite HY0; ringp]. rewrite <- HJY, HPY, HY, Hy. rewrite <- of_Z_0. assert (Zmod.unsigned (of_Z 0) =p 0) as ->; [|ringp].
    apply of_Z_eq, of_Z_unsigned.
  - intros _. eapply stands_finite; [exact HP|apply HJ| |done]. cbn [snd]. intros HZ. apply Hn. rewrite HZ. ringp.
Qed.

Lemma jadd_stands J k j x y : 0 <= k -> jstands J (multiple k B) -> good_op (Add j x y) -> ~ (jadd J x y).2 =p 0 ->
  jstands (jadd J x y) (multiple (k + j) B).
Proof.
  intros Hk (P & HJ & HP) [Hj Hxy] Hn. destruct (repr_exists x) as [lx Hlx], (repr_exists y) as [ly Hly].
  exists (point_add_mixed P lx ly). split; [by apply jadd_repr|]. rewrite multiple_add, Hxy by done.
  assert (forall z, Zmod.unsigned (of_Z z) =p z) as Hz by (intros z; apply of_Z_eq, of_Z_unsigned).
  apply stands_add_mixed; [done|by rewrite Hz|by rewrite Hz|by apply multiple_curve|rewrite <- Hxy; by apply multiple_curve|].
  destruct J as [[X Y] Z]. unfold jadd in Hn. cbv zeta in Hn. cbn [snd] in Hn. rewrite ?Z.square_spec, !red_spec in Hn.
  assert (multiple k B <> None) as Hfin.
  { eapply stands_finite; [exact HP|apply HJ|]. cbn [snd]. intros HZ. apply Hn. rewrite HZ. ringp. }
  destruct (multiple k B) as [[x1 y1]|] eqn:E; [|done]. assert (x1 <> of_Z x) as Hx.
  { intros ->. apply Hn. destruct HP as (X' & Y' & Z' & Zi & HP & HZ & HX & HY). destruct HJ as ([_ HJX] & _ & [_ HJZ]), HP as ([_ HPX] & _ & [_ HPZ]).
    cbn [fst snd] in *. rewrite Hz in HX. rewrite <- HJX, <- HJZ, HPX, HPZ, HX. ringp. }
  split_and!; [done|done|congruence|cbn; congruence].
Qed.

Lemma jrun_sound ops : forall J k, 0 <= k -> jstands J (multiple k B) -> Forall good_op ops -> ~ (jrun ops J).2 =p 0 ->
  jstands (jrun ops J) (multiple (krun ops k) B) /\ 0 <= krun ops k.
Proof.
  induction ops as [|o ops IH]; intros J k Hk HJ Hops Hn; [done|]. apply Forall_cons in Hops as [Ho Hops]. unfold jrun, krun in *. cbn [fold_left] in *.
  assert (~ (jstep J o).2 =p 0) as Hn1 by (intros H0; by apply Hn, jrun_Z).
  apply IH; [|..|done|done]; destruct o as [|j x y]; cbn [kstep jstep] in *; [lia|destruct Ho; lia|by apply jdouble_stands|by apply jadd_stands].
Qed.

(** Starting from an affine point. *)
Lemma jstands_affine k x y : multiple k B = Some (of_Z x, of_Z y) -> jstands (x, y, 1) (multiple k B).
Proof.
  intros ->. destruct (repr_exists x) as [lx Hlx], (repr_exists y) as [ly Hly]. exists (lx, ly, kOne). split; [by split_and!; [..|apply repr_one]|].
  eapply is_point_of; [|done|done]. exists x, y, 1, 1. split; [split_and!; [done|done|apply repr_one]|]. split_and!; ringp.
Qed.
End Multiples.

(** The point is (x, y). *)
Lemma jstands_is J A x y : jstands J A -> ~ J.2 =p 0 -> J.1.1 - x * J.2 * J.2 =p 0 -> J.1.2 - y * J.2 * J.2 * J.2 =p 0 -> A = Some (of_Z x, of_Z y).
Proof.
  destruct J as [[X Y] Z]. cbn [fst snd]. intros (P & HJ & HP) Hn HX%eqm_sub_0 HY%eqm_sub_0. destruct A as [[x1 y1]|].
  2: { by destruct (stands_finite P None Z HP (proj2 (proj2 HJ)) Hn). }
  destruct HP as (X' & Y' & Z' & Zi & HP & HZ & HX' & HY'). destruct HJ as ([_ HJX] & [_ HJY] & [_ HJZ]), HP as ([_ HPX] & [_ HPY] & [_ HPZ]). cbn [fst snd] in *.
  assert (Z =p Z') as HZZ by (by rewrite <- HJZ, HPZ). assert (X =p X') as HXX by (by rewrite <- HJX, HPX). assert (Y =p Y') as HYY by (by rewrite <- HJY, HPY).
  do 2 f_equal; [rewrite <- (of_Z_unsigned x1)|rewrite <- (of_Z_unsigned y1)]; apply of_Z_eq.
  - apply eqm_sub_0, (eqm_cancel _ (Z' * Z') (Zi * Zi)); [transitivity ((Z' * Zi) * (Z' * Zi)); [ringp|by rewrite HZ]|].
    transitivity (Zmod.unsigned x1 * Z' * Z' - x * Z' * Z'); [ringp|]. rewrite <- HX', <- HZZ, <- HX, HXX. ringp.
  - apply eqm_sub_0, (eqm_cancel _ (Z' * Z' * Z') (Zi * Zi * Zi)); [transitivity ((Z' * Zi) * (Z' * Zi) * (Z' * Zi)); [ringp|by rewrite HZ]|].
    transitivity (Zmod.unsigned y1 * Z' * Z' * Z' - y * Z' * Z' * Z'); [ringp|]. rewrite <- HY', <- HZZ, <- HY, HYY. ringp.
Qed.

(** Two points are the same. *)
Lemma jstands_same J J' A A' : jstands J A -> jstands J' A' -> ~ J.2 =p 0 -> ~ J'.2 =p 0 ->
  J.1.1 * J'.2 * J'.2 - J'.1.1 * J.2 * J.2 =p 0 -> J.1.2 * J'.2 * J'.2 * J'.2 - J'.1.2 * J.2 * J.2 * J.2 =p 0 -> A = A'.
Proof.
  intros HJ (P & HJ' & HP) Hn Hn' HX HY. apply (proj1 (eqm_sub_0 _ _)) in HX, HY. destruct A' as [[x y]|].
  2: { by destruct (stands_finite P None _ HP (proj2 (proj2 HJ')) Hn'). }
  destruct HP as (X2 & Y2 & Z2 & Zi & HP & HZ & HX2 & HY2). destruct HJ' as ([_ HJX] & [_ HJY] & [_ HJZ]), HP as ([_ HPX] & [_ HPY] & [_ HPZ]).
  rewrite <- (of_Z_unsigned x), <- (of_Z_unsigned y). destruct J as [[X Y] Z], J' as [[X' Y'] Z']. cbn [fst snd] in *.
  assert (Z' =p Z2) as HZZ by (by rewrite <- HJZ, HPZ). assert (X' =p X2) as HXX by (by rewrite <- HJX, HPX). assert (Y' =p Y2) as HYY by (by rewrite <- HJY, HPY).
  eapply jstands_is; [exact HJ|exact Hn|..]; cbn [fst snd].
  - apply (eqm_cancel _ (Z2 * Z2) (Zi * Zi)); [transitivity ((Z2 * Zi) * (Z2 * Zi)); [ringp|by rewrite HZ]|].
    transitivity (X * Z2 * Z2 - Zmod.unsigned x * Z2 * Z2 * Z * Z); [ringp|]. rewrite <- HX2, <- HZZ, HX, HXX. ringp.
  - apply (eqm_cancel _ (Z2 * Z2 * Z2) (Zi * Zi * Zi)); [transitivity ((Z2 * Zi) * (Z2 * Zi) * (Z2 * Zi)); [ringp|by rewrite HZ]|].
    transitivity (Y * Z2 * Z2 * Z2 - Zmod.unsigned y * Z2 * Z2 * Z2 * Z * Z * Z); [ringp|]. rewrite <- HY2, <- HZZ, HY, HYY. ringp.
Qed.
