(* ===== verification/P256Table.v ===== *)
(** The base point: the table of the code holds the multiples of it that it is
    used for, and its order is the modulus of the signatures. *)

From Stdlib Require Import Zdiv Znumtheory Setoid Zmod.
From S2P Require Import Prelude Primes P256 P256Facts P256Ec P256Limbs P256Field P256Points P256Mult Curve P256Group P256Fast.

(** The base point of P-256 (FIPS 186). *)
Definition Gx : Z := 0x6b17d1f2e12c4247f8bce6e563a440f277037d812deb33a0f4a13945d898c296.
Definition Gy : Z := 0x4fe342e2fe1a7f9b8ee7eb4a7c0f9e162bce33576b315ececbb6406837bf51f5.
Definition G : point := Some (of_Z Gx, of_Z Gy).

Lemma G_curve : is_curve_point G.
Proof. apply curve_point_of_Z. vm_compute. reflexivity. Qed.

(** ** The table *)

(** The entry [idx] of the first or of the second half, out of Montgomery form. *)
Definition entry (second : bool) (idx : nat) : Z * Z :=
  let '(x, y) := affine_entry (drop (if second then 270 else 0)%nat kPrecomputed) (Z.of_nat idx) in
  (red (fval 29 x * Rinv), red (fval 29 y * Rinv)).
(** The factor of its multiple. *)
Definition weight (second : bool) (idx : nat) : Z :=
  let bit j := Z.b2z (Z.testbit (Z.of_nat idx) j) in
  (if second then 2 ^ 32 else 1) * (bit 0%Z + 2 ^ 64 * bit 1 + 2 ^ 128 * bit 2 + 2 ^ 192 * bit 3).

(** The program leads from the point to the point. *)
Definition check (ops : list jop) (k0 : Z) (P0 : Z * Z) (k1 : Z) (P1 : Z * Z) : bool :=
  let '(X, Y, Z) := jrun ops (P0.1, P0.2, 1) in
  let zz := red (Z * Z) in
  (krun ops k0 =? k1) && negb (zerob Z) && zerob (X - P1.1 * zz) && zerob (Y - P1.2 * red (Z * zz)).
Definition add_entry_op (second : bool) (idx : nat) : jop := Add (weight second idx) (entry second idx).1 (entry second idx).2.

Definition power_check (second : bool) (idx : nat) (second' : bool) (idx' : nat) : bool :=
  check (replicate 32 Dbl) (weight second idx) (entry second idx) (weight second' idx') (entry second' idx').
Definition sum_check (second : bool) (idx top : nat) : bool :=
  check [add_entry_op second top] (weight second idx) (entry second idx) (weight second (idx + top)) (entry second (idx + top)).

(** The powers of two, then the sums. *)
Definition powers : list (bool * nat * (bool * nat)) :=
  [(false, 1, (true, 1)); (true, 1, (false, 2)); (false, 2, (true, 2)); (true, 2, (false, 4)); (false, 4, (true, 4)); (true, 4, (false, 8)); (false, 8, (true, 8))]%nat.
Definition sums : list (nat * nat) := [(1, 2); (1, 4); (2, 4); (3, 4); (1, 8); (2, 8); (3, 8); (4, 8); (5, 8); (6, 8); (7, 8)]%nat.
Lemma powers_checked : forallb (fun '(s, i, (s', i')) => power_check s i s' i') powers = true.
Proof. vm_cast_no_check (eq_refl true). Qed.
Lemma sums_checked : forallb (fun s => forallb (fun '(i, top) => sum_check s i top) sums) [false; true] = true.
Proof. vm_cast_no_check (eq_refl true). Qed.

Definition entry_good (second : bool) (idx : nat) : Prop :=
  multiple (weight second idx) G = Some (of_Z (entry second idx).1, of_Z (entry second idx).2).

Lemma check_sound ops k0 P0 k1 P1 : 0 <= k0 -> multiple k0 G = Some (of_Z P0.1, of_Z P0.2) -> Forall (good_op G) ops -> check ops k0 P0 k1 P1 = true ->
  multiple k1 G = Some (of_Z P1.1, of_Z P1.2).
Proof.
  intros Hk H0 Hops Hc. unfold check in Hc. pose proof (jrun_sound G G_curve ops (P0.1, P0.2, 1) k0 Hk (jstands_affine G k0 _ _ H0) Hops) as Hs.
  destruct (jrun ops (P0.1, P0.2, 1)) as [[X Y] Z]. cbn [snd] in Hs.
  apply andb_true_iff in Hc as [[[<-%Z.eqb_eq Hz%negb_true_iff]%andb_true_iff HX%zerob_spec]%andb_true_iff HY%zerob_spec].
  assert (~ Z =p 0) as Hn by (intros H1%zerob_spec; congruence). rewrite red_spec in HX. repeat rewrite red_spec in HY.
  eapply jstands_is; [exact (proj1 (Hs Hn))|exact Hn|..]; cbn [fst snd]; [etransitivity; [|exact HX]|etransitivity; [|exact HY]]; ringp.
Qed.

Lemma weight_pos second idx : 0 <= weight second idx.
Proof. unfold weight. destruct second; repeat (destruct (Z.testbit _ _)); cbn; lia. Qed.

Lemma power_good second idx second' idx' : entry_good second idx -> power_check second idx second' idx' = true -> entry_good second' idx'.
Proof.
  unfold entry_good, power_check. intros Hg Hc. refine (check_sound (replicate 32 Dbl) _ _ _ _ (weight_pos _ _) Hg _ Hc).
  apply Forall_replicate. exact I.
Qed.
Lemma sum_good second idx top : entry_good second idx -> entry_good second top -> sum_check second idx top = true -> entry_good second (idx + top).
Proof.
  unfold entry_good, sum_check. intros Hg Ht Hc. refine (check_sound [add_entry_op second top] _ _ _ _ (weight_pos _ _) Hg _ Hc).
  apply Forall_cons. split; [|by apply Forall_nil]. split; [apply weight_pos|exact Ht].
Qed.

Lemma first_good : entry_good false 1.
Proof.
  unfold entry_good. change (weight false 1) with 1. rewrite pmul_1. unfold G. do 2 f_equal; apply of_Z_eq; unfold entry; cbv zeta; vm_compute; reflexivity.
Qed.

(** The sums of the powers, for one half. *)
Lemma sums_good second idx : (1 <= idx <= 15)%nat -> entry_good second 1 -> entry_good second 2 -> entry_good second 4 -> entry_good second 8 ->
  Forall (fun '(i, top) => sum_check second i top = true) sums ->
  entry_good second idx.
Proof.
  intros Hi h1 h2 h4 h8 Hs. unfold sums in Hs. rewrite !Forall_cons in Hs. destruct Hs as (s3 & s5 & s6 & s7 & s9 & s10 & s11 & s12 & s13 & s14 & s15 & _).
  pose proof (sum_good second 1 2 h1 h2 s3) as h3. pose proof (sum_good second 1 4 h1 h4 s5) as h5.
  pose proof (sum_good second 2 4 h2 h4 s6) as h6. pose proof (sum_good second 3 4 h3 h4 s7) as h7.
  destruct idx as [|[|[|[|[|[|[|[|[|[|[|[|[|[|[|[|idx]]]]]]]]]]]]]]]]; [lia|exact h1|exact h2|exact h3|exact h4|exact h5|exact h6|exact h7|exact h8|..|lia].
  - exact (sum_good second 1 8 h1 h8 s9).
  - exact (sum_good second 2 8 h2 h8 s10).
  - exact (sum_good second 3 8 h3 h8 s11).
  - exact (sum_good second 4 8 h4 h8 s12).
  - exact (sum_good second 5 8 h5 h8 s13).
  - exact (sum_good second 6 8 h6 h8 s14).
  - exact (sum_good second 7 8 h7 h8 s15).
Qed.

Lemma table_good second idx : (1 <= idx <= 15)%nat -> entry_good second idx.
Proof.
  intros Hi. pose proof first_good as f1. pose proof powers_checked as Hp. rewrite forallb_forall in Hp.
  assert (Forall (fun '(i, top) => sum_check second i top = true) sums) as Hs.
  { apply List.Forall_forall. intros [i top] Hin. pose proof sums_checked as Hs. rewrite forallb_forall in Hs. specialize (Hs second).
    rewrite forallb_forall in Hs. apply (fun Hl => Hs Hl (i, top) Hin). destruct second; cbn; tauto. }
  assert (forall s i s' i', In (s, i, (s', i')) powers -> entry_good s i -> entry_good s' i') as Hstep.
  { intros s i s' i' Hin Hg. exact (power_good s i s' i' Hg (Hp _ Hin)). }
  assert (entry_good true 1) as t1 by (apply (Hstep false 1%nat); [cbn; tauto|exact f1]).
  assert (entry_good false 2) as f2 by (apply (Hstep true 1%nat); [cbn; tauto|exact t1]).
  assert (entry_good true 2) as t2 by (apply (Hstep false 2%nat); [cbn; tauto|exact f2]).
  assert (entry_good false 4) as f4 by (apply (Hstep true 2%nat); [cbn; tauto|exact t2]).
  assert (entry_good true 4) as t4 by (apply (Hstep false 4%nat); [cbn; tauto|exact f4]).
  assert (entry_good false 8) as f8 by (apply (Hstep true 4%nat); [cbn; tauto|exact t4]).
  assert (entry_good true 8) as t8 by (apply (Hstep false 8%nat); [cbn; tauto|exact f8]).
  destruct second; [exact (sums_good true idx Hi t1 t2 t4 t8 Hs)|exact (sums_good false idx Hi f1 f2 f4 f8 Hs)].
Qed.

(** ** The order of the base point *)

(** n is 2^256 + 2^192 - 2^224 - delta; the multiples by 2^256 + 2^192 and by
    2^224 + delta are computed from the entries of the table. *)
Definition delta : Z := 2 ^ 256 - 2 ^ 224 + 2 ^ 192 - val SECP256r1_n.
Definition left_ops : list jop := replicate 32 Dbl ++ [add_entry_op false 8].
Definition delta_round (i : nat) : list jop :=
  let bit k := Nat.b2n (Z.testbit delta (k + Z.of_nat i)) in
  let maybe second idx := match idx with O => [] | S _ => [add_entry_op second idx] end in
  Dbl :: maybe false (bit 0%Z + 2 * bit 64%Z)%nat ++ maybe true (bit 32%Z + 2 * bit 96%Z)%nat.
Definition right_ops : list jop := [add_entry_op true 2] ++ concat (delta_round <$> rev (seq 0 30)) ++ [add_entry_op true 8].

(** The programs lead to the same point. *)
Definition same_point (J J' : Z * Z * Z) : bool :=
  let '(X, Y, Z) := J in
  let '(X', Y', Z') := J' in
  let zz := red (Z * Z) in
  let zz' := red (Z' * Z') in
  negb (zerob Z) && negb (zerob Z') && zerob (X * zz' - X' * zz) && zerob (Y * red (zz' * Z') - Y' * red (zz * Z)).
Definition run_from (ops : list jop) (P : Z * Z) : Z * Z * Z := jrun ops (P.1, P.2, 1).
Lemma same_sound ops k P ops' k' P' : 0 <= k -> 0 <= k' -> multiple k G = Some (of_Z P.1, of_Z P.2) -> multiple k' G = Some (of_Z P'.1, of_Z P'.2) ->
  Forall (good_op G) ops -> Forall (good_op G) ops' -> same_point (run_from ops P) (run_from ops' P') = true ->
  multiple (krun ops k) G = multiple (krun ops' k') G.
Proof.
  intros Hk Hk' HP HP' Hops Hops' Hc. pose proof (jrun_sound G G_curve ops _ k Hk (jstands_affine G _ _ _ HP) Hops) as HL.
  pose proof (jrun_sound G G_curve ops' _ k' Hk' (jstands_affine G _ _ _ HP') Hops') as HR. unfold same_point, run_from in Hc.
  destruct (jrun ops (P.1, P.2, 1)) as [[X Y] Z]. destruct (jrun ops' (P'.1, P'.2, 1)) as [[X' Y'] Z']. cbn [snd] in HL, HR. cbv zeta in Hc.
  apply andb_true_iff in Hc as [[[Hz%negb_true_iff Hz'%negb_true_iff]%andb_true_iff HX%zerob_spec]%andb_true_iff HY%zerob_spec].
  repeat rewrite red_spec in HX. repeat rewrite red_spec in HY.
  assert (~ Z =p 0) as Hn by (intros H1%zerob_spec; congruence). assert (~ Z' =p 0) as Hn' by (intros H1%zerob_spec; congruence).
  eapply jstands_same; [exact (proj1 (HL Hn))|exact (proj1 (HR Hn'))|done|done|..]; cbn [fst snd]; [etransitivity; [|exact HX]|etransitivity; [|exact HY]]; ringp.
Qed.

Lemma order_checked : same_point (run_from left_ops (entry true 8)) (run_from right_ops (entry false 2)) = true.
Proof. vm_cast_no_check (eq_refl true). Qed.
Lemma order_factors : exists k, 0 <= k /\ krun left_ops (weight true 8) = k + val SECP256r1_n /\ krun right_ops (weight false 2) = k.
Proof. exists (2 ^ 224 + delta). split; [by vm_compute|]. split; by vm_compute. Qed.

Lemma left_good : Forall (good_op G) left_ops.
Proof.
  apply Forall_app. split; [apply Forall_replicate; exact I|]. apply Forall_cons. split; [|by apply Forall_nil]. split; [apply weight_pos|].
  exact (table_good false 8 ltac:(lia)).
Qed.
Lemma entry_op_good second idx : (1 <= idx <= 15)%nat -> good_op G (add_entry_op second idx).
Proof. intros Hi. split; [apply weight_pos|exact (table_good second idx Hi)]. Qed.
Lemma delta_round_good i : Forall (good_op G) (delta_round i).
Proof.
  assert (forall second (a b : bool), Forall (good_op G) (match (Nat.b2n a + 2 * Nat.b2n b)%nat with O => [] | S _ => [add_entry_op second (Nat.b2n a + 2 * Nat.b2n b)] end)) as Hm.
  { intros second [] []; try (by apply Forall_nil); (apply Forall_cons; split; [apply entry_op_good; cbn; lia|by apply Forall_nil]). }
  apply Forall_cons. split; [exact I|]. apply Forall_app. split; apply Hm.
Qed.
Lemma right_good : Forall (good_op G) right_ops.
Proof.
  apply Forall_app. split; [apply Forall_cons; split; [apply entry_op_good; lia|by apply Forall_nil]|]. apply Forall_app.
  split; [|apply Forall_cons; split; [apply entry_op_good; lia|by apply Forall_nil]]. apply Forall_concat, Forall_fmap, List.Forall_forall.
  intros i _. apply delta_round_good.
Qed.

(** The order of the base point is [n]. *)
Lemma G_order : multiple (val SECP256r1_n) G = None.
Proof.
  pose proof (same_sound left_ops _ (entry true 8) right_ops _ (entry false 2) (weight_pos true 8) (weight_pos false 2) (table_good true 8 ltac:(lia))
    (table_good false 2 ltac:(lia)) left_good right_good order_checked) as Hs.
  destruct order_factors as (k & Hk & Hl & Hr). rewrite Hl, Hr in Hs. apply (multiple_difference G k); [apply G_curve|done|by vm_compute|exact Hs].
Qed.

(** C28. The table of constants of the code: its two halves of fifteen points hold, in
    Montgomery form, the sums of the multiples of the base point by 1, 2^64, 2^128 and
    2^192, and by 2^32, 2^96, 2^160 and 2^224, that the bits of the index select. *)
Theorem kPrecomputed_spec (second : bool) idx : (1 <= idx <= 15)%nat ->
  let '(x, y) := affine_entry (drop (if second then 270 else 0)%nat kPrecomputed) (Z.of_nat idx) in
  multiple (weight second idx) G = Some (of_Z (fval 29 x * Rinv), of_Z (fval 29 y * Rinv)).
Proof.
  intros Hi. pose proof (table_good second idx Hi) as Hg. unfold entry_good, entry in Hg. destruct (affine_entry _ _) as [x y]. rewrite Hg. cbn [fst snd].
  f_equal. apply pair_eq. split; apply of_Z_eq, red_spec.
Qed.
Lemma kPrecomputed_spec_witness : let '(x, y) := affine_entry (drop 270 kPrecomputed) 15 in
  multiple (2 ^ 32 + 2 ^ 96 + 2 ^ 160 + 2 ^ 224) G = Some (of_Z (fval 29 x * Rinv), of_Z (fval 29 y * Rinv)).
Proof. refine (kPrecomputed_spec true 15 _). lia. Defined.
