(* ===== verification/P256Order.v ===== *)
(** The number of points of P-256: it is the order of the base point, so that every
    point has that order.

    The number of points kills every point, is thus a multiple of [n], and is at
    most 2p + 1, which is less than 3n.  It is not 2n either: without points of
    order two it is odd, and with one, there are three and it is a multiple of 4. *)

From Stdlib Require Import Field Zdiv Znumtheory Setoid Zmod.
From S2P Require Import Prelude Primes P256 P256Facts P256Ec P256Limbs P256Field P256Points P256Mult Curve P256Group P256Fast P256Table.

(** ** Counting *)

(** A list that consists of disjoint orbits of [k] elements has a multiple of [k]. *)
Section Orbits.
Context {A : Type} `{!EqDecision A} (orbit : A -> list A) (k : nat).
Context (orbit_length : forall x, length (orbit x) = k) (orbit_in : forall x, x ∈ orbit x).

Lemma orbits l : NoDup l -> Forall (fun x => NoDup (orbit x) /\ Forall (fun y => y ∈ l /\ forall z, z ∈ orbit y <-> z ∈ orbit x) (orbit x)) l ->
  Nat.divide k (length l).
Proof.
  remember (length l) as m eqn:Hm. revert l Hm. induction (lt_wf m) as [m _ IH]. intros l -> Hl Ho. destruct l as [|x l']; [exists 0%nat; done|].
  set (l := x :: l') in *. pose proof (Forall_inv Ho) as [Hx Hxo]. rewrite Forall_forall in Hxo. set (rest := filter (fun y => y ∉ orbit x) l).
  assert (l ≡ₚ orbit x ++ rest) as HP.
  { apply NoDup_Permutation; [done| |].
    - apply NoDup_app. split; [done|]. split; [|by apply NoDup_filter]. intros y Hy [Hn _]%list_elem_of_filter. done.
    - intros y. rewrite elem_of_app. unfold rest. rewrite list_elem_of_filter. split; [destruct (decide (y ∈ orbit x)); tauto|].
      intros [Hy|[_ Hy]]; [by apply Hxo|done]. }
  rewrite HP, length_app, orbit_length. apply Nat.divide_add_r; [exists 1%nat; lia|]. refine (IH (length rest) _ rest eq_refl _ _); [|by apply NoDup_filter|].
  - rewrite HP, length_app. assert (0 < length (orbit x))%nat; [|lia]. pose proof (orbit_in x) as Hin. destruct (orbit x); [by apply not_elem_of_nil in Hin|cbn; lia].
  - apply Forall_forall. intros y [Hn Hy]%list_elem_of_filter. rewrite Forall_forall in Ho. destruct (Ho y Hy) as [Hnd Hyo]. split; [done|].
    rewrite Forall_forall in Hyo |- *. intros z Hz. destruct (Hyo z Hz) as [Hzl Hzo]. split; [|done]. apply list_elem_of_filter. split; [|done].
    intros Hzx. apply Hn. destruct (Hxo z Hzx) as [_ Hzx']. rewrite <- Hzx'. apply Hzo, orbit_in.
Qed.
End Orbits.

(** ** The points *)

#[local] Open Scope Zmod_scope.
#[local] Infix "/" := Zmod.mdiv : Zmod_scope.

Definition residues : list Fp := Zmod.elements p.
Lemma residues_all x : x ∈ residues.
Proof. apply list_elem_of_In, Zmod.in_elements. pose proof p_pos. lia. Qed.
Lemma residues_NoDup : NoDup residues.
Proof. apply NoDup_ListNoDup, Zmod.NoDup_elements. Qed.
Lemma length_residues : Z.of_nat (length residues) = p.
Proof. unfold residues. rewrite Zmod.length_elements. pose proof p_pos. lia. Qed.

#[global] Opaque residues.

Definition curve_f (x : Fp) : Fp := x * x * x + curve_a * x + curve_b.
Definition ordinates (x : Fp) : list Fp := filter (fun y => y * y = curve_f x) residues.
Definition points_at (x : Fp) : list point := (fun y => Some (x, y)) <$> ordinates x.
Definition points : list point := None :: concat (points_at <$> residues).

Lemma points_at_spec x A : A ∈ points_at x <-> exists y, A = Some (x, y) /\ is_curve_point A.
Proof.
  unfold points_at, ordinates. rewrite list_elem_of_fmap. split.
  - intros (y & -> & [Hy _]%list_elem_of_filter). by exists y.
  - intros (y & -> & Hy). exists y. split; [done|]. apply list_elem_of_filter. split; [done|apply residues_all].
Qed.
Lemma points_spec A : A ∈ points <-> is_curve_point A.
Proof.
  unfold points. rewrite elem_of_cons, list_elem_of_In, in_concat. split.
  - intros [->|(l & Hl & HA)]; [done|]. apply in_map_iff in Hl as (x & <- & _). apply list_elem_of_In, points_at_spec in HA as (y & _ & HA). done.
  - intros HA. destruct A as [[x y]|]; [right|by left]. exists (points_at x). split; [apply in_map_iff; exists x; split; [done|]; apply list_elem_of_In, residues_all|].
    apply list_elem_of_In, points_at_spec. by exists y.
Qed.
Lemma NoDup_concat_points l : NoDup l -> NoDup (concat (points_at <$> l)).
Proof.
  induction 1 as [|x l Hx Hl IH]; [constructor|]. cbn [fmap list_fmap concat]. apply NoDup_app. split.
  - apply NoDup_fmap_2; [by intros ? ? [=]|]. apply NoDup_filter, residues_NoDup.
  - split; [|done]. intros A (y & -> & _)%points_at_spec HA. apply list_elem_of_In, in_concat in HA as (m & Hm & HA).
    apply in_map_iff in Hm as (x' & <- & Hx'). apply list_elem_of_In, points_at_spec in HA as (y' & [= <- _] & _). apply Hx. by apply list_elem_of_In.
Qed.
Lemma infinity_not_at l : None ∉ concat (points_at <$> l).
Proof.
  intros HA. apply list_elem_of_In, in_concat in HA as (m & Hm & HA). apply in_map_iff in Hm as (x & <- & _).
  apply list_elem_of_In, points_at_spec in HA as (y & [=] & _).
Qed.
Lemma points_NoDup : NoDup points.
Proof. apply NoDup_cons. split; [apply infinity_not_at|apply NoDup_concat_points, residues_NoDup]. Qed.

(** At most two points have the same first coordinate. *)
Lemma ordinates_opposite x y y' : y ∈ ordinates x -> y' ∈ ordinates x -> y' = y \/ y' = - y.
Proof.
  intros [Hy _]%list_elem_of_filter [Hy' _]%list_elem_of_filter. destruct (Fp_product (y' - y) (y' + y)) as [H1|H1].
  - transitivity (y' * y' - y * y); [ring|]. rewrite Hy, Hy'. ring.
  - left. transitivity (y' - y + y); [ring|]. rewrite H1. ring.
  - right. transitivity (y' + y - y); [ring|]. rewrite H1. ring.
Qed.
Lemma ordinates_length x : (length (ordinates x) <= 2)%nat.
Proof.
  assert (NoDup (ordinates x)) as Hn by apply NoDup_filter, residues_NoDup. pose proof (ordinates_opposite x) as Ho.
  destruct (ordinates x) as [|y [|y' [|y'' l]]]; cbn; try lia. exfalso. rewrite !NoDup_cons, !not_elem_of_cons in Hn.
  destruct Hn as ((Hn1 & Hn2 & _) & (Hn3 & _) & _). destruct (Ho y y'), (Ho y y''); rewrite ?elem_of_cons; auto; try congruence.
Qed.
(** If neither is zero, none or two. *)
Lemma ordinates_even x : curve_f x <> 0 -> Nat.Even (length (ordinates x)).
Proof.
  intros Hx. pose proof (ordinates_length x) as Hl. assert (forall y, y ∈ ordinates x -> - y ∈ ordinates x /\ - y <> y) as Hopp.
  { intros y [Hy _]%list_elem_of_filter. split.
    - apply list_elem_of_filter. split; [|apply residues_all]. rewrite <- Hy. ring.
    - intros He. apply Hx. rewrite <- Hy. destruct (Fp_product (1 + 1) y) as [?%Fp_two|Hz]; [|done|rewrite Hz; ring].
      transitivity (y + y); [ring|]. rewrite <- He at 1. ring. }
  assert (NoDup (ordinates x)) as Hn by apply NoDup_filter, residues_NoDup.
  destruct (ordinates x) as [|y [|y' [|y'' l]]]; [by exists 0%nat| |by exists 1%nat|cbn in Hl; lia].
  destruct (Hopp y) as [Hin Hne]; [by apply list_elem_of_singleton|]. by apply list_elem_of_singleton in Hin.
Qed.

#[global] Opaque points.

(** ** The number of points kills every point *)

Definition sum (l : list point) : point := foldr add_points None l.
Lemma sum_curve l : Forall is_curve_point l -> is_curve_point (sum l).
Proof. induction 1 as [|A l HA Hl IH]; [done|]. by apply add_points_curve. Qed.
Lemma sum_permutation l l' : Forall is_curve_point l -> l ≡ₚ l' -> sum l = sum l'.
Proof.
  intros Hl HP. induction HP as [|A l l' HP IH|A B l|l l' l'' HP IH HP' IH']; [done| | |].
  - apply Forall_cons in Hl as [_ Hl]. cbn [sum foldr]. unfold sum in IH. by rewrite IH.
  - rewrite !Forall_cons in Hl. destruct Hl as (HB & HA & Hl%sum_curve). cbn [sum foldr]. fold (sum l).
    rewrite <- !add_points_assoc by done. f_equal. by apply add_points_comm.
  - rewrite IH by done. apply IH'. by rewrite <- HP.
Qed.
Lemma sum_translate Q l : is_curve_point Q -> Forall is_curve_point l -> sum (add_points Q <$> l) = add_points (multiple (Z.of_nat (length l)) Q) (sum l).
Proof.
  intros HQ Hl. induction Hl as [|A l HA Hl IH]; [done|]. cbn [fmap list_fmap sum foldr length]. fold (sum l). fold (sum (add_points Q <$> l)). rewrite IH.
  pose proof (sum_curve l Hl). pose proof (multiple_curve Q (Z.of_nat (length l)) HQ).
  rewrite Nat2Z.inj_succ, <- Z.add_1_l, multiple_add by (done || lia). rewrite pmul_1.
  rewrite !add_points_assoc by auto using add_points_curve. f_equal. rewrite <- !add_points_assoc by auto using add_points_curve. f_equal. by apply add_points_comm.
Qed.

Lemma translate_points Q : is_curve_point Q -> points ≡ₚ add_points Q <$> points.
Proof.
  intros HQ. symmetry. apply NoDup_Permutation.
  - pose proof points_NoDup as Hn. assert (Forall is_curve_point points) as Hl by (apply Forall_forall; intros A; apply points_spec). revert Hn Hl. generalize points.
    intros l Hn. induction Hn as [|A l HA Hn IH]; intros Hl; [constructor|]. apply Forall_cons in Hl as [HcA Hl]. cbn [fmap list_fmap]. apply NoDup_cons.
    split; [|by apply IH]. intros (B & He & HB)%list_elem_of_fmap. rewrite Forall_forall in Hl. apply add_points_inj in He; [|by auto..]. by subst B.
  - apply points_NoDup.
  - intros A. rewrite points_spec, list_elem_of_fmap. split.
    + intros (B & -> & HB%points_spec). by apply add_points_curve.
    + intros HA. exists (add_points (opposite Q) A). rewrite add_points_back by done. split; [done|]. apply points_spec, add_points_curve; [by apply opposite_curve|done].
Qed.

Lemma points_kill Q : is_curve_point Q -> multiple (Z.of_nat (length points)) Q = None.
Proof.
  intros HQ. assert (Forall is_curve_point points) as Hl by (apply Forall_forall; intros A; apply points_spec).
  pose proof (sum_translate Q points HQ Hl) as Hs. rewrite <- (sum_permutation points (add_points Q <$> points) Hl (translate_points Q HQ)) in Hs.
  pose proof (sum_curve points Hl) as Hc. revert Hs Hc. generalize (sum points) (Z.of_nat (length points)). intros S N Hs Hc.
  apply (add_points_inj S); [exact Hc|by apply multiple_curve|exact I|].
  rewrite (add_points_comm S), <- Hs by (done || by apply multiple_curve). by rewrite padd_None_r.
Qed.

(** ** The number of points *)

Lemma points_length : exists l, length points = S l /\ Z.of_nat l <= 2 * p /\ ((forall x, curve_f x <> 0) -> Nat.Even l).
Proof.
  exists (length (concat (points_at <$> residues))). Transparent points. split; [reflexivity|]. Opaque points.
  pose proof length_residues as Hl. revert Hl. generalize residues. intros l Hl. enough (Z.of_nat (length (concat (points_at <$> l))) <= 2 * Z.of_nat (length l) /\ ((forall x, curve_f x <> 0) -> Nat.Even (length (concat (points_at <$> l))))) as [Hb He] by (split; [lia|done]). clear Hl. induction l as [|x l [IHb IHe]]; [split; [done|]; intros _; by exists 0%nat|]. cbn [fmap list_fmap concat]. rewrite length_app.
  assert (length (points_at x) = length (ordinates x)) as -> by apply length_fmap. split.
  - pose proof (ordinates_length x). cbn [length]. lia.
  - intros Hf. destruct (ordinates_even x (Hf x)) as [u Hu], (IHe Hf) as [v Hv]. exists (u + v)%nat. lia.
Qed.

(** ** Points of order two *)

Lemma root_curve e : curve_f e = 0 -> is_curve_point (Some (e, 0)).
Proof. unfold curve_f. cbn. intros ->. ring. Qed.

(** Three roots with the sum zero. *)
Section Torsion.
Context (e1 e2 e3 : Fp) (H1 : curve_f e1 = 0) (H2 : curve_f e2 = 0) (H3 : curve_f e3 = 0) (Hs : e1 + e2 + e3 = 0) (Hn : NoDup [e1; e2; e3]).

Definition torsion : list point := [None; Some (e1, 0); Some (e2, 0); Some (e3, 0)].

Lemma torsion_curve V : V ∈ torsion -> is_curve_point V.
Proof. unfold torsion. rewrite !elem_of_cons, elem_of_nil. intros [->|[->|[->|[->|[]]]]]; [exact I|by apply root_curve..]. Qed.
Lemma torsion_add x1 x2 x3 : x1 <> x2 -> x1 + x2 + x3 = 0 -> add_points (Some (x1, 0)) (Some (x2, 0)) = Some (x3, 0).
Proof.
  intros Hx Hs3. unfold padd. rewrite decide_False by tauto. assert (slope Zmod.one Zmod.add Zmod.mul Zmod.sub Zmod.mdiv curve_a x1 0 x2 0 = 0) as ->.
  { unfold slope. rewrite decide_False by done. field. intros Hz. apply Hx. transitivity (x1 - x2 + x2); [ring|]. rewrite Hz. ring. }
  unfold third. f_equal. apply pair_eq. split; [|ring]. transitivity (0 - x1 - x2); [ring|]. rewrite <- Hs3. ring.
Qed.
Lemma torsion_double x : add_points (Some (x, 0)) (Some (x, 0)) = None.
Proof. unfold padd. rewrite decide_True; [done|]. split; [done|ring]. Qed.
Lemma torsion_in : None ∈ torsion /\ Some (e1, 0) ∈ torsion /\ Some (e2, 0) ∈ torsion /\ Some (e3, 0) ∈ torsion.
Proof. unfold torsion. split_and!; [apply list_elem_of_here|do 1 right|do 2 right|do 3 right]; apply list_elem_of_here. Qed.
Lemma torsion_inv V : V ∈ torsion -> V = None \/ V = Some (e1, 0) \/ V = Some (e2, 0) \/ V = Some (e3, 0).
Proof. unfold torsion. rewrite !elem_of_cons, elem_of_nil. intros [->|[->|[->|[->|[]]]]]; auto. Qed.
Lemma torsion_self V : V ∈ torsion -> add_points V V = None.
Proof. intros [->|[->|[->| ->]]]%torsion_inv; [reflexivity|apply torsion_double..]. Qed.
Lemma torsion_closed V W : V ∈ torsion -> W ∈ torsion -> add_points V W ∈ torsion.
Proof.
  rewrite !NoDup_cons, !not_elem_of_cons in Hn. destruct Hn as ((Hn12 & Hn13 & _) & (Hn23 & _) & _).
  destruct torsion_in as (Hi0 & Hi1 & Hi2 & Hi3). intros HV HW.
  destruct (torsion_inv V HV) as [->|HV']; [by rewrite padd_None_l|]. destruct (torsion_inv W HW) as [->|HW']; [by rewrite padd_None_r|].
  destruct HV' as [->|[->| ->]], HW' as [->|[->| ->]]; first [rewrite torsion_double; exact Hi0|idtac].
  - rewrite (torsion_add e1 e2 e3 Hn12 Hs). exact Hi3.
  - rewrite (torsion_add e1 e3 e2 Hn13) by (rewrite <- Hs; ring). exact Hi2.
  - rewrite (torsion_add e2 e1 e3 (not_eq_sym Hn12)) by (rewrite <- Hs; ring). exact Hi3.
  - rewrite (torsion_add e2 e3 e1 Hn23) by (rewrite <- Hs; ring). exact Hi1.
  - rewrite (torsion_add e3 e1 e2 (not_eq_sym Hn13)) by (rewrite <- Hs; ring). exact Hi2.
  - rewrite (torsion_add e3 e2 e1 (not_eq_sym Hn23)) by (rewrite <- Hs; ring). exact Hi1.
Qed.

Lemma torsion_NoDup : NoDup torsion.
Proof.
  change torsion with (None :: ((fun e : Fp => Some (e, 0 : Fp)) <$> [e1; e2; e3])). apply NoDup_cons. split; [|apply NoDup_fmap_2; [by intros ? ? [=]|exact Hn]].
  intros (e & [=] & _)%list_elem_of_fmap.
Qed.
Lemma torsion_divides : Nat.divide 4 (length points).
Proof.
  apply (orbits (fun A => add_points A <$> torsion)); [done| |apply points_NoDup|].
  { intros A. apply list_elem_of_fmap. exists None. split; [by rewrite padd_None_r|]. unfold torsion. rewrite elem_of_cons. by left. }
  apply Forall_forall. intros A HA%points_spec. split.
  - apply NoDup_fmap_2_strong; [intros V W HV%torsion_curve HW%torsion_curve; by apply add_points_inj|apply torsion_NoDup].
  - apply Forall_forall. intros B (V & -> & HV)%list_elem_of_fmap. pose proof (torsion_curve V HV) as HcV. split; [by apply points_spec, add_points_curve|].
    intros C. rewrite !list_elem_of_fmap. split; intros (W & -> & HW); pose proof (torsion_curve W HW) as HcW; exists (add_points V W).
    + split; [by apply add_points_assoc|by apply torsion_closed].
    + split; [|by apply torsion_closed]. rewrite add_points_assoc, <- (add_points_assoc V V W) by auto using add_points_curve.
      rewrite (torsion_self V HV). by rewrite padd_None_l.
Qed.
End Torsion.

(** One root of the cubic gives two more: the discriminant is the square of an
    element of the field. *)
Definition sqrt_disc : Fp := of_Z 0x79ffbaa17c5fa60f462fc4a6503804b85dda118aba6c20a7a3dd528af02615ac.
Local Abbreviation three := ((1 : Fp) + 1 + 1).
Lemma sqrt_disc_spec : sqrt_disc * sqrt_disc = three * three * three * ((1 + 1) * (1 + 1) - curve_b * curve_b) /\ sqrt_disc <> 0.
Proof. unfold sqrt_disc, curve_b. rewrite <- of_Z_1, <- !of_Z_add, <- !of_Z_mul, <- of_Z_sub, <- of_Z_mul, <- of_Z_0, !of_Z_eq. split; by vm_compute. Qed.

(** Constants are not zero. *)
Ltac nonzero := repeat split; let Hz := fresh in intros Hz; apply (f_equal Zmod.unsigned) in Hz; vm_compute in Hz; discriminate Hz.

Lemma three_roots e : curve_f e = 0 -> exists e2 e3, curve_f e2 = 0 /\ curve_f e3 = 0 /\ e + e2 + e3 = 0 /\ NoDup [e; e2; e3].
Proof.
  intros He. pose proof (Fp_nonsingular e He) as Hd. destruct sqrt_disc_spec as [Hs Hs0]. unfold curve_f in *. rewrite curve_a_eq in *. pose proof Fp_two as H2.
  set (d := three * e * e + - three) in *. set (t := sqrt_disc / d). assert (curve_b = three * e - e * e * e) as Hb by (transitivity (0 + three * e - e * e * e); [rewrite <- He; ring|ring]).
  assert (t * t = three * ((1 + 1) * (1 + 1) - e * e)) as Ht.
  { transitivity (sqrt_disc * sqrt_disc / (d * d)); [unfold t; by field|]. rewrite Hs, Hb. unfold d in *. by field. }
  exists ((t - e) / (1 + 1)), ((- t - e) / (1 + 1)). rewrite Hb. split_and!.
  - transitivity ((t - three * e) * (t * t - three * ((1 + 1) * (1 + 1) - e * e)) / ((1 + 1) * (1 + 1) * (1 + 1))); [(field; nonzero)|]. rewrite Ht. (field; nonzero).
  - transitivity ((- t - three * e) * (t * t - three * ((1 + 1) * (1 + 1) - e * e)) / ((1 + 1) * (1 + 1) * (1 + 1))); [(field; nonzero)|]. rewrite Ht. (field; nonzero).
  - (field; nonzero).
  - assert (t <> 0) as Ht0. { intros Hz. apply Hs0. transitivity (t * d); [unfold t; field; exact Hd|]. rewrite Hz. ring. }
    assert (forall u, u * u = t * t -> e <> (u - e) / (1 + 1)) as Hu.
    { intros u Hu Heu. assert (u = three * e) as -> by (transitivity ((1 + 1) * ((u - e) / (1 + 1)) + e); [(field; nonzero)|rewrite <- Heu; ring]).
      rewrite Ht in Hu. assert ((1 + 1) * (1 + 1) * d = 0) as [[H|H]%Fp_product|H]%Fp_product; [|exact (H2 H)|exact (H2 H)|exact (Hd H)].
      transitivity (three * e * (three * e) - three * ((1 + 1) * (1 + 1) - e * e)); [unfold d; ring|rewrite Hu; ring]. }
    rewrite !NoDup_cons, !not_elem_of_cons. split_and!; try apply not_elem_of_nil; try exact (NoDup_nil_2).
    + apply Hu. reflexivity.
    + apply Hu. ring.
    + intros Hq. apply Ht0. transitivity ((t - e) / (1 + 1) - (- t - e) / (1 + 1)); [(field; nonzero)|]. rewrite Hq. ring.
Qed.

#[local] Close Scope Zmod_scope.

(** The curve has [n] points. *)
Lemma points_number : Z.of_nat (length points) = val SECP256r1_n.
Proof.
  destruct (points_length) as (l & Hl & Hb & He). pose proof (points_kill G G_curve) as Hk.
  apply (multiple_order G (val SECP256r1_n)) in Hk as [c Hc]; [|apply G_curve|done|exact order_prime|apply G_order|lia].
  assert (val SECP256r1_n = 2 * (val SECP256r1_n / 2) + 1 /\ 2 * p + 1 < 3 * val SECP256r1_n /\ 0 < val SECP256r1_n)%Z as (Hn & Hp & H0) by (split_and!; by vm_compute).
  set (n := val SECP256r1_n) in *. clearbody n. assert (c = 1 \/ c = 2) as [->| ->] by nia; [lia|exfalso].
  destruct (decide (Exists (fun x => curve_f x = Zmod.zero) residues)) as [(e & _ & Hr)%Exists_exists|Hr].
  - destruct (three_roots e Hr) as (e2 & e3 & Hr2 & Hr3 & Hs & Hnd). destruct (torsion_divides e e2 e3 Hr Hr2 Hr3 Hs Hnd) as [m Hm]. lia.
  - destruct He as [m Hm]; [|lia]. intros x Hx. apply Hr, Exists_exists. exists x. split; [apply residues_all|done].
Qed.

Lemma points_order Q : is_curve_point Q -> multiple (val SECP256r1_n) Q = None.
Proof. intros HQ. rewrite <- points_number. by apply points_kill. Qed.

(** The curve is a group of the prime order [n]: it has [n] points, and [n] is the
    least positive multiple that takes a point other than the one at infinity there. *)
Theorem order_of_points Q : is_curve_point Q -> Z.of_nat (length points) = val SECP256r1_n /\ multiple (val SECP256r1_n) Q = None /\
  (Q <> None -> forall k, 0 < k < val SECP256r1_n -> multiple k Q <> None).
Proof.
  intros HQ. split; [apply points_number|]. split; [by apply points_order|].
  intros HQ0 k Hk He. apply (multiple_order Q (val SECP256r1_n)) in He; [|done|done|exact order_prime|by apply points_order|lia]. apply Z.divide_pos_le in He; lia.
Qed.
Lemma order_of_points_witness : multiple (val SECP256r1_n) G = None /\ multiple 5 G <> None.
Proof.
  split; [exact (proj1 (proj2 (order_of_points G G_curve)))|].
  apply (proj2 (proj2 (order_of_points G G_curve))); [discriminate|]. split; vm_compute; reflexivity.
Defined.
