(* ===== verification/P256Scalar.v ===== *)
(** Multiples of points as the code computes them: the loops of P256Ec.v compute the
    multiples of the group, and [p256_points_mul_vartime] the sum of two of them. *)

From Stdlib Require Import Zdiv Znumtheory Setoid Zmod.
From S2P Require Import Prelude Primes P256 P256Facts P256Ec P256Limbs P256Field P256Points P256Mult Curve P256Group P256Fast P256Table P256Order.

Abbreviation order := (val SECP256r1_n).

(** ** Multiples below the order *)

Section Multiples.
Context (Q : point) (HQ : is_curve_point Q) (HQ0 : Q <> None).

Lemma multiple_finite k : 0 < k < order -> multiple k Q <> None.
Proof.
  intros Hk He. apply (multiple_order Q order) in He; [|done|done|exact order_prime|by apply points_order|lia]. apply Z.divide_pos_le in He; lia.
Qed.
Lemma multiple_not_opposite j k : 0 < j -> 0 < k -> j + k < order -> multiple k Q <> opposite (multiple j Q).
Proof.
  intros Hj Hk Hs He. apply (multiple_opposite Q order) in He; [|done|done|exact order_prime|by apply points_order|lia|lia]. apply Z.divide_pos_le in He; lia.
Qed.
Lemma multiple_distinct j k : 0 < j -> 0 < k -> j <> k -> j + k < order -> distinct (multiple j Q) (multiple k Q).
Proof.
  intros Hj Hk Hn Hs. split_and!; [apply multiple_finite; lia|apply multiple_finite; lia| |apply multiple_not_opposite; lia].
  intros He. destruct (Z.lt_ge_cases j k).
  - symmetry in He. apply (multiple_same Q order) in He; [|done|done|exact order_prime|by apply points_order|lia|lia]. apply Z.divide_pos_le in He; lia.
  - apply (multiple_same Q order) in He; [|done|done|exact order_prime|by apply points_order|lia|lia]. apply Z.divide_pos_le in He; lia.
Qed.

(** The point of a loop holds the multiple by [k]. *)
Definition holds (n : option jacobian) (k : Z) : Prop :=
  match n with None => k = 0 | Some q => 0 < k < order /\ stands q (multiple k Q) end.

Lemma holds_double n k : holds n k -> 2 * k < order -> holds (point_double <$> n) (2 * k).
Proof.
  destruct n as [q|]; cbn [holds fmap option_fmap option_map]; [|lia]. intros [Hk Hq] Hb. split; [lia|].
  rewrite multiple_double by (done || lia). apply stands_double; [done|]. apply multiple_not_opposite; lia.
Qed.
Lemma holds_add (add : jacobian -> jacobian) entry index n k t : holds n k -> 0 < t -> k <> t -> k + t < order -> index <> 0 ->
  stands entry (multiple t Q) ->
  (forall q A, stands q A -> is_curve_point A -> distinct A (multiple t Q) -> stands (add q) (add_points A (multiple t Q))) ->
  holds (add_entry add entry index n) (k + t).
Proof.
  intros Hn Ht Hkt Hb Hi He Hadd. unfold add_entry. rewrite (proj2 (Z.eqb_neq _ _)) by done. destruct n as [q|]; cbn [holds] in *.
  - destruct Hn as [Hk Hq]. split; [lia|]. rewrite multiple_add by (done || lia). apply Hadd; [done|by apply multiple_curve|]. apply multiple_distinct; lia.
  - subst k. split; [lia|]. by rewrite Z.add_0_l.
Qed.
Lemma holds_skip add entry n k : holds n k -> holds (add_entry add entry 0 n) (k + 0).
Proof. by rewrite Z.add_0_r. Qed.
End Multiples.

(** ** Bits of a number *)

Lemma val_testbit l k : digits l -> 0 <= k -> Z.testbit (val l) k = Z.testbit (nth (Z.to_nat (k / 32)) l 0) (k mod 32).
Proof.
  intros Hd. revert k. induction Hd as [|d l Hd Hl IH]; intros k Hk; [cbn [val]; destruct (Z.to_nat (k / 32)); cbn [nth]; by rewrite !Z.bits_0|].
  cbn [val]. unfold B in Hd |- *. destruct (Z.lt_ge_cases k 32).
  - rewrite Z.div_small, Z.mod_small by lia. change (Z.to_nat 0) with 0%nat. cbn [nth]. rewrite <- (Z.mod_pow2_bits_low _ 32) by lia.
    rewrite (Z.mul_comm (2 ^ 32)), Z.mod_add, Z.mod_small by lia. done.
  - replace k with ((k - 32) + 32) at 1 by lia. rewrite <- Z.div_pow2_bits by lia. rewrite (Z.mul_comm (2 ^ 32)), Z.div_add, Z.div_small, Z.add_0_l, IH by lia.
    replace (k / 32) with ((k - 32) / 32 + 1) by (rewrite <- Z.div_add by lia; f_equal; lia).
    replace (Z.to_nat ((k - 32) / 32 + 1)) with (S (Z.to_nat ((k - 32) / 32))) by (pose proof (Z.div_pos (k - 32) 32); lia). cbn [nth].
    f_equal. rewrite <- (Z.mod_add (k - 32) 1 32) by lia. f_equal. lia.
Qed.

Lemma get_bit_digit a k : 0 <= k -> p256_get_bit a k = Z.b2z (Z.testbit (nth (Z.to_nat (k / 32)) a 0) (k mod 32)).
Proof.
  intros Hk. unfold p256_get_bit. change P256_BITSPERDIGIT with 32. rewrite (Z.land_ones k 5 ltac:(lia) : Z.land k (32 - 1) = k mod 32).
  rewrite (Z.land_ones _ 1 ltac:(lia) : Z.land _ 1 = _ mod 2). rewrite <- Z.bit0_mod, Z.shiftr_spec by lia. done.
Qed.
Lemma get_bit_val a k : number a -> 0 <= k -> p256_get_bit a k = Z.b2z (Z.testbit (val a) k).
Proof. intros [Hd _] Hk. by rewrite get_bit_digit, val_testbit. Qed.

Lemma shiftr_step a s : 0 <= s -> Z.shiftr a s = 2 * Z.shiftr a (s + 1) + Z.b2z (Z.testbit a s).
Proof.
  intros Hs. rewrite Z.testbit_odd, <- Z.shiftr_shiftr, <- Z.div2_spec by lia. apply Z.div2_odd.
Qed.

(** ** The base point *)

Lemma number_list a : number a -> exists d0 d1 d2 d3 d4 d5 d6 d7, a = [d0; d1; d2; d3; d4; d5; d6; d7] /\ is_digit d0 /\ is_digit d1 /\ is_digit d2 /\ is_digit d3 /\
  is_digit d4 /\ is_digit d5 /\ is_digit d6 /\ is_digit d7.
Proof.
  intros [Hd Hl]. do 8 (destruct a as [|? a]; [done|]). destruct a; [|done]. unfold digits in Hd. rewrite !Forall_cons in Hd. do 8 eexists. split; [reflexivity|]. tauto.
Qed.

(** The digits shifted: the factor of the point before round [i]. *)
Definition columns (a : p256_int) (i : Z) : Z := val ((fun d => Z.shiftr d (32 - i)) <$> a).
(** The bits of the digits that the round takes, of the even and of the odd ones. *)
Definition column_bits (second : bool) (a : p256_int) (i : Z) : list Z :=
  imap (fun c d => if Bool.eqb (Nat.odd c) second then Z.b2z (Z.testbit d (31 - i)) else 0) a.

Lemma index_bits (second b0 b1 b2 b3 : bool) :
  let index := Z.lor (Z.lor (Z.lor (Z.b2z b0) (Z.shiftl (Z.b2z b1) 1)) (Z.shiftl (Z.b2z b2) 2)) (Z.shiftl (Z.b2z b3) 3) in
  let bits := if second then [0; Z.b2z b0; 0; Z.b2z b1; 0; Z.b2z b2; 0; Z.b2z b3] else [Z.b2z b0; 0; Z.b2z b1; 0; Z.b2z b2; 0; Z.b2z b3; 0] in
  weight second (Z.to_nat index) = val bits /\ (index = 0 -> val bits = 0).
Proof. destruct second, b0, b1, b2, b3; (split; [reflexivity|first [reflexivity|intros [=]]]). Qed.

Lemma base_index_bits scalar i (second : bool) : number scalar -> 0 <= i < 32 ->
  let index := base_index scalar i (if second : bool then 32 else 0) in
  weight second (Z.to_nat index) = val (column_bits second scalar i) /\ (index = 0 -> val (column_bits second scalar i) = 0).
Proof.
  intros (d0 & d1 & d2 & d3 & d4 & d5 & d6 & d7 & -> & _)%number_list Hi. unfold base_index.
  assert (forall m, 0 <= m -> (32 * m + (31 - i)) / 32 = m /\ (32 * m + (31 - i)) mod 32 = 31 - i) as Hdm.
  { intros m Hm. split; symmetry; [apply (Z.div_unique_pos _ _ _ (31 - i))|apply (Z.mod_unique_pos _ _ m)]; lia. }
  assert (forall k m, 0 <= m -> k = 32 * m + (31 - i) -> p256_get_bit [d0; d1; d2; d3; d4; d5; d6; d7] k =
    Z.b2z (Z.testbit (nth (Z.to_nat m) [d0; d1; d2; d3; d4; d5; d6; d7] 0) (31 - i))) as Hbit.
  { intros k m Hm ->. rewrite get_bit_digit by lia. by destruct (Hdm m Hm) as [-> ->]. }
  destruct second; cbv zeta.
  - rewrite (Hbit _ 1), (Hbit _ 3), (Hbit _ 5), (Hbit _ 7) by lia. apply (index_bits true).
  - rewrite (Hbit _ 0), (Hbit _ 2), (Hbit _ 4), (Hbit _ 6) by lia. apply (index_bits false).
Qed.

(** A point in affine coordinates, added. *)
Definition affine (x y : felem) (A : point) : Prop :=
  exists a b, A = Some (a, b) /\ repr x (Zmod.unsigned a) /\ repr y (Zmod.unsigned b).
Lemma affine_stands x y A : affine x y A -> stands (x, y, kOne) A.
Proof. intros (a & b & -> & Hx & Hy). exists (Zmod.unsigned a), (Zmod.unsigned b), 1, 1. split; [split_and!; [done|done|apply repr_one]|]. split_and!; ringp. Qed.
Lemma affine_add x y B : affine x y B -> is_curve_point B -> forall q A, stands q A -> is_curve_point A -> distinct A B -> stands (point_add_mixed q x y) (add_points A B).
Proof. intros (a & b & -> & Hx & Hy) HB q A Hq HA Hd. by apply stands_add_mixed. Qed.
Lemma unsigned_of_Z z : Zmod.unsigned (of_Z z) =p z.
Proof. apply of_Z_eq, of_Z_unsigned. Qed.

Lemma table_affine (second : bool) index : is_index index -> index <> 0 ->
  let '(px, py) := affine_entry (drop (if second then 270 else 0)%nat kPrecomputed) index in affine px py (multiple (weight second (Z.to_nat index)) G).
Proof.
  intros Hi Hn. assert (1 <= Z.to_nat index <= 15)%nat as Hr by (unfold is_index in Hi; lia). pose proof (table_good second _ Hr) as Hg. unfold entry_good, entry in Hg.
  assert (Z.of_nat (Z.to_nat index) = index) as Hz by (unfold is_index in Hi; lia). rewrite Hz in Hg.
  destruct (precomputed_fe (if second then 270 else 0)%nat index) as [Hx Hy]; [by destruct second; auto|done|done|].
  destruct (affine_entry _ index) as [px py]. cbn [fst snd] in *. rewrite Hg. eexists _, _. split; [reflexivity|].
  split; (eapply repr_eq; [by apply fe_repr|]); rewrite unsigned_of_Z, red_spec; reflexivity.
Qed.

Lemma base_add_holds scalar i (second : bool) n k : number scalar -> 0 <= i < 32 -> holds G n k ->
  let t := val (column_bits second scalar i) in
  (0 < t -> k <> t) -> k + t < order -> 0 <= t ->
  holds G (base_add scalar i (if second then 32 else 0) (if second then 270 else 0)%nat n) (k + t).
Proof.
  intros Hs Hi Hn t Hkt Hb Ht. destruct (base_index_bits scalar i second Hs Hi) as [Hw H0]. unfold base_add.
  pose proof (base_index_range scalar i (if second then 32 else 0)) as Hr. set (index := base_index scalar i _) in *. clearbody index. fold t in Hw, H0. clearbody t.
  pose proof (table_affine second index Hr) as Ha. destruct (affine_entry _ index) as [px py]. destruct (Z.eq_dec index 0) as [->|Hne].
  - rewrite H0 by done. apply holds_skip, Hn.
  - specialize (Ha Hne). rewrite Hw in Ha. assert (0 < t) as Hpos.
    { assert (t <> 0); [|lia]. intros ->. destruct Ha as (a & b & [=] & _). }
    apply holds_add; [apply G_curve|discriminate|done|done|by apply Hkt|done|done|by apply affine_stands|].
    apply affine_add; [done|]. apply multiple_curve, G_curve.
Qed.

Lemma shifted_digit d i : is_digit d -> 0 <= i < 32 ->
  let e := Z.shiftr d (32 - i) in let b := Z.b2z (Z.testbit d (31 - i)) in
  Z.shiftr d (32 - (i + 1)) = 2 * e + b /\ 0 <= b <= 1 /\ 0 <= e /\ 2 * e + b <= d < B.
Proof.
  intros Hd Hi e b. replace (32 - (i + 1)) with (31 - i) by lia. pose proof (shiftr_step d (31 - i)) as Hs. replace (31 - i + 1) with (32 - i) in Hs by lia.
  fold e b in Hs. rewrite Hs by lia. assert (0 <= e) by (apply Z.shiftr_nonneg; lia). assert (0 <= b <= 1) by (unfold b; destruct (Z.testbit _ _); cbn; lia).
  split_and!; try lia. rewrite <- Hs, Z.shiftr_div_pow2 by lia. pose proof (Z.pow_pos_nonneg 2 (31 - i)). apply Z.div_le_upper_bound; [lia|]. nia.
Qed.

(** The factors of a round, from the digits [e] so far and the bits [b]. *)
Lemma round_factors (e0 e1 e2 e3 e4 e5 e6 e7 b0 b1 b2 b3 b4 b5 b6 b7 : Z) :
  Forall (fun x => 0 <= x.2 <= 1 /\ 0 <= x.1 /\ 2 * x.1 + x.2 < B) [(e0, b0); (e1, b1); (e2, b2); (e3, b3); (e4, b4); (e5, b5); (e6, b6); (e7, b7)] ->
  let k := 2 * val [e0; e1; e2; e3; e4; e5; e6; e7] in
  let t0 := val [b0; 0; b2; 0; b4; 0; b6; 0] in let t1 := val [0; b1; 0; b3; 0; b5; 0; b7] in
  (0 < t0 -> k <> t0) /\ (0 < t1 -> k + t0 <> t1) /\ 0 <= t0 /\ 0 <= t1.
Proof.
  intros Hf k t0 t1. rewrite !Forall_cons in Hf. cbn [fst snd] in Hf. split_and!.
  - intros Ht He. assert ([2 * e0; 2 * e1; 2 * e2; 2 * e3; 2 * e4; 2 * e5; 2 * e6; 2 * e7] = [b0; 0; b2; 0; b4; 0; b6; 0]) as Hl.
    { apply number_inj; [split; [repeat constructor; lia|done]..|]. etransitivity; [|exact He]. unfold k. cbn [val]. ring. }
    injection Hl as H0 _ H2 _ H4 _ H6 _. revert Ht. unfold t0. replace b0 with 0 by lia. replace b2 with 0 by lia. replace b4 with 0 by lia. by replace b6 with 0 by lia.
  - intros Ht He. assert ([2 * e0 + b0; 2 * e1; 2 * e2 + b2; 2 * e3; 2 * e4 + b4; 2 * e5; 2 * e6 + b6; 2 * e7] = [0; b1; 0; b3; 0; b5; 0; b7]) as Hl.
    { apply number_inj; [split; [repeat constructor; lia|done]..|]. etransitivity; [|exact He]. unfold k, t0. cbn [val]. ring. }
    injection Hl as _ H1 _ H3 _ H5 _ H7. revert Ht. unfold t1. replace b1 with 0 by lia. replace b3 with 0 by lia. replace b5 with 0 by lia. by replace b7 with 0 by lia.
  - apply val_bound. repeat constructor; lia.
  - apply val_bound. repeat constructor; lia.
Qed.

Lemma columns_0 a : number a -> columns a 0 = 0.
Proof.
  intros (d0 & d1 & d2 & d3 & d4 & d5 & d6 & d7 & -> & Hd)%number_list. unfold columns. cbn [fmap list_fmap]. rewrite !Z.shiftr_div_pow2 by lia.
  change (2 ^ (32 - 0)) with B. rewrite !Z.div_small by lia. reflexivity.
Qed.
Lemma columns_32 a : columns a 32 = val a.
Proof. unfold columns. f_equal. induction a as [|d a IH]; [done|]. cbn [fmap list_fmap]. by rewrite IH. Qed.
Lemma base_round_holds scalar i n : number scalar -> val scalar < order -> 0 <= i < 32 -> holds G n (columns scalar i) ->
  holds G (base_round scalar n i) (columns scalar (i + 1)).
Proof.
  intros Hs Hb Hi Hn. destruct (number_list scalar Hs) as (d0 & d1 & d2 & d3 & d4 & d5 & d6 & d7 & Heq & D0 & D1 & D2 & D3 & D4 & D5 & D6 & D7).
  apply (fun d => shifted_digit _ i d Hi) in D0, D1, D2, D3, D4, D5, D6, D7. unfold base_round.
  set (e d := Z.shiftr d (32 - i)) in *. set (b d := Z.b2z (Z.testbit d (31 - i))) in *. cbv zeta in *.
  assert (columns scalar i = val (e <$> scalar)) as Hc by done.
  assert (columns scalar (i + 1) = 2 * columns scalar i + val (column_bits false scalar i) + val (column_bits true scalar i) /\ columns scalar (i + 1) <= val scalar) as [Hc' Hle].
  { unfold columns. rewrite Heq. cbn -[Z.mul Z.add Z.sub Z.shiftr Z.testbit Z.b2z B].
    fold (b d0) (b d1) (b d2) (b d3) (b d4) (b d5) (b d6) (b d7) (e d0) (e d1) (e d2) (e d3) (e d4) (e d5) (e d6) (e d7).
    destruct D0 as (-> & D0), D1 as (-> & D1), D2 as (-> & D2), D3 as (-> & D3), D4 as (-> & D4), D5 as (-> & D5), D6 as (-> & D6), D7 as (-> & D7). unfold e, b, B in *. split; [ring|lia]. }
  destruct (round_factors (e d0) (e d1) (e d2) (e d3) (e d4) (e d5) (e d6) (e d7) (b d0) (b d1) (b d2) (b d3) (b d4) (b d5) (b d6) (b d7)) as (F0 & F1 & P0 & P1).
  { unfold e, b. repeat constructor; cbn [fst snd]; lia. }
  change (val [b d0; 0; b d2; 0; b d4; 0; b d6; 0]) with (val (column_bits false [d0; d1; d2; d3; d4; d5; d6; d7] i)) in *.
  change (val [0; b d1; 0; b d3; 0; b d5; 0; b d7]) with (val (column_bits true [d0; d1; d2; d3; d4; d5; d6; d7] i)) in *.
  change (val [e d0; e d1; e d2; e d3; e d4; e d5; e d6; e d7]) with (val (e <$> [d0; d1; d2; d3; d4; d5; d6; d7])) in *. rewrite <- Heq, <- Hc in *.
  rewrite Hc'. apply (base_add_holds scalar i true); [done|done| |done|lia|done].
  apply (base_add_holds scalar i false); [done|done| |done|lia|done].
  destruct (Z.eqb_spec i 0) as [->|].
  - rewrite columns_0 in * by done. exact Hn.
  - apply holds_double; [apply G_curve|discriminate|done|lia].
Qed.

Lemma loop_holds Q (round : option jacobian -> Z -> option jacobian) (factor : Z -> Z) m :
  (forall n i, 0 <= i < Z.of_nat m -> holds Q n (factor i) -> holds Q (round n i) (factor (i + 1))) -> factor 0 = 0 ->
  holds Q (fold_left round (seqZ 0 (Z.of_nat m)) None) (factor (Z.of_nat m)).
Proof.
  intros Hr H0. assert (forall k s n, 0 <= s -> s + Z.of_nat k = Z.of_nat m -> holds Q n (factor s) -> holds Q (fold_left round (seqZ s (Z.of_nat k)) n) (factor (Z.of_nat m))) as Hk.
  { induction k as [|k IH]; intros s n Hs Hm Hn.
    - replace (Z.of_nat m) with s by lia. done.
    - rewrite Nat2Z.inj_succ, seqZ_cons, Z.pred_succ by lia. cbn [fold_left]. apply IH; [lia|lia|]. apply Hr; [lia|done]. }
  apply Hk; [lia|lia|]. by rewrite H0.
Qed.

(** The multiplication of the base point. *)
Lemma scalar_base_mult_holds scalar : number scalar -> 0 < val scalar < order -> stands (scalar_base_mult scalar) (multiple (val scalar) G).
Proof.
  intros Hs [Hp Hb]. rewrite (proj1 (scalar_base_mult_spec scalar)).
  pose proof (loop_holds G (base_round scalar) (columns scalar) 32) as Hl. rewrite columns_32 in Hl. change (Z.of_nat 32) with 32 in Hl.
  destruct (fold_left (base_round scalar) (seqZ 0 32) None) as [q|].
  - apply Hl; [|by apply columns_0]. intros n i Hi. by apply base_round_holds.
  - exfalso. enough (val scalar = 0) by lia. apply Hl; [|by apply columns_0]. intros n i Hi. by apply base_round_holds.
Qed.

(** ** Any point *)

Section Windows.
Context (Q : point) (HQ : is_curve_point Q) (x y : felem) (Haff : affine x y Q).

Lemma affine_finite : Q <> None.
Proof. destruct Haff as (a & b & -> & _). discriminate. Qed.
#[local] Hint Resolve affine_finite : core.
Lemma order_large : 2 ^ 255 < order.
Proof. by vm_compute. Qed.

(** The table of sixteen multiples. *)
Lemma precompute_entry l k : length l = (2 * k)%nat -> (1 <= k < 8)%nat -> (forall j, (1 <= j < 2 * k)%nat -> stands (nth j l (kZero, kZero, kZero)) (multiple (Z.of_nat j) Q)) ->
  let l' := precompute_step x y l (2 * k) in
  length l' = (2 * S k)%nat /\ forall j, (1 <= j < 2 * S k)%nat -> stands (nth j l' (kZero, kZero, kZero)) (multiple (Z.of_nat j) Q).
Proof.
  intros Hl Hk Hj l'. pose proof order_large. unfold l', precompute_step. replace (2 * k / 2)%nat with k by (symmetry; rewrite Nat.mul_comm; by apply Nat.div_mul).
  set (twice := point_double _). assert (stands twice (multiple (2 * Z.of_nat k) Q)) as H2.
  { rewrite multiple_double by (done || lia). apply stands_double; [apply Hj; lia|]. apply multiple_not_opposite; auto; lia. }
  split; [rewrite length_app; cbn [length]; lia|]. intros j Hj'. destruct (Nat.lt_ge_cases j (2 * k)).
  { rewrite app_nth1 by lia. apply Hj. lia. }
  rewrite app_nth2, Hl by lia. assert (j = 2 * k \/ j = S (2 * k))%nat as [->| ->] by lia.
  - rewrite Nat.sub_diag. cbn [nth]. by replace (Z.of_nat (2 * k)) with (2 * Z.of_nat k) by lia.
  - replace (S (2 * k) - 2 * k)%nat with 1%nat by lia. cbn [nth]. replace (Z.of_nat (S (2 * k))) with (2 * Z.of_nat k + 1) by lia.
    rewrite multiple_add, pmul_1 by (done || lia). apply affine_add; [done|done|done|by apply multiple_curve|]. assert (multiple 1 Q = Q) as H1 by apply pmul_1.
    rewrite <- H1 at 2. apply multiple_distinct; auto; lia.
Qed.
Lemma precompute_stands j : (1 <= j < 16)%nat -> stands (nth j (precompute x y) (kZero, kZero, kZero)) (multiple (Z.of_nat j) Q).
Proof.
  unfold precompute. cbn [fold_left]. set (l0 := [_; _]). assert (forall j, (1 <= j < 2)%nat -> stands (nth j l0 (kZero, kZero, kZero)) (multiple (Z.of_nat j) Q)) as H0.
  { intros i Hi. assert (i = 1)%nat as -> by lia. change (Z.of_nat 1) with 1. rewrite pmul_1. by apply affine_stands. }
  assert (length l0 = 2)%nat as Hl0 by done. clearbody l0.
  destruct (precompute_entry l0 1 Hl0 ltac:(lia) H0) as [Hl1 H1]. destruct (precompute_entry _ 2 Hl1 ltac:(lia) H1) as [Hl2 H2].
  destruct (precompute_entry _ 3 Hl2 ltac:(lia) H2) as [Hl3 H3]. destruct (precompute_entry _ 4 Hl3 ltac:(lia) H3) as [Hl4 H4].
  destruct (precompute_entry _ 5 Hl4 ltac:(lia) H4) as [Hl5 H5]. destruct (precompute_entry _ 6 Hl5 ltac:(lia) H5) as [Hl6 H6].
  destruct (precompute_entry _ 7 Hl6 ltac:(lia) H6) as [_ H7]. exact (H7 j).
Qed.

Lemma window_bits b0 b1 b2 b3 : Z.lor (Z.lor (Z.lor (Z.shiftl (Z.b2z b0) 3) (Z.shiftl (Z.b2z b1) 2)) (Z.shiftl (Z.b2z b2) 1)) (Z.b2z b3) =
  8 * Z.b2z b0 + 4 * Z.b2z b1 + 2 * Z.b2z b2 + Z.b2z b3.
Proof. by destruct b0, b1, b2, b3. Qed.
Lemma mult_index_bits scalar i : number scalar -> 0 <= i -> i + 4 <= 256 ->
  Z.shiftr (val scalar) (256 - (i + 4)) = 16 * Z.shiftr (val scalar) (256 - i) + mult_index scalar i.
Proof.
  intros Hs Hi Hi'. unfold mult_index. rewrite !get_bit_val by (done || lia).
  pose proof (shiftr_step (val scalar) (255 - i - 3)) as S3. pose proof (shiftr_step (val scalar) (255 - i - 2)) as S2.
  pose proof (shiftr_step (val scalar) (255 - i - 1)) as S1. pose proof (shiftr_step (val scalar) (255 - i - 0)) as S0.
  replace (255 - i - 3 + 1) with (255 - i - 2) in S3 by lia. replace (255 - i - 2 + 1) with (255 - i - 1) in S2 by lia.
  replace (255 - i - 1 + 1) with (255 - i - 0) in S1 by lia. replace (255 - i - 0 + 1) with (256 - i) in S0 by lia. replace (256 - (i + 4)) with (255 - i - 3) by lia.
  rewrite window_bits. lia.
Qed.

Lemma mult_round_holds scalar m n : number scalar -> val scalar < order -> 0 <= m < 64 -> holds Q n (Z.shiftr (val scalar) (256 - 4 * m)) ->
  holds Q (mult_round (precompute x y) scalar n (4 * m)) (Z.shiftr (val scalar) (256 - 4 * (m + 1))).
Proof.
  intros Hs Hb Hm Hn. replace (4 * (m + 1)) with (4 * m + 4) by lia. pose proof (mult_index_bits scalar (4 * m) Hs ltac:(lia) ltac:(lia)) as Hst.
  assert (0 <= val scalar < 2 ^ 256) as Hv by (by apply number_bound).
  assert (0 <= Z.shiftr (val scalar) (256 - (4 * m + 4)) <= val scalar) as Hle.
  { split; [apply Z.shiftr_nonneg; lia|]. rewrite Z.shiftr_div_pow2 by lia. apply Z.div_le_upper_bound; [apply Z.pow_pos_nonneg; lia|].
    pose proof (Z.pow_pos_nonneg 2 (256 - (4 * m + 4))). nia. }
  assert (m = 0 -> Z.shiftr (val scalar) (256 - 4 * m) = 0) as H0 by (intros ->; rewrite Z.shiftr_div_pow2 by lia; by apply Z.div_small).
  pose proof (mult_index_range scalar (4 * m)) as Hi. unfold mult_round. rewrite Hst in *. set (acc := Z.shiftr (val scalar) (256 - 4 * m)) in *. clearbody acc.
  set (index := mult_index scalar (4 * m)) in *. clearbody index. unfold is_index in Hi.
  assert (0 <= acc) as Hacc by (destruct n; cbn [holds] in Hn; lia).
  assert (holds Q (if 4 * m =? 0 then n else (fun q => point_double (point_double (point_double (point_double q)))) <$> n) (16 * acc)) as Hd.
  { destruct (Z.eqb_spec (4 * m) 0); [rewrite H0 in * by lia; exact Hn|]. apply holds_double in Hn; [|done|auto|lia]. apply holds_double in Hn; [|done|auto|lia].
    apply holds_double in Hn; [|done|auto|lia]. apply holds_double in Hn; [|done|auto|lia]. replace (16 * acc) with (2 * (2 * (2 * (2 * acc)))) by lia. by destruct n. }
  destruct (Z.eq_dec index 0) as [->|Hne]; [by apply holds_skip|]. assert (stands (nth (Z.to_nat index) (precompute x y) (kZero, kZero, kZero)) (multiple index Q)) as He.
  { pose proof (precompute_stands (Z.to_nat index) ltac:(lia)) as Hp. by rewrite Z2Nat.id in Hp by lia. }
  apply holds_add; auto; [lia|lia|lia|]. intros q A Hq HA Hdi. apply stands_add; auto. by apply multiple_curve.
Qed.

(** The multiplication of any point. *)
Lemma scalar_mult_holds scalar : fe x -> fe y -> number scalar -> 0 < val scalar < order -> stands (scalar_mult x y scalar) (multiple (val scalar) Q).
Proof.
  intros Hx Hy Hs [Hp Hb]. rewrite (proj1 (scalar_mult_spec x y scalar Hx Hy)).
  pose proof (loop_holds Q (fun n m => mult_round (precompute x y) scalar n (4 * m)) (fun m => Z.shiftr (val scalar) (256 - 4 * m)) 64) as Hl.
  cbv beta in Hl. change (256 - 4 * Z.of_nat 64) with 0 in Hl. rewrite Z.shiftr_0_r in Hl. change (Z.of_nat 64) with 64 in Hl.
  assert (forall l n, fold_left (mult_round (precompute x y) scalar) (Z.mul 4 <$> l) n = fold_left (fun n m => mult_round (precompute x y) scalar n (4 * m)) l n) as ->.
  { induction l as [|m l IH]; intros n; [done|]. cbn [fmap list_fmap fold_left]. apply IH. }
  assert (Z.shiftr (val scalar) (256 - 4 * 0) = 0) as H0 by (rewrite Z.shiftr_div_pow2 by lia; apply Z.div_small; by apply number_bound).
  destruct (fold_left _ (seqZ 0 64) None) as [q|].
  - apply Hl; [|done]. intros n i Hi. by apply mult_round_holds.
  - exfalso. enough (val scalar = 0) by lia. apply Hl; [|done]. intros n i Hi. by apply mult_round_holds.
Qed.
End Windows.

(** ** Sums of two multiples *)

(** The coordinates that the code gives back; it has (0, 0) for the point at infinity. *)
Definition coordinates (A : point) : Z * Z :=
  match A with None => (0, 0) | Some (x, y) => (Zmod.unsigned x, Zmod.unsigned y) end.
(** The point of the curve that two numbers are the coordinates of. *)
Definition key_point (x y : p256_int) : point := Some (of_Z (val x), of_Z (val y)).

Lemma key_point_curve x y : on_curve (val x) (val y) -> is_curve_point (key_point x y).
Proof. intros (_ & _ & Hc). apply curve_point_of_Z, Hc. Qed.
Lemma key_point_affine x y : number x -> number y -> affine (to_montgomery x) (to_montgomery y) (key_point x y).
Proof.
  intros Hx Hy. eexists _, _. split; [reflexivity|]. split; (eapply repr_eq; [by apply repr_to_montgomery|]); by rewrite unsigned_of_Z.
Qed.

Lemma affine_of_stands P A : stands P A ->
  number (affine_of P).1 /\ number (affine_of P).2 /\ (val (affine_of P).1, val (affine_of P).2) = coordinates A.
Proof.
  destruct A as [[x y]|]; cbn [stands coordinates].
  - intros HP. destruct (affine_of_spec P _ _ HP) as (? & -> & ? & ->). split_and!; try done. pose proof p_pos.
    by rewrite !Z.mod_small by (apply Zmod.unsigned_pos_bound; lia).
  - intros (X & Y & Z & HP & HZ). destruct (affine_of_repr P X Y Z HP) as (? & -> & ? & ->). split_and!; try done.
    assert (Z ^ (p - 2) =p 0) as Hz. { replace (p - 2) with (1 + (p - 3)) by lia. rewrite Z.pow_add_r by (lia || by vm_compute). rewrite Z.pow_1_r. generalize (Z ^ (p - 3)). intros r. rewrite HZ. ringp. }
    assert (forall a, (a * 0) mod p = 0) as Hzero by (intros a; by rewrite Z.mul_0_r).
    f_equal; [transitivity ((X * 0) mod p)|transitivity ((Y * 0) mod p)]; try apply Hzero; [change (X * (Z ^ (p - 2) * Z ^ (p - 2)) =p X * 0)|
      change (Y * (Z ^ (p - 2) * (Z ^ (p - 2) * Z ^ (p - 2))) =p Y * 0)]; rewrite Hz; ringp.
Qed.

Lemma not_self_opposite A : is_curve_point A -> A <> None -> A <> opposite A.
Proof. intros HA Hn. pose proof (multiple_not_opposite A HA Hn 1 1 ltac:(lia) ltac:(lia)) as Ho. rewrite !pmul_1 in Ho. apply Ho. by vm_compute. Qed.

Lemma add_opposite_None A : add_points (opposite A) A = None.
Proof. destruct A as [[x y]|]; [|done]. unfold padd, popp. rewrite decide_True; [done|]. by split. Qed.
Lemma opposite_opposite A : opposite (opposite A) = A.
Proof. destruct A as [[x y]|]; [|done]. cbn. do 2 f_equal. ring. Qed.

Lemma stands_sum P1 P2 A B : stands P1 A -> stands P2 B -> is_curve_point A -> is_curve_point B -> A <> None -> B <> None ->
  exists P, point_add_or_double_vartime P1 P2 = Some P /\ stands P (add_points A B).
Proof.
  intros H1 H2 HA HB HA0 HB0. destruct A as [[x1 y1]|]; [|done]. destruct B as [[x2 y2]|]; [|done].
  destruct (point_add_or_double_spec P1 P2 _ _ _ _ H1 H2) as (b & He & Hb). exists (if b : bool then point_double P1 else point_add P1 P2). split; [done|].
  rewrite <- !of_Z_eq, !of_Z_unsigned in Hb. destruct b.
  - destruct (proj1 Hb eq_refl) as [-> ->]. apply stands_double; [done|]. by apply not_self_opposite.
  - assert (Some (x1, y1) <> Some (x2, y2)) as Hne by (intros [= -> ->]; destruct Hb as [_ Hb]; by specialize (Hb (conj eq_refl eq_refl))).
    destruct (decide (Some (x1, y1) = opposite (Some (x2, y2)))) as [Ho|Ho]; [|by apply stands_add].
    rewrite Ho, add_opposite_None. eapply stands_add_opposite; [exact HA0|exact H1|]. by rewrite Ho, opposite_opposite.
Qed.

Lemma points_mul_group n1 n2 x y : number n1 -> number n2 -> number x -> number y -> val n1 < order -> val n2 < order -> on_curve (val x) (val y) ->
  exists rx ry, p256_points_mul_vartime n1 n2 x y = Some (rx, ry) /\ number rx /\ number ry /\
    (val rx, val ry) = coordinates (add_points (multiple (val n1) G) (multiple (val n2) (key_point x y))).
Proof.
  intros Hn1 Hn2 Hx Hy Hb1 Hb2 Hk. unfold p256_points_mul_vartime. rewrite !p256_is_zero_spec by (apply Hn1 || apply Hn2).
  pose proof (number_bound n1 Hn1). pose proof (number_bound n2 Hn2). pose proof (key_point_curve x y Hk) as HQ. pose proof (key_point_affine x y Hx Hy) as Ha.
  assert (key_point x y <> None) as HQ0 by discriminate.
  destruct (Z.eqb_spec (val n1) 0) as [H1|H1], (Z.eqb_spec (val n2) 0) as [H2|H2]; cbn [andb]; cbv zeta.
  - exists P256_ZERO, P256_ZERO. rewrite H1, H2. split_and!; [done|apply p256_zero_number|apply p256_zero_number|done].
  - pose proof (scalar_mult_holds _ HQ _ _ Ha n2 (proj1 (repr_to_montgomery x Hx)) (proj1 (repr_to_montgomery y Hy)) Hn2 ltac:(lia)) as HP.
    cbn [mbind option_bind]. destruct (affine_of_stands _ _ HP) as (? & ? & Hc). destruct (affine_of _) as [rx ry]. exists rx, ry. rewrite H1. by split_and!.
  - pose proof (scalar_base_mult_holds n1 Hn1 ltac:(lia)) as HP.
    cbn [mbind option_bind]. destruct (affine_of_stands _ _ HP) as (? & ? & Hc). destruct (affine_of _) as [rx ry]. exists rx, ry. rewrite H2, pmul_0, padd_None_r. by split_and!.
  - pose proof (scalar_mult_holds _ HQ _ _ Ha n2 (proj1 (repr_to_montgomery x Hx)) (proj1 (repr_to_montgomery y Hy)) Hn2 ltac:(lia)) as HP2.
    pose proof (scalar_base_mult_holds n1 Hn1 ltac:(lia)) as HP1.
    destruct (stands_sum _ _ _ _ HP1 HP2) as (P & -> & HP); [apply multiple_curve, G_curve|by apply multiple_curve|apply multiple_finite; [apply G_curve|discriminate|lia]|by apply multiple_finite; try lia|].
    cbn [mbind option_bind]. destruct (affine_of_stands _ _ HP) as (? & ? & Hc). destruct (affine_of P) as [rx ry]. exists rx, ry. by split_and!.
Qed.

(** C27. The sum of two multiples that signatures are checked with: for factors below the
    order and a second point on the curve, the code gives back the coordinates of
    n1 G + n2 (x, y) in the group of the curve, whatever the two points are, also when
    a factor is zero, when the points are equal and when they are opposite. *)
Theorem p256_points_mul_vartime_spec n1 n2 x y : number n1 -> number n2 -> number x -> number y -> val n1 < order -> val n2 < order -> on_curve (val x) (val y) ->
  exists rx ry, p256_points_mul_vartime n1 n2 x y = Some (rx, ry) /\ number rx /\ number ry /\
    (val rx, val ry) = coordinates (add_points (multiple (val n1) G) (multiple (val n2) (key_point x y))).
Proof. apply points_mul_group. Qed.

(** The coordinates of the base point as numbers of the code. *)
Definition base_x : p256_int := [0xd898c296; 0xf4a13945; 0x2deb33a0; 0x77037d81; 0x63a440f2; 0xf8bce6e5; 0xe12c4247; 0x6b17d1f2].
Definition base_y : p256_int := [0x37bf51f5; 0xcbb64068; 0x6b315ece; 0x2bce3357; 0x7c0f9e16; 0x8ee7eb4a; 0xfe1a7f9b; 0x4fe342e2].
Lemma base_numbers : number base_x /\ number base_y /\ on_curve (val base_x) (val base_y).
Proof. split_and!; try (apply (bool_decide_unpack _); vm_compute; exact I); split_and!; vm_compute; reflexivity. Qed.
Lemma base_key : key_point base_x base_y = G.
Proof. unfold key_point, G. do 3 f_equal. Qed.

Lemma unsigned_small z : 0 <= z < p -> Zmod.unsigned (of_Z z) = z.
Proof. intros Hz. unfold of_Z. rewrite Zmod.unsigned_of_Z. by apply Z.mod_small. Qed.
Lemma coordinates_G : coordinates G = (Gx, Gy).
Proof. unfold G, coordinates. by rewrite !unsigned_small by (split; by vm_compute). Qed.

Lemma p256_points_mul_vartime_spec_witness : exists rx ry, p256_points_mul_vartime P256_ONE P256_ZERO base_x base_y = Some (rx, ry) /\ val rx = Gx /\ val ry = Gy.
Proof.
  destruct base_numbers as (Hx & Hy & Hc).
  destruct (p256_points_mul_vartime_spec P256_ONE P256_ZERO base_x base_y) as (rx & ry & He & _ & _ & Hr);
    [apply (bool_decide_unpack _); vm_compute; exact I..|exact Hx|exact Hy|vm_compute; reflexivity|vm_compute; reflexivity|exact Hc|].
  exists rx, ry. split; [exact He|]. change (val P256_ONE) with 1 in Hr. change (val P256_ZERO) with 0 in Hr. rewrite pmul_1, pmul_0, padd_None_r in Hr.
  rewrite coordinates_G in Hr. injection Hr as Hrx Hry. split; [exact Hrx|exact Hry].
Defined.

(** The multiples of the base point and of any point of the curve: the code gives
    back their coordinates. *)
Theorem p256_point_mul_spec k x y : number k -> number x -> number y -> 0 < val k < order -> on_curve (val x) (val y) ->
  (val (p256_base_point_mul k).1, val (p256_base_point_mul k).2) = coordinates (multiple (val k) G) /\
  (val (p256_point_mul k x y).1, val (p256_point_mul k x y).2) = coordinates (multiple (val k) (key_point x y)).
Proof.
  intros Hk Hx Hy Hb Hc. split; apply affine_of_stands; [by apply scalar_base_mult_holds|].
  apply scalar_mult_holds; try done; [by apply key_point_curve|by apply key_point_affine|apply (repr_to_montgomery x Hx)|apply (repr_to_montgomery y Hy)].
Qed.
Lemma p256_point_mul_spec_witness :
  (val (p256_point_mul P256_ONE base_x base_y).1, val (p256_point_mul P256_ONE base_x base_y).2) = coordinates (multiple 1 (key_point base_x base_y)).
Proof.
  destruct base_numbers as (Hx & Hy & Hc). refine (proj2 (p256_point_mul_spec P256_ONE base_x base_y _ Hx Hy _ Hc)).
  - apply (bool_decide_unpack _). vm_compute. exact I.
  - split; vm_compute; reflexivity.
Defined.
