(* ===== verification/P256Ecdsa.v ===== *)
(** Verification of ECDSA signatures (omaha/base/security/p256_ecdsa.c). *)

From Stdlib Require Import Znumtheory Zmod.
From S2P Require Import Prelude Primes P256 P256Facts P256Ec P256Limbs P256Field P256Points P256Mult Curve P256Group P256Fast P256Table P256Order P256Scalar.

(** [None] only if a loop does not end within its fuel, which the theorem below
    excludes. *)
Definition p256_ecdsa_verify (key_x key_y message r s : p256_int) : option bool :=
  if negb (p256_is_valid_point key_x key_y) then Some false
  else
    let u := p256_mod SECP256r1_n r in
    let v := p256_mod SECP256r1_n s in
    if p256_is_zero u || p256_is_zero v then Some false
    else
      v ← p256_modinv_vartime SECP256r1_n s;
      let u := p256_modmul SECP256r1_n message 0 v in
      let v := p256_modmul SECP256r1_n r 0 v in
      '(u, v) ← p256_points_mul_vartime u v key_x key_y;
      let u := p256_mod SECP256r1_n u in
      Some (p256_cmp r u =? 0).

(** The order of the group. *)
Definition n : Z := val SECP256r1_n.

Lemma n_bounds : 2 ^ 256 - 2 ^ 224 <= n < 2 ^ 256.
Proof. split; [by apply Z.leb_le; vm_compute|by apply Z.ltb_lt; vm_compute]. Qed.
Lemma n_number : number SECP256r1_n.
Proof. apply SECP256r1_n_modulus. Qed.
Lemma n_val : val SECP256r1_n = n.
Proof. reflexivity. Qed.
#[global] Opaque n.

Lemma p256_mod_n a : number a -> number (p256_mod SECP256r1_n a) /\ val (p256_mod SECP256r1_n a) = val a mod n.
Proof.
  intros Ha. destruct (sub_once_spec SECP256r1_n a n_number Ha) as [Hn Hv]. split; [done|]. unfold p256_mod. rewrite Hv, n_val.
  pose proof (number_bound a Ha). pose proof n_bounds. destruct (Z.ltb_spec (val a) n).
  - symmetry. apply Z.mod_small. lia.
  - apply (Z.mod_unique_pos _ _ 1); lia.
Qed.

Lemma p256_cmp_eq a b : number a -> number b -> (p256_cmp a b =? 0) = true <-> val a = val b.
Proof. intros Ha Hb. rewrite p256_cmp_spec by done. destruct (Z.ltb_spec (val a) (val b)), (Z.eqb_spec (val a) (val b)); (split; [done|lia]) || (split; [lia|done]). Qed.

Lemma n_prime : prime n.
Proof. exact order_prime. Qed.

(** The inverse that the code computes. *)
Lemma modinv_n s : number s -> val s mod n <> 0 -> exists w, p256_modinv_vartime SECP256r1_n s = Some w /\ number w /\ (val s * val w) mod n = 1.
Proof.
  intros Hs Hz. pose proof n_bounds. assert (val s <> 0) as Hs0 by (intros H0; rewrite H0 in Hz; by apply Hz).
  destruct (modinv_spec SECP256r1_n s SECP256r1_n_modulus ltac:(vm_compute; reflexivity) Hs Hs0) as (w & He & Hw & _ & Hv).
  exists w. split_and!; [done|done|]. rewrite n_val in Hv. rewrite Hv. assert (Z.gcd n (val s) = 1) as ->; [|apply Z.mod_1_l; lia].
  apply Zgcd_1_rel_prime, prime_rel_prime; [apply n_prime|]. intros Hd. by apply Z.mod_divide in Hd; [|lia].
Qed.

(** What makes a signature valid (FIPS 186): the key is on the curve, neither number
    is zero modulo n, and for the inverse [w] of [s] modulo n the point
    (message * w) G + (r * w) key of the group of the curve is not the one at infinity
    and its abscissa, modulo n, is [r]. *)
Definition valid_signature (key_x key_y message r s : p256_int) : Prop :=
  on_curve (val key_x) (val key_y) /\ val r mod n <> 0 /\ val s mod n <> 0 /\
  exists w x y,
    (val s * w) mod n = 1 /\
    add_points (multiple ((val message * w) mod n) G) (multiple ((val r * w) mod n) (key_point key_x key_y)) = Some (x, y) /\
    val r = Zmod.unsigned x mod n.

Lemma inverse_unique a w v : (a * w) mod n = 1 -> (a * v) mod n = 1 -> forall b, (b * w) mod n = (b * v) mod n.
Proof.
  intros Hw Hv b. pose proof n_bounds. transitivity ((b * w * (a * v)) mod n).
  - by rewrite <- (Zmult_mod_idemp_r (a * v) (b * w)), Hv, Z.mul_1_r.
  - replace (b * w * (a * v)) with (b * v * (a * w)) by ring. by rewrite <- (Zmult_mod_idemp_r (a * w) (b * v)), Hw, Z.mul_1_r.
Qed.

Lemma p256_ecdsa_verify_total key_x key_y message r s :
  number key_x -> number key_y -> number message -> number r -> number s ->
  exists b, p256_ecdsa_verify key_x key_y message r s = Some b /\ (b = true <-> valid_signature key_x key_y message r s).
Proof.
  intros Hkx Hky Hm Hr Hs. unfold p256_ecdsa_verify, valid_signature. pose proof (key_check key_x key_y Hkx Hky) as Hc.
  destruct (p256_is_valid_point key_x key_y); cbn [negb].
  2: { exists false. split; [done|]. split; [done|]. intros [Hk _]. by apply Hc in Hk. }
  destruct (p256_mod_n r Hr) as [Hnr Hvr]. destruct (p256_mod_n s Hs) as [Hns Hvs]. cbv zeta.
  rewrite !p256_is_zero_spec, Hvr, Hvs by (apply Hnr || apply Hns).
  destruct (Z.eqb_spec (val r mod n) 0) as [Hzr|Hzr]; [exists false; split; [done|]; split; [done|]; tauto|].
  destruct (Z.eqb_spec (val s mod n) 0) as [Hzs|Hzs]; [exists false; split; [done|]; split; [done|]; tauto|]. cbn [orb].
  destruct (modinv_n s Hs Hzs) as (w & -> & Hw & Hwv). cbn [mbind option_bind].
  destruct (p256_modmul_spec SECP256r1_n message 0 w SECP256r1_n_modulus Hm Hw ltac:(done)) as [Hn1 Hv1].
  destruct (p256_modmul_spec SECP256r1_n r 0 w SECP256r1_n_modulus Hr Hw ltac:(done)) as [Hn2 Hv2].
  rewrite n_val, Z.mul_0_r, Z.add_0_r in Hv1, Hv2.
  pose proof n_bounds. assert (forall a, a mod n < val SECP256r1_n) as Hlt by (intros a; rewrite n_val; apply Z.mod_pos_bound; lia).
  destruct (points_mul_group (p256_modmul SECP256r1_n message 0 w) (p256_modmul SECP256r1_n r 0 w) key_x key_y) as (x & y & Hxy & Hnx & _ & Hp);
    [done|done|done|done|by rewrite Hv1|by rewrite Hv2|by apply Hc|]. rewrite Hv1, Hv2 in Hp.
  rewrite Hxy. cbn [mbind option_bind]. destruct (p256_mod_n x Hnx) as [Hnm Hvm]. eexists. split; [reflexivity|].
  rewrite p256_cmp_eq, Hvm by done. split.
  - intros He. split_and!; [by apply Hc|done|done|]. destruct (add_points _ _) as [[X Y]|] eqn:HR; injection Hp as Hpx _.
    + exists (val w), X, Y. split_and!; [done|exact HR|]. by rewrite He, Hpx.
    + exfalso. rewrite He, Hpx in Hzr. by rewrite Zmod_0_l in Hzr.
  - intros (_ & _ & _ & v & X & Y & Hv & HR & He). rewrite (inverse_unique (val s) v (val w) Hv Hwv), (inverse_unique (val s) v (val w) Hv Hwv (val r)) in HR.
    rewrite HR in Hp. injection Hp as Hpx _. by rewrite He, Hpx.
Qed.


(** With the private key 1 the public key is the base point.  The signature (r, 1) with
    the nonce 1 of the message n + 1 - r, where r is the abscissa of the base point. *)
Definition sample_message : p256_int := [0x23ca62bc; 0xff18917d; 0x792c6ae3; 0x45e37d2c; 0x9c5bbf0d; 0x0743191a; 0x1ed3bdb9; 0x94e82e0c].
Lemma sample_sum : add_points (multiple (val sample_message) G) (multiple (val base_x) G) = G.
Proof.
  rewrite <- multiple_add by (apply G_curve || by vm_compute). change (val sample_message + val base_x) with (val SECP256r1_n + 1).
  rewrite multiple_add, G_order by (apply G_curve || by vm_compute). by rewrite pmul_1.
Qed.

