(* ===== verification/Files.v ===== *)
(** Files and their hashes.

    The file system is a state: the files with their contents and the times
    they were created, and the directories.  Every call to Windows can fail:
    [Win32] gives the outcome of the n-th call, so that theorems about a
    computation hold for every pattern of failures.  On top of it are the parts
    of omaha/base that the package cache and the download manager use: [File]
    (file.cc), the deletion of files (utils.cc), hexadecimal strings
    (string.cc) and the verification of a hash (signatures.cc). *)

From S2P Require Import Prelude Hresult CStrings Paths Sha256.

Definition SIGS_E_FILE_SIZE_TOO_BIG : HRESULT := MAKE_HRESULT SEVERITY_ERROR FACILITY_ITF 0x205.
Definition ERROR_PATH_NOT_FOUND : Z := 3.

(** ** Windows *)

(** [w32_fault n] is the failure of the n-th call, if it fails; [w32_written n
    len] how much of a write of [len] bytes the n-th call does;
    [w32_survives n path] whether a file is in use and stays until the next
    restart; [w32_filetime n] the clock.  [PathAppend] appends a relative path
    that is a plain name with a separator, and nothing for an empty one. *)
Class Win32 := {
  w32_fault : nat -> option HRESULT;
  w32_written : nat -> nat -> nat;
  w32_survives : nat -> CString -> bool;
  w32_filetime : nat -> Z;
  PathAppend : CString -> CString -> CString;
  w32_fault_failed : forall n hr, w32_fault n = Some hr -> FAILED hr = true;
  w32_written_le : forall n len, (w32_written n len <= len)%nat;
  PathAppend_empty : forall p, PathAppend p [] = p;
  PathAppend_name : forall p c q,
    last p <> Some 92 -> p <> [] -> Forall (fun x => x <> 92 /\ x <> 47) (c :: q) ->
    c :: q <> _T "." -> c :: q <> _T ".." ->
    PathAppend p (c :: q) = p ++ 92 :: c :: q
}.

Record FileData := mkFileData { fd_content : list Z; fd_created : Z }.

(** [fs_calls] counts the calls. *)
Record FS := mkFS {
  fs_files : gmap CString FileData;
  fs_dirs : gset CString;
  fs_calls : nat
}.

Abbreviation FsM := (St FS).

(** Names are compared without case. *)
Definition path_key (path : CString) : CString := MakeLower path.

Definition fs_file (path : CString) (fs : FS) : option FileData := fs_files fs !! path_key path.
Definition fs_content (path : CString) (fs : FS) : option (list Z) := fd_content <$> fs_file path fs.

Definition set_file (path : CString) (f : FileData) (fs : FS) : FS :=
  mkFS (<[path_key path := f]> (fs_files fs)) (fs_dirs fs) (fs_calls fs).

(** The number of a call. *)
Definition next_call : FsM nat := fun fs => (fs_calls fs, mkFS (fs_files fs) (fs_dirs fs) (S (fs_calls fs))).

Section Files.
Context `{Win32}.

(** A call that either fails or does [k]. *)
Definition win32 {A} (on_fault : HRESULT -> FsM A) (k : nat -> FsM A) : FsM A :=
  n ← next_call;
  match w32_fault n with
  | Some hr => on_fault hr
  | None => k n
  end.

Definition File_Exists (path : CString) (fs : FS) : bool :=
  bool_decide (is_Some (fs_file path fs)) || bool_decide (path_key path ∈ fs_dirs fs).

Definition ConcatenatePath (path1 path2 : CString) : CString := PathAppend path1 path2.

(** The loop of [CreateDir] over the directories from the root on. *)
Fixpoint create_dirs (dirs : list CString) : FsM HRESULT :=
  match dirs with
  | [] => mret S_OK
  | dir :: dirs' =>
      fs ← get;
      if File_Exists dir fs then create_dirs dirs'
      else
        win32 mret (fun _ =>
          modify (fun fs => mkFS (fs_files fs) ({[path_key dir]} ∪ fs_dirs fs) (fs_calls fs));;
          create_dirs dirs')
  end.

(** [CreateDir] of a path in canonical form. *)
Definition CreateDir (path : CString) : FsM HRESULT := create_dirs (parents path ++ [path]).

(** [File::Open(path, true, false)]: the file is created when there is none
    and is not truncated when there is one; its attributes are set then. *)
Definition File_OpenWrite (path : CString) : FsM HRESULT :=
  win32 mret (fun n =>
    modify (fun fs => match fs_file path fs with
                      | Some _ => fs
                      | None => set_file path (mkFileData [] (w32_filetime n)) fs
                      end);;
    win32 mret (fun _ => mret S_OK)).

(** [File::Write] at the position [pos] of the open file. *)
Definition File_Write (path : CString) (pos : nat) (data : list Z) : FsM HRESULT :=
  win32 mret (fun n =>
    let wrote := w32_written n (length data) in
    fs ← get;
    match fs_file path fs with
    | None => mret E_FAIL
    | Some f =>
        modify (set_file path (mkFileData
          (take pos (fd_content f) ++ take wrote data ++ drop (pos + wrote) (fd_content f)) (fd_created f)));;
        mret (if Nat.eqb wrote (length data) then S_OK else E_FAIL)
    end).

(** [File::Copy(from, to, true)]. *)
Definition File_Copy (from to : CString) : FsM HRESULT :=
  win32 mret (fun n =>
    fs ← get;
    match fs_file from fs with
    | None => mret (HRESULT_FROM_WIN32 ERROR_FILE_NOT_FOUND)
    | Some f => modify (set_file to (mkFileData (fd_content f) (w32_filetime n)));; mret S_OK
    end).

(** [::DeleteFile]. *)
Definition DeleteFile (path : CString) : FsM unit :=
  win32 (fun _ => mret tt) (fun _ =>
    modify (fun fs => mkFS (delete (path_key path) (fs_files fs)) (fs_dirs fs) (fs_calls fs))).

(** The characters after the last colon must have one that is no separator or
    point, and there are no two points in a row; [prev] is the character
    before. *)
Fixpoint safe_name_loop (prev : Z) (ok : bool) (s : CString) : bool :=
  match s with
  | [] => ok
  | c :: s' =>
      let ok := if negb (c =? 92) && negb (c =? 47) && negb (c =? 58) && negb (c =? 46) then true else ok in
      if (c =? 46) && (prev =? 46) then false
      else safe_name_loop c (if c =? 58 then false else ok) s'
  end.

Definition SafeDirectoryNameForDeletion (dir_name : CString) : bool :=
  negb (IsEmpty dir_name) && safe_name_loop 0 false dir_name.

(** [DeleteDirectory] of [dir] comes to [key]: every directory from [dir] on the
    way down to it has a safe name. *)
Definition reached (dir key : CString) : bool :=
  forallb (fun d => negb (is_at_or_below dir d) || SafeDirectoryNameForDeletion d) (parents key).

(** What a deletion leaves: files and directories that are in use (they go at
    the next restart) or that are not reached, and directories that are not
    empty. *)
Definition file_stays (n : nat) (dir key : CString) : bool :=
  negb (is_at_or_below dir key) || w32_survives n key || negb (reached dir key).
Definition dir_blocked (n : nat) (dir key : CString) : bool :=
  w32_survives n key || negb (reached dir key && SafeDirectoryNameForDeletion key).
Definition dir_stays (n : nat) (dir : CString) (fs : FS) (key : CString) : bool :=
  negb (is_at_or_below dir key) || dir_blocked n dir key
  || existsb (fun f => is_at_or_below key f && file_stays n dir f) (map fst (map_to_list (fs_files fs)))
  || existsb (fun d => is_at_or_below key d && dir_blocked n dir d) (elements (fs_dirs fs)).

(** [DeleteBeforeOrAfterReboot]: a directory is deleted by [DeleteDirectory],
    with what it holds and at best effort. *)
Definition DeleteBeforeOrAfterReboot (path : CString) : FsM HRESULT :=
  fs ← get;
  if negb (File_Exists path fs) then mret (HRESULT_FROM_WIN32 ERROR_FILE_NOT_FOUND)
  else
    n ← next_call;
    let key := path_key path in
    modify (fun fs =>
      mkFS (filter (fun kv => file_stays n key kv.1 = true) (fs_files fs))
        (filter (fun d => dir_stays n key fs d = true) (fs_dirs fs))
        (fs_calls fs));;
    let unsafe d := is_at_or_below key d && negb (SafeDirectoryNameForDeletion d) in
    mret (match w32_fault n with
          | Some hr => hr
          | None => if existsb unsafe (elements (fs_dirs fs)) then E_FAIL else S_OK
          end).

(** ** The verification of hashes *)

Definition IsHexDigit (c : Z) : bool :=
  ((97 <=? c) && (c <=? 102)) || ((65 <=? c) && (c <=? 70)) || ((48 <=? c) && (c <=? 57)).

(** The table [hex_value]. *)
Definition hex_value (c : Z) : Z :=
  if (48 <=? c) && (c <=? 57) then c - 48
  else if (65 <=? c) && (c <=? 70) then c - 65 + 10
  else if (97 <=? c) && (c <=? 102) then c - 97 + 10
  else 0.

Fixpoint a2b_hex (a : CString) : list Z :=
  match a with
  | c0 :: c1 :: a' => u8 (Z.shiftl (hex_value (Z.land c0 0xFF)) 4 + hex_value (Z.land c1 0xFF)) :: a2b_hex a'
  | _ => []
  end.

(** The characters of [hex_char]. *)
Definition hex_char (d : Z) : Z := if d <? 10 then 48 + d else 97 + (d - 10).

Definition b2a_hex (b : list Z) : CString :=
  concat ((fun x => [hex_char (Z.shiftr x 4); hex_char (Z.land x 0xf)]) <$> b).

Definition CheckHexString (str : CString) : bool :=
  negb (IsEmpty str) && Nat.eqb (length str mod 2) 0 && forallb IsHexDigit str.

Definition SafeHexStringToVector (str : CString) : option (list Z) :=
  if CheckHexString str then Some (a2b_hex str) else None.

Definition kMaxFileSizeForAuthentication : Z := 1024 * 1024 * 1024.
Definition kFileReadBufferSize : Z := 1024 * 1024.

(** The loop that reads a file in pieces into the hasher; every iteration but
    the last reads a full buffer, so the length of the file bounds them. *)
Fixpoint hash_file_loop (fuel : nat) (content : list Z) (ctx : LITE_SHA256_CTX) : FsM (HRESULT + LITE_SHA256_CTX) :=
  match fuel with
  | O => mret (inl E_FAIL)
  | S fuel' =>
      win32 (fun hr => mret (inl hr)) (fun _ =>
        let data := take (Z.to_nat kFileReadBufferSize) content in
        let ctx := if negb (Nat.eqb (length data) 0) then SHA256_update ctx data else ctx in
        if Z.of_nat (length data) =? kFileReadBufferSize
        then hash_file_loop fuel' (drop (Z.to_nat kFileReadBufferSize) content) ctx
        else mret (inr ctx))
  end.

(** The loop over the files of [CryptoHash::ComputeOrValidate]. *)
Fixpoint hash_files (filepaths : list CString) (max_len curr_len : Z) (ctx : LITE_SHA256_CTX) :
    FsM (HRESULT + LITE_SHA256_CTX) :=
  match filepaths with
  | [] => mret (inr ctx)
  | path :: rest =>
      win32 (fun hr => mret (inl hr)) (fun _ =>
        fs ← get;
        match fs_content path fs with
        | None => mret (inl (HRESULT_FROM_WIN32 ERROR_FILE_NOT_FOUND))
        | Some content =>
            let go curr_len :=
              r ← hash_file_loop (S (length content)) content ctx;
              match r with
              | inl hr => mret (inl hr)
              | inr ctx => hash_files rest max_len curr_len ctx
              end in
            if max_len =? 0 then go curr_len
            else
              win32 (fun hr => mret (inl hr)) (fun _ =>
                let curr_len := u64 (curr_len + Z.of_nat (length content)) in
                if max_len <? curr_len then mret (inl SIGS_E_FILE_SIZE_TOO_BIG) else go curr_len)
        end)
  end.

(** [CryptoHash::ComputeOrValidate] when it validates. *)
Definition CryptoHash_Validate (filepaths : list CString) (max_len : Z) (hash_in : list Z) : FsM HRESULT :=
  r ← hash_files filepaths max_len 0 (SHA256_init (replicate 64 0));
  match r with
  | inl hr => mret hr
  | inr ctx =>
      mret (if bool_decide (take 32 hash_in = (SHA256_final ctx).2) then S_OK else SIGS_E_INVALID_SIGNATURE)
  end.

Definition VerifyFileHashSha256 (files : list CString) (expected_hash : CString) : FsM HRESULT :=
  match SafeHexStringToVector expected_hash with
  | None => mret E_INVALIDARG
  | Some hash_vector =>
      if negb (Nat.eqb (length hash_vector) 32) then mret E_INVALIDARG
      else CryptoHash_Validate files kMaxFileSizeForAuthentication hash_vector
  end.

End Files.
