(* ===== verification/FilesFacts.v ===== *)
(** Facts about files and hashes: what a successful verification says about
    the contents of a file, that verification succeeds on the right contents,
    and the round trip of hexadecimal strings. *)

From S2P Require Import Prelude Hresult CStrings Paths Sha256 Files.

(** The files are the same; only the number of calls changed. *)
Definition same_files (fs fs' : FS) : Prop :=
  fs_files fs' = fs_files fs /\ fs_dirs fs' = fs_dirs fs.

#[export] Instance same_files_refl : Reflexive same_files.
Proof. by split. Qed.

#[export] Instance same_files_trans : Transitive same_files.
Proof. intros a b c [? ?] [? ?]. split; congruence. Qed.

(** The hash, in hexadecimal, is that of the contents. *)
Definition hash_matches (content : list Z) (hash : CString) : Prop :=
  SafeHexStringToVector hash = Some (sha256 content).

Lemma same_files_file fs fs' path : same_files fs fs' -> fs_file path fs' = fs_file path fs.
Proof. intros [Hf _]. unfold fs_file. by rewrite Hf. Qed.

Lemma same_files_content fs fs' path : same_files fs fs' -> fs_content path fs' = fs_content path fs.
Proof. intros Hs. unfold fs_content. by rewrite (same_files_file fs). Qed.

Lemma same_files_Exists fs fs' path : same_files fs fs' -> File_Exists path fs' = File_Exists path fs.
Proof. intros Hs. unfold File_Exists. rewrite (same_files_file fs) by done. by destruct Hs as [_ ->]. Qed.

(** A call: it fails, or it does its work in the state after the count. *)
Lemma win32_cases `{Win32} {A} (on_fault : HRESULT -> FsM A) k fs :
  exists fs1, same_files fs fs1 /\ fs_calls fs1 = S (fs_calls fs)
  /\ win32 on_fault k fs =
       match w32_fault (fs_calls fs) with Some hr => on_fault hr fs1 | None => k (fs_calls fs) fs1 end.
Proof.
  exists (mkFS (fs_files fs) (fs_dirs fs) (S (fs_calls fs))). split_and!; [done|done|].
  unfold win32, mbind, St_bind, next_call. by destruct (w32_fault _).
Qed.

(** Splits on the outcome of the call at the head of the goal. *)
Ltac win32_step :=
  lazymatch goal with
  | |- context [win32 ?f ?k ?fs] =>
      let E := fresh "E" in
      destruct (win32_cases f k fs) as (?fs1 & ?Hsame & ?Hcalls & E); rewrite E; clear E;
      destruct (w32_fault (fs_calls fs)) eqn:?Ef
  end.

Section Facts.
Context `{Win32}.

(** ** Hashing a file *)

(** What a computation over the hasher does: the files stay, and it fails or
    the hasher has read [m]. *)
Definition hashes (m : list Z) (r : (HRESULT + LITE_SHA256_CTX) * FS) (fs : FS) : Prop :=
  same_files fs r.2
  /\ match r.1 with
     | inl hr => exists n, w32_fault n = Some hr
     | inr ctx => has_read m ctx
     end.

Lemma hash_file_loop_hashes fuel : forall m content ctx fs,
  has_read m ctx -> (length content < fuel)%nat ->
  hashes (m ++ content) (hash_file_loop fuel content ctx fs) fs.
Proof.
  induction fuel as [|fuel IH]; intros m content ctx fs Hr Hf; [lia|]. cbn [hash_file_loop].
  win32_step; [split; [done|by eexists]|]. cbv zeta.
  set (data := take _ content).
  assert (has_read (m ++ data) (if negb (Nat.eqb (length data) 0) then SHA256_update ctx data else ctx)) as Hr'.
  { destruct (Nat.eqb_spec (length data) 0) as [E|E]; cbn [negb]; [|by apply has_read_update].
    apply nil_length_inv in E. by rewrite E, app_nil_r. }
  assert (0 < kFileReadBufferSize) as Hpos by (by unfold kFileReadBufferSize).
  set (n := kFileReadBufferSize) in *. clearbody n. destruct (Z.eqb_spec (Z.of_nat (length data)) n) as [E|E].
  - destruct (IH _ (drop (Z.to_nat n) content) _ fs1 Hr') as [Hs' Hm].
    { rewrite length_drop. subst data. rewrite length_take in E. lia. }
    rewrite <- (assoc_L (++)) in Hm. subst data. rewrite take_drop in Hm.
    split; [by transitivity fs1|exact Hm].
  - split; [done|]. assert (data = content) as Hd.
    { subst data. apply firstn_all2. rewrite length_take in E. lia. }
    rewrite Hd in *. exact Hr'.
Qed.

(** The hasher over one file. *)
Lemma hash_one_file path ctx fs :
  has_read [] ctx ->
  let r := hash_files [path] kMaxFileSizeForAuthentication 0 ctx fs in
  same_files fs r.2
  /\ match r.1 with
     | inl hr =>
         FAILED hr = true
         /\ ((exists n, w32_fault n = Some hr)
             \/ (forall c, fs_content path fs = Some c -> kMaxFileSizeForAuthentication < u64 (Z.of_nat (length c))))
     | inr ctx' => exists c, fs_content path fs = Some c /\ has_read c ctx'
     end.
Proof.
  intros Hr. cbn [hash_files]. cbv zeta. win32_step; [split; [done|split; [by eapply w32_fault_failed|left; by eexists]]|].
  unfold mbind, St_bind, get. rewrite (same_files_content fs fs1) by done.
  destruct (fs_content path fs) as [c|]; [|split; [done|split; [done|by right]]].
  change (kMaxFileSizeForAuthentication =? 0) with false. cbv iota.
  win32_step; [split; [by transitivity fs1|split; [by eapply w32_fault_failed|left; by eexists]]|].
  destruct (Z.ltb_spec kMaxFileSizeForAuthentication (u64 (0 + Z.of_nat (length c)))).
  { split; [by transitivity fs1|split; [done|]]. right. by intros ? [= <-]. }
  destruct (hash_file_loop_hashes (S (length c)) [] c ctx fs0 Hr ltac:(lia)) as [Hs Hm].
  assert (same_files fs fs0) by by transitivity fs1.
  destruct (hash_file_loop _ _ _ fs0) as [[hr|ctx'] fs2]; cbn [fst snd] in Hs, Hm; (split; [by transitivity fs0|]).
  - destruct Hm as [n Hn]. split; [by eapply w32_fault_failed|left; by exists n].
  - by exists c.
Qed.

Lemma has_read_fresh : has_read [] (SHA256_init (replicate 64 0)).
Proof. by apply has_read_init. Qed.

(** Verification leaves the files alone, and success means that the file has
    contents with this hash. *)
Lemma VerifyHash_sound path hash fs :
  same_files fs (exec (VerifyFileHashSha256 [path] hash) fs)
  /\ (SUCCEEDED (eval (VerifyFileHashSha256 [path] hash) fs) = true ->
      exists c, fs_content path fs = Some c /\ hash_matches c hash).
Proof.
  unfold VerifyFileHashSha256. destruct (SafeHexStringToVector hash) as [h|] eqn:Eh; [|done].
  destruct (Nat.eqb_spec (length h) 32) as [El|]; cbn [negb]; [|done].
  pose proof (hash_one_file path (SHA256_init (replicate 64 0)) fs has_read_fresh) as [Hs Hr].
  unfold CryptoHash_Validate, exec, eval, mbind, St_bind, mret, St_ret.
  destruct (hash_files _ _ _ _ fs) as [[hr|ctx] fs1]; cbn [fst snd] in Hs, Hr |- *; (split; [exact Hs|]).
  - rewrite SUCCEEDED_not_FAILED, (proj1 Hr). done.
  - destruct Hr as (c & Hc & Hr). case_bool_decide as Ed; [intros _|done]. exists c. split; [done|].
    unfold hash_matches. rewrite Eh. destruct (final_read c ctx Hr) as [Hd _].
    by rewrite <- Hd, <- Ed, firstn_all2 by lia.
Qed.

(** When no call fails, contents that are not too large are compared with the
    hash. *)
Lemma VerifyHash_complete path hash h c fs :
  (forall n, w32_fault n = None) -> fs_content path fs = Some c ->
  SafeHexStringToVector hash = Some h -> length h = 32%nat ->
  Z.of_nat (length c) <= kMaxFileSizeForAuthentication ->
  eval (VerifyFileHashSha256 [path] hash) fs = if bool_decide (h = sha256 c) then S_OK else SIGS_E_INVALID_SIGNATURE.
Proof.
  intros Hnf Hc Hm Hh Hlen. unfold VerifyFileHashSha256. rewrite Hm, Hh. cbn [Nat.eqb negb].
  pose proof (hash_one_file path (SHA256_init (replicate 64 0)) fs has_read_fresh) as [_ Hr].
  unfold CryptoHash_Validate, eval, mbind, St_bind, mret, St_ret.
  destruct (hash_files _ _ _ _ fs) as [[hr|ctx] fs1]; cbn [fst snd] in Hr |- *.
  - destruct Hr as [_ [[n Hn]|Hbig]]; [by rewrite Hnf in Hn|]. specialize (Hbig c Hc).
    unfold u64 in Hbig. rewrite Z.mod_small in Hbig; [lia|]. unfold kMaxFileSizeForAuthentication in Hlen. lia.
  - destruct Hr as (c' & Hc' & Hr). rewrite Hc in Hc'. injection Hc' as <-.
    destruct (final_read c ctx Hr) as [-> _]. by rewrite firstn_all2 by lia.
Qed.

Lemma VerifyHash_matches path hash c fs :
  (forall n, w32_fault n = None) -> fs_content path fs = Some c -> hash_matches c hash ->
  Z.of_nat (length c) <= kMaxFileSizeForAuthentication ->
  eval (VerifyFileHashSha256 [path] hash) fs = S_OK.
Proof.
  intros Hnf Hc Hm Hlen. rewrite (VerifyHash_complete path hash (sha256 c) c) by (done || apply length_sha256).
  by rewrite bool_decide_eq_true_2.
Qed.

End Facts.

(** ** Hexadecimal strings *)

Lemma hex_char_digit d : 0 <= d < 16 -> IsHexDigit (hex_char d) = true /\ hex_value (Z.land (hex_char d) 0xFF) = d.
Proof.
  intros Hd. assert (d = 0 \/ d = 1 \/ d = 2 \/ d = 3 \/ d = 4 \/ d = 5 \/ d = 6 \/ d = 7 \/ d = 8 \/ d = 9
    \/ d = 10 \/ d = 11 \/ d = 12 \/ d = 13 \/ d = 14 \/ d = 15) as Hcases by lia.
  repeat (destruct Hcases as [->|Hcases]; [done|]). by subst.
Qed.

Lemma byte_halves x : 0 <= x < 256 -> 0 <= Z.shiftr x 4 < 16 /\ 0 <= Z.land x 0xf < 16
  /\ Z.shiftl (Z.shiftr x 4) 4 + Z.land x 0xf = x.
Proof.
  intros Hx. change 0xf with (2 ^ 4 - 1). rewrite land_mask_mod, Z.shiftr_div_pow2, Z.shiftl_mul_pow2 by lia.
  change (2 ^ 4) with 16. Z.div_mod_to_equations. lia.
Qed.

Lemma length_b2a_hex b : length (b2a_hex b) = (2 * length b)%nat.
Proof. induction b as [|x b IH]; [done|]. unfold b2a_hex in *. cbn in *. lia. Qed.

Lemma b2a_hex_digits b : Forall (fun x => 0 <= x < 256) b -> forallb IsHexDigit (b2a_hex b) = true.
Proof.
  induction 1 as [|x b Hx Hb IH]; [done|]. unfold b2a_hex. cbn [fmap list_fmap concat app forallb].
  destruct (byte_halves x Hx) as (Hh & Hl & _).
  rewrite (proj1 (hex_char_digit _ Hh)), (proj1 (hex_char_digit _ Hl)). exact IH.
Qed.

(** Printing bytes in hexadecimal and reading them back gives the bytes: the
    text is accepted and decoded to what was printed. *)
Theorem hex_roundtrip b :
  Forall (fun x => 0 <= x < 256) b -> b <> [] -> SafeHexStringToVector (b2a_hex b) = Some b.
Proof.
  intros Hb Hne. unfold SafeHexStringToVector.
  assert (CheckHexString (b2a_hex b) = true) as ->.
  { unfold CheckHexString. rewrite !andb_true_iff. split_and!.
    - by destruct b.
    - apply Nat.eqb_eq. rewrite length_b2a_hex, Nat.mul_comm. by apply Nat.Div0.mod_mul.
    - by apply b2a_hex_digits. }
  f_equal. clear Hne. induction Hb as [|x b Hx Hb IH]; [done|]. unfold b2a_hex. cbn [fmap list_fmap concat app a2b_hex].
  destruct (byte_halves x Hx) as (Hh & Hl & Hx').
  rewrite (proj2 (hex_char_digit _ Hh)), (proj2 (hex_char_digit _ Hl)), Hx'.
  unfold u8. rewrite Z.mod_small by lia. f_equal. exact IH.
Qed.

Lemma hex_roundtrip_witness : SafeHexStringToVector (b2a_hex [0; 171; 255]) = Some [0; 171; 255].
Proof. apply hex_roundtrip; [repeat constructor; lia|done]. Defined.
