(* ===== verification/PackageCache.v ===== *)
(** The cache of downloaded packages: omaha/goopdate/package_cache.cc.

    A package is cached under <root>\<app>\<version>\<name>.  Whatever the
    cache holds is verified against the expected hash on the way in and on the
    way out. *)

From stdpp Require Import sorting.
From S2P Require Import Prelude Hresult CStrings Paths Sha256 Files FilesFacts.

(** ** Keys *)

Record Key := mkKey { key_app_id : CString; key_version : CString; key_package_name : CString }.

Definition PackageCache_Key (app_id version package_name : CString) : Key :=
  mkKey app_id (if IsEmpty version then _T "0.0.0.0" else version) package_name.

Record PackageCache := mkPackageCache {
  cache_time_limit_days_ : Z;
  cache_size_limit_bytes_ : Z;
  cache_root_ : CString
}.

(** The constructor; the limits come from the policies. *)
Definition PackageCache_init (expiration_days size_limit_mbytes : Z) : PackageCache :=
  mkPackageCache expiration_days (u64 (1024 * 1024 * u64 size_limit_mbytes)) [].

(** [package_name.Find(_T("..")) != -1]. *)
Fixpoint contains_dotdot (s : CString) : bool :=
  match s with
  | c :: ((d :: _) as s') => ((c =? 46) && (d =? 46)) || contains_dotdot s'
  | _ => false
  end.

(** [GetDirectoryFromPath]: what is before the last separator. *)
Fixpoint last_separator (i : nat) (s : CString) (found : nat) : nat :=
  match s with
  | [] => found
  | c :: s' => last_separator (S i) s' (if c =? 92 then i else found)
  end.
Definition GetDirectoryFromPath (path : CString) : CString := take (last_separator 0 path 0) path.

Definition kBufferSize : Z := 4096.

(** A file found in the cache. *)
Record PackageInfo := mkPackageInfo { pi_file_name : CString; pi_file_time : Z; pi_file_size : Z }.

(** What [FindNextFile] returns. *)
Record FindData := mkFindData {
  fd_cFileName : CString;
  fd_is_directory : bool;
  fd_ftCreationTime : Z;
  fd_nFileSize : Z
}.

#[export] Instance FindData_eq_dec : EqDecision FindData.
Proof. solve_decision. Defined.

(** [std::sort] with [PackageSortByTimePredicate]: the newest first; packages of
    the same time in any order. *)
Definition PackageSortByTimePredicate (package1 package2 : PackageInfo) : bool :=
  pi_file_time package2 <? pi_file_time package1.

Class StdSort := {
  std_sort : list PackageInfo -> list PackageInfo;
  std_sort_permutation : forall l, std_sort l ≡ₚ l;
  std_sort_sorted : forall l, StronglySorted (fun p q => PackageSortByTimePredicate q p = false) (std_sort l)
}.

Section Cache.
Context `{Win32}.

(** ** File names *)

Definition BuildCacheFileName (pc : PackageCache) (app_id version package_name : CString) : HRESULT + CString :=
  if contains_dotdot package_name then inl E_INVALIDARG
  else inr (ConcatenatePath (ConcatenatePath (ConcatenatePath (cache_root_ pc) app_id) version) package_name).

Definition BuildCacheFileNameForKey (pc : PackageCache) (key : Key) : HRESULT + CString :=
  BuildCacheFileName pc (key_app_id key) (key_version key) (key_package_name key).

Definition VerifyHash (filename expected_hash : CString) : FsM HRESULT :=
  VerifyFileHashSha256 [filename] expected_hash.

Definition IsAbsolutePath (path : CString) : bool :=
  if Nat.ltb (length path) 3 then false
  else
    let path := match path with 34 :: path' => path' | _ => path end in
    match path with
    | _ :: 58 :: 92 :: _ => true
    | 92 :: 92 :: _ => true
    | _ => false
    end.

Definition PackageCache_Initialize (pc : PackageCache) (cache_root : CString) : FsM (HRESULT * PackageCache) :=
  if negb (IsAbsolutePath cache_root) then mret (E_INVALIDARG, pc)
  else
    hr ← CreateDir cache_root;
    if FAILED hr then mret (hr, pc)
    else mret (S_OK, mkPackageCache (cache_time_limit_days_ pc) (cache_size_limit_bytes_ pc) cache_root).

(** ** Copying into the cache *)

(** The loop of [FileCopy]: reads up to 4096 bytes of the source and writes them
    at the same position.  Every iteration but the last consumes at least one
    byte. *)
Fixpoint copy_loop (fuel : nat) (destination : CString) (pos : nat) (source : list Z) : FsM HRESULT :=
  match fuel with
  | O => mret E_UNEXPECTED
  | S fuel' =>
      win32 mret (fun _ =>
        let buffer := take (Z.to_nat kBufferSize) source in
        if Nat.eqb (length buffer) 0 then mret S_OK
        else
          hr ← File_Write destination pos buffer;
          if FAILED hr then mret hr
          else copy_loop fuel' destination (pos + length buffer) (drop (Z.to_nat kBufferSize) source))
  end.

Definition FileCopy (source_file : list Z) (destination : CString) : FsM HRESULT :=
  hr ← File_OpenWrite destination;
  if FAILED hr then mret hr
  else
    hr ← win32 mret (fun _ => mret S_OK);
    if FAILED hr then mret hr
    else copy_loop (S (length source_file)) destination 0 source_file.

Definition key_incomplete (key : Key) : bool :=
  IsEmpty (key_app_id key) || IsEmpty (key_version key) || IsEmpty (key_package_name key).

Definition IsCached (pc : PackageCache) (key : Key) (hash : CString) : FsM bool :=
  match BuildCacheFileNameForKey pc key with
  | inl _ => mret false
  | inr filename =>
      fs ← get;
      if negb (File_Exists filename fs) then mret false
      else hr ← VerifyHash filename hash; mret (SUCCEEDED hr)
  end.

Definition Put (pc : PackageCache) (key : Key) (source_file : list Z) (hash : CString) : FsM HRESULT :=
  if key_incomplete key then mret E_INVALIDARG
  else
    match BuildCacheFileNameForKey pc key with
    | inl hr => mret hr
    | inr destination_file =>
        hr ← CreateDir (GetDirectoryFromPath destination_file);
        if FAILED hr then mret hr
        else
          hr ← FileCopy source_file destination_file;
          if FAILED hr then mret hr
          else
            hr ← VerifyHash destination_file hash;
            if FAILED hr then DeleteFile destination_file;; mret hr
            else mret S_OK
    end.

Definition Get (pc : PackageCache) (key : Key) (destination_file hash : CString) : FsM HRESULT :=
  if key_incomplete key then mret E_INVALIDARG
  else
    match BuildCacheFileNameForKey pc key with
    | inl hr => mret hr
    | inr source_file =>
        fs ← get;
        if negb (File_Exists source_file fs) then mret (HRESULT_FROM_WIN32 ERROR_FILE_NOT_FOUND)
        else
          hr ← VerifyHash source_file hash;
          if FAILED hr then mret hr else File_Copy source_file destination_file
    end.

(** ** Purging *)

Definition PackageCache_Delete (pc : PackageCache) (app_id version package_name : CString) : FsM HRESULT :=
  match BuildCacheFileName pc app_id version package_name with
  | inl hr => mret hr
  | inr filename => DeleteBeforeOrAfterReboot filename
  end.

Definition Purge (pc : PackageCache) (key : Key) : FsM HRESULT :=
  PackageCache_Delete pc (key_app_id key) (key_version key) (key_package_name key).
Definition PurgeVersion (pc : PackageCache) (app_id version : CString) : FsM HRESULT :=
  PackageCache_Delete pc app_id version [].
Definition PurgeApp (pc : PackageCache) (app_id : CString) : FsM HRESULT :=
  PackageCache_Delete pc app_id [] [].

Definition PurgeAll (pc : PackageCache) : FsM HRESULT :=
  hr ← PackageCache_Delete pc [] [] [];
  if FAILED hr then mret hr else CreateDir (cache_root_ pc).

(** [FindFirstFile] and [FindNextFile] over a directory: "." and "..", then the
    entries in the order of the file system. *)
Definition find_entries (dir : CString) (fs : FS) : list FindData :=
  [mkFindData (_T ".") true 0 0; mkFindData (_T "..") true 0 0]
  ++ omap (fun d => (fun name => mkFindData name true 0 0) <$> child_name (path_key dir) d) (elements (fs_dirs fs))
  ++ omap (fun kv => (fun name => mkFindData name false (fd_created kv.2) (Z.of_nat (length (fd_content kv.2))))
                       <$> child_name (path_key dir) kv.1) (map_to_list (fs_files fs)).

Definition FindFiles (dir : CString) : FsM (HRESULT + list FindData) :=
  win32 (fun hr => mret (inl hr)) (fun _ =>
    fs ← get;
    mret (if bool_decide (path_key dir ∈ fs_dirs fs) then inr (find_entries dir fs)
          else inl (HRESULT_FROM_WIN32 ERROR_PATH_NOT_FOUND))).

Definition IsSpecialDirectoryFindData (d : FindData) : bool :=
  fd_is_directory d && (bool_decide (fd_cFileName d = _T ".") || bool_decide (fd_cFileName d = _T "..")).
Definition IsSubDirectoryFindData (d : FindData) : bool :=
  fd_is_directory d && negb (IsSpecialDirectoryFindData d).
Definition IsFileFindData (d : FindData) : bool := negb (fd_is_directory d).

(** Whether a version directory is below the given version. *)
Definition purges_version (my_version : Z) (name : CString) : bool :=
  let found_version := VersionFromString name in
  negb ((found_version =? 0) || (my_version <=? found_version)).

(** The body of the loop over the entries of the directory. *)
Definition purge_entry (app_path : CString) (my_version : Z) (d : FindData) : FsM unit :=
  if IsSpecialDirectoryFindData d then mret tt
  else if purges_version my_version (fd_cFileName d)
  then DeleteBeforeOrAfterReboot (ConcatenatePath app_path (fd_cFileName d));; mret tt
  else mret tt.

Definition PurgeAppLowerVersions (pc : PackageCache) (app_id version : CString) : FsM HRESULT :=
  let my_version := VersionFromString version in
  if my_version =? 0 then mret E_INVALIDARG
  else
    match BuildCacheFileName pc app_id [] [] with
    | inl hr => mret hr
    | inr app_id_path =>
        r ← FindFiles app_id_path;
        match r with
        | inl hr => mret hr
        | inr entries =>
            for_each (purge_entry app_id_path my_version) entries;;
            mret S_OK
        end
    end.

(** ** The limits of the cache *)

(** The loop of [FindDirectoryPackagesInfo] over the entries of a directory: it
    stops at the first failure and keeps what it has found. *)
Fixpoint find_loop (body : FindData -> list PackageInfo -> FsM (HRESULT * list PackageInfo))
    (entries : list FindData) (packages_info : list PackageInfo) : FsM (HRESULT * list PackageInfo) :=
  match entries with
  | [] => mret (S_OK, packages_info)
  | d :: entries' =>
      '(hr, packages_info) ← body d packages_info;
      if FAILED hr then mret (hr, packages_info) else find_loop body entries' packages_info
  end.

Definition FindDirectoryPackagesInfo (body : FindData -> list PackageInfo -> FsM (HRESULT * list PackageInfo))
    (dir_path : CString) (packages_info : list PackageInfo) : FsM (HRESULT * list PackageInfo) :=
  r ← FindFiles dir_path;
  match r with
  | inl hr => mret (hr, packages_info)
  | inr entries => find_loop body entries packages_info
  end.

Definition FindFilePackagesInfo (version_dir : CString) (d : FindData) (packages_info : list PackageInfo) :
    FsM (HRESULT * list PackageInfo) :=
  mret (S_OK, packages_info ++
    [mkPackageInfo (ConcatenatePath version_dir (fd_cFileName d)) (fd_ftCreationTime d) (fd_nFileSize d)]).

Definition FindVersionPackagesInfo (version_dir : CString) : list PackageInfo -> FsM (HRESULT * list PackageInfo) :=
  FindDirectoryPackagesInfo (fun d l =>
    if IsFileFindData d then FindFilePackagesInfo version_dir d l else mret (S_OK, l)) version_dir.

Definition FindAppPackagesInfo (app_dir : CString) : list PackageInfo -> FsM (HRESULT * list PackageInfo) :=
  FindDirectoryPackagesInfo (fun d l =>
    if IsSubDirectoryFindData d then FindVersionPackagesInfo (ConcatenatePath app_dir (fd_cFileName d)) l
    else mret (S_OK, l)) app_dir.

Definition FindAllPackagesInfo (cache_root : CString) : FsM (HRESULT * list PackageInfo) :=
  FindDirectoryPackagesInfo (fun d l =>
    if IsSubDirectoryFindData d then FindAppPackagesInfo (ConcatenatePath cache_root (fd_cFileName d)) l
    else mret (S_OK, l)) cache_root [].

(** [now] is the system time in units of 100 ns. *)
Definition GetCacheExpirationTime (pc : PackageCache) (now : Z) : Z :=
  u64 (now - u64 (1000 * 1000 * 10 * kSecondsPerDay * u64 (cache_time_limit_days_ pc))).

(** The loop that finds the first package to delete: the packages before it
    stay, it and the rest go. *)
Fixpoint split_packages (limit expiration_time total_cache_size : Z) (l : list PackageInfo) :
    list PackageInfo * list PackageInfo :=
  match l with
  | [] => ([], [])
  | it :: l' =>
      let total_cache_size := u64 (total_cache_size + pi_file_size it) in
      if limit <? total_cache_size then ([], l)
      else if pi_file_time it <? expiration_time then ([], l)
      else let '(kept, deleted) := split_packages limit expiration_time total_cache_size l' in (it :: kept, deleted)
  end.

Fixpoint delete_packages (l : list PackageInfo) (hr : HRESULT) : FsM HRESULT :=
  match l with
  | [] => mret hr
  | it :: l' => hr ← DeleteBeforeOrAfterReboot (pi_file_name it); delete_packages l' hr
  end.

Definition PurgeOldPackagesIfNecessary `{StdSort} (pc : PackageCache) (now : Z) : FsM HRESULT :=
  '(hr, packages_info) ← FindAllPackagesInfo (cache_root_ pc);
  if FAILED hr then mret hr
  else
    let packages_info := std_sort packages_info in
    let '(_, deleted) :=
      split_packages (cache_size_limit_bytes_ pc) (GetCacheExpirationTime pc now) 0 packages_info in
    delete_packages deleted hr.

End Cache.
