(* ===== verification/PackageCacheFacts.v ===== *)
(** The theorems about the package cache: what it hands out has the expected
    hash, what was put in can be taken out, purging removes exactly what it
    should, and the cache stays within its limits. *)

From stdpp Require Import sorting.
From S2P Require Import Prelude Hresult CStrings Paths Sha256 Files FilesFacts PackageCache.

Section Facts.
Context `{Win32}.

(** Only the file at [path] may have changed. *)
Definition only_file (path : CString) (fs fs' : FS) : Prop :=
  forall q, path_key q <> path_key path -> fs_file q fs' = fs_file q fs.

Lemma only_file_trans path a b c : only_file path a b -> only_file path b c -> only_file path a c.
Proof. intros H1 H2 q Hq. by rewrite H2, H1. Qed.

Lemma same_only_file path a b : same_files a b -> only_file path a b.
Proof. intros Hs q _. by apply same_files_file. Qed.

Lemma set_only_file path f a : only_file path a (set_file path f a).
Proof. intros q Hq. unfold fs_file, set_file. cbn. by rewrite lookup_insert_ne. Qed.

Lemma set_file_content path f a : fs_content path (set_file path f a) = Some (fd_content f).
Proof. unfold fs_content, fs_file, set_file. cbn. by rewrite lookup_insert_eq. Qed.

(** ** Taking packages out *)

Lemma File_Copy_spec from to fs :
  let fs' := exec (File_Copy from to) fs in
  (SUCCEEDED (eval (File_Copy from to) fs) = true ->
   exists c, fs_content from fs = Some c /\ fs_content to fs' = Some c)
  /\ (forall q, path_key q <> path_key to -> fs_file q fs' = fs_file q fs).
Proof.
  unfold File_Copy, exec, eval. win32_step.
  - split; [|intros; by rewrite (same_files_file fs)]. cbn. rewrite SUCCEEDED_not_FAILED, (w32_fault_failed _ _ Ef). done.
  - unfold mbind, St_bind, get, modify. rewrite (same_files_file fs) by done.
    destruct (fs_file from fs) as [f|] eqn:Ef'; cbn.
    + split.
      * intros _. exists (fd_content f). unfold fs_content, fs_file, set_file in *. cbn. by rewrite Ef', lookup_insert_eq.
      * intros q Hq. unfold fs_file, set_file. cbn. rewrite lookup_insert_ne by done. by destruct Hsame as [-> _].
    + split; [done|]. intros. by rewrite (same_files_file fs).
Qed.

(** C15. Whatever is in the cache directory, a file taken out of the cache has the
    expected hash, and nothing but the destination is written. *)
Theorem Get_integrity pc key destination hash fs :
  let fs' := exec (Get pc key destination hash) fs in
  (SUCCEEDED (eval (Get pc key destination hash) fs) = true ->
   exists c, fs_content destination fs' = Some c /\ hash_matches c hash)
  /\ (forall q, path_key q <> path_key destination -> fs_file q fs' = fs_file q fs).
Proof.
  unfold Get. destruct (key_incomplete key); [done|].
  destruct (BuildCacheFileNameForKey pc key) as [hr|source] eqn:Eb.
  { unfold BuildCacheFileNameForKey, BuildCacheFileName in Eb. destruct (contains_dotdot _); [|done].
    injection Eb as <-. done. }
  rewrite exec_bind, eval_bind. change (eval get fs) with fs. change (exec get fs) with fs.
  destruct (File_Exists source fs); cbn [negb]; [|done].
  rewrite exec_bind, eval_bind. destruct (VerifyHash_sound source hash fs) as [Hs Hok].
  change (VerifyHash source hash) with (VerifyFileHashSha256 [source] hash).
  set (fs1 := exec (VerifyFileHashSha256 [source] hash) fs) in *.
  set (hr := eval (VerifyFileHashSha256 [source] hash) fs) in *. rewrite FAILED_not_SUCCEEDED.
  destruct (SUCCEEDED hr) eqn:Ehr; cbn [negb].
  - destruct (File_Copy_spec source destination fs1) as [Hcopy Hframe]. split.
    + intros (c & Hc & Hd)%Hcopy. destruct (Hok eq_refl) as (c' & Hc' & Hm).
      rewrite (same_files_content fs) in Hc by done. rewrite Hc in Hc'. injection Hc' as <-. by exists c.
    + intros q Hq. rewrite Hframe by done. by apply same_files_file.
  - split; [by rewrite eval_ret, Ehr|]. intros q _. rewrite exec_ret. by apply same_files_file.
Qed.

(** ** Putting packages in *)

Lemma File_OpenWrite_spec path fs :
  let fs' := exec (File_OpenWrite path) fs in
  only_file path fs fs'
  /\ (SUCCEEDED (eval (File_OpenWrite path) fs) = true -> fs_content path fs' = Some (default [] (fs_content path fs))).
Proof.
  unfold File_OpenWrite, exec, eval. win32_step.
  - split; [by apply same_only_file|]. cbn. by rewrite SUCCEEDED_not_FAILED, (w32_fault_failed _ _ Ef).
  - unfold mbind, St_bind, modify. set (fs2 := match fs_file path fs1 with Some _ => fs1 | None => _ end).
    assert (only_file path fs fs2 /\ fs_content path fs2 = Some (default [] (fs_content path fs))) as [Hof Hc].
    { unfold fs2, fs_content. rewrite (same_files_file fs) by done. destruct (fs_file path fs) eqn:Efile; cbn.
      - split; [by apply same_only_file|]. by rewrite (same_files_file fs), Efile.
      - split; [|apply set_file_content]. eapply only_file_trans; [by apply same_only_file|apply set_only_file]. }
    clearbody fs2. clear Ef. win32_step.
    + split; [eapply only_file_trans; [exact Hof|by apply same_only_file]|].
      cbn. by rewrite SUCCEEDED_not_FAILED, (w32_fault_failed _ _ Ef).
    + split; [eapply only_file_trans; [exact Hof|by apply same_only_file]|].
      intros _. cbn. by rewrite (same_files_content fs2).
Qed.

Definition overwrite (pos : nat) (data old : list Z) : list Z :=
  take pos old ++ data ++ drop (pos + length data) old.

Lemma File_Write_spec path pos data old fs :
  fs_content path fs = Some old ->
  let fs' := exec (File_Write path pos data) fs in
  only_file path fs fs'
  /\ (SUCCEEDED (eval (File_Write path pos data) fs) = true -> fs_content path fs' = Some (overwrite pos data old)).
Proof.
  intros Hold. unfold File_Write, exec, eval. win32_step.
  - split; [by apply same_only_file|]. cbn. by rewrite SUCCEEDED_not_FAILED, (w32_fault_failed _ _ Ef).
  - unfold mbind, St_bind, get, modify. rewrite (same_files_file fs) by done.
    unfold fs_content in Hold. destruct (fs_file path fs) as [f|]; [|done]. injection Hold as Hold. cbn. split.
    + eapply only_file_trans; [by apply same_only_file|apply set_only_file].
    + destruct (Nat.eqb_spec (w32_written (fs_calls fs) (length data)) (length data)) as [->|]; [intros _|done].
      rewrite set_file_content. cbn [fd_content]. unfold overwrite. by rewrite Hold, firstn_all.
Qed.

Lemma overwrite_overwrite pos (d1 d2 old : list Z) :
  (pos <= length old)%nat ->
  overwrite (pos + length d1) d2 (overwrite pos d1 old) = overwrite pos (d1 ++ d2) old.
Proof.
  intros Hp. unfold overwrite. rewrite (assoc_L (++) (take pos old)), take_app_length'.
  2:{ rewrite length_app, length_take. lia. }
  rewrite length_app, <- !(assoc_L (++)). do 3 f_equal.
  rewrite (assoc_L (++)), drop_app_ge by (rewrite length_app, length_take; lia).
  rewrite length_app, length_take, drop_drop. f_equal. lia.
Qed.

(** The copying loop writes the source over what the file held from [pos] on. *)
Lemma copy_loop_spec fuel path : forall pos source old fs,
  fs_content path fs = Some old -> (pos <= length old)%nat ->
  let r := copy_loop fuel path pos source fs in
  only_file path fs r.2 /\ (SUCCEEDED r.1 = true -> fs_content path r.2 = Some (overwrite pos source old)).
Proof.
  induction fuel as [|fuel IH]; intros pos source old fs Hold Hpos; [done|].
  cbn [copy_loop]. cbv zeta. win32_step.
  { split; [by apply same_only_file|]. cbn. by rewrite SUCCEEDED_not_FAILED, (w32_fault_failed _ _ Ef). }
  set (n := Z.to_nat kBufferSize). assert (n <> 0%nat) as Hn by (by unfold n, kBufferSize). clearbody n.
  destruct (Nat.eqb_spec (length (take n source)) 0) as [E|E].
  { split; [by apply same_only_file|]. intros _. cbn [snd]. rewrite (same_files_content fs) by done.
    assert (source = []) as ->. { rewrite length_take in E. destruct source; [done|cbn [length] in E; lia]. }
    unfold overwrite. cbn [length app]. by rewrite Nat.add_0_r, take_drop. }
  rewrite <- (same_files_content fs fs1) in Hold by done.
  destruct (File_Write_spec path pos (take n source) old fs1 Hold) as [Hframe Hok].
  unfold mbind, St_bind, exec, eval in *. destruct (File_Write path pos (take n source) fs1) as [hr fs2]. cbn [fst snd] in *.
  assert (only_file path fs fs2) as Hframe' by (eapply only_file_trans; [by apply same_only_file|done]).
  rewrite FAILED_not_SUCCEEDED. destruct (SUCCEEDED hr) eqn:Ehr; cbn [negb].
  2:{ split; [done|]. cbn. by rewrite Ehr. }
  destruct (IH (pos + length (take n source))%nat (drop n source) _ fs2 (Hok eq_refl)) as [Hframe2 Hok2].
  { unfold overwrite. rewrite !length_app, !length_take. lia. }
  rewrite overwrite_overwrite, take_drop in Hok2 by done.
  split; [by eapply only_file_trans|exact Hok2].
Qed.

Lemma FileCopy_spec source path fs :
  let r := FileCopy source path fs in
  only_file path fs r.2
  /\ (SUCCEEDED r.1 = true ->
      fs_content path r.2 = Some (source ++ drop (length source) (default [] (fs_content path fs)))).
Proof.
  unfold FileCopy. destruct (File_OpenWrite_spec path fs) as [Hframe Hok].
  unfold mbind, St_bind, exec, eval in *. destruct (File_OpenWrite path fs) as [hr fs1]. cbn [fst snd] in *.
  rewrite FAILED_not_SUCCEEDED. destruct (SUCCEEDED hr) eqn:Ehr; cbn [negb].
  2:{ split; [done|]. cbn. by rewrite Ehr. }
  win32_step; cbn [mret St_ret].
  { rewrite (w32_fault_failed _ _ Ef). split; [by eapply only_file_trans, same_only_file|].
    cbn. by rewrite SUCCEEDED_not_FAILED, (w32_fault_failed _ _ Ef). }
  change (FAILED S_OK) with false. cbv iota.
  specialize (Hok eq_refl). rewrite <- (same_files_content fs1 fs0) in Hok by done.
  destruct (copy_loop_spec (S (length source)) path 0 source _ fs0 Hok ltac:(lia)) as [Hframe2 Hok2].
  split; [|exact Hok2]. eapply only_file_trans; [done|]. eapply only_file_trans; [by apply same_only_file|done].
Qed.

(** No call fails and every write is complete. *)
Definition reliable : Prop := (forall n, w32_fault n = None) /\ (forall n len, w32_written n len = len).

Lemma File_Write_reliable path pos data fs :
  reliable -> is_Some (fs_content path fs) -> (File_Write path pos data fs).1 = S_OK.
Proof.
  intros Hrel [old Hold]. unfold File_Write.
  win32_step; [by rewrite (proj1 Hrel) in Ef|].
  unfold mbind, St_bind, get. rewrite (same_files_file fs) by done.
  unfold fs_content in Hold. destruct (fs_file path fs); [|done]. cbn. by rewrite (proj2 Hrel), Nat.eqb_refl.
Qed.

Lemma copy_loop_reliable fuel path : reliable -> forall pos source old fs,
  fs_content path fs = Some old -> (pos <= length old)%nat -> (length source < fuel)%nat ->
  (copy_loop fuel path pos source fs).1 = S_OK.
Proof.
  intros Hrel. induction fuel as [|fuel IH]; intros pos source old fs Hold Hpos Hf; [lia|].
  cbn [copy_loop]. cbv zeta. win32_step; [by rewrite (proj1 Hrel) in Ef|].
  set (n := Z.to_nat kBufferSize). assert (n <> 0%nat) as Hn by (by unfold n, kBufferSize). clearbody n.
  destruct (Nat.eqb_spec (length (take n source)) 0) as [E|E]; [done|].
  rewrite <- (same_files_content fs fs1) in Hold by done.
  destruct (File_Write_spec path pos (take n source) old fs1 Hold) as [_ Hok].
  pose proof (File_Write_reliable path pos (take n source) fs1 Hrel ltac:(by eexists)) as Hw.
  unfold mbind, St_bind, exec, eval in *. destruct (File_Write path pos (take n source) fs1) as [hr fs2].
  cbn [fst snd] in *. subst hr. change (FAILED S_OK) with false. cbv iota.
  eapply IH; [by apply Hok| |].
  - unfold overwrite. rewrite !length_app, !length_take. lia.
  - rewrite length_drop. rewrite length_take in E. lia.
Qed.

Lemma FileCopy_reliable source path fs : reliable -> (FileCopy source path fs).1 = S_OK.
Proof.
  intros Hrel. unfold FileCopy. destruct (File_OpenWrite_spec path fs) as [_ Hok].
  assert ((File_OpenWrite path fs).1 = S_OK) as Hopen.
  { unfold File_OpenWrite. win32_step; [by rewrite (proj1 Hrel) in Ef|].
    unfold mbind, St_bind, modify. clear Ef. win32_step; [by rewrite (proj1 Hrel) in Ef|done]. }
  unfold mbind, St_bind, exec, eval in *. destruct (File_OpenWrite path fs) as [hr fs1]. cbn [fst snd] in *. subst hr.
  change (FAILED S_OK) with false. cbv beta iota. win32_step; [by rewrite (proj1 Hrel) in Ef|]. cbn [mret St_ret].
  change (FAILED S_OK) with false. cbv iota.
  specialize (Hok eq_refl). rewrite <- (same_files_content fs1 fs0) in Hok by done.
  eapply copy_loop_reliable; [done|exact Hok|lia|lia].
Qed.

Lemma create_dirs_spec dirs : forall fs,
  fs_files (create_dirs dirs fs).2 = fs_files fs /\ (reliable -> (create_dirs dirs fs).1 = S_OK).
Proof.
  induction dirs as [|dir dirs IH]; intros fs; [done|]. cbn [create_dirs]. unfold mbind, St_bind, get, modify.
  destruct (File_Exists dir fs); [apply IH|]. win32_step.
  - split; [exact (proj1 Hsame)|]. intros [Hnf _]. by rewrite Hnf in Ef.
  - destruct (IH (mkFS (fs_files fs1) ({[path_key dir]} ∪ fs_dirs fs1) (fs_calls fs1)))
      as [-> Hok]. split; [exact (proj1 Hsame)|exact Hok].
Qed.

Lemma CreateDir_files path fs : fs_files (CreateDir path fs).2 = fs_files fs.
Proof. apply create_dirs_spec. Qed.

Lemma CreateDir_reliable path fs : reliable -> (CreateDir path fs).1 = S_OK.
Proof. apply create_dirs_spec. Qed.

Lemma DeleteFile_only path fs :
  only_file path fs (DeleteFile path fs).2
  /\ (reliable -> fs_file path (DeleteFile path fs).2 = None).
Proof.
  unfold DeleteFile. win32_step; cbn.
  - split; [by apply same_only_file|]. intros [Hnf _]. by rewrite Hnf in Ef.
  - destruct Hsame as [Hf _]. unfold only_file, fs_file. cbn. rewrite Hf. split.
    + intros q Hq. by rewrite lookup_delete_ne.
    + intros _. by rewrite lookup_delete_eq.
Qed.

(** The outcome of verifying copied contents. *)
Definition verified (path hash : CString) (c : list Z) (r : HRESULT * FS) : Prop :=
  (SUCCEEDED r.1 = true -> fs_content path r.2 = Some c /\ hash_matches c hash)
  /\ (reliable -> Z.of_nat (length c) <= kMaxFileSizeForAuthentication ->
      forall h, SafeHexStringToVector hash = Some h -> length h = 32%nat ->
      r.1 = (if bool_decide (h = sha256 c) then S_OK else SIGS_E_INVALID_SIGNATURE)
      /\ (h <> sha256 c -> fs_file path r.2 = None)).

Definition put_outcome (path hash : CString) (c : list Z) (fs : FS) (r : HRESULT * FS) : Prop :=
  only_file path fs r.2 /\ verified path hash c r.

(** A failure before the verification. *)
Lemma put_outcome_failed path hash c fs hr fs' :
  only_file path fs fs' -> SUCCEEDED hr = false -> ~ reliable -> put_outcome path hash c fs (hr, fs').
Proof. intros Hframe Hhr Hrel. split; [done|]. split; [cbn; by rewrite Hhr|done]. Qed.

Lemma verify_or_delete path hash c fs :
  fs_content path fs = Some c ->
  put_outcome path hash c fs
    ((hr ← VerifyHash path hash; if FAILED hr then DeleteFile path;; mret hr else mret S_OK) fs).
Proof.
  intros Hc. destruct (VerifyHash_sound path hash fs) as [Hs Hok].
  pose proof (fun h Hnf => VerifyHash_complete path hash h c fs Hnf Hc) as Hcomp.
  unfold mbind, St_bind, exec, eval, VerifyHash in *.
  destruct (VerifyFileHashSha256 [path] hash fs) as [hr fs1]. cbn [fst snd] in Hs, Hok, Hcomp.
  rewrite FAILED_not_SUCCEEDED. destruct (SUCCEEDED hr) eqn:E; cbn [negb].
  - split; [by apply same_only_file|]. destruct (Hok eq_refl) as (c' & Hc' & Hm).
    rewrite Hc in Hc'. injection Hc' as <-. split; [intros _; cbn; by rewrite (same_files_content fs)|].
    intros _ _ h Hh _. unfold hash_matches in Hm. rewrite Hh in Hm. injection Hm as ->.
    by rewrite bool_decide_eq_true_2.
  - destruct (DeleteFile_only path fs1) as [Hframe Hdel]. destruct (DeleteFile path fs1) as [[] fs2]. cbn [fst snd mret St_ret] in *.
    split; [eapply only_file_trans; [by apply same_only_file|done]|]. split; [cbn; by rewrite E|].
    intros Hrel Hlen h Hh Hl. specialize (Hcomp h (proj1 Hrel) Hh Hl Hlen). cbn [fst snd]. rewrite Hcomp in *.
    split; [done|]. intros _. by apply Hdel.
Qed.

Lemma Put_cases pc key source hash fs path :
  key_incomplete key = false -> BuildCacheFileNameForKey pc key = inr path ->
  put_outcome path hash (source ++ drop (length source) (default [] (fs_content path fs))) fs
    (Put pc key source hash fs).
Proof.
  intros Hkey Hpath. unfold Put. rewrite Hkey, Hpath. unfold mbind at 1, St_bind at 1.
  pose proof (CreateDir_files (GetDirectoryFromPath path) fs) as Hdir.
  pose proof (CreateDir_reliable (GetDirectoryFromPath path) fs) as Hdir_rel.
  destruct (CreateDir _ fs) as [hr0 fs0]. cbn [fst snd] in Hdir, Hdir_rel.
  assert (fs_content path fs0 = fs_content path fs) as Hc0 by (unfold fs_content, fs_file; by rewrite Hdir).
  assert (only_file path fs fs0) as Hframe0 by (intros q _; unfold fs_file; by rewrite Hdir).
  rewrite (FAILED_not_SUCCEEDED hr0). destruct (SUCCEEDED hr0) eqn:E0; cbn [negb].
  2:{ apply put_outcome_failed; [done|done|]. intros Hrel. by rewrite Hdir_rel in E0. }
  destruct (FileCopy_spec source path fs0) as [Hframe1 Hok1]. pose proof (FileCopy_reliable source path fs0) as Hrel1.
  unfold mbind at 1, St_bind at 1.
  destruct (FileCopy source path fs0) as [hr1 fs1]. cbn [fst snd] in Hframe1, Hok1, Hrel1. rewrite Hc0 in Hok1.
  assert (only_file path fs fs1) as Hframe1' by by eapply only_file_trans.
  rewrite (FAILED_not_SUCCEEDED hr1). destruct (SUCCEEDED hr1) eqn:E1; cbn [negb].
  2:{ apply put_outcome_failed; [done|done|]. intros Hrel. by rewrite Hrel1 in E1. }
  destruct (verify_or_delete path hash _ fs1 (Hok1 eq_refl)) as [Hframe2 Hver].
  split; [by eapply only_file_trans|exact Hver].
Qed.

Lemma Put_sound pc key source hash fs path :
  BuildCacheFileNameForKey pc key = inr path ->
  let fs' := exec (Put pc key source hash) fs in
  (SUCCEEDED (eval (Put pc key source hash) fs) = true ->
   exists c, fs_content path fs' = Some c /\ hash_matches c hash)
  /\ only_file path fs fs'.
Proof.
  intros Hpath. cbv zeta. destruct (key_incomplete key) eqn:Hkey.
  { unfold Put. rewrite Hkey. done. }
  destruct (Put_cases pc key source hash fs path Hkey Hpath) as [Hframe [Hok _]].
  split; [|exact Hframe]. intros [Hc Hm]%Hok. eauto.
Qed.

(** C14. What [Put] reports as cached has the expected hash, whatever the file
    held before and whichever calls fail; and [Put] changes no other file. *)
Theorem Put_integrity pc key source hash fs path :
  BuildCacheFileNameForKey pc key = inr path ->
  let fs' := exec (Put pc key source hash) fs in
  (SUCCEEDED (eval (Put pc key source hash) fs) = true ->
   exists c, fs_content path fs' = Some c /\ hash_matches c hash)
  /\ only_file path fs fs'.
Proof. apply Put_sound. Qed.

Lemma File_Exists_content path c fs : fs_content path fs = Some c -> File_Exists path fs = true.
Proof.
  unfold fs_content, File_Exists. intros Hc. destruct (fs_file path fs); [|done].
  by rewrite bool_decide_eq_true_2.
Qed.

Lemma File_Copy_reliable from to c fs :
  reliable -> fs_content from fs = Some c -> eval (File_Copy from to) fs = S_OK.
Proof.
  intros [Hnf _] Hc. unfold File_Copy, eval. win32_step; [by rewrite Hnf in Ef|].
  unfold mbind, St_bind, get. rewrite (same_files_file fs) by done.
  unfold fs_content in Hc. by destruct (fs_file from fs).
Qed.

(** A cached package is found and delivered. *)
Lemma cached_delivered pc key destination hash c fs path :
  reliable -> key_incomplete key = false -> BuildCacheFileNameForKey pc key = inr path ->
  fs_content path fs = Some c -> hash_matches c hash -> Z.of_nat (length c) <= kMaxFileSizeForAuthentication ->
  eval (IsCached pc key hash) fs = true
  /\ eval (Get pc key destination hash) fs = S_OK
  /\ fs_content destination (exec (Get pc key destination hash) fs) = Some c.
Proof.
  intros Hrel Hkey Hpath Hc Hm Hlen. unfold IsCached, Get. rewrite Hkey, Hpath. autorewrite with st.
  change (eval get fs) with fs. change (exec get fs) with fs.
  rewrite (File_Exists_content path c fs) by done. cbn [negb]. autorewrite with st.
  pose proof (VerifyHash_matches path hash c fs (proj1 Hrel) Hc Hm Hlen) as Hv.
  change (VerifyHash path hash) with (VerifyFileHashSha256 [path] hash). rewrite Hv.
  destruct (VerifyHash_sound path hash fs) as [Hs _]. set (fs1 := exec (VerifyFileHashSha256 [path] hash) fs) in *.
  change (FAILED S_OK) with false. cbv iota. rewrite <- (same_files_content fs fs1) in Hc by done.
  pose proof (File_Copy_reliable path destination c fs1 Hrel Hc) as Hcopy. split_and!; [done|done|].
  destruct (File_Copy_spec path destination fs1) as [Hok _].
  destruct Hok as (c' & Hc' & Hd); [by rewrite Hcopy|]. rewrite Hc in Hc'. by injection Hc' as <-.
Qed.

(** C16. A package that is put into the cache can be taken out again: when no call
    fails and the file that may be at its place is not longer, [Put] succeeds,
    the package is then cached, and [Get] delivers the same bytes. *)
Theorem Put_Get_roundtrip pc key source hash destination fs path :
  reliable -> key_incomplete key = false -> BuildCacheFileNameForKey pc key = inr path ->
  hash_matches source hash -> Z.of_nat (length source) <= kMaxFileSizeForAuthentication ->
  (length (default [] (fs_content path fs)) <= length source)%nat ->
  let fs' := exec (Put pc key source hash) fs in
  eval (Put pc key source hash) fs = S_OK
  /\ eval (IsCached pc key hash) fs' = true
  /\ eval (Get pc key destination hash) fs' = S_OK
  /\ fs_content destination (exec (Get pc key destination hash) fs') = Some source.
Proof.
  intros Hrel Hkey Hpath Hm Hlen Hold. cbv zeta.
  destruct (Put_cases pc key source hash fs path Hkey Hpath) as [_ [Hok Hdone]].
  rewrite (drop_ge _ (length source)), app_nil_r in Hok, Hdone by done.
  destruct (Hdone Hrel Hlen _ Hm (length_sha256 _)) as [Hput _]. rewrite bool_decide_eq_true_2 in Hput by done.
  rewrite Hput in Hok. destruct (Hok eq_refl) as [Hc _]. split; [exact Hput|]. by eapply cached_delivered.
Qed.

(** The file is not truncated before the copying.  When the place of a
    package holds a longer file, the bytes beyond the new contents stay, so
    that putting the right package fails with an invalid hash (unless the mix
    happens to have the same hash) and removes the file: the package is not
    cached. *)
Theorem Put_over_longer_file_fails pc key source hash fs path old :
  reliable -> key_incomplete key = false -> BuildCacheFileNameForKey pc key = inr path ->
  hash_matches source hash -> fs_content path fs = Some old ->
  (length source < length old)%nat -> Z.of_nat (length old) <= kMaxFileSizeForAuthentication ->
  sha256 (source ++ drop (length source) old) <> sha256 source ->
  eval (Put pc key source hash) fs = SIGS_E_INVALID_SIGNATURE
  /\ fs_content path (exec (Put pc key source hash) fs) = None.
Proof.
  intros Hrel Hkey Hpath Hm Hold Hlt Hlen Hne.
  destruct (Put_cases pc key source hash fs path Hkey Hpath) as [_ [_ Hdone]]. rewrite Hold in Hdone.
  change (default [] (Some old)) with old in Hdone.
  destruct (Hdone Hrel) with (h := sha256 source) as [Hput Hnone]; [|done|apply length_sha256|].
  { rewrite length_app, length_drop. lia. }
  rewrite bool_decide_eq_false_2 in Hput by congruence. split; [exact Hput|].
  unfold fs_content, exec. by rewrite Hnone by congruence.
Qed.

End Facts.

(** ** A concrete file system *)

(** No failures, nothing in use, and names appended with a separator. *)
Definition append_name (p q : CString) : CString :=
  match q with [] => p | _ => p ++ 92 :: q end.

#[refine]
Definition good_disk : Win32 := {|
  w32_fault _ := None;
  w32_written _ len := len;
  w32_survives _ _ := false;
  w32_filetime n := 1000 + Z.of_nat n;
  PathAppend := append_name
|}.
Proof. all: try done. Defined.

Definition empty_disk : FS := mkFS ∅ ∅ 0.
Definition sample_cache : PackageCache := mkPackageCache 180 (500 * 2 ^ 20) (_T "C:\Cache").
Definition sample_key : Key := PackageCache_Key (_T "{app}") (_T "1.0.0.0") (_T "setup.exe").
Definition sample_path : CString := _T "C:\Cache\{app}\1.0.0.0\setup.exe".

(** The hash of "abc". *)
Definition abc_hash : CString := b2a_hex (sha256 [97; 98; 99]).

Section Witnesses.
#[local] Existing Instance good_disk.

Lemma good_disk_reliable : reliable.
Proof. done. Qed.

Lemma Put_integrity_witness :
  exists c, fs_content sample_path (exec (Put sample_cache sample_key [97; 98; 99] abc_hash) empty_disk) = Some c
    /\ hash_matches c abc_hash.
Proof.
  assert (SUCCEEDED (eval (Put sample_cache sample_key [97; 98; 99] abc_hash) empty_disk) = true) as Hok by (by vm_compute).
  exact (proj1 (Put_integrity sample_cache sample_key [97; 98; 99] abc_hash empty_disk sample_path eq_refl) Hok).
Defined.

Lemma abc_hash_matches : hash_matches [97; 98; 99] abc_hash.
Proof. vm_compute. reflexivity. Qed.

Lemma Put_Get_roundtrip_witness :
  eval (Put sample_cache sample_key [97; 98; 99] abc_hash) empty_disk = S_OK.
Proof.
  assert (length (default [] (fs_content sample_path empty_disk)) <= length [97; 98; 99])%nat as Hold by (vm_compute; lia).
  destruct (Put_Get_roundtrip sample_cache sample_key [97; 98; 99] abc_hash (_T "C:\out") empty_disk sample_path
    good_disk_reliable eq_refl eq_refl abc_hash_matches ltac:(done) Hold) as [Hput _].
  exact Hput.
Defined.

(** A disk on which the package of four bytes is cached under the key. *)
Definition disk_abcd : FS :=
  exec (Put sample_cache sample_key [97; 98; 99; 100] (b2a_hex (sha256 [97; 98; 99; 100]))) empty_disk.

Lemma Put_over_longer_file_fails_witness :
  eval (Put sample_cache sample_key [97; 98; 99] abc_hash) disk_abcd = SIGS_E_INVALID_SIGNATURE.
Proof.
  apply (Put_over_longer_file_fails sample_cache sample_key [97; 98; 99] abc_hash disk_abcd sample_path
    [97; 98; 99; 100] good_disk_reliable eq_refl eq_refl); vm_compute; first [done|lia].
Defined.
End Witnesses.
