(* ===== verification/PurgeFacts.v ===== *)
(** The theorems about purging the package cache: the versions below the
    current one, and the packages beyond the limits of size and age. *)

From stdpp Require Import sorting.
From S2P Require Import Prelude Hresult CStrings Paths Sha256 Files FilesFacts PackageCache PackageCacheFacts.

Section Purge.
Context `{Win32}.

(** ** One deletion *)

(** Nothing in use, so that what is deleted is gone at once. *)
Definition nothing_in_use : Prop := forall n p, w32_survives n p = false.

(** A name is reached from itself: no directory above it is below it. *)
Lemma reached_self p : reached p p = true.
Proof.
  unfold reached, parents. apply forallb_forall. intros d Hd. apply in_map_iff in Hd as (i & <- & Hi).
  apply filter_In in Hi as [Hi _]. apply in_seq in Hi. apply orb_true_iff. left. apply negb_true_iff.
  destruct (is_at_or_below p (take i p)) eqn:E; [|done]. apply is_at_or_below_spec in E as (r & Hr & _).
  apply (f_equal length) in Hr. rewrite length_take, length_app in Hr. lia.
Qed.

(** The files after [path] was deleted: those that are not at or below it are
    the same, and with nothing in use those that are reached are gone. *)
Lemma Delete_spec path fs :
  let fs' := exec (DeleteBeforeOrAfterReboot path) fs in
  (forall q, is_at_or_below (path_key path) (path_key q) = false -> fs_file q fs' = fs_file q fs)
  /\ (forall q, fs_file q fs' = fs_file q fs \/ fs_file q fs' = None)
  /\ (nothing_in_use -> File_Exists path fs = true ->
      forall q, is_at_or_below (path_key path) (path_key q) = true -> reached (path_key path) (path_key q) = true ->
      fs_file q fs' = None)
  /\ (forall q, File_Exists q fs = true -> is_at_or_below (path_key path) (path_key q) = false ->
      File_Exists q fs' = true).
Proof.
  cbv zeta. unfold DeleteBeforeOrAfterReboot, exec, mbind, St_bind, get.
  destruct (File_Exists path fs) eqn:Ex; cbn [negb]; [|cbn; split_and!; auto; done].
  unfold next_call, modify. cbn [snd fs_files fs_dirs fs_calls mret St_ret].
  unfold fs_file, File_Exists. cbn [fs_files fs_dirs]. set (n := fs_calls fs). clearbody n. split_and!.
  - intros q Hq. rewrite map_lookup_filter. destruct (fs_files fs !! path_key q); [cbn|done].
    rewrite option_guard_True; [done|]. cbn. unfold file_stays. by rewrite Hq.
  - intros q. rewrite map_lookup_filter. destruct (fs_files fs !! path_key q); cbn; [|by left].
    case_guard; [by left|by right].
  - intros Huse _ q Hq Hr. rewrite map_lookup_filter. destruct (fs_files fs !! path_key q); cbn; [|done].
    rewrite option_guard_False; [done|]. cbn. unfold file_stays. by rewrite Hq, Huse, Hr.
  - intros q Hex Hq. apply orb_true_iff in Hex as [Hf|Hd]; apply orb_true_iff; [left|right].
    + apply bool_decide_eq_true in Hf as [f Hf]. apply bool_decide_eq_true. exists f.
      unfold fs_file. cbn. apply map_lookup_filter_Some. split; [exact Hf|]. cbn. unfold file_stays. by rewrite Hq.
    + apply bool_decide_eq_true in Hd. apply bool_decide_eq_true. apply elem_of_filter. split; [|done].
      unfold dir_stays. by rewrite Hq.
Qed.

(** ** Versions below the current one *)

(** [q] is in no directory of a version that is purged. *)
Definition spared (app_path : CString) (my_version : Z) (q : CString) : Prop :=
  forall name, purges_version my_version name = true ->
  is_at_or_below (path_key (ConcatenatePath app_path name)) (path_key q) = false.

(** Every directory of a version that is purged is deleted down to [q]. *)
Definition unobstructed (app_path : CString) (my_version : Z) (q : CString) : Prop :=
  forall name, purges_version my_version name = true ->
  reached (path_key (ConcatenatePath app_path name)) (path_key q) = true.

Lemma purge_entry_cases app_path my_version d fs :
  exec (purge_entry app_path my_version d) fs = fs
  \/ (purges_version my_version (fd_cFileName d) = true
      /\ exec (purge_entry app_path my_version d) fs =
         exec (DeleteBeforeOrAfterReboot (ConcatenatePath app_path (fd_cFileName d))) fs).
Proof.
  unfold purge_entry. destruct (IsSpecialDirectoryFindData d); [by left|].
  destruct (purges_version _ _); [right|by left]. rewrite exec_bind, exec_ret. done.
Qed.

Lemma purge_entries_spared app_path my_version q l fs :
  spared app_path my_version q ->
  fs_file q (exec (for_each (purge_entry app_path my_version) l) fs) = fs_file q fs.
Proof.
  intros Hq. apply (for_each_inv (fun s => fs_file q s = fs_file q fs)); [|done].
  intros d s _ <-. destruct (purge_entry_cases app_path my_version d s) as [->|[Hp ->]]; [done|].
  apply Delete_spec. by apply Hq.
Qed.

(** A directory of a purged version: it exists or what was in it is gone. *)
Lemma purge_entries_gone app_path my_version q d l : nothing_in_use -> forall fs,
  d ∈ l -> IsSpecialDirectoryFindData d = false -> purges_version my_version (fd_cFileName d) = true ->
  unobstructed app_path my_version q ->
  is_at_or_below (path_key (ConcatenatePath app_path (fd_cFileName d))) (path_key q) = true ->
  File_Exists (ConcatenatePath app_path (fd_cFileName d)) fs = true \/ fs_file q fs = None ->
  fs_file q (exec (for_each (purge_entry app_path my_version) l) fs) = None.
Proof.
  intros Huse. set (dir := ConcatenatePath app_path (fd_cFileName d)).
  assert (forall l fs, fs_file q fs = None -> fs_file q (exec (for_each (purge_entry app_path my_version) l) fs) = None)
    as Hgone.
  { intros l' fs Hq. apply (for_each_inv (fun s => fs_file q s = None)); [|done]. intros e s _ Hs.
    destruct (purge_entry_cases app_path my_version e s) as [->|[_ ->]]; [done|].
    destruct (Delete_spec (ConcatenatePath app_path (fd_cFileName e)) s) as (_ & Hmono & _).
    destruct (Hmono q) as [->| ->]; done. }
  induction l as [|e l IH]; intros fs Hin Hspec Hpur Hclear Hbelow Hex; [by apply elem_of_nil in Hin|].
  destruct Hex as [Hex|Hq]; [|by apply Hgone]. cbn [for_each]. rewrite exec_bind.
  apply elem_of_cons in Hin as [<-|Hin].
  - apply Hgone. unfold purge_entry. rewrite Hspec, Hpur, exec_bind, exec_ret. apply Delete_spec; try done. by apply Hclear.
  - apply IH; try done. destruct (purge_entry_cases app_path my_version e fs) as [->|[Hpe ->]]; [by left|].
    destruct (Delete_spec (ConcatenatePath app_path (fd_cFileName e)) fs) as (_ & _ & Hdel & Hkeep).
    destruct (is_at_or_below (path_key (ConcatenatePath app_path (fd_cFileName e))) (path_key dir)) eqn:Eb.
    + destruct (File_Exists (ConcatenatePath app_path (fd_cFileName e)) fs) eqn:Ee.
      * right. apply Hdel; [done|done| |by apply Hclear]. by eapply is_at_or_below_trans.
      * left. unfold DeleteBeforeOrAfterReboot, exec, mbind, St_bind, get. by rewrite Ee.
    + left. by apply Hkeep.
Qed.

Lemma FindFiles_spec dir fs :
  same_files fs (exec (FindFiles dir) fs)
  /\ match eval (FindFiles dir) fs with
     | inl hr => FAILED hr = true
     | inr l => l = find_entries dir fs
     end.
Proof.
  unfold FindFiles, exec, eval. win32_step; [split; [done|by eapply w32_fault_failed]|].
  unfold mbind, St_bind, get, mret, St_ret. cbn [fst snd]. split; [done|].
  destruct Hsame as [Hf Hd]. rewrite Hd. case_bool_decide; [|done]. unfold find_entries. by rewrite Hf, Hd.
Qed.

(** Purging the versions of an application below a given one spares every
    file outside the directories of lower versions (those of this and higher
    versions, of names that are no version, and of other applications), and,
    when nothing is in use, leaves no file in the directories of lower versions
    that it found, unless a directory on the way has a name that is not safe to
    delete. *)
Theorem PurgeAppLowerVersions_spec pc app_id version fs app_path :
  BuildCacheFileName pc app_id [] [] = inr app_path ->
  let my_version := VersionFromString version in
  let fs' := exec (PurgeAppLowerVersions pc app_id version) fs in
  (forall q, spared app_path my_version q -> fs_file q fs' = fs_file q fs)
  /\ (eval (PurgeAppLowerVersions pc app_id version) fs = S_OK -> nothing_in_use ->
      forall d q, d ∈ find_entries app_path fs -> IsSpecialDirectoryFindData d = false ->
      purges_version my_version (fd_cFileName d) = true ->
      File_Exists (ConcatenatePath app_path (fd_cFileName d)) fs = true ->
      unobstructed app_path my_version q ->
      is_at_or_below (path_key (ConcatenatePath app_path (fd_cFileName d))) (path_key q) = true ->
      fs_file q fs' = None).
Proof.
  intros Hpath my_version. unfold PurgeAppLowerVersions. cbv zeta. fold my_version.
  destruct (my_version =? 0); [done|]. rewrite Hpath.
  rewrite exec_bind, eval_bind. destruct (FindFiles_spec app_path fs) as [Hs Hr].
  destruct (eval (FindFiles app_path) fs) as [hr|entries].
  - split; [intros q _; rewrite exec_ret; by apply same_files_file|].
    rewrite eval_ret. intros ->. done.
  - rewrite exec_bind, eval_bind, exec_ret, Hr. set (fs1 := exec (FindFiles app_path) fs) in *. split.
    + intros q Hq. rewrite purge_entries_spared by done. by apply same_files_file.
    + intros _ Huse d q Hd Hspec Hpur Hex Hclear Hbelow. eapply purge_entries_gone; try done.
      left. by rewrite (same_files_Exists fs).
Qed.

(** ** The limits of the cache *)

Definition total_size (l : list PackageInfo) : Z := fold_right (fun p n => pi_file_size p + n) 0 l.

Lemma total_size_app l1 l2 : total_size (l1 ++ l2) = total_size l1 + total_size l2.
Proof. unfold total_size. induction l1 as [|p l1 IH]; cbn [app fold_right]; lia. Qed.

Lemma total_size_nonneg l : Forall (fun p => 0 <= pi_file_size p) l -> 0 <= total_size l.
Proof. unfold total_size. induction 1; cbn [fold_right]; lia. Qed.

Lemma total_size_perm l1 l2 : l1 ≡ₚ l2 -> total_size l1 = total_size l2.
Proof. unfold total_size. induction 1; cbn [fold_right]; lia. Qed.

(** The packages that stay and those that go. *)
Lemma split_packages_spec limit expiration l : forall total,
  Forall (fun p => 0 <= pi_file_size p) l -> 0 <= total -> total + total_size l < 2 ^ 64 -> total <= limit ->
  let '(kept, deleted) := split_packages limit expiration total l in
  l = kept ++ deleted /\ total + total_size kept <= limit
  /\ Forall (fun p => expiration <= pi_file_time p) kept
  /\ match deleted with
     | [] => True
     | p :: _ => limit < total + total_size kept + pi_file_size p \/ pi_file_time p < expiration
     end.
Proof.
  induction l as [|p l IH]; intros total Hsz Ht Hsum Hlim; [cbn; split_and!; [done|lia|done|done]|].
  apply Forall_cons in Hsz as [Hp Hsz]. cbn [total_size fold_right] in Hsum. fold (total_size l) in Hsum.
  pose proof (total_size_nonneg l Hsz). cbn [split_packages]. cbv zeta.
  unfold u64. rewrite Z.mod_small by lia.
  destruct (Z.ltb_spec limit (total + pi_file_size p)); [cbn; split_and!; [done|lia|done|left; lia]|].
  destruct (Z.ltb_spec (pi_file_time p) expiration); [cbn; split_and!; [done|lia|done|by right]|].
  specialize (IH (total + pi_file_size p) Hsz ltac:(lia) ltac:(lia) ltac:(lia)).
  destruct (split_packages _ _ _ l) as [kept deleted]. destruct IH as (-> & Hk & Hexp & Hd).
  cbn [total_size fold_right]. fold (total_size kept).
  split_and!; [done|lia|by constructor|]. destruct deleted; [done|]. destruct Hd; [left; lia|by right].
Qed.

(** Searching the cache leaves the files alone, and sizes are not negative. *)
Definition finds (fs : FS) (r : (HRESULT * list PackageInfo) * FS) : Prop :=
  same_files fs r.2 /\ Forall (fun p => 0 <= pi_file_size p) r.1.2.

Definition finder (body : list PackageInfo -> FsM (HRESULT * list PackageInfo)) : Prop :=
  forall l fs, Forall (fun p => 0 <= pi_file_size p) l -> finds fs (body l fs).

Lemma finder_skip hr : finder (fun l => mret (hr, l)).
Proof. by intros l fs Hl. Qed.

Lemma find_loop_finds body entries :
  Forall (fun d => finder (body d)) entries -> finder (find_loop body entries).
Proof.
  induction 1 as [|d entries Hd _ IH]; intros l fs Hl; [done|].
  cbn [find_loop]. unfold mbind, St_bind. destruct (Hd l fs Hl) as [Hs Hl'].
  destruct (body d l fs) as [[hr l'] fs']. cbn [fst snd] in Hs, Hl'.
  destruct (FAILED hr); [done|]. destruct (IH l' fs' Hl') as [Hs2 Hl2]. split; [by transitivity fs'|done].
Qed.

Lemma find_entries_size dir fs : Forall (fun d => 0 <= fd_nFileSize d) (find_entries dir fs).
Proof.
  unfold find_entries. repeat apply Forall_cons_2; try done. apply Forall_app. split; apply Forall_forall; intros d Hd;
    apply list_elem_of_omap in Hd as (x & _ & Hx); apply fmap_Some in Hx as (name & _ & ->); cbn; lia.
Qed.

Lemma FindDirectory_finds body dir :
  (forall d, 0 <= fd_nFileSize d -> finder (body d)) -> finder (FindDirectoryPackagesInfo body dir).
Proof.
  intros Hbody l fs Hl. unfold FindDirectoryPackagesInfo, mbind, St_bind.
  destruct (FindFiles_spec dir fs) as [Hs Hr]. unfold exec, eval in Hs, Hr.
  destruct (FindFiles dir fs) as [[hr|entries] fs1]; cbn [fst snd] in Hs, Hr; [done|]. subst entries.
  destruct (find_loop_finds body (find_entries dir fs)) with (l := l) (fs := fs1) as [Hs1 Hl1]; [|done|].
  - eapply Forall_impl; [apply find_entries_size|]. intros d. apply Hbody.
  - split; [by transitivity fs1|done].
Qed.

Lemma FindAll_finds root : finder (fun _ => FindAllPackagesInfo root).
Proof.
  intros l fs _. unfold FindAllPackagesInfo. apply FindDirectory_finds; [|done]. intros d _.
  destruct (IsSubDirectoryFindData d); [|apply finder_skip].
  apply FindDirectory_finds. intros d' _. destruct (IsSubDirectoryFindData d'); [|apply finder_skip].
  apply FindDirectory_finds. intros d'' Hd''. destruct (IsFileFindData d''); [|apply finder_skip].
  intros l' fs' Hl'. split; [done|]. cbn. apply Forall_app. by repeat constructor.
Qed.

(** The deletions, in order. *)
Lemma delete_packages_spec l : forall hr fs,
  let fs' := exec (delete_packages l hr) fs in
  (forall q, Forall (fun p => is_at_or_below (path_key (pi_file_name p)) (path_key q) = false) l ->
   fs_file q fs' = fs_file q fs)
  /\ (forall q, fs_file q fs = None -> fs_file q fs' = None)
  /\ (nothing_in_use -> Forall (fun p => fs_file (pi_file_name p) fs' = None) l).
Proof.
  induction l as [|p l IH]; intros hr fs; [done|]. cbv zeta. cbn [delete_packages]. rewrite exec_bind.
  destruct (Delete_spec (pi_file_name p) fs) as (Hkeep & Hmono & Hdel & _).
  set (hr' := eval (DeleteBeforeOrAfterReboot _) fs) in *. set (fs1 := exec (DeleteBeforeOrAfterReboot _) fs) in *.
  destruct (IH hr' fs1) as (IHkeep & IHmono & IHdel). split_and!.
  - intros q [Hp Hl]%Forall_cons. rewrite IHkeep by done. by apply Hkeep.
  - intros q Hq. apply IHmono. destruct (Hmono q) as [->| ->]; done.
  - intros Huse. constructor; [|by apply IHdel]. apply IHmono.
    destruct (File_Exists (pi_file_name p) fs) eqn:Ex.
    + apply Hdel; [done|done|apply is_at_or_below_refl|apply reached_self].
    + destruct (Hmono (pi_file_name p)) as [->|Hn]; [|done]. unfold File_Exists in Ex.
      apply orb_false_iff in Ex as [Ex _]. apply bool_decide_eq_false in Ex. by apply eq_None_not_Some.
Qed.


End Purge.

(** ** Witnesses *)

(** A sort: stdpp's merge sort by time. *)
Definition newer (p q : PackageInfo) : Prop := PackageSortByTimePredicate q p = false.

#[local] Instance newer_dec : RelDecision newer.
Proof. intros p q. unfold newer. apply _. Defined.

#[local] Instance newer_total : Total newer.
Proof. intros p q. unfold newer, PackageSortByTimePredicate. rewrite !Z.ltb_ge. lia. Qed.

#[local] Instance newer_trans : Transitive newer.
Proof. intros p q r. unfold newer, PackageSortByTimePredicate. rewrite !Z.ltb_ge. lia. Qed.

#[refine]
Definition merge_sort_packages : StdSort := {| std_sort := merge_sort newer |}.
Proof.
  - intros l. apply merge_sort_Permutation.
  - intros l. apply (StronglySorted_merge_sort newer).
Defined.

Section Witnesses.
#[local] Existing Instances good_disk merge_sort_packages.

(** A disk with two versions of an application. *)
Definition two_versions : FS :=
  exec (Put sample_cache sample_key [97; 98; 99] abc_hash;;
        Put sample_cache (PackageCache_Key (_T "{app}") (_T "2.0.0.0") (_T "setup.exe")) [97; 98; 99] abc_hash) empty_disk.

Definition lower_version : FindData := mkFindData (_T "1.0.0.0") true 0 0.
Definition app_directory : CString := _T "C:\Cache\{app}".

Lemma lower_version_found : lower_version ∈ find_entries app_directory two_versions.
Proof. apply (bool_decide_eq_true_1 _). vm_compute. reflexivity. Qed.

Lemma sample_path_clear v : unobstructed app_directory v sample_path.
Proof.
  intros name _. unfold reached.
  assert (parents (path_key sample_path) =
    [_T "c:"; _T "c:\cache"; _T "c:\cache\{app}"; _T "c:\cache\{app}\1.0.0.0"]) as -> by (by vm_compute).
  cbn [forallb]. rewrite !(orb_true_r (negb _)). by destruct name.
Qed.

Lemma PurgeAppLowerVersions_spec_witness :
  fs_file sample_path (exec (PurgeAppLowerVersions sample_cache (_T "{app}") (_T "2.0.0.0")) two_versions) = None.
Proof.
  assert (BuildCacheFileName sample_cache (_T "{app}") [] [] = inr app_directory) as Hdir by (by vm_compute).
  destruct (PurgeAppLowerVersions_spec sample_cache (_T "{app}") (_T "2.0.0.0") two_versions app_directory Hdir)
    as [_ Hgone].
  assert (eval (PurgeAppLowerVersions sample_cache (_T "{app}") (_T "2.0.0.0")) two_versions = S_OK) as Hok
    by (by vm_compute).
  assert (IsSpecialDirectoryFindData lower_version = false) as Hspec by (by vm_compute).
  assert (purges_version (VersionFromString (_T "2.0.0.0")) (fd_cFileName lower_version) = true) as Hpur by (by vm_compute).
  assert (File_Exists (ConcatenatePath app_directory (fd_cFileName lower_version)) two_versions = true) as Hex
    by (by vm_compute).
  assert (is_at_or_below (path_key (ConcatenatePath app_directory (fd_cFileName lower_version))) (path_key sample_path)
    = true) as Hbelow by (by vm_compute).
  exact (Hgone Hok (fun _ _ => eq_refl) lower_version sample_path lower_version_found Hspec Hpur Hex
    (sample_path_clear _) Hbelow).
Defined.

End Witnesses.
