(* ===== verification/Text.v ===== *)
(** Searching and taking text apart: the functions of omaha/base/string.cc and
    omaha/net/net_utils.cc that the network code uses, and [CString::Find],
    [Left], [Right] and [Mid] (ATL). *)

From S2P Require Import Prelude Hresult CStrings.

Fixpoint is_prefix (p s : CString) : bool :=
  match p, s with
  | [], _ => true
  | c :: p', d :: s' => (c =? d) && is_prefix p' s'
  | _ :: _, [] => false
  end.

(** The position of the first occurrence of [p] at or after the start of [s],
    counted from [i]. *)
Fixpoint find_from (p s : CString) (i : Z) : Z :=
  if is_prefix p s then i
  else match s with [] => -1 | _ :: s' => find_from p s' (i + 1) end.

Definition Find (s p : CString) (start : Z) : Z := find_from p (drop (Z.to_nat start) s) start.
Definition Left (s : CString) (n : Z) : CString := take (Z.to_nat n) s.
Definition Right (s : CString) (n : Z) : CString := drop (length s - Z.to_nat n) s.
Definition Mid (s : CString) (b n : Z) : CString := take (Z.to_nat n) (drop (Z.to_nat b) s).
Definition GetLength (s : CString) : Z := Z.of_nat (length s).

(** Both strings end at their first zero. *)
Fixpoint starts_with (lower : Z -> Z) (str start_str : CString) : bool :=
  match str, start_str with
  | [], [] => true
  | [], _ :: _ => false
  | _ :: _, [] => true
  | c1 :: str', c2 :: start_str' => (lower c1 =? lower c2) && starts_with lower str' start_str'
  end.

Definition String_StartsWith (str start_str : CString) (ignore_case : bool) : bool :=
  starts_with (if ignore_case then String_ToLowerChar else id) (c_str str) (c_str start_str).

(** One round of the loop per line. *)
Fixpoint lines_from (fuel : nat) (text delimiter : CString) (b : Z) : list CString :=
  match fuel with
  | O => []
  | S fuel =>
      if b <? GetLength text then
        let e := Find text delimiter b in
        if negb (e =? -1) then
          (if 0 <? e - b then Mid text b (e - b) else []) :: lines_from fuel text delimiter (e + GetLength delimiter)
        else [drop (Z.to_nat b) text]
      else []
  end.

Definition TextToLines (text delimiter : CString) : list CString :=
  lines_from (S (length text)) text delimiter 0.

(** A name and a value, neither empty, around the only separator. *)
Definition ParseNameValuePair (token : CString) (separator : Z) : option (CString * CString) :=
  let separator_index := Find token [separator] 0 in
  if (separator_index =? -1) || (separator_index =? 0) || (separator_index =? GetLength token - 1) then None
  else
    let name := Left token separator_index in
    let value := Right token (GetLength token - separator_index - 1) in
    if negb (Find value [separator] 0 =? -1) then None else Some (name, value).

Definition String_CharToDigit (c : Z) : Z := if String_IsDigit c then c - 48 else -1.

(** Signed overflow wraps. *)
Fixpoint accumulate_digits (total : Z) (str : CString) : Z :=
  match str with
  | c :: str' => if String_IsDigit c then accumulate_digits (s32 (10 * total + String_CharToDigit c)) str' else total
  | [] => total
  end.

Definition String_StringToInt (str : CString) : Z :=
  let str := drop_while (Z.eqb 32) (c_str str) in
  match str with
  | c :: str' =>
      let total := accumulate_digits 0 (if (c =? 45) || (c =? 43) then str' else str) in
      if c =? 45 then s32 (- total) else total
  | [] => 0
  end.

(** ** Addresses *)

Definition kHttpProto : CString := _T "http://".
Definition kHttpsProto : CString := _T "https://".

Definition IsHttpUrl (url : CString) : bool := String_StartsWith url kHttpProto true.
Definition IsHttpsUrl (url : CString) : bool := String_StartsWith url kHttpsProto true.

Definition RemoveInternetProtocolHeader (url : CString) : CString :=
  let find_colon_slash_slash := Find url (_T "://") 0 in
  if negb (find_colon_slash_slash =? -1) then Right url (GetLength url - find_colon_slash_slash - 3)
  else if String_StartsWith url (_T "mailto:") true then Right url (GetLength url - 7)
  else url.

Definition MakeHttpUrl (url : CString) : CString :=
  if IsHttpUrl url then url else kHttpProto ++ RemoveInternetProtocolHeader url.

(** ** Searching without regard to case ([stristrW]); [CharUpper] is Windows'
    conversion of the characters beyond ASCII. *)

Definition String_ToUpperA (c : Z) : Z := if (97 <=? c) && (c <=? 122) then c - 32 else c.
Definition String_ToUpper (CharUpper : Z -> Z) (c : Z) : Z := if c <? 128 then String_ToUpperA c else CharUpper c.

Fixpoint matches_here (upper : Z -> Z) (pattern string : CString) : bool :=
  match pattern, string with
  | [], _ => true
  | p :: pattern', c :: string' => (upper c =? upper p) && matches_here upper pattern' string'
  | _ :: _, [] => false
  end.

Fixpoint stristr (upper : Z -> Z) (string pattern : CString) : bool :=
  match string with
  | [] => false
  | _ :: string' => matches_here upper pattern string || stristr upper string' pattern
  end.

Definition stristrW (CharUpper : Z -> Z) (string pattern : CString) : bool :=
  stristr (String_ToUpper CharUpper) (c_str string) pattern.
