(* ===== verification/Base64.v ===== *)
(** Base64 text: omaha/base/string.cc ([Base64EscapeInternal],
    [Base64UnescapeInternal] and their callers).

    Bytes are integers from 0 to 255.  The source ends at its first zero, as a C
    string does. *)

From S2P Require Import Prelude Hresult CStrings.

Definition kPad64 : Z := 61.
Definition kBase64Chars : CString := _T "ABCDEFGHIJKLMNOPQRSTUVWXYZabcdefghijklmnopqrstuvwxyz0123456789+/".
Definition kWebSafeBase64Chars : CString := _T "ABCDEFGHIJKLMNOPQRSTUVWXYZabcdefghijklmnopqrstuvwxyz0123456789-_".

(** The tables of the decoder, row by row from the character 0. *)
Definition letters (first : Z) : list Z := (fun i => first + Z.of_nat i) <$> seq 0 26.
Definition digits : list Z := (fun i => 52 + Z.of_nat i) <$> seq 0 10.
Definition UnBase64 : list Z :=
  repeat 99 43 ++ [62] ++ repeat 99 3 ++ [63] ++ digits ++ repeat 99 7 ++ letters 0 ++ repeat 99 6 ++ letters 26
  ++ repeat 99 133.
Definition UnWebSafeBase64 : list Z :=
  repeat 99 45 ++ [62] ++ repeat 99 2 ++ digits ++ repeat 99 7 ++ letters 0 ++ repeat 99 4 ++ [63] ++ [99] ++ letters 26
  ++ repeat 99 133.

(** [IsSpaceA]. *)
Definition IsSpaceA (c : Z) : bool := ((9 <=? c) && (c <=? 13)) || (c =? 32) || (c =? 160) || (c =? 255).

Definition CalculateBase64EscapedLen (input_len : Z) (do_padding : bool) : Z :=
  let intermediate_result := s32 (8 * input_len + 5) in
  let len := Z.quot intermediate_result 6 in
  if do_padding then Z.quot (len + 3) 4 * 4 else len.

(** ** Encoding *)

Section Escape.
Context (base64 : CString) (do_padding : bool).

Definition base64_char (i : Z) : Z := nth (Z.to_nat i) base64 0.

(** [None] is a buffer that is too small. *)
Fixpoint escape_blocks (src : list Z) (szdest : Z) : option (list Z) :=
  match src with
  | [] => Some []
  | [a] =>
      if szdest - 2 <? 0 then None
      else if do_padding && (szdest - 4 <? 0) then None
      else Some ([base64_char (Z.shiftr a 2); base64_char (Z.shiftl (Z.land a 3) 4)]
                 ++ (if do_padding then [kPad64; kPad64] else []))
  | [a; b] =>
      if szdest - 3 <? 0 then None
      else if do_padding && (szdest - 4 <? 0) then None
      else Some ([base64_char (Z.shiftr a 2); base64_char (Z.shiftl (Z.land a 3) 4 + Z.shiftr b 4);
                  base64_char (Z.shiftl (Z.land b 15) 2)]
                 ++ (if do_padding then [kPad64] else []))
  | a :: b :: c :: src' =>
      if szdest - 4 <? 0 then None
      else
        rest ← escape_blocks src' (szdest - 4);
        Some ([base64_char (Z.shiftr a 2); base64_char (Z.shiftl (Z.land a 3) 4 + Z.shiftr b 4);
               base64_char (Z.shiftl (Z.land b 15) 2 + Z.shiftr c 6); base64_char (Z.land c 63)] ++ rest)
  end.

(** The text that is written; nothing when the buffer is too small. *)
Definition Base64EscapeInternal (src : list Z) (szdest : Z) : list Z :=
  default [] (escape_blocks src szdest).

End Escape.

(** [WebSafeBase64Escape(src, dest)] with a string for the result. *)
Definition WebSafeBase64Escape (src : list Z) : list Z :=
  let encoded_len := CalculateBase64EscapedLen (Z.of_nat (length src)) true in
  Base64EscapeInternal kWebSafeBase64Chars false src encoded_len.

Definition Base64Escape (src : list Z) (do_padding : bool) : list Z :=
  let max_escaped_size := CalculateBase64EscapedLen (Z.of_nat (length src)) do_padding in
  Base64EscapeInternal kBase64Chars do_padding src (max_escaped_size + 1).

(** ** Decoding *)

(** The position in a block of four characters, the bytes that are complete and
    the byte that has been begun. *)
Record Unescape := mkUnescape { u_state : Z; u_out : list Z; u_byte : Z }.

Section Unescape.
Context (unbase64 : list Z) (len_dest : Z).

Definition char_value (ch : Z) : Z := nth (Z.to_nat ch) unbase64 99.

(** A byte is completed; [rest], the bits of the next one, must be zero where
    the buffer ends. *)
Definition complete_byte (u : Unescape) (bits rest state : Z) : option Unescape :=
  let destidx := Z.of_nat (length (u_out u)) in
  if len_dest <=? destidx then None
  else
    let out := u_out u ++ [Z.land (Z.lor (u_byte u) bits) 255] in
    if len_dest <=? destidx + 1 then if negb (rest =? 0) then None else Some (mkUnescape state out 0)
    else Some (mkUnescape state out (Z.land rest 255)).

Definition unescape_char (u : Unescape) (decode : Z) : option Unescape :=
  match u_state u with
  | 0 => if len_dest <=? Z.of_nat (length (u_out u)) then None
         else Some (mkUnescape 1 (u_out u) (Z.land (Z.shiftl decode 2) 255))
  | 1 => complete_byte u (Z.shiftr decode 4) (Z.shiftl (Z.land decode 15) 4) 2
  | 2 => complete_byte u (Z.shiftr decode 2) (Z.shiftl (Z.land decode 3) 6) 3
  | _ => complete_byte u decode 0 0
  end.

(** The loop over the characters, and what is left when it meets a padding
    character. *)
Fixpoint unescape_chars (src : list Z) (u : Unescape) : option (Unescape * option (list Z)) :=
  match src with
  | [] => Some (u, None)
  | ch :: src' =>
      if IsSpaceA ch then unescape_chars src' u
      else if ch =? kPad64 then Some (u, Some src')
      else
        let decode := char_value ch in
        if decode =? 99 then None
        else u' ← unescape_char u decode; unescape_chars src' u'
  end.

(** The characters after the first padding character. *)
Definition padding_ok (state : Z) (rest : list Z) : bool :=
  if (state =? 0) || (state =? 1) then false
  else
    match rest with
    | [] => negb (state =? 2)
    | _ =>
        if state =? 2 then
          match drop_while IsSpaceA rest with
          | ch :: rest' => (ch =? kPad64) && forallb IsSpaceA rest'
          | [] => false
          end
        else forallb IsSpaceA rest
    end.

Definition Base64UnescapeInternal (src : list Z) : option (list Z) :=
  '(u, pad) ← unescape_chars (c_str src) (mkUnescape 0 [] 0);
  match pad with
  | Some rest => if padding_ok (u_state u) rest then Some (u_out u) else None
  | None => if u_state u =? 1 then None else Some (u_out u)
  end.

End Unescape.

Definition WebSafeBase64Unescape (src : list Z) (szdest : Z) : option (list Z) :=
  Base64UnescapeInternal UnWebSafeBase64 szdest src.
Definition Base64Unescape (src : list Z) (szdest : Z) : option (list Z) :=
  Base64UnescapeInternal UnBase64 szdest src.

(** ** Round trip *)

Definition is_byte (b : Z) : Prop := 0 <= b < 256.

(** The decoder knows the characters of the encoder. *)
Definition web_safe_digit (d : Z) : bool :=
  let ch := base64_char kWebSafeBase64Chars d in
  (char_value UnWebSafeBase64 ch =? d) && negb (IsSpaceA ch) && negb (ch =? kPad64) && (0 <? ch) && (ch <? 128).

Lemma web_safe_digits d : 0 <= d < 64 -> web_safe_digit d = true.
Proof.
  intros Hd. assert (forallb web_safe_digit (Z.of_nat <$> seq 0 64) = true) as Hall by (by vm_compute).
  rewrite forallb_forall in Hall. apply Hall, list_elem_of_In, list_elem_of_fmap.
  exists (Z.to_nat d). split; [lia|]. apply elem_of_seq. lia.
Qed.

(** The digits of a block are digits, and the decoder's shifts undo the
    encoder's. *)
Lemma bits_of_block a b c : is_byte a -> is_byte b -> is_byte c ->
  let d0 := Z.shiftr a 2 in
  let d1 := Z.shiftl (Z.land a 3) 4 + Z.shiftr b 4 in
  let d2 := Z.shiftl (Z.land b 15) 2 + Z.shiftr c 6 in
  let d3 := Z.land c 63 in
  (0 <= d0 < 64 /\ 0 <= d1 < 64 /\ 0 <= d2 < 64 /\ 0 <= d3 < 64) /\
  Z.land (Z.lor (Z.land (Z.shiftl d0 2) 255) (Z.shiftr d1 4)) 255 = a /\
  Z.land (Z.lor (Z.land (Z.shiftl (Z.land d1 15) 4) 255) (Z.shiftr d2 2)) 255 = b /\
  Z.land (Z.lor (Z.land (Z.shiftl (Z.land d2 3) 6) 255) d3) 255 = c.
Proof.
  unfold is_byte. intros Ha Hb Hc. cbv zeta.
  change 3 with (2 ^ 2 - 1). change 15 with (2 ^ 4 - 1). change 63 with (2 ^ 6 - 1). change 255 with (2 ^ 8 - 1).
  rewrite !land_mask_mod, !Z.shiftr_div_pow2, !Z.shiftl_mul_pow2 by lia.
  assert (forall x y n, 0 <= n -> 0 <= y < 2 ^ n -> Z.lor (x * 2 ^ n) y = x * 2 ^ n + y) as Hlor.
  { intros x y n Hn Hy. rewrite <- lor_shiftl_add by done. by rewrite Z.shiftl_mul_pow2. }
  pose proof (Hlor (a / 4) ((a mod 4 * 16 + b / 16) / 16) 2 ltac:(lia)) as H1.
  pose proof (Hlor ((a mod 4 * 16 + b / 16) mod 16) ((b mod 16 * 4 + c / 64) / 4) 4 ltac:(lia)) as H2.
  pose proof (Hlor ((b mod 16 * 4 + c / 64) mod 4) (c mod 64) 6 ltac:(lia)) as H3.
  change (2 ^ 2) with 4 in *. change (2 ^ 4) with 16 in *. change (2 ^ 6) with 64 in *. change (2 ^ 8) with 256 in *.
  split; [repeat split; Z.div_mod_to_equations; lia|].
  rewrite (Z.mod_small (a / 4 * 4)), (Z.mod_small (_ mod 16 * 16)), (Z.mod_small (_ mod 4 * 64)) by (Z.div_mod_to_equations; lia).
  rewrite H1, H2, H3 by (Z.div_mod_to_equations; lia).
  repeat split; Z.div_mod_to_equations; lia.
Qed.

Lemma blocks_ind {A} (P : list A -> Prop) :
  P [] -> (forall a, P [a]) -> (forall a b, P [a; b]) -> (forall a b c l, P l -> P (a :: b :: c :: l)) -> forall l, P l.
Proof.
  intros H0 H1 H2 H3. fix IH 1. intros [|a [|b [|c l]]]; [exact H0|exact (H1 a)|exact (H2 a b)|].
  exact (H3 a b c l (IH l)).
Qed.

Section RoundTrip.
Context (len_dest : Z).

Notation decode_from := (unescape_chars UnWebSafeBase64 len_dest).
Notation digit := (base64_char kWebSafeBase64Chars).

Lemma decode_digit d src u : 0 <= d < 64 ->
  decode_from (digit d :: src) u = u' ← unescape_char len_dest u d; decode_from src u'.
Proof.
  intros Hd. pose proof (web_safe_digits d Hd) as Hw. unfold web_safe_digit in Hw.
  rewrite !andb_true_iff, !negb_true_iff in Hw. destruct Hw as ((((Hv & Hs) & Hp) & _) & _).
  cbn [unescape_chars]. apply Z.eqb_eq in Hv. rewrite Hs, Hp, Hv.
  by rewrite (proj2 (Z.eqb_neq d 99)) by lia.
Qed.

Lemma decode_byte st out byte bits rest state :
  Z.of_nat (length out) < len_dest -> rest = 0 \/ Z.of_nat (length out) + 1 < len_dest ->
  complete_byte len_dest (mkUnescape st out byte) bits rest state =
  Some (mkUnescape state (out ++ [Z.land (Z.lor byte bits) 255]) (Z.land rest 255)).
Proof.
  intros Hlen Hrest. unfold complete_byte; cbn [u_out u_byte].
  rewrite (proj2 (Z.leb_gt _ _)) by lia. destruct (len_dest <=? _) eqn:Hend; [|done].
  destruct Hrest as [->|Hrest]; [done|lia].
Qed.

Lemma decode_first out d : Z.of_nat (length out) < len_dest ->
  unescape_char len_dest (mkUnescape 0 out 0) d = Some (mkUnescape 1 out (Z.land (Z.shiftl d 2) 255)).
Proof. intros Hlen. unfold unescape_char. cbn [u_state u_out]. by rewrite (proj2 (Z.leb_gt _ _)). Qed.

Lemma decode_block a b c src out : is_byte a -> is_byte b -> is_byte c -> Z.of_nat (length out) + 3 <= len_dest ->
  decode_from (digit (Z.shiftr a 2) :: digit (Z.shiftl (Z.land a 3) 4 + Z.shiftr b 4)
    :: digit (Z.shiftl (Z.land b 15) 2 + Z.shiftr c 6) :: digit (Z.land c 63) :: src) (mkUnescape 0 out 0) =
  decode_from src (mkUnescape 0 (out ++ [a; b; c]) 0).
Proof.
  intros Ha Hb Hc Hlen. destruct (bits_of_block a b c Ha Hb Hc) as ((H0 & H1 & H2 & H3) & Ea & Eb & Ec).
  rewrite decode_digit, decode_first by (done || lia). cbn [mbind option_bind].
  rewrite decode_digit by done. cbn [unescape_char u_state].
  rewrite decode_byte by lia. cbn [mbind option_bind].
  rewrite decode_digit by done. cbn [unescape_char u_state].
  rewrite decode_byte by (rewrite ?length_app; cbn; lia). cbn [mbind option_bind].
  rewrite decode_digit by done. cbn [unescape_char u_state].
  rewrite decode_byte by (rewrite ?length_app; cbn; lia). cbn [mbind option_bind].
  rewrite Ea, Eb, Ec, <- !app_assoc. done.
Qed.

Lemma digit_ascii d : 0 <= d < 64 -> 0 < digit d < 128.
Proof.
  intros Hd. pose proof (web_safe_digits d Hd) as Hw. unfold web_safe_digit in Hw.
  rewrite !andb_true_iff in Hw. lia.
Qed.

(** What the encoder writes, the decoder reads back. *)
Lemma decode_encoded src : Forall is_byte src -> forall szdest out,
  4 * ((Z.of_nat (length src) + 2) / 3) <= szdest -> Z.of_nat (length out) + Z.of_nat (length src) <= len_dest ->
  exists text, escape_blocks kWebSafeBase64Chars false src szdest = Some text /\
    Forall (fun ch => 0 < ch < 128) text /\ (length src <= length text)%nat /\
    exists st byte, decode_from text (mkUnescape 0 out 0) = Some (mkUnescape st (out ++ src) byte, None) /\ st <> 1.
Proof.
  induction src as [|a|a b|a b c src IH] using blocks_ind; intros Hsrc szdest out Hsz Hlen.
  - exists []. split; [done|]. split; [done|]. split; [done|]. exists 0, 0. by rewrite app_nil_r.
  - rewrite Forall_cons in Hsrc. destruct Hsrc as [Ha _]. change ((Z.of_nat (length [a]) + 2) / 3) with 1 in Hsz.
    destruct (bits_of_block a 0 0 Ha) as ((H0 & H1 & _ & _) & Ea & _ & _); [split; lia..|].
    change (Z.shiftr 0 4) with 0 in *. rewrite Z.add_0_r in *.
    assert (Z.shiftl (Z.land (Z.shiftl (Z.land a 3) 4) 15) 4 = 0) as Hrest.
    { change 3 with (2 ^ 2 - 1). change 15 with (2 ^ 4 - 1). rewrite !land_mask_mod, !Z.shiftl_mul_pow2 by lia.
      rewrite Z.mod_mul by lia. lia. }
    cbn [escape_blocks andb app]. rewrite (proj2 (Z.ltb_ge _ 0)) by lia.
    eexists. split; [done|]. split; [repeat constructor; by apply digit_ascii|].
    split; [cbn; lia|]. exists 2, 0. split; [|lia]. cbn in Hlen.
    rewrite decode_digit, decode_first by (done || lia). cbn [mbind option_bind].
    rewrite decode_digit by done. cbn [unescape_char u_state]. rewrite Hrest, decode_byte by lia.
    cbn [mbind option_bind unescape_chars]. by rewrite Ea.
  - rewrite !Forall_cons in Hsrc. destruct Hsrc as (Ha & Hb & _). change ((Z.of_nat (length [a; b]) + 2) / 3) with 1 in Hsz.
    destruct (bits_of_block a b 0 Ha Hb) as ((H0 & H1 & H2 & _) & Ea & Eb & _); [split; lia..|].
    change (Z.shiftr 0 6) with 0 in *. rewrite Z.add_0_r in *.
    assert (Z.shiftl (Z.land (Z.shiftl (Z.land b 15) 2) 3) 6 = 0) as Hrest.
    { change 3 with (2 ^ 2 - 1). change 15 with (2 ^ 4 - 1). rewrite !land_mask_mod, !Z.shiftl_mul_pow2 by lia.
      rewrite Z.mod_mul by lia. lia. }
    cbn [escape_blocks andb app]. rewrite (proj2 (Z.ltb_ge _ 0)) by lia.
    eexists. split; [done|]. split; [repeat constructor; by apply digit_ascii|].
    split; [cbn; lia|]. exists 3, 0. split; [|lia]. cbn in Hlen.
    rewrite decode_digit, decode_first by (done || lia). cbn [mbind option_bind].
    rewrite decode_digit by done. cbn [unescape_char u_state]. rewrite decode_byte by lia. cbn [mbind option_bind].
    rewrite decode_digit by done. cbn [unescape_char u_state].
    rewrite Hrest, decode_byte by (rewrite ?length_app; cbn; lia).
    cbn [mbind option_bind unescape_chars]. by rewrite Ea, Eb, <- app_assoc.
  - rewrite !Forall_cons in Hsrc. destruct Hsrc as (Ha & Hb & Hc & Hl). cbn [length] in Hsz, Hlen.
    rewrite !Nat2Z.inj_succ in Hsz, Hlen.
    destruct (IH Hl (szdest - 4) (out ++ [a; b; c])) as (text & Htext & Hascii & Hle & st & byte & Hdec & Hst).
    { Z.div_mod_to_equations; lia. }
    { rewrite length_app. cbn. lia. }
    destruct (bits_of_block a b c Ha Hb Hc) as ((H0 & H1 & H2 & H3) & _).
    cbn [escape_blocks]. rewrite (proj2 (Z.ltb_ge _ 0)) by (Z.div_mod_to_equations; lia).
    rewrite Htext. eexists. split; [done|]. split; [repeat (constructor; [by apply digit_ascii|]); done|].
    split; [cbn; lia|]. exists st, byte. split; [|done]. cbn [app]. rewrite decode_block by (done || lia). rewrite Hdec, <- app_assoc. done.
Qed.

End RoundTrip.

(** Encoding a request for the command line and decoding it gives the request
    back, for every sequence of bytes that an [int] can count and with the
    buffer the caller allocates; the text is ASCII. *)
Lemma WebSafeBase64_roundtrip src :
  Forall is_byte src -> Z.of_nat (length src) < 2 ^ 27 ->
  let text := WebSafeBase64Escape src in
  Forall (fun ch => 0 < ch < 128) text /\
  WebSafeBase64Unescape text (Z.of_nat (length text)) = Some src.
Proof.
  intros Hsrc Hlen. cbv zeta.
  assert (4 * ((Z.of_nat (length src) + 2) / 3) <= CalculateBase64EscapedLen (Z.of_nat (length src)) true) as Hsz.
  { unfold CalculateBase64EscapedLen. rewrite s32_small by lia. rewrite (Z.quot_div_nonneg (8 * _ + 5)) by lia.
    rewrite Z.quot_div_nonneg; Z.div_mod_to_equations; lia. }
  destruct (decode_encoded (Z.of_nat (length src)) src Hsrc _ [] Hsz) as (text & Htext & Hascii & Hle & _); [cbn; lia|].
  unfold WebSafeBase64Escape, Base64EscapeInternal. rewrite Htext. change (default [] (Some text)) with text.
  split; [done|].
  destruct (decode_encoded (Z.of_nat (length text)) src Hsrc _ [] Hsz) as (text' & Htext' & _ & _ & st & byte & Hdec & Hst);
    [cbn; lia|].
  rewrite Htext in Htext'. injection Htext' as <-.
  unfold WebSafeBase64Unescape, Base64UnescapeInternal.
  assert (c_str text = text) as ->.
  { clear -Hascii. induction Hascii as [|ch l Hch _ IH]; [done|]. unfold c_str in *. cbn.
    rewrite (proj2 (Z.eqb_neq ch 0)) by lia. cbn. by rewrite IH. }
  rewrite Hdec. cbn. by rewrite (proj2 (Z.eqb_neq st 1)).
Qed.

(** Any bytes. *)
Lemma WebSafeBase64_roundtrip_witness :
  WebSafeBase64Escape [255; 0; 127; 200] = _T "_wB_yA" /\ WebSafeBase64Unescape (_T "_wB_yA") 6 = Some [255; 0; 127; 200].
Proof.
  assert (WebSafeBase64Escape [255; 0; 127; 200] = _T "_wB_yA") as He by (by vm_compute).
  split; [exact He|].
  destruct (WebSafeBase64_roundtrip [255; 0; 127; 200]) as [_ Hr]; [repeat constructor; unfold is_byte; lia|cbn; lia|].
  rewrite He in Hr. exact Hr.
Defined.
