(* ===== verification/Protocol.v ===== *)
(** The data of the Omaha protocol: update requests and responses
    ([omaha/common/protocol_definition.h], [install_manifest.h]), the ping
    events ([ping_event.cc], [ping_event_cancel.cc],
    [ping_event_download_metrics.cc]) with their textual form, and the request
    object ([update_request.cc]). *)

From S2P Require Import Prelude Hresult CStrings.

(** ** Ping events *)

Inductive EventType :=
| EVENT_UNKNOWN | EVENT_INSTALL_DOWNLOAD_FINISH | EVENT_INSTALL_COMPLETE
| EVENT_UPDATE_COMPLETE | EVENT_UNINSTALL | EVENT_INSTALL_DOWNLOAD_START
| EVENT_INSTALL_INSTALLER_START | EVENT_INSTALL_APPLICATION_BEGIN
| EVENT_UPDATE_APPLICATION_BEGIN | EVENT_UPDATE_DOWNLOAD_START
| EVENT_UPDATE_DOWNLOAD_FINISH | EVENT_UPDATE_INSTALLER_START
| EVENT_REGISTER_PRODUCT_COMPLETE | EVENT_INSTALL_OEM_FIRST_CHECK
| EVENT_APP_COMMAND_BEGIN | EVENT_APP_COMMAND_COMPLETE
| EVENT_DEBUG | EVENT_CHROME_RECOVERY_COMPONENT.

#[export] Instance EventType_eq_dec : EqDecision EventType.
Proof. solve_decision. Defined.

Definition EventType_value (t : EventType) : Z :=
  match t with
  | EVENT_UNKNOWN => 0 | EVENT_INSTALL_DOWNLOAD_FINISH => 1
  | EVENT_INSTALL_COMPLETE => 2 | EVENT_UPDATE_COMPLETE => 3
  | EVENT_UNINSTALL => 4 | EVENT_INSTALL_DOWNLOAD_START => 5
  | EVENT_INSTALL_INSTALLER_START => 6 | EVENT_INSTALL_APPLICATION_BEGIN => 9
  | EVENT_UPDATE_APPLICATION_BEGIN => 12 | EVENT_UPDATE_DOWNLOAD_START => 13
  | EVENT_UPDATE_DOWNLOAD_FINISH => 14 | EVENT_UPDATE_INSTALLER_START => 15
  | EVENT_REGISTER_PRODUCT_COMPLETE => 20 | EVENT_INSTALL_OEM_FIRST_CHECK => 30
  | EVENT_APP_COMMAND_BEGIN => 40 | EVENT_APP_COMMAND_COMPLETE => 41
  | EVENT_DEBUG => 50 | EVENT_CHROME_RECOVERY_COMPONENT => 53
  end.

Inductive EventResult :=
| EVENT_RESULT_ERROR | EVENT_RESULT_SUCCESS | EVENT_RESULT_SUCCESS_REBOOT
| EVENT_RESULT_CANCELLED | EVENT_RESULT_INSTALLER_ERROR_MSI
| EVENT_RESULT_INSTALLER_ERROR_OTHER | EVENT_RESULT_INSTALLER_ERROR_SYSTEM
| EVENT_RESULT_UPDATE_DEFERRED | EVENT_RESULT_HANDOFF_ERROR.

#[export] Instance EventResult_eq_dec : EqDecision EventResult.
Proof. solve_decision. Defined.

Definition EventResult_value (r : EventResult) : Z :=
  match r with
  | EVENT_RESULT_ERROR => 0 | EVENT_RESULT_SUCCESS => 1
  | EVENT_RESULT_SUCCESS_REBOOT => 2 | EVENT_RESULT_CANCELLED => 4
  | EVENT_RESULT_INSTALLER_ERROR_MSI => 5 | EVENT_RESULT_INSTALLER_ERROR_OTHER => 6
  | EVENT_RESULT_INSTALLER_ERROR_SYSTEM => 8 | EVENT_RESULT_UPDATE_DEFERRED => 9
  | EVENT_RESULT_HANDOFF_ERROR => 10
  end.

Definition kAppStateExtraCodeMask : Z := 0x10000000.

(** [DownloadMetrics]. *)
Inductive Downloader := kNone | kWinHttp | kBits.

Record DownloadMetrics := mkDownloadMetrics {
  dm_url : CString;
  dm_downloader : Downloader;
  dm_error : Z;
  dm_downloaded_bytes : Z;
  dm_total_bytes : Z;
  dm_download_time_ms : Z
}.

(** The data members of [PingEvent], and what its two subclasses add. *)
Inductive PingEventExtra :=
| ExtraNone
| ExtraCancel (is_bundled : bool) (state_when_cancelled : Z)
    (time_since_update_available_ms time_since_download_start_ms : Z)
| ExtraDownloadMetrics (download_metrics : DownloadMetrics).

Record PingEvent := mkPingEvent {
  event_type : EventType;
  event_result : EventResult;
  ping_error_code : Z;
  ping_extra_code1 : Z;
  ping_source_url_index : Z;
  ping_update_check_time_ms : Z;
  ping_download_time_ms : Z;
  ping_num_bytes_downloaded : Z;
  ping_app_size : Z;
  ping_install_time_ms : Z;
  ping_extra : PingEventExtra
}.

(** The constructors. *)
Definition PingEvent4 (type : EventType) (result : EventResult) (error_code extra_code1 : Z) : PingEvent :=
  mkPingEvent type result error_code extra_code1 (-1) 0 0 0 0 0 ExtraNone.

Definition PingEvent10 (type : EventType) (result : EventResult)
    (error_code extra_code1 source_url_index update_check_time_ms download_time_ms
     num_bytes_downloaded app_size install_time_ms : Z) : PingEvent :=
  mkPingEvent type result error_code extra_code1 source_url_index update_check_time_ms
    download_time_ms num_bytes_downloaded app_size install_time_ms ExtraNone.

Definition PingEventCancel (type : EventType) (result : EventResult) (error_code extra_code1 : Z)
    (is_bundled : bool) (state_when_cancelled time_since_update_available_ms
     time_since_download_start_ms : Z) : PingEvent :=
  mkPingEvent type result error_code extra_code1 (-1) 0 0 0 0 0
    (ExtraCancel is_bundled state_when_cancelled time_since_update_available_ms
       time_since_download_start_ms).

Definition PingEventDownloadMetrics (is_update : bool) (result : EventResult)
    (download_metrics : DownloadMetrics) : PingEvent :=
  mkPingEvent (if is_update then EVENT_UPDATE_DOWNLOAD_FINISH else EVENT_INSTALL_DOWNLOAD_FINISH)
    result (dm_error download_metrics) 0 (-1) 0 0 0 0 0 (ExtraDownloadMetrics download_metrics).

(** ** The textual form of pings *)

(** One attribute of [ToString]: ["%s=%s"]. *)
Definition attr (name : string) (value : CString) : CString := _T name ++ _T "=" ++ value.

Definition opt (b : bool) (s : CString) : CString := if b then s else [].

Definition PingEvent_ToString (p : PingEvent) : CString :=
  attr "eventtype" (itostr (EventType_value (event_type p))) ++ _T ", " ++
  attr "eventresult" (itostr (EventResult_value (event_result p))) ++ _T ", " ++
  attr "errorcode" (itostr (ping_error_code p)) ++ _T ", " ++
  attr "extracode1" (itostr (ping_extra_code1 p)) ++
  opt (0 <=? ping_source_url_index p)
    (_T ", " ++ attr "source_url_index" (itostr (ping_source_url_index p))) ++
  opt (negb (ping_update_check_time_ms p =? 0))
    (_T ", " ++ attr "update_check_time_ms" (itostr (ping_update_check_time_ms p))) ++
  opt (negb (ping_app_size p =? 0))
    (_T ", " ++ attr "download_time_ms" (itostr (ping_download_time_ms p)) ++
     _T ", " ++ attr "downloaded" (String_Uint64ToString (ping_num_bytes_downloaded p) 10) ++
     _T ", " ++ attr "total" (String_Uint64ToString (ping_app_size p) 10)) ++
  opt (negb (ping_install_time_ms p =? 0))
    (_T ", " ++ attr "install_time_ms" (itostr (ping_install_time_ms p))).

Definition DownloaderToString (d : Downloader) : CString :=
  match d with
  | kWinHttp => _T "winhttp"
  | kBits => _T "bits"
  | kNone => _T "unknown"
  end.

(** "%x" of an [int]: its bits in hexadecimal. *)
Definition hex32 (i : Z) : CString := String_Uint64ToString (u32 i) 16.

Definition DownloadMetricsToString (m : DownloadMetrics) : CString :=
  _T "url=" ++ dm_url m ++ _T ", downloader=" ++ DownloaderToString (dm_downloader m) ++
  _T ", error=0x" ++ hex32 (dm_error m) ++
  _T ", downloaded_bytes=" ++ String_Int64ToString (dm_downloaded_bytes m) 10 ++
  _T ", total_bytes=" ++ String_Int64ToString (dm_total_bytes m) 10 ++
  _T ", download_time=" ++ String_Int64ToString (dm_download_time_ms m) 10.

(** The virtual [ToString]: the subclasses append to the base class's text. *)
Definition PingEventCancel_ToString (p : PingEvent) (is_bundled : bool)
    (state_when_cancelled time_since_update_available_ms time_since_download_start_ms : Z) : CString :=
  PingEvent_ToString p ++ _T ", " ++
  attr "is_bundled" (itostr (if is_bundled then 1 else 0)) ++ _T ", " ++
  attr "state_cancelled" (itostr state_when_cancelled) ++
  opt (0 <=? time_since_update_available_ms)
    (_T ", " ++ attr "time_since_update_available_ms" (itostr time_since_update_available_ms)) ++
  opt (0 <=? time_since_download_start_ms)
    (_T ", " ++ attr "time_since_download_start_ms" (itostr time_since_download_start_ms)).

Definition PingEventDownloadMetrics_ToString (p : PingEvent) (m : DownloadMetrics) : CString :=
  PingEvent_ToString p ++ _T ", " ++ DownloadMetricsToString m.

Definition ToString (p : PingEvent) : CString :=
  match ping_extra p with
  | ExtraNone => PingEvent_ToString p
  | ExtraCancel b s t1 t2 => PingEventCancel_ToString p b s t1 t2
  | ExtraDownloadMetrics m => PingEventDownloadMetrics_ToString p m
  end.

(** ** The XML attributes of pings

    [ToXml] calls [AddXMLAttributeNode(parent, namespace, name, value)] for
    each attribute and returns at the first failure.  [add] is that call: it
    extends the attributes of the element or fails. *)

Definition Attributes : Type := list (CString * CString).

Section ToXml.
Context (add : Attributes -> CString -> CString -> HRESULT * Attributes).

Fixpoint add_attributes (todo : Attributes) (node : Attributes) : HRESULT * Attributes :=
  match todo with
  | [] => (S_OK, node)
  | (name, value) :: todo' =>
      let '(hr, node') := add node name value in
      if FAILED hr then (hr, node') else add_attributes todo' node'
  end.
End ToXml.

Definition opt_attr (b : bool) (name : string) (value : CString) : Attributes :=
  if b then [(_T name, value)] else [].

(** The attributes in the order [PingEvent::ToXml] adds them. *)
Definition PingEvent_attributes (p : PingEvent) : Attributes :=
  [(_T "eventtype", itostr (EventType_value (event_type p)));
   (_T "eventresult", itostr (EventResult_value (event_result p)));
   (_T "errorcode", itostr (ping_error_code p));
   (_T "extracode1", itostr (ping_extra_code1 p))] ++
  opt_attr (0 <=? ping_source_url_index p) "source_url_index" (itostr (ping_source_url_index p)) ++
  opt_attr (negb (ping_update_check_time_ms p =? 0)) "update_check_time_ms"
    (itostr (ping_update_check_time_ms p)) ++
  opt_attr (negb (ping_download_time_ms p =? 0)) "download_time_ms" (itostr (ping_download_time_ms p)) ++
  opt_attr (negb (ping_num_bytes_downloaded p =? 0)) "downloaded"
    (String_Uint64ToString (ping_num_bytes_downloaded p) 10) ++
  opt_attr (negb (ping_app_size p =? 0)) "total" (String_Uint64ToString (ping_app_size p) 10) ++
  opt_attr (negb (ping_install_time_ms p =? 0)) "install_time_ms" (itostr (ping_install_time_ms p)).

Definition PingEventCancel_attributes (is_bundled : bool)
    (state_when_cancelled time_since_update_available_ms time_since_download_start_ms : Z) : Attributes :=
  [(_T "is_bundled", itostr (if is_bundled then 1 else 0));
   (_T "state_cancelled", itostr state_when_cancelled)] ++
  opt_attr (0 <=? time_since_update_available_ms) "time_since_update_available_ms"
    (itostr time_since_update_available_ms) ++
  opt_attr (0 <=? time_since_download_start_ms) "time_since_download_start_ms"
    (itostr time_since_download_start_ms).

Definition PingEventDownloadMetrics_attributes (m : DownloadMetrics) : Attributes :=
  [(_T "downloader", DownloaderToString (dm_downloader m));
   (_T "url", dm_url m);
   (_T "downloaded", String_Int64ToString (dm_downloaded_bytes m) 10);
   (_T "total", String_Int64ToString (dm_total_bytes m) 10);
   (_T "download_time_ms", String_Int64ToString (dm_download_time_ms m) 10)].

(** The virtual [ToXml]: a subclass adds its attributes after the base's. *)
Definition ToXml (add : Attributes -> CString -> CString -> HRESULT * Attributes)
    (p : PingEvent) (node : Attributes) : HRESULT * Attributes :=
  let '(hr, node') := add_attributes add (PingEvent_attributes p) node in
  if FAILED hr then (hr, node')
  else
    match ping_extra p with
    | ExtraNone => (hr, node')
    | ExtraCancel b s t1 t2 => add_attributes add (PingEventCancel_attributes b s t1 t2) node'
    | ExtraDownloadMetrics m => add_attributes add (PingEventDownloadMetrics_attributes m) node'
    end.

(** ** Update requests *)

Inductive ActiveStates := ACTIVE_NOTRUN | ACTIVE_RUN | ACTIVE_UNKNOWN.

#[export] Instance ActiveStates_eq_dec : EqDecision ActiveStates.
Proof. solve_decision. Defined.

Record RequestUpdateCheck := mkRequestUpdateCheck {
  ruc_is_valid : bool;
  ruc_is_update_disabled : bool;
  ruc_tt_token : CString;
  ruc_is_rollback_allowed : bool;
  ruc_target_version_prefix : CString;
  ruc_target_channel : CString
}.

Definition RequestUpdateCheck_default : RequestUpdateCheck :=
  mkRequestUpdateCheck false false [] false [] [].

Record RequestData := mkRequestData {
  rd_name : CString;
  rd_install_data_index : CString;
  rd_untrusted_data : CString
}.

Record RequestPing := mkRequestPing {
  rp_active : ActiveStates;
  rp_days_since_last_active_ping : Z;
  rp_days_since_last_roll_call : Z;
  rp_day_of_last_activity : Z;
  rp_day_of_last_roll_call : Z;
  rp_ping_freshness : CString
}.

Definition RequestPing_default : RequestPing := mkRequestPing ACTIVE_UNKNOWN 0 0 0 0 [].

Record RequestApp := mkRequestApp {
  ra_app_id : CString;
  ra_version : CString;
  ra_next_version : CString;
  ra_app_defined_attributes : list (CString * CString);
  ra_ap : CString;
  ra_lang : CString;
  ra_iid : CString;
  ra_brand_code : CString;
  ra_client_id : CString;
  ra_experiments : CString;
  ra_install_time_diff_sec : Z;
  ra_day_of_install : Z;
  ra_cohort : CString;
  ra_cohort_hint : CString;
  ra_cohort_name : CString;
  ra_update_check : RequestUpdateCheck;
  ra_data : list RequestData;
  ra_ping : RequestPing;
  ra_ping_events : list PingEvent
}.

Record Hw := mkHw {
  hw_physmemory : Z;
  hw_has_sse : bool;
  hw_has_sse2 : bool;
  hw_has_sse3 : bool;
  hw_has_ssse3 : bool;
  hw_has_sse41 : bool;
  hw_has_sse42 : bool;
  hw_has_avx : bool
}.

Record OS := mkOS {
  os_platform : CString;
  os_version : CString;
  os_service_pack : CString;
  os_arch : CString
}.

Record Request := mkRequest {
  rq_is_machine : bool;
  rq_uid : CString;
  rq_protocol_version : CString;
  rq_omaha_version : CString;
  rq_omaha_shell_version : CString;
  rq_install_source : CString;
  rq_origin_url : CString;
  rq_test_source : CString;
  rq_request_id : CString;
  rq_session_id : CString;
  rq_check_period_sec : Z;
  rq_dlpref : CString;
  rq_domain_joined : bool;
  rq_hw : Hw;
  rq_os : OS;
  rq_apps : list RequestApp
}.

(** What [UpdateRequest::Create] reads from its surroundings: the user id, the
    versions, the configuration, the processor and the operating system. *)
Record RequestEnv := mkRequestEnv {
  env_uid : bool -> CString;
  env_omaha_version : CString;
  env_shell_version : CString;
  env_test_source : CString;
  env_check_period_override : option Z;
  env_dlpref : CString;
  env_enterprise_managed : bool;
  env_physmemory : option Z;
  env_cpu : bool * bool * bool * bool * bool * bool * bool;
  env_os_version : CString;
  env_os_service_pack : CString;
  env_arch : CString
}.

(** [static_cast<uint32>(std::floor(0.5 + (double)physmemory / 2^30))]; the
    double arithmetic is exact below [2^52]. *)
Definition PhysmemoryGB (physmemory : Z) : Z := u32 ((physmemory + 2 ^ 29) / 2 ^ 30).

Definition UpdateRequest_Create (env : RequestEnv) (is_machine : bool)
    (session_id install_source origin_url request_id : CString) : Request :=
  let '(sse, sse2, sse3, ssse3, sse41, sse42, avx) := env_cpu env in
  mkRequest is_machine (env_uid env is_machine) (_T "3.0")
    (env_omaha_version env) (env_shell_version env) install_source origin_url
    (env_test_source env) request_id session_id
    (match env_check_period_override env with Some sec => sec | None => -1 end)
    (env_dlpref env) (env_enterprise_managed env)
    (mkHw (match env_physmemory env with Some b => PhysmemoryGB b | None => 0 end)
       sse sse2 sse3 ssse3 sse41 sse42 avx)
    (mkOS (_T "win") (env_os_version env) (env_os_service_pack env) (env_arch env))
    [].

Definition UpdateRequest_AddApp (r : Request) (app : RequestApp) : Request :=
  mkRequest (rq_is_machine r) (rq_uid r) (rq_protocol_version r) (rq_omaha_version r)
    (rq_omaha_shell_version r) (rq_install_source r) (rq_origin_url r) (rq_test_source r)
    (rq_request_id r) (rq_session_id r) (rq_check_period_sec r) (rq_dlpref r)
    (rq_domain_joined r) (rq_hw r) (rq_os r) (rq_apps r ++ [app]).

Definition UpdateRequest_has_tt_token (r : Request) : bool :=
  existsb (fun app => negb (IsEmpty (ruc_tt_token (ra_update_check app)))) (rq_apps r).

Fixpoint app_ids_from (first : bool) (apps : list RequestApp) : CString :=
  match apps with
  | [] => []
  | app :: apps' => (if first then [] else _T ",") ++ ra_app_id app ++ app_ids_from false apps'
  end.

Definition UpdateRequest_app_ids (r : Request) : CString := app_ids_from true (rq_apps r).

Definition UpdateRequest_IsEmpty (r : Request) : bool :=
  match rq_apps r with [] => true | _ => false end.

(** ** Update responses *)

Definition kStatusOkValue : CString := _T "ok".
Definition kStatusNoUpdate : CString := _T "noupdate".
Definition kStatusRestrictedExportCountry : CString := _T "restricted".
Definition kStatusHwNotSupported : CString := _T "error-hwnotsupported".
Definition kStatusOsNotSupported : CString := _T "error-osnotsupported".
Definition kStatusUnKnownApplication : CString := _T "error-UnKnownApplication".
Definition kStatusInternalError : CString := _T "error-internal".
Definition kStatusHashError : CString := _T "error-hash".
Definition kStatusUnsupportedProtocol : CString := _T "error-unsupportedprotocol".
Definition kInstallData : CString := _T "install".
Definition kUntrusted : CString := _T "untrusted".
Definition kPlatformWin : CString := _T "win".

Record InstallPackage := mkInstallPackage {
  ip_name : CString;
  ip_version : CString;
  ip_is_required : bool;
  ip_size : Z;
  ip_hash_sha1 : CString;
  ip_hash_sha256 : CString
}.

Inductive InstallEvent := kPreInstall | kInstall | kUpdate | kPostInstall.

#[export] Instance InstallEvent_eq_dec : EqDecision InstallEvent.
Proof. solve_decision. Defined.

Inductive SuccessfulInstallAction :=
| SUCCESS_ACTION_DEFAULT
| SUCCESS_ACTION_EXIT_SILENTLY
| SUCCESS_ACTION_EXIT_SILENTLY_ON_LAUNCH_CMD.

#[export] Instance SuccessfulInstallAction_eq_dec : EqDecision SuccessfulInstallAction.
Proof. solve_decision. Defined.

(** [install_event] is [None] for the default value 0, which is no event. *)
Record InstallAction := mkInstallAction {
  ia_install_event : option InstallEvent;
  ia_program_to_run : CString;
  ia_program_arguments : CString;
  ia_success_url : CString;
  ia_terminate_all_browsers : bool;
  ia_success_action : SuccessfulInstallAction
}.

Record InstallManifest := mkInstallManifest {
  im_name : CString;
  im_version : CString;
  im_packages : list InstallPackage;
  im_install_actions : list InstallAction
}.

Record ResponseUpdateCheck := mkResponseUpdateCheck {
  suc_status : CString;
  suc_tt_token : CString;
  suc_error_url : CString;
  suc_urls : list CString;
  suc_install_manifest : InstallManifest
}.

Record ResponseData := mkResponseData {
  sd_status : CString;
  sd_name : CString;
  sd_install_data_index : CString;
  sd_install_data : CString
}.

Record ResponseApp := mkResponseApp {
  sa_status : CString;
  sa_appid : CString;
  sa_experiments : CString;
  sa_cohort : CString;
  sa_cohort_hint : CString;
  sa_cohort_name : CString;
  sa_update_check : ResponseUpdateCheck;
  sa_data : list ResponseData;
  sa_ping_status : CString;
  sa_events : list CString
}.

Record SystemRequirements := mkSystemRequirements {
  sr_platform : CString;
  sr_arch : CString;
  sr_min_os_version : CString
}.

Record Response := mkResponse {
  rs_protocol : CString;
  rs_elapsed_seconds : Z;
  rs_elapsed_days : Z;
  rs_sys_req : SystemRequirements;
  rs_apps : list ResponseApp
}.

(** ** Facts *)

(** The memory reported is the nearest gigabyte: off by at most half of one. *)
Lemma PhysmemoryGB_nearest b :
  0 <= b < 2 ^ 52 -> - 2 ^ 29 <= PhysmemoryGB b * 2 ^ 30 - b <= 2 ^ 29.
Proof.
  intros Hb. unfold PhysmemoryGB.
  pose proof (Z.div_mod (b + 2 ^ 29) (2 ^ 30) ltac:(lia)).
  pose proof (Z.mod_pos_bound (b + 2 ^ 29) (2 ^ 30) ltac:(lia)).
  rewrite u32_small by lia. lia.
Qed.

(** When no call fails, the attributes are appended in order. *)
Lemma add_attributes_ok add todo node :
  (forall n k v, add n k v = (S_OK, n ++ [(k, v)])) ->
  add_attributes add todo node = (S_OK, node ++ todo).
Proof.
  intros Hadd. revert node. induction todo as [|[k v] todo IH]; intros node; simpl.
  - by rewrite app_nil_r.
  - rewrite Hadd. simpl. rewrite IH. by rewrite <- app_assoc.
Qed.
