(* ===== verification/Cup.v ===== *)
(** Authentication of the server's responses (CUP-ECDSA):
    omaha/net/cup_ecdsa_utils.cc and cup_ecdsa_request.cc.

    A pointer into a buffer is the rest of the buffer from there; a decoder that
    returns NULL returns [None]. The request that is wrapped, the source of
    randomness and the conversions of Windows are parameters. *)

From S2P Require Import Prelude Hresult CStrings Text Sha256 Base64 Files P256 P256Ecdsa.

(** ** Hashes *)

Definition SHA256_DIGEST_SIZE : nat := 32.
Definition kMaxLen : Z := 2 ^ 31 - 1.

(** [SafeSHA256Hash] writes to its output only if it returns true; the content of
    the context before its initialization does not matter. *)
Definition SafeSHA256Hash (data : list Z) : option (list Z) :=
  let len := Z.of_nat (length data) in
  if (len <=? 0) || (kMaxLen <? len) then None else Some (SHA256_hash (replicate 64 0) data).

(** ** Signatures *)

Record EcdsaSignature := mkSignature { r_ : p256_int; s_ : p256_int }.
Definition EcdsaSignature_init : EcdsaSignature := mkSignature P256_ZERO P256_ZERO.

(** The integer and the byte that follows it. *)
Definition DecodeDerInt256 (buffer : list Z) : option (p256_int * list Z) :=
  match buffer with
  | kTag :: int_data_len :: int_data =>
      if Z.of_nat (length buffer) <=? 2 then None
      else if negb (kTag =? 0x02) then None
      else if (33 <? int_data_len) || (int_data_len <? 1) then None
      else if Z.of_nat (length int_data) <? int_data_len then None
      else
        let finish (int_data : list Z) (int_data_len : Z) :=
          if Z.of_nat P256_NBYTES <? int_data_len then None
          else
            let len := Z.to_nat int_data_len in
            let padded := replicate (P256_NBYTES - len) 0 ++ take len int_data in
            Some (p256_from_bin padded, drop len int_data) in
        if negb (nth 0 int_data 0 =? 0) then
          if Z.land (nth 0 int_data 0) 0x80 =? 0x80 then None else finish int_data int_data_len
        else if 1 <? int_data_len then
          if negb (Z.land (nth 1 int_data 0) 0x80 =? 0x80) then None
          else finish (drop 1 int_data) (int_data_len - 1)
        else finish int_data int_data_len
  | _ => None
  end.

(** The two integers are stored as they are decoded; [DecodeFromBuffer] clears
    them on failure. *)
Definition DoDecodeFromBuffer (asn1der : list Z) (sig : EcdsaSignature) : bool * EcdsaSignature :=
  let size := Z.of_nat (length asn1der) in
  if (size <? 8) || (72 <? size) then (false, sig)
  else
    let tag := nth 0 asn1der 0 in
    if negb (tag =? 0x30) then (false, sig)
    else
      let sequence_len := nth 1 asn1der 0 in
      if negb (sequence_len =? size - 2) then (false, sig)
      else
        match DecodeDerInt256 (drop 2 asn1der) with
        | None => (false, sig)
        | Some (r, second_int_begin) =>
            match DecodeDerInt256 second_int_begin with
            | Some (s, second_int_end) => (bool_decide (second_int_end = []), mkSignature r s)
            | None => (false, mkSignature r (s_ sig))
            end
        end.
Definition EcdsaSignature_DecodeFromBuffer (asn1der : list Z) (sig : EcdsaSignature) : bool * EcdsaSignature :=
  let '(result, sig) := DoDecodeFromBuffer asn1der sig in
  if result then (true, sig) else (false, EcdsaSignature_init).

(** ** Public keys *)

Record EcdsaPublicKey := mkPublicKey { version_ : Z; gx_ : p256_int; gy_ : p256_int }.

Definition EcdsaPublicKey_DecodeFromBuffer (encoded_pkey_in : list Z) : EcdsaPublicKey :=
  mkPublicKey (nth 0 encoded_pkey_in 0) (p256_from_bin (drop 2 encoded_pkey_in)) (p256_from_bin (drop (2 + P256_NBYTES) encoded_pkey_in)).

(** [None] is a return of false, after which the key is indeterminate. *)
Definition DecodeSubjectPublicKeyInfo (spki : list Z) : option (p256_int * p256_int) :=
  let size := Z.of_nat (length spki) in
  let byte i := nth i spki 0 in
  if negb (byte 0%nat =? 0x30) then None
  else if negb (byte 1%nat =? size - 2) then None
  else if negb (byte 2%nat =? 0x30) then None
  else
    let object_identifiers_len := byte 3%nat in
    if negb (object_identifiers_len + Z.of_nat P256_NBYTES * 2 + 8 =? size) then None
    else
      let pkey_begin := drop (2 + (2 + Z.to_nat object_identifiers_len)) spki in
      if negb (nth 0 pkey_begin 0 =? 0x03) then None
      else if negb (nth 1 pkey_begin 0 =? Z.of_nat P256_NBYTES * 2 + 2) then None
      else
        let encoded_pkey_in := drop 2 pkey_begin in
        if negb (nth 0 encoded_pkey_in 0 =? 0) then None
        else if negb (nth 1 encoded_pkey_in 0 =? 0x04) then None
        else
          let gx := p256_from_bin (drop 2 encoded_pkey_in) in
          let gy := p256_from_bin (drop (2 + P256_NBYTES) encoded_pkey_in) in
          if p256_is_valid_point gx gy then Some (gx, gy) else None.

(** The buffer is hashed before it is compared; a false return of the hash leaves
    an empty digest, which an assertion excludes. *)
Definition VerifyEcdsaSignature (public_key : EcdsaPublicKey) (buffer : list Z) (signature : EcdsaSignature) : bool :=
  let digest := default [] (SafeSHA256Hash buffer) in
  let digest_as_int := p256_from_bin digest in
  default false (p256_ecdsa_verify (gx_ public_key) (gy_ public_key) digest_as_int (r_ signature) (s_ signature)).

Definition kCupProductionPublicKey : list Z :=
  [0x02; 0x04;
   0x29; 0x3e; 0x29; 0xa6; 0x00; 0x8b; 0x36; 0x14; 0xdb; 0x54; 0x4f; 0x1d; 0x5d; 0xc1; 0x70; 0x2f;
   0x31; 0xdc; 0xab; 0xcf; 0xd1; 0x7e; 0x3f; 0x97; 0x5a; 0x6b; 0xc3; 0xe8; 0x6c; 0x80; 0x91; 0xd4;
   0xd4; 0xa8; 0x3a; 0x22; 0xb2; 0x63; 0xd2; 0x12; 0x2d; 0x8f; 0x19; 0x8a; 0x5f; 0x85; 0x42; 0x1f;
   0xef; 0x87; 0x8a; 0x60; 0x52; 0xf1; 0xf6; 0x3c; 0xe1; 0x35; 0xee; 0x8f; 0x30; 0x79; 0xdd; 0x09].
Definition kCupTestPublicKey : list Z :=
  [0x03; 0x04;
   0x19; 0x3e; 0x1b; 0xa3; 0x6b; 0xfd; 0x7c; 0x4a; 0x30; 0xec; 0x5d; 0xf3; 0x75; 0x2a; 0xf8; 0x77;
   0x39; 0x45; 0x23; 0x1e; 0x9e; 0xb6; 0x8e; 0x44; 0x1c; 0x74; 0xc2; 0x9a; 0xce; 0xb8; 0x5c; 0x87;
   0x43; 0x87; 0xa5; 0x25; 0x47; 0x07; 0xc0; 0x08; 0xaa; 0x10; 0x97; 0xc5; 0x79; 0x27; 0x83; 0x87;
   0x37; 0x37; 0x4f; 0x13; 0x7e; 0x63; 0xfd; 0x80; 0x70; 0x23; 0x08; 0xa1; 0xa7; 0x7f; 0xae; 0x49].

(** ** Requests *)

Definition OMAHA_NET_E_CUP_NO_SERVER_PROOF : HRESULT := MAKE_HRESULT SEVERITY_ERROR FACILITY_ITF 0x880.
Definition OMAHA_NET_E_CUP_NO_ENTROPY : HRESULT := MAKE_HRESULT SEVERITY_ERROR FACILITY_ITF 0x884.
Definition OMAHA_NET_E_CUP_ECDSA_CORRUPT_ETAG : HRESULT := MAKE_HRESULT SEVERITY_ERROR FACILITY_ITF 0x885.
Definition OMAHA_NET_E_CUP_ECDSA_NOT_TRUSTED_REQUEST : HRESULT := MAKE_HRESULT SEVERITY_ERROR FACILITY_ITF 0x886.
Definition OMAHA_NET_E_CUP_ECDSA_NOT_TRUSTED_SIGNATURE : HRESULT := MAKE_HRESULT SEVERITY_ERROR FACILITY_ITF 0x887.

Definition HTTP_STATUS_OK : Z := 200.
Definition HTTP_STATUS_PARTIAL_CONTENT : Z := 206.
Definition WINHTTP_QUERY_ETAG : Z := 54.
Definition WINHTTP_QUERY_CUSTOM : Z := 65535.
Definition kHeaderXETag : CString := _T "X-Cup-Server-Proof".
Definition kWeakETagPrefix : CString := _T "W/".

(** [HttpRequestInterface]: the request that is wrapped, as an object [H]. *)
Class HttpRequest (H : Type) := {
  http_set_url : CString -> H -> H;
  http_set_request_buffer : list Z -> H -> H;
  http_Send : H -> HRESULT * H;
  http_GetResponse : H -> list Z;
  http_GetHttpStatusCode : H -> Z;
  http_QueryHeadersString : H -> Z -> CString -> HRESULT * CString
}.
(** [RandBytes] of 32 bytes by the number of the call, and the conversions; ASCII
    text is its own encoding in UTF-8. *)
Class CupSystem := {
  RandBytes : nat -> option (list Z);
  cup_Utf8BufferToWideChar : list Z -> CString;
  cup_WideToUtf8 : CString -> list Z;
  cup_CharUpper : Z -> Z;
  IsUsingCupTestKeys : bool;
  RandBytes_size : forall k nonce, RandBytes k = Some nonce -> length nonce = 32%nat /\ Forall is_byte nonce;
  cup_WideToUtf8_ascii : forall s, Forall (fun c => 0 < c < 128) s -> cup_WideToUtf8 s = s
}.

Record TransientCupState := mkCup {
  request_hash : list Z;
  cup2key : CString;
  cup2hreq : CString;
  cup_request_url : CString;
  cup_response : list Z;
  etag : CString;
  signature : EcdsaSignature;
  observed_hash : list Z
}.
Definition TransientCupState_init : TransientCupState := mkCup [] [] [] [] [] [] EcdsaSignature_init [].

Record CupMetrics := mkMetrics {
  cup_ecdsa_total : Z;
  cup_ecdsa_trusted : Z;
  cup_ecdsa_captive_portal : Z;
  cup_ecdsa_no_etag : Z;
  cup_ecdsa_malformed_etag : Z;
  cup_ecdsa_request_hash_mismatch : Z;
  cup_ecdsa_signature_mismatch : Z;
  cup_ecdsa_http_failure : Z;
  cup_ecdsa_other_errors : Z
}.
Inductive CupMetric := MTotal | MTrusted | MCaptivePortal | MNoEtag | MMalformedEtag | MHashMismatch | MSignatureMismatch | MHttpFailure | MOtherErrors.
Definition count (m : CupMetric) (c : CupMetrics) : CupMetrics :=
  let '(mkMetrics t tr cp ne me hm sm hf oe) := c in
  match m with
  | MTotal => mkMetrics (t + 1) tr cp ne me hm sm hf oe
  | MTrusted => mkMetrics t (tr + 1) cp ne me hm sm hf oe
  | MCaptivePortal => mkMetrics t tr (cp + 1) ne me hm sm hf oe
  | MNoEtag => mkMetrics t tr cp (ne + 1) me hm sm hf oe
  | MMalformedEtag => mkMetrics t tr cp ne (me + 1) hm sm hf oe
  | MHashMismatch => mkMetrics t tr cp ne me (hm + 1) sm hf oe
  | MSignatureMismatch => mkMetrics t tr cp ne me hm (sm + 1) hf oe
  | MHttpFailure => mkMetrics t tr cp ne me hm sm (hf + 1) oe
  | MOtherErrors => mkMetrics t tr cp ne me hm sm hf (oe + 1)
  end.

(** The object: [url_], the request body ([None] for the null pointer), the state
    of the current request, the wrapped request; and the metrics and the number of
    random draws. *)
Record CupSt (H : Type) := mkCupSt {
  cup_ : option TransientCupState;
  url_ : CString;
  request_buffer_ : option (list Z);
  http_request_ : H;
  metrics : CupMetrics;
  draws : nat
}.
Arguments mkCupSt {H}.
Arguments cup_ {H}.
Arguments url_ {H}.
Arguments request_buffer_ {H}.
Arguments http_request_ {H}.
Arguments metrics {H}.
Arguments draws {H}.

(** [BytesToHex]. *)
Definition kHexChars : CString := _T "0123456789abcdef".
Definition BytesToHex (bytes : list Z) : CString :=
  concat ((fun b => [nth (Z.to_nat (Z.shiftr b 4)) kHexChars 0; nth (Z.to_nat (Z.land b 0xf)) kHexChars 0]) <$> bytes).

(** [UnenclosePath] (omaha/base/path.cc). *)
Definition UnenclosePath (path : CString) : CString :=
  if (1 <? GetLength path) && (nth 0 path 0 =? 34) then
    if nth (length path - 1) path 0 =? 34 then let path := drop 1 path in take (length path - 1) path else path
  else path.

(** [WebSafeBase64Escape(src, szsrc, dest, false)]. *)
Definition WebSafeBase64EscapeNoPadding (src : list Z) : CString :=
  let max_escaped_size := CalculateBase64EscapedLen (Z.of_nat (length src)) false in
  Base64EscapeInternal kWebSafeBase64Chars false src (max_escaped_size + 1).

(** The signature and the hash are written only as far as the code gets. *)
Definition ParseServerETag (etag_in : CString) (sig_out : EcdsaSignature) (req_hash_out : list Z) : bool * EcdsaSignature * list Z :=
  let etag := if String_StartsWith etag_in kWeakETagPrefix true then drop 2 etag_in else etag_in in
  let etag := UnenclosePath etag in
  match ParseNameValuePair etag 58 with
  | None => (false, sig_out, req_hash_out)
  | Some (sig_str, req_hash_str) =>
      if negb (GetLength req_hash_str =? 256 / 4) then (false, sig_out, req_hash_out)
      else
        match SafeHexStringToVector sig_str with
        | None => (false, sig_out, req_hash_out)
        | Some sig_bytes =>
            match SafeHexStringToVector req_hash_str with
            | None => (false, sig_out, req_hash_out)
            | Some req_hash_bytes =>
                let '(decoded, sig) := EcdsaSignature_DecodeFromBuffer sig_bytes sig_out in
                if decoded then (true, sig, req_hash_bytes) else (false, sig, req_hash_out)
            end
        end
  end.

Section Request.
Context {H : Type} `{!HttpRequest H} `{!CupSystem}.

Abbreviation CupM := (St (CupSt H)).

(** The key is chosen when the object is constructed and stays. *)
Definition public_key_ : EcdsaPublicKey :=
  EcdsaPublicKey_DecodeFromBuffer (if IsUsingCupTestKeys then kCupTestPublicKey else kCupProductionPublicKey).

Definition set_url (url : CString) (st : CupSt H) : CupSt H :=
  mkCupSt (cup_ st) url (request_buffer_ st) (http_request_ st) (metrics st) (draws st).
Definition set_request_buffer (buffer : list Z) (st : CupSt H) : CupSt H :=
  mkCupSt (cup_ st) (url_ st) (Some buffer) (http_set_request_buffer buffer (http_request_ st)) (metrics st) (draws st).

Definition metric (m : CupMetric) : CupM unit :=
  modify (fun st => mkCupSt (cup_ st) (url_ st) (request_buffer_ st) (http_request_ st) (count m (metrics st)) (draws st)).
Definition set_cup (c : TransientCupState) : CupM unit :=
  modify (fun st => mkCupSt (Some c) (url_ st) (request_buffer_ st) (http_request_ st) (metrics st) (draws st)).
Definition set_http (h : H) : CupM unit :=
  modify (fun st => mkCupSt (cup_ st) (url_ st) (request_buffer_ st) h (metrics st) (draws st)).
Definition get_cup : CupM TransientCupState := gets (fun st => default TransientCupState_init (cup_ st)).
Definition draw : CupM (option (list Z)) :=
  fun st => (RandBytes (draws st), mkCupSt (cup_ st) (url_ st) (request_buffer_ st) (http_request_ st) (metrics st) (S (draws st))).

Definition WideToUtf8Vector (wstr : CString) : list Z := if IsEmpty wstr then [] else cup_WideToUtf8 wstr.

(** The values of the query parameters and the address. *)
Definition cup2key_of (nonce : list Z) : CString := decimal (version_ public_key_) ++ _T ":" ++ WebSafeBase64EscapeNoPadding nonce.
Definition request_url_of (url cup2key cup2hreq : CString) : CString :=
  url ++ (if negb (Find url (_T "?") 0 =? -1) then _T "&" else _T "?") ++ _T "cup2key=" ++ cup2key ++ _T "&cup2hreq=" ++ cup2hreq.

Definition BuildRequest : CupM HRESULT :=
  nonce ← draw;
  match nonce with
  | None => metric MOtherErrors;; mret OMAHA_NET_E_CUP_NO_ENTROPY
  | Some nonce =>
      cup ← get_cup;
      buffer ← gets request_buffer_;
      url ← gets url_;
      let request_hash := default (request_hash cup) (SafeSHA256Hash (default [] buffer)) in
      let cup2key := cup2key_of nonce in
      let cup2hreq := BytesToHex request_hash in
      set_cup (mkCup request_hash cup2key cup2hreq (request_url_of url cup2key cup2hreq)
        (cup_response cup) (etag cup) (signature cup) (observed_hash cup));;
      mret S_OK
  end.

Definition DoSend : CupM HRESULT :=
  cup ← get_cup;
  h ← gets http_request_;
  let '(hr, h) := http_Send (http_set_url (cup_request_url cup) h) in
  set_http h;;
  if FAILED hr then metric MHttpFailure;; mret hr
  else
    let cup := mkCup (request_hash cup) (cup2key cup) (cup2hreq cup) (cup_request_url cup) (http_GetResponse h) (etag cup)
      (signature cup) (observed_hash cup) in
    set_cup cup;;
    let status_code := http_GetHttpStatusCode h in
    if negb (status_code =? HTTP_STATUS_OK) && negb (status_code =? HTTP_STATUS_PARTIAL_CONTENT)
    then metric MHttpFailure;; mret (HRESULTFromHttpStatusCode status_code)
    else
      let etag_header := (http_QueryHeadersString h WINHTTP_QUERY_CUSTOM kHeaderXETag).2 in
      let etag_header := if IsEmpty etag_header then (http_QueryHeadersString h WINHTTP_QUERY_ETAG []).2 else etag_header in
      set_cup (mkCup (request_hash cup) (cup2key cup) (cup2hreq cup) (cup_request_url cup) (cup_response cup) etag_header
        (signature cup) (observed_hash cup));;
      mret S_OK.

Definition AuthenticateResponse : CupM HRESULT :=
  cup ← get_cup;
  if IsEmpty (etag cup) then
    let response_as_string := cup_Utf8BufferToWideChar (cup_response cup) in
    if negb (stristrW cup_CharUpper response_as_string (_T "<response")) && stristrW cup_CharUpper response_as_string (_T "<html")
    then metric MCaptivePortal;; mret OMAHA_NET_E_CAPTIVEPORTAL
    else metric MNoEtag;; mret OMAHA_NET_E_CUP_NO_SERVER_PROOF
  else
    let response_hash := default [] (SafeSHA256Hash (cup_response cup)) in
    let '(parsed, sig, observed) := ParseServerETag (etag cup) (signature cup) (observed_hash cup) in
    set_cup (mkCup (request_hash cup) (cup2key cup) (cup2hreq cup) (cup_request_url cup) (cup_response cup) (etag cup) sig observed);;
    if negb parsed then metric MMalformedEtag;; mret OMAHA_NET_E_CUP_ECDSA_CORRUPT_ETAG
    else if negb (Nat.eqb (length observed) SHA256_DIGEST_SIZE) then mret OMAHA_NET_E_CUP_ECDSA_CORRUPT_ETAG
    else if negb (Nat.eqb (length (request_hash cup)) SHA256_DIGEST_SIZE) then mret E_UNEXPECTED
    else if negb (bool_decide (observed = request_hash cup))
    then metric MHashMismatch;; mret OMAHA_NET_E_CUP_ECDSA_NOT_TRUSTED_REQUEST
    else
      let signed_message := request_hash cup ++ response_hash ++ WideToUtf8Vector (cup2key cup) in
      let digest := default [] (SafeSHA256Hash signed_message) in
      if negb (VerifyEcdsaSignature public_key_ digest sig)
      then metric MSignatureMismatch;; mret OMAHA_NET_E_CUP_ECDSA_NOT_TRUSTED_SIGNATURE
      else metric MTrusted;; mret S_OK.

Definition Cup_Send : CupM HRESULT :=
  metric MTotal;;
  set_cup TransientCupState_init;;
  hr ← BuildRequest;
  if FAILED hr then mret hr
  else
    hr ← DoSend;
    if FAILED hr then mret hr else AuthenticateResponse.

End Request.
