(* ===== verification/CupFacts.v ===== *)
(** Authentication of responses: the decoder of signatures accepts exactly the DER
    encodings, and a request succeeds exactly if the server has signed the request,
    the response and the nonce. *)

From S2P Require Import Prelude Hresult CStrings Text Sha256 Base64 Files P256 P256Facts P256Ecdsa Cup.

(** ** DER integers *)

Abbreviation is_bytes := (Forall (fun b => 0 <= b < 256)).

(** The encoding of a non-negative INTEGER (X.690, 8.3): the content is the number
    in big-endian two's complement, in as few bytes as possible. *)
Definition der_integer (tlv : list Z) (z : Z) : Prop :=
  exists content, tlv = 0x02 :: Z.of_nat (length content) :: content /\ is_bytes content /\ content <> [] /\
    nth 0 content 0 < 128 /\ ((1 < length content)%nat -> nth 0 content 0 = 0 -> 128 <= nth 1 content 0) /\ big_endian content = z.

Lemma big_endian_zeros k l : big_endian (replicate k 0 ++ l) = big_endian l.
Proof. unfold big_endian. rewrite foldl_app. induction k as [|k IH]; [done|]. done. Qed.
Lemma big_endian_cons b l : big_endian (b :: l) = 256 ^ Z.of_nat (length l) * b + big_endian l.
Proof. change (b :: l) with ([b] ++ l). by rewrite big_endian_app. Qed.
Lemma big_endian_bound l : is_bytes l -> 0 <= big_endian l < 256 ^ Z.of_nat (length l).
Proof.
  induction 1 as [|b l Hb Hl IH]; [done|]. rewrite big_endian_cons. cbn [length]. rewrite Nat2Z.inj_succ, Z.pow_succ_r by lia. nia.
Qed.

(** At most 32 bytes, padded on the left, are the number they stand for. *)
Lemma padded_spec l : is_bytes l -> (length l <= 32)%nat ->
  number (p256_from_bin (replicate (P256_NBYTES - length l) 0 ++ l)) /\ val (p256_from_bin (replicate (P256_NBYTES - length l) 0 ++ l)) = big_endian l.
Proof.
  intros Hb Hl. set (pad := replicate (P256_NBYTES - length l) 0 ++ l). assert (length pad = 32%nat) as Hp.
  { unfold pad, P256_NBYTES. rewrite length_app, length_replicate. lia. }
  destruct (p256_from_bin_spec pad) as [Hn Hv].
  - unfold pad. apply Forall_app. split; [|done]. by apply Forall_replicate.
  - lia.
  - split; [done|]. rewrite Hv, take_ge by lia. apply big_endian_zeros.
Qed.

Lemma msb_set b : 0 <= b < 256 -> (Z.land b 0x80 =? 0x80) = (128 <=? b).
Proof.
  intros Hb. assert (forallb (fun b => Bool.eqb (Z.land b 0x80 =? 0x80) (128 <=? b)) (seqZ 0 256) = true) as Hall by (vm_compute; reflexivity).
  rewrite forallb_forall in Hall. apply Bool.eqb_prop, Hall, list_elem_of_In, elem_of_seqZ. lia.
Qed.

(** The value bounds the length of a minimal encoding. *)
Lemma content_short content : is_bytes content -> content <> [] ->
  ((1 < length content)%nat -> nth 0 content 0 = 0 -> 128 <= nth 1 content 0) -> big_endian content < 2 ^ 256 ->
  (length content <= 33)%nat /\ (nth 0 content 0 <> 0 -> (length content <= 32)%nat).
Proof.
  intros Hb Hne Hmin Hv. destruct content as [|c0 content]; [done|]. apply Forall_cons in Hb as [Hc0 Hb]. cbn [nth length] in *.
  assert (forall l, is_bytes l -> forall b, 1 <= b -> big_endian (b :: l) < 2 ^ 256 -> (length l < 32)%nat) as Hshort.
  { intros l Hl b Hb1 Hlt. rewrite big_endian_cons in Hlt. pose proof (big_endian_bound l Hl). destruct (decide (length l < 32)%nat) as [|Hge]; [done|exfalso].
    assert (256 ^ 32 <= 256 ^ Z.of_nat (length l)) by (apply Z.pow_le_mono_r; lia). change (2 ^ 256) with (256 ^ 32) in Hlt. nia. }
  destruct (Z.eq_dec c0 0) as [->|Hn].
  - split; [|done]. destruct content as [|c1 content]; [cbn; lia|]. apply Forall_cons in Hb as [Hc1 Hb]. specialize (Hmin ltac:(cbn; lia) eq_refl). cbn in Hmin.
    pose proof (Hshort content Hb c1 ltac:(lia)) as Hs. rewrite big_endian_cons, Z.mul_0_r in Hv. cbn [length]. specialize (Hs Hv). lia.
  - pose proof (Hshort content Hb c0 ltac:(lia) Hv). lia.
Qed.

Ltac bytes := rewrite ?Forall_cons; split_and!; first [done|lia|by apply Forall_nil].

(** The last step of the decoder, on the bytes without the leading zero. *)
Definition finish_int (int_data : list Z) (int_data_len : Z) : option (p256_int * list Z) :=
  if Z.of_nat P256_NBYTES <? int_data_len then None
  else
    let len := Z.to_nat int_data_len in
    Some (p256_from_bin (replicate (P256_NBYTES - len) 0 ++ take len int_data), drop len int_data).

Lemma finish_spec content rest : is_bytes content -> (length content <= 32)%nat ->
  exists x, finish_int (content ++ rest) (Z.of_nat (length content)) = Some (x, rest) /\ number x /\ val x = big_endian content.
Proof.
  intros Hb Hl. unfold finish_int. rewrite (proj2 (Z.ltb_ge _ _)) by (unfold P256_NBYTES; lia). rewrite Nat2Z.id, take_app_length, drop_app_length. cbv zeta.
  destruct (padded_spec content Hb Hl) as [Hn Hv]. eexists. split; [reflexivity|]. done.
Qed.
Lemma finish_inv data len x rest : is_bytes data -> 0 <= len <= Z.of_nat (length data) -> finish_int data len = Some (x, rest) ->
  exists content, data = content ++ rest /\ len = Z.of_nat (length content) /\ len <= 32 /\ number x /\ val x = big_endian content.
Proof.
  intros Hb Hl. unfold finish_int. destruct (Z.ltb_spec (Z.of_nat P256_NBYTES) len) as [|Hle]; [done|]. unfold P256_NBYTES in Hle.
  intros [= <- <-]. exists (take (Z.to_nat len) data). assert (length (take (Z.to_nat len) data) = Z.to_nat len) as Hlen by (rewrite length_take; lia).
  assert (is_bytes (take (Z.to_nat len) data)) as Hbt by (by apply Forall_take). destruct (padded_spec _ Hbt ltac:(lia)) as [Hn Hv].
  rewrite Hlen in Hn, Hv. split_and!; [by rewrite take_drop|lia|lia|done|done].
Qed.

Lemma DecodeDerInt256_eq len data : DecodeDerInt256 (0x02 :: len :: data) =
  if Z.of_nat (length data) <=? 0 then None
  else if (33 <? len) || (len <? 1) then None
  else if Z.of_nat (length data) <? len then None
  else if negb (nth 0 data 0 =? 0) then if Z.land (nth 0 data 0) 0x80 =? 0x80 then None else finish_int data len
  else if 1 <? len then if negb (Z.land (nth 1 data 0) 0x80 =? 0x80) then None else finish_int (drop 1 data) (len - 1)
  else finish_int data len.
Proof.
  cbn [DecodeDerInt256 length]. rewrite !Nat2Z.inj_succ. destruct (Z.leb_spec (Z.of_nat (length data)) 0).
  - by rewrite (proj2 (Z.leb_le _ _)) by lia.
  - by rewrite (proj2 (Z.leb_gt _ _)) by lia.
Qed.

Lemma decode_complete content rest : is_bytes content -> content <> [] -> nth 0 content 0 < 128 ->
  ((1 < length content)%nat -> nth 0 content 0 = 0 -> 128 <= nth 1 content 0) -> big_endian content < 2 ^ 256 ->
  exists x, DecodeDerInt256 (0x02 :: Z.of_nat (length content) :: content ++ rest) = Some (x, rest) /\ number x /\ val x = big_endian content.
Proof.
  intros Hb Hne H0 Hmin Hv. destruct (content_short content Hb Hne Hmin Hv) as [H33 H32]. rewrite DecodeDerInt256_eq, length_app.
  destruct content as [|c0 content]; [done|]. cbn [length nth app] in *. apply Forall_cons in Hb as [Hc0 Hb].
  rewrite (proj2 (Z.leb_gt _ _)), (proj2 (Z.ltb_ge 33 _)), (proj2 (Z.ltb_ge _ 1)), (proj2 (Z.ltb_ge _ (Z.of_nat (S (length content))))) by lia. cbn [orb].
  rewrite msb_set, (proj2 (Z.leb_gt 128 c0)) by lia. destruct (Z.eqb_spec c0 0) as [->|Hn]; cbn [negb].
  - destruct content as [|c1 content].
    + apply (finish_spec [0] rest); [bytes|cbn; lia].
    + specialize (Hmin ltac:(cbn; lia) eq_refl). cbn [length nth app drop] in *. apply Forall_cons in Hb as [Hc1 Hb].
      rewrite (proj2 (Z.ltb_lt _ _)), msb_set, (proj2 (Z.leb_le _ _)) by lia. cbn [negb].
      replace (Z.of_nat (S (S (length content))) - 1) with (Z.of_nat (length (c1 :: content))) by (cbn [length]; lia).
      rewrite big_endian_cons, Z.mul_0_r. apply (finish_spec (c1 :: content) rest); [by constructor|cbn [length]; lia].
  - apply (finish_spec (c0 :: content) rest); [by constructor|]. cbn [length]. auto.
Qed.

Lemma decode_sound buffer x rest : is_bytes buffer -> DecodeDerInt256 buffer = Some (x, rest) ->
  exists tlv, buffer = tlv ++ rest /\ der_integer tlv (val x) /\ number x.
Proof.
  intros Hb Hd. destruct buffer as [|t [|len data]]; try done. destruct (Z.eq_dec t 2) as [->|Ht].
  2: { cbn [DecodeDerInt256] in Hd. destruct (_ <=? _) in Hd; [done|]. by rewrite (proj2 (Z.eqb_neq _ _) Ht) in Hd. }
  rewrite DecodeDerInt256_eq in Hd. rewrite !Forall_cons in Hb. destruct Hb as (_ & Hlen & Hb).
  destruct (Z.leb_spec (Z.of_nat (length data)) 0); [done|]. destruct (Z.ltb_spec 33 len); [done|]. destruct (Z.ltb_spec len 1); [done|].
  cbn [orb] in Hd. destruct (Z.ltb_spec (Z.of_nat (length data)) len); [done|]. destruct data as [|c0 data]; [cbn in *; lia|]. cbn [nth] in Hd.
  apply Forall_cons in Hb as Hb'. destruct Hb' as [Hc0 Hb']. rewrite msb_set in Hd by done.
  destruct (Z.eqb_spec c0 0) as [->|Hn]; cbn [negb] in Hd.
  - destruct (Z.ltb_spec 1 len).
    + destruct data as [|c1 data]; [cbn in *; lia|]. apply Forall_cons in Hb' as Hb2. destruct Hb2 as [Hc1 Hb2]. cbn [drop nth] in Hd. rewrite msb_set in Hd by done.
      destruct (Z.leb_spec 128 c1); cbn [negb] in Hd; [|done]. apply finish_inv in Hd as (content & He & Hl & Hle & Hnx & Hvx); [|done|cbn [length] in *; lia].
      destruct content as [|d1 content]; [cbn in *; lia|]. injection He as <- ->. exists (2 :: len :: 0 :: c1 :: content).
      split; [done|]. split; [|done]. exists (0 :: c1 :: content). cbn [length nth] in *. split_and!; try done; try lia.
      * f_equal. f_equal. lia.
      * apply Forall_app in Hb2 as [Hb2 _]. bytes.
    + apply finish_inv in Hd as (content & He & Hl & Hle & Hnx & Hvx); [|done|cbn [length] in *; lia].
      destruct content as [|d0 [|d1 content]]; cbn [length] in *; try lia. injection He as <- ->. exists [2; len; 0]. split; [done|]. split; [|done].
      exists [0]. cbn [length nth]. split_and!; try done; try lia; [by f_equal; f_equal; lia|bytes].
  - destruct (Z.leb_spec 128 c0); [done|]. apply finish_inv in Hd as (content & He & Hl & Hle & Hnx & Hvx); [|done|cbn [length] in *; lia].
    destruct content as [|d0 content]; [cbn in *; lia|]. injection He as <- ->. exists (2 :: len :: c0 :: content). split; [done|]. split; [|done].
    exists (c0 :: content). cbn [length nth] in *. split_and!; try done; try lia; [by f_equal; f_equal|].
    apply Forall_app in Hb' as [Hb' _]. by constructor.
Qed.

(** The encoding of a signature (RFC 3279): SEQUENCE { r INTEGER, s INTEGER }. *)
Definition der_signature (asn1der : list Z) (sig : EcdsaSignature) : Prop :=
  number (r_ sig) /\ number (s_ sig) /\
  exists tr ts, asn1der = 0x30 :: Z.of_nat (length (tr ++ ts)) :: tr ++ ts /\ der_integer tr (val (r_ sig)) /\ der_integer ts (val (s_ sig)).

Lemma der_integer_length tlv z : der_integer tlv z -> z < 2 ^ 256 -> (3 <= length tlv <= 35)%nat.
Proof.
  intros (content & -> & Hb & Hne & H0 & Hmin & Hv) Hz. subst z. destruct (content_short content Hb Hne Hmin Hz) as [H33 _].
  destruct content; [done|]. cbn [length] in *. lia.
Qed.
Lemma der_integer_decodes tlv x rest : der_integer tlv (val x) -> number x -> DecodeDerInt256 (tlv ++ rest) = Some (x, rest).
Proof.
  intros (content & -> & Hb & Hne & H0 & Hmin & Hv) Hx. pose proof (number_bound x Hx).
  destruct (decode_complete content rest Hb Hne H0 Hmin ltac:(lia)) as (y & He & Hy & Hvy). cbn [app]. rewrite He. do 2 f_equal.
  apply number_inj; [done|done|lia].
Qed.

Lemma DoDecodeFromBuffer_sound b sig sig' : is_bytes b -> DoDecodeFromBuffer b sig = (true, sig') -> der_signature b sig'.
Proof.
  intros Hb. unfold DoDecodeFromBuffer. destruct (Z.ltb_spec (Z.of_nat (length b)) 8); [done|]. destruct (Z.ltb_spec 72 (Z.of_nat (length b))); [done|]. cbn [orb].
  destruct b as [|t [|len data]]; [cbn in *; lia|cbn in *; lia|]. cbn [nth drop]. rewrite ?drop_0. rewrite !Forall_cons in Hb. destruct Hb as (_ & _ & Hb).
  destruct (Z.eqb_spec t 0x30) as [->|]; [|done]. destruct (Z.eqb_spec len (Z.of_nat (length (0x30 :: len :: data)) - 2)) as [Hlen|]; [|done]. cbn [negb].
  destruct (DecodeDerInt256 data) as [[r second]|] eqn:Er; [|done]. destruct (decode_sound data r second Hb Er) as (tr & -> & Hr & Hnr).
  apply Forall_app in Hb as [_ Hb]. destruct (DecodeDerInt256 second) as [[s rest]|] eqn:Es; [|done].
  destruct (decode_sound second s rest Hb Es) as (ts & -> & Hs & Hns). intros [= He%bool_decide_eq_true <-]. subst rest. rewrite app_nil_r in *.
  split; [done|]. split; [done|]. exists tr, ts. split; [|done]. f_equal. f_equal. cbn [length] in Hlen. lia.
Qed.
Lemma DoDecodeFromBuffer_complete b sig sig' : der_signature b sig' -> DoDecodeFromBuffer b sig = (true, sig').
Proof.
  intros (Hnr & Hns & tr & ts & -> & Hr & Hs). pose proof (number_bound _ Hnr). pose proof (number_bound _ Hns).
  pose proof (der_integer_length _ _ Hr ltac:(lia)). pose proof (der_integer_length _ _ Hs ltac:(lia)). unfold DoDecodeFromBuffer.
  cbn [length nth drop]. rewrite ?drop_0, length_app. rewrite (proj2 (Z.ltb_ge _ 8)), (proj2 (Z.ltb_ge 72 _)) by lia. cbn [orb]. change (negb (48 =? 48)) with false. cbv iota.
  rewrite (proj2 (Z.eqb_eq (Z.of_nat (length tr + length ts)) _)) by lia. cbn [negb].
  rewrite (der_integer_decodes tr (r_ sig') ts), <- (app_nil_r ts), (der_integer_decodes ts (s_ sig') []) by done.
  rewrite bool_decide_eq_true_2 by done. by destruct sig'.
Qed.

(** C25. A signature is decoded exactly if the buffer is its DER encoding, so that
    every signature has only one encoding that is accepted; otherwise the numbers
    are cleared. *)
Theorem DecodeFromBuffer_spec b sig : is_bytes b ->
  let '(decoded, sig') := EcdsaSignature_DecodeFromBuffer b sig in
  if decoded then der_signature b sig' else sig' = EcdsaSignature_init /\ forall sig'', ~ der_signature b sig''.
Proof.
  intros Hb. unfold EcdsaSignature_DecodeFromBuffer. destruct (DoDecodeFromBuffer b sig) as [[] sig'] eqn:E.
  - by apply (DoDecodeFromBuffer_sound b sig).
  - split; [done|]. intros sig'' Hs. by rewrite (DoDecodeFromBuffer_complete b sig sig'' Hs) in E.
Qed.

(** The signature of a test of the code (cup_ecdsa_request_unittest.cc). *)
Definition sample_signature : list Z :=
  a2b_hex (_T "30450221008eb3780a5f2f30201c63b9dd94dbe461baaaae05739fd30496be3c0e7c2979c4022073241ee9b311b69e2974c529753ae8d363cdc89aebfae378773bc13d1e427bfe").
Lemma DecodeFromBuffer_spec_witness :
  der_signature sample_signature (EcdsaSignature_DecodeFromBuffer sample_signature EcdsaSignature_init).2 /\ length sample_signature = 71%nat.
Proof.
  split; [|by vm_compute].
  assert (is_bytes sample_signature) as Hb by (apply (bool_decide_unpack _); vm_compute; exact I).
  pose proof (DecodeFromBuffer_spec sample_signature EcdsaSignature_init Hb) as Hs.
  destruct (EcdsaSignature_DecodeFromBuffer sample_signature EcdsaSignature_init) as [decoded sig'] eqn:E.
  assert (decoded = true) as -> by (apply (f_equal fst) in E; etransitivity; [exact (eq_sym E)|vm_compute; reflexivity]). exact Hs.
Defined.

(** ** The message that is signed *)

Lemma sha256_bytes m : is_bytes (sha256 m).
Proof.
  unfold sha256. cbv zeta. generalize (hash_blocks (m ++ padding m) (length (m ++ padding m) / 64)). intros l.
  induction l as [|w l IH]; [done|]. cbn [fmap list_fmap concat]. apply Forall_app. split; [|exact IH].
  unfold be32, u8. rewrite !Forall_cons. split_and!; try (by apply Forall_nil); apply Z.mod_pos_bound; lia.
Qed.
Lemma digest_number m : number (p256_from_bin (sha256 m)).
Proof. apply (p256_from_bin_spec (sha256 m)); [apply sha256_bytes|rewrite length_sha256; lia]. Qed.

(** The hash that the code computes, empty for the buffers that it refuses. *)
Definition safe_hash (data : list Z) : list Z := if (0 <? Z.of_nat (length data)) && (Z.of_nat (length data) <=? kMaxLen) then sha256 data else [].
Lemma SafeSHA256Hash_spec data : default [] (SafeSHA256Hash data) = safe_hash data.
Proof.
  unfold SafeSHA256Hash, safe_hash. destruct (Z.leb_spec (Z.of_nat (length data)) 0), (Z.ltb_spec 0 (Z.of_nat (length data))); try lia; [done|].
  rewrite Z.ltb_antisym. destruct (_ <=? kMaxLen); [|done]. cbn [negb orb andb default]. by rewrite SHA256_hash_eq.
Qed.
Lemma safe_hash_sha256 data : (0 < length data)%nat -> Z.of_nat (length data) <= kMaxLen -> safe_hash data = sha256 data.
Proof. intros H0 H1. unfold safe_hash. rewrite (proj2 (Z.ltb_lt _ _)), (proj2 (Z.leb_le _ _)) by lia. done. Qed.
Lemma length_safe_hash data : (length (safe_hash data) <= 32)%nat.
Proof. unfold safe_hash. destruct (_ && _); [by rewrite length_sha256|cbn; lia]. Qed.
Lemma safe_hash_full data : length (safe_hash data) = 32%nat -> (0 < length data)%nat /\ Z.of_nat (length data) <= kMaxLen.
Proof. unfold safe_hash. destruct (Z.ltb_spec 0 (Z.of_nat (length data))), (Z.leb_spec (Z.of_nat (length data)) kMaxLen); cbn [andb length]; try lia; intros Hl; discriminate. Qed.

Section Authentication.
Context {H : Type} `{!HttpRequest H} `{!CupSystem}.

(** The text of the nonce is ASCII, and the nonce can be read back. *)
Lemma escape_blocks_length base64 src : forall szdest text, escape_blocks base64 false src szdest = Some text -> 0 <= szdest -> Z.of_nat (length text) <= szdest.
Proof.
  induction src as [|a|a b|a b c src IH] using blocks_ind; intros szdest text; cbn [escape_blocks andb].
  - by intros [= <-].
  - destruct (Z.ltb_spec (szdest - 2) 0); [done|]. intros [= <-] _. cbn. lia.
  - destruct (Z.ltb_spec (szdest - 3) 0); [done|]. intros [= <-] _. cbn. lia.
  - destruct (Z.ltb_spec (szdest - 4) 0); [done|]. destruct (escape_blocks base64 false src (szdest - 4)) as [rest|] eqn:E; [|done].
    intros [= <-] _. specialize (IH _ _ E ltac:(lia)). cbn [length app]. lia.
Qed.
Lemma nonce_text k nonce : RandBytes k = Some nonce -> exists st byte,
  Forall (fun c => 0 < c < 128) (WebSafeBase64EscapeNoPadding nonce) /\ (length (WebSafeBase64EscapeNoPadding nonce) <= 44)%nat /\
  unescape_chars UnWebSafeBase64 32 (WebSafeBase64EscapeNoPadding nonce) (mkUnescape 0 [] 0) = Some (mkUnescape st nonce byte, None).
Proof.
  intros [Hl Hb]%RandBytes_size. unfold WebSafeBase64EscapeNoPadding, Base64EscapeInternal. rewrite Hl.
  change (CalculateBase64EscapedLen (Z.of_nat 32) false + 1) with 44.
  destruct (decode_encoded 32 nonce Hb 44 []) as (text & He & Ha & _ & st & byte & Hd & _); [rewrite Hl; reflexivity|rewrite Hl; reflexivity|].
  exists st, byte. rewrite He. change (default [] (Some text)) with text. pose proof (escape_blocks_length _ _ _ _ He ltac:(lia)). split_and!; [done|lia|exact Hd].
Qed.

Lemma version_cases : version_ public_key_ = 2 \/ version_ public_key_ = 3.
Proof. unfold public_key_. destruct IsUsingCupTestKeys; [right|left]; reflexivity. Qed.
Lemma public_key_numbers : number (gx_ public_key_) /\ number (gy_ public_key_).
Proof. unfold public_key_. destruct IsUsingCupTestKeys; split; apply (bool_decide_unpack _); vm_compute; exact I. Qed.

Lemma cup2key_utf8 k nonce : RandBytes k = Some nonce ->
  WideToUtf8Vector (cup2key_of nonce) = cup2key_of nonce /\ (length (cup2key_of nonce) <= 46)%nat.
Proof.
  intros Hn. destruct (nonce_text k nonce Hn) as (_ & _ & Ha & Hl & _).
  assert (exists v, 0 < v < 128 /\ cup2key_of nonce = v :: 58 :: WebSafeBase64EscapeNoPadding nonce) as (v & Hv & ->).
  { unfold cup2key_of. destruct version_cases as [->| ->]; [exists 50|exists 51]; (split; [lia|reflexivity]). }
  split; [|cbn [length]; lia]. unfold WideToUtf8Vector. cbn [IsEmpty]. apply cup_WideToUtf8_ascii. rewrite !Forall_cons. split_and!; [lia|lia|lia|lia|done].
Qed.
Lemma cup2key_inj k nonce k' nonce' : RandBytes k = Some nonce -> RandBytes k' = Some nonce' -> cup2key_of nonce = cup2key_of nonce' -> nonce = nonce'.
Proof.
  intros Hn Hn' He. unfold cup2key_of in He. do 2 apply app_inv_head in He.
  destruct (nonce_text k nonce Hn) as (st & b & _ & _ & Hd). destruct (nonce_text k' nonce' Hn') as (st' & b' & _ & _ & Hd').
  rewrite He, Hd' in Hd. by injection Hd.
Qed.

(** What the server signs for a request with the body and the nonce, and for the
    response it has sent. *)
Definition signed_message_of (body response nonce : list Z) : list Z := sha256 body ++ safe_hash response ++ cup2key_of nonce.
Lemma length_signed_message k body response nonce : RandBytes k = Some nonce ->
  (32 <= length (signed_message_of body response nonce) <= 110)%nat.
Proof.
  intros Hn. destruct (cup2key_utf8 k nonce Hn) as [_ Hl]. pose proof (length_safe_hash response). unfold signed_message_of.
  rewrite !length_app, length_sha256. lia.
Qed.

(** The proof that is read from a response: the custom header, or the ETag. *)
Definition server_proof (h : H) : CString :=
  let etag_header := (http_QueryHeadersString h WINHTTP_QUERY_CUSTOM kHeaderXETag).2 in
  if IsEmpty etag_header then (http_QueryHeadersString h WINHTTP_QUERY_ETAG []).2 else etag_header.

(** The server has proved that it received this request and sent this response. *)
Definition proved_by_server (st : CupSt H) : Prop :=
  exists nonce body sig, RandBytes (draws st) = Some nonce /\ request_buffer_ st = Some body /\
    (0 < length body)%nat /\ Z.of_nat (length body) <= kMaxLen /\
    let url := request_url_of (url_ st) (cup2key_of nonce) (BytesToHex (sha256 body)) in
    let '(hr, h) := http_Send (http_set_url url (http_request_ st)) in
    FAILED hr = false /\ http_GetHttpStatusCode h ∈ [HTTP_STATUS_OK; HTTP_STATUS_PARTIAL_CONTENT] /\
    ParseServerETag (server_proof h) EcdsaSignature_init [] = (true, sig, sha256 body) /\
    let digest := sha256 (sha256 (signed_message_of body (http_GetResponse h) nonce)) in
    valid_signature (gx_ public_key_) (gy_ public_key_) (p256_from_bin digest) (r_ sig) (s_ sig).

(** ** Authentication *)

Lemma pairs_ind {A} (P : list A -> Prop) : P [] -> (forall a, P [a]) -> (forall a b l, P l -> P (a :: b :: l)) -> forall l, P l.
Proof. intros Hn Ho Ht. fix IH 1. intros [|a [|b l]]; [exact Hn|exact (Ho a)|exact (Ht a b l (IH l))]. Qed.
Lemma a2b_hex_bytes text : is_bytes (a2b_hex text).
Proof.
  induction text as [|a|a b text IH] using pairs_ind; cbn [a2b_hex]; [done|done|]. constructor; [|exact IH].
  unfold u8. apply Z.mod_pos_bound. lia.
Qed.
Lemma ParseServerETag_numbers etag sig0 hash0 sig hash : ParseServerETag etag sig0 hash0 = (true, sig, hash) -> number (r_ sig) /\ number (s_ sig).
Proof.
  unfold ParseServerETag. destruct (ParseNameValuePair _ _) as [[sig_str hash_str]|]; [|done]. destruct (negb _); [done|].
  unfold SafeHexStringToVector. destruct (CheckHexString sig_str); [|done]. destruct (CheckHexString hash_str); [|done].
  unfold EcdsaSignature_DecodeFromBuffer. destruct (DoDecodeFromBuffer (a2b_hex sig_str) sig0) as [[] sig'] eqn:E; [|done].
  intros [= <- <-]. apply DoDecodeFromBuffer_sound in E; [|apply a2b_hex_bytes]. by destruct E as (? & ? & _).
Qed.

Lemma VerifyEcdsaSignature_spec m sig : number (r_ sig) -> number (s_ sig) -> (0 < length m)%nat -> Z.of_nat (length m) <= kMaxLen ->
  VerifyEcdsaSignature public_key_ m sig = true <-> valid_signature (gx_ public_key_) (gy_ public_key_) (p256_from_bin (sha256 m)) (r_ sig) (s_ sig).
Proof.
  intros Hr Hs Hl Hm. unfold VerifyEcdsaSignature. rewrite SafeSHA256Hash_spec, safe_hash_sha256 by done. cbv zeta.
  destruct public_key_numbers as [Hx Hy].
  destruct (p256_ecdsa_verify_total _ _ _ _ _ Hx Hy (digest_number m) Hr Hs) as (b & -> & Hb). exact Hb.
Qed.

Lemma AuthenticateResponse_spec k nonce c (st : CupSt H) : RandBytes k = Some nonce -> cup_ st = Some c -> cup2key c = cup2key_of nonce ->
  signature c = EcdsaSignature_init -> observed_hash c = [] ->
  eval AuthenticateResponse st = S_OK <->
  length (request_hash c) = 32%nat /\ exists sig, ParseServerETag (etag c) EcdsaSignature_init [] = (true, sig, request_hash c) /\
    valid_signature (gx_ public_key_) (gy_ public_key_)
      (p256_from_bin (sha256 (sha256 (request_hash c ++ safe_hash (cup_response c) ++ cup2key_of nonce)))) (r_ sig) (s_ sig).
Proof.
  intros Hn Hc Hk Hsig Hobs. unfold AuthenticateResponse. rewrite eval_bind. assert (eval get_cup st = c) as ->.
  { unfold get_cup, eval, gets. cbn [fst]. by rewrite Hc. }
  destruct (etag c) as [|e0 e] eqn:Ee; cbn [IsEmpty].
  { destruct (negb _ && _); rewrite eval_bind, eval_ret; (split; [done|]); intros (_ & sig & Hp & _); discriminate Hp. }
  rewrite ?Ee, Hsig, Hobs. set (text := e0 :: e). destruct (ParseServerETag text EcdsaSignature_init []) as [[parsed sig] observed] eqn:Ep. cbv zeta. rewrite eval_bind.
  destruct parsed; cbn [negb]; [|rewrite eval_bind, eval_ret; split; [done|]; intros (_ & sig' & [=] & _)].
  destruct (ParseServerETag_numbers _ _ _ _ _ Ep) as [Hr Hs].
  destruct (Nat.eqb_spec (length observed) SHA256_DIGEST_SIZE) as [Hlo|Hlo]; cbn [negb];
    [|rewrite eval_ret; split; [done|]; intros (Hl & sig' & [= _ ->] & _); done].
  destruct (Nat.eqb_spec (length (request_hash c)) SHA256_DIGEST_SIZE) as [Hlr|Hlr]; cbn [negb]; [|rewrite eval_ret; split; [done|]; by intros [? _]].
  destruct (bool_decide_reflect (observed = request_hash c)) as [->|Hne]; cbn [negb];
    [|rewrite eval_bind, eval_ret; split; [done|]; intros (_ & sig' & [= _ ->] & _); done].
  rewrite Hk. destruct (cup2key_utf8 k nonce Hn) as [-> Hl46]. rewrite SafeSHA256Hash_spec, (SafeSHA256Hash_spec (cup_response c)).
  pose proof (length_safe_hash (cup_response c)). unfold SHA256_DIGEST_SIZE in *.
  rewrite (safe_hash_sha256 (_ ++ _)) by (rewrite !length_app; unfold kMaxLen; lia).
  pose proof (VerifyEcdsaSignature_spec (sha256 (request_hash c ++ safe_hash (cup_response c) ++ cup2key_of nonce)) sig Hr Hs) as Hv.
  rewrite length_sha256 in Hv. specialize (Hv ltac:(lia) ltac:(done)).
  destruct (VerifyEcdsaSignature _ _ _); cbn [negb]; rewrite eval_bind, eval_ret.
  - split; [|done]. intros _. split; [done|]. exists sig. split; [done|]. by apply Hv.
  - split; [done|]. intros (_ & sig' & [= <-] & Hvs). by apply Hv in Hvs.
Qed.

(** The request and the answer, as far as they get. *)
Definition request_of (st : CupSt H) (nonce : list Z) : TransientCupState :=
  let hash := safe_hash (default [] (request_buffer_ st)) in
  mkCup hash (cup2key_of nonce) (BytesToHex hash) (request_url_of (url_ st) (cup2key_of nonce) (BytesToHex hash)) [] [] EcdsaSignature_init [].
Definition with_answer (c : TransientCupState) (response : list Z) (etag : CString) : TransientCupState :=
  mkCup (request_hash c) (cup2key c) (cup2hreq c) (cup_request_url c) response etag (signature c) (observed_hash c).

Lemma BuildRequest_eq (st : CupSt H) : cup_ st = Some TransientCupState_init ->
  BuildRequest st =
  match RandBytes (draws st) with
  | None => (OMAHA_NET_E_CUP_NO_ENTROPY,
             mkCupSt (cup_ st) (url_ st) (request_buffer_ st) (http_request_ st) (count MOtherErrors (metrics st)) (S (draws st)))
  | Some nonce => (S_OK, mkCupSt (Some (request_of st nonce)) (url_ st) (request_buffer_ st) (http_request_ st) (metrics st) (S (draws st)))
  end.
Proof.
  intros Hc. cbv [BuildRequest mbind St_bind draw get_cup gets set_cup modify mret St_ret metric]. destruct (RandBytes (draws st)) as [nonce|]; [|reflexivity].
  cbn [cup_ url_ request_buffer_ http_request_ metrics draws]. rewrite Hc. change (default TransientCupState_init (Some ?c)) with c. unfold TransientCupState_init.
  cbn [request_hash cup_response etag signature observed_hash]. rewrite SafeSHA256Hash_spec. reflexivity.
Qed.

Lemma DoSend_eq c (st : CupSt H) : cup_ st = Some c ->
  let '(hr, h) := http_Send (http_set_url (cup_request_url c) (http_request_ st)) in
  let after c := mkCupSt (Some c) (url_ st) (request_buffer_ st) h in
  DoSend st =
  if FAILED hr then (hr, after c (count MHttpFailure (metrics st)) (draws st))
  else
    let status_code := http_GetHttpStatusCode h in
    if negb (status_code =? HTTP_STATUS_OK) && negb (status_code =? HTTP_STATUS_PARTIAL_CONTENT)
    then (HRESULTFromHttpStatusCode status_code, after (with_answer c (http_GetResponse h) (etag c)) (count MHttpFailure (metrics st)) (draws st))
    else (S_OK, after (with_answer c (http_GetResponse h) (server_proof h)) (metrics st) (draws st)).
Proof.
  intros Hc. cbv [DoSend mbind St_bind get_cup gets set_cup set_http modify mret St_ret metric]. rewrite Hc. change (default TransientCupState_init (Some ?c)) with c.
  destruct (http_Send _) as [hr h]. cbn [cup_ url_ request_buffer_ http_request_ metrics draws]. rewrite Hc. destruct (FAILED hr); [reflexivity|].
  cbv zeta. destruct (negb _ && negb _); reflexivity.
Qed.

(** The state in which the request is built. *)
Definition started (st : CupSt H) : CupSt H :=
  mkCupSt (Some TransientCupState_init) (url_ st) (request_buffer_ st) (http_request_ st) (count MTotal (metrics st)) (draws st).
Definition authenticated (st : CupSt H) (nonce : list Z) (h : H) : CupSt H :=
  mkCupSt (Some (with_answer (request_of st nonce) (http_GetResponse h) (server_proof h))) (url_ st) (request_buffer_ st) h
    (count MTotal (metrics st)) (S (draws st)).

Lemma status_accepted status : status ∈ [HTTP_STATUS_OK; HTTP_STATUS_PARTIAL_CONTENT] <->
  negb (status =? HTTP_STATUS_OK) && negb (status =? HTTP_STATUS_PARTIAL_CONTENT) = false.
Proof.
  rewrite !elem_of_cons, elem_of_nil.
  destruct (Z.eqb_spec status HTTP_STATUS_OK), (Z.eqb_spec status HTTP_STATUS_PARTIAL_CONTENT); cbn; naive_solver.
Qed.
(** A request fails before there is an answer, or the answer is authenticated. *)
Lemma Cup_Send_cases (st : CupSt H) :
  match RandBytes (draws st) with
  | None => eval Cup_Send st = OMAHA_NET_E_CUP_NO_ENTROPY /\ metrics (exec Cup_Send st) = count MOtherErrors (count MTotal (metrics st))
  | Some nonce =>
      let '(hr, h) := http_Send (http_set_url (cup_request_url (request_of st nonce)) (http_request_ st)) in
      if negb (FAILED hr) && bool_decide (http_GetHttpStatusCode h ∈ [HTTP_STATUS_OK; HTTP_STATUS_PARTIAL_CONTENT])
      then Cup_Send st = AuthenticateResponse (authenticated st nonce h)
      else FAILED (eval Cup_Send st) = true /\ metrics (exec Cup_Send st) = count MHttpFailure (count MTotal (metrics st))
  end.
Proof.
  assert (Cup_Send st = (hr ← BuildRequest; if FAILED hr then mret hr else hr ← DoSend; if FAILED hr then mret hr else AuthenticateResponse) (started st)) as Hs
    by reflexivity.
  unfold eval, exec. rewrite Hs. clear Hs. unfold mbind, St_bind. rewrite BuildRequest_eq by reflexivity. change (draws (started st)) with (draws st).
  destruct (RandBytes (draws st)) as [nonce|]; [|by split]. change (FAILED S_OK) with false. cbv iota.
  change (request_of (started st) nonce) with (request_of st nonce). set (st1 := mkCupSt _ _ _ _ _ _).
  pose proof (DoSend_eq (request_of st nonce) st1 eq_refl) as Hd. change (http_request_ st1) with (http_request_ st) in Hd.
  destruct (http_Send _) as [hr h]. cbv zeta in Hd. rewrite Hd. clear Hd. destruct (FAILED hr) eqn:Ehr; cbn [negb andb]; [rewrite Ehr; by split|].
  rewrite (bool_decide_ext _ _ (status_accepted (http_GetHttpStatusCode h))).
  destruct (negb _ && negb _); cbn [negb]; [|reflexivity]. destruct (HRESULTFromHttpStatusCode_range (http_GetHttpStatusCode h)) as [_ Hf].
  rewrite bool_decide_eq_false_2 by done. rewrite !Hf. by split.
Qed.

(** The proof, said of the state of the request: its hash is complete if there is
    a body to hash. *)
Lemma request_hash_complete (st : CupSt H) nonce : length (request_hash (request_of st nonce)) = 32%nat <->
  exists body, request_buffer_ st = Some body /\ (0 < length body)%nat /\ Z.of_nat (length body) <= kMaxLen.
Proof.
  cbn [request_hash request_of]. split.
  - intros [Hl Hm]%safe_hash_full. destruct (request_buffer_ st) as [body|]; [|cbn in Hl; lia]. by exists body.
  - intros (body & -> & Hl & Hm). change (default [] (Some body)) with body. rewrite safe_hash_sha256 by done. apply length_sha256.
Qed.
Lemma request_hash_body (st : CupSt H) nonce body : request_buffer_ st = Some body -> (0 < length body)%nat -> Z.of_nat (length body) <= kMaxLen ->
  request_hash (request_of st nonce) = sha256 body /\
  cup_request_url (request_of st nonce) = request_url_of (url_ st) (cup2key_of nonce) (BytesToHex (sha256 body)).
Proof.
  intros Hb Hl Hm. unfold request_of. rewrite Hb. change (default [] (Some body)) with body. cbn [request_hash cup_request_url].
  by rewrite (safe_hash_sha256 body Hl Hm).
Qed.
Lemma proved_iff (st : CupSt H) nonce hr h : RandBytes (draws st) = Some nonce ->
  http_Send (http_set_url (cup_request_url (request_of st nonce)) (http_request_ st)) = (hr, h) ->
  proved_by_server st <->
  FAILED hr = false /\ http_GetHttpStatusCode h ∈ [HTTP_STATUS_OK; HTTP_STATUS_PARTIAL_CONTENT] /\
  let hash := request_hash (request_of st nonce) in
  length hash = 32%nat /\ exists sig, ParseServerETag (server_proof h) EcdsaSignature_init [] = (true, sig, hash) /\
    valid_signature (gx_ public_key_) (gy_ public_key_)
      (p256_from_bin (sha256 (sha256 (hash ++ safe_hash (http_GetResponse h) ++ cup2key_of nonce)))) (r_ sig) (s_ sig).
Proof.
  intros Hn Hs. unfold proved_by_server. cbv zeta. split.
  - intros (nonce' & body & sig & Hn' & Hb & Hl & Hm & Hrest). rewrite Hn in Hn'. injection Hn' as <-.
    destruct (request_hash_body st nonce body Hb Hl Hm) as [-> Hu]. rewrite <- Hu, Hs in Hrest. destruct Hrest as (Hhr & Hst & Hp & Hv).
    split; [done|]. split; [done|]. split; [apply length_sha256|]. by exists sig.
  - intros (Hhr & Hst & (body & Hb & Hl & Hm)%request_hash_complete & sig & Hp & Hv). exists nonce, body, sig.
    destruct (request_hash_body st nonce body Hb Hl Hm) as [Hh Hu]. rewrite Hh in Hp, Hv. split; [done|]. split; [done|]. split; [done|]. split; [done|].
    rewrite <- Hu, Hs. done.
Qed.

(** C24. A request succeeds exactly if the server has proved what it received and
    what it sent: the proof in its answer carries the hash of the body of the
    request and a valid signature, under the built-in key, of the hashes of the
    request and of the response and of the nonce of this request. *)
Theorem Cup_Send_spec (st : CupSt H) : eval Cup_Send st = S_OK <-> proved_by_server st.
Proof.
  pose proof (Cup_Send_cases st) as Hc. destruct (RandBytes (draws st)) as [nonce|] eqn:Hn.
  2: { destruct Hc as [-> _]. split; [done|]. intros (? & ? & ? & Hn' & _). by rewrite Hn in Hn'. }
  destruct (http_Send (http_set_url (cup_request_url (request_of st nonce)) (http_request_ st))) as [hr h] eqn:Es.
  rewrite (proved_iff st nonce hr h Hn Es). destruct (FAILED hr); cbn [negb andb] in Hc; [split; [|by intros [? _]]; destruct Hc as [Hf _]; intros He; by rewrite He in Hf|].
  destruct (bool_decide_reflect (http_GetHttpStatusCode h ∈ [HTTP_STATUS_OK; HTTP_STATUS_PARTIAL_CONTENT])) as [Hst|Hst].
  - unfold eval. rewrite Hc. change ((AuthenticateResponse ?s).1) with (eval AuthenticateResponse s).
    rewrite (AuthenticateResponse_spec (draws st) nonce _ (authenticated st nonce h) Hn eq_refl eq_refl eq_refl eq_refl). cbv zeta. tauto.
  - split; [|tauto]. destruct Hc as [Hf _]. intros He. by rewrite He in Hf.
Qed.

(** What is signed binds the answer to the request: messages that agree have
    the same nonce and the same hashes of the request and of the response, so that
    a signature that was made for another request says nothing about this one. *)
Theorem signed_message_binds k nonce k' nonce' body response body' response' :
  RandBytes k = Some nonce -> RandBytes k' = Some nonce' -> length (safe_hash response) = length (safe_hash response') ->
  signed_message_of body response nonce = signed_message_of body' response' nonce' ->
  sha256 body = sha256 body' /\ safe_hash response = safe_hash response' /\ nonce = nonce'.
Proof.
  intros Hn Hn' Hl He. unfold signed_message_of in He. apply app_inj_1 in He as [Hb He]; [|by rewrite !length_sha256].
  apply app_inj_1 in He as [Hr He]; [|done]. split; [done|]. split; [done|]. by apply (cup2key_inj k nonce k' nonce').
Qed.

#[export] Instance CupMetric_eq_dec : EqDecision CupMetric.
Proof. solve_decision. Defined.

(** The outcomes that are counted. *)
Definition outcomes (m : CupMetrics) : Z :=
  cup_ecdsa_trusted m + cup_ecdsa_captive_portal m + cup_ecdsa_no_etag m + cup_ecdsa_malformed_etag m + cup_ecdsa_request_hash_mismatch m +
  cup_ecdsa_signature_mismatch m + cup_ecdsa_http_failure m + cup_ecdsa_other_errors m.
Lemma count_outcome m c : outcomes (count m c) = outcomes c + (if decide (m = MTotal) then 0 else 1) /\
  cup_ecdsa_total (count m c) = cup_ecdsa_total c + (if decide (m = MTotal) then 1 else 0) /\
  cup_ecdsa_trusted (count m c) = cup_ecdsa_trusted c + (if decide (m = MTrusted) then 1 else 0).
Proof. destruct c, m; unfold outcomes; repeat case_decide; try done; cbn; lia. Qed.

Lemma parsed_hash_length etag sig0 hash0 sig hash : ParseServerETag etag sig0 hash0 = (true, sig, hash) -> length hash = 32%nat.
Proof.
  unfold ParseServerETag. destruct (ParseNameValuePair _ _) as [[sig_str hash_str]|]; [|done].
  destruct (Z.eqb_spec (GetLength hash_str) (256 / 4)) as [Hl|]; [|done]. cbn [negb].
  unfold SafeHexStringToVector. destruct (CheckHexString sig_str); [|done]. destruct (CheckHexString hash_str); [|done].
  destruct (EcdsaSignature_DecodeFromBuffer _ _) as [[] ?]; [|done]. intros [= _ <-].
  assert (forall l, length (a2b_hex l) = (length l / 2)%nat) as Hhalf.
  { induction l as [|a|a b l IH] using pairs_ind; [done|done|]. cbn [a2b_hex length]. rewrite IH. replace (S (S (length l))) with (length l + 1 * 2)%nat by lia.
    rewrite Nat.div_add by done. lia. }
  rewrite Hhalf. unfold GetLength in Hl. change (256 / 4) with 64 in Hl. replace (length hash_str) with 64%nat by lia. reflexivity.
Qed.

(** An answer is counted once, as trusted or as what is wrong with it. *)
Lemma AuthenticateResponse_counted c (st : CupSt H) : cup_ st = Some c -> length (request_hash c) = 32%nat ->
  exists m, metrics (exec AuthenticateResponse st) = count m (metrics st) /\ m <> MTotal /\ (m = MTrusted <-> eval AuthenticateResponse st = S_OK).
Proof.
  intros Hc Hl. unfold AuthenticateResponse. rewrite exec_bind, eval_bind. assert (eval get_cup st = c) as ->.
  { unfold get_cup, eval, gets. cbn [fst]. by rewrite Hc. }
  change (exec get_cup st) with st. destruct (IsEmpty (etag c)).
  { destruct (negb _ && _); [exists MCaptivePortal|exists MNoEtag]; (split; [reflexivity|]); done. }
  destruct (ParseServerETag _ _ _) as [[parsed sig] observed] eqn:Ep. cbv zeta. rewrite exec_bind, eval_bind.
  destruct parsed; cbn [negb]; [|by exists MMalformedEtag]. rewrite (parsed_hash_length _ _ _ _ _ Ep), Hl. change (negb (32 =? SHA256_DIGEST_SIZE)%nat) with false. cbv iota.
  destruct (negb (bool_decide _)); [by exists MHashMismatch|]. destruct (negb (VerifyEcdsaSignature _ _ _)); [by exists MSignatureMismatch|].
  by exists MTrusted.
Qed.

(** Every request with a body is counted once in the total and once under its
    outcome, under trusted exactly if it succeeds. *)
Theorem Cup_Send_counted (st : CupSt H) body :
  request_buffer_ st = Some body -> (0 < length body)%nat -> Z.of_nat (length body) <= kMaxLen ->
  let m := metrics (exec Cup_Send st) in
  cup_ecdsa_total m = cup_ecdsa_total (metrics st) + 1 /\ outcomes m = outcomes (metrics st) + 1 /\
  cup_ecdsa_trusted m = cup_ecdsa_trusted (metrics st) + (if decide (eval Cup_Send st = S_OK) then 1 else 0).
Proof.
  intros Hb Hl Hm. assert (exists m, metrics (exec Cup_Send st) = count m (count MTotal (metrics st)) /\ m <> MTotal /\ (m = MTrusted <-> eval Cup_Send st = S_OK)) as (m & -> & Hne & Ht).
  { pose proof (Cup_Send_cases st) as Hc. destruct (RandBytes (draws st)) as [nonce|]; [|destruct Hc as [-> ->]; by exists MOtherErrors].
    destruct (http_Send _) as [hr h]. destruct (negb (FAILED hr) && _).
    - unfold exec, eval. rewrite Hc. apply (AuthenticateResponse_counted _ (authenticated st nonce h) eq_refl).
      apply (proj2 (request_hash_complete st nonce)). by exists body.
    - destruct Hc as [Hf ->]. exists MHttpFailure. split; [done|]. split; [done|]. split; [done|]. intros He. by rewrite He in Hf. }
  cbv zeta. destruct (count_outcome m (count MTotal (metrics st))) as (-> & -> & ->). destruct (count_outcome MTotal (metrics st)) as (-> & -> & ->).
  repeat case_decide; try done; try tauto; lia.
Qed.

End Authentication.

(** ** Samples *)

(** The ETags of the tests of the code. *)
Definition sample_sig_hex : CString := _T "30450221008eb3780a5f2f30201c63b9dd94dbe461baaaae05739fd30496be3c0e7c2979c4022073241ee9b311b69e2974c529753ae8d363cdc89aebfae378773bc13d1e427bfe".
Definition sample_hash_hex : CString := _T "1234567890abcdef1234567890abcdef1234567890abcdef1234567890abcdef".
Definition etag_accepted (text : CString) : bool := (ParseServerETag text EcdsaSignature_init []).1.1.
Example etags_of_the_tests :
  etag_accepted <$> [sample_sig_hex ++ _T ":" ++ sample_hash_hex;
                     [34] ++ sample_sig_hex ++ _T ":" ++ sample_hash_hex ++ [34];
                     _T "W/" ++ sample_sig_hex ++ _T ":" ++ sample_hash_hex;
                     _T "W/" ++ [34] ++ sample_sig_hex ++ _T ":" ++ sample_hash_hex ++ [34];
                     [];
                     sample_sig_hex ++ sample_hash_hex;
                     sample_sig_hex ++ _T " " ++ sample_hash_hex;
                     sample_sig_hex ++ _T ":" ++ take 62 sample_hash_hex;
                     sample_sig_hex ++ _T ":00" ++ sample_hash_hex;
                     sample_sig_hex ++ _T ":" ++ take 26 sample_hash_hex ++ _T "______" ++ drop 32 sample_hash_hex]
  = [true; true; true; true; false; false; false; false; false; false].
Proof. vm_compute. reflexivity. Qed.

(** A captive portal answers a request. *)
Definition sample_cup_system : CupSystem.
Proof.
  refine {| RandBytes := fun k => Some (replicate 32 (Z.of_nat k mod 256)); cup_Utf8BufferToWideChar := id; cup_WideToUtf8 := id;
            cup_CharUpper := fun c => if (97 <=? c) && (c <=? 122) then c - 32 else c; IsUsingCupTestKeys := false |}; [|done].
  intros k nonce Hn. assert (nonce = replicate 32 (Z.of_nat k mod 256)) as -> by congruence. split; [reflexivity|]. apply Forall_replicate. unfold Base64.is_byte. apply Z.mod_pos_bound. lia.
Defined.
Definition sample_http : HttpRequest (list Z) := {|
  http_set_url := fun _ h => h;
  http_set_request_buffer := fun _ h => h;
  http_Send := fun h => (S_OK, h);
  http_GetResponse := id;
  http_GetHttpStatusCode := fun _ => 200;
  http_QueryHeadersString := fun _ _ _ => (S_OK, [])
|}.
Definition sample_cup_request : CupSt (list Z) :=
  mkCupSt None (_T "https://update.example/update2") (Some (_T "<request/>")) (_T "<html><body>Log in</body></html>") (mkMetrics 0 0 0 0 0 0 0 0 0) 0.

Lemma sample_answer : eval (@Cup_Send _ sample_http sample_cup_system) sample_cup_request = OMAHA_NET_E_CAPTIVEPORTAL.
Proof. vm_compute. reflexivity. Qed.

Lemma Cup_Send_spec_witness : ~ @proved_by_server _ sample_http sample_cup_system sample_cup_request.
Proof. intros Hp. apply (@Cup_Send_spec _ sample_http sample_cup_system sample_cup_request) in Hp. by rewrite sample_answer in Hp. Defined.

Lemma Cup_Send_counted_witness :
  let m := metrics (exec (@Cup_Send _ sample_http sample_cup_system) sample_cup_request) in
  cup_ecdsa_total m = 1 /\ outcomes m = 1 /\ cup_ecdsa_trusted m = 0.
Proof.
  destruct (@Cup_Send_counted _ sample_http sample_cup_system sample_cup_request (_T "<request/>") eq_refl) as (H1 & H2 & H3).
  - apply Nat.ltb_lt. reflexivity.
  - apply Z.leb_le. reflexivity.
  - rewrite sample_answer in H3. split; [exact H1|]. split; [exact H2|exact H3].
Defined.

Lemma signed_message_binds_witness :
  let nonce := replicate 32 7 in
  sha256 [1] = sha256 [1] /\ safe_hash [2] = safe_hash [2] /\ nonce = nonce.
Proof.
  exact (@signed_message_binds sample_cup_system 7 (replicate 32 7) 7 (replicate 32 7) [1] [2] [1] [2] eq_refl eq_refl eq_refl eq_refl).
Defined.
