(* ===== verification/WebClient.v ===== *)
(** The client of the update server: omaha/common/web_services_client.cc.

    A request is posted to the address of the server and, when that fails and it
    may, once more over plain HTTP.  The client remembers the server's clock and
    how long the server wants to be left alone. *)

From S2P Require Import Prelude Hresult CStrings Text Protocol.

Definition kHeaderXInteractive : CString := _T "X-Goog-Update-Interactivity".
Definition kHeaderXAppId : CString := _T "X-Goog-Update-AppId".
Definition kHeaderXUpdater : CString := _T "X-Goog-Update-Updater".
Definition kHeaderXDaystart : CString := _T "X-Daystart".
Definition kHeaderXDaynum : CString := _T "X-Daynum".
Definition kHeaderXRetryAfter : CString := _T "X-Retry-After".

Definition Headers : Type := list (CString * CString).

(** A request as it is handed to the network, and what comes back: the result,
    the body, the headers and the status. *)
Record HttpPost := mkHttpPost {
  post_url : CString;
  post_body : list Z;
  post_headers : Headers;
  post_cup : bool
}.

Record HttpOutcome := mkHttpOutcome {
  out_result : HRESULT;
  out_buffer : list Z;
  out_headers : CString;
  out_status : Z
}.

(** The network stack, the XML of the protocol and the conversions of strings.
    Calls that can fail are given by the number of the attempt. *)
Class HttpStack := {
  GetUserNetworkConfig : nat -> HRESULT;
  PostUtf8String : nat -> HttpPost -> HttpOutcome;
  Request_Serialize : Request -> HRESULT + CString;
  Response_Deserialize : list Z -> Response -> HRESULT * Response;
  WideToUtf8 : CString -> list Z;
  Utf8BufferToWideChar : list Z -> CString;
  GetVersionString : CString;
  CharUpper : Z -> Z;
  Request_Serialize_failed : forall r hr, Request_Serialize r = inl hr -> FAILED hr = true
}.

Record WebServicesClient := mkWebServicesClient {
  wsc_is_machine : bool;
  original_url_ : CString;
  headers_ : Headers;
  update_request_headers_ : Headers;
  use_cup_ : bool;
  used_ssl_ : bool;
  ssl_result_ : HRESULT;
  http_xdaystart_header_value_ : Z;
  http_xdaynum_header_value_ : Z;
  retry_after_sec_ : Z;
  network_request_ : option HttpOutcome
}.

Definition WebServicesClient_init (is_machine : bool) : WebServicesClient :=
  mkWebServicesClient is_machine [] [] [] false false S_FALSE (-1) (-1) (-1) None.

Definition WebServicesClient_Initialize (url : CString) (headers : Headers) (use_cup : bool) (c : WebServicesClient) :
    WebServicesClient :=
  mkWebServicesClient (wsc_is_machine c) url headers (update_request_headers_ c) use_cup (used_ssl_ c) (ssl_result_ c)
    (http_xdaystart_header_value_ c) (http_xdaynum_header_value_ c) (retry_after_sec_ c) (network_request_ c).

Definition set_update_request_headers (h : Headers) (c : WebServicesClient) : WebServicesClient :=
  mkWebServicesClient (wsc_is_machine c) (original_url_ c) (headers_ c) h (use_cup_ c) (used_ssl_ c) (ssl_result_ c)
    (http_xdaystart_header_value_ c) (http_xdaynum_header_value_ c) (retry_after_sec_ c) (network_request_ c).
Definition set_ssl_result (hr : HRESULT) (c : WebServicesClient) : WebServicesClient :=
  mkWebServicesClient (wsc_is_machine c) (original_url_ c) (headers_ c) (update_request_headers_ c) (use_cup_ c) true hr
    (http_xdaystart_header_value_ c) (http_xdaynum_header_value_ c) (retry_after_sec_ c) (network_request_ c).
Definition set_days (day_start day_num : Z) (c : WebServicesClient) : WebServicesClient :=
  mkWebServicesClient (wsc_is_machine c) (original_url_ c) (headers_ c) (update_request_headers_ c) (use_cup_ c)
    (used_ssl_ c) (ssl_result_ c) day_start day_num (retry_after_sec_ c) (network_request_ c).
Definition set_retry_after (sec : Z) (c : WebServicesClient) : WebServicesClient :=
  mkWebServicesClient (wsc_is_machine c) (original_url_ c) (headers_ c) (update_request_headers_ c) (use_cup_ c)
    (used_ssl_ c) (ssl_result_ c) (http_xdaystart_header_value_ c) (http_xdaynum_header_value_ c) sec (network_request_ c).
Definition set_network_request (o : option HttpOutcome) (c : WebServicesClient) : WebServicesClient :=
  mkWebServicesClient (wsc_is_machine c) (original_url_ c) (headers_ c) (update_request_headers_ c) (use_cup_ c)
    (used_ssl_ c) (ssl_result_ c) (http_xdaystart_header_value_ c) (http_xdaynum_header_value_ c) (retry_after_sec_ c) o.

(** The client, the response being filled in, the number of attempts and the
    posts that were made. *)
Record WsSt := mkWsSt {
  ws_client : WebServicesClient;
  ws_response : Response;
  ws_attempts : nat;
  ws_posts : list HttpPost
}.

Abbreviation WsM := (St WsSt).

Definition modify_client (f : WebServicesClient -> WebServicesClient) : WsM unit :=
  modify (fun s => mkWsSt (f (ws_client s)) (ws_response s) (ws_attempts s) (ws_posts s)).
Definition get_client : WsM WebServicesClient := gets ws_client.

Definition FindHttpHeaderValue (all_headers search_name : CString) : CString :=
  let found line :=
    match ParseNameValuePair line 58 with
    | Some (name, value) => if EqualNoCase (Trim name) search_name then Some (Trim value) else None
    | None => None
    end in
  match omap found (TextToLines all_headers [13; 10]) with
  | value :: _ => value
  | [] => []
  end.

Definition FindHttpHeaderValueInt (header : CString) (c : WebServicesClient) : Z :=
  match network_request_ c with
  | None => -1
  | Some o =>
      if IsEmpty (out_headers o) then -1
      else
        let value := FindHttpHeaderValue (out_headers o) header in
        if IsEmpty value then -1 else String_StringToInt value
  end.

Definition CaptureCustomHeaderValues (c : WebServicesClient) : WebServicesClient :=
  let day_start := FindHttpHeaderValueInt kHeaderXDaystart c in
  let day_num := FindHttpHeaderValueInt kHeaderXDaynum c in
  set_days (if negb (day_start =? -1) then day_start else http_xdaystart_header_value_ c)
    (if negb (day_num =? -1) then day_num else http_xdaynum_header_value_ c) c.

Section Client.
Context `{HttpStack} (CanUseNetwork : bool -> bool).

(** A fresh request for the next attempt; its response is still empty. *)
Definition CreateRequest : WsM HRESULT := fun s =>
  let hr := GetUserNetworkConfig (ws_attempts s) in
  let request := if FAILED hr then None else Some (mkHttpOutcome S_OK [] [] 0) in
  (if FAILED hr then hr else S_OK,
   mkWsSt (set_network_request request (ws_client s)) (ws_response s) (S (ws_attempts s)) (ws_posts s)).

(** The post itself: the request keeps the response. *)
Definition Post (url : CString) (body : list Z) : WsM HttpOutcome := fun s =>
  let c := ws_client s in
  let p := mkHttpPost url body (headers_ c ++ update_request_headers_ c) (use_cup_ c) in
  let o := PostUtf8String (ws_attempts s) p in
  (o, mkWsSt (set_network_request (Some o) c) (ws_response s) (ws_attempts s) (ws_posts s ++ [p])).

Definition Deserialize (buffer : list Z) : WsM HRESULT := fun s =>
  let '(hr, r) := Response_Deserialize buffer (ws_response s) in
  (hr, mkWsSt (ws_client s) r (ws_attempts s) (ws_posts s)).

Definition SendStringInternal (actual_url : CString) (utf8_request_string : list Z) : WsM HRESULT :=
  hr ← CreateRequest;
  if FAILED hr then mret hr
  else
    o ← Post actual_url utf8_request_string;
    let response_string := Utf8BufferToWideChar (out_buffer o) in
    modify_client CaptureCustomHeaderValues;;
    when (IsHttpsUrl actual_url)
      (modify_client (fun c => set_retry_after (Z.min (FindHttpHeaderValueInt kHeaderXRetryAfter c) kSecondsPerDay) c));;
    if FAILED (out_result o) then mret (out_result o)
    else
      hr ← Deserialize (out_buffer o);
      if FAILED hr then
        mret (if negb (stristrW CharUpper response_string (_T "<response"))
                 && stristrW CharUpper response_string (_T "<html")
              then OMAHA_NET_E_CAPTIVEPORTAL else hr)
      else mret S_OK.

Definition SendStringWithFallback (use_encryption is_foreground : bool) (request_string : CString) : WsM HRESULT :=
  modify_client (fun c =>
    set_update_request_headers
      (update_request_headers_ c ++ [(kHeaderXUpdater, _T "Omaha-" ++ GetVersionString);
                                     (kHeaderXInteractive, if is_foreground then _T "fg" else _T "bg")]) c);;
  let utf8_request_string := WideToUtf8 request_string in
  c ← get_client;
  let original_url := original_url_ c in
  hr ← SendStringInternal original_url utf8_request_string;
  when (IsHttpsUrl original_url) (modify_client (set_ssl_result hr));;
  c ← get_client;
  if SUCCEEDED hr then mret hr
  else if 0 <? retry_after_sec_ c then mret hr
  else if hr =? GOOPDATE_E_CANCELLED then mret hr
  else if IsHttpUrl original_url then mret hr
  else if use_encryption then mret hr
  else
    hr_fallback ← SendStringInternal (MakeHttpUrl original_url) utf8_request_string;
    mret (if SUCCEEDED hr_fallback then S_OK else hr).

Definition Send (is_foreground : bool) (update_request : Request) : WsM HRESULT :=
  c ← get_client;
  if negb (CanUseNetwork (wsc_is_machine c)) then mret GOOPDATE_E_CANNOT_USE_NETWORK
  else
    match Request_Serialize update_request with
    | inl hr => mret hr
    | inr request_string =>
        modify_client (set_update_request_headers
          (if UpdateRequest_IsEmpty update_request then []
           else [(kHeaderXAppId, UpdateRequest_app_ids update_request)]));;
        SendStringWithFallback (UpdateRequest_has_tt_token update_request) is_foreground request_string
    end.

Definition SendString (is_foreground : bool) (request_string : CString) : WsM HRESULT :=
  modify_client (set_update_request_headers []);;
  SendStringWithFallback false is_foreground request_string.

End Client.

(** ** Facts *)

Section Facts.
Context `{HttpStack} (CanUseNetwork : bool -> bool).

Definition new_posts (s s' : WsSt) : list HttpPost := drop (length (ws_posts s)) (ws_posts s').

(** What an attempt leaves: its post, if the request could be made, and the
    server's wish to be left alone, if the channel is trusted. *)
Lemma SendStringInternal_state url body s :
  let s' := exec (SendStringInternal url body) s in
  original_url_ (ws_client s') = original_url_ (ws_client s) /\
  if FAILED (GetUserNetworkConfig (ws_attempts s))
  then ws_posts s' = ws_posts s /\ retry_after_sec_ (ws_client s') = retry_after_sec_ (ws_client s)
  else exists p, ws_posts s' = ws_posts s ++ [p] /\ post_url p = url /\ post_body p = body /\
    retry_after_sec_ (ws_client s') =
      if IsHttpsUrl url
      then Z.min (FindHttpHeaderValueInt kHeaderXRetryAfter
                    (set_network_request (Some (PostUtf8String (S (ws_attempts s)) p)) (ws_client s))) kSecondsPerDay
      else retry_after_sec_ (ws_client s).
Proof.
  cbv zeta. unfold SendStringInternal, CreateRequest, Post, modify_client, modify, when, exec, mbind, St_bind, mret, St_ret.
  destruct (FAILED (GetUserNetworkConfig (ws_attempts s))) eqn:Hf; [by rewrite Hf|].
  change (FAILED S_OK) with false; cbv iota.
  cbn beta iota zeta delta [fst snd ws_client ws_attempts ws_posts ws_response].
  lazymatch goal with |- context [PostUtf8String _ ?q] => set (p := q); set (o := PostUtf8String _ p) end.
  unfold Deserialize. destruct (Response_Deserialize (out_buffer o) (ws_response s)) as [hr r] eqn:Hr.
  destruct (IsHttpsUrl url) eqn:Hu, (FAILED (out_result o)) eqn:Ho;
    cbn -[FindHttpHeaderValueInt]; rewrite ?Hr; cbn -[FindHttpHeaderValueInt]; try destruct (FAILED hr);
    (split; [done|by exists p]).
Qed.

Lemma SendStringInternal_retry url body s :
  retry_after_sec_ (ws_client s) <= kSecondsPerDay ->
  retry_after_sec_ (ws_client (exec (SendStringInternal url body) s)) <= kSecondsPerDay.
Proof.
  intros Hs. destruct (SendStringInternal_state url body s) as [_ Hs'].
  destruct (FAILED (GetUserNetworkConfig _)); [lia|]. destruct Hs' as (p & _ & _ & _ & ->).
  destruct (IsHttpsUrl url); [apply Z.le_min_r|done].
Qed.

(** The address of a post of [Send]: the server's, or for a request that
    carries no token the same over plain HTTP. *)
Definition may_post (url : CString) (encrypted : bool) (p : HttpPost) : Prop :=
  post_url p = url \/
  (post_url p = MakeHttpUrl url /\ encrypted = false /\ IsHttpUrl url = false).

Lemma new_posts_app s s' l : ws_posts s' = ws_posts s ++ l -> new_posts s s' = l.
Proof. intros Hs. unfold new_posts. by rewrite Hs, drop_app_length. Qed.

Lemma SendStringInternal_posts url body s :
  exists l, ws_posts (exec (SendStringInternal url body) s) = ws_posts s ++ l /\ (length l <= 1)%nat /\
    Forall (fun p => post_url p = url) l.
Proof.
  destruct (SendStringInternal_state url body s) as [_ Hs].
  destruct (FAILED (GetUserNetworkConfig _)).
  - exists []. rewrite app_nil_r. split; [apply Hs|]. split; [cbn; lia|done].
  - destruct Hs as (p & Hp & Hu & _). exists [p]. split; [done|]. split; [done|]. by apply Forall_singleton.
Qed.

Lemma SendStringWithFallback_posts encrypted foreground text s :
  let s' := exec (SendStringWithFallback encrypted foreground text) s in
  let url := original_url_ (ws_client s) in
  exists l, ws_posts s' = ws_posts s ++ l /\ (length l <= 2)%nat /\ Forall (may_post url encrypted) l.
Proof.
  cbv zeta. unfold SendStringWithFallback. rewrite exec_bind.
  set (s1 := exec (modify_client _) s).
  assert (original_url_ (ws_client s1) = original_url_ (ws_client s) /\ ws_posts s1 = ws_posts s) as [<- <-] by done.
  rewrite exec_bind. change (eval get_client s1) with (ws_client s1). change (exec get_client s1) with s1.
  cbv zeta. set (url := original_url_ (ws_client s1)). rewrite exec_bind.
  destruct (SendStringInternal_posts url (WideToUtf8 text) s1) as (l1 & Hl1 & Hlen1 & Hall1).
  set (s2 := exec _ s1) in *. set (hr := eval _ s1). rewrite exec_bind.
  set (s3 := exec (when _ _) s2).
  assert (ws_posts s3 = ws_posts s1 ++ l1) as Hl3 by (rewrite <- Hl1; unfold s3; by destruct (IsHttpsUrl url)).
  assert (Forall (may_post url encrypted) l1) as Hmay by (eapply Forall_impl; [exact Hall1|by left]).
  assert (exists l, ws_posts s3 = ws_posts s1 ++ l /\ (length l <= 2)%nat /\ Forall (may_post url encrypted) l) as Hdone.
  { exists l1. split; [done|]. split; [lia|done]. }
  rewrite exec_bind. change (exec get_client s3) with s3. change (eval get_client s3) with (ws_client s3). cbv beta.
  destruct (SUCCEEDED hr); [done|]. destruct (0 <? _); [done|]. destruct (hr =? _); [done|].
  destruct (IsHttpUrl url) eqn:Hurl; [done|]. destruct encrypted; [done|].
  rewrite exec_bind, exec_ret.
  destruct (SendStringInternal_posts (MakeHttpUrl url) (WideToUtf8 text) s3) as (l2 & -> & Hlen2 & Hall2).
  exists (l1 ++ l2). rewrite Hl3, app_assoc. split; [done|]. rewrite length_app. split; [lia|].
  apply Forall_app. split; [done|]. eapply Forall_impl; [exact Hall2|]. by right.
Qed.


Lemma MakeHttpUrl_not_https url : IsHttpUrl url = false -> IsHttpsUrl (MakeHttpUrl url) = false.
Proof. intros Hurl. unfold MakeHttpUrl. rewrite Hurl. done. Qed.

(** What the server asked for in a response. *)
Definition retry_wish (o : HttpOutcome) : Z :=
  FindHttpHeaderValueInt kHeaderXRetryAfter (set_network_request (Some o) (WebServicesClient_init false)).

(** The end of [SendStringWithFallback] only adds posts. *)
Lemma ws_posts_grow (b1 b2 b3 b4 b5 : bool) hr url body s :
  exists l, ws_posts (exec (if b1 then mret hr else if b2 then mret hr else if b3 then mret hr
    else if b4 then mret hr else if b5 then mret hr
    else hr_fallback ← SendStringInternal url body; mret (if SUCCEEDED hr_fallback then S_OK else hr)) s) = ws_posts s ++ l.
Proof.
  assert (exists l, ws_posts s = ws_posts s ++ l) as Hnil by (exists []; by rewrite app_nil_r).
  destruct b1; [done|]. destruct b2; [done|]. destruct b3; [done|]. destruct b4; [done|]. destruct b5; [done|].
  rewrite exec_bind, exec_ret. destruct (SendStringInternal_posts url body s) as (l & -> & _). by exists l.
Qed.

(** The first attempt of a request to a secure address. *)
Lemma SendStringWithFallback_retry encrypted foreground text s p rest :
  let s' := exec (SendStringWithFallback encrypted foreground text) s in
  let o := PostUtf8String (S (ws_attempts s)) p in
  IsHttpsUrl (original_url_ (ws_client s)) = true ->
  ws_posts s' = ws_posts s ++ p :: rest -> IsHttpsUrl (post_url p) = true -> 0 < retry_wish o ->
  rest = [] /\ retry_after_sec_ (ws_client s') = Z.min (retry_wish o) kSecondsPerDay.
Proof.
  cbv zeta. intros Hurl. unfold SendStringWithFallback. rewrite exec_bind.
  set (s1 := exec (modify_client _) s).
  change (original_url_ (ws_client s)) with (original_url_ (ws_client s1)) in Hurl.
  change (ws_posts s) with (ws_posts s1). change (ws_attempts s) with (ws_attempts s1).
  rewrite exec_bind. change (eval get_client s1) with (ws_client s1). change (exec get_client s1) with s1.
  cbv zeta. set (url := original_url_ (ws_client s1)) in *. rewrite exec_bind.
  destruct (SendStringInternal_state url (WideToUtf8 text) s1) as [_ Hs2].
  set (s2 := exec _ s1) in *. set (hr := eval _ s1). rewrite exec_bind, Hurl. cbn [when].
  set (s3 := exec (modify_client _) s2).
  change (ws_posts s2) with (ws_posts s3) in Hs2.
  change (retry_after_sec_ (ws_client s2)) with (retry_after_sec_ (ws_client s3)) in Hs2.
  rewrite exec_bind. change (exec get_client s3) with s3. change (eval get_client s3) with (ws_client s3). cbv beta.
  intros Hposts Hsecure Hwish.
  destruct (FAILED (GetUserNetworkConfig _)).
  - destruct Hs2 as [Hs3 _]. exfalso. revert Hposts. rewrite <- Hs3.
    assert (ws_posts s3 <> ws_posts s3 ++ p :: rest) as Hne.
    { intros Heq. apply (f_equal length) in Heq. rewrite length_app in Heq. cbn in Heq. lia. }
    destruct (SUCCEEDED hr); [done|]. destruct (0 <? _); [done|]. destruct (hr =? _); [done|].
    destruct (IsHttpUrl url) eqn:Hhttp; [done|]. destruct encrypted; [done|]. rewrite exec_bind, exec_ret.
    destruct (SendStringInternal_posts (MakeHttpUrl url) (WideToUtf8 text) s3) as (l & -> & _ & Hall).
    intros ->%app_inv_head. apply Forall_cons in Hall as [Hp _].
    rewrite Hp, MakeHttpUrl_not_https in Hsecure; done.
  - destruct Hs2 as (p1 & Hs3 & _ & _ & Hretry). rewrite Hurl in Hretry.
    change (FindHttpHeaderValueInt kHeaderXRetryAfter _) with (retry_wish (PostUtf8String (S (ws_attempts s1)) p1)) in Hretry.
    assert (p = p1) as ->.
    { destruct (ws_posts_grow (SUCCEEDED hr) (0 <? retry_after_sec_ (ws_client s3)) (hr =? GOOPDATE_E_CANCELLED)
                  (IsHttpUrl url) encrypted hr (MakeHttpUrl url) (WideToUtf8 text) s3) as [l Hl].
      rewrite Hl, Hs3, <- app_assoc in Hposts. apply app_inv_head in Hposts. by injection Hposts. }
    assert (0 <? retry_after_sec_ (ws_client s3) = true) as Hpos by (rewrite Hretry; unfold kSecondsPerDay; lia).
    assert (forall A B, (if SUCCEEDED hr then A else if 0 <? retry_after_sec_ (ws_client s3) then A else B) = A :> WsM HRESULT)
      as Hstop by (intros A B; rewrite Hpos; by destruct (SUCCEEDED hr)).
    rewrite Hstop, exec_ret in *. split; [|done].
    rewrite Hs3 in Hposts. apply app_inv_head in Hposts. by injection Hposts.
Qed.

End Facts.

(** ** Examples *)

(** A server that gives one answer; responses are "ok" or malformed. *)
Definition sample_stack (answer : HttpOutcome) : HttpStack.
Proof.
  refine {| GetUserNetworkConfig _ := S_OK;
            PostUtf8String _ _ := answer;
            Request_Serialize r := inr (_T "<request>" ++ UpdateRequest_app_ids r);
            Response_Deserialize buffer r := (if bool_decide (buffer = _T "ok") then S_OK else E_FAIL, r);
            WideToUtf8 s := (fun c => c mod 256) <$> s;
            Utf8BufferToWideChar s := s;
            GetVersionString := _T "1.3.361.151";
            CharUpper c := c |}. done.
Defined.

Definition sample_token_request : Request :=
  UpdateRequest_AddApp
    (UpdateRequest_Create
       (mkRequestEnv (fun _ => []) [] [] [] None [] false None (true, true, true, true, true, true, true) [] [] [])
       true [] [] [] [])
    (mkRequestApp (_T "app") [] [] [] [] [] [] [] [] [] 0 0 [] [] []
       (mkRequestUpdateCheck true false (_T "token") false [] []) [] RequestPing_default []).

