(* ===== verification/Policy.v ===== *)
(** Enterprise policies: how [ConfigManager] (omaha/common/config_manager.cc)
    loads the group policies from the registry, aggregates them with the
    policies of device management and derives what an application may do. *)

From S2P Require Import Prelude Hresult CStrings.

(** ** GUIDs

    A GUID is the number its 16 bytes spell in memory order, so that
    [GUIDCompare] (a [memcmp]) is the order of the numbers. *)

Definition kGoopdateGuid : GUID := 0x35C931B1E69BDA4195991F776BEB8019.
Definition GUID_NULL : GUID := 0.

(** [GuidToString] and [StringToGuidSafe] wrap the system's conversions.  What
    the code relies on: a GUID's text converts back to it, in upper or lower
    case, and the text has 38 characters, the first a brace and none a
    backslash. *)
Class GuidOps := {
  GuidToString : GUID -> CString;
  StringToGuidSafe : CString -> option GUID;
  StringToGuidSafe_GuidToString :
    forall g, 0 <= g < 2 ^ 128 -> StringToGuidSafe (GuidToString g) = Some g;
  GuidToString_length : forall g, length (GuidToString g) = 38%nat;
  GuidToString_brace : forall g, exists t, GuidToString g = 123 :: t;
  GuidToString_plain : forall g, Forall (fun c => c <> 92) (GuidToString g);
  StringToGuidSafe_lower :
    forall g, 0 <= g < 2 ^ 128 -> StringToGuidSafe (MakeLower (GuidToString g)) = Some g
}.

(** ** The cached policies ([dm_messages.h]) *)

Record UpdatesSuppressed := mkUpdatesSuppressed {
  us_start_hour : Z;
  us_start_minute : Z;
  us_duration_min : Z
}.

Record ApplicationSettings := mkApplicationSettings {
  as_install : Z;
  as_update : Z;
  as_target_channel : CString;
  as_target_version_prefix : CString;
  as_rollback_to_target_version : Z
}.

Definition ApplicationSettings_default : ApplicationSettings :=
  mkApplicationSettings (-1) (-1) [] [] (-1).

(** [std::map<GUID, ApplicationSettings, GUIDCompare>]: the entries in order. *)
Definition SettingsMap : Type := list (GUID * ApplicationSettings).

Fixpoint settings_lookup (g : GUID) (m : SettingsMap) : option ApplicationSettings :=
  match m with
  | [] => None
  | (g', s) :: m' => if g =? g' then Some s else settings_lookup g m'
  end.

(** [m[g] = f(m[g])]: [operator[]] inserts a default entry when absent. *)
Fixpoint settings_update (g : GUID) (f : ApplicationSettings -> ApplicationSettings)
    (m : SettingsMap) : SettingsMap :=
  match m with
  | [] => [(g, f ApplicationSettings_default)]
  | (g', s) :: m' =>
      if g =? g' then (g', f s) :: m'
      else if g <? g' then (g, f ApplicationSettings_default) :: m
      else (g', s) :: settings_update g f m'
  end.

Record CachedOmahaPolicy := mkCachedOmahaPolicy {
  cp_is_managed : bool;
  cp_is_initialized : bool;
  cp_auto_update_check_period_minutes : Z;
  cp_download_preference : CString;
  cp_cache_size_limit : Z;
  cp_cache_life_limit : Z;
  cp_updates_suppressed : UpdatesSuppressed;
  cp_proxy_mode : CString;
  cp_proxy_server : CString;
  cp_proxy_pac_url : CString;
  cp_install_default : Z;
  cp_update_default : Z;
  cp_application_settings : SettingsMap
}.

Definition CachedOmahaPolicy_default : CachedOmahaPolicy :=
  mkCachedOmahaPolicy false false (-1) [] (-1) (-1) (mkUpdatesSuppressed (-1) (-1) (-1))
    [] [] [] (-1) (-1) [].

(** ** One policy source: [OmahaPolicyManager]

    A method that fails with [E_FAIL] returns [None]. *)

Record OmahaPolicyManager := mkOmahaPolicyManager {
  pm_source : CString;
  pm_policy : CachedOmahaPolicy
}.

Record UpdatesSuppressedTimes := mkUpdatesSuppressedTimes {
  ust_start_hour : Z;
  ust_start_min : Z;
  ust_duration_min : Z
}.

Definition kPolicyDisabled : Z := 0.
Definition kPolicyEnabled : Z := 1.
Definition kPolicyEnabledMachineOnly : Z := 4.
Definition kPolicyManualUpdatesOnly : Z := 2.
Definition kPolicyAutomaticUpdatesOnly : Z := 3.
Definition kPolicyForceInstallMachine : Z := 5.
Definition kPolicyForceInstallUser : Z := 6.
Definition kInstallPolicyDefault : Z := kPolicyEnabled.
Definition kUpdatePolicyDefault : Z := kPolicyEnabled.


Definition OmahaPolicyManager_IsManaged (pm : OmahaPolicyManager) : bool := cp_is_managed (pm_policy pm).

Definition OmahaPolicyManager_GetLastCheckPeriodMinutes (pm : OmahaPolicyManager) : option Z :=
  let p := pm_policy pm in
  if negb (cp_is_initialized p) then None
  else if cp_auto_update_check_period_minutes p =? -1 then None
  else Some (u32 (cp_auto_update_check_period_minutes p)).

Definition OmahaPolicyManager_GetUpdatesSuppressedTimes (pm : OmahaPolicyManager) : option UpdatesSuppressedTimes :=
  let p := pm_policy pm in
  let us := cp_updates_suppressed p in
  if negb (cp_is_initialized p) then None
  else if (us_start_hour us =? -1) || (us_start_minute us =? -1) || (us_duration_min us =? -1)
  then None
  else Some (mkUpdatesSuppressedTimes (u32 (us_start_hour us)) (u32 (us_start_minute us))
               (u32 (us_duration_min us))).

Definition OmahaPolicyManager_GetDownloadPreferenceGroupPolicy (pm : OmahaPolicyManager) : option CString :=
  let p := pm_policy pm in
  if negb (cp_is_initialized p) || IsEmpty (cp_download_preference p) then None
  else Some (cp_download_preference p).

Definition OmahaPolicyManager_GetPackageCacheSizeLimitMBytes (pm : OmahaPolicyManager) : option Z :=
  let p := pm_policy pm in
  if negb (cp_is_initialized p) || (cp_cache_size_limit p =? -1) then None
  else Some (u32 (cp_cache_size_limit p)).

Definition OmahaPolicyManager_GetPackageCacheExpirationTimeDays (pm : OmahaPolicyManager) : option Z :=
  let p := pm_policy pm in
  if negb (cp_is_initialized p) || (cp_cache_life_limit p =? -1) then None
  else Some (u32 (cp_cache_life_limit p)).

Definition OmahaPolicyManager_GetProxyMode (pm : OmahaPolicyManager) : option CString :=
  let p := pm_policy pm in
  if negb (cp_is_initialized p) || IsEmpty (cp_proxy_mode p) then None
  else Some (cp_proxy_mode p).

Definition OmahaPolicyManager_GetProxyPacUrl (pm : OmahaPolicyManager) : option CString :=
  let p := pm_policy pm in
  if negb (cp_is_initialized p) || negb (EqualNoCase (cp_proxy_mode p) (_T "pac_script"))
     || IsEmpty (cp_proxy_pac_url p) then None
  else Some (cp_proxy_pac_url p).

Definition OmahaPolicyManager_GetProxyServer (pm : OmahaPolicyManager) : option CString :=
  let p := pm_policy pm in
  if negb (cp_is_initialized p) || negb (EqualNoCase (cp_proxy_mode p) (_T "fixed_servers"))
     || IsEmpty (cp_proxy_server p) then None
  else Some (cp_proxy_server p).

Definition OmahaPolicyManager_GetForceInstallApps `{GuidOps} (is_machine : bool) (pm : OmahaPolicyManager) :
    option (list CString) :=
  let p := pm_policy pm in
  if negb (cp_is_initialized p) then None
  else
    let expected := if is_machine then kPolicyForceInstallMachine else kPolicyForceInstallUser in
    let app_ids :=
      (fun gs => GuidToString gs.1) <$>
        filter (fun gs => u32 (as_install gs.2) = expected) (cp_application_settings p) in
    match app_ids with [] => None | _ => Some app_ids end.

Definition OmahaPolicyManager_GetEffectivePolicyForAppInstalls (app_guid : GUID) (pm : OmahaPolicyManager) : option Z :=
  let p := pm_policy pm in
  if negb (cp_is_initialized p) then None
  else
    let default := if cp_install_default p =? -1 then None else Some (u32 (cp_install_default p)) in
    match settings_lookup app_guid (cp_application_settings p) with
    | Some s => if negb (as_install s =? -1) then Some (u32 (as_install s)) else default
    | None => default
    end.

Definition OmahaPolicyManager_GetEffectivePolicyForAppUpdates (app_guid : GUID) (pm : OmahaPolicyManager) : option Z :=
  let p := pm_policy pm in
  if negb (cp_is_initialized p) then None
  else
    let default := if cp_update_default p =? -1 then None else Some (u32 (cp_update_default p)) in
    match settings_lookup app_guid (cp_application_settings p) with
    | Some s => if negb (as_update s =? -1) then Some (u32 (as_update s)) else default
    | None => default
    end.

Definition OmahaPolicyManager_GetTargetChannel (app_guid : GUID) (pm : OmahaPolicyManager) : option CString :=
  let p := pm_policy pm in
  if negb (cp_is_initialized p) then None
  else
    match settings_lookup app_guid (cp_application_settings p) with
    | Some s => if IsEmpty (as_target_channel s) then None else Some (as_target_channel s)
    | None => None
    end.

Definition OmahaPolicyManager_GetTargetVersionPrefix (app_guid : GUID) (pm : OmahaPolicyManager) : option CString :=
  let p := pm_policy pm in
  if negb (cp_is_initialized p) then None
  else
    match settings_lookup app_guid (cp_application_settings p) with
    | Some s => if IsEmpty (as_target_version_prefix s) then None
                else Some (as_target_version_prefix s)
    | None => None
    end.

Definition OmahaPolicyManager_IsRollbackToTargetVersionAllowed (app_guid : GUID) (pm : OmahaPolicyManager) : option bool :=
  let p := pm_policy pm in
  if negb (cp_is_initialized p) then None
  else
    match settings_lookup app_guid (cp_application_settings p) with
    | Some s => if as_rollback_to_target_version s =? -1 then None
                else Some (negb (as_rollback_to_target_version s =? 0))
    | None => None
    end.

Definition OmahaPolicyManager_set_policy (policy : CachedOmahaPolicy) (pm : OmahaPolicyManager) : OmahaPolicyManager :=
  mkOmahaPolicyManager (pm_source pm) policy.


(** ** Aggregation: [PolicyValue<T>]

    [GetValueString] is specialised per type in the sources.  The default
    constructor leaves a [DWORD] or [bool] member uninitialised: the initial
    value is an argument. *)

Record PolicyValue (T : Type) := mkPolicyValue {
  pv_source : CString;
  pv_value : T;
  pv_has_conflict : bool;
  pv_conflict_source : CString;
  pv_conflict_value : T
}.
Arguments mkPolicyValue {T}.
Arguments pv_source {T}.
Arguments pv_value {T}.
Arguments pv_has_conflict {T}.
Arguments pv_conflict_source {T}.
Arguments pv_conflict_value {T}.

(** [IPolicyStatusValue], the record shown to clients. *)
Record PolicyStatusValue := mkPolicyStatusValue {
  psv_source : CString;
  psv_value : CString;
  psv_has_conflict : bool;
  psv_conflict_source : CString;
  psv_conflict_value : CString
}.

Section PolicyValue.
Context {T : Type} (GetValueString : T -> CString).

Definition PolicyValue_init (uninit : T) : PolicyValue T := mkPolicyValue [] uninit false [] uninit.

Definition PolicyValue_Update (is_managed : bool) (source : CString) (value : T)
    (v : PolicyValue T) : PolicyValue T :=
  if is_managed && IsEmpty (pv_source v) then
    mkPolicyValue source value (pv_has_conflict v) (pv_conflict_source v) (pv_conflict_value v)
  else if IsEmpty (pv_conflict_source v) then
    mkPolicyValue (pv_source v) (pv_value v)
      (negb (bool_decide (GetValueString (pv_value v) = GetValueString value)))
      source value
  else v.

Definition PolicyValue_UpdateFinal (value : T) (v : PolicyValue T) :
    PolicyValue T * PolicyStatusValue :=
  let v' :=
    if IsEmpty (pv_source v) then
      mkPolicyValue (_T "Default") value (pv_has_conflict v) (pv_conflict_source v)
        (pv_conflict_value v)
    else v in
  (v', mkPolicyStatusValue (pv_source v') (GetValueString (pv_value v')) (pv_has_conflict v')
         (pv_conflict_source v') (GetValueString (pv_conflict_value v'))).

(** The loop over [policies_] every accessor of [ConfigManager] runs. *)
Fixpoint PolicyValue_collect (getter : OmahaPolicyManager -> option T)
    (policies : list OmahaPolicyManager) (v : PolicyValue T) : PolicyValue T :=
  match policies with
  | [] => v
  | pm :: policies' =>
      PolicyValue_collect getter policies'
        (match getter pm with
         | Some x => PolicyValue_Update (OmahaPolicyManager_IsManaged pm) (pm_source pm) x v
         | None => v
         end)
  end.
End PolicyValue.

(** The specialisations of [GetValueString]. *)
Definition GetValueString_DWORD (value : Z) : CString := itostr value.
Definition GetValueString_CString (value : CString) : CString := value.
Definition GetValueString_bool (value : bool) : CString := if value then _T "true" else _T "false".
Definition GetValueString_SecondsMinutes (seconds : Z) : CString := itostr (seconds / 60).

Fixpoint join_semicolon (ids : list CString) : CString :=
  match ids with
  | [] => []
  | app_id :: ids' => app_id ++ _T ";" ++ join_semicolon ids'
  end.
Definition GetValueString_vector (value : list CString) : CString :=
  match value with
  | [] => []
  | _ => let result := join_semicolon value in take (length result - 1) result
  end.

(** "%d, %d, %d" of three DWORDs: each is read as an [int]. *)
Definition GetValueString_SuppressedTimes (t : UpdatesSuppressedTimes) : CString :=
  itostr (s32 (ust_start_hour t)) ++ _T ", " ++ itostr (s32 (ust_start_min t)) ++ _T ", " ++
  itostr (s32 (ust_duration_min t)).

(** ** [ConfigManager]

    [policies_] holds pointers to the two managers, so a later [set_policy] is
    seen through it: the list holds which manager, not a copy. *)

Inductive PolicySource := SourceGroupPolicy | SourceDeviceManagement.

Record ConfigManager := mkConfigManager {
  cm_group_policy_manager : OmahaPolicyManager;
  cm_dm_policy_manager : OmahaPolicyManager;
  cm_are_cloud_policies_preferred : bool;
  cm_policies : list PolicySource
}.

Definition cm_manager (cm : ConfigManager) (src : PolicySource) : OmahaPolicyManager :=
  match src with
  | SourceGroupPolicy => cm_group_policy_manager cm
  | SourceDeviceManagement => cm_dm_policy_manager cm
  end.

Definition policies_ (cm : ConfigManager) : list OmahaPolicyManager :=
  cm_manager cm <$> cm_policies cm.

(** *** Loading the group policies

    The registry key of the policies: its values in enumeration order, as the
    registry gives them. *)

Inductive RegValue := REG_DWORD (dword : Z) | REG_SZ (sz : CString) | REG_OTHER (type : Z).

Definition RegKeyValues : Type := list (CString * RegValue).

Fixpoint reg_lookup (name : CString) (key : RegKeyValues) : option RegValue :=
  match key with
  | [] => None
  | (n, v) :: key' => if EqualNoCase name n then Some v else reg_lookup name key'
  end.

Definition GetPolicyDword (key : RegKeyValues) (policy_name : string) (old : Z) : Z :=
  match reg_lookup (_T policy_name) key with Some (REG_DWORD d) => d | _ => old end.

Definition GetPolicyString (key : RegKeyValues) (policy_name : string) (old : CString) : CString :=
  match reg_lookup (_T policy_name) key with Some (REG_SZ s) => s | _ => old end.

(** The state of the registry key as [LoadGroupPolicies] finds it. *)
Inductive GroupPolicyKey := KeyMissing | KeyOpenFailed (hr : HRESULT) | KeyOpen (values : RegKeyValues).

Section LoadGroupPolicies.
Context `{GuidOps}.

(** [value_name.Find(_T('{'))]: the part before and from the first brace. *)
Definition find_brace (value_name : CString) : CString * CString :=
  (take_while (fun c => negb (c =? 123)) value_name, drop_while (fun c => negb (c =? 123)) value_name).

(** The name of a policy and the application of a value, for the values the
    loop does not skip. *)
Definition app_policy_name (value_name : CString) : option (CString * GUID) :=
  let '(policy_name, app_id_string) := find_brace value_name in
  if IsEmpty policy_name || IsEmpty app_id_string then None
  else if negb (Nat.eqb (length app_id_string) 38) then None
  else
    match StringToGuidSafe app_id_string with
    | None => None
    | Some app_id => if app_id =? GUID_NULL then None else Some (policy_name, app_id)
    end.

Definition set_install (i : Z) (s : ApplicationSettings) : ApplicationSettings :=
  mkApplicationSettings i (as_update s) (as_target_channel s) (as_target_version_prefix s)
    (as_rollback_to_target_version s).
Definition set_update (i : Z) (s : ApplicationSettings) : ApplicationSettings :=
  mkApplicationSettings (as_install s) i (as_target_channel s) (as_target_version_prefix s)
    (as_rollback_to_target_version s).
Definition set_rollback (i : Z) (s : ApplicationSettings) : ApplicationSettings :=
  mkApplicationSettings (as_install s) (as_update s) (as_target_channel s)
    (as_target_version_prefix s) i.
Definition set_target_channel (c : CString) (s : ApplicationSettings) : ApplicationSettings :=
  mkApplicationSettings (as_install s) (as_update s) c (as_target_version_prefix s)
    (as_rollback_to_target_version s).
Definition set_target_version_prefix (c : CString) (s : ApplicationSettings) : ApplicationSettings :=
  mkApplicationSettings (as_install s) (as_update s) (as_target_channel s) c
    (as_rollback_to_target_version s).

(** One iteration of the loop over the values of the key. *)
Definition load_app_policy (value_name : CString) (value : RegValue) (m : SettingsMap) : SettingsMap :=
  match app_policy_name value_name with
  | None => m
  | Some (policy_name, app_id) =>
      match value with
      | REG_DWORD d =>
          if EqualNoCase policy_name (_T "Install") then settings_update app_id (set_install (s32 d)) m
          else if EqualNoCase policy_name (_T "Update") then settings_update app_id (set_update (s32 d)) m
          else if EqualNoCase policy_name (_T "RollbackToTargetVersion") then
            settings_update app_id (set_rollback (s32 d)) m
          else m
      | REG_SZ str =>
          if EqualNoCase policy_name (_T "TargetChannel") then
            settings_update app_id (set_target_channel str) m
          else if EqualNoCase policy_name (_T "TargetVersionPrefix") then
            settings_update app_id (set_target_version_prefix str) m
          else m
      | REG_OTHER _ => m
      end
  end.

Definition load_app_policies (key : RegKeyValues) : SettingsMap :=
  fold_left (fun m nv => load_app_policy nv.1 nv.2 m) key [].

(** [group_policies.is_managed] is [is_enterprise_managed] when the key is
    there.  [None] is the deliberate crash ([__debugbreak]) of a managed
    machine whose policies cannot be read. *)
Definition LoadGroupPolicies (is_enterprise_managed : bool) (key : GroupPolicyKey)
    (cm : ConfigManager) : option (HRESULT * ConfigManager) :=
  let set p pref :=
    mkConfigManager (OmahaPolicyManager_set_policy p (cm_group_policy_manager cm))
      (cm_dm_policy_manager cm) pref (cm_policies cm) in
  match key with
  | KeyMissing =>
      Some (S_FALSE, set CachedOmahaPolicy_default (cm_are_cloud_policies_preferred cm))
  | KeyOpenFailed hr =>
      if is_enterprise_managed then None
      else Some (hr, set CachedOmahaPolicy_default (cm_are_cloud_policies_preferred cm))
  | KeyOpen values =>
      let dword name old := GetPolicyDword values name old in
      let str name := GetPolicyString values name [] in
      let pref :=
        match reg_lookup (_T "CloudPolicyOverridesPlatformPolicy") values with
        | Some (REG_DWORD d) => negb (d =? 0)
        | _ => cm_are_cloud_policies_preferred cm
        end in
      Some (S_OK, set (mkCachedOmahaPolicy is_enterprise_managed true
        (dword "AutoUpdateCheckPeriodMinutes" (-1))
        (str "DownloadPreference")
        (dword "PackageCacheSizeLimit" (-1))
        (dword "PackageCacheLifeLimit" (-1))
        (mkUpdatesSuppressed (dword "UpdatesSuppressedStartHour" (-1))
           (dword "UpdatesSuppressedStartMin" (-1))
           (dword "UpdatesSuppressedDurationMin" (-1)))
        (str "ProxyMode") (str "ProxyServer") (str "ProxyPacUrl")
        (s32 (dword "InstallDefault" (-1)))
        (s32 (dword "UpdateDefault" (-1)))
        (load_app_policies values)) pref)
  end.

Definition LoadPolicies (is_enterprise_managed : bool) (key : GroupPolicyKey)
    (cm : ConfigManager) : option (HRESULT * ConfigManager) :=
  match LoadGroupPolicies is_enterprise_managed key cm with
  | None => None
  | Some (hr, cm') =>
      if FAILED hr then Some (hr, cm')
      else
        Some (hr, mkConfigManager (cm_group_policy_manager cm') (cm_dm_policy_manager cm')
          (cm_are_cloud_policies_preferred cm')
          (if cm_are_cloud_policies_preferred cm'
           then [SourceDeviceManagement; SourceGroupPolicy]
           else [SourceGroupPolicy; SourceDeviceManagement]))
  end.
End LoadGroupPolicies.

(** The members the constructor of [ConfigManager] sets before it loads. *)
Definition ConfigManager_init : ConfigManager :=
  mkConfigManager (mkOmahaPolicyManager (_T "Group Policy") CachedOmahaPolicy_default)
    (mkOmahaPolicyManager (_T "Device Management") CachedOmahaPolicy_default) false [].

Definition SetOmahaDMPolicies (dm_policy : CachedOmahaPolicy) (cm : ConfigManager) : ConfigManager :=
  mkConfigManager (cm_group_policy_manager cm)
    (OmahaPolicyManager_set_policy dm_policy (cm_dm_policy_manager cm))
    (cm_are_cloud_policies_preferred cm) (cm_policies cm).

(** *** The accessors *)

Section ConfigManager.
Context (uninit_dword : Z) (uninit_bool : bool).

Definition ConfigManager_GetPackageCacheSizeLimitMBytes (cm : ConfigManager) :
    PolicyValue Z * PolicyStatusValue :=
  let kDefaultCacheStorageLimit := 500 in
  let kMaxCacheStorageLimit := 5000 in
  let getter pm :=
    match OmahaPolicyManager_GetPackageCacheSizeLimitMBytes pm with
    | Some x => if (x <=? kMaxCacheStorageLimit) && (0 <? x) then Some x else None
    | None => None
    end in
  PolicyValue_UpdateFinal GetValueString_DWORD kDefaultCacheStorageLimit
    (PolicyValue_collect GetValueString_DWORD getter (policies_ cm) (PolicyValue_init uninit_dword)).

Definition ConfigManager_GetPackageCacheExpirationTimeDays (cm : ConfigManager) :
    PolicyValue Z * PolicyStatusValue :=
  let kDefaultCacheLifeTimeInDays := 180 in
  let kMaxCacheLifeTimeInDays := 1800 in
  let getter pm :=
    match OmahaPolicyManager_GetPackageCacheExpirationTimeDays pm with
    | Some x => if (x <=? kMaxCacheLifeTimeInDays) && (0 <? x) then Some x else None
    | None => None
    end in
  PolicyValue_UpdateFinal GetValueString_DWORD kDefaultCacheLifeTimeInDays
    (PolicyValue_collect GetValueString_DWORD getter (policies_ cm) (PolicyValue_init uninit_dword)).

(** The accessors that fail when no managed source has a value: [None] is
    [E_FAIL]. *)
Definition collect_or_fail {T} (GetValueString : T -> CString) (empty : T)
    (getter : OmahaPolicyManager -> option T) (cm : ConfigManager) :
    option (PolicyValue T * PolicyStatusValue) :=
  let v := PolicyValue_collect GetValueString getter (policies_ cm) (PolicyValue_init empty) in
  if IsEmpty (pv_source v) then None
  else Some (PolicyValue_UpdateFinal GetValueString empty v).

Definition ConfigManager_GetProxyMode (cm : ConfigManager) :=
  collect_or_fail GetValueString_CString [] OmahaPolicyManager_GetProxyMode cm.

Definition ConfigManager_GetProxyPacUrl (cm : ConfigManager) :=
  collect_or_fail GetValueString_CString [] OmahaPolicyManager_GetProxyPacUrl cm.

Definition ConfigManager_GetProxyServer (cm : ConfigManager) :=
  collect_or_fail GetValueString_CString [] OmahaPolicyManager_GetProxyServer cm.

Definition ConfigManager_GetForceInstallApps `{GuidOps} (is_machine : bool) (cm : ConfigManager) :=
  collect_or_fail GetValueString_vector [] (OmahaPolicyManager_GetForceInstallApps is_machine) cm.

Definition ConfigManager_GetEffectivePolicyForAppInstalls (cm : ConfigManager) (app_guid : GUID) :
    PolicyValue Z * PolicyStatusValue :=
  PolicyValue_UpdateFinal GetValueString_DWORD kInstallPolicyDefault
    (PolicyValue_collect GetValueString_DWORD
       (OmahaPolicyManager_GetEffectivePolicyForAppInstalls app_guid)
       (policies_ cm) (PolicyValue_init uninit_dword)).

Definition ConfigManager_GetEffectivePolicyForAppUpdates (cm : ConfigManager) (app_guid : GUID) :
    PolicyValue Z * PolicyStatusValue :=
  PolicyValue_UpdateFinal GetValueString_DWORD kUpdatePolicyDefault
    (PolicyValue_collect GetValueString_DWORD
       (OmahaPolicyManager_GetEffectivePolicyForAppUpdates app_guid)
       (policies_ cm) (PolicyValue_init uninit_dword)).

Definition ConfigManager_GetTargetChannel (cm : ConfigManager) (app_guid : GUID) :
    PolicyValue CString * PolicyStatusValue :=
  PolicyValue_UpdateFinal GetValueString_CString []
    (PolicyValue_collect GetValueString_CString (OmahaPolicyManager_GetTargetChannel app_guid)
       (policies_ cm) (PolicyValue_init [])).

Definition ConfigManager_GetTargetVersionPrefix (cm : ConfigManager) (app_guid : GUID) :
    PolicyValue CString * PolicyStatusValue :=
  PolicyValue_UpdateFinal GetValueString_CString []
    (PolicyValue_collect GetValueString_CString (OmahaPolicyManager_GetTargetVersionPrefix app_guid)
       (policies_ cm) (PolicyValue_init [])).

Definition ConfigManager_IsRollbackToTargetVersionAllowed (cm : ConfigManager) (app_guid : GUID) :
    PolicyValue bool * PolicyStatusValue :=
  PolicyValue_UpdateFinal GetValueString_bool false
    (PolicyValue_collect GetValueString_bool
       (OmahaPolicyManager_IsRollbackToTargetVersionAllowed app_guid)
       (policies_ cm) (PolicyValue_init uninit_bool)).

Definition kDownloadPreferenceCacheable : CString := _T "cacheable".

Definition ConfigManager_GetDownloadPreferenceGroupPolicy (cm : ConfigManager) :
    PolicyValue CString * PolicyStatusValue :=
  let getter pm :=
    match OmahaPolicyManager_GetDownloadPreferenceGroupPolicy pm with
    | Some x => if bool_decide (x = kDownloadPreferenceCacheable) then Some x else None
    | None => None
    end in
  PolicyValue_UpdateFinal GetValueString_CString []
    (PolicyValue_collect GetValueString_CString getter (policies_ cm) (PolicyValue_init [])).

(** [GetUpdatesSuppressedTimes(time, ...)] at local time [tm_hour:tm_min]:
    the failure code, or the times, whether updates are suppressed and the
    status.  The hour and minute subtractions are unsigned, the difference
    is converted to [int]. *)
Definition ConfigManager_GetUpdatesSuppressedTimes (cm : ConfigManager) (tm_hour tm_min : Z) :
    HRESULT + (UpdatesSuppressedTimes * bool * PolicyStatusValue) :=
  let zero := mkUpdatesSuppressedTimes 0 0 0 in
  let v := PolicyValue_collect GetValueString_SuppressedTimes
             OmahaPolicyManager_GetUpdatesSuppressedTimes (policies_ cm) (PolicyValue_init zero) in
  if IsEmpty (pv_source v) then inl E_FAIL
  else
    let t := pv_value v in
    if (23 <? ust_start_hour t) || (59 <? ust_start_min t) || (16 * 60 <? ust_duration_min t)
    then inl E_UNEXPECTED
    else
      let '(v', status) := PolicyValue_UpdateFinal GetValueString_SuppressedTimes zero v in
      let times := pv_value v' in
      let diff := s32 (u32 (u32 (u32 (tm_hour - ust_start_hour times) * 60)
                            + u32 (tm_min - ust_start_min times))) in
      let time_diff_minutes := if diff <? 0 then diff + 24 * 60 else diff in
      inr (times, time_diff_minutes <? s32 (ust_duration_min times), status).

Definition ConfigManager_AreUpdatesSuppressedNow (cm : ConfigManager) (tm_hour tm_min : Z) : bool :=
  match ConfigManager_GetUpdatesSuppressedTimes cm tm_hour tm_min with
  | inr (_, are_updates_suppressed, _) => are_updates_suppressed
  | inl _ => false
  end.

Definition ConfigManager_CanInstallApp (cm : ConfigManager) (app_guid : GUID) (is_machine : bool) : bool :=
  let policy := pv_value (ConfigManager_GetEffectivePolicyForAppInstalls cm app_guid).1 in
  negb (kPolicyDisabled =? policy) && (is_machine || negb (kPolicyEnabledMachineOnly =? policy)).

Definition ConfigManager_CanUpdateApp (cm : ConfigManager) (app_guid : GUID) (is_manual : bool) : bool :=
  if kGoopdateGuid =? app_guid then true
  else
    let effective_policy := pv_value (ConfigManager_GetEffectivePolicyForAppUpdates cm app_guid).1 in
    if kPolicyDisabled =? effective_policy then false
    else if (kPolicyManualUpdatesOnly =? effective_policy) && negb is_manual then false
    else if (kPolicyAutomaticUpdatesOnly =? effective_policy) && is_manual then false
    else true.

Definition INT_MAX : Z := 2 ^ 31 - 1.
Definition kMinLastCheckPeriodSec : Z := 60.
Definition kLastCheckPeriodSec : Z := 5 * 3600 - 5 * 60.
Definition kLastCheckPeriodInternalUserSec : Z := kLastCheckPeriodSec / 5.

(** [GetLastCheckPeriodSec]: [update_dev] is the UpdateDev registry value;
    the result is the period, [is_overridden] and the status. *)
Definition ConfigManager_GetLastCheckPeriodSec (cm : ConfigManager) (update_dev : option Z)
    (is_internal_user : bool) : Z * bool * PolicyStatusValue :=
  let v0 : PolicyValue Z := PolicyValue_init 0 in
  let v :=
    match update_dev with
    | Some policy_period_sec =>
        let sec :=
          if (0 <? policy_period_sec) && (policy_period_sec <? kMinLastCheckPeriodSec)
          then kMinLastCheckPeriodSec
          else if INT_MAX <? policy_period_sec then INT_MAX
          else policy_period_sec in
        PolicyValue_Update GetValueString_SecondsMinutes true (_T "UpdateDev") sec v0
    | None =>
        let getter pm :=
          match OmahaPolicyManager_GetLastCheckPeriodMinutes pm with
          | Some minutes => Some (if INT_MAX <? minutes * 60 then INT_MAX else minutes * 60)
          | None => None
          end in
        PolicyValue_collect GetValueString_SecondsMinutes getter (policies_ cm) v0
    end in
  let is_overridden := negb (IsEmpty (pv_source v)) in
  let default := if is_internal_user then kLastCheckPeriodInternalUserSec else kLastCheckPeriodSec in
  let '(v', status) := PolicyValue_UpdateFinal GetValueString_SecondsMinutes default v in
  (pv_value v', is_overridden, status).
End ConfigManager.
