(* ===== verification/PolicyFacts.v ===== *)
(** Theorems about the policies of [Policy.v]: which source decides, what a
    machine that is not managed ignores, the window in which updates are
    suppressed, the bounds of the configured periods and limits, and what the
    registry values of the group policies come to. *)

From stdpp Require Import sorting.
From S2P Require Import Prelude Hresult CStrings Policy.

(** ** Which source decides *)

(** The value of the first managed source that has one. *)
Fixpoint first_managed {T} (getter : OmahaPolicyManager -> option T)
    (policies : list OmahaPolicyManager) : option (CString * T) :=
  match policies with
  | [] => None
  | pm :: policies' =>
      match getter pm with
      | Some x => if OmahaPolicyManager_IsManaged pm then Some (pm_source pm, x)
                  else first_managed getter policies'
      | None => first_managed getter policies'
      end
  end.

Definition sources_named (policies : list OmahaPolicyManager) : Prop :=
  Forall (fun pm => pm_source pm <> []) policies.

Section Collect.
Context {T : Type} (GetValueString : T -> CString) (getter : OmahaPolicyManager -> option T).

Lemma collect_fixed policies v :
  pv_source v <> [] ->
  pv_source (PolicyValue_collect GetValueString getter policies v) = pv_source v
  /\ pv_value (PolicyValue_collect GetValueString getter policies v) = pv_value v.
Proof.
  revert v. induction policies as [|pm policies IH]; intros v Hv; cbn [PolicyValue_collect]; [done|].
  destruct (getter pm) as [x|]; [|by apply IH].
  set (v' := PolicyValue_Update _ _ _ _ _).
  assert (pv_source v' = pv_source v /\ pv_value v' = pv_value v) as [Hs Hx].
  { unfold v', PolicyValue_Update. rewrite (proj2 (IsEmpty_false _) Hv), andb_false_r.
    by destruct (IsEmpty _). }
  destruct (IH v') as [-> ->]; [by rewrite Hs|]. done.
Qed.

Lemma collect_first policies v :
  sources_named policies -> pv_source v = [] ->
  match first_managed getter policies with
  | Some (src, x) =>
      pv_source (PolicyValue_collect GetValueString getter policies v) = src
      /\ pv_value (PolicyValue_collect GetValueString getter policies v) = x
      /\ src <> []
  | None => pv_source (PolicyValue_collect GetValueString getter policies v) = []
  end.
Proof.
  revert v. induction policies as [|pm policies IH]; intros v Hn Hv;
    cbn [PolicyValue_collect first_managed]; [done|].
  apply Forall_cons in Hn as [Hpm Hn].
  destruct (getter pm) as [x|]; [|by apply IH].
  destruct (OmahaPolicyManager_IsManaged pm) eqn:Em.
  - set (v' := PolicyValue_Update _ _ _ _ _).
    assert (pv_source v' = pm_source pm /\ pv_value v' = x) as [Hs Hx].
    { unfold v', PolicyValue_Update. by rewrite Hv. }
    destruct (collect_fixed policies v') as [-> ->]; [by rewrite Hs|]. done.
  - apply IH; [done|]. unfold PolicyValue_Update. simpl. by destruct (IsEmpty _).
Qed.

Lemma collect_final_value policies v d :
  sources_named policies -> pv_source v = [] ->
  pv_value (PolicyValue_UpdateFinal GetValueString d
              (PolicyValue_collect GetValueString getter policies v)).1 =
  match first_managed getter policies with Some (_, x) => x | None => d end.
Proof.
  intros Hn Hv. pose proof (collect_first policies v Hn Hv) as Hf.
  unfold PolicyValue_UpdateFinal.
  destruct (first_managed getter policies) as [[src x]|].
  - destruct Hf as (Hs & Hx & Hne). rewrite Hs, (proj2 (IsEmpty_false _) Hne). done.
  - rewrite Hf. done.
Qed.
End Collect.

Lemma first_managed_in {T} (getter : OmahaPolicyManager -> option T) policies src x :
  first_managed getter policies = Some (src, x) ->
  exists pm, pm ∈ policies /\ OmahaPolicyManager_IsManaged pm = true
    /\ pm_source pm = src /\ getter pm = Some x.
Proof.
  induction policies as [|pm policies IH]; cbn [first_managed]; [done|].
  destruct (getter pm) as [y|] eqn:Eg; [destruct (OmahaPolicyManager_IsManaged pm) eqn:Em|];
    intros Heq; simplify_eq.
  - exists pm. split_and!; [by left|done..].
  - destruct (IH Heq) as (pm' & ? & ?). exists pm'. split; [by right|done].
  - destruct (IH Heq) as (pm' & ? & ?). exists pm'. split; [by right|done].
Qed.

(** ** Reachable configuration managers *)

Inductive cm_reachable `{GuidOps} : ConfigManager -> Prop :=
| cm_reachable_init : cm_reachable ConfigManager_init
| cm_reachable_load cm managed key hr cm' :
    cm_reachable cm -> LoadPolicies managed key cm = Some (hr, cm') -> cm_reachable cm'
| cm_reachable_dm cm p : cm_reachable cm -> cm_reachable (SetOmahaDMPolicies p cm).

Definition cm_named (cm : ConfigManager) : Prop :=
  pm_source (cm_group_policy_manager cm) = _T "Group Policy"
  /\ pm_source (cm_dm_policy_manager cm) = _T "Device Management".

Lemma cm_named_policies cm : cm_named cm -> sources_named (policies_ cm).
Proof.
  intros [Hg Hd]. unfold sources_named, policies_. apply Forall_fmap, Forall_forall.
  intros [] _; simpl; [by rewrite Hg|by rewrite Hd].
Qed.

Section Reachable.
Context `{GuidOps}.

Lemma LoadGroupPolicies_parts managed key cm hr cm' :
  LoadGroupPolicies managed key cm = Some (hr, cm') ->
  pm_source (cm_group_policy_manager cm') = pm_source (cm_group_policy_manager cm)
  /\ cm_dm_policy_manager cm' = cm_dm_policy_manager cm
  /\ (managed = false -> OmahaPolicyManager_IsManaged (cm_group_policy_manager cm') = false).
Proof. unfold LoadGroupPolicies. intros Hl. repeat case_match; by simplify_eq/=. Qed.

Lemma LoadPolicies_parts managed key cm hr cm' :
  LoadPolicies managed key cm = Some (hr, cm') ->
  pm_source (cm_group_policy_manager cm') = pm_source (cm_group_policy_manager cm)
  /\ cm_dm_policy_manager cm' = cm_dm_policy_manager cm
  /\ (managed = false -> OmahaPolicyManager_IsManaged (cm_group_policy_manager cm') = false)
  /\ (SUCCEEDED hr = true ->
      cm_policies cm' = [SourceDeviceManagement; SourceGroupPolicy]
      \/ cm_policies cm' = [SourceGroupPolicy; SourceDeviceManagement]).
Proof.
  unfold LoadPolicies. destruct (LoadGroupPolicies managed key cm) as [[hr1 cm1]|] eqn:E; [|done].
  apply LoadGroupPolicies_parts in E as (H1 & H2 & H3).
  destruct (FAILED hr1) eqn:Ef; intros Heq; simplify_eq/=; split_and!; try done.
  - intros Hs. rewrite FAILED_not_SUCCEEDED in Ef. by rewrite Hs in Ef.
  - by destruct (cm_are_cloud_policies_preferred cm1); auto.
Qed.

Lemma cm_reachable_named cm : cm_reachable cm -> cm_named cm.
Proof.
  induction 1 as [|cm managed key hr cm' _ IH Hl|cm p _ IH]; [done| |exact IH].
  apply LoadPolicies_parts in Hl as (H1 & H2 & _). unfold cm_named. by rewrite H1, H2.
Qed.

Lemma cm_reachable_sources cm : cm_reachable cm -> sources_named (policies_ cm).
Proof. intros Hr. by apply cm_named_policies, cm_reachable_named. Qed.

(** After loading on a machine that is not managed, only device management
    can decide. *)
Lemma first_managed_unmanaged {T} (getter : OmahaPolicyManager -> option T) key cm hr cm' :
  LoadPolicies false key cm = Some (hr, cm') -> SUCCEEDED hr = true ->
  first_managed getter (policies_ cm') = first_managed getter [cm_dm_policy_manager cm].
Proof.
  intros Hl Hs. apply LoadPolicies_parts in Hl as (_ & Hdm & Hun & Hord).
  specialize (Hun eq_refl). specialize (Hord Hs). rewrite <- Hdm. unfold policies_.
  destruct Hord as [-> | ->]; simpl;
    destruct (getter (cm_group_policy_manager cm')), (getter (cm_dm_policy_manager cm'));
    rewrite ?Hun; done.
Qed.

End Reachable.

(** ** What the accessors return *)

Section Effective.
Context `{GuidOps}.

Lemma effective_updates u cm g :
  cm_reachable cm ->
  pv_value (ConfigManager_GetEffectivePolicyForAppUpdates u cm g).1 =
  match first_managed (OmahaPolicyManager_GetEffectivePolicyForAppUpdates g) (policies_ cm) with
  | Some (_, x) => x | None => kUpdatePolicyDefault end.
Proof. intros Hr. apply collect_final_value; [by apply cm_reachable_sources|done]. Qed.

Lemma effective_installs u cm g :
  cm_reachable cm ->
  pv_value (ConfigManager_GetEffectivePolicyForAppInstalls u cm g).1 =
  match first_managed (OmahaPolicyManager_GetEffectivePolicyForAppInstalls g) (policies_ cm) with
  | Some (_, x) => x | None => kInstallPolicyDefault end.
Proof. intros Hr. apply collect_final_value; [by apply cm_reachable_sources|done]. Qed.

Definition window_contains (t : UpdatesSuppressedTimes) (h m : Z) : bool :=
  ((h * 60 + m) - (ust_start_hour t * 60 + ust_start_min t)) mod (24 * 60) <? ust_duration_min t.

Definition window_valid (t : UpdatesSuppressedTimes) : bool :=
  (ust_start_hour t <=? 23) && (ust_start_min t <=? 59) && (ust_duration_min t <=? 16 * 60).

Lemma OmahaPolicyManager_times_range pm t :
  OmahaPolicyManager_GetUpdatesSuppressedTimes pm = Some t ->
  0 <= ust_start_hour t /\ 0 <= ust_start_min t /\ 0 <= ust_duration_min t.
Proof.
  unfold OmahaPolicyManager_GetUpdatesSuppressedTimes. intros Ht. repeat case_match; simplify_eq/=.
  split_and!; apply u32_range.
Qed.

(** The wrap-around difference of the code is the distance on a 24-hour clock. *)
Lemma clock_distance h m sh sm :
  0 <= h < 24 -> 0 <= m < 60 -> 0 <= sh <= 23 -> 0 <= sm <= 59 ->
  let diff := s32 (u32 (u32 (u32 (h - sh) * 60) + u32 (m - sm))) in
  (if diff <? 0 then diff + 24 * 60 else diff) = ((h * 60 + m) - (sh * 60 + sm)) mod (24 * 60).
Proof.
  intros Hh Hm Hsh Hsm diff.
  assert (diff = (h - sh) * 60 + (m - sm)) as ->.
  { unfold diff.
    assert (u32 (u32 (u32 (h - sh) * 60) + u32 (m - sm)) = u32 ((h - sh) * 60 + (m - sm))) as ->
      by (unfold u32; by rewrite Zmult_mod_idemp_l, <- Zplus_mod).
    rewrite s32_u32. apply s32_small. lia. }
  destruct (Z.ltb_spec ((h - sh) * 60 + (m - sm)) 0).
  - rewrite <- (Z.mod_add _ 1) by lia. rewrite Z.mod_small; lia.
  - rewrite Z.mod_small; lia.
Qed.

(** Updates are suppressed exactly inside the window of the deciding source. *)
Lemma AreUpdatesSuppressedNow_first cm h m :
  cm_reachable cm ->
  ConfigManager_AreUpdatesSuppressedNow cm h m =
  match first_managed OmahaPolicyManager_GetUpdatesSuppressedTimes (policies_ cm) with
  | None => false
  | Some (_, t) =>
      window_valid t &&
      (let diff := s32 (u32 (u32 (u32 (h - ust_start_hour t) * 60) + u32 (m - ust_start_min t))) in
       (if diff <? 0 then diff + 24 * 60 else diff) <? s32 (ust_duration_min t))
  end.
Proof.
  intros Hr. unfold ConfigManager_AreUpdatesSuppressedNow, ConfigManager_GetUpdatesSuppressedTimes.
  set (v0 := PolicyValue_init (mkUpdatesSuppressedTimes 0 0 0)).
  pose proof (collect_first GetValueString_SuppressedTimes OmahaPolicyManager_GetUpdatesSuppressedTimes
                (policies_ cm) v0 (cm_reachable_sources _ Hr) eq_refl) as Hf.
  set (v := PolicyValue_collect _ _ _ v0) in *.
  destruct (first_managed _ _) as [[src t]|]; [|by rewrite Hf].
  destruct Hf as (Hs & Hx & Hne). rewrite Hs, (proj2 (IsEmpty_false _) Hne), Hx.
  unfold window_valid. rewrite !(Z.leb_antisym), <- !negb_orb.
  destruct (_ || _ || _); [done|]. unfold PolicyValue_UpdateFinal.
  rewrite Hs, (proj2 (IsEmpty_false _) Hne), Hx. done.
Qed.

End Effective.

(** ** What the registry values come to *)

(** The keys of the map stay in order. *)
Definition settings_sorted (m : SettingsMap) : Prop := StronglySorted Z.lt m.*1.

Lemma settings_update_keys g f m x :
  x ∈ (settings_update g f m).*1 -> x = g \/ x ∈ m.*1.
Proof.
  induction m as [|[g' s] m IH]; cbn [settings_update].
  - intros Hx. left. by apply list_elem_of_singleton in Hx.
  - destruct (g =? g'); [by right|]. destruct (g <? g').
    + cbn. intros [->|Hx]%elem_of_cons; [by left|by right].
    + cbn. intros [->|Hx]%elem_of_cons; [right; by left|].
      destruct (IH Hx) as [->|]; [by left|right; by right].
Qed.

Lemma settings_update_sorted g f m : settings_sorted m -> settings_sorted (settings_update g f m).
Proof.
  unfold settings_sorted. induction m as [|[g' s] m IH]; cbn [settings_update]; intros Hs.
  - repeat constructor.
  - destruct (Z.eqb_spec g g'); [exact Hs|]. destruct (Z.ltb_spec g g').
    + cbn. constructor; [exact Hs|]. constructor; [done|].
      apply StronglySorted_inv in Hs as [_ Hf]. eapply Forall_impl; [exact Hf|]. intros; simpl in *; lia.
    + apply StronglySorted_inv in Hs as [Hs Hf]. cbn. constructor; [by apply IH|].
      apply Forall_forall. intros x Hx.
      destruct (settings_update_keys g f m x Hx) as [->|Hx']; [lia|].
      rewrite Forall_forall in Hf. by apply Hf.
Qed.

Lemma settings_lookup_above g m : Forall (fun x => g < x) m.*1 -> settings_lookup g m = None.
Proof.
  induction m as [|[g' s] m IH]; cbn; [done|]. intros [Hlt Hf]%Forall_cons.
  destruct (Z.eqb_spec g g'); [lia|by apply IH].
Qed.

Lemma settings_lookup_update g g' f m :
  settings_sorted m ->
  settings_lookup g' (settings_update g f m) =
  if g' =? g then Some (f (default ApplicationSettings_default (settings_lookup g m)))
  else settings_lookup g' m.
Proof.
  unfold settings_sorted. induction m as [|[k s] m IH]; cbn [settings_update settings_lookup]; intros Hs.
  - by destruct (g' =? g).
  - apply StronglySorted_inv in Hs as [Hs Hf].
    destruct (Z.eqb_spec g k) as [->|Hne]; cbn [settings_lookup].
    + by destruct (Z.eqb_spec g' k).
    + destruct (Z.ltb_spec g k) as [Hlt|Hge]; cbn [settings_lookup].
      * destruct (Z.eqb_spec g' g) as [->|]; [|done].
        rewrite settings_lookup_above; [done|]. eapply Forall_impl; [exact Hf|]. intros; simpl in *; lia.
      * rewrite IH by done. destruct (Z.eqb_spec g' k) as [->|]; [|done].
        by destruct (Z.eqb_spec k g).
Qed.

Section Registry.
Context `{GuidOps}.

Lemma load_app_policy_sorted n v m : settings_sorted m -> settings_sorted (load_app_policy n v m).
Proof. intros Hs. unfold load_app_policy. repeat case_match; auto using settings_update_sorted. Qed.

(** The update policy of one application in a map. *)
Definition update_of (g : GUID) (m : SettingsMap) : Z :=
  match settings_lookup g m with Some s => as_update s | None => -1 end.

(** Whether a registry value is the update policy of [g], and which. *)
Definition update_value (g : GUID) (nv : CString * RegValue) : option Z :=
  match app_policy_name nv.1, nv.2 with
  | Some (policy_name, app_id), REG_DWORD d =>
      if (app_id =? g) && EqualNoCase policy_name (_T "Update")
         && negb (EqualNoCase policy_name (_T "Install"))
      then Some d else None
  | _, _ => None
  end.

Lemma load_app_policy_update g nv m :
  settings_sorted m ->
  update_of g (load_app_policy nv.1 nv.2 m) =
  match update_value g nv with Some d => s32 d | None => update_of g m end.
Proof.
  intros Hs. unfold update_value, load_app_policy, update_of.
  destruct (app_policy_name nv.1) as [[pn a]|]; [|done].
  destruct nv.2 as [d|str|ty]; [| |done].
  - destruct (EqualNoCase pn (_T "Install")).
    { rewrite andb_false_r, settings_lookup_update by done.
      destruct (Z.eqb_spec g a) as [->|]; [|done]. by destruct (settings_lookup a m). }
    destruct (EqualNoCase pn (_T "Update")).
    { rewrite !andb_true_r, settings_lookup_update, (Z.eqb_sym a g) by done. by destruct (g =? a). }
    rewrite andb_false_r, andb_false_l.
    destruct (EqualNoCase pn _); [|done]. rewrite settings_lookup_update by done.
    destruct (Z.eqb_spec g a) as [->|]; [|done]. by destruct (settings_lookup a m).
  - repeat (destruct (EqualNoCase pn _)); try done; rewrite settings_lookup_update by done;
      destruct (Z.eqb_spec g a) as [->|]; try done; by destruct (settings_lookup a m).
Qed.

(** If every value that is the update policy of [g] says [d], and there is
    one, the loaded policy is [d]. *)
Lemma load_app_policies_update g d key :
  (exists nv, nv ∈ key /\ update_value g nv = Some d) ->
  (forall nv d', nv ∈ key -> update_value g nv = Some d' -> d' = d) ->
  update_of g (load_app_policies key) = s32 d.
Proof.
  intros Hex Hall. unfold load_app_policies.
  assert (forall m, settings_sorted m ->
    update_of g (fold_left (fun m nv => load_app_policy nv.1 nv.2 m) key m) = s32 d
    \/ (update_of g (fold_left (fun m nv => load_app_policy nv.1 nv.2 m) key m) = update_of g m
        /\ forall nv, nv ∈ key -> update_value g nv = None)) as Hfold.
  { clear Hex. revert Hall. induction key as [|nv key IH]; intros Hall m Hs; [right; split; [done|]|].
    { intros nv Hnv. by apply not_elem_of_nil in Hnv. }
    cbn [fold_left].
    destruct (IH ltac:(intros; eapply Hall; [by right|done]) (load_app_policy nv.1 nv.2 m)
                (load_app_policy_sorted _ _ _ Hs)) as [Hl|[Hl Hno]]; [by left|].
    rewrite Hl, load_app_policy_update by done.
    destruct (update_value g nv) as [d'|] eqn:Ed.
    - left. f_equal. eapply Hall; [by left|done].
    - right. split; [done|]. intros nv' [->|Hin]%elem_of_cons; [done|by apply Hno]. }
  destruct (Hfold [] ltac:(constructor)) as [?|[_ Hno]]; [done|].
  destruct Hex as (nv & Hin & Hv). specialize (Hno nv Hin). congruence.
Qed.

Lemma app_policy_name_of prefix g :
  prefix <> [] -> forallb (fun c => negb (c =? 123)) prefix = true -> 0 < g < 2 ^ 128 ->
  app_policy_name (prefix ++ GuidToString g) = Some (prefix, g).
Proof.
  intros Hne Hp Hg. unfold app_policy_name, find_brace.
  destruct (GuidToString_brace g) as [t Ht].
  assert (take_while (fun c => negb (c =? 123)) (prefix ++ GuidToString g) = prefix) as ->
    by (rewrite Ht; by apply take_while_stop).
  assert (drop_while (fun c => negb (c =? 123)) (prefix ++ GuidToString g) = GuidToString g) as ->.
  { rewrite Ht. clear Hne. induction prefix as [|c prefix IH]; [done|].
    cbn in Hp |- *. apply andb_true_iff in Hp as [-> Hp]. by apply IH. }
  rewrite (proj2 (IsEmpty_false prefix) Hne), GuidToString_length, StringToGuidSafe_GuidToString by lia.
  assert (IsEmpty (GuidToString g) = false) as -> by (by rewrite Ht).
  simpl. destruct (Z.eqb_spec g GUID_NULL) as [->|]; [unfold GUID_NULL in *; lia|done].
Qed.

(** What loading an open key of a managed machine leaves. *)
Lemma LoadPolicies_managed_open values cm hr cm' :
  LoadPolicies true (KeyOpen values) cm = Some (hr, cm') ->
  let p := pm_policy (cm_group_policy_manager cm') in
  cp_is_managed p = true /\ cp_is_initialized p = true
  /\ cp_application_settings p = load_app_policies values
  /\ (cm_are_cloud_policies_preferred cm' = false ->
      policies_ cm' = [cm_group_policy_manager cm'; cm_dm_policy_manager cm']).
Proof.
  unfold LoadPolicies, LoadGroupPolicies. intros Hl. injection Hl as _ <-.
  cbn [cm_group_policy_manager OmahaPolicyManager_set_policy pm_policy cp_is_managed
       cp_is_initialized cp_application_settings cm_are_cloud_policies_preferred].
  split_and!; try done. intros Hpref. unfold policies_. cbn [cm_policies].
  by rewrite Hpref.
Qed.

End Registry.

(** ** A concrete instance of the conversions

    The text of a GUID: a brace, 36 characters and a brace; here the 32 hex
    digits of the number padded with dashes.  It meets the laws of [GuidOps]
    and serves the concrete runs. *)

Fixpoint hex_digits (n : nat) (z : Z) : CString :=
  match n with
  | O => []
  | S n' => hex_digits n' (z / 16) ++ [digit_char (z mod 16)]
  end.

Fixpoint hex_number (s : CString) (acc : Z) : Z :=
  match s with
  | [] => acc
  | c :: s' => hex_number s' (acc * 16 + (if c <? 97 then c - 48 else c - 87))
  end.

Definition guid_text (g : GUID) : CString := 123 :: hex_digits 32 g ++ _T "----" ++ [125].

Definition guid_of_text (s : CString) : option GUID :=
  if bool_decide (guid_text (hex_number (take 32 (tail s)) 0) = s)
  then Some (hex_number (take 32 (tail s)) 0) else None.

Lemma hex_digits_length n z : length (hex_digits n z) = n.
Proof. revert z. induction n as [|n IH]; intros z; simpl; [done|]. rewrite length_app, IH. simpl. lia. Qed.

Lemma hex_value_app a b acc : hex_number (a ++ b) acc = hex_number b (hex_number a acc).
Proof. revert acc. induction a as [|c a IH]; intros acc; simpl; [done|]. by rewrite IH. Qed.

Lemma hex_value_digits n z :
  0 <= z < 16 ^ Z.of_nat n -> hex_number (hex_digits n z) 0 = z.
Proof.
  revert z. induction n as [|n IH]; intros z Hz; [simpl in *; lia|].
  cbn [hex_digits]. rewrite hex_value_app, IH.
  2:{ rewrite Nat2Z.inj_succ, Z.pow_succ_r in Hz by lia.
      split; [apply Z.div_pos; lia|apply Z.div_lt_upper_bound; lia]. }
  pose proof (Z.mod_pos_bound z 16 ltac:(lia)). pose proof (Z.div_mod z 16 ltac:(lia)).
  cbn [hex_number]. unfold digit_char, u16.
  destruct (Z.ltb_spec 9 (z mod 16)); rewrite Z.mod_small by lia.
  - destruct (Z.ltb_spec (97 + z mod 16 - 10) 97); lia.
  - destruct (Z.ltb_spec (48 + z mod 16) 97); lia.
Qed.

(** The digits are lower-case letters and figures. *)
Lemma hex_digits_plain n z : Forall (fun c => 48 <= c <= 57 \/ 97 <= c <= 122) (hex_digits n z).
Proof.
  revert z. induction n as [|n IH]; intros z; cbn [hex_digits]; [done|]. apply Forall_app. split; [apply IH|].
  apply Forall_singleton. pose proof (Z.mod_pos_bound z 16 ltac:(lia)). unfold digit_char, u16.
  destruct (Z.ltb_spec 9 (z mod 16)); rewrite Z.mod_small by lia; lia.
Qed.

Lemma guid_text_plain g : Forall (fun c => c <> 92 /\ (c < 65 \/ 90 < c)) (guid_text g).
Proof.
  unfold guid_text. apply Forall_cons. split; [lia|]. apply Forall_app. split; [|by apply (bool_decide_eq_true_1 _)].
  eapply Forall_impl; [apply hex_digits_plain|]. cbn. lia.
Qed.

Lemma guid_text_lower g : MakeLower (guid_text g) = guid_text g.
Proof.
  pose proof (guid_text_plain g) as Hp. unfold MakeLower. induction Hp as [|c l [_ Hc] _ IH]; [done|].
  rewrite fmap_cons, IH. f_equal. unfold String_ToLowerChar. destruct (_ && _) eqn:E; [|done].
  apply andb_true_iff in E as [?%Z.leb_le ?%Z.leb_le]. lia.
Qed.

Lemma guid_of_guid_text g : 0 <= g < 2 ^ 128 -> guid_of_text (guid_text g) = Some g.
Proof.
  intros Hg. unfold guid_of_text. assert (hex_number (take 32 (tail (guid_text g))) 0 = g) as ->.
  { cbn [guid_text tail]. rewrite take_app_length' by (by rewrite hex_digits_length). by apply hex_value_digits. }
  by rewrite bool_decide_eq_true_2.
Qed.

#[refine]
Definition guid_ops : GuidOps := {|
  GuidToString := guid_text;
  StringToGuidSafe := guid_of_text;
  StringToGuidSafe_GuidToString := _;
  GuidToString_length := _;
  GuidToString_brace := _;
  GuidToString_plain := _;
  StringToGuidSafe_lower := _
|}.
Proof.
  - apply guid_of_guid_text.
  - intros g. unfold guid_text. cbn [length]. rewrite !length_app, hex_digits_length. done.
  - intros g. eexists. reflexivity.
  - intros g. eapply Forall_impl; [apply guid_text_plain|]. by intros c [? _].
  - intros g Hg. rewrite guid_text_lower. by apply guid_of_guid_text.
Defined.

(** ** The theorems *)

Section Theorems.
Context `{GuidOps}.

(** C38. The update policy in force for an application is that of the first
    managed source, in the order of [policies_], that has one for it; sources
    that are not managed never decide, and without any managed value updates
    are enabled.  [CanUpdateApp] follows from it, except that Omaha itself can
    always be updated. *)
Theorem update_policy_precedence u cm g manual :
  cm_reachable cm ->
  ConfigManager_CanUpdateApp u cm g manual =
  (kGoopdateGuid =? g)
  || match first_managed (OmahaPolicyManager_GetEffectivePolicyForAppUpdates g) (policies_ cm) with
     | None => true
     | Some (_, x) =>
         negb (x =? kPolicyDisabled)
         && negb ((x =? kPolicyManualUpdatesOnly) && negb manual)
         && negb ((x =? kPolicyAutomaticUpdatesOnly) && manual)
     end.
Proof.
  intros Hr. unfold ConfigManager_CanUpdateApp. rewrite effective_updates by done.
  destruct (kGoopdateGuid =? g); [done|].
  destruct (first_managed _ _) as [[src x]|]; [|by destruct manual].
  rewrite (Z.eqb_sym x kPolicyDisabled), (Z.eqb_sym x kPolicyManualUpdatesOnly),
    (Z.eqb_sym x kPolicyAutomaticUpdatesOnly).
  destruct (kPolicyDisabled =? x), (kPolicyManualUpdatesOnly =? x),
    (kPolicyAutomaticUpdatesOnly =? x), manual; done.
Qed.

(** On a machine that is not enterprise managed the values of the group
    policy key are read but not respected: whatever two states of the key are
    loaded, every install, update and suppression decision is the same. *)
Theorem unmanaged_group_policy_ignored u cm key1 key2 hr1 hr2 cm1 cm2 :
  cm_reachable cm ->
  LoadPolicies false key1 cm = Some (hr1, cm1) -> SUCCEEDED hr1 = true ->
  LoadPolicies false key2 cm = Some (hr2, cm2) -> SUCCEEDED hr2 = true ->
  (forall g manual, ConfigManager_CanUpdateApp u cm1 g manual = ConfigManager_CanUpdateApp u cm2 g manual)
  /\ (forall g machine, ConfigManager_CanInstallApp u cm1 g machine = ConfigManager_CanInstallApp u cm2 g machine)
  /\ (forall h m, ConfigManager_AreUpdatesSuppressedNow cm1 h m = ConfigManager_AreUpdatesSuppressedNow cm2 h m).
Proof.
  intros Hr Hl1 Hs1 Hl2 Hs2.
  pose proof (cm_reachable_load _ _ _ _ _ Hr Hl1) as Hr1.
  pose proof (cm_reachable_load _ _ _ _ _ Hr Hl2) as Hr2.
  split_and!.
  - intros g manual. unfold ConfigManager_CanUpdateApp.
    by rewrite !effective_updates, (first_managed_unmanaged _ _ _ _ _ Hl1 Hs1),
      (first_managed_unmanaged _ _ _ _ _ Hl2 Hs2) by done.
  - intros g machine. unfold ConfigManager_CanInstallApp.
    by rewrite !effective_installs, (first_managed_unmanaged _ _ _ _ _ Hl1 Hs1),
      (first_managed_unmanaged _ _ _ _ _ Hl2 Hs2) by done.
  - intros h m. rewrite !AreUpdatesSuppressedNow_first by done.
    by rewrite (first_managed_unmanaged _ _ _ _ _ Hl1 Hs1), (first_managed_unmanaged _ _ _ _ _ Hl2 Hs2).
Qed.

(** Updates are suppressed now exactly when the deciding source's window
    is within bounds and the time of day lies in it, read on a 24-hour clock:
    at or after the start and before the start plus the duration, also when
    the window runs past midnight. *)
Theorem updates_suppressed_window cm h m :
  cm_reachable cm -> 0 <= h < 24 -> 0 <= m < 60 ->
  ConfigManager_AreUpdatesSuppressedNow cm h m = true <->
  exists src t,
    first_managed OmahaPolicyManager_GetUpdatesSuppressedTimes (policies_ cm) = Some (src, t)
    /\ ust_start_hour t <= 23 /\ ust_start_min t <= 59 /\ ust_duration_min t <= 960
    /\ ((h * 60 + m) - (ust_start_hour t * 60 + ust_start_min t)) mod 1440 < ust_duration_min t.
Proof.
  intros Hr Hh Hm. rewrite AreUpdatesSuppressedNow_first by done.
  destruct (first_managed _ _) as [[src t]|] eqn:Ef; [|split; [done|by intros (? & ? & ? & _)]].
  apply first_managed_in in Ef as (pm & _ & _ & _ & Hg).
  apply OmahaPolicyManager_times_range in Hg as (R1 & R2 & R3).
  unfold window_valid. rewrite andb_true_iff, !andb_true_iff, !Z.leb_le.
  split.
  - intros [[[? ?] ?] Hlt]. exists src, t.
    rewrite clock_distance, s32_small in Hlt by lia. apply Z.ltb_lt in Hlt. auto with lia.
  - intros (src' & t' & Heq & ? & ? & ? & Hlt). injection Heq as <- <-.
    split; [lia|]. rewrite clock_distance, s32_small by lia. by apply Z.ltb_lt.
Qed.

(** The period between update checks is never below a minute, except when
    it is 0 (checks disabled), and always fits an [int]; the package cache
    limits stay between 1 and 5000 megabytes and between 1 and 1800 days,
    whatever the policies say. *)
Theorem configured_bounds u cm update_dev internal :
  cm_reachable cm ->
  (forall d, update_dev = Some d -> 0 <= d < 2 ^ 32) ->
  let '(sec, _, _) := ConfigManager_GetLastCheckPeriodSec cm update_dev internal in
  (sec = 0 \/ 60 <= sec <= INT_MAX)
  /\ 1 <= pv_value (ConfigManager_GetPackageCacheSizeLimitMBytes u cm).1 <= 5000
  /\ 1 <= pv_value (ConfigManager_GetPackageCacheExpirationTimeDays u cm).1 <= 1800.
Proof.
  intros Hr Hdev. pose proof (cm_reachable_sources _ Hr) as Hn.
  unfold ConfigManager_GetLastCheckPeriodSec, ConfigManager_GetPackageCacheSizeLimitMBytes,
    ConfigManager_GetPackageCacheExpirationTimeDays.
  rewrite (collect_final_value _ _ (policies_ cm) (PolicyValue_init u) 500), 
    (collect_final_value _ _ (policies_ cm) (PolicyValue_init u) 180) by done.
  set (v := match update_dev with Some _ => _ | None => _ end).
  destruct (PolicyValue_UpdateFinal _ _ v) as [v' status] eqn:Ev.
  split_and!; try (destruct (first_managed _ _) as [[src x]|] eqn:Ef; [|done];
    apply first_managed_in in Ef as (pm & _ & _ & _ & Hg); repeat case_match; by simplify_eq; lia).
  replace (pv_value v') with (pv_value (PolicyValue_UpdateFinal GetValueString_SecondsMinutes
    (if internal then kLastCheckPeriodInternalUserSec else kLastCheckPeriodSec) v).1) by (by rewrite Ev).
  clear Ev. subst v. destruct update_dev as [d|].
  - simpl. specialize (Hdev d eq_refl). unfold kMinLastCheckPeriodSec, INT_MAX.
    repeat case_match; lia.
  - rewrite collect_final_value by done.
    destruct (first_managed _ _) as [[src x]|] eqn:Ef; [|by destruct internal; right].
    apply first_managed_in in Ef as (pm & _ & _ & _ & Hg).
    destruct (OmahaPolicyManager_GetLastCheckPeriodMinutes pm) as [mins|] eqn:Em; [|done].
    assert (0 <= mins) by (unfold OmahaPolicyManager_GetLastCheckPeriodMinutes in Em;
      repeat case_match; simplify_eq; apply u32_range).
    injection Hg as <-. unfold INT_MAX. repeat case_match; lia.
Qed.

(** A DWORD value named "Update" followed by an application's GUID in the
    group policy key decides on a managed machine, unless cloud policies are
    preferred: 0 disables updates of that application, 2 leaves manual and 3
    automatic updates only, other values enable them. *)
Theorem group_policy_update_value u cm values hr cm' g d manual :
  cm_reachable cm ->
  LoadPolicies true (KeyOpen values) cm = Some (hr, cm') ->
  cm_are_cloud_policies_preferred cm' = false ->
  0 < g < 2 ^ 128 -> g <> kGoopdateGuid -> 0 <= d < 2 ^ 31 ->
  (_T "Update" ++ GuidToString g, REG_DWORD d) ∈ values ->
  (forall nv d', nv ∈ values -> update_value g nv = Some d' -> d' = d) ->
  ConfigManager_CanUpdateApp u cm' g manual =
  negb (d =? 0) && negb ((d =? 2) && negb manual) && negb ((d =? 3) && manual).
Proof.
  intros Hr Hl Hpref Hg Hne Hd Hin Hall.
  pose proof (cm_reachable_load _ _ _ _ _ Hr Hl) as Hr'.
  unfold ConfigManager_CanUpdateApp. rewrite effective_updates by done.
  destruct (Z.eqb_spec kGoopdateGuid g); [congruence|].
  assert (update_of g (load_app_policies values) = d) as Hup.
  { rewrite <- (s32_small d) by lia. apply load_app_policies_update; [|done].
    eexists. split; [exact Hin|]. unfold update_value. cbn [fst snd].
    rewrite app_policy_name_of by done. rewrite Z.eqb_refl. done. }
  destruct (LoadPolicies_managed_open _ _ _ _ Hl) as (Hm & Hi & Hs & Hp).
  assert (first_managed (OmahaPolicyManager_GetEffectivePolicyForAppUpdates g) (policies_ cm') =
          Some (pm_source (cm_group_policy_manager cm'), d)) as ->.
  { rewrite (Hp Hpref). cbn [first_managed].
    unfold OmahaPolicyManager_GetEffectivePolicyForAppUpdates at 1, OmahaPolicyManager_IsManaged at 1.
    rewrite Hi, Hs, Hm. cbn [negb]. unfold update_of in Hup.
    destruct (settings_lookup g _) as [st|]; [|lia]. rewrite Hup.
    destruct (Z.eqb_spec d (-1)); [lia|]. cbn [negb]. by rewrite u32_small by lia. }
  rewrite (Z.eqb_sym d 0), (Z.eqb_sym d 2), (Z.eqb_sym d 3).
  unfold kPolicyDisabled, kPolicyManualUpdatesOnly, kPolicyAutomaticUpdatesOnly.
  destruct (0 =? d), (2 =? d), (3 =? d), manual; done.
Qed.

End Theorems.

(** ** Concrete runs *)

Definition example_guid : GUID := 0x77.

(** A managed machine whose key disables the updates of [example_guid] and
    suppresses updates from 22:30 for eight hours. *)
Definition example_values : RegKeyValues :=
  [(_T "Update" ++ guid_text example_guid, REG_DWORD 0);
   (_T "UpdatesSuppressedStartHour", REG_DWORD 22);
   (_T "UpdatesSuppressedStartMin", REG_DWORD 30);
   (_T "UpdatesSuppressedDurationMin", REG_DWORD 480)].

Definition example_load (managed : bool) (key : GroupPolicyKey) : ConfigManager :=
  match @LoadPolicies guid_ops managed key ConfigManager_init with
  | Some (_, cm) => cm
  | None => ConfigManager_init
  end.

Lemma example_load_eq managed values :
  @LoadPolicies guid_ops managed (KeyOpen values) ConfigManager_init =
  Some (S_OK, example_load managed (KeyOpen values)).
Proof. reflexivity. Qed.

Lemma example_reachable managed values :
  @cm_reachable guid_ops (example_load managed (KeyOpen values)).
Proof.
  eapply cm_reachable_load; [apply cm_reachable_init|apply example_load_eq].
Qed.

Lemma update_policy_precedence_witness :
  ConfigManager_CanUpdateApp 0 (example_load true (KeyOpen example_values)) example_guid true = false.
Proof.
  rewrite (@update_policy_precedence guid_ops 0 _ example_guid true (example_reachable _ _)).
  vm_compute. reflexivity.
Defined.

Lemma unmanaged_group_policy_ignored_witness :
  ConfigManager_CanUpdateApp 0 (example_load false (KeyOpen example_values)) example_guid true =
  ConfigManager_CanUpdateApp 0 (example_load false (KeyOpen [])) example_guid true.
Proof.
  destruct (@unmanaged_group_policy_ignored guid_ops 0 ConfigManager_init
    (KeyOpen example_values) (KeyOpen []) S_OK S_OK
    (example_load false (KeyOpen example_values)) (example_load false (KeyOpen []))
    (@cm_reachable_init guid_ops) (example_load_eq _ _) eq_refl (example_load_eq _ _) eq_refl) as [Hu _].
  exact (Hu example_guid true).
Defined.

Lemma updates_suppressed_window_witness :
  ConfigManager_AreUpdatesSuppressedNow (example_load true (KeyOpen example_values)) 3 15 = true.
Proof.
  apply (@updates_suppressed_window guid_ops); [apply example_reachable|lia|lia|].
  exists (_T "Group Policy"), (mkUpdatesSuppressedTimes 22 30 480).
  split; [vm_compute; reflexivity|]. split; [vm_compute; discriminate|].
  split; [vm_compute; discriminate|]. split; [vm_compute; discriminate|]. reflexivity.
Defined.

Lemma configured_bounds_witness :
  1 <= pv_value (ConfigManager_GetPackageCacheSizeLimitMBytes 7 (example_load true (KeyOpen example_values))).1 <= 5000.
Proof.
  pose proof (@configured_bounds guid_ops 7 (example_load true (KeyOpen example_values)) (Some 5) false
    (example_reachable _ _) ltac:(intros d Hd; injection Hd as <-; lia)) as Hb.
  destruct (ConfigManager_GetLastCheckPeriodSec _ _ _) as [[sec o] st]. apply Hb.
Defined.

Lemma group_policy_update_value_witness :
  ConfigManager_CanUpdateApp 0 (example_load true (KeyOpen example_values)) example_guid false = false.
Proof.
  apply (@group_policy_update_value guid_ops 0 ConfigManager_init example_values S_OK
           (example_load true (KeyOpen example_values)) example_guid 0 false).
  - apply cm_reachable_init.
  - apply example_load_eq.
  - reflexivity.
  - unfold example_guid. lia.
  - discriminate.
  - lia.
  - left.
  - intros nv d' Hin Hv. unfold example_values in Hin.
    repeat (apply elem_of_cons in Hin as [->|Hin]; [vm_compute in Hv; congruence|]).
    by apply not_elem_of_nil in Hin.
Defined.

(** The status of a policy reports a conflict that is not there: the flag is
    computed when a source that is not managed is seen first, against a value
    not yet set, and is not computed again when the managed source's equal
    value arrives. *)
Definition example_channel (managed : bool) (source : CString) : OmahaPolicyManager :=
  mkOmahaPolicyManager source
    (mkCachedOmahaPolicy managed true (-1) [] (-1) (-1) (mkUpdatesSuppressed (-1) (-1) (-1))
       [] [] [] (-1) (-1) [(example_guid, mkApplicationSettings (-1) (-1) (_T "beta") [] (-1))]).

Example spurious_policy_conflict :
  let cm := mkConfigManager (example_channel false (_T "Group Policy"))
              (example_channel true (_T "Device Management")) false
              [SourceGroupPolicy; SourceDeviceManagement] in
  let status := (ConfigManager_GetTargetChannel cm example_guid).2 in
  psv_has_conflict status = true /\ psv_value status = _T "beta" /\ psv_conflict_value status = _T "beta".
Proof. vm_compute. split_and!; reflexivity. Qed.
