(* ===== verification/Package.v ===== *)
(** Packages and application versions: the progress sampler
    (omaha/common/progress_sampler.h), [Package] (goopdate/package.cc) and
    [AppVersion] (goopdate/app_version.cc). *)

From stdpp Require Import sorting.
From S2P Require Import Prelude Hresult CStrings Protocol.

(** ** [ProgressSampler<int>]

    The queue of samples, oldest first. *)

Record Sample := mkSample { sample_timestamp : Z; sample_value : Z }.

Record ProgressSampler := mkProgressSampler {
  sample_time_range_ms : Z;
  minimum_range_required_ms : Z;
  samples : list Sample
}.

Definition kUnknownProgressPerMs : Z := -1.

Definition ProgressSampler_init (range minimum : Z) : ProgressSampler := mkProgressSampler range minimum [].

Definition with_samples (l : list Sample) (p : ProgressSampler) : ProgressSampler :=
  mkProgressSampler (sample_time_range_ms p) (minimum_range_required_ms p) l.

Definition ProgressSampler_Reset (p : ProgressSampler) : ProgressSampler := with_samples [] p.

(** The loop that discards old samples, always keeping two. *)
Fixpoint discard_old (range back : Z) (l : list Sample) : list Sample :=
  match l with
  | [] => []
  | front :: rest =>
      if (range <? u64 (back - sample_timestamp front)) && (2 <? Z.of_nat (length l))
      then discard_old range back rest
      else l
  end.

Definition ProgressSampler_AddSample (timestamp_in_ms value : Z) (p : ProgressSampler) : ProgressSampler :=
  match last (samples p) with
  | Some back =>
      if (value <? sample_value back) || (timestamp_in_ms <? sample_timestamp back)
      then ProgressSampler_Reset p
      else with_samples (discard_old (sample_time_range_ms p) timestamp_in_ms
                           (samples p ++ [mkSample timestamp_in_ms value])) p
  | None => with_samples [mkSample timestamp_in_ms value] p
  end.

(** The oldest and the newest sample, when there are two at least. *)
Definition sampler_ends (p : ProgressSampler) : option (Sample * Sample) :=
  match samples p, last (samples p) with
  | front :: _ :: _, Some back => Some (front, back)
  | _, _ => None
  end.

Definition ProgressSampler_HasEnoughSamples (p : ProgressSampler) : bool :=
  match sampler_ends p with
  | None => false
  | Some (front, back) =>
      minimum_range_required_ms p <? u64 (sample_timestamp back - sample_timestamp front)
  end.

Definition ProgressSampler_GetAverageProgressPerMs (p : ProgressSampler) : Z :=
  if negb (ProgressSampler_HasEnoughSamples p) then kUnknownProgressPerMs
  else
    match sampler_ends p with
    | None => kUnknownProgressPerMs
    | Some (front, back) =>
        let time_diff := u64 (sample_timestamp back - sample_timestamp front) in
        s32 (Z.quot (s32 (sample_value back - sample_value front)) (s32 time_diff))
    end.

(** ** [Package] *)

Record Package := mkPackage {
  filename : CString;
  expected_size : Z;
  expected_hash : CString;
  bytes_downloaded : Z;
  bytes_total : Z;
  next_download_retry_time : Z;
  progress_sampler : ProgressSampler
}.

(** The constructor followed by [SetFileInfo], as [AppVersion::AddPackage]
    calls them. *)
Definition Package_init : Package :=
  mkPackage [] 0 [] 0 0 0 (ProgressSampler_init 5000 1000).

Definition Package_SetFileInfo (name : CString) (size : Z) (hash : CString) (p : Package) : Package :=
  mkPackage name size hash (bytes_downloaded p) (bytes_total p) (next_download_retry_time p)
    (progress_sampler p).

(** [now_ms] is the time stamp [AddSampleWithCurrentTimeStamp] takes. *)
Definition Package_OnProgress (now_ms bytes total : Z) (p : Package) : Package :=
  mkPackage (filename p) (expected_size p) (expected_hash p) bytes total
    (next_download_retry_time p)
    (ProgressSampler_AddSample now_ms bytes (progress_sampler p)).

Definition Package_OnRequestBegin (p : Package) : Package :=
  mkPackage (filename p) (expected_size p) (expected_hash p) 0 0 0
    (ProgressSampler_Reset (progress_sampler p)).

Definition Package_OnRequestRetryScheduled (time : Z) (p : Package) : Package :=
  mkPackage (filename p) (expected_size p) (expected_hash p) (bytes_downloaded p) (bytes_total p)
    time (progress_sampler p).

(** [CeilingDivide<int>(m, n)]. *)
Definition CeilingDivide (m n : Z) : Z := Z.quot (s32 (m + n - 1)) n.

Definition Package_GetEstimatedRemainingDownloadTimeMs (p : Package) : Z :=
  let kUnknownRemainingTime := -1 in
  if bytes_total p =? 0 then kUnknownRemainingTime
  else if bytes_total p =? bytes_downloaded p then 0
  else
    let average_speed := ProgressSampler_GetAverageProgressPerMs (progress_sampler p) in
    if average_speed =? kUnknownProgressPerMs then kUnknownRemainingTime
    else if (bytes_downloaded p <=? bytes_total p) && (0 <? average_speed) then
      CeilingDivide (bytes_total p - bytes_downloaded p) average_speed
    else kUnknownRemainingTime.

(** ** [AppVersion] *)

Record AppVersion := mkAppVersion {
  version : CString;
  install_manifest : option InstallManifest;
  packages : list Package;
  download_base_urls : list CString
}.

Definition AppVersion_init : AppVersion := mkAppVersion [] None [] [].

Definition AppVersion_set_version (v : CString) (av : AppVersion) : AppVersion :=
  mkAppVersion v (install_manifest av) (packages av) (download_base_urls av).

Definition AppVersion_set_install_manifest (m : InstallManifest) (av : AppVersion) : AppVersion :=
  mkAppVersion (version av) (Some m) (packages av) (download_base_urls av).

Definition AppVersion_GetNumberOfPackages (av : AppVersion) : nat := length (packages av).

(** [None] is [E_INVALIDARG]. *)
Definition AppVersion_AddPackage (name : CString) (size : Z) (hash : CString) (av : AppVersion) :
    option AppVersion :=
  if IsEmpty hash then None
  else Some (mkAppVersion (version av) (install_manifest av)
               (packages av ++ [Package_SetFileInfo name (u32 size) hash Package_init])
               (download_base_urls av)).

Definition AppVersion_GetPackage (index : nat) (av : AppVersion) : option Package :=
  packages av !! index.

Definition AppVersion_AddDownloadBaseUrl (url : CString) (av : AppVersion) : HRESULT * AppVersion :=
  (S_OK, mkAppVersion (version av) (install_manifest av) (packages av)
           (download_base_urls av ++ [url])).

(** The COM accessors [get_packageCount] and [get_package]. *)
Definition AppVersion_get_packageCount (av : AppVersion) : option Z :=
  let num_packages := Z.of_nat (AppVersion_GetNumberOfPackages av) in
  if LONG_MAX <? num_packages then None else Some num_packages.

Definition AppVersion_get_package (index : Z) (av : AppVersion) : HRESULT * option Package :=
  if (index <? 0) || (Z.of_nat (AppVersion_GetNumberOfPackages av) <=? index)
  then (HRESULT_FROM_WIN32 ERROR_INVALID_INDEX, None)
  else (S_OK, AppVersion_GetPackage (Z.to_nat index) av).

(** Changing one package in place: the progress callbacks of the network. *)
Definition AppVersion_update_package (index : nat) (f : Package -> Package) (av : AppVersion) : AppVersion :=
  mkAppVersion (version av) (install_manifest av) (alter f index (packages av))
    (download_base_urls av).

(** ** Facts about the sampler *)

(** Later samples have later time stamps and larger values. *)
Definition Sample_le (a b : Sample) : Prop :=
  sample_timestamp a <= sample_timestamp b /\ sample_value a <= sample_value b.

Definition sampler_ok (p : ProgressSampler) : Prop :=
  StronglySorted Sample_le (samples p)
  /\ Forall (fun s => 0 <= sample_timestamp s < 2 ^ 64) (samples p)
  /\ Forall (fun s => 0 <= sample_value s < 2 ^ 31) (samples p).

Lemma discard_old_suffix range back l : exists dropped, l = dropped ++ discard_old range back l.
Proof.
  induction l as [|front rest IH]; cbn [discard_old]; [by exists []|].
  destruct (_ && _); [|by exists []]. destruct IH as [d Hd]. exists (front :: d). by rewrite <- app_comm_cons, <- Hd.
Qed.

(** What is kept is within the range, or only two samples. *)
Lemma discard_old_span range back l front rest :
  discard_old range back l = front :: rest ->
  u64 (back - sample_timestamp front) <= range \/ (length (front :: rest) <= 2)%nat.
Proof.
  revert front rest. induction l as [|x l IH]; intros front rest; cbn [discard_old]; [done|].
  destruct (_ && _) eqn:E; [apply IH|]. intros Heq. injection Heq as <- <-.
  apply andb_false_iff in E as [E|E]; [left; apply Z.ltb_ge in E; lia|right; apply Z.ltb_ge in E; lia].
Qed.

Lemma discard_old_last range back l x : last (l ++ [x]) = Some x /\ last (discard_old range back (l ++ [x])) = Some x.
Proof.
  split; [apply last_snoc|]. induction l as [|y l IH]; cbn [discard_old app].
  - destruct (_ && _) eqn:E; [|done]. apply andb_true_iff in E as [_ E]. by apply Z.ltb_lt in E.
  - destruct (_ && _); [done|]. rewrite app_comm_cons. apply last_snoc.
Qed.

Lemma StronglySorted_suffix {A} (R : A -> A -> Prop) l1 l2 :
  StronglySorted R (l1 ++ l2) -> StronglySorted R l2.
Proof. induction l1 as [|x l1 IH]; simpl; [done|]. intros [Hs _]%StronglySorted_inv. by apply IH. Qed.

Lemma StronglySorted_snoc {A} (R : A -> A -> Prop) l x :
  StronglySorted R l -> Forall (fun y => R y x) l -> StronglySorted R (l ++ [x]).
Proof.
  induction l as [|y l IH]; simpl; intros Hs Hf; [by repeat constructor|].
  apply StronglySorted_inv in Hs as [Hs Hy]. apply Forall_cons in Hf as [Hyx Hf].
  constructor; [by apply IH|]. apply Forall_app. split; [done|by repeat constructor].
Qed.

Lemma last_le l back s :
  StronglySorted Sample_le l -> last l = Some back -> s ∈ l -> Sample_le s back \/ s = back.
Proof.
  intros Hs Hl Hin. apply last_Some in Hl as [l' ->]. apply elem_of_app in Hin as [Hin|Hin].
  - left. clear -Hs Hin. induction l' as [|y l' IH]; [by apply not_elem_of_nil in Hin|].
    simpl in Hs. apply StronglySorted_inv in Hs as [Hs Hf].
    apply elem_of_cons in Hin as [->|Hin]; [|by apply IH].
    apply Forall_app in Hf as [_ Hf]. rewrite Forall_singleton in Hf. exact Hf.
  - right. by apply list_elem_of_singleton in Hin.
Qed.

Lemma AddSample_keeps ts v p :
  sampler_ok p -> 0 <= ts < 2 ^ 64 -> 0 <= v < 2 ^ 31 -> sampler_ok (ProgressSampler_AddSample ts v p).
Proof.
  intros (Hs & Ht & Hv) Hts Hval. unfold ProgressSampler_AddSample, sampler_ok.
  destruct (last (samples p)) as [back|] eqn:El; cbn [with_samples samples].
  2:{ split_and!; [repeat constructor|by apply Forall_singleton|by apply Forall_singleton]. }
  destruct (_ || _) eqn:E; [cbn; split_and!; constructor|].
  apply orb_false_iff in E as [E1 E2]. apply Z.ltb_ge in E1, E2. cbn [with_samples samples].
  destruct (discard_old_suffix (sample_time_range_ms p) ts (samples p ++ [mkSample ts v])) as [d Hd].
  assert (StronglySorted Sample_le (samples p ++ [mkSample ts v])) as Hsn.
  { apply StronglySorted_snoc; [done|]. apply Forall_forall. intros s Hin.
    destruct (last_le _ _ _ Hs El Hin) as [[? ?]| ->]; split; simpl; lia. }
  assert (Forall (fun s => 0 <= sample_timestamp s < 2 ^ 64) (samples p ++ [mkSample ts v])) as Htn
    by (apply Forall_app; split; [done|by apply Forall_singleton]).
  assert (Forall (fun s => 0 <= sample_value s < 2 ^ 31) (samples p ++ [mkSample ts v])) as Hvn
    by (apply Forall_app; split; [done|by apply Forall_singleton]).
  rewrite Hd in Hsn, Htn, Hvn. split_and!.
  - by apply StronglySorted_suffix in Hsn.
  - by apply Forall_app in Htn as [_ ?].
  - by apply Forall_app in Hvn as [_ ?].
Qed.

(** The ends of a well-formed queue are ordered. *)
Lemma sampler_ends_ok p front back :
  sampler_ok p -> sampler_ends p = Some (front, back) ->
  sample_timestamp front <= sample_timestamp back /\ sample_value front <= sample_value back
  /\ 0 <= sample_timestamp front /\ sample_timestamp back < 2 ^ 64
  /\ 0 <= sample_value front /\ sample_value back < 2 ^ 31.
Proof.
  intros (Hs & Ht & Hv) He. unfold sampler_ends in He.
  destruct (samples p) as [|f [|g l]]; [done|done|].
  destruct (last (f :: g :: l)) as [b|] eqn:El; [|done]. injection He as -> ->.
  assert (back ∈ g :: l) as Hin by (change (last (g :: l) = Some back) in El; by apply last_Some_elem_of).
  apply StronglySorted_inv in Hs as [_ Hf]. rewrite Forall_forall in Hf, Ht, Hv.
  destruct (Hf _ Hin) as [? ?].
  pose proof (Ht front ltac:(by left)). pose proof (Hv front ltac:(by left)).
  pose proof (Ht back ltac:(by right)). pose proof (Hv back ltac:(by right)). lia.
Qed.

(** A run of the sampler from its constructor: [None] is [Reset]. *)
Definition sampler_run (range minimum : Z) (events : list (option (Z * Z))) : ProgressSampler :=
  fold_left (fun p e => match e with
                        | Some (ts, v) => ProgressSampler_AddSample ts v p
                        | None => ProgressSampler_Reset p
                        end) events (ProgressSampler_init range minimum).

Lemma sampler_ok_nil p : samples p = [] -> sampler_ok p.
Proof. unfold sampler_ok. intros ->. split_and!; constructor. Qed.

Lemma sampler_run_ok range minimum events :
  (forall ts v, Some (ts, v) ∈ events -> 0 <= ts < 2 ^ 64 /\ 0 <= v < 2 ^ 31) ->
  sampler_ok (sampler_run range minimum events)
  /\ minimum_range_required_ms (sampler_run range minimum events) = minimum
  /\ sample_time_range_ms (sampler_run range minimum events) = range.
Proof.
  unfold sampler_run.
  assert (sampler_ok (ProgressSampler_init range minimum)
    /\ minimum_range_required_ms (ProgressSampler_init range minimum) = minimum
    /\ sample_time_range_ms (ProgressSampler_init range minimum) = range) as Hinit
    by (split_and!; [by apply sampler_ok_nil|done|done]).
  revert Hinit. generalize (ProgressSampler_init range minimum) as p.
  induction events as [|e events IH]; intros p Hp Hev; [done|]. cbn [fold_left].
  apply IH; [|intros ts v Hin; apply Hev; by right].
  destruct e as [[ts v]|]; [|split_and!; [by apply sampler_ok_nil|apply Hp|apply Hp]].
  destruct Hp as (Hok & Hm & Hr). destruct (Hev ts v ltac:(by left)) as [Hts Hv].
  split_and!; [by apply AddSample_keeps|..];
    unfold ProgressSampler_AddSample; repeat case_match; done.
Qed.

(** However samples arrive, with clock or value regressions in between,
    the average speed reported after them is either unknown, or the rounded
    down quotient of the bytes and the milliseconds between the oldest and the
    newest sample kept: it is never negative, for spans below [2^31]. *)
Theorem sampler_average range minimum events :
  0 <= minimum ->
  (forall ts v, Some (ts, v) ∈ events -> 0 <= ts < 2 ^ 64 /\ 0 <= v < 2 ^ 31) ->
  let p := sampler_run range minimum events in
  ProgressSampler_GetAverageProgressPerMs p = kUnknownProgressPerMs
  \/ exists front back, sampler_ends p = Some (front, back)
     /\ minimum < sample_timestamp back - sample_timestamp front
     /\ (sample_timestamp back - sample_timestamp front < 2 ^ 31 ->
         ProgressSampler_GetAverageProgressPerMs p =
           (sample_value back - sample_value front) / (sample_timestamp back - sample_timestamp front)
         /\ 0 <= ProgressSampler_GetAverageProgressPerMs p).
Proof.
  intros Hmin Hev p. destruct (sampler_run_ok range minimum events Hev) as (Hok & Hm & _). fold p in Hok, Hm.
  unfold ProgressSampler_GetAverageProgressPerMs, ProgressSampler_HasEnoughSamples.
  destruct (sampler_ends p) as [[front back]|] eqn:He; [|by left].
  destruct (sampler_ends_ok _ _ _ Hok He) as (H1 & H2 & H3 & H4 & H5 & H6).
  rewrite Hm, u64_small by lia.
  destruct (Z.ltb_spec minimum (sample_timestamp back - sample_timestamp front)) as [Hlt|Hge]; [|by left].
  right. exists front, back. split_and!; [done|done|]. intros Hspan. cbn [negb].
  rewrite (s32_small (sample_value back - _)), (s32_small (sample_timestamp back - _)) by lia.
  rewrite Z.quot_div_nonneg by lia.
  assert (0 <= (sample_value back - sample_value front) / (sample_timestamp back - sample_timestamp front)
          <= sample_value back - sample_value front) as Hq.
  { split; [apply Z.div_pos; lia|apply Z.div_le_upper_bound; nia]. }
  rewrite s32_small by lia. split; [done|lia].
Qed.

(** The remaining time is unknown, or the milliseconds the rest takes at the
    average speed, rounded up. *)
Lemma remaining_time_ceiling p :
  0 <= bytes_downloaded p < 2 ^ 30 -> 0 <= bytes_total p < 2 ^ 30 ->
  let r := Package_GetEstimatedRemainingDownloadTimeMs p in
  let speed := ProgressSampler_GetAverageProgressPerMs (progress_sampler p) in
  speed <= 2 ^ 30 ->
  r = -1 \/ r = 0 /\ bytes_downloaded p = bytes_total p
  \/ (0 < speed /\ bytes_downloaded p < bytes_total p
      /\ (r - 1) * speed < bytes_total p - bytes_downloaded p <= r * speed).
Proof.
  intros Hd Ht r speed Hs. unfold r, Package_GetEstimatedRemainingDownloadTimeMs. fold speed.
  destruct (Z.eqb_spec (bytes_total p) 0); [by left|].
  destruct (Z.eqb_spec (bytes_total p) (bytes_downloaded p)); [by right; left|].
  destruct (speed =? _); [by left|]. destruct (_ && _) eqn:E; [|by left].
  apply andb_true_iff in E as [E1 E2]. right. right. split_and!; [lia|lia|..];
    unfold CeilingDivide; rewrite s32_small, Z.quot_div_nonneg by lia;
    set (b := bytes_total p - bytes_downloaded p) in *;
    pose proof (Z.div_mod (b + speed - 1) speed ltac:(lia));
    pose proof (Z.mod_pos_bound (b + speed - 1) speed ltac:(lia)); nia.
Qed.

(** The example in the header of the class ends with an average of 2; the
    code computes 0 for it. *)
Example sampler_header_example :
  ProgressSampler_GetAverageProgressPerMs
    (sampler_run 500 100 [Some (0, 100); Some (20, 200); Some (200, 300)]) = 1
  /\ ProgressSampler_GetAverageProgressPerMs
    (sampler_run 500 100 [Some (0, 100); Some (20, 200); Some (200, 300); Some (520, 450)]) = 0.
Proof. vm_compute. split; reflexivity. Qed.

Lemma sampler_average_witness :
  let p := sampler_run 5000 1000 [Some (10, 0); None; Some (100, 0); Some (1200, 2300)] in
  ProgressSampler_GetAverageProgressPerMs p = kUnknownProgressPerMs
  \/ exists front back, sampler_ends p = Some (front, back)
     /\ 1000 < sample_timestamp back - sample_timestamp front
     /\ (sample_timestamp back - sample_timestamp front < 2 ^ 31 ->
         ProgressSampler_GetAverageProgressPerMs p =
           (sample_value back - sample_value front) / (sample_timestamp back - sample_timestamp front)
         /\ 0 <= ProgressSampler_GetAverageProgressPerMs p).
Proof.
  apply sampler_average; [lia|]. intros ts v Hin.
  repeat (apply elem_of_cons in Hin as [Hin|Hin]; [simplify_eq; lia|]).
  by apply not_elem_of_nil in Hin.
Defined.
