(* ===== verification/Registry.v ===== *)
(** The registry and its wrapper [RegKey] (omaha/base/reg_key.cc, reg_key.h).

    The registry is a map from key names to the values of the keys.  Names are
    compared without case; a key remembers the name it was created with.  The
    program has access to the keys it uses, a missing key or value is the
    failure the wrapper reports, and a value that is read as another type than
    it was written with reads as a failure. *)

From S2P Require Import Prelude Hresult CStrings Paths.

Inductive RegVal :=
| REG_DWORD (z : Z)
| REG_QWORD (z : Z)
| REG_SZ (s : CString).

Record RegKeyData := mkRegKey { rk_name : CString; rk_values : gmap CString RegVal }.

Abbreviation Registry := (gmap CString RegKeyData).
Abbreviation RegM := (St Registry).

Definition ERROR_MORE_DATA : Z := 234.

(** ** Names *)

Fixpoint trim_left (s : CString) : CString :=
  match s with
  | 92 :: s' => trim_left s'
  | _ => s
  end.
Definition trim_right (s : CString) : CString := reverse (trim_left (reverse s)).

Definition AppendRegKeyPath (one two : CString) : CString := trim_right one ++ 92 :: trim_left two.
Definition AppendRegKeyPath3 (one two three : CString) : CString := AppendRegKeyPath (AppendRegKeyPath one two) three.

(** The key of the map: separators at the end do not count. *)
Definition reg_name (full_key_name : CString) : CString := MakeLower (trim_right full_key_name).

Definition last_component (path : CString) : CString :=
  reverse (take_while (fun c => negb (c =? 92)) (reverse path)).

(** ** Reading *)

Definition reg_values (full_key_name : CString) (r : Registry) : option (gmap CString RegVal) :=
  rk_values <$> r !! reg_name full_key_name.
Definition reg_value (full_key_name value_name : CString) (r : Registry) : option RegVal :=
  values ← reg_values full_key_name r; values !! MakeLower value_name.

Definition RegKey_HasKey (full_key_name : CString) (r : Registry) : bool :=
  bool_decide (is_Some (reg_values full_key_name r)).
Definition RegKey_HasValue (full_key_name value_name : CString) (r : Registry) : bool :=
  bool_decide (is_Some (reg_value full_key_name value_name r)).

Definition RegKey_Open (full_key_name : CString) (r : Registry) : HRESULT :=
  if RegKey_HasKey full_key_name r then S_OK else HRESULT_FROM_WIN32 ERROR_FILE_NOT_FOUND.

Definition GetValueDword (full_key_name value_name : CString) (r : Registry) : HRESULT + Z :=
  match reg_value full_key_name value_name r with
  | None => inl (HRESULT_FROM_WIN32 ERROR_FILE_NOT_FOUND)
  | Some (REG_DWORD z) => inr z
  | Some _ => inl (HRESULT_FROM_WIN32 ERROR_MORE_DATA)
  end.
Definition GetValueQword (full_key_name value_name : CString) (r : Registry) : HRESULT + Z :=
  match reg_value full_key_name value_name r with
  | None => inl (HRESULT_FROM_WIN32 ERROR_FILE_NOT_FOUND)
  | Some (REG_QWORD z) => inr z
  | Some _ => inl (HRESULT_FROM_WIN32 ERROR_MORE_DATA)
  end.
Definition GetValueString (full_key_name value_name : CString) (r : Registry) : HRESULT + CString :=
  match reg_value full_key_name value_name r with
  | None => inl (HRESULT_FROM_WIN32 ERROR_FILE_NOT_FOUND)
  | Some (REG_SZ s) => inr s
  | Some _ => inl (HRESULT_FROM_WIN32 ERROR_MORE_DATA)
  end.

(** An output parameter that keeps its value when the call fails. *)
Definition out_or {A} (old : A) (x : HRESULT + A) : A :=
  match x with inl _ => old | inr a => a end.

(** The names of the keys directly below a key, and of its values with them. *)
Definition GetSubkeys (full_key_name : CString) (r : Registry) : list CString :=
  omap (fun kv => match child_name (reg_name full_key_name) kv.1 with
                  | Some _ => Some (rk_name kv.2)
                  | None => None
                  end) (map_to_list r).
Definition GetValues (full_key_name : CString) (r : Registry) : list (CString * RegVal) :=
  map_to_list (default ∅ (reg_values full_key_name r)).

(** ** Writing *)

Definition create_one (path : CString) (r : Registry) : Registry :=
  match r !! MakeLower path with
  | Some _ => r
  | None => <[MakeLower path := mkRegKey (last_component path) ∅]> r
  end.

(** [RegKey::Create]: the keys on the way are created, too. *)
Definition RegKey_Create (full_key_name : CString) : RegM HRESULT :=
  let path := trim_right full_key_name in
  modify (fun r => fold_left (fun r p => create_one p r) (parents path ++ [path]) r);;
  mret S_OK.

Definition put_value (full_key_name value_name : CString) (v : RegVal) (r : Registry) : Registry :=
  alter (fun k => mkRegKey (rk_name k) (<[MakeLower value_name := v]> (rk_values k))) (reg_name full_key_name) r.

(** [RegKey::SetValue] of a full name creates the key first. *)
Definition RegKey_SetValue (full_key_name value_name : CString) (v : RegVal) : RegM HRESULT :=
  RegKey_Create full_key_name;;
  modify (put_value full_key_name value_name v);;
  mret S_OK.

Definition remove_value (full_key_name value_name : CString) (r : Registry) : Registry :=
  alter (fun k => mkRegKey (rk_name k) (delete (MakeLower value_name) (rk_values k))) (reg_name full_key_name) r.

Definition RegKey_DeleteValue (full_key_name value_name : CString) : RegM HRESULT :=
  r ← get;
  if negb (RegKey_HasKey full_key_name r) then mret (HRESULT_FROM_WIN32 ERROR_FILE_NOT_FOUND)
  else if negb (RegKey_HasValue full_key_name value_name r) then mret S_FALSE
  else modify (remove_value full_key_name value_name);; mret S_OK.

Definition RegKey_RenameValue (full_key_name old_value_name new_value_name : CString) : RegM HRESULT :=
  r ← get;
  match reg_value full_key_name old_value_name r with
  | None => mret (HRESULT_FROM_WIN32 ERROR_FILE_NOT_FOUND)
  | Some v =>
      modify (put_value full_key_name new_value_name v);;
      RegKey_DeleteValue full_key_name old_value_name;;
      mret S_OK
  end.

Definition RegKey_CopyValue (full_from_key_name full_to_key_name value_name : CString) : RegM HRESULT :=
  r ← get;
  match reg_value full_from_key_name value_name r with
  | None => mret (HRESULT_FROM_WIN32 ERROR_FILE_NOT_FOUND)
  | Some v =>
      if negb (RegKey_HasKey full_to_key_name r) then mret (HRESULT_FROM_WIN32 ERROR_FILE_NOT_FOUND)
      else modify (put_value full_to_key_name value_name v);; mret S_OK
  end.

(** [RegKey::DeleteKey], with the keys below it. *)
Definition RegKey_DeleteKey (full_key_name : CString) : RegM HRESULT :=
  r ← get;
  if negb (RegKey_HasKey full_key_name r) then mret S_FALSE
  else
    modify (filter (fun kv => is_at_or_below (reg_name full_key_name) kv.1 = false));;
    mret S_OK.
