(* ===== verification/RegistryFacts.v ===== *)
(** The laws of the registry: what each operation does to the value of a name. *)

From S2P Require Import Prelude Hresult CStrings Paths Registry.

(** Both name the same value. *)
Definition same_value (k v k' v' : CString) : bool :=
  bool_decide (reg_name k = reg_name k') && bool_decide (MakeLower v = MakeLower v').

Lemma same_value_refl k v : same_value k v k v = true.
Proof. unfold same_value. by rewrite !bool_decide_eq_true_2. Qed.

(** ** Creating keys *)

Lemma create_one_value p r k v :
  (rk_values <$> create_one p r !! k) ≫= (.!! v) = (rk_values <$> r !! k) ≫= (.!! v).
Proof.
  unfold create_one. destruct (r !! MakeLower p) eqn:E; [done|]. destruct (decide (k = MakeLower p)) as [->|Hne].
  - rewrite lookup_insert_eq, E. done.
  - by rewrite lookup_insert_ne.
Qed.

Lemma create_one_mono p r k : is_Some (r !! k) -> is_Some (create_one p r !! k).
Proof.
  intros [x Hx]. unfold create_one. destruct (r !! MakeLower p) eqn:E; [by exists x|].
  destruct (decide (k = MakeLower p)) as [->|Hne]; [congruence|]. rewrite lookup_insert_ne by done. by exists x.
Qed.

Lemma create_one_self p r : is_Some (create_one p r !! MakeLower p).
Proof. unfold create_one. destruct (r !! MakeLower p) eqn:E; [by rewrite E|]. rewrite lookup_insert_eq. eauto. Qed.

Lemma eval_Create k r : eval (RegKey_Create k) r = S_OK.
Proof. done. Qed.

Lemma exec_Create k r :
  exec (RegKey_Create k) r = fold_left (fun r p => create_one p r) (parents (trim_right k) ++ [trim_right k]) r.
Proof. done. Qed.

Lemma reg_value_Create k v k' r : reg_value k v (exec (RegKey_Create k') r) = reg_value k v r.
Proof.
  rewrite exec_Create. generalize (parents (trim_right k') ++ [trim_right k']). intros l. revert r.
  induction l as [|p l IH]; intros r; [done|]. cbn [fold_left]. rewrite IH. apply create_one_value.
Qed.

Lemma HasKey_iff k r : RegKey_HasKey k r = true <-> is_Some (r !! reg_name k).
Proof. unfold RegKey_HasKey, reg_values. rewrite bool_decide_eq_true. by rewrite fmap_is_Some. Qed.

Lemma HasKey_Create_mono k k' r : RegKey_HasKey k r = true -> RegKey_HasKey k (exec (RegKey_Create k') r) = true.
Proof.
  rewrite !HasKey_iff, exec_Create. generalize (parents (trim_right k') ++ [trim_right k']). intros l. revert r.
  induction l as [|p l IH]; intros r Hk; [done|]. cbn [fold_left]. by apply IH, create_one_mono.
Qed.

Lemma HasKey_Create_self k r : RegKey_HasKey k (exec (RegKey_Create k) r) = true.
Proof.
  rewrite HasKey_iff, exec_Create, fold_left_app. cbn [fold_left]. apply create_one_self.
Qed.

(** ** Values *)

Lemma reg_value_HasKey k v r x : reg_value k v r = Some x -> RegKey_HasKey k r = true.
Proof. unfold reg_value, RegKey_HasKey. destruct (reg_values k r); [done|discriminate]. Qed.

Lemma reg_value_put k v k' v' x r :
  RegKey_HasKey k' r = true ->
  reg_value k v (put_value k' v' x r) = if same_value k v k' v' then Some x else reg_value k v r.
Proof.
  rewrite HasKey_iff. intros [d Hd]. unfold reg_value, reg_values, put_value, same_value.
  destruct (bool_decide_reflect (reg_name k = reg_name k')) as [Hk|Hk]; cbn [andb].
  - rewrite Hk, lookup_alter_eq, Hd. cbn. case_bool_decide as Hv; [by rewrite Hv, lookup_insert_eq|by rewrite lookup_insert_ne].
  - by rewrite lookup_alter_ne.
Qed.

Lemma reg_value_SetValue k v k' v' x r :
  reg_value k v (exec (RegKey_SetValue k' v' x) r) = if same_value k v k' v' then Some x else reg_value k v r.
Proof.
  unfold RegKey_SetValue. rewrite !exec_bind. change (exec (modify ?f) ?s) with (f s).
  rewrite exec_ret. change (exec (modify (put_value k' v' x)) ?s) with (put_value k' v' x s).
  rewrite reg_value_put by apply HasKey_Create_self. by rewrite reg_value_Create.
Qed.

Lemma eval_SetValue k v x r : eval (RegKey_SetValue k v x) r = S_OK.
Proof. done. Qed.

Lemma HasKey_put k k' v x r : RegKey_HasKey k (put_value k' v x r) = RegKey_HasKey k r.
Proof.
  unfold RegKey_HasKey, reg_values, put_value. destruct (decide (reg_name k = reg_name k')) as [->|Hne].
  - rewrite lookup_alter_eq. by destruct (r !! reg_name k').
  - by rewrite lookup_alter_ne.
Qed.

Lemma reg_value_DeleteValue k v k' v' r :
  reg_value k v (exec (RegKey_DeleteValue k' v') r) = if same_value k v k' v' then None else reg_value k v r.
Proof.
  unfold RegKey_DeleteValue. rewrite exec_bind. change (eval get r) with r. change (exec get r) with r.
  unfold RegKey_HasKey, RegKey_HasValue. destruct (reg_values k' r) as [vs|] eqn:Ek; cbn [negb].
  2:{ rewrite bool_decide_eq_false_2 by (by intros []). cbn. unfold same_value.
      destruct (bool_decide_reflect (reg_name k = reg_name k')) as [Hk|Hk]; cbn [andb]; [|done].
      case_bool_decide; [|done]. unfold reg_value, reg_values in *. by rewrite Hk, Ek. }
  rewrite bool_decide_eq_true_2 by eauto. cbn [negb].
  assert (exec (modify (remove_value k' v');; mret S_OK) r = remove_value k' v' r) as Hex by done.
  assert (reg_value k v (remove_value k' v' r) = if same_value k v k' v' then None else reg_value k v r) as Hrm.
  { unfold reg_value, reg_values, remove_value, same_value in *.
    destruct (bool_decide_reflect (reg_name k = reg_name k')) as [Hk|Hk]; cbn [andb].
    - rewrite Hk, lookup_alter_eq. destruct (r !! reg_name k'); [|discriminate Ek]. cbn.
      case_bool_decide as Hv; [by rewrite Hv, lookup_delete_eq|by rewrite lookup_delete_ne].
    - by rewrite lookup_alter_ne. }
  destruct (bool_decide_reflect (is_Some (reg_value k' v' r))) as [Hs|Hn]; cbn [negb]; [by rewrite Hex|].
  rewrite exec_ret. unfold same_value. destruct (bool_decide_reflect (reg_name k = reg_name k')) as [Hk|Hk]; cbn [andb]; [|done].
  case_bool_decide as Hv; [|done]. apply eq_None_not_Some. intros Hs. apply Hn. unfold reg_value, reg_values in *. by rewrite <- Hk, <- Hv.
Qed.

Lemma reg_value_RenameValue k v k' o n r :
  MakeLower o <> MakeLower n ->
  reg_value k v (exec (RegKey_RenameValue k' o n) r) =
    if same_value k v k' o then None
    else if same_value k v k' n then match reg_value k' o r with Some x => Some x | None => reg_value k v r end
    else reg_value k v r.
Proof.
  intros Hne. unfold RegKey_RenameValue. rewrite exec_bind. change (eval get r) with r. change (exec get r) with r.
  destruct (reg_value k' o r) as [x|] eqn:Eo.
  - rewrite !exec_bind, exec_ret, exec_modify, reg_value_DeleteValue.
    rewrite reg_value_put by (by eapply reg_value_HasKey). by destruct (same_value k v k' o), (same_value k v k' n).
  - rewrite exec_ret. unfold same_value. destruct (bool_decide_reflect (reg_name k = reg_name k')) as [Hk|Hk]; cbn [andb]; [|done].
    case_bool_decide as Hv; [|by case_bool_decide]. unfold reg_value, reg_values in *. by rewrite Hk, Hv, Eo.
Qed.

Lemma reg_value_CopyValue k v from to name r :
  same_value k v to name = false -> reg_value k v (exec (RegKey_CopyValue from to name) r) = reg_value k v r.
Proof.
  intros Hne. unfold RegKey_CopyValue. rewrite exec_bind. change (eval get r) with r. change (exec get r) with r.
  destruct (reg_value from name r); [|done]. destruct (RegKey_HasKey to r) eqn:Ek; cbn [negb]; [|done].
  rewrite exec_bind, exec_ret, exec_modify, reg_value_put by done. by rewrite Hne.
Qed.

Lemma reg_value_DeleteKey k v k' r :
  reg_value k v (exec (RegKey_DeleteKey k') r) =
    if RegKey_HasKey k' r && is_at_or_below (reg_name k') (reg_name k) then None else reg_value k v r.
Proof.
  unfold RegKey_DeleteKey. rewrite exec_bind. change (eval get r) with r. change (exec get r) with r.
  destruct (RegKey_HasKey k' r); cbn [negb andb]; [|done].
  rewrite exec_bind, exec_ret, exec_modify. unfold reg_value, reg_values. rewrite map_lookup_filter.
  destruct (r !! reg_name k) as [d|]; cbn; [|by destruct (is_at_or_below _ _)].
  destruct (is_at_or_below (reg_name k') (reg_name k)) eqn:E; [by rewrite option_guard_False|by rewrite option_guard_True].
Qed.

Create Rewrite HintDb reg.
#[export] Hint Rewrite reg_value_Create reg_value_SetValue reg_value_DeleteValue : reg.

(** Runs the calls that cannot fail. *)
Ltac reg_run :=
  repeat (first
    [ progress autorewrite with st
    | rewrite eval_Create
    | rewrite eval_SetValue
    | progress (change (FAILED S_OK) with false; cbv iota) ]).

(** ** Reading back *)

Lemma GetValueString_SetValue k v s r :
  GetValueString k v (exec (RegKey_SetValue k v (REG_SZ s)) r) = inr s.
Proof. unfold GetValueString. by rewrite reg_value_SetValue, same_value_refl. Qed.

(** Reads depend on the value only. *)
Lemma GetValueString_ext k v k' v' r r' :
  reg_value k v r = reg_value k' v' r' -> GetValueString k v r = GetValueString k' v' r'.
Proof. unfold GetValueString. by intros ->. Qed.
Lemma GetValueDword_ext k v k' v' r r' :
  reg_value k v r = reg_value k' v' r' -> GetValueDword k v r = GetValueDword k' v' r'.
Proof. unfold GetValueDword. by intros ->. Qed.
Lemma GetValueQword_ext k v k' v' r r' :
  reg_value k v r = reg_value k' v' r' -> GetValueQword k v r = GetValueQword k' v' r'.
Proof. unfold GetValueQword. by intros ->. Qed.

(** Other names of the same key. *)
Lemma same_value_key k v v' : same_value k v k v' = bool_decide (MakeLower v = MakeLower v').
Proof. unfold same_value. by rewrite bool_decide_eq_true_2. Qed.

Lemma same_value_other_key k v k' v' : reg_name k <> reg_name k' -> same_value k v k' v' = false.
Proof. intros Hne. unfold same_value. by rewrite bool_decide_eq_false_2. Qed.

(** ** Names *)

Lemma trim_left_plain c s : c <> 92 -> trim_left (c :: s) = c :: s.
Proof. intros Hc. cbn. repeat (case_match; try done). Qed.

Lemma trim_right_snoc s c : c <> 92 -> trim_right (s ++ [c]) = s ++ [c].
Proof. intros Hc. unfold trim_right. rewrite reverse_snoc, trim_left_plain, reverse_cons, reverse_involutive; done. Qed.

Lemma MakeLower_app a b : MakeLower (a ++ b) = MakeLower a ++ MakeLower b.
Proof. apply fmap_app. Qed.

Lemma length_MakeLower a : length (MakeLower a) = length a.
Proof. apply length_fmap. Qed.

Definition plain_name (s : CString) : Prop := s <> [] /\ forallb (fun c => negb (c =? 92)) s = true.

(** The name of a key with a plain name below another key. *)
Lemma plain_key_name base s :
  plain_name s -> reg_name (AppendRegKeyPath base s) = MakeLower (trim_right base) ++ 92 :: MakeLower s.
Proof.
  intros [Hne Hs]. destruct (exists_last Hne) as (u & c & ->). rewrite forallb_app, andb_true_iff in Hs. cbn in Hs.
  assert (c <> 92) as Hc by lia.
  assert (trim_left (u ++ [c]) = u ++ [c]) as Htl.
  { destruct u as [|d u]; cbn [app]; [by apply trim_left_plain|]. cbn in Hs. apply trim_left_plain. lia. }
  unfold reg_name, AppendRegKeyPath. rewrite Htl, app_comm_cons, app_assoc, trim_right_snoc, !MakeLower_app by done.
  cbn [MakeLower fmap list_fmap]. rewrite <- app_assoc. done.
Qed.

Lemma MakeLower_plain s : forallb (fun c => negb (c =? 92)) s = true -> forallb (fun c => negb (c =? 92)) (MakeLower s) = true.
Proof.
  induction s as [|c s IH]; [done|]. cbn [forallb MakeLower fmap list_fmap]. intros [Hc Hs]%andb_true_iff.
  apply andb_true_iff. split; [|by apply IH]. unfold String_ToLowerChar. case_match; lia.
Qed.

(** Keys with plain names below one key are not below each other. *)
Lemma plain_not_below base a b :
  plain_name a -> plain_name b ->
  is_at_or_below (reg_name (AppendRegKeyPath base a)) (reg_name (AppendRegKeyPath base b)) = bool_decide (MakeLower a = MakeLower b).
Proof.
  intros Ha Hb. rewrite !plain_key_name by done. apply eq_true_iff_eq. rewrite is_at_or_below_spec, bool_decide_eq_true.
  split; [|intros ->; exists []; rewrite app_nil_r; eauto].
  intros (t & Heq & Ht). rewrite <- app_assoc in Heq. apply app_inv_head in Heq. injection Heq as Heq.
  destruct Ht as [->|[t' ->]]; [by rewrite app_nil_r in Heq|].
  pose proof (MakeLower_plain b (proj2 Hb)) as Hp. rewrite Heq, forallb_app in Hp. cbn in Hp.
  by rewrite andb_false_r in Hp.
Qed.

Lemma trim_left_app s c t : c <> 92 -> exists u, trim_left (s ++ c :: t) = u ++ c :: t.
Proof.
  intros Hc. induction s as [|d s [u Hu]]; cbn [app]; [exists []; by apply trim_left_plain|].
  destruct (decide (d = 92)) as [->|Hd]; [cbn [trim_left]; eauto|]. exists (d :: s). by apply trim_left_plain.
Qed.

(** Trailing separators apart, the name of a key starts like what was written. *)
Lemma reg_name_prefix s c t : c <> 92 -> exists u, reg_name (s ++ c :: t) = MakeLower (s ++ [c]) ++ u.
Proof.
  intros Hc. unfold reg_name, trim_right. rewrite reverse_app, reverse_cons, <- app_assoc. cbn [app].
  destruct (trim_left_app (reverse t) c (reverse s) Hc) as [u ->]. exists (MakeLower (reverse u)).
  rewrite reverse_app, reverse_cons, reverse_involutive, MakeLower_app. done.
Qed.

Lemma reg_name_differs s s' c c' t t' :
  c <> 92 -> c' <> 92 -> length s = length s' -> MakeLower (s ++ [c]) <> MakeLower (s' ++ [c']) ->
  reg_name (s ++ c :: t) <> reg_name (s' ++ c' :: t').
Proof.
  intros Hc Hc' Hlen Hne Heq. destruct (reg_name_prefix s c t Hc) as [u Hu], (reg_name_prefix s' c' t' Hc') as [u' Hu'].
  rewrite Hu, Hu' in Heq. apply app_inj_1 in Heq as [Heq _]; [done|]. rewrite !length_MakeLower, !length_app, Hlen. done.
Qed.
