(* ===== verification/Machine.v ===== *)
(** The machine the program runs on, as its components share it: the files, the
    registry, the number of calls to the network, the applications that are
    being downloaded, the processes that were started, the time that was slept,
    and the requests that were posted to the update server. *)

From S2P Require Import Prelude Hresult CStrings Registry Sha256 Files WebClient.

Record Machine := mkMachine {
  m_fs : FS;
  m_registry : Registry;
  m_calls : nat;
  m_download_state : list GUID;
  m_processes : nat;
  m_slept_ms : Z;
  m_attempts : nat;
  m_posts : list HttpPost
}.

Definition Machine_empty : Machine := mkMachine (mkFS ∅ ∅ 0) ∅ 0 [] 0 0 0 [].

Definition set_registry (r : Registry) (m : Machine) : Machine :=
  mkMachine (m_fs m) r (m_calls m) (m_download_state m) (m_processes m) (m_slept_ms m)
    (m_attempts m) (m_posts m).
Definition set_fs (fs : FS) (m : Machine) : Machine :=
  mkMachine fs (m_registry m) (m_calls m) (m_download_state m) (m_processes m) (m_slept_ms m)
    (m_attempts m) (m_posts m).
Definition set_processes (n : nat) (m : Machine) : Machine :=
  mkMachine (m_fs m) (m_registry m) (m_calls m) (m_download_state m) n (m_slept_ms m)
    (m_attempts m) (m_posts m).
Definition add_slept_ms (ms : Z) (m : Machine) : Machine :=
  mkMachine (m_fs m) (m_registry m) (m_calls m) (m_download_state m) (m_processes m) (m_slept_ms m + ms)
    (m_attempts m) (m_posts m).
Definition set_downloads (fs : FS) (calls : nat) (download_state : list GUID) (m : Machine) : Machine :=
  mkMachine fs (m_registry m) calls download_state (m_processes m) (m_slept_ms m) (m_attempts m) (m_posts m).
Definition set_posts (attempts : nat) (posts : list HttpPost) (m : Machine) : Machine :=
  mkMachine (m_fs m) (m_registry m) (m_calls m) (m_download_state m) (m_processes m) (m_slept_ms m) attempts posts.

(** Computations on the machine and on its registry. *)
Abbreviation MachM := (St Machine).
Definition on_reg {A} (m : RegM A) : MachM A := fun s => let '(a, r) := m (m_registry s) in (a, set_registry r s).
