(* ===== verification/AppRegistry.v ===== *)
(** What the updater keeps about an application in the registry:
    omaha/common/app_registry_utils.cc, omaha/common/oem_install_utils.cc and
    omaha/goopdate/application_usage_data.cc. *)

From S2P Require Import Prelude Hresult CStrings Protocol Policy Paths Registry.

(** ** Keys and values *)

Definition GOOPDATE_MAIN_KEY : CString := _T "Software\BraveSoftware\Update\".
Definition root_key (is_machine : bool) : CString := if is_machine then _T "HKLM\" else _T "HKCU\".
Definition USERS_KEY : CString := _T "HKU\".
Definition GOOPDATE_REG_RELATIVE_CLIENT_STATE : CString := GOOPDATE_MAIN_KEY ++ _T "ClientState\".
Definition USER_REG_VISTA_LOW_INTEGRITY_HKCU : CString :=
  _T "Software\Microsoft\Internet Explorer\InternetRegistry\REGISTRY\USER".

Definition registry_update (is_machine : bool) : CString := root_key is_machine ++ GOOPDATE_MAIN_KEY.
Definition registry_clients (is_machine : bool) : CString := root_key is_machine ++ GOOPDATE_MAIN_KEY ++ _T "Clients\".
Definition registry_client_state (is_machine : bool) : CString :=
  root_key is_machine ++ GOOPDATE_REG_RELATIVE_CLIENT_STATE.
Definition machine_registry_client_state_medium : CString :=
  root_key true ++ GOOPDATE_MAIN_KEY ++ _T "ClientStateMedium\".

Definition kRegValueLanguage : CString := _T "lang".
Definition kRegValueAppName : CString := _T "name".
Definition kRegValueProductVersion : CString := _T "pv".
Definition kRegValueAdditionalParams : CString := _T "ap".
Definition kRegValueBrandCode : CString := _T "brand".
Definition kRegValueBrowser : CString := _T "browser".
Definition kRegValueClientId : CString := _T "client".
Definition kRegValueDidRun : CString := _T "dr".
Definition kRegValueInstallationId : CString := _T "iid".
Definition kRegValueOemInstall : CString := _T "oeminstall".
Definition kRegValuePingFreshness : CString := _T "ping_freshness".
Definition kRegValueReferralId : CString := _T "referral".
Definition kRegValueActivePingDayStartSec : CString := _T "ActivePingDayStartSec".
Definition kRegValueRollCallDayStartSec : CString := _T "RollCallDayStartSec".
Definition kRegValueDayOfLastActivity : CString := _T "DayOfLastActivity".
Definition kRegValueDayOfLastRollCall : CString := _T "DayOfLastRollCall".
Definition kRegValueDayOfInstall : CString := _T "DayOfInstall".
Definition kRegValueInstallTimeSec : CString := _T "InstallTime".
Definition kRegValueLastSuccessfulCheckSec : CString := _T "LastCheckSuccess".
Definition kRegValueLastUpdateTimeSec : CString := _T "UpdateTime".
Definition kRegValueEulaAccepted : CString := _T "eulaaccepted".
Definition kRegValueUsageStats : CString := _T "usagestats".
Definition kRegValueTTToken : CString := _T "tttoken".
Definition kRegValueUpdateAvailableCount : CString := _T "UpdateAvailableCount".
Definition kRegValueUpdateAvailableSince : CString := _T "UpdateAvailableSince".
Definition kRegSubkeyCohort : CString := _T "cohort".
Definition kRegValueCohortHint : CString := _T "hint".
Definition kRegValueCohortName : CString := _T "name".
Definition kRegValueOemInstallTimeSec : CString := _T "OemInstallTime".

Definition kBrandIdLength : nat := 4.
Definition kDefaultGoogleUpdateBrandCode : CString := _T "GGLS".

Definition GetAppClientsKey (is_machine : bool) (app_guid : CString) : CString :=
  AppendRegKeyPath (registry_clients is_machine) app_guid.
Definition GetAppClientStateKey (is_machine : bool) (app_guid : CString) : CString :=
  AppendRegKeyPath (registry_client_state is_machine) app_guid.
Definition GetAppClientStateMediumKey (app_guid : CString) : CString :=
  AppendRegKeyPath machine_registry_client_state_medium app_guid.
Definition GetCohortKeyName (is_machine : bool) (app_id : CString) : CString :=
  AppendRegKeyPath (GetAppClientStateKey is_machine app_id) kRegSubkeyCohort.

(** The clock, the next new GUID and the user of the process, at the call. *)
Class RegEnv := {
  GetCurrent100NSTime : Z;
  NewGuid : GUID;
  GetProcessUser : HRESULT + CString;
  IsVistaOrLater : bool;
  GetProcessUser_failed : forall hr, GetProcessUser = inl hr -> FAILED hr = true
}.

Definition kMillisecsTo100ns : Z := 10000.
Definition kSecsTo100ns : Z := 1000 * kMillisecsTo100ns.
Definition Time64ToInt32 (time : Z) : Z :=
  s32 (u64 (time / kSecsTo100ns - 60 * 60 * 24 * (365 * 369 + 89))).

Section AppRegistry.
Context `{RegEnv}.

Definition now_sec : Z := Time64ToInt32 GetCurrent100NSTime.

(** ** The licence *)

Definition IsAppEulaAccepted (is_machine : bool) (app_guid : CString) (require_explicit_acceptance : bool) : RegM bool :=
  let state_key := GetAppClientStateKey is_machine app_guid in
  let medium :=
    if negb is_machine then mret false
    else
      r ← get;
      match GetValueDword (GetAppClientStateMediumKey app_guid) kRegValueEulaAccepted r with
      | inr eula_accepted =>
          if 0 =? eula_accepted then mret false
          else RegKey_SetValue state_key kRegValueEulaAccepted (REG_DWORD eula_accepted);; mret true
      | inl _ => mret false
      end in
  r ← get;
  match GetValueDword state_key kRegValueEulaAccepted r with
  | inr eula_accepted => if negb (0 =? eula_accepted) then mret true else medium
  | inl _ => if negb require_explicit_acceptance then mret true else medium
  end.

Definition SetAppEulaNotAccepted (is_machine : bool) (app_guid : CString) : RegM HRESULT :=
  RegKey_SetValue (GetAppClientStateKey is_machine app_guid) kRegValueEulaAccepted (REG_DWORD 0).

(** Deletes a value of a key, if there is the key. *)
Definition delete_if_key (key value_name : CString) : RegM HRESULT :=
  r ← get;
  if RegKey_HasKey key r then RegKey_DeleteValue key value_name else mret S_OK.

Definition ClearAppEulaNotAccepted (is_machine : bool) (app_guid : CString) : RegM HRESULT :=
  hr ← delete_if_key (GetAppClientStateKey is_machine app_guid) kRegValueEulaAccepted;
  if FAILED hr then mret hr
  else if negb is_machine then mret S_OK
  else
    hr ← delete_if_key (GetAppClientStateMediumKey app_guid) kRegValueEulaAccepted;
    mret (if FAILED hr then hr else S_OK).

(** ** Usage statistics *)

Definition AreAppUsageStatsEnabled (is_machine : bool) (app_guid : CString) (r : Registry) : bool :=
  match (if is_machine then GetValueDword (GetAppClientStateMediumKey app_guid) kRegValueUsageStats r else inl E_FAIL) with
  | inr stats_enabled => stats_enabled =? 1
  | inl _ =>
      match GetValueDword (GetAppClientStateKey is_machine app_guid) kRegValueUsageStats r with
      | inr stats_enabled => stats_enabled =? 1
      | inl _ => false
      end
  end.

Definition SetUsageStatsEnable (is_machine : bool) (app_guid : CString) (usage_stats_enable : Tristate) : RegM HRESULT :=
  if bool_decide (usage_stats_enable = TRISTATE_NONE) then mret S_OK
  else
    let stats_enabled := if bool_decide (usage_stats_enable = TRISTATE_TRUE) then 1 else 0 in
    hr ← RegKey_SetValue (GetAppClientStateKey is_machine app_guid) kRegValueUsageStats (REG_DWORD stats_enabled);
    if FAILED hr then mret hr
    else if negb is_machine then mret S_OK
    else
      hr ← delete_if_key (GetAppClientStateMediumKey app_guid) kRegValueUsageStats;
      mret (if FAILED hr then hr else S_OK).

(** ** Branding *)

Definition SetInitialDayOfValues (client_state_key_path : CString) (num_days_since_datum : Z) : RegM HRESULT :=
  r ← get;
  let hr := RegKey_Open client_state_key_path r in
  if FAILED hr then mret hr
  else
    let kInitialValue := u32 (-1) in
    let initial_day_of_install := if num_days_since_datum =? 0 then kInitialValue else u32 num_days_since_datum in
    RegKey_SetValue client_state_key_path kRegValueDayOfInstall (REG_DWORD initial_day_of_install);;
    r ← get;
    when (negb (RegKey_HasValue client_state_key_path kRegValueDayOfLastActivity r))
      (RegKey_SetValue client_state_key_path kRegValueDayOfLastActivity (REG_DWORD kInitialValue);; mret tt);;
    r ← get;
    when (negb (RegKey_HasValue client_state_key_path kRegValueDayOfLastRollCall r))
      (RegKey_SetValue client_state_key_path kRegValueDayOfLastRollCall (REG_DWORD kInitialValue);; mret tt);;
    mret S_OK.

Definition SetAppBranding (client_state_key_path brand_code client_id referral_id : CString) (num_days_since_datum : Z) :
    RegM HRESULT :=
  if Nat.ltb kBrandIdLength (length brand_code) then mret E_INVALIDARG
  else
    hr ← RegKey_Create client_state_key_path;
    if FAILED hr then mret hr
    else
      r ← get;
      let existing_brand_code := out_or [] (GetValueString client_state_key_path kRegValueBrandCode r) in
      if negb (IsEmpty existing_brand_code) then
        when (Nat.ltb kBrandIdLength (length existing_brand_code))
          (RegKey_SetValue client_state_key_path kRegValueBrandCode (REG_SZ (take kBrandIdLength existing_brand_code));; mret tt);;
        mret S_OK
      else
        let brand_code_to_write := if IsEmpty brand_code then kDefaultGoogleUpdateBrandCode else brand_code in
        hr ← RegKey_SetValue client_state_key_path kRegValueBrandCode (REG_SZ brand_code_to_write);
        if FAILED hr then mret hr
        else
          hr ← (if negb (IsEmpty client_id) then RegKey_SetValue client_state_key_path kRegValueClientId (REG_SZ client_id)
                else mret S_OK);
          if FAILED hr then mret hr
          else
            hr ← (if negb (IsEmpty referral_id)
                  then RegKey_SetValue client_state_key_path kRegValueReferralId (REG_SZ referral_id) else mret S_OK);
            if FAILED hr then mret hr
            else
              RegKey_SetValue client_state_key_path kRegValueInstallTimeSec (REG_DWORD (u32 now_sec));;
              SetInitialDayOfValues client_state_key_path num_days_since_datum;;
              mret S_OK.

Definition SetGoogleUpdateBranding (client_state_key_path brand_code client_id : CString) : RegM HRESULT :=
  hr ← SetAppBranding client_state_key_path brand_code client_id [] (-1);
  if FAILED hr then mret hr
  else
    r ← get;
    let hr := RegKey_Open client_state_key_path r in
    if FAILED hr then mret hr
    else
      when (out_or 0 (GetValueDword client_state_key_path kRegValueInstallTimeSec r) =? 0)
        (RegKey_SetValue client_state_key_path kRegValueInstallTimeSec (REG_DWORD (u32 now_sec));; mret tt);;
      mret S_OK.

(** ** Update checks *)

Definition PersistSuccessfulUpdateCheck (client_state_key_path : CString) : RegM unit :=
  RegKey_SetValue client_state_key_path kRegValueLastSuccessfulCheckSec (REG_DWORD (u32 now_sec));; mret tt.

Definition ClearUpdateAvailableStats (client_state_key_path : CString) : RegM unit :=
  r ← get;
  if FAILED (RegKey_Open client_state_key_path r) then mret tt
  else
    RegKey_DeleteValue client_state_key_path kRegValueUpdateAvailableCount;;
    RegKey_DeleteValue client_state_key_path kRegValueUpdateAvailableSince;;
    mret tt.

Definition utils_PersistSuccessfulInstall (client_state_key_path : CString) (update is_offline : bool) : RegM unit :=
  ClearUpdateAvailableStats client_state_key_path;;
  when (negb is_offline) (PersistSuccessfulUpdateCheck client_state_key_path);;
  when update
    (RegKey_SetValue client_state_key_path kRegValueLastUpdateTimeSec (REG_DWORD (u32 now_sec));; mret tt).

(** ** Reading *)

Definition GetAppVersion (is_machine : bool) (app_id pv : CString) (r : Registry) : CString :=
  out_or pv (GetValueString (GetAppClientsKey is_machine app_id) kRegValueProductVersion r).

Definition INT_MAX : Z := 2 ^ 31 - 1.

Definition utils_GetInstallTimeDiffSec (is_machine : bool) (app_id : CString) (r : Registry) : Z :=
  match GetValueDword (GetAppClientStateKey is_machine app_id) kRegValueInstallTimeSec r with
  | inl _ => 0
  | inr install_time =>
      if negb (0 =? install_time) && (install_time <=? u32 now_sec) && (u32 (u32 now_sec - install_time) <=? INT_MAX)
      then s32 (u32 now_sec - install_time) else 0
  end.

Definition utils_GetDayOfInstall (is_machine : bool) (app_id : CString) (r : Registry) : HRESULT + Z :=
  match GetValueDword (GetAppClientStateKey is_machine app_id) kRegValueDayOfInstall r with
  | inl hr => inl hr
  | inr day_of_install => inr (if negb (day_of_install =? u32 (-1)) then day_of_install / 7 * 7 else day_of_install)
  end.

(** ** Cohorts *)

Definition utils_DeleteCohortKey (is_machine : bool) (app_id : CString) : RegM HRESULT :=
  RegKey_DeleteKey (GetCohortKeyName is_machine app_id).

(** The cohort is its identifier, the hint and the name; what cannot be read
    keeps its value. *)
Definition utils_ReadCohort (is_machine : bool) (app_id : CString) (cohort : CString * CString * CString) (r : Registry) :
    HRESULT * (CString * CString * CString) :=
  let '(c, hint, name) := cohort in
  let key := GetCohortKeyName is_machine app_id in
  match GetValueString key [] r with
  | inl hr => (hr, cohort)
  | inr c => (S_OK, (c, out_or hint (GetValueString key kRegValueCohortHint r),
                      out_or name (GetValueString key kRegValueCohortName r)))
  end.

Definition utils_WriteCohort (is_machine : bool) (app_id : CString) (cohort : CString * CString * CString) : RegM HRESULT :=
  let '(c, hint, name) := cohort in
  let key := GetCohortKeyName is_machine app_id in
  if IsEmpty c then utils_DeleteCohortKey is_machine app_id
  else
    hr ← RegKey_Create key;
    if FAILED hr then mret hr
    else
      hr ← RegKey_SetValue key [] (REG_SZ c);
      if FAILED hr then mret hr
      else
        RegKey_SetValue key kRegValueCohortHint (REG_SZ hint);;
        RegKey_SetValue key kRegValueCohortName (REG_SZ name);;
        mret S_OK.

Definition utils_RemoveClientState (is_machine : bool) (app_guid : CString) : RegM HRESULT :=
  state_hr ← RegKey_DeleteKey (GetAppClientStateKey is_machine app_guid);
  if negb is_machine then mret state_hr
  else
    state_medium_hr ← RegKey_DeleteKey (GetAppClientStateMediumKey app_guid);
    mret (if FAILED state_hr then state_hr else state_medium_hr).

(** ** OEM installations *)

Definition kMinOemModeSec : Z := 72 * 60 * 60.

Definition IsOemInstalling (is_machine : bool) (r : Registry) : bool :=
  if negb is_machine then false
  else
    match GetValueDword (registry_update true) kRegValueOemInstallTimeSec r with
    | inl _ => false
    | inr oem_install_time_seconds => Z.abs (s32 (u32 now_sec - oem_install_time_seconds)) <? kMinOemModeSec
    end.

(** ** Whether an application ran (ApplicationUsageData) *)

Definition ERROR_DATATYPE_MISMATCH : Z := 1629.

Definition RegistryReadStringOrDword (key value_name : CString) (r : Registry) : HRESULT + CString :=
  match reg_value key value_name r with
  | None => inl (HRESULT_FROM_WIN32 ERROR_FILE_NOT_FOUND)
  | Some (REG_DWORD z) => inr (itostr z)
  | Some (REG_SZ s) => inr s
  | Some _ => inl (HRESULT_FROM_WIN32 ERROR_DATATYPE_MISMATCH)
  end.

Record ApplicationUsageData := mkUsage { exists_ : bool; ud_did_run_ : bool }.

Definition ApplicationUsageData_init : ApplicationUsageData := mkUsage false false.

Definition active_state (u : ApplicationUsageData) : ActiveStates :=
  if exists_ u then (if ud_did_run_ u then ACTIVE_RUN else ACTIVE_NOTRUN) else ACTIVE_UNKNOWN.

(** A failure of one key is only logged, so that the object is the result. *)
Definition ProcessPreUpdateCheck (key_name : CString) (u : ApplicationUsageData) : RegM ApplicationUsageData :=
  r ← get;
  match RegistryReadStringOrDword key_name kRegValueDidRun r with
  | inl _ => mret u
  | inr did_run_str => mret (mkUsage true (if bool_decide (did_run_str = _T "1") then true else ud_did_run_ u))
  end.

Definition ProcessPostUpdateCheck (key_name : CString) (u : ApplicationUsageData) : RegM ApplicationUsageData :=
  r ← get;
  match RegistryReadStringOrDword key_name kRegValueDidRun r with
  | inl _ => mret u
  | inr _ => RegKey_SetValue key_name kRegValueDidRun (REG_SZ (_T "0"));; mret (mkUsage true (ud_did_run_ u))
  end.

Definition ProcessKey (pre : bool) (key_name : CString) (u : ApplicationUsageData) : RegM ApplicationUsageData :=
  if pre then ProcessPreUpdateCheck key_name u else ProcessPostUpdateCheck key_name u.

Definition ProcessBackWardCompatKey (pre : bool) (key_name : CString) (u : ApplicationUsageData) :
    RegM ApplicationUsageData :=
  if pre then ProcessPreUpdateCheck key_name u
  else
    r ← get;
    if FAILED (RegKey_Open key_name r) then mret u
    else if exists_ u then RegKey_DeleteValue key_name kRegValueDidRun;; mret u
    else
      match RegistryReadStringOrDword key_name kRegValueDidRun r with
      | inl _ => mret (mkUsage true (ud_did_run_ u))
      | inr _ => RegKey_SetValue key_name kRegValueDidRun (REG_SZ (_T "0"));; mret (mkUsage true (ud_did_run_ u))
      end.

(** The two keys of one user. *)
Definition user_state_key (sub_key_name app_guid : CString) : CString :=
  AppendRegKeyPath (AppendRegKeyPath3 USERS_KEY sub_key_name GOOPDATE_REG_RELATIVE_CLIENT_STATE) app_guid.
Definition user_low_integrity_key (sub_key_name app_guid : CString) : CString :=
  AppendRegKeyPath
    (AppendRegKeyPath3 (AppendRegKeyPath3 USERS_KEY sub_key_name USER_REG_VISTA_LOW_INTEGRITY_HKCU)
       sub_key_name GOOPDATE_REG_RELATIVE_CLIENT_STATE) app_guid.

Fixpoint process_users (pre check_low_integrity : bool) (users : list CString) (app_guid : CString)
    (u : ApplicationUsageData) : RegM ApplicationUsageData :=
  match users with
  | [] => mret u
  | sub_key_name :: users' =>
      u ← ProcessKey pre (user_state_key sub_key_name app_guid) u;
      u ← (if check_low_integrity then ProcessKey pre (user_low_integrity_key sub_key_name app_guid) u else mret u);
      process_users pre check_low_integrity users' app_guid u
  end.

Definition ProcessMachineDidRun (pre check_low_integrity : bool) (app_guid : CString) (u : ApplicationUsageData) :
    RegM (HRESULT * ApplicationUsageData) :=
  r ← get;
  if FAILED (RegKey_Open USERS_KEY r) then mret (S_OK, u)
  else
    u ← process_users pre check_low_integrity (GetSubkeys USERS_KEY r) app_guid u;
    u ← ProcessBackWardCompatKey pre (GetAppClientStateKey true app_guid) u;
    mret (S_OK, u).

Definition ProcessUserDidRun (pre check_low_integrity : bool) (app_guid : CString) (u : ApplicationUsageData) :
    RegM (HRESULT * ApplicationUsageData) :=
  u ← ProcessKey pre (GetAppClientStateKey false app_guid) u;
  if negb check_low_integrity then mret (S_OK, u)
  else
    match GetProcessUser with
    | inl hr => mret (hr, u)
    | inr sid =>
        let temp_name := AppendRegKeyPath3 (_T "HKCU") USER_REG_VISTA_LOW_INTEGRITY_HKCU sid in
        u ← ProcessKey pre (AppendRegKeyPath3 temp_name GOOPDATE_REG_RELATIVE_CLIENT_STATE app_guid) u;
        mret (S_OK, u)
    end.

Definition ProcessDidRun (pre is_machine : bool) (app_guid : CString) (u : ApplicationUsageData) :
    RegM (HRESULT * ApplicationUsageData) :=
  if is_machine then ProcessMachineDidRun pre IsVistaOrLater app_guid u
  else ProcessUserDidRun pre IsVistaOrLater app_guid u.

Definition ReadDidRun (is_machine : bool) (app_guid : CString) : RegM ActiveStates :=
  '(_, u) ← ProcessDidRun true is_machine app_guid ApplicationUsageData_init;
  mret (active_state u).

Definition ResetDidRun (is_machine : bool) (app_guid : CString) : RegM HRESULT :=
  '(hr, _) ← ProcessDidRun false is_machine app_guid ApplicationUsageData_init;
  mret hr.

End AppRegistry.
