(* ===== verification/Gregorian.v ===== *)
(** A calendar that satisfies what Time.v asks of Windows' ([Calendar]): the
    Gregorian one from 1601 on.  It serves the examples. *)

From S2P Require Import Prelude AppRegistry Time.

Definition is_leap (y : Z) : bool := (y mod 4 =? 0) && (negb (y mod 100 =? 0) || (y mod 400 =? 0)).

Definition month_lengths (leap : bool) : list Z :=
  [31; if leap then 29 else 28; 31; 30; 31; 30; 31; 31; 30; 31; 30; 31].

(** The month and its day of a day of the year, counted from 0. *)
Fixpoint month_of (lens : list Z) (m yday : Z) : Z * Z :=
  match lens with
  | [] => (m, yday + 1)
  | len :: lens' => if yday <? len then (m, yday + 1) else month_of lens' (m + 1) (yday - len)
  end.

Fixpoint days_before (lens : list Z) (n : nat) : Z :=
  match n, lens with
  | S n', len :: lens' => len + days_before lens' n'
  | _, _ => 0
  end.

(** The year and its day of a day counted from the first of January 1601. *)
Definition year_of (n : Z) : Z * Z :=
  let era := n / 146097 in
  let doe := n mod 146097 in
  let c := Z.min 3 (doe / 36524) in
  let doc := doe - 36524 * c in
  let q := doc / 1461 in
  let doq := doc mod 1461 in
  let y := Z.min 3 (doq / 365) in
  (1601 + 400 * era + 100 * c + 4 * q + y, doq - 365 * y).

Definition year_start (year : Z) : Z :=
  let n := year - 1601 in 365 * n + n / 4 - n / 100 + n / 400.

Definition day_time (t : Z) : Z := t mod kDaysTo100ns.

Definition gregorian_FileTimeToSystemTime (t : Z) : option SYSTEMTIME :=
  if (0 <=? t) && (t <? 2 ^ 63) then
    let n := t / kDaysTo100ns in
    let '(year, yday) := year_of n in
    let '(month, day) := month_of (month_lengths (is_leap year)) 1 yday in
    let s := day_time t / kSecsTo100ns in
    Some (mkSYSTEMTIME year month ((n + 1) mod 7) day (s / 3600) (s / 60 mod 60) (s mod 60)
            (day_time t / kMillisecsTo100ns mod 1000))
  else None.

Definition gregorian_SystemTimeToFileTime (st : SYSTEMTIME) : option Z :=
  let lens := month_lengths (is_leap (wYear st)) in
  if (1601 <=? wYear st) && (wYear st <=? 30827) && (1 <=? wMonth st) && (wMonth st <=? 12)
     && (1 <=? wDay st) && (wDay st <=? nth (Z.to_nat (wMonth st - 1)) lens 0)
     && (0 <=? wHour st) && (wHour st <=? 23) && (0 <=? wMinute st) && (wMinute st <=? 59)
     && (0 <=? wSecond st) && (wSecond st <=? 59) && (0 <=? wMilliseconds st) && (wMilliseconds st <=? 999)
  then
    let day := year_start (wYear st) + days_before lens (Z.to_nat (wMonth st - 1)) + wDay st - 1 in
    Some (day * kDaysTo100ns
          + ((wHour st * 60 + wMinute st) * 60 + wSecond st) * kSecsTo100ns + wMilliseconds st * kMillisecsTo100ns)
  else None.

Lemma year_of_spec n year yday :
  0 <= n -> year_of n = (year, yday) ->
  1601 <= year /\ n = year_start year + yday /\ 0 <= yday < if is_leap year then 366 else 365.
Proof.
  intros Hn. unfold year_of. set (era := n / 146097). set (doe := n mod 146097).
  assert (n = 146097 * era + doe /\ 0 <= doe < 146097 /\ 0 <= era) as (Hdoe & Hdoer & Hera).
  { subst era doe. Z.div_mod_to_equations; lia. }
  clearbody era doe. set (c := Z.min 3 (doe / 36524)). set (doc := doe - 36524 * c).
  assert (0 <= c <= 3 /\ doe = 36524 * c + doc /\ 0 <= doc /\ (doc < 36524 \/ c = 3 /\ doc = 36524)) as (Hc & Hdoc & Hdoc0 & Hdocr).
  { subst doc c. Z.div_mod_to_equations; lia. }
  clearbody c doc. set (q := doc / 1461). set (doq := doc mod 1461).
  assert (doc = 1461 * q + doq /\ 0 <= doq < 1461 /\ 0 <= q <= 24 /\ (q = 24 -> doc < 36524 -> doq < 1460)) as (Hdoq & Hdoqr & Hq & Hq24).
  { subst q doq. Z.div_mod_to_equations; lia. }
  clearbody q doq. set (y := Z.min 3 (doq / 365)).
  assert (0 <= y <= 3 /\ 0 <= doq - 365 * y /\ (doq - 365 * y < 365 \/ y = 3 /\ doq - 365 * y = 365)) as (Hy & Hr0 & Hr).
  { subst y. Z.div_mod_to_equations; lia. }
  clearbody y. intros [= <- <-]. split; [lia|].
  assert (forall k, 0 < k -> forall a b x, 0 <= b < k -> x = k * a + b -> x / k = a /\ x mod k = b) as Hdiv.
  { intros k Hk a b x Hb ->. split.
    - symmetry. apply (Z.div_unique_pos (k * a + b) k a b); lia.
    - symmetry. apply (Z.mod_unique_pos (k * a + b) k a b); lia. }
  set (m := 400 * era + 100 * c + 4 * q + y).
  split.
  - unfold year_start. replace (_ - 1601) with m by lia.
    rewrite (proj1 (Hdiv 4 ltac:(lia) (100 * era + 25 * c + q) y m ltac:(lia) ltac:(lia))).
    rewrite (proj1 (Hdiv 100 ltac:(lia) (4 * era + c) (4 * q + y) m ltac:(lia) ltac:(lia))).
    rewrite (proj1 (Hdiv 400 ltac:(lia) era (100 * c + 4 * q + y) m ltac:(lia) ltac:(lia))). lia.
  - split; [lia|]. destruct (decide (doq - 365 * y < 365)); [case_match; lia|].
    assert (y = 3 /\ doq - 365 * y = 365) as [Hy3 Hr3] by lia.
    assert (q <= 23 \/ q = 24 /\ c = 3) as Hq3 by lia.
    replace (is_leap _) with true; [lia|]. symmetry. unfold is_leap.
    replace (1601 + _ + _ + _ + _) with (m + 1601) by lia.
    rewrite (proj2 (Hdiv 4 ltac:(lia) (100 * era + 25 * c + q + 401) 0 (m + 1601) ltac:(lia) ltac:(lia))).
    destruct Hq3 as [Hq3|[-> ->]].
    + rewrite (proj2 (Hdiv 100 ltac:(lia) (4 * era + c + 16) (4 * q + 4) (m + 1601) ltac:(lia) ltac:(lia))).
      rewrite (proj2 (Z.eqb_neq (4 * q + 4) 0)) by lia. done.
    + rewrite (proj2 (Hdiv 400 ltac:(lia) (era + 5) 0 (m + 1601) ltac:(lia) ltac:(lia))). by rewrite orb_true_r.
Qed.

Lemma month_of_spec lens m yday month day :
  Forall (fun len => 0 < len) lens -> 0 <= yday < days_before lens (length lens) -> month_of lens m yday = (month, day) ->
  m <= month < m + Z.of_nat (length lens) /\
  yday = days_before lens (Z.to_nat (month - m)) + day - 1 /\ 1 <= day <= nth (Z.to_nat (month - m)) lens 0.
Proof.
  intros Hpos. revert m yday. induction Hpos as [|len lens Hlen _ IH]; intros m yday Hy; [cbn in Hy; lia|].
  cbn [length days_before] in Hy. cbn [month_of length]. destruct (Z.ltb_spec yday len).
  - intros [= <- <-]. rewrite Z.sub_diag. change (Z.to_nat 0) with 0%nat. cbn [days_before nth]. lia.
  - intros Hm. destruct (IH (m + 1) (yday - len) ltac:(lia) Hm) as (Hm1 & Hm2 & Hm3).
    replace (Z.to_nat (month - m)) with (S (Z.to_nat (month - (m + 1)))) by lia. cbn [days_before nth]. lia.
Qed.

Lemma month_lengths_ok leap :
  Forall (fun len => 0 < len) (month_lengths leap) /\ days_before (month_lengths leap) 12 = (if leap then 366 else 365) /\
  forall n, nth n (month_lengths leap) 0 <= 31.
Proof.
  split; [by destruct leap; repeat constructor|]. split; [by destruct leap|].
  intros n. do 12 (destruct n as [|n]; [destruct leap; cbn; lia|]). cbn. destruct n; lia.
Qed.

(** The fields of a time of day. *)
Lemma time_of_day t :
  let d := day_time t in
  let s := d / kSecsTo100ns in
  let ms := d / kMillisecsTo100ns mod 1000 in
  0 <= s / 3600 <= 23 /\ 0 <= s / 60 mod 60 <= 59 /\ 0 <= s mod 60 <= 59 /\ 0 <= ms <= 999 /\
  ((s / 3600 * 60 + s / 60 mod 60) * 60 + s mod 60) * kSecsTo100ns + ms * kMillisecsTo100ns =
    d - t mod kMillisecsTo100ns.
Proof.
  cbv zeta. unfold day_time, kDaysTo100ns, kHoursTo100ns, kMinsTo100ns, kSecsTo100ns, kMillisecsTo100ns.
  Z.div_mod_to_equations; lia.
Qed.

Lemma whole_second_day t :
  0 <= t -> whole_second t / kDaysTo100ns = t / kDaysTo100ns /\
  day_time (whole_second t) / kSecsTo100ns = day_time t / kSecsTo100ns /\
  day_time (whole_second t) / kMillisecsTo100ns mod 1000 = 0.
Proof.
  intros Ht. unfold whole_second, day_time, kDaysTo100ns, kHoursTo100ns, kMinsTo100ns, kSecsTo100ns, kMillisecsTo100ns.
  Z.div_mod_to_equations; lia.
Qed.

(** What a time converts to. *)
Lemma gregorian_fields t st :
  gregorian_FileTimeToSystemTime t = Some st ->
  0 <= t < 2 ^ 63 /\ 1601 <= wYear st <= 30828 /\ 1 <= wMonth st <= 12 /\
  (let lens := month_lengths (is_leap (wYear st)) in
   1 <= wDay st <= nth (Z.to_nat (wMonth st - 1)) lens 0 /\
   t / kDaysTo100ns = year_start (wYear st) + days_before lens (Z.to_nat (wMonth st - 1)) + wDay st - 1).
Proof.
  unfold gregorian_FileTimeToSystemTime. destruct ((0 <=? t) && (t <? 2 ^ 63)) eqn:Ht; [|done].
  destruct (year_of _) as [year yday] eqn:Hy, (month_of _ 1 yday) as [month day] eqn:Hm. intros [= <-]. cbn [wYear wMonth wDay].
  assert (0 <= t / kDaysTo100ns < 10675200) as Hn.
  { unfold kDaysTo100ns, kHoursTo100ns, kMinsTo100ns, kSecsTo100ns, kMillisecsTo100ns. Z.div_mod_to_equations; lia. }
  destruct (year_of_spec _ _ _ (proj1 Hn) Hy) as (Hy1 & Hy2 & Hy3).
  destruct (month_lengths_ok (is_leap year)) as (Hl1 & Hl2 & _). rewrite <- Hl2 in Hy3.
  destruct (month_of_spec _ 1 _ _ _ Hl1 Hy3 Hm) as (Hm1 & Hm2 & Hm3). cbn [length month_lengths] in Hm1.
  split; [lia|]. split; [|split; [lia|]; cbv zeta; lia].
  split; [done|]. clear Hy Hm Hm2. unfold year_start in Hy2. cbv zeta in Hy2.
  generalize dependent (t / kDaysTo100ns). intros n Hn Hy2.
  destruct (decide (year <= 30828)); [done|]. exfalso. Z.div_mod_to_equations; lia.
Qed.

#[export] Instance gregorian : Calendar.
Proof.
  refine {| FileTimeToSystemTime := gregorian_FileTimeToSystemTime;
            SystemTimeToFileTime := gregorian_SystemTimeToFileTime;
            SystemTimeToLocalTime := Some |}.
  - intros t Ht. unfold gregorian_FileTimeToSystemTime. replace ((0 <=? t) && (t <? 2 ^ 63)) with true by lia.
    destruct (year_of _), (month_of _ _ _). by eexists.
  - intros t st Hst. destruct (gregorian_fields t st Hst) as (_ & Hy & Hm & Hd & _). cbv zeta in Hd.
    destruct (month_lengths_ok (is_leap (wYear st))) as (_ & _ & H31). specialize (H31 (Z.to_nat (wMonth st - 1))).
    revert Hst. unfold gregorian_FileTimeToSystemTime. destruct ((0 <=? t) && (t <? 2 ^ 63)); [|done].
    destruct (year_of _), (month_of _ _ _). intros [= <-]. cbn in *. pose proof (time_of_day t) as Ht. cbv zeta in Ht.
    unfold date_ok. cbn. pose proof (Z.mod_pos_bound (t / kDaysTo100ns + 1) 7). lia.
  - intros t st. unfold gregorian_FileTimeToSystemTime. destruct ((0 <=? t) && (t <? 2 ^ 63)) eqn:Ht; [|done].
    pose proof (whole_second_range t ltac:(lia)).
    replace ((0 <=? whole_second t) && (whole_second t <? 2 ^ 63)) with true by lia.
    destruct (whole_second_day t ltac:(lia)) as (-> & -> & ->).
    destruct (year_of _), (month_of _ _ _). by intros [= <-].
  - by intros dow st.
  - intros t st Ht Hst Hmax. destruct (gregorian_fields t st Hst) as (_ & Hy & Hm & Hd & Hn). cbv zeta in Hd, Hn.
    unfold gregorian_SystemTimeToFileTime. revert Hst. unfold gregorian_FileTimeToSystemTime.
    replace ((0 <=? t) && (t <? 2 ^ 63)) with true by lia.
    destruct (year_of _), (month_of _ _ _). intros [= <-]. cbn [wYear wMonth wDay wHour wMinute wSecond wMilliseconds] in *.
    pose proof (time_of_day t) as Ht'. cbv zeta in Ht'.
    lazymatch goal with |- (if ?b then _ else _) = _ => replace b with true by lia end. rewrite <- Hn.
    f_equal. assert (t / kDaysTo100ns * kDaysTo100ns + day_time t = t) as Hday.
    { unfold day_time. rewrite Z.mul_comm. symmetry. by apply Z.div_mod. }
    lia.
Defined.

Example gregorian_ex :
  ConvertTimeToGMTString 133860103830000000 = _T "Sun, 09 Mar 2025 16:13:03 GMT".
Proof. by vm_compute. Qed.
