(* ===== verification/Labels.v ===== *)
(** Experiment labels: omaha/common/experiment_labels.cc, and
    [ApplyExperimentLabelDeltas] of omaha/goopdate/update_response_utils.cc.

    A label is a key with a value and an expiration.  The store is a [std::map]:
    an association list in the order of the keys.  Labels are written as
    ["key=value|date"], separated by semicolons. *)

From S2P Require Import Prelude Hresult CStrings Maps Text Protocol Registry AppRegistry Time.

Definition kRegValueExperimentLabels : CString := _T "experiment_labels".

(** ** The map *)

Definition Label : Type := CString * (CString * Z).
Definition LabelMap : Type := list Label.

Definition label_key (l : Label) : CString := l.1.
Definition label_value (l : Label) : CString := l.2.1.
Definition label_expiration (l : Label) : Z := l.2.2.

Record LabelStore := mkLabelStore { labels_ : LabelMap; preserve_expired_ : bool }.
Definition LabelStore_init : LabelStore := mkLabelStore [] false.

Inductive SerializeOptions := EXCLUDE_TIMESTAMPS | INCLUDE_TIMESTAMPS.

(** ** Strings *)

Definition is_label_char (ch : Z) : bool :=
  ((43 <=? ch) && (ch <=? 45)) || ((48 <=? ch) && (ch <=? 58)) || ((65 <=? ch) && (ch <=? 90))
  || ((97 <=? ch) && (ch <=? 122)) || (ch =? 95) || (ch =? 32) || (ch =? 47) || (ch =? 92) || (ch =? 46).

Definition IsLabelContentValid (str : CString) : bool := negb (IsEmpty str) && forallb is_label_char str.

Section Labels.
Context `{RegEnv, Calendar}.

Definition SplitCombinedLabel (combined : CString) : option Label :=
  let value_offset := Find combined (_T "=") 0 in
  if (value_offset <=? 0) || (value_offset =? GetLength combined) then None
  else
    let key := Left combined value_offset in
    if negb (IsLabelContentValid key) then None
    else
      let value_offset := value_offset + 1 in
      let expiration_offset := Find combined (_T "|") value_offset in
      if (expiration_offset <=? value_offset) || (expiration_offset =? GetLength combined) then None
      else
        let value := Mid combined value_offset (expiration_offset - value_offset) in
        if negb (IsLabelContentValid value) then None
        else
          let expiration_offset := expiration_offset + 1 in
          let expiration_string := Mid combined expiration_offset (GetLength combined - expiration_offset) in
          if negb (IsLabelContentValid expiration_string) then None
          else match RFC822DateToSystemTime expiration_string false with
               | None => None
               | Some system_time => Some (key, (value, SystemTimeToTime64 system_time))
               end.

(** What a label of a list does to the map. *)
Definition apply_label (accept_expired : bool) (m : LabelMap) (l : Label) : LabelMap :=
  if accept_expired || (GetCurrent100NSTime <? label_expiration l) then map_put (label_key l) l.2 m
  else map_erase (label_key l) m.

(** The loop of [DoDeserialize]; [None] is [false]. *)
Fixpoint deserialize_from (fuel : nat) (m : LabelMap) (label_list : CString) (accept_expired : bool) (offset : Z) :
    option LabelMap :=
  match fuel with
  | O => None
  | S fuel =>
      let '(combined_label, offset) := Tokenize label_list (_T ";") offset in
      if IsEmpty combined_label then (if offset <? 0 then Some m else None)
      else
        match SplitCombinedLabel combined_label with
        | None => None
        | Some l => deserialize_from fuel (apply_label accept_expired m l) label_list accept_expired offset
        end
  end.

(** Every round but the last consumes a character. *)
Definition DoDeserialize (m : LabelMap) (label_list : CString) (accept_expired : bool) : option LabelMap :=
  if IsEmpty label_list then Some m
  else deserialize_from (length label_list + 2) m label_list accept_expired 0.

(** ** The store *)

Definition NumLabels (s : LabelStore) : nat := length (labels_ s).
Definition FindLabelByKey (key : CString) (s : LabelStore) : option (CString * Z) := map_find key (labels_ s).
Definition ContainsKey (key : CString) (s : LabelStore) : bool := bool_decide (is_Some (FindLabelByKey key s)).
Definition GetLabelByIndex (index : nat) (s : LabelStore) : option Label := labels_ s !! index.

Definition SetLabel (key value : CString) (expiration : Z) : St LabelStore bool :=
  s ← get;
  if negb (IsLabelContentValid key) || negb (IsLabelContentValid value) then mret false
  else if (expiration <? GetCurrent100NSTime) && negb (preserve_expired_ s) then mret false
  else
    modify (fun s => mkLabelStore (map_put key (value, expiration) (labels_ s)) (preserve_expired_ s));;
    mret true.

Definition ClearLabel (key : CString) : St LabelStore bool :=
  s ← get;
  if negb (ContainsKey key s) then mret false
  else modify (fun s => mkLabelStore (map_erase key (labels_ s)) (preserve_expired_ s));; mret true.

(** The iterator moves on from the label that follows an erased one. *)
Fixpoint expire_from (m : LabelMap) : LabelMap :=
  match m with
  | [] => []
  | l :: m' =>
      if label_expiration l <? GetCurrent100NSTime then
        match m' with
        | [] => []
        | next :: m'' => next :: expire_from m''
        end
      else l :: expire_from m'
  end.
Definition ExpireLabels : St LabelStore unit :=
  modify (fun s => mkLabelStore (expire_from (labels_ s)) (preserve_expired_ s)).

Definition ClearAllLabels : St LabelStore unit := modify (fun s => mkLabelStore [] (preserve_expired_ s)).
Definition SetPreserveExpiredLabels (preserve : bool) : St LabelStore unit :=
  modify (fun s => mkLabelStore (labels_ s) preserve).

Definition label_text (options : SerializeOptions) (l : Label) : CString :=
  label_key l ++ _T "=" ++ label_value l ++
  match options with
  | INCLUDE_TIMESTAMPS => _T "|" ++ ConvertTimeToGMTString (label_expiration l)
  | EXCLUDE_TIMESTAMPS => []
  end.

(** [serialized] grows by a label, after a semicolon unless it is empty. *)
Definition Serialize (options : SerializeOptions) (s : LabelStore) : CString :=
  fold_left (fun serialized l =>
      if preserve_expired_ s || (GetCurrent100NSTime <=? label_expiration l)
      then (if IsEmpty serialized then serialized else serialized ++ _T ";") ++ label_text options l
      else serialized)
    (labels_ s) [].

Definition Deserialize (label_list : CString) : St LabelStore bool :=
  s ← get;
  match DoDeserialize [] label_list (preserve_expired_ s) with
  | Some new_labels => modify (fun s => mkLabelStore new_labels (preserve_expired_ s));; mret true
  | None => mret false
  end.

Definition DeserializeAndApplyDelta (label_list : CString) : St LabelStore bool :=
  s ← get;
  match DoDeserialize (labels_ s) label_list false with
  | Some merged_labels => modify (fun s => mkLabelStore merged_labels (preserve_expired_ s));; mret true
  | None => mret false
  end.

(** ** The registry *)

Definition WriteToRegistry (is_machine : bool) (app_id : CString) (s : LabelStore) : RegM HRESULT :=
  RegKey_SetValue (GetAppClientStateKey is_machine app_id) kRegValueExperimentLabels
    (REG_SZ (Serialize INCLUDE_TIMESTAMPS s)).

(** The store is the caller's. *)
Definition ReadFromRegistry (is_machine : bool) (app_id : CString) (r : Registry) : St LabelStore HRESULT :=
  let state_key := GetAppClientStateKey is_machine app_id in
  let label_list := out_or [] (GetValueString state_key kRegValueExperimentLabels r) in
  deserialized ← Deserialize label_list;
  if negb (deserialized : bool) then mret E_FAIL
  else if negb is_machine then mret S_OK
  else
    let med_state_key := GetAppClientStateMediumKey app_id in
    let label_list := out_or label_list (GetValueString med_state_key kRegValueExperimentLabels r) in
    if IsEmpty label_list then mret S_OK
    else
      applied ← DeserializeAndApplyDelta label_list;
      mret (if negb (applied : bool) then E_FAIL else S_OK).

Definition IsStringValidLabelSet (label_list : CString) : bool := eval (Deserialize label_list) LabelStore_init.

Definition CreateLabel (key value : CString) (expiration : Z) : CString :=
  let '(set, label) := SetLabel key value expiration LabelStore_init in
  if negb set then [] else Serialize INCLUDE_TIMESTAMPS label.

Definition MergeLabelSets (old_label_list new_label_list : CString) : option CString :=
  let '(ok, labels) := Deserialize old_label_list LabelStore_init in
  if negb ok then None
  else
    let '(ok, labels) := DeserializeAndApplyDelta new_label_list labels in
    if negb ok then None else Some (Serialize INCLUDE_TIMESTAMPS labels).

Definition ReadRegistry (is_machine : bool) (app_id : CString) (r : Registry) : CString :=
  Serialize INCLUDE_TIMESTAMPS (exec (ReadFromRegistry is_machine app_id r) LabelStore_init).

Definition WriteRegistry (is_machine : bool) (app_id new_labels : CString) : RegM HRESULT :=
  if IsEmpty new_labels then mret S_OK
  else
    r ← get;
    let '(hr, labels) := ReadFromRegistry is_machine app_id r LabelStore_init in
    let '(deserialize_succeeded, labels) :=
      (if SUCCEEDED hr then DeserializeAndApplyDelta new_labels else Deserialize new_labels) labels in
    if negb deserialize_succeeded then mret E_INVALIDARG
    else
      hr ← WriteToRegistry is_machine app_id labels;
      let med_state_key := GetAppClientStateMediumKey app_id in
      r ← get;
      when (is_machine && RegKey_HasValue med_state_key kRegValueExperimentLabels r)
        (RegKey_DeleteValue med_state_key kRegValueExperimentLabels;; mret tt);;
      mret hr.

Definition Labels_RemoveTimestamps (labels : CString) : CString :=
  Serialize EXCLUDE_TIMESTAMPS (exec (Deserialize labels) LabelStore_init).

(** ** [ApplyExperimentLabelDeltas] *)

Fixpoint apply_deltas (is_machine : bool) (apps : list ResponseApp) : RegM HRESULT :=
  match apps with
  | [] => mret S_OK
  | app :: apps =>
      if IsEmpty (sa_experiments app) then apply_deltas is_machine apps
      else
        hr ← WriteRegistry is_machine (sa_appid app) (sa_experiments app);
        if FAILED hr then mret hr else apply_deltas is_machine apps
  end.
Definition ApplyExperimentLabelDeltas (is_machine : bool) (update_response : Response) : RegM HRESULT :=
  apply_deltas is_machine (rs_apps update_response).

End Labels.
