(* ===== verification/ExtraArgs.v ===== *)
(** The "extra" arguments of a command line, which tell an installer what to
    install (omaha/common/extra_args_parser.cc, the structures of command_line.h). *)

From S2P Require Import Prelude Hresult CStrings Text Policy AppRegistry.

(** ** Constants (const_cmd_line.h, const_goopdate.h, base/constants.h) *)

Definition kExtraArgBundleName : CString := _T "bundlename".
Definition kExtraArgLanguage : CString := _T "lang".
Definition kExtraArgUsageStats : CString := _T "usagestats".
Definition kExtraArgInstallationId : CString := _T "iid".
Definition kExtraArgBrandCode : CString := _T "brand".
Definition kExtraArgClientId : CString := _T "client".
Definition kExtraArgExperimentLabels : CString := _T "experiments".
Definition kExtraArgOmahaExperimentLabels : CString := _T "omahaexperiments".
Definition kExtraArgReferralId : CString := _T "referral".
Definition kExtraArgAdditionalParameters : CString := _T "ap".
Definition kExtraArgTTToken : CString := _T "tttoken".
Definition kExtraArgBrowserType : CString := _T "browser".
Definition kExtraArgRuntimeMode : CString := _T "runtime".
Definition kExtraArgEnrollmentToken : CString := _T "etoken".
Definition kExtraArgAppGuid : CString := _T "appguid".
Definition kExtraArgAppName : CString := _T "appname".
Definition kExtraArgNeedsAdmin : CString := _T "needsadmin".
Definition kExtraArgInstallDataIndex : CString := _T "installdataindex".
Definition kExtraArgUntrustedData : CString := _T "untrusteddata".
Definition kExtraArgInstallerData : CString := _T "installerdata".
Definition kExtraArgsSeparators : CString := _T "&".
Definition kDisallowedCharsInExtraArgs : CString := _T "/".
Definition kNameValueSeparatorChar : Z := 61.
Definition kMaxNameLength : Z := 512.
Definition kLangMaxLength : Z := 10.

Inductive NeedsAdmin := NEEDS_ADMIN_NO | NEEDS_ADMIN_YES | NEEDS_ADMIN_PREFERS.
Inductive RuntimeMode := RUNTIME_MODE_NOT_SET | RUNTIME_MODE_FALSE | RUNTIME_MODE_TRUE | RUNTIME_MODE_PERSIST.
#[export] Instance RuntimeMode_eq_dec : EqDecision RuntimeMode.
Proof. solve_decision. Defined.

(** ** The structures of command_line.h *)

Record CommandLineAppArgs := mkCommandLineAppArgs {
  aa_app_guid : GUID;
  aa_app_name : CString;
  aa_needs_admin : NeedsAdmin;
  aa_ap : CString;
  aa_tt_token : CString;
  aa_encoded_installer_data : CString;
  aa_install_data_index : CString;
  aa_experiment_labels : CString;
  aa_untrusted_data : CString
}.
Definition CommandLineAppArgs_init : CommandLineAppArgs := mkCommandLineAppArgs GUID_NULL [] NEEDS_ADMIN_NO [] [] [] [] [] [].

Definition aa_with_app_guid (x : GUID) (a : CommandLineAppArgs) : CommandLineAppArgs :=
  mkCommandLineAppArgs x (aa_app_name a) (aa_needs_admin a) (aa_ap a) (aa_tt_token a) (aa_encoded_installer_data a) (aa_install_data_index a) (aa_experiment_labels a) (aa_untrusted_data a).
Definition aa_with_app_name (x : CString) (a : CommandLineAppArgs) : CommandLineAppArgs :=
  mkCommandLineAppArgs (aa_app_guid a) x (aa_needs_admin a) (aa_ap a) (aa_tt_token a) (aa_encoded_installer_data a) (aa_install_data_index a) (aa_experiment_labels a) (aa_untrusted_data a).
Definition aa_with_needs_admin (x : NeedsAdmin) (a : CommandLineAppArgs) : CommandLineAppArgs :=
  mkCommandLineAppArgs (aa_app_guid a) (aa_app_name a) x (aa_ap a) (aa_tt_token a) (aa_encoded_installer_data a) (aa_install_data_index a) (aa_experiment_labels a) (aa_untrusted_data a).
Definition aa_with_ap (x : CString) (a : CommandLineAppArgs) : CommandLineAppArgs :=
  mkCommandLineAppArgs (aa_app_guid a) (aa_app_name a) (aa_needs_admin a) x (aa_tt_token a) (aa_encoded_installer_data a) (aa_install_data_index a) (aa_experiment_labels a) (aa_untrusted_data a).
Definition aa_with_tt_token (x : CString) (a : CommandLineAppArgs) : CommandLineAppArgs :=
  mkCommandLineAppArgs (aa_app_guid a) (aa_app_name a) (aa_needs_admin a) (aa_ap a) x (aa_encoded_installer_data a) (aa_install_data_index a) (aa_experiment_labels a) (aa_untrusted_data a).
Definition aa_with_encoded_installer_data (x : CString) (a : CommandLineAppArgs) : CommandLineAppArgs :=
  mkCommandLineAppArgs (aa_app_guid a) (aa_app_name a) (aa_needs_admin a) (aa_ap a) (aa_tt_token a) x (aa_install_data_index a) (aa_experiment_labels a) (aa_untrusted_data a).
Definition aa_with_install_data_index (x : CString) (a : CommandLineAppArgs) : CommandLineAppArgs :=
  mkCommandLineAppArgs (aa_app_guid a) (aa_app_name a) (aa_needs_admin a) (aa_ap a) (aa_tt_token a) (aa_encoded_installer_data a) x (aa_experiment_labels a) (aa_untrusted_data a).
Definition aa_with_experiment_labels (x : CString) (a : CommandLineAppArgs) : CommandLineAppArgs :=
  mkCommandLineAppArgs (aa_app_guid a) (aa_app_name a) (aa_needs_admin a) (aa_ap a) (aa_tt_token a) (aa_encoded_installer_data a) (aa_install_data_index a) x (aa_untrusted_data a).
Definition aa_with_untrusted_data (x : CString) (a : CommandLineAppArgs) : CommandLineAppArgs :=
  mkCommandLineAppArgs (aa_app_guid a) (aa_app_name a) (aa_needs_admin a) (aa_ap a) (aa_tt_token a) (aa_encoded_installer_data a) (aa_install_data_index a) (aa_experiment_labels a) x.

Record CommandLineExtraArgs := mkCommandLineExtraArgs {
  ea_bundle_name : CString;
  ea_installation_id : GUID;
  ea_brand_code : CString;
  ea_client_id : CString;
  ea_experiment_labels : CString;
  ea_referral_id : CString;
  ea_language : CString;
  ea_enrollment_token : CString;
  ea_browser_type : Z;
  ea_usage_stats_enable : Tristate;
  ea_runtime_mode : RuntimeMode;
  ea_apps : list CommandLineAppArgs
}.
Definition BROWSER_UNKNOWN : Z := 0.
Definition BROWSER_MAX : Z := 5.
Definition CommandLineExtraArgs_init : CommandLineExtraArgs :=
  mkCommandLineExtraArgs [] GUID_NULL [] [] [] [] [] [] BROWSER_UNKNOWN TRISTATE_NONE RUNTIME_MODE_NOT_SET [].

Definition ea_with_bundle_name (x : CString) (a : CommandLineExtraArgs) : CommandLineExtraArgs :=
  mkCommandLineExtraArgs x (ea_installation_id a) (ea_brand_code a) (ea_client_id a) (ea_experiment_labels a) (ea_referral_id a) (ea_language a) (ea_enrollment_token a) (ea_browser_type a) (ea_usage_stats_enable a) (ea_runtime_mode a) (ea_apps a).
Definition ea_with_installation_id (x : GUID) (a : CommandLineExtraArgs) : CommandLineExtraArgs :=
  mkCommandLineExtraArgs (ea_bundle_name a) x (ea_brand_code a) (ea_client_id a) (ea_experiment_labels a) (ea_referral_id a) (ea_language a) (ea_enrollment_token a) (ea_browser_type a) (ea_usage_stats_enable a) (ea_runtime_mode a) (ea_apps a).
Definition ea_with_brand_code (x : CString) (a : CommandLineExtraArgs) : CommandLineExtraArgs :=
  mkCommandLineExtraArgs (ea_bundle_name a) (ea_installation_id a) x (ea_client_id a) (ea_experiment_labels a) (ea_referral_id a) (ea_language a) (ea_enrollment_token a) (ea_browser_type a) (ea_usage_stats_enable a) (ea_runtime_mode a) (ea_apps a).
Definition ea_with_client_id (x : CString) (a : CommandLineExtraArgs) : CommandLineExtraArgs :=
  mkCommandLineExtraArgs (ea_bundle_name a) (ea_installation_id a) (ea_brand_code a) x (ea_experiment_labels a) (ea_referral_id a) (ea_language a) (ea_enrollment_token a) (ea_browser_type a) (ea_usage_stats_enable a) (ea_runtime_mode a) (ea_apps a).
Definition ea_with_experiment_labels (x : CString) (a : CommandLineExtraArgs) : CommandLineExtraArgs :=
  mkCommandLineExtraArgs (ea_bundle_name a) (ea_installation_id a) (ea_brand_code a) (ea_client_id a) x (ea_referral_id a) (ea_language a) (ea_enrollment_token a) (ea_browser_type a) (ea_usage_stats_enable a) (ea_runtime_mode a) (ea_apps a).
Definition ea_with_referral_id (x : CString) (a : CommandLineExtraArgs) : CommandLineExtraArgs :=
  mkCommandLineExtraArgs (ea_bundle_name a) (ea_installation_id a) (ea_brand_code a) (ea_client_id a) (ea_experiment_labels a) x (ea_language a) (ea_enrollment_token a) (ea_browser_type a) (ea_usage_stats_enable a) (ea_runtime_mode a) (ea_apps a).
Definition ea_with_language (x : CString) (a : CommandLineExtraArgs) : CommandLineExtraArgs :=
  mkCommandLineExtraArgs (ea_bundle_name a) (ea_installation_id a) (ea_brand_code a) (ea_client_id a) (ea_experiment_labels a) (ea_referral_id a) x (ea_enrollment_token a) (ea_browser_type a) (ea_usage_stats_enable a) (ea_runtime_mode a) (ea_apps a).
Definition ea_with_enrollment_token (x : CString) (a : CommandLineExtraArgs) : CommandLineExtraArgs :=
  mkCommandLineExtraArgs (ea_bundle_name a) (ea_installation_id a) (ea_brand_code a) (ea_client_id a) (ea_experiment_labels a) (ea_referral_id a) (ea_language a) x (ea_browser_type a) (ea_usage_stats_enable a) (ea_runtime_mode a) (ea_apps a).
Definition ea_with_browser_type (x : Z) (a : CommandLineExtraArgs) : CommandLineExtraArgs :=
  mkCommandLineExtraArgs (ea_bundle_name a) (ea_installation_id a) (ea_brand_code a) (ea_client_id a) (ea_experiment_labels a) (ea_referral_id a) (ea_language a) (ea_enrollment_token a) x (ea_usage_stats_enable a) (ea_runtime_mode a) (ea_apps a).
Definition ea_with_usage_stats_enable (x : Tristate) (a : CommandLineExtraArgs) : CommandLineExtraArgs :=
  mkCommandLineExtraArgs (ea_bundle_name a) (ea_installation_id a) (ea_brand_code a) (ea_client_id a) (ea_experiment_labels a) (ea_referral_id a) (ea_language a) (ea_enrollment_token a) (ea_browser_type a) x (ea_runtime_mode a) (ea_apps a).
Definition ea_with_runtime_mode (x : RuntimeMode) (a : CommandLineExtraArgs) : CommandLineExtraArgs :=
  mkCommandLineExtraArgs (ea_bundle_name a) (ea_installation_id a) (ea_brand_code a) (ea_client_id a) (ea_experiment_labels a) (ea_referral_id a) (ea_language a) (ea_enrollment_token a) (ea_browser_type a) (ea_usage_stats_enable a) x (ea_apps a).
Definition ea_with_apps (x : list CommandLineAppArgs) (a : CommandLineExtraArgs) : CommandLineExtraArgs :=
  mkCommandLineExtraArgs (ea_bundle_name a) (ea_installation_id a) (ea_brand_code a) (ea_client_id a) (ea_experiment_labels a) (ea_referral_id a) (ea_language a) (ea_enrollment_token a) (ea_browser_type a) (ea_usage_stats_enable a) (ea_runtime_mode a) x.

(** ** Windows

    [UrlUnescapeA] decodes %-escapes (shlwapi) and [Utf8ToWide] is
    [MultiByteToWideChar]; the errors are those of [IIDFromString]. *)
Class UrlCodec := {
  UrlUnescapeA : list Z -> HRESULT + list Z;
  Utf8ToWide : list Z -> CString;
  IIDFromString_error : CString -> HRESULT;
  UrlUnescapeA_fails : forall s hr, UrlUnescapeA s = inl hr -> FAILED hr = true;
  IIDFromString_fails : forall s, FAILED (IIDFromString_error s) = true
}.

Section Parser.
Context `{GuidOps, UrlCodec}.

(** ** Text *)

Definition ContainsOnlyAsciiChars (str : CString) : bool := forallb (fun c => c <=? 0x7F) str.

(** The result and the text, which is empty after an error. *)
Definition Utf8UrlEncodedStringToWideString (str : CString) : HRESULT * CString :=
  if IsEmpty str then (S_OK, [])
  else if negb (ContainsOnlyAsciiChars str) then (E_INVALIDARG, [])
  else
    match UrlUnescapeA str with
    | inl hr => (hr, [])
    | inr unescaped_val =>
        let app_name := Utf8ToWide unescaped_val in
        if IsEmpty app_name then (E_INVALIDARG, []) else (S_OK, app_name)
    end.

(** [unencoded_string] is the text so far. *)
Definition ConvertUtf8UrlEncodedString (encoded_string unencoded_string : CString) : HRESULT * CString :=
  let trimmed_val := Trim encoded_string in
  if IsEmpty trimmed_val then (E_INVALIDARG, unencoded_string) else Utf8UrlEncodedStringToWideString trimmed_val.

Definition IsGuid (s : CString) : bool := match StringToGuidSafe s with Some _ => true | None => false end.
Definition IsUuid (s : CString) : bool := if IsEmpty s then false else IsGuid (123 :: s ++ [125]).

Definition ConvertStringToBrowserType (text : CString) : option Z :=
  if negb (GetLength text =? 1) then None
  else
    match String_StringToDecimalIntChecked text with
    | None => None
    | Some browser_type => if BROWSER_MAX <=? browser_type then None else Some browser_type
    end.

Definition StringToNeedsAdmin (str : CString) : option NeedsAdmin :=
  if EqualNoCase (_T "false") str then Some NEEDS_ADMIN_NO
  else if EqualNoCase (_T "true") str then Some NEEDS_ADMIN_YES
  else if EqualNoCase (_T "prefers") str then Some NEEDS_ADMIN_PREFERS
  else None.
Definition StringToRuntimeMode (str : CString) : option RuntimeMode :=
  if EqualNoCase (_T "false") str then Some RUNTIME_MODE_FALSE
  else if EqualNoCase (_T "true") str then Some RUNTIME_MODE_TRUE
  else if EqualNoCase (_T "persist") str then Some RUNTIME_MODE_PERSIST
  else None.

Definition ValidateExtraArgs (extra_args : CString) : HRESULT :=
  if IsEmpty extra_args then E_INVALIDARG
  else if existsb (is_delim kDisallowedCharsInExtraArgs) extra_args then E_INVALIDARG
  else S_OK.

(** The tokens that the loops get from [Tokenize], one round per token. *)
Fixpoint tokens_from (fuel : nat) (s delims : CString) (pos : Z) : list CString :=
  match fuel with
  | O => []
  | S fuel =>
      let '(token, pos) := Tokenize s delims pos in
      if IsEmpty token then [] else token :: tokens_from fuel s delims pos
  end.
Definition tokens (s delims : CString) : list CString := tokens_from (S (length s)) s delims 0.

(** A loop that handles tokens until one fails. *)
Fixpoint handle_tokens {S} (handle : CString -> St S HRESULT) (l : list CString) : St S HRESULT :=
  match l with
  | [] => mret S_OK
  | token :: l => hr ← handle token; if FAILED hr then mret hr else handle_tokens handle l
  end.

(** ** The arguments of applications *)

(** The arguments and [cur_app_args_index]; -1 is [None]. *)
Definition AppArgsState : Type := CommandLineExtraArgs * option nat.

Definition find_app (value : CString) (apps : list CommandLineAppArgs) : option nat :=
  fst <$> list_find (fun a => EqualNoCase value (GuidToString (aa_app_guid a)) = true) apps.

Definition HandleAppArgsToken (token : CString) : St AppArgsState HRESULT := fun '(args, cur) =>
  if 2 ^ 31 - 1 <? Z.of_nat (length (ea_apps args)) then (E_INVALIDARG, (args, cur))
  else
    match ParseNameValuePair token kNameValueSeparatorChar with
    | None => (E_INVALIDARG, (args, cur))
    | Some (name, value) =>
        if EqualNoCase name kExtraArgAppGuid then
          match find_app value (ea_apps args) with
          | None => (E_INVALIDARG, (args, None))
          | Some i => (S_OK, (args, Some i))
          end
        else if EqualNoCase name kExtraArgInstallerData then
          match cur with
          | None => (E_INVALIDARG, (args, None))
          | Some i => (S_OK, (ea_with_apps (alter (aa_with_encoded_installer_data value) i (ea_apps args)) args, Some i))
          end
        else (E_INVALIDARG, (args, cur))
    end.

Definition ParseAppArgs (app_args : CString) (args : CommandLineExtraArgs) : HRESULT * CommandLineExtraArgs :=
  let app_args := c_str app_args in
  if IsEmpty app_args then (S_OK, args)
  else
    let hr := ValidateExtraArgs app_args in
    if FAILED hr then (hr, args)
    else
      let '(hr, (args, _)) := handle_tokens HandleAppArgsToken (tokens app_args kExtraArgsSeparators) (args, None) in
      (hr, args).

(** ** The extra arguments *)

(** The arguments and the members of the class [ExtraArgsParser]. *)
Record ExtraArgsParser := mkExtraArgsParser {
  ep_args : CommandLineExtraArgs;
  cur_extra_app_args_ : CommandLineAppArgs;
  first_app_ : bool
}.
Definition ep_with_args (f : CommandLineExtraArgs -> CommandLineExtraArgs) (s : ExtraArgsParser) : ExtraArgsParser :=
  mkExtraArgsParser (f (ep_args s)) (cur_extra_app_args_ s) (first_app_ s).
Definition ep_with_app (f : CommandLineAppArgs -> CommandLineAppArgs) (s : ExtraArgsParser) : ExtraArgsParser :=
  mkExtraArgsParser (ep_args s) (f (cur_extra_app_args_ s)) (first_app_ s).

(** The arguments that apply to all applications; [None] for another name. *)
Definition HandleBundleToken (name value : CString) (s : ExtraArgsParser) : option (HRESULT * ExtraArgsParser) :=
  let args := ep_args s in
  let ok f := Some (S_OK, ep_with_args f s) in
  if EqualNoCase name kExtraArgBundleName then
    if kMaxNameLength <? GetLength value then Some (E_INVALIDARG, s)
    else let '(hr, x) := ConvertUtf8UrlEncodedString value (ea_bundle_name args) in Some (if FAILED hr then hr else S_OK, ep_with_args (ea_with_bundle_name x) s)
  else if EqualNoCase name kExtraArgInstallationId then
    match StringToGuidSafe value with None => Some (E_INVALIDARG, s) | Some g => ok (ea_with_installation_id g) end
  else if EqualNoCase name kExtraArgBrandCode then
    if Z.of_nat kBrandIdLength <? GetLength value then Some (E_INVALIDARG, s) else ok (ea_with_brand_code value)
  else if EqualNoCase name kExtraArgClientId then ok (ea_with_client_id value)
  else if EqualNoCase name kExtraArgOmahaExperimentLabels then
    let '(hr, x) := ConvertUtf8UrlEncodedString value (ea_experiment_labels args) in Some (if FAILED hr then hr else S_OK, ep_with_args (ea_with_experiment_labels x) s)
  else if EqualNoCase name kExtraArgReferralId then ok (ea_with_referral_id value)
  else if EqualNoCase name kExtraArgBrowserType then
    match ConvertStringToBrowserType value with Some type => ok (ea_with_browser_type type) | None => Some (S_OK, s) end
  else if EqualNoCase name kExtraArgLanguage then
    if kLangMaxLength <? GetLength value then Some (E_INVALIDARG, s) else ok (ea_with_language value)
  else if EqualNoCase name kExtraArgUsageStats then
    match String_StringToTristate value with None => Some (E_INVALIDARG, s) | Some x => ok (ea_with_usage_stats_enable x) end
  else if EqualNoCase name kExtraArgRuntimeMode then
    if negb (match ea_apps args with [] => true | _ => false end) || negb (aa_app_guid (cur_extra_app_args_ s) =? GUID_NULL) then Some (E_INVALIDARG, s)
    else match StringToRuntimeMode value with None => Some (E_INVALIDARG, s) | Some x => ok (ea_with_runtime_mode x) end
  else if EqualNoCase name kExtraArgEnrollmentToken then
    if negb (IsUuid value) then Some (E_INVALIDARG, s) else ok (ea_with_enrollment_token value)
  else None.

(** The arguments of one application. *)
Definition HandleAppToken (name value : CString) (s : ExtraArgsParser) : HRESULT * ExtraArgsParser :=
  let app := cur_extra_app_args_ s in
  let ok f := (S_OK, ep_with_app f s) in
  if EqualNoCase name kExtraArgAdditionalParameters then ok (aa_with_ap value)
  else if EqualNoCase name kExtraArgTTToken then ok (aa_with_tt_token value)
  else if EqualNoCase name kExtraArgExperimentLabels then
    let '(hr, x) := ConvertUtf8UrlEncodedString value (aa_experiment_labels app) in (if FAILED hr then hr else S_OK, ep_with_app (aa_with_experiment_labels x) s)
  else if EqualNoCase name kExtraArgAppGuid then
    let s := if negb (first_app_ s) then ep_with_args (fun args => ea_with_apps (ea_apps args ++ [app]) args) s else s in
    match StringToGuidSafe value with
    | None => (IIDFromString_error value, ep_with_app (fun _ => CommandLineAppArgs_init) s)
    | Some g =>
        let s := ep_with_app (fun _ => aa_with_app_guid g CommandLineAppArgs_init) s in
        if (g =? GUID_NULL) || negb (bool_decide (ea_runtime_mode (ep_args s) = RUNTIME_MODE_NOT_SET)) then (E_INVALIDARG, s)
        else (S_OK, mkExtraArgsParser (ep_args s) (cur_extra_app_args_ s) false)
    end
  else if EqualNoCase name kExtraArgAppName then
    if kMaxNameLength <? GetLength value then (E_INVALIDARG, s)
    else let '(hr, x) := ConvertUtf8UrlEncodedString value (aa_app_name app) in (if FAILED hr then hr else S_OK, ep_with_app (aa_with_app_name x) s)
  else if EqualNoCase name kExtraArgNeedsAdmin then
    match StringToNeedsAdmin value with None => (E_INVALIDARG, s) | Some x => ok (aa_with_needs_admin x) end
  else if EqualNoCase name kExtraArgInstallDataIndex then ok (aa_with_install_data_index value)
  else if EqualNoCase name kExtraArgUntrustedData then ok (aa_with_untrusted_data value)
  else (E_INVALIDARG, s).

Definition HandleToken (token : CString) : St ExtraArgsParser HRESULT := fun s =>
  match ParseNameValuePair token kNameValueSeparatorChar with
  | None => (E_INVALIDARG, s)
  | Some (name, value) => match HandleBundleToken name value s with Some r => r | None => HandleAppToken name value s end
  end.

Definition ParseExtraArgs (extra_args : CString) (s : ExtraArgsParser) : HRESULT * ExtraArgsParser :=
  let extra_args := c_str extra_args in
  let hr := ValidateExtraArgs extra_args in
  if FAILED hr then (hr, s)
  else
    let '(hr, s) := handle_tokens HandleToken (tokens extra_args kExtraArgsSeparators) (mkExtraArgsParser (ep_args s) (cur_extra_app_args_ s) true) in
    if FAILED hr then (hr, s)
    else
      let s := ep_with_args (fun args => ea_with_apps (ea_apps args ++ [cur_extra_app_args_ s]) args) s in
      (S_OK, if IsEmpty (ea_bundle_name (ep_args s))
             then ep_with_args (fun args => ea_with_bundle_name (match ea_apps args with a :: _ => aa_app_name a | [] => [] end) args) s
             else s).

(** A parser is made for the call; [args] are the arguments so far. *)
Definition ExtraArgs_Parse (extra_args app_args : CString) (args : CommandLineExtraArgs) : HRESULT * CommandLineExtraArgs :=
  let '(hr, s) := ParseExtraArgs extra_args (mkExtraArgsParser args CommandLineAppArgs_init false) in
  if FAILED hr then (hr, ep_args s) else ParseAppArgs app_args (ep_args s).
End Parser.
