(* ===== verification/CommandLine.v ===== *)
(** Command lines: the parser (omaha/base/command_line_parser.cc), the rules of
    valid command lines (base/command_line_validator.cc and
    common/goopdate_command_line_validator.cc), the structure a command line is
    parsed into (common/command_line.cc, command_line.h) and the builder that
    writes the command lines of other processes (common/command_line_builder.cc). *)

From S2P Require Import Prelude Hresult CStrings Maps Paths Text Policy ExtraArgs.

(** ** Windows *)

(** An argument as it is written: bare, or in quotes. *)
Inductive argument := Bare (s : CString) | Quoted (s : CString).
Definition arg_value (a : argument) : CString := match a with Bare s | Quoted s => s end.
Definition arg_text (a : argument) : CString := match a with Bare s => s | Quoted s => 34 :: s ++ [34] end.
(** A bare argument has no blanks and no quotes; one in quotes has no further quotes
    and no backslash before the last one. *)
Definition well_formed (a : argument) : Prop :=
  match a with
  | Bare s => s <> [] /\ Forall (fun c => 32 < c /\ c <> 34) s
  | Quoted s => Forall (fun c => 0 < c /\ c <> 34) s /\ last s <> Some 92
  end.
Definition command_text (program : argument) (args : list argument) : CString :=
  arg_text program ++ concat ((fun a => 32 :: arg_text a) <$> args).

(** What the code uses of the shell: taking a command line apart, of which only
    documented cases are assumed, and the name at the end of a path. *)
Class ShellApi := {
  CommandLineToArgvW : CString -> HRESULT + list CString;
  PathStripPath : CString -> CString;
  GetModulePath : CString;
  CommandLineToArgvW_text : forall program args, well_formed program -> Forall well_formed args ->
    CommandLineToArgvW (command_text program args) = inr (arg_value <$> program :: args);
  CommandLineToArgvW_fails : forall s hr, CommandLineToArgvW s = inl hr -> FAILED hr = true;
  PathStripPath_name : forall s, Forall (fun c => c <> 92 /\ c <> 47 /\ c <> 58) s -> PathStripPath s = s
}.

Abbreviation smap V := (list (CString * V)).

(** ** Switches and their arguments ([CommandLineParserArgs]) *)

Definition CommandLineParserArgs : Type := smap (list CString).

Definition Args_AddSwitch (switch_name : CString) (m : CommandLineParserArgs) : HRESULT * CommandLineParserArgs :=
  match map_find switch_name m with
  | Some _ => (E_INVALIDARG, m)
  | None => (S_OK, map_put switch_name [] m)
  end.
Definition Args_AddSwitchArgument (switch_name value : CString) (m : CommandLineParserArgs) : HRESULT * CommandLineParserArgs :=
  if IsEmpty switch_name then (E_INVALIDARG, m)
  else
    match map_find switch_name m with
    | None => (E_UNEXPECTED, m)
    | Some values => (S_OK, map_put switch_name (values ++ [value]) m)
    end.
Definition Args_HasSwitch (switch_name : CString) (m : CommandLineParserArgs) : bool :=
  match map_find (MakeLower switch_name) m with Some _ => true | None => false end.
Definition Args_GetSwitchNameAtIndex (index : nat) (m : CommandLineParserArgs) : option CString :=
  if (length m <=? index)%nat then None else fst <$> m !! index.
Definition Args_GetSwitchArgumentCount (switch_name : CString) (m : CommandLineParserArgs) : option nat :=
  length <$> map_find (MakeLower switch_name) m.
(** The result, and the value if there is one. *)
Definition Args_GetSwitchArgumentValue (switch_name : CString) (argument_index : nat) (m : CommandLineParserArgs) : HRESULT + CString :=
  let switch_name_lower := MakeLower switch_name in
  match Args_GetSwitchArgumentCount switch_name_lower m with
  | None => inl E_INVALIDARG
  | Some count =>
      if (count <=? argument_index)%nat then inl E_INVALIDARG
      else
        match map_find switch_name_lower m with
        | None => inl E_INVALIDARG
        | Some values => match values !! argument_index with Some v => inr v | None => inl E_INVALIDARG end
        end
  end.

(** ** The parser ([CommandLineParser]) *)

Record CommandLineParser := mkCommandLineParser {
  required_args_ : CommandLineParserArgs;
  optional_args_ : CommandLineParserArgs
}.
Definition CommandLineParser_init : CommandLineParser := mkCommandLineParser [] [].

(** [CString::Trim(_T(" "))]. *)
Definition trim_blanks (s : CString) : CString :=
  reverse (drop_while (Z.eqb 32) (reverse (drop_while (Z.eqb 32) s))).

Definition IsSwitch (param : CString) : bool :=
  if GetLength param <? 2 then false
  else
    match param with
    | [] => false
    | c :: _ => ((c =? 47) || (c =? 45)) && (Find param (_T " ") 0 =? -1) && (Find param (_T "%20") 0 =? -1)
    end.
(** An empty string has its final zero at index 0. *)
Definition IsOptionalSwitch (param : CString) : bool :=
  match param with
  | [] => false
  | c :: _ => (c =? 91) && IsSwitch (Right param (GetLength param - 1))
  end.

(** An error, or the name. *)
Definition StripSwitchNameFromArgv (param : CString) : HRESULT + CString :=
  if negb (IsSwitch param) then inl E_INVALIDARG
  else inr (MakeLower (trim_blanks (Right param (GetLength param - 1)))).
Definition StripOptionalSwitchNameFromArgv (param : CString) : HRESULT + CString :=
  if negb (IsOptionalSwitch param) then inl E_INVALIDARG
  else StripSwitchNameFromArgv (Right param (GetLength param - 1)).

Definition on_required (f : CommandLineParserArgs -> HRESULT * CommandLineParserArgs) (p : CommandLineParser) : HRESULT * CommandLineParser :=
  let '(hr, m) := f (required_args_ p) in (hr, mkCommandLineParser m (optional_args_ p)).
Definition on_optional (f : CommandLineParserArgs -> HRESULT * CommandLineParserArgs) (p : CommandLineParser) : HRESULT * CommandLineParser :=
  let '(hr, m) := f (optional_args_ p) in (hr, mkCommandLineParser (required_args_ p) m).

(** The loop over the arguments after the program. *)
Fixpoint parse_loop (argv : list CString) (current_switch_name : CString) (is_optional_switch : bool) (p : CommandLineParser) : HRESULT * CommandLineParser :=
  match argv with
  | [] => (S_OK, p)
  | arg :: argv =>
      let token := trim_blanks arg in
      if IsSwitch token then
        match StripSwitchNameFromArgv token with
        | inl hr => (hr, p)
        | inr name =>
            let '(hr, p) := on_required (Args_AddSwitch name) p in
            if FAILED hr then (hr, p) else parse_loop argv name false p
        end
      else if IsOptionalSwitch token then
        match StripOptionalSwitchNameFromArgv token with
        | inl hr => (hr, p)
        | inr name =>
            let '(hr, p) := on_optional (Args_AddSwitch name) p in
            if FAILED hr then (hr, p) else parse_loop argv name true p
        end
      else
        let '(hr, p) := (if is_optional_switch then on_optional else on_required) (Args_AddSwitchArgument current_switch_name token) p in
        if FAILED hr then (hr, p) else parse_loop argv current_switch_name is_optional_switch p
  end.

Definition ParseFromArgv (argv : list CString) (p : CommandLineParser) : HRESULT * CommandLineParser :=
  match argv with
  | [] => (E_INVALIDARG, p)
  | _ :: args => parse_loop args [] false CommandLineParser_init
  end.

(** ** Constants (const_cmd_line.h, error.h) *)

Definition kCmdLineInstall : CString := _T "install".
Definition kCmdLineInstallElevated : CString := _T "installelevated".
Definition kCmdLineUpdate : CString := _T "update".
Definition kCmdLineRecover : CString := _T "recover".
Definition kCmdLineCore : CString := _T "c".
Definition kCmdLineNoCrashHandler : CString := _T "nocrashserver".
Definition kCmdLineCrashHandler : CString := _T "crashhandler".
Definition kCmdLineAppHandoffInstall : CString := _T "handoff".
Definition kCmdLineUpdateApps : CString := _T "ua".
Definition kCmdLineCodeRedCheck : CString := _T "cr".
Definition kCmdLineRegisterProduct : CString := _T "registerproduct".
Definition kCmdLineUnregisterProduct : CString := _T "unregisterproduct".
Definition kCmdLineService : CString := _T "svc".
Definition kCmdLineMediumService : CString := _T "medsvc".
Definition kCmdLineRegisterService : CString := _T "regsvc".
Definition kCmdLineUnregisterService : CString := _T "unregsvc".
Definition kCmdLineReport : CString := _T "report".
Definition kCmdLineCustomInfoFileName : CString := _T "custom_info_filename".
Definition kCmdLineComServerDash : CString := _T "-Embedding".
Definition kCmdLineComBroker : CString := _T "/broker".
Definition kCmdLineOnDemand : CString := _T "/ondemand".
Definition kCmdLineUninstall : CString := _T "uninstall".
Definition kCmdLineHealthCheck : CString := _T "healthcheck".
Definition kCmdLinePing : CString := _T "ping".
Definition kCmdLineCrash : CString := _T "crash".
Definition kCmdLineSilent : CString := _T "silent".
Definition kCmdLineAlwaysLaunchCmd : CString := _T "alwayslaunchcmd".
Definition kCmdLineLegacyOfflineInstall : CString := _T "offlineinstall".
Definition kCmdLineOfflineDir : CString := _T "offlinedir".
Definition kCmdLineOem : CString := _T "oem".
Definition kCmdLineEulaRequired : CString := _T "eularequired".
Definition kCmdLineEnterprise : CString := _T "enterprise".
Definition kCmdLineMachine : CString := _T "machine".
Definition kCmdLineInteractive : CString := _T "i".
Definition kCmdLineSessionId : CString := _T "sessionid".
Definition kCmdLineInstallSource : CString := _T "installsource".
Definition kCmdLineAppArgs : CString := _T "appargs".
Definition kCmdRegServer : CString := _T "regserver".
Definition kCmdUnregServer : CString := _T "unregserver".
Definition GOOGLEUPDATE_COMMANDLINE_E_NO_SCENARIO_HANDLER : HRESULT := MAKE_HRESULT SEVERITY_ERROR FACILITY_ITF 0xC00.
Definition GOOGLEUPDATE_COMMANDLINE_E_NO_SCENARIO_HANDLER_MATCHED : HRESULT := MAKE_HRESULT SEVERITY_ERROR FACILITY_ITF 0xC01.

Inductive CommandLineMode :=
  | COMMANDLINE_MODE_UNKNOWN
  | COMMANDLINE_MODE_NOARGS
  | COMMANDLINE_MODE_CORE
  | COMMANDLINE_MODE_SERVICE
  | COMMANDLINE_MODE_REGSERVER
  | COMMANDLINE_MODE_UNREGSERVER
  | COMMANDLINE_MODE_CRASH
  | COMMANDLINE_MODE_REPORTCRASH
  | COMMANDLINE_MODE_INSTALL
  | COMMANDLINE_MODE_UPDATE
  | COMMANDLINE_MODE_HANDOFF_INSTALL
  | COMMANDLINE_MODE_UA
  | COMMANDLINE_MODE_RECOVER
  | COMMANDLINE_MODE_CODE_RED_CHECK
  | COMMANDLINE_MODE_COMSERVER
  | COMMANDLINE_MODE_REGISTER_PRODUCT
  | COMMANDLINE_MODE_UNREGISTER_PRODUCT
  | COMMANDLINE_MODE_SERVICE_REGISTER
  | COMMANDLINE_MODE_SERVICE_UNREGISTER
  | COMMANDLINE_MODE_CRASH_HANDLER
  | COMMANDLINE_MODE_COMBROKER
  | COMMANDLINE_MODE_ONDEMAND
  | COMMANDLINE_MODE_MEDIUM_SERVICE
  | COMMANDLINE_MODE_UNINSTALL
  | COMMANDLINE_MODE_PING
  | COMMANDLINE_MODE_HEALTH_CHECK.
#[export] Instance CommandLineMode_eq_dec : EqDecision CommandLineMode.
Proof. solve_decision. Defined.

Record CommandLineArgs := mkCommandLineArgs {
  cl_mode : CommandLineMode;
  cl_is_interactive_set : bool;
  cl_is_machine_set : bool;
  cl_is_crash_handler_disabled : bool;
  cl_is_install_elevated : bool;
  cl_is_silent_set : bool;
  cl_is_always_launch_cmd_set : bool;
  cl_is_eula_required_set : bool;
  cl_is_offline_set : bool;
  cl_is_enterprise_set : bool;
  cl_is_oem_set : bool;
  cl_extra_args_str : CString;
  cl_app_args_str : CString;
  cl_install_source : CString;
  cl_crash_filename : CString;
  cl_custom_info_filename : CString;
  cl_legacy_manifest_path : CString;
  cl_code_red_metainstaller_path : CString;
  cl_ping_string : CString;
  cl_offline_dir_name : CString;
  cl_session_id : CString;
  cl_extra : CommandLineExtraArgs
}.
Definition CommandLineArgs_init : CommandLineArgs :=
  mkCommandLineArgs COMMANDLINE_MODE_UNKNOWN false false false false false false false false false false [] [] [] [] [] [] [] [] [] [] CommandLineExtraArgs_init.

Definition cl_with_mode (x : CommandLineMode) (a : CommandLineArgs) : CommandLineArgs :=
  mkCommandLineArgs x (cl_is_interactive_set a) (cl_is_machine_set a) (cl_is_crash_handler_disabled a) (cl_is_install_elevated a) (cl_is_silent_set a) (cl_is_always_launch_cmd_set a) (cl_is_eula_required_set a) (cl_is_offline_set a) (cl_is_enterprise_set a) (cl_is_oem_set a) (cl_extra_args_str a) (cl_app_args_str a) (cl_install_source a) (cl_crash_filename a) (cl_custom_info_filename a) (cl_legacy_manifest_path a) (cl_code_red_metainstaller_path a) (cl_ping_string a) (cl_offline_dir_name a) (cl_session_id a) (cl_extra a).
Definition cl_with_is_interactive_set (x : bool) (a : CommandLineArgs) : CommandLineArgs :=
  mkCommandLineArgs (cl_mode a) x (cl_is_machine_set a) (cl_is_crash_handler_disabled a) (cl_is_install_elevated a) (cl_is_silent_set a) (cl_is_always_launch_cmd_set a) (cl_is_eula_required_set a) (cl_is_offline_set a) (cl_is_enterprise_set a) (cl_is_oem_set a) (cl_extra_args_str a) (cl_app_args_str a) (cl_install_source a) (cl_crash_filename a) (cl_custom_info_filename a) (cl_legacy_manifest_path a) (cl_code_red_metainstaller_path a) (cl_ping_string a) (cl_offline_dir_name a) (cl_session_id a) (cl_extra a).
Definition cl_with_is_machine_set (x : bool) (a : CommandLineArgs) : CommandLineArgs :=
  mkCommandLineArgs (cl_mode a) (cl_is_interactive_set a) x (cl_is_crash_handler_disabled a) (cl_is_install_elevated a) (cl_is_silent_set a) (cl_is_always_launch_cmd_set a) (cl_is_eula_required_set a) (cl_is_offline_set a) (cl_is_enterprise_set a) (cl_is_oem_set a) (cl_extra_args_str a) (cl_app_args_str a) (cl_install_source a) (cl_crash_filename a) (cl_custom_info_filename a) (cl_legacy_manifest_path a) (cl_code_red_metainstaller_path a) (cl_ping_string a) (cl_offline_dir_name a) (cl_session_id a) (cl_extra a).
Definition cl_with_is_crash_handler_disabled (x : bool) (a : CommandLineArgs) : CommandLineArgs :=
  mkCommandLineArgs (cl_mode a) (cl_is_interactive_set a) (cl_is_machine_set a) x (cl_is_install_elevated a) (cl_is_silent_set a) (cl_is_always_launch_cmd_set a) (cl_is_eula_required_set a) (cl_is_offline_set a) (cl_is_enterprise_set a) (cl_is_oem_set a) (cl_extra_args_str a) (cl_app_args_str a) (cl_install_source a) (cl_crash_filename a) (cl_custom_info_filename a) (cl_legacy_manifest_path a) (cl_code_red_metainstaller_path a) (cl_ping_string a) (cl_offline_dir_name a) (cl_session_id a) (cl_extra a).
Definition cl_with_is_install_elevated (x : bool) (a : CommandLineArgs) : CommandLineArgs :=
  mkCommandLineArgs (cl_mode a) (cl_is_interactive_set a) (cl_is_machine_set a) (cl_is_crash_handler_disabled a) x (cl_is_silent_set a) (cl_is_always_launch_cmd_set a) (cl_is_eula_required_set a) (cl_is_offline_set a) (cl_is_enterprise_set a) (cl_is_oem_set a) (cl_extra_args_str a) (cl_app_args_str a) (cl_install_source a) (cl_crash_filename a) (cl_custom_info_filename a) (cl_legacy_manifest_path a) (cl_code_red_metainstaller_path a) (cl_ping_string a) (cl_offline_dir_name a) (cl_session_id a) (cl_extra a).
Definition cl_with_is_silent_set (x : bool) (a : CommandLineArgs) : CommandLineArgs :=
  mkCommandLineArgs (cl_mode a) (cl_is_interactive_set a) (cl_is_machine_set a) (cl_is_crash_handler_disabled a) (cl_is_install_elevated a) x (cl_is_always_launch_cmd_set a) (cl_is_eula_required_set a) (cl_is_offline_set a) (cl_is_enterprise_set a) (cl_is_oem_set a) (cl_extra_args_str a) (cl_app_args_str a) (cl_install_source a) (cl_crash_filename a) (cl_custom_info_filename a) (cl_legacy_manifest_path a) (cl_code_red_metainstaller_path a) (cl_ping_string a) (cl_offline_dir_name a) (cl_session_id a) (cl_extra a).
Definition cl_with_is_always_launch_cmd_set (x : bool) (a : CommandLineArgs) : CommandLineArgs :=
  mkCommandLineArgs (cl_mode a) (cl_is_interactive_set a) (cl_is_machine_set a) (cl_is_crash_handler_disabled a) (cl_is_install_elevated a) (cl_is_silent_set a) x (cl_is_eula_required_set a) (cl_is_offline_set a) (cl_is_enterprise_set a) (cl_is_oem_set a) (cl_extra_args_str a) (cl_app_args_str a) (cl_install_source a) (cl_crash_filename a) (cl_custom_info_filename a) (cl_legacy_manifest_path a) (cl_code_red_metainstaller_path a) (cl_ping_string a) (cl_offline_dir_name a) (cl_session_id a) (cl_extra a).
Definition cl_with_is_eula_required_set (x : bool) (a : CommandLineArgs) : CommandLineArgs :=
  mkCommandLineArgs (cl_mode a) (cl_is_interactive_set a) (cl_is_machine_set a) (cl_is_crash_handler_disabled a) (cl_is_install_elevated a) (cl_is_silent_set a) (cl_is_always_launch_cmd_set a) x (cl_is_offline_set a) (cl_is_enterprise_set a) (cl_is_oem_set a) (cl_extra_args_str a) (cl_app_args_str a) (cl_install_source a) (cl_crash_filename a) (cl_custom_info_filename a) (cl_legacy_manifest_path a) (cl_code_red_metainstaller_path a) (cl_ping_string a) (cl_offline_dir_name a) (cl_session_id a) (cl_extra a).
Definition cl_with_is_offline_set (x : bool) (a : CommandLineArgs) : CommandLineArgs :=
  mkCommandLineArgs (cl_mode a) (cl_is_interactive_set a) (cl_is_machine_set a) (cl_is_crash_handler_disabled a) (cl_is_install_elevated a) (cl_is_silent_set a) (cl_is_always_launch_cmd_set a) (cl_is_eula_required_set a) x (cl_is_enterprise_set a) (cl_is_oem_set a) (cl_extra_args_str a) (cl_app_args_str a) (cl_install_source a) (cl_crash_filename a) (cl_custom_info_filename a) (cl_legacy_manifest_path a) (cl_code_red_metainstaller_path a) (cl_ping_string a) (cl_offline_dir_name a) (cl_session_id a) (cl_extra a).
Definition cl_with_is_enterprise_set (x : bool) (a : CommandLineArgs) : CommandLineArgs :=
  mkCommandLineArgs (cl_mode a) (cl_is_interactive_set a) (cl_is_machine_set a) (cl_is_crash_handler_disabled a) (cl_is_install_elevated a) (cl_is_silent_set a) (cl_is_always_launch_cmd_set a) (cl_is_eula_required_set a) (cl_is_offline_set a) x (cl_is_oem_set a) (cl_extra_args_str a) (cl_app_args_str a) (cl_install_source a) (cl_crash_filename a) (cl_custom_info_filename a) (cl_legacy_manifest_path a) (cl_code_red_metainstaller_path a) (cl_ping_string a) (cl_offline_dir_name a) (cl_session_id a) (cl_extra a).
Definition cl_with_is_oem_set (x : bool) (a : CommandLineArgs) : CommandLineArgs :=
  mkCommandLineArgs (cl_mode a) (cl_is_interactive_set a) (cl_is_machine_set a) (cl_is_crash_handler_disabled a) (cl_is_install_elevated a) (cl_is_silent_set a) (cl_is_always_launch_cmd_set a) (cl_is_eula_required_set a) (cl_is_offline_set a) (cl_is_enterprise_set a) x (cl_extra_args_str a) (cl_app_args_str a) (cl_install_source a) (cl_crash_filename a) (cl_custom_info_filename a) (cl_legacy_manifest_path a) (cl_code_red_metainstaller_path a) (cl_ping_string a) (cl_offline_dir_name a) (cl_session_id a) (cl_extra a).
Definition cl_with_extra_args_str (x : CString) (a : CommandLineArgs) : CommandLineArgs :=
  mkCommandLineArgs (cl_mode a) (cl_is_interactive_set a) (cl_is_machine_set a) (cl_is_crash_handler_disabled a) (cl_is_install_elevated a) (cl_is_silent_set a) (cl_is_always_launch_cmd_set a) (cl_is_eula_required_set a) (cl_is_offline_set a) (cl_is_enterprise_set a) (cl_is_oem_set a) x (cl_app_args_str a) (cl_install_source a) (cl_crash_filename a) (cl_custom_info_filename a) (cl_legacy_manifest_path a) (cl_code_red_metainstaller_path a) (cl_ping_string a) (cl_offline_dir_name a) (cl_session_id a) (cl_extra a).
Definition cl_with_app_args_str (x : CString) (a : CommandLineArgs) : CommandLineArgs :=
  mkCommandLineArgs (cl_mode a) (cl_is_interactive_set a) (cl_is_machine_set a) (cl_is_crash_handler_disabled a) (cl_is_install_elevated a) (cl_is_silent_set a) (cl_is_always_launch_cmd_set a) (cl_is_eula_required_set a) (cl_is_offline_set a) (cl_is_enterprise_set a) (cl_is_oem_set a) (cl_extra_args_str a) x (cl_install_source a) (cl_crash_filename a) (cl_custom_info_filename a) (cl_legacy_manifest_path a) (cl_code_red_metainstaller_path a) (cl_ping_string a) (cl_offline_dir_name a) (cl_session_id a) (cl_extra a).
Definition cl_with_install_source (x : CString) (a : CommandLineArgs) : CommandLineArgs :=
  mkCommandLineArgs (cl_mode a) (cl_is_interactive_set a) (cl_is_machine_set a) (cl_is_crash_handler_disabled a) (cl_is_install_elevated a) (cl_is_silent_set a) (cl_is_always_launch_cmd_set a) (cl_is_eula_required_set a) (cl_is_offline_set a) (cl_is_enterprise_set a) (cl_is_oem_set a) (cl_extra_args_str a) (cl_app_args_str a) x (cl_crash_filename a) (cl_custom_info_filename a) (cl_legacy_manifest_path a) (cl_code_red_metainstaller_path a) (cl_ping_string a) (cl_offline_dir_name a) (cl_session_id a) (cl_extra a).
Definition cl_with_crash_filename (x : CString) (a : CommandLineArgs) : CommandLineArgs :=
  mkCommandLineArgs (cl_mode a) (cl_is_interactive_set a) (cl_is_machine_set a) (cl_is_crash_handler_disabled a) (cl_is_install_elevated a) (cl_is_silent_set a) (cl_is_always_launch_cmd_set a) (cl_is_eula_required_set a) (cl_is_offline_set a) (cl_is_enterprise_set a) (cl_is_oem_set a) (cl_extra_args_str a) (cl_app_args_str a) (cl_install_source a) x (cl_custom_info_filename a) (cl_legacy_manifest_path a) (cl_code_red_metainstaller_path a) (cl_ping_string a) (cl_offline_dir_name a) (cl_session_id a) (cl_extra a).
Definition cl_with_custom_info_filename (x : CString) (a : CommandLineArgs) : CommandLineArgs :=
  mkCommandLineArgs (cl_mode a) (cl_is_interactive_set a) (cl_is_machine_set a) (cl_is_crash_handler_disabled a) (cl_is_install_elevated a) (cl_is_silent_set a) (cl_is_always_launch_cmd_set a) (cl_is_eula_required_set a) (cl_is_offline_set a) (cl_is_enterprise_set a) (cl_is_oem_set a) (cl_extra_args_str a) (cl_app_args_str a) (cl_install_source a) (cl_crash_filename a) x (cl_legacy_manifest_path a) (cl_code_red_metainstaller_path a) (cl_ping_string a) (cl_offline_dir_name a) (cl_session_id a) (cl_extra a).
Definition cl_with_code_red_metainstaller_path (x : CString) (a : CommandLineArgs) : CommandLineArgs :=
  mkCommandLineArgs (cl_mode a) (cl_is_interactive_set a) (cl_is_machine_set a) (cl_is_crash_handler_disabled a) (cl_is_install_elevated a) (cl_is_silent_set a) (cl_is_always_launch_cmd_set a) (cl_is_eula_required_set a) (cl_is_offline_set a) (cl_is_enterprise_set a) (cl_is_oem_set a) (cl_extra_args_str a) (cl_app_args_str a) (cl_install_source a) (cl_crash_filename a) (cl_custom_info_filename a) (cl_legacy_manifest_path a) x (cl_ping_string a) (cl_offline_dir_name a) (cl_session_id a) (cl_extra a).
Definition cl_with_ping_string (x : CString) (a : CommandLineArgs) : CommandLineArgs :=
  mkCommandLineArgs (cl_mode a) (cl_is_interactive_set a) (cl_is_machine_set a) (cl_is_crash_handler_disabled a) (cl_is_install_elevated a) (cl_is_silent_set a) (cl_is_always_launch_cmd_set a) (cl_is_eula_required_set a) (cl_is_offline_set a) (cl_is_enterprise_set a) (cl_is_oem_set a) (cl_extra_args_str a) (cl_app_args_str a) (cl_install_source a) (cl_crash_filename a) (cl_custom_info_filename a) (cl_legacy_manifest_path a) (cl_code_red_metainstaller_path a) x (cl_offline_dir_name a) (cl_session_id a) (cl_extra a).
Definition cl_with_offline_dir_name (x : CString) (a : CommandLineArgs) : CommandLineArgs :=
  mkCommandLineArgs (cl_mode a) (cl_is_interactive_set a) (cl_is_machine_set a) (cl_is_crash_handler_disabled a) (cl_is_install_elevated a) (cl_is_silent_set a) (cl_is_always_launch_cmd_set a) (cl_is_eula_required_set a) (cl_is_offline_set a) (cl_is_enterprise_set a) (cl_is_oem_set a) (cl_extra_args_str a) (cl_app_args_str a) (cl_install_source a) (cl_crash_filename a) (cl_custom_info_filename a) (cl_legacy_manifest_path a) (cl_code_red_metainstaller_path a) (cl_ping_string a) x (cl_session_id a) (cl_extra a).
Definition cl_with_session_id (x : CString) (a : CommandLineArgs) : CommandLineArgs :=
  mkCommandLineArgs (cl_mode a) (cl_is_interactive_set a) (cl_is_machine_set a) (cl_is_crash_handler_disabled a) (cl_is_install_elevated a) (cl_is_silent_set a) (cl_is_always_launch_cmd_set a) (cl_is_eula_required_set a) (cl_is_offline_set a) (cl_is_enterprise_set a) (cl_is_oem_set a) (cl_extra_args_str a) (cl_app_args_str a) (cl_install_source a) (cl_crash_filename a) (cl_custom_info_filename a) (cl_legacy_manifest_path a) (cl_code_red_metainstaller_path a) (cl_ping_string a) (cl_offline_dir_name a) x (cl_extra a).
Definition cl_with_extra (x : CommandLineExtraArgs) (a : CommandLineArgs) : CommandLineArgs :=
  mkCommandLineArgs (cl_mode a) (cl_is_interactive_set a) (cl_is_machine_set a) (cl_is_crash_handler_disabled a) (cl_is_install_elevated a) (cl_is_silent_set a) (cl_is_always_launch_cmd_set a) (cl_is_eula_required_set a) (cl_is_offline_set a) (cl_is_enterprise_set a) (cl_is_oem_set a) (cl_extra_args_str a) (cl_app_args_str a) (cl_install_source a) (cl_crash_filename a) (cl_custom_info_filename a) (cl_legacy_manifest_path a) (cl_code_red_metainstaller_path a) (cl_ping_string a) (cl_offline_dir_name a) (cl_session_id a) x.

(** ** The builder ([CommandLineBuilder]) *)

Record CommandLineBuilder := mkCommandLineBuilder {
  cb_mode_ : CommandLineMode;
  cb_is_interactive_set_ : bool;
  cb_is_machine_set_ : bool;
  cb_is_silent_set_ : bool;
  cb_is_always_launch_cmd_set_ : bool;
  cb_is_eula_required_set_ : bool;
  cb_is_enterprise_set_ : bool;
  cb_extra_args_ : CString;
  cb_app_args_ : CString;
  cb_install_source_ : CString;
  cb_session_id_ : CString;
  cb_crash_filename_ : CString;
  cb_custom_info_filename_ : CString;
  cb_code_red_metainstaller_path_ : CString;
  cb_ping_string_ : CString;
  cb_offline_dir_name_ : CString
}.
Definition CommandLineBuilder_init (mode : CommandLineMode) : CommandLineBuilder :=
  mkCommandLineBuilder mode false false false false false false [] [] [] [] [] [] [] [] [].

Definition cb_set_is_interactive_set (x : bool) (b : CommandLineBuilder) : CommandLineBuilder :=
  mkCommandLineBuilder (cb_mode_ b) x (cb_is_machine_set_ b) (cb_is_silent_set_ b) (cb_is_always_launch_cmd_set_ b) (cb_is_eula_required_set_ b) (cb_is_enterprise_set_ b) (cb_extra_args_ b) (cb_app_args_ b) (cb_install_source_ b) (cb_session_id_ b) (cb_crash_filename_ b) (cb_custom_info_filename_ b) (cb_code_red_metainstaller_path_ b) (cb_ping_string_ b) (cb_offline_dir_name_ b).
Definition cb_set_is_machine_set (x : bool) (b : CommandLineBuilder) : CommandLineBuilder :=
  mkCommandLineBuilder (cb_mode_ b) (cb_is_interactive_set_ b) x (cb_is_silent_set_ b) (cb_is_always_launch_cmd_set_ b) (cb_is_eula_required_set_ b) (cb_is_enterprise_set_ b) (cb_extra_args_ b) (cb_app_args_ b) (cb_install_source_ b) (cb_session_id_ b) (cb_crash_filename_ b) (cb_custom_info_filename_ b) (cb_code_red_metainstaller_path_ b) (cb_ping_string_ b) (cb_offline_dir_name_ b).
Definition cb_set_is_silent_set (x : bool) (b : CommandLineBuilder) : CommandLineBuilder :=
  mkCommandLineBuilder (cb_mode_ b) (cb_is_interactive_set_ b) (cb_is_machine_set_ b) x (cb_is_always_launch_cmd_set_ b) (cb_is_eula_required_set_ b) (cb_is_enterprise_set_ b) (cb_extra_args_ b) (cb_app_args_ b) (cb_install_source_ b) (cb_session_id_ b) (cb_crash_filename_ b) (cb_custom_info_filename_ b) (cb_code_red_metainstaller_path_ b) (cb_ping_string_ b) (cb_offline_dir_name_ b).
Definition cb_set_is_always_launch_cmd_set (x : bool) (b : CommandLineBuilder) : CommandLineBuilder :=
  mkCommandLineBuilder (cb_mode_ b) (cb_is_interactive_set_ b) (cb_is_machine_set_ b) (cb_is_silent_set_ b) x (cb_is_eula_required_set_ b) (cb_is_enterprise_set_ b) (cb_extra_args_ b) (cb_app_args_ b) (cb_install_source_ b) (cb_session_id_ b) (cb_crash_filename_ b) (cb_custom_info_filename_ b) (cb_code_red_metainstaller_path_ b) (cb_ping_string_ b) (cb_offline_dir_name_ b).
Definition cb_set_is_eula_required_set (x : bool) (b : CommandLineBuilder) : CommandLineBuilder :=
  mkCommandLineBuilder (cb_mode_ b) (cb_is_interactive_set_ b) (cb_is_machine_set_ b) (cb_is_silent_set_ b) (cb_is_always_launch_cmd_set_ b) x (cb_is_enterprise_set_ b) (cb_extra_args_ b) (cb_app_args_ b) (cb_install_source_ b) (cb_session_id_ b) (cb_crash_filename_ b) (cb_custom_info_filename_ b) (cb_code_red_metainstaller_path_ b) (cb_ping_string_ b) (cb_offline_dir_name_ b).
Definition cb_set_is_enterprise_set (x : bool) (b : CommandLineBuilder) : CommandLineBuilder :=
  mkCommandLineBuilder (cb_mode_ b) (cb_is_interactive_set_ b) (cb_is_machine_set_ b) (cb_is_silent_set_ b) (cb_is_always_launch_cmd_set_ b) (cb_is_eula_required_set_ b) x (cb_extra_args_ b) (cb_app_args_ b) (cb_install_source_ b) (cb_session_id_ b) (cb_crash_filename_ b) (cb_custom_info_filename_ b) (cb_code_red_metainstaller_path_ b) (cb_ping_string_ b) (cb_offline_dir_name_ b).
Definition cb_set_extra_args (x : CString) (b : CommandLineBuilder) : CommandLineBuilder :=
  mkCommandLineBuilder (cb_mode_ b) (cb_is_interactive_set_ b) (cb_is_machine_set_ b) (cb_is_silent_set_ b) (cb_is_always_launch_cmd_set_ b) (cb_is_eula_required_set_ b) (cb_is_enterprise_set_ b) x (cb_app_args_ b) (cb_install_source_ b) (cb_session_id_ b) (cb_crash_filename_ b) (cb_custom_info_filename_ b) (cb_code_red_metainstaller_path_ b) (cb_ping_string_ b) (cb_offline_dir_name_ b).
Definition cb_set_app_args (x : CString) (b : CommandLineBuilder) : CommandLineBuilder :=
  mkCommandLineBuilder (cb_mode_ b) (cb_is_interactive_set_ b) (cb_is_machine_set_ b) (cb_is_silent_set_ b) (cb_is_always_launch_cmd_set_ b) (cb_is_eula_required_set_ b) (cb_is_enterprise_set_ b) (cb_extra_args_ b) x (cb_install_source_ b) (cb_session_id_ b) (cb_crash_filename_ b) (cb_custom_info_filename_ b) (cb_code_red_metainstaller_path_ b) (cb_ping_string_ b) (cb_offline_dir_name_ b).
Definition cb_set_install_source (x : CString) (b : CommandLineBuilder) : CommandLineBuilder :=
  mkCommandLineBuilder (cb_mode_ b) (cb_is_interactive_set_ b) (cb_is_machine_set_ b) (cb_is_silent_set_ b) (cb_is_always_launch_cmd_set_ b) (cb_is_eula_required_set_ b) (cb_is_enterprise_set_ b) (cb_extra_args_ b) (cb_app_args_ b) x (cb_session_id_ b) (cb_crash_filename_ b) (cb_custom_info_filename_ b) (cb_code_red_metainstaller_path_ b) (cb_ping_string_ b) (cb_offline_dir_name_ b).
Definition cb_set_session_id (x : CString) (b : CommandLineBuilder) : CommandLineBuilder :=
  mkCommandLineBuilder (cb_mode_ b) (cb_is_interactive_set_ b) (cb_is_machine_set_ b) (cb_is_silent_set_ b) (cb_is_always_launch_cmd_set_ b) (cb_is_eula_required_set_ b) (cb_is_enterprise_set_ b) (cb_extra_args_ b) (cb_app_args_ b) (cb_install_source_ b) x (cb_crash_filename_ b) (cb_custom_info_filename_ b) (cb_code_red_metainstaller_path_ b) (cb_ping_string_ b) (cb_offline_dir_name_ b).
Definition cb_set_crash_filename (x : CString) (b : CommandLineBuilder) : CommandLineBuilder :=
  mkCommandLineBuilder (cb_mode_ b) (cb_is_interactive_set_ b) (cb_is_machine_set_ b) (cb_is_silent_set_ b) (cb_is_always_launch_cmd_set_ b) (cb_is_eula_required_set_ b) (cb_is_enterprise_set_ b) (cb_extra_args_ b) (cb_app_args_ b) (cb_install_source_ b) (cb_session_id_ b) x (cb_custom_info_filename_ b) (cb_code_red_metainstaller_path_ b) (cb_ping_string_ b) (cb_offline_dir_name_ b).
Definition cb_set_custom_info_filename (x : CString) (b : CommandLineBuilder) : CommandLineBuilder :=
  mkCommandLineBuilder (cb_mode_ b) (cb_is_interactive_set_ b) (cb_is_machine_set_ b) (cb_is_silent_set_ b) (cb_is_always_launch_cmd_set_ b) (cb_is_eula_required_set_ b) (cb_is_enterprise_set_ b) (cb_extra_args_ b) (cb_app_args_ b) (cb_install_source_ b) (cb_session_id_ b) (cb_crash_filename_ b) x (cb_code_red_metainstaller_path_ b) (cb_ping_string_ b) (cb_offline_dir_name_ b).
Definition cb_set_code_red_metainstaller_path (x : CString) (b : CommandLineBuilder) : CommandLineBuilder :=
  mkCommandLineBuilder (cb_mode_ b) (cb_is_interactive_set_ b) (cb_is_machine_set_ b) (cb_is_silent_set_ b) (cb_is_always_launch_cmd_set_ b) (cb_is_eula_required_set_ b) (cb_is_enterprise_set_ b) (cb_extra_args_ b) (cb_app_args_ b) (cb_install_source_ b) (cb_session_id_ b) (cb_crash_filename_ b) (cb_custom_info_filename_ b) x (cb_ping_string_ b) (cb_offline_dir_name_ b).
Definition cb_set_ping_string (x : CString) (b : CommandLineBuilder) : CommandLineBuilder :=
  mkCommandLineBuilder (cb_mode_ b) (cb_is_interactive_set_ b) (cb_is_machine_set_ b) (cb_is_silent_set_ b) (cb_is_always_launch_cmd_set_ b) (cb_is_eula_required_set_ b) (cb_is_enterprise_set_ b) (cb_extra_args_ b) (cb_app_args_ b) (cb_install_source_ b) (cb_session_id_ b) (cb_crash_filename_ b) (cb_custom_info_filename_ b) (cb_code_red_metainstaller_path_ b) x (cb_offline_dir_name_ b).
Definition cb_set_offline_dir_name (x : CString) (b : CommandLineBuilder) : CommandLineBuilder :=
  mkCommandLineBuilder (cb_mode_ b) (cb_is_interactive_set_ b) (cb_is_machine_set_ b) (cb_is_silent_set_ b) (cb_is_always_launch_cmd_set_ b) (cb_is_eula_required_set_ b) (cb_is_enterprise_set_ b) (cb_extra_args_ b) (cb_app_args_ b) (cb_install_source_ b) (cb_session_id_ b) (cb_crash_filename_ b) (cb_custom_info_filename_ b) (cb_code_red_metainstaller_path_ b) (cb_ping_string_ b) x.

Section Commands.
Context `{GuidOps, UrlCodec, ShellApi}.

Definition ParseFromString (command_line : CString) (p : CommandLineParser) : HRESULT * CommandLineParser :=
  let command_line_str := trim_blanks (c_str command_line) in
  let command_line_str := if IsEmpty command_line_str then EnclosePath GetModulePath else command_line_str in
  match CommandLineToArgvW command_line_str with
  | inl hr => (hr, p)
  | inr argv => ParseFromArgv argv p
  end.

(** ** Rules for command lines ([CommandLineValidator]) *)

Record ScenarioParameter := mkScenarioParameter { switch_name_ : CString; num_required_parameters_ : nat }.
Record ScenarioParameters := mkScenarioParameters { sp_required : list ScenarioParameter; sp_optional : list ScenarioParameter }.
Record CommandLineValidator := mkCommandLineValidator { scenarios_ : smap ScenarioParameters; scenario_sequence_number_ : Z }.
Definition CommandLineValidator_init : CommandLineValidator := mkCommandLineValidator [] 0.

Definition with_scenarios (x : smap ScenarioParameters) (v : CommandLineValidator) : CommandLineValidator :=
  mkCommandLineValidator x (scenario_sequence_number_ v).

Definition Validator_CreateScenario (scenario_name : CString) (v : CommandLineValidator) : HRESULT * CommandLineValidator :=
  match map_find scenario_name (scenarios_ v) with
  | Some _ => (E_INVALIDARG, v)
  | None => (S_OK, with_scenarios (map_put scenario_name (mkScenarioParameters [] []) (scenarios_ v)) v)
  end.
Definition AddScenarioParameter (scenario_name switch_name : CString) (num_required_parameters : nat) (v : CommandLineValidator) : HRESULT * CommandLineValidator :=
  match map_find scenario_name (scenarios_ v) with
  | None => (E_INVALIDARG, v)
  | Some sp =>
      let sp := mkScenarioParameters (sp_required sp ++ [mkScenarioParameter switch_name num_required_parameters]) (sp_optional sp) in
      (S_OK, with_scenarios (map_put scenario_name sp (scenarios_ v)) v)
  end.
Definition AddOptionalScenarioParameter (scenario_name switch_name : CString) (num_required_parameters : nat) (v : CommandLineValidator) : HRESULT * CommandLineValidator :=
  match map_find scenario_name (scenarios_ v) with
  | None => (E_INVALIDARG, v)
  | Some sp =>
      let sp := mkScenarioParameters (sp_required sp) (sp_optional sp ++ [mkScenarioParameter switch_name num_required_parameters]) in
      (S_OK, with_scenarios (map_put scenario_name sp (scenarios_ v)) v)
  end.

(** The [do]-[while] loop that looks for a name that is not taken: the number and
    the name; one round per scenario at most, and a last one. *)
Fixpoint unique_name (fuel : nat) (number : Z) (scenarios : smap ScenarioParameters) : Z * CString :=
  let number := number + 1 in
  let name := _T "scenario_" ++ decimal number in
  match fuel with
  | O => (number, name)
  | S fuel => match map_find name scenarios with Some _ => unique_name fuel number scenarios | None => (number, name) end
  end.

(** The loops over the switches of the rule; [add] is one of the functions above. *)
Fixpoint add_parameters (add : CString -> nat -> CommandLineValidator -> HRESULT * CommandLineValidator) (m : CommandLineParserArgs)
    (indices : list nat) (v : CommandLineValidator) : HRESULT * CommandLineValidator :=
  match indices with
  | [] => (S_OK, v)
  | idx_switch :: indices =>
      match Args_GetSwitchNameAtIndex idx_switch m with
      | None => (E_INVALIDARG, v)
      | Some switch_name =>
          match Args_GetSwitchArgumentCount switch_name m with
          | None => (E_INVALIDARG, v)
          | Some arg_count =>
              let '(hr, v) := add switch_name arg_count v in
              if FAILED hr then (hr, v) else add_parameters add m indices v
          end
      end
  end.

(** [CreateScenarioFromCmdLine] after the rule was parsed: the result, and the name,
    which stays empty after an error. *)
Definition scenario_from_parser (parser : CommandLineParser) (v : CommandLineValidator) : HRESULT * CString * CommandLineValidator :=
  let '(number, name) := unique_name (length (scenarios_ v)) (scenario_sequence_number_ v) (scenarios_ v) in
  let v := mkCommandLineValidator (scenarios_ v) number in
  let '(_, v) := Validator_CreateScenario name v in
  let '(hr, v) := add_parameters (AddScenarioParameter name) (required_args_ parser) (seq 0 (length (required_args_ parser))) v in
  if FAILED hr then (hr, [], v)
  else
    let '(hr, v) := add_parameters (AddOptionalScenarioParameter name) (optional_args_ parser) (seq 0 (length (optional_args_ parser))) v in
    if FAILED hr then (hr, [], v) else (S_OK, name, v).
Definition CreateScenarioFromCmdLine (command_line : CString) (v : CommandLineValidator) : HRESULT * CString * CommandLineValidator :=
  let '(hr, parser) := ParseFromString command_line CommandLineParser_init in
  if FAILED hr then (hr, [], v) else scenario_from_parser parser v.

(** The command line has each required switch with its number of arguments. *)
Fixpoint required_match (p : CommandLineParser) (l : list ScenarioParameter) : bool :=
  match l with
  | [] => true
  | x :: l =>
      if negb (Args_HasSwitch (switch_name_ x) (required_args_ p)) then false
      else
        match Args_GetSwitchArgumentCount (switch_name_ x) (required_args_ p) with
        | None => false
        | Some arg_count => if negb (arg_count =? num_required_parameters_ x)%nat then false else required_match p l
        end
  end.
(** The loop over the optional switches; [None] is an early [return false]. *)
Fixpoint optional_match (p : CommandLineParser) (parser_optional_switch_count : nat) (l : list ScenarioParameter) : option nat :=
  match l with
  | [] => Some parser_optional_switch_count
  | x :: l =>
      if (parser_optional_switch_count =? 0)%nat then Some parser_optional_switch_count
      else if negb (Args_HasSwitch (switch_name_ x) (required_args_ p)) then optional_match p parser_optional_switch_count l
      else
        match Args_GetSwitchArgumentCount (switch_name_ x) (required_args_ p) with
        | None => None
        | Some arg_count =>
            if negb (arg_count =? num_required_parameters_ x)%nat then None else optional_match p (parser_optional_switch_count - 1) l
        end
  end.
Definition DoesScenarioMatch (p : CommandLineParser) (sp : ScenarioParameters) : bool :=
  if negb (required_match p (sp_required sp)) then false
  else
    match optional_match p (length (required_args_ p) - length (sp_required sp)) (sp_optional sp) with
    | None => false
    | Some parser_optional_switch_count => (parser_optional_switch_count =? 0)%nat
    end.

(** An error, or the name of the first scenario that matches. *)
Fixpoint validate_loop (p : CommandLineParser) (l : smap ScenarioParameters) : HRESULT + CString :=
  match l with
  | [] => inl GOOGLEUPDATE_COMMANDLINE_E_NO_SCENARIO_HANDLER_MATCHED
  | (name, sp) :: l =>
      let parser_switch_count := length (required_args_ p) in
      if (parser_switch_count <? length (sp_required sp))%nat || (length (sp_required sp) + length (sp_optional sp) <? parser_switch_count)%nat then validate_loop p l
      else if DoesScenarioMatch p sp then inr name
      else validate_loop p l
  end.
Definition Validator_Validate (p : CommandLineParser) (v : CommandLineValidator) : HRESULT + CString := validate_loop p (scenarios_ v).

Definition SetOfflineDirName (offline_dir : CString) (b : CommandLineBuilder) : HRESULT * CommandLineBuilder :=
  let offline_dir_name := PathStripPath offline_dir in
  match StringToGuidSafe offline_dir_name with
  | None => (E_INVALIDARG, b)
  | Some _ => (S_OK, cb_set_offline_dir_name offline_dir_name b)
  end.

Definition GetSingleSwitch (switch_name : CString) : CString := _T "/" ++ switch_name.
(** [" /%s"], [" /%s %s"] and [" /%s \"%s\""]. *)
Definition append_switch (switch_name : CString) : CString := _T " /" ++ switch_name.
Definition append_value (switch_name value : CString) : CString := _T " /" ++ switch_name ++ _T " " ++ value.
Definition append_quoted (switch_name value : CString) : CString := _T " /" ++ switch_name ++ _T " " ++ 34 :: value ++ [34].

Definition GetReportCrash (b : CommandLineBuilder) : CString :=
  if IsEmpty (cb_crash_filename_ b) then []
  else
    GetSingleSwitch kCmdLineReport
    ++ (if cb_is_interactive_set_ b then append_switch kCmdLineInteractive else [])
    ++ _T " " ++ EnclosePath (cb_crash_filename_ b)
    ++ (if cb_is_machine_set_ b then append_switch kCmdLineMachine else [])
    ++ (if negb (IsEmpty (cb_custom_info_filename_ b)) then append_value kCmdLineCustomInfoFileName (EnclosePath (cb_custom_info_filename_ b)) else []).

Definition GetExtraAndAppArgs (extra_switch_name : CString) (b : CommandLineBuilder) : CString :=
  if IsEmpty (cb_extra_args_ b) then []
  else
    _T "/" ++ extra_switch_name ++ _T " " ++ EnclosePath (cb_extra_args_ b)
    ++ (if negb (IsEmpty (cb_app_args_ b)) then append_value kCmdLineAppArgs (EnclosePath (cb_app_args_ b)) else []).

Definition GetInstall (b : CommandLineBuilder) : CString :=
  let cmd_line := GetExtraAndAppArgs kCmdLineInstall b in
  if IsEmpty cmd_line then []
  else
    cmd_line
    ++ (if negb (IsEmpty (cb_install_source_ b)) then append_value kCmdLineInstallSource (cb_install_source_ b) else [])
    ++ (if negb (IsEmpty (cb_session_id_ b)) then append_quoted kCmdLineSessionId (cb_session_id_ b) else [])
    ++ (if cb_is_silent_set_ b then append_switch kCmdLineSilent else [])
    ++ (if cb_is_always_launch_cmd_set_ b then append_switch kCmdLineAlwaysLaunchCmd else [])
    ++ (if cb_is_enterprise_set_ b then append_switch kCmdLineEnterprise else []).

Definition GetUpdate (b : CommandLineBuilder) : CString :=
  GetSingleSwitch kCmdLineUpdate ++ (if negb (IsEmpty (cb_session_id_ b)) then append_quoted kCmdLineSessionId (cb_session_id_ b) else []).

Definition GetHandoffInstall (b : CommandLineBuilder) : CString :=
  let cmd_line := GetExtraAndAppArgs kCmdLineAppHandoffInstall b in
  if IsEmpty cmd_line then []
  else
    cmd_line
    ++ (if negb (IsEmpty (cb_install_source_ b)) then append_value kCmdLineInstallSource (cb_install_source_ b) else [])
    ++ (if negb (IsEmpty (cb_session_id_ b)) then append_quoted kCmdLineSessionId (cb_session_id_ b) else [])
    ++ (if cb_is_silent_set_ b then append_switch kCmdLineSilent else [])
    ++ (if cb_is_always_launch_cmd_set_ b then append_switch kCmdLineAlwaysLaunchCmd else [])
    ++ (if cb_is_eula_required_set_ b then append_switch kCmdLineEulaRequired else [])
    ++ (if cb_is_enterprise_set_ b then append_switch kCmdLineEnterprise else [])
    ++ (if negb (IsEmpty (cb_offline_dir_name_ b)) then append_quoted kCmdLineOfflineDir (cb_offline_dir_name_ b) else []).

Definition GetUA (b : CommandLineBuilder) : CString :=
  if IsEmpty (cb_install_source_ b) then []
  else
    GetSingleSwitch kCmdLineUpdateApps
    ++ (if cb_is_machine_set_ b then append_switch kCmdLineMachine else [])
    ++ append_value kCmdLineInstallSource (cb_install_source_ b).

Definition GetRecover (b : CommandLineBuilder) : CString :=
  if IsEmpty (cb_code_red_metainstaller_path_ b) then []
  else _T "/" ++ kCmdLineRecover ++ _T " " ++ cb_code_red_metainstaller_path_ b.

Definition Builder_GetPing (b : CommandLineBuilder) : CString := _T "/" ++ kCmdLinePing ++ _T " " ++ cb_ping_string_ b.

Definition GetCommandLineArgs (b : CommandLineBuilder) : CString :=
  match cb_mode_ b with
  | COMMANDLINE_MODE_NOARGS => []
  | COMMANDLINE_MODE_CORE => GetSingleSwitch kCmdLineCore
  | COMMANDLINE_MODE_SERVICE => GetSingleSwitch kCmdLineService
  | COMMANDLINE_MODE_REGSERVER => GetSingleSwitch kCmdRegServer
  | COMMANDLINE_MODE_UNREGSERVER => GetSingleSwitch kCmdUnregServer
  | COMMANDLINE_MODE_CRASH => GetSingleSwitch kCmdLineCrash
  | COMMANDLINE_MODE_REPORTCRASH => GetReportCrash b
  | COMMANDLINE_MODE_INSTALL => GetInstall b
  | COMMANDLINE_MODE_UPDATE => GetUpdate b
  | COMMANDLINE_MODE_HANDOFF_INSTALL => GetHandoffInstall b
  | COMMANDLINE_MODE_UA => GetUA b
  | COMMANDLINE_MODE_RECOVER => GetRecover b
  | COMMANDLINE_MODE_CODE_RED_CHECK => GetSingleSwitch kCmdLineCodeRedCheck
  | COMMANDLINE_MODE_COMSERVER => kCmdLineComServerDash
  | COMMANDLINE_MODE_REGISTER_PRODUCT => GetExtraAndAppArgs kCmdLineRegisterProduct b
  | COMMANDLINE_MODE_UNREGISTER_PRODUCT => GetExtraAndAppArgs kCmdLineUnregisterProduct b
  | COMMANDLINE_MODE_SERVICE_REGISTER => GetSingleSwitch kCmdLineRegisterService
  | COMMANDLINE_MODE_SERVICE_UNREGISTER => GetSingleSwitch kCmdLineUnregisterService
  | COMMANDLINE_MODE_CRASH_HANDLER => GetSingleSwitch kCmdLineCrashHandler
  | COMMANDLINE_MODE_COMBROKER => kCmdLineComBroker
  | COMMANDLINE_MODE_ONDEMAND => kCmdLineOnDemand
  | COMMANDLINE_MODE_MEDIUM_SERVICE => GetSingleSwitch kCmdLineMediumService
  | COMMANDLINE_MODE_UNINSTALL => GetSingleSwitch kCmdLineUninstall
  | COMMANDLINE_MODE_PING => Builder_GetPing b
  | COMMANDLINE_MODE_HEALTH_CHECK => GetSingleSwitch kCmdLineHealthCheck
  | COMMANDLINE_MODE_UNKNOWN => []
  end.

Definition GetCommandLine (program_name : CString) (b : CommandLineBuilder) : CString :=
  EnclosePath program_name ++ _T " " ++ GetCommandLineArgs b.

(** ** The command lines of goopdate ([GoopdateCommandLineValidator]) *)

(** A handler gets the parser and the arguments so far. *)
Definition ScenarioHandler : Type := CommandLineParser -> CommandLineArgs -> HRESULT * CommandLineArgs.

Definition HasSwitch (switch_name : CString) (p : CommandLineParser) : bool := Args_HasSwitch switch_name (required_args_ p).
(** [parser_->GetSwitchArgumentValue(name, 0, &field)]. *)
Definition fetch (switch_name : CString) (set : CString -> CommandLineArgs -> CommandLineArgs) : ScenarioHandler := fun p a =>
  match Args_GetSwitchArgumentValue switch_name 0 (required_args_ p) with
  | inl hr => (hr, a)
  | inr value => (S_OK, set value a)
  end.

Definition Validator_GetExtraAndAppArgs (name : CString) : ScenarioHandler := fun p a =>
  let '(hr, a) := fetch name cl_with_extra_args_str p a in
  if FAILED hr then (hr, a)
  else
    let '(hr, a) := fetch kCmdLineAppArgs cl_with_app_args_str p a in
    let a := if FAILED hr then cl_with_app_args_str [] a else a in
    let '(hr, extra) := ExtraArgs_Parse (cl_extra_args_str a) (cl_app_args_str a) (cl_extra a) in
    (hr, cl_with_extra extra a).

Definition set_mode (mode : CommandLineMode) : ScenarioHandler := fun _ a => (S_OK, cl_with_mode mode a).
Definition OnNoArgs := set_mode COMMANDLINE_MODE_NOARGS.
Definition OnCore : ScenarioHandler := fun p a =>
  (S_OK, cl_with_is_crash_handler_disabled (HasSwitch kCmdLineNoCrashHandler p) (cl_with_mode COMMANDLINE_MODE_CORE a)).
Definition OnCrashHandler := set_mode COMMANDLINE_MODE_CRASH_HANDLER.
Definition OnService := set_mode COMMANDLINE_MODE_SERVICE.
Definition OnMediumService := set_mode COMMANDLINE_MODE_MEDIUM_SERVICE.
Definition OnServiceRegister := set_mode COMMANDLINE_MODE_SERVICE_REGISTER.
Definition OnServiceUnregister := set_mode COMMANDLINE_MODE_SERVICE_UNREGISTER.
Definition OnRegServer := set_mode COMMANDLINE_MODE_REGSERVER.
Definition OnUnregServer := set_mode COMMANDLINE_MODE_UNREGSERVER.
Definition OnCrash := set_mode COMMANDLINE_MODE_CRASH.
Definition OnComServer := set_mode COMMANDLINE_MODE_COMSERVER.
Definition OnComBroker := set_mode COMMANDLINE_MODE_COMBROKER.
Definition OnDemand := set_mode COMMANDLINE_MODE_ONDEMAND.

Definition OnInstall : ScenarioHandler := fun p a =>
  let a := cl_with_mode COMMANDLINE_MODE_INSTALL a in
  let '(_, a) := fetch kCmdLineInstallSource cl_with_install_source p a in
  let '(_, a) := fetch kCmdLineSessionId cl_with_session_id p a in
  let a := cl_with_is_silent_set (HasSwitch kCmdLineSilent p) a in
  let a := cl_with_is_always_launch_cmd_set (HasSwitch kCmdLineAlwaysLaunchCmd p) a in
  let a := cl_with_is_enterprise_set (HasSwitch kCmdLineEnterprise p) a in
  let a := cl_with_is_eula_required_set (HasSwitch kCmdLineEulaRequired p) a in
  let a := cl_with_is_oem_set (HasSwitch kCmdLineOem p) a in
  let a := cl_with_is_install_elevated (HasSwitch kCmdLineInstallElevated p) a in
  Validator_GetExtraAndAppArgs kCmdLineInstall p a.

Definition OnUpdate : ScenarioHandler := fun p a =>
  let '(_, a) := fetch kCmdLineSessionId cl_with_session_id p (cl_with_mode COMMANDLINE_MODE_UPDATE a) in (S_OK, a).

Definition OnInstallHandoffWorker : ScenarioHandler := fun p a =>
  let a := cl_with_mode COMMANDLINE_MODE_HANDOFF_INSTALL a in
  let '(_, a) := fetch kCmdLineInstallSource cl_with_install_source p a in
  let '(_, a) := fetch kCmdLineSessionId cl_with_session_id p a in
  let a := cl_with_is_silent_set (HasSwitch kCmdLineSilent p) a in
  let a := cl_with_is_always_launch_cmd_set (HasSwitch kCmdLineAlwaysLaunchCmd p) a in
  let a := cl_with_is_enterprise_set (HasSwitch kCmdLineEnterprise p) a in
  let a := cl_with_is_eula_required_set (HasSwitch kCmdLineEulaRequired p) a in
  let a := cl_with_is_offline_set (HasSwitch kCmdLineLegacyOfflineInstall p || HasSwitch kCmdLineOfflineDir p) a in
  let offline_dir := match Args_GetSwitchArgumentValue kCmdLineOfflineDir 0 (required_args_ p) with inr v => v | inl _ => [] end in
  let '(hr, a) :=
    if negb (IsEmpty offline_dir) then
      let '(hr, builder) := SetOfflineDirName offline_dir (CommandLineBuilder_init COMMANDLINE_MODE_HANDOFF_INSTALL) in
      if FAILED hr then (hr, a) else (S_OK, cl_with_offline_dir_name (cb_offline_dir_name_ builder) a)
    else (S_OK, a) in
  if FAILED hr then (hr, a) else Validator_GetExtraAndAppArgs kCmdLineAppHandoffInstall p a.

Definition OnUpdateApps : ScenarioHandler := fun p a =>
  let a := cl_with_is_machine_set (HasSwitch kCmdLineMachine p) (cl_with_mode COMMANDLINE_MODE_UA a) in
  let '(_, a) := fetch kCmdLineInstallSource cl_with_install_source p a in (S_OK, a).

Definition OnReportCrash : ScenarioHandler := fun p a =>
  let a := cl_with_is_machine_set (HasSwitch kCmdLineMachine p) (cl_with_mode COMMANDLINE_MODE_REPORTCRASH a) in
  let '(_, a) := fetch kCmdLineCustomInfoFileName cl_with_custom_info_filename p a in
  fetch kCmdLineReport cl_with_crash_filename p a.
Definition OnReportCrashInteractive : ScenarioHandler := fun p a =>
  let a := cl_with_is_interactive_set true (cl_with_mode COMMANDLINE_MODE_REPORTCRASH a) in
  let a := cl_with_is_machine_set (HasSwitch kCmdLineMachine p) a in
  fetch kCmdLineInteractive cl_with_crash_filename p a.

Definition OnCodeRed := set_mode COMMANDLINE_MODE_CODE_RED_CHECK.
Definition OnRecover : ScenarioHandler := fun p a =>
  fetch kCmdLineRecover cl_with_code_red_metainstaller_path p (cl_with_mode COMMANDLINE_MODE_RECOVER a).
Definition OnRecoverMachine : ScenarioHandler := fun p a =>
  fetch kCmdLineMachine cl_with_code_red_metainstaller_path p (cl_with_is_machine_set true (cl_with_mode COMMANDLINE_MODE_RECOVER a)).
Definition OnUninstall := set_mode COMMANDLINE_MODE_UNINSTALL.
Definition OnRegisterProduct : ScenarioHandler := fun p a =>
  let '(_, a) := fetch kCmdLineInstallSource cl_with_install_source p (cl_with_mode COMMANDLINE_MODE_REGISTER_PRODUCT a) in
  Validator_GetExtraAndAppArgs kCmdLineRegisterProduct p a.
Definition OnUnregisterProduct : ScenarioHandler := fun p a =>
  Validator_GetExtraAndAppArgs kCmdLineUnregisterProduct p (cl_with_mode COMMANDLINE_MODE_UNREGISTER_PRODUCT a).
Definition OnPing : ScenarioHandler := fun p a =>
  fetch kCmdLinePing cl_with_ping_string p (cl_with_mode COMMANDLINE_MODE_PING a).
Definition OnHealthCheck := set_mode COMMANDLINE_MODE_HEALTH_CHECK.

(** The rules of [Setup] in order. *)
Definition rules : list (CString * ScenarioHandler) :=
  [([], OnNoArgs);
   (_T "/" ++ kCmdLineCore ++ _T " [/" ++ kCmdLineNoCrashHandler, OnCore);
   (_T "/" ++ kCmdLineCrashHandler, OnCrashHandler);
   (_T "/" ++ kCmdLineService, OnService);
   (_T "/" ++ kCmdLineMediumService, OnMediumService);
   (_T "/" ++ kCmdLineRegisterService, OnServiceRegister);
   (_T "/" ++ kCmdLineUnregisterService, OnServiceUnregister);
   (_T "/" ++ kCmdRegServer, OnRegServer);
   (_T "/" ++ kCmdUnregServer, OnUnregServer);
   (_T "/" ++ kCmdLineCrash, OnCrash);
   (kCmdLineComServerDash, OnComServer);
   (kCmdLineComBroker, OnComBroker);
   (kCmdLineOnDemand, OnDemand);
   (_T "/" ++ kCmdLineInstall ++ _T " extra [/" ++ kCmdLineAppArgs ++ _T " appargs [/" ++ kCmdLineInstallSource ++ _T " src [/" ++ kCmdLineSilent ++ _T " [/"
      ++ kCmdLineAlwaysLaunchCmd ++ _T " [/" ++ kCmdLineEulaRequired ++ _T " [/" ++ kCmdLineOem ++ _T " [/" ++ kCmdLineInstallElevated ++ _T " [/"
      ++ kCmdLineSessionId ++ _T " sid [/" ++ kCmdLineEnterprise, OnInstall);
   (_T "/" ++ kCmdLineUpdate ++ _T " [/" ++ kCmdLineSessionId ++ _T " sid", OnUpdate);
   (_T "/" ++ kCmdLineAppHandoffInstall ++ _T " extra [/" ++ kCmdLineAppArgs ++ _T " appargs [/" ++ kCmdLineInstallSource ++ _T " src [/" ++ kCmdLineSilent ++ _T " [/"
      ++ kCmdLineAlwaysLaunchCmd ++ _T " [/" ++ kCmdLineEulaRequired ++ _T " [/" ++ kCmdLineLegacyOfflineInstall ++ _T " [/" ++ kCmdLineOfflineDir ++ _T " dir [/"
      ++ kCmdLineSessionId ++ _T " sid [/" ++ kCmdLineEnterprise, OnInstallHandoffWorker);
   (_T "/" ++ kCmdLineUpdateApps ++ _T " [/" ++ kCmdLineInstallSource ++ _T " source [/" ++ kCmdLineMachine, OnUpdateApps);
   (_T "/" ++ kCmdLineReport ++ _T " filename [/" ++ kCmdLineMachine ++ _T " [/" ++ kCmdLineCustomInfoFileName ++ _T " customfilename", OnReportCrash);
   (_T "/" ++ kCmdLineReport ++ _T " /" ++ kCmdLineInteractive ++ _T " filename [/" ++ kCmdLineMachine, OnReportCrashInteractive);
   (_T "/" ++ kCmdLineCodeRedCheck, OnCodeRed);
   (_T "/" ++ kCmdLineRecover ++ _T " repairfile", OnRecover);
   (_T "/" ++ kCmdLineRecover ++ _T " /" ++ kCmdLineMachine ++ _T " repairfile", OnRecoverMachine);
   (_T "/" ++ kCmdLineUninstall, OnUninstall);
   (_T "/" ++ kCmdLineRegisterProduct ++ _T " extraargs [/" ++ kCmdLineInstallSource ++ _T " source", OnRegisterProduct);
   (_T "/" ++ kCmdLineUnregisterProduct ++ _T " extraargs", OnUnregisterProduct);
   (_T "/" ++ kCmdLinePing ++ _T " pingstring", OnPing);
   (_T "/" ++ kCmdLineHealthCheck, OnHealthCheck)].

Record GoopdateCommandLineValidator := mkGoopdateCommandLineValidator {
  validator_ : CommandLineValidator;
  scenario_handlers_ : smap ScenarioHandler
}.

Definition Goopdate_CreateScenario (g : GoopdateCommandLineValidator) (rule : CString * ScenarioHandler) : GoopdateCommandLineValidator :=
  let '(cmd_line, handler) := rule in
  let '(_, scenario_name, v) := CreateScenarioFromCmdLine (_T "prog.exe " ++ cmd_line) (validator_ g) in
  mkGoopdateCommandLineValidator v (map_put scenario_name handler (scenario_handlers_ g)).
Definition Setup : GoopdateCommandLineValidator :=
  fold_left Goopdate_CreateScenario rules (mkGoopdateCommandLineValidator CommandLineValidator_init []).

Definition Goopdate_Validate (g : GoopdateCommandLineValidator) : ScenarioHandler := fun p a =>
  match Validator_Validate p (validator_ g) with
  | inl hr => (hr, a)
  | inr scenario_name =>
      match map_find scenario_name (scenario_handlers_ g) with
      | None => (GOOGLEUPDATE_COMMANDLINE_E_NO_SCENARIO_HANDLER, a)
      | Some handler => handler p a
      end
  end.

(** ** [ParseCommandLine] and [GetCmdLineTail] (command_line.cc) *)

Definition ParseCommandLine (cmd_line : CString) (args : CommandLineArgs) : HRESULT * CommandLineArgs :=
  let '(hr, parser) := ParseFromString cmd_line CommandLineParser_init in
  if FAILED hr then (hr, args) else Goopdate_Validate Setup parser args.

(** The program name, and then blanks. *)
Fixpoint skip_program (in_quote : bool) (cmd_line : CString) : CString :=
  match cmd_line with
  | [] => []
  | c :: rest => if (32 <? c) || in_quote then skip_program (if c =? 34 then negb in_quote else in_quote) rest else cmd_line
  end.
Definition GetCmdLineTail (cmd_line : CString) : CString := drop_while (fun c => c <=? 32) (skip_program false (c_str cmd_line)).
End Commands.
