(* ===== verification/LabelsFacts.v ===== *)
(** Experiment labels: the store stays well-formed, a list of labels is applied
    label by label, and what is written is read back. *)

From Stdlib Require Import Sorting.Sorted.
From S2P Require Import Prelude Hresult CStrings Words Maps Text Registry AppRegistry Time Gregorian Labels.

(** The parts between semicolons. *)
#[local] Abbreviation pieces := (Words.pieces 59).
#[local] Abbreviation no_semicolon := (plain_word 59).

Section Facts.
Context `{RegEnv, Calendar}.

(** The labels of a list, [None] when one of them is malformed. *)
Definition labels_of (label_list : CString) : option (list Label) := mapM SplitCombinedLabel (pieces label_list).

Lemma deserialize_from_spec fuel m label_list accept_expired pos :
  0 <= pos -> (length (pieces (drop (Z.to_nat pos) label_list)) < fuel)%nat ->
  deserialize_from fuel m label_list accept_expired pos =
    (fun ls => fold_left (apply_label accept_expired) ls m) <$>
      mapM SplitCombinedLabel (pieces (drop (Z.to_nat pos) label_list)).
Proof.
  revert m pos. induction fuel as [|fuel IH]; intros m pos Hpos Hf; [lia|]. cbn [deserialize_from].
  pose proof (Tokenize_pieces 59 label_list pos Hpos) as Ht. change (_T ";") with [59].
  destruct (pieces (drop (Z.to_nat pos) label_list)) as [|w ws] eqn:Hp.
  - rewrite Ht. done.
  - destruct Ht as (Hne & pos' & -> & Hpos' & Hws). replace (IsEmpty w) with false by (by destruct w).
    cbn [mapM]. destruct (SplitCombinedLabel w) as [l|]; [|done]. cbn [length] in Hf.
    rewrite IH, Hws; [|done|rewrite Hws; lia]. cbn [mbind option_bind].
    by destruct (mapM SplitCombinedLabel ws).
Qed.

(** The loop reads the whole list, whatever its length: a label after the
    other, or nothing when one of them is malformed. *)
Lemma DoDeserialize_spec m label_list accept_expired :
  DoDeserialize m label_list accept_expired =
    (fun ls => fold_left (apply_label accept_expired) ls m) <$> labels_of label_list.
Proof.
  unfold DoDeserialize, labels_of. destruct label_list as [|c s]; [done|]. cbn [IsEmpty].
  rewrite deserialize_from_spec; [done|done|]. pose proof (pieces_length 59 (c :: s)).
  change (drop (Z.to_nat 0) (c :: s)) with (c :: s). lia.
Qed.

(** ** The store stays well-formed *)

Definition label_ok (l : Label) : Prop :=
  IsLabelContentValid (label_key l) = true /\ IsLabelContentValid (label_value l) = true.

Record labels_ok (s : LabelStore) : Prop := {
  keys_ascend : StronglySorted key_lt (labels_ s);
  contents_valid : Forall label_ok (labels_ s)
}.

Lemma SplitCombinedLabel_ok combined l : SplitCombinedLabel combined = Some l -> label_ok l.
Proof.
  unfold SplitCombinedLabel. cbv zeta.
  destruct (_ || _); [done|]. destruct (IsLabelContentValid (Left _ _)) eqn:Hk; [|done]. cbn [negb].
  destruct (_ || _); [done|]. destruct (IsLabelContentValid (Mid _ _ (_ - _))) eqn:Hv in |- *; [|done]. cbn [negb].
  destruct (negb _); [done|]. destruct (RFC822DateToSystemTime _ _); [|done]. by intros [= <-].
Qed.

Lemma labels_of_ok label_list ls : labels_of label_list = Some ls -> Forall label_ok ls.
Proof.
  unfold labels_of. intros Hls%mapM_Some. induction Hls as [|w l ws ls Hl _ IH]; [done|].
  constructor; [by eapply SplitCombinedLabel_ok|done].
Qed.

Lemma apply_label_ok accept_expired m l p :
  labels_ok (mkLabelStore m p) -> label_ok l -> labels_ok (mkLabelStore (apply_label accept_expired m l) p).
Proof.
  intros [Hs Hv] Hl. unfold apply_label. cbn in *. destruct (_ || _).
  - split; [by apply map_put_sorted|]. apply Forall_forall. intros l' [->|Hl']%map_put_elem; [by destruct l|].
    by eapply Forall_forall in Hv.
  - split; [by apply map_erase_sorted|]. apply Forall_forall. intros l' Hl'%map_erase_elem. by eapply Forall_forall in Hv.
Qed.

Lemma apply_labels_ok accept_expired ls : forall m p,
  labels_ok (mkLabelStore m p) -> Forall label_ok ls -> labels_ok (mkLabelStore (fold_left (apply_label accept_expired) ls m) p).
Proof.
  induction ls as [|l ls IH]; intros m p Hm Hls; [done|]. apply Forall_cons in Hls as [Hl Hls].
  cbn [fold_left]. apply IH; [|done]. by apply apply_label_ok.
Qed.

Lemma expire_from_sublist m : expire_from m `sublist_of` m.
Proof.
  induction m as [m IH] using (well_founded_induction (well_founded_ltof _ (@length Label))). unfold ltof in IH.
  destruct m as [|l [|next m]]; cbn [expire_from]; [done|by case_match; repeat constructor|].
  fold (expire_from (next :: m)).
  destruct (_ <? _); [apply sublist_cons, sublist_skip, (IH m)|apply sublist_skip, (IH (next :: m))]; cbn; lia.
Qed.

Lemma sublist_sorted (m m' : LabelMap) : m' `sublist_of` m -> StronglySorted key_lt m -> StronglySorted key_lt m'.
Proof.
  induction 1 as [|l m' m Hsub IH|l m' m Hsub IH]; [done| |]; intros [Hm Hall]%StronglySorted_inv; [|by apply IH].
  constructor; [by apply IH|]. apply Forall_forall. intros l' Hl'. eapply Forall_forall in Hall; [done|].
  by eapply elem_of_submseteq, sublist_submseteq.
Qed.

(** The public operations of a store. *)
Inductive LabelCall :=
| CallSetLabel (key value : CString) (expiration : Z)
| CallClearLabel (key : CString)
| CallExpireLabels
| CallClearAllLabels
| CallSetPreserveExpiredLabels (preserve : bool)
| CallDeserialize (label_list : CString)
| CallDeserializeAndApplyDelta (label_list : CString).

Definition label_call (c : LabelCall) (s : LabelStore) : LabelStore :=
  match c with
  | CallSetLabel key value expiration => exec (SetLabel key value expiration) s
  | CallClearLabel key => exec (ClearLabel key) s
  | CallExpireLabels => exec ExpireLabels s
  | CallClearAllLabels => exec ClearAllLabels s
  | CallSetPreserveExpiredLabels preserve => exec (SetPreserveExpiredLabels preserve) s
  | CallDeserialize label_list => exec (Deserialize label_list) s
  | CallDeserializeAndApplyDelta label_list => exec (DeserializeAndApplyDelta label_list) s
  end.

Lemma label_call_ok c s : labels_ok s -> labels_ok (label_call c s).
Proof.
  intros Hs. destruct s as [m p]. pose proof Hs as [Hm Hv]. cbn in Hm, Hv. destruct c; cbn [label_call].
  - unfold SetLabel. unfold exec, mbind, St_bind, mret, St_ret, get, modify. cbn [fst snd preserve_expired_].
    destruct (IsLabelContentValid key) eqn:Hk, (IsLabelContentValid value) eqn:Hval; cbn [negb orb]; try done.
    destruct (_ && _); [done|]. cbn. split; [by apply map_put_sorted|].
    apply Forall_forall. intros l' [->|Hl']%map_put_elem; [done|]. by eapply Forall_forall in Hv.
  - unfold ClearLabel. unfold exec, mbind, St_bind, mret, St_ret, get, modify. cbn [fst snd].
    destruct (ContainsKey _ _); [|done]. cbn. split; [by apply map_erase_sorted|].
    apply Forall_forall. intros l' Hl'%map_erase_elem. by eapply Forall_forall in Hv.
  - pose proof (expire_from_sublist m) as Hsub. split; cbn; [by eapply sublist_sorted|].
    apply Forall_forall. intros l' Hl'. eapply Forall_forall in Hv; [done|].
    by eapply elem_of_submseteq, sublist_submseteq.
  - split; cbn; constructor.
  - done.
  - unfold Deserialize. unfold exec, mbind, St_bind, get. cbn [fst snd preserve_expired_]. rewrite DoDeserialize_spec.
    destruct (labels_of label_list) as [ls|] eqn:Hls; [|done]. cbn. apply apply_labels_ok; [split; constructor|].
    by eapply labels_of_ok.
  - unfold DeserializeAndApplyDelta. unfold exec, mbind, St_bind, get. cbn [fst snd labels_]. rewrite DoDeserialize_spec.
    destruct (labels_of label_list) as [ls|] eqn:Hls; [|done]. cbn. apply apply_labels_ok; [done|].
    by eapply labels_of_ok.
Qed.

(** Whatever is done to a new store of labels, its keys stay in strictly
    ascending order, so that there is one label for a key, and its keys and
    values stay within the characters a list of labels is read with. *)
Theorem labels_invariant calls : labels_ok (fold_left (fun s c => label_call c s) calls LabelStore_init).
Proof.
  assert (labels_ok LabelStore_init) as Hinit by (split; constructor). revert Hinit. generalize LabelStore_init.
  induction calls as [|c calls IH]; intros s Hs; [done|]. cbn [fold_left]. apply IH. by apply label_call_ok.
Qed.

(** ** Deltas *)

(** The last label of a list for a key. *)
Definition last_label (key : CString) (ls : list Label) : option Label :=
  last (List.filter (fun l => bool_decide (label_key l = key)) ls).

Lemma apply_labels_find accept_expired key ls m :
  map_find key (fold_left (apply_label accept_expired) ls m) =
    match last_label key ls with
    | Some l => if accept_expired || (GetCurrent100NSTime <? label_expiration l) then Some l.2 else None
    | None => map_find key m
    end.
Proof.
  induction ls as [|l ls IH] using rev_ind; [done|]. rewrite fold_left_app. cbn [fold_left].
  unfold last_label in *. rewrite List.filter_app. cbn [List.filter].
  unfold apply_label at 1. case_bool_decide as Hk.
  - rewrite last_snoc. destruct (_ || _); rewrite ?map_find_put, ?map_find_erase, decide_True by done; done.
  - rewrite app_nil_r. destruct (_ || _); rewrite ?map_find_put, ?map_find_erase, decide_False by done; done.
Qed.

(** C34. [DeserializeAndApplyDelta] as its interface describes it: when every
    label of the list is well-formed, a key that occurs in the list gets its last
    label there, or none when that one is expired, and the other keys keep
    theirs; when one is malformed, the store is unchanged. *)
Theorem DeserializeAndApplyDelta_spec label_list s :
  let s' := exec (DeserializeAndApplyDelta label_list) s in
  eval (DeserializeAndApplyDelta label_list) s = bool_decide (is_Some (labels_of label_list)) /\
  match labels_of label_list with
  | None => s' = s
  | Some ls => forall key, FindLabelByKey key s' =
      match last_label key ls with
      | Some l => if GetCurrent100NSTime <? label_expiration l then Some (label_value l, label_expiration l) else None
      | None => FindLabelByKey key s
      end
  end.
Proof.
  cbv zeta. unfold DeserializeAndApplyDelta, FindLabelByKey. unfold exec, eval, mbind, St_bind, get. cbn [fst snd].
  rewrite DoDeserialize_spec. destruct (labels_of label_list) as [ls|]; cbn; [|done].
  split; [done|]. intros key. rewrite apply_labels_find. cbn [orb].
  destruct (last_label key ls) as [[k [v e]]|]; done.
Qed.

End Facts.

(** ** Writing and reading back *)

Lemma find_char c pre post i :
  forallb (fun x => negb (x =? c)) pre = true -> find_from [c] (pre ++ c :: post) i = i + Z.of_nat (length pre).
Proof.
  revert i. induction pre as [|x pre IH]; intros i; cbn [app forallb find_from is_prefix length].
  - intros _. rewrite Z.eqb_refl. cbn [andb]. lia.
  - intros [Hx Hpre]%andb_true_iff. rewrite Z.eqb_sym. apply negb_true_iff in Hx as ->. cbn [andb].
    rewrite (IH (i + 1) Hpre). lia.
Qed.

Lemma label_chars_no c s :
  is_label_char c = false -> forallb is_label_char s = true -> forallb (fun x => negb (x =? c)) s = true.
Proof.
  intros Hc. apply forallb_impl. intros x Hx. destruct (Z.eqb_spec x c) as [->|]; [congruence|done].
Qed.

Section RoundTrip.
Context `{RegEnv, Calendar}.

Lemma SplitCombinedLabel_text key value date st :
  IsLabelContentValid key = true -> IsLabelContentValid value = true -> IsLabelContentValid date = true ->
  RFC822DateToSystemTime date false = Some st ->
  SplitCombinedLabel (key ++ _T "=" ++ value ++ _T "|" ++ date) = Some (key, (value, SystemTimeToTime64 st)).
Proof.
  intros Hk Hv Hd Hst. unfold SplitCombinedLabel. pose proof Hk as [Hkne Hkc]%andb_true_iff. pose proof Hv as [Hvne Hvc]%andb_true_iff.
  assert (0 < length key)%nat as Hkl by (destruct key; [done|cbn; lia]).
  assert (0 < length value)%nat as Hvl by (destruct value; [done|cbn; lia]).
  set (s := key ++ _). assert (Find s (_T "=") 0 = Z.of_nat (length key)) as ->.
  { unfold Find. exact (find_char 61 key _ 0 (label_chars_no 61 key eq_refl Hkc)). }
  assert (GetLength s = Z.of_nat (length key) + 1 + Z.of_nat (length value) + 1 + Z.of_nat (length date)) as Hlen.
  { unfold GetLength, s. rewrite !length_app. change (length (_T "=")) with 1%nat. change (length (_T "|")) with 1%nat. lia. }
  cbv zeta. rewrite (proj2 (Z.leb_gt _ 0)) by lia.
  rewrite (proj2 (Z.eqb_neq _ (GetLength s))) by lia. cbn [orb].
  assert (Left s (Z.of_nat (length key)) = key) as -> by (unfold Left; rewrite Nat2Z.id; apply take_app_length).
  rewrite Hk. cbn [negb].
  assert (drop (Z.to_nat (Z.of_nat (length key) + 1)) s = value ++ _T "|" ++ date) as Hdrop.
  { replace (Z.to_nat _) with (length (key ++ _T "=")) by (rewrite length_app; change (length (_T "=")) with 1%nat; lia).
    unfold s. rewrite app_assoc. apply drop_app_length. }
  assert (Find s (_T "|") (Z.of_nat (length key) + 1) = Z.of_nat (length key) + 1 + Z.of_nat (length value)) as ->.
  { unfold Find. rewrite Hdrop. exact (find_char 124 value date _ (label_chars_no 124 value eq_refl Hvc)). }
  rewrite (proj2 (Z.leb_gt _ _)) by lia.
  rewrite (proj2 (Z.eqb_neq _ (GetLength s))) by lia. cbn [orb].
  assert (Mid s (Z.of_nat (length key) + 1) (Z.of_nat (length key) + 1 + Z.of_nat (length value) - (Z.of_nat (length key) + 1)) = value) as ->.
  { unfold Mid. rewrite Hdrop. replace (Z.to_nat _) with (length value) by lia. apply take_app_length. }
  rewrite Hv. cbn [negb].
  assert (Mid s (Z.of_nat (length key) + 1 + Z.of_nat (length value) + 1)
            (GetLength s - (Z.of_nat (length key) + 1 + Z.of_nat (length value) + 1)) = date) as ->.
  { unfold Mid. replace (Z.to_nat (Z.of_nat (length key) + 1 + Z.of_nat (length value) + 1))
      with (Z.to_nat (Z.of_nat (length key) + 1) + length (value ++ _T "|"))%nat
      by (rewrite length_app; change (length (_T "|")) with 1%nat; lia).
    rewrite <- drop_drop, Hdrop, app_assoc, drop_app_length. apply take_ge. lia. }
  by rewrite Hd, Hst.
Qed.

(** A date consists of characters of labels. *)
Lemma date_valid t st : FileTimeToSystemTime t = Some st -> IsLabelContentValid (ConvertTimeToGMTString t) = true.
Proof.
  intros Hst. pose proof (FileTimeToSystemTime_ok _ _ Hst) as (Hy & Hm & Hw & Hd & Hh & Hmi & Hs).
  unfold ConvertTimeToGMTString. rewrite Hst.
  assert (forall n, 0 <= n < 2 ^ 31 -> forallb is_label_char (decimal n) = true) as Hdec.
  { intros n Hn. destruct (decimal_read n Hn) as (Hall & _). eapply forallb_impl; [|exact Hall].
    unfold String_IsDigit, is_label_char. intros x Hx. lia. }
  assert (forall n, 0 <= n <= 99 -> forallb is_label_char (two_digits n) = true) as Htwo.
  { intros n Hn. unfold two_digits. rewrite forallb_app, Hdec by lia. by destruct (n <? 10). }
  assert (forall n, (n < 7)%nat -> forallb is_label_char (nth n days []) = true /\ nth n days [] <> []) as Hdays.
  { intros n Hn. do 7 (destruct n as [|n]; [done|]). lia. }
  assert (forall n, (n < 12)%nat -> forallb is_label_char (nth n months []) = true) as Hmonths.
  { intros n Hn. do 12 (destruct n as [|n]; [done|]). lia. }
  destruct (Hdays (Z.to_nat (wDayOfWeek st)) ltac:(lia)) as [Hday Hne].
  unfold IsLabelContentValid. apply andb_true_iff. split.
  - destruct (nth _ days []); done.
  - rewrite !forallb_app, Hday, !Htwo, Hmonths, Hdec by lia. done.
Qed.

(** The expirations that can be written as dates. *)
Definition printable (l : Label) : Prop :=
  0 <= label_expiration l < 2 ^ 63 /\
  match FileTimeToSystemTime (label_expiration l) with Some st => wYear st <= 30827 | None => False end.

Definition to_the_second (l : Label) : Label := (label_key l, (label_value l, whole_second (label_expiration l))).

Lemma SplitCombinedLabel_label_text l :
  label_ok l -> printable l -> SplitCombinedLabel (label_text INCLUDE_TIMESTAMPS l) = Some (to_the_second l).
Proof.
  intros [Hk Hv] [Ht Hy]. destruct (FileTimeToSystemTime (label_expiration l)) as [st|] eqn:Hst; [|done].
  pose proof (RFC822_ConvertTimeToGMTString _ _ Ht Hst Hy) as Hr. pose proof (GMT_roundtrip _ _ Ht Hst Hy) as Hg.
  rewrite Hr in Hg. injection Hg as Hg.
  unfold label_text. rewrite (SplitCombinedLabel_text _ _ _ _ Hk Hv (date_valid _ _ Hst) Hr), Hg. done.
Qed.

(** ** Lists of labels *)

Definition join (ws : list CString) : CString :=
  fold_left (fun s w => (if IsEmpty s then s else s ++ _T ";") ++ w) ws [].

Lemma pieces_join ws : Forall (fun w => w <> [] /\ no_semicolon w) ws -> pieces (join ws) = ws.
Proof.
  induction ws as [|w ws IH] using rev_ind; [done|]. rewrite Forall_app, Forall_singleton. intros [Hws [Hne Hw]].
  specialize (IH Hws). unfold join. rewrite fold_left_app. fold (join ws). cbn [fold_left].
  destruct (join ws) as [|c s] eqn:Hj; cbn [IsEmpty].
  - change (pieces []) with (@nil CString) in IH. subst ws. cbn [app]. by apply pieces_last.
  - rewrite <- Hj in *. clear Hj. change (_T ";") with [59]. rewrite <- app_assoc. cbn [app].
    unfold Words.pieces. rewrite split_at_app, List.filter_app. fold (pieces (join ws)). fold (pieces w).
    by rewrite IH, pieces_last.
Qed.

Lemma fold_left_filter {A B} (p : B -> bool) (g : A -> B -> A) l : forall a,
  fold_left (fun a b => if p b then g a b else a) l a = fold_left g (List.filter p l) a.
Proof. induction l as [|b l IH]; intros a; [done|]. cbn. destruct (p b); apply IH. Qed.

Lemma fold_left_map {A B C} (f : C -> B) (g : A -> B -> A) l : forall a,
  fold_left (fun a c => g a (f c)) l a = fold_left g (List.map f l) a.
Proof. induction l as [|c l IH]; intros a; [done|]. cbn. apply IH. Qed.

Definition live (s : LabelStore) (l : Label) : bool := preserve_expired_ s || (GetCurrent100NSTime <=? label_expiration l).

Lemma Serialize_join options s :
  Serialize options s = join (List.map (label_text options) (List.filter (live s) (labels_ s))).
Proof.
  unfold Serialize, join. rewrite <- fold_left_map.
  exact (fold_left_filter (live s) (fun a l => (if IsEmpty a then a else a ++ _T ";") ++ label_text options l) (labels_ s) []).
Qed.

Lemma label_text_word l : label_ok l -> printable l ->
  label_text INCLUDE_TIMESTAMPS l <> [] /\ no_semicolon (label_text INCLUDE_TIMESTAMPS l).
Proof.
  intros [Hk Hv] [_ Hp]. destruct (FileTimeToSystemTime (label_expiration l)) as [st|] eqn:Hst; [|done].
  pose proof (date_valid _ _ Hst) as Hd.
  assert (forall x, IsLabelContentValid x = true -> no_semicolon x) as Hno.
  { intros x [_ Hx]%andb_true_iff. eapply forallb_impl; [|exact (label_chars_no 59 x eq_refl Hx)].
    intros c Hc. by rewrite is_separator. }
  split; [by unfold label_text; destruct (label_key l)|].
  unfold label_text, no_semicolon in *. rewrite !forallb_app, (Hno _ Hk), (Hno _ Hv), (Hno _ Hd). done.
Qed.

Lemma labels_of_Serialize s :
  labels_ok s -> Forall printable (labels_ s) ->
  labels_of (Serialize INCLUDE_TIMESTAMPS s) = Some (to_the_second <$> List.filter (live s) (labels_ s)).
Proof.
  intros [_ Hok] Hp. rewrite Serialize_join. unfold labels_of.
  assert (Forall (fun l => label_ok l /\ printable l) (List.filter (live s) (labels_ s))) as Hall.
  { apply Forall_forall. intros l [Hl _]%list_elem_of_In%filter_In. apply list_elem_of_In in Hl.
    split; [by eapply Forall_forall in Hok|by eapply Forall_forall in Hp]. }
  rewrite pieces_join.
  - apply mapM_Some. revert Hall. generalize (List.filter (live s) (labels_ s)). induction 1 as [|l ls [Hl1 Hl2] _ IH]; [constructor|].
    constructor; [by apply SplitCombinedLabel_label_text|done].
  - revert Hall. generalize (List.filter (live s) (labels_ s)). induction 1 as [|l ls [Hl1 Hl2] _ IH]; constructor; [|done].
    by apply label_text_word.
Qed.

Lemma map_put_last key x m :
  Forall (fun l => CString_ltb (label_key l) key = true) m -> map_put key x m = m ++ [(key, x)].
Proof.
  induction 1 as [|[k y] m Hk _ IH]; [done|]. cbn [map_put app]. cbn in Hk.
  destruct (decide (k = key)) as [->|]; [by rewrite CString_ltb_irrefl in Hk|].
  destruct (CString_ltb key k) eqn:E; [|by rewrite IH].
  pose proof (CString_ltb_trans _ _ _ Hk E) as Hkk. by rewrite CString_ltb_irrefl in Hkk.
Qed.

Lemma map_erase_none key m : Forall (fun l => CString_ltb (label_key l) key = true) m -> map_erase key m = m.
Proof.
  induction 1 as [|[k y] m Hk _ IH]; [done|]. unfold map_erase in *. cbn [List.filter fst]. change (label_key (k, y)) with k in Hk.
  rewrite bool_decide_eq_false_2 by (intros ->; by rewrite CString_ltb_irrefl in Hk). cbn. by rewrite IH.
Qed.

(** Labels in order are appended in order. *)
Lemma apply_labels_sorted accept_expired ls : forall m,
  StronglySorted key_lt (m ++ ls) ->
  fold_left (apply_label accept_expired) ls m =
    m ++ List.filter (fun l => accept_expired || (GetCurrent100NSTime <? label_expiration l)) ls.
Proof.
  induction ls as [|l ls IH]; intros m Hs; [by rewrite app_nil_r|]. cbn [fold_left List.filter].
  assert (Forall (fun l' => CString_ltb (label_key l') (label_key l) = true) m) as Hm.
  { clear IH. induction m as [|l' m IHm]; [constructor|]. apply StronglySorted_inv in Hs as [Hs Hall].
    constructor; [|by apply IHm]. rewrite Forall_app, Forall_cons in Hall. apply Hall. }
  unfold apply_label at 2. destruct (_ || _).
  - rewrite map_put_last by done. replace (label_key l, l.2) with l by (by destruct l).
    rewrite IH; [by rewrite <- app_assoc|by rewrite <- app_assoc].
  - rewrite map_erase_none by done. apply IH. clear IH Hm. induction m as [|l' m IHm].
    + by apply StronglySorted_inv in Hs as [Hs _].
    + apply StronglySorted_inv in Hs as [Hs Hall]. cbn. constructor; [by apply IHm|].
      rewrite Forall_app, Forall_cons in Hall. apply Forall_app. tauto.
Qed.

Lemma to_the_second_sorted m : StronglySorted key_lt m -> StronglySorted key_lt (to_the_second <$> m).
Proof.
  induction 1 as [|l m Hm IH Hall]; [constructor|]. cbn. constructor; [done|]. apply Forall_fmap. exact Hall.
Qed.

(** What is left of the labels: those that do not expire by the start of the
    second they expire in. *)
Definition reread (m : LabelMap) : LabelMap :=
  List.filter (fun l => GetCurrent100NSTime <? label_expiration l) (to_the_second <$> m).

Lemma reread_live s : List.filter (fun l => GetCurrent100NSTime <? label_expiration l)
    (to_the_second <$> List.filter (live s) (labels_ s)) = reread (labels_ s).
Proof.
  unfold reread. induction (labels_ s) as [|l m IH]; [done|]. cbn [List.filter]. destruct (live s l) eqn:Hl; cbn; rewrite IH; [done|].
  replace (GetCurrent100NSTime <? _) with false; [done|]. symmetry. unfold live in Hl. apply orb_false_iff in Hl as [_ Hl].
  unfold to_the_second, label_expiration in *. cbn. unfold whole_second.
  pose proof (Z.mod_pos_bound l.2.2 kSecsTo100ns eq_refl). lia.
Qed.

(** C35. The labels that are written are the labels that are read back, except
    that expirations are kept to the second and expired labels are dropped. *)
Theorem labels_roundtrip s s0 :
  labels_ok s -> Forall printable (labels_ s) -> preserve_expired_ s0 = false ->
  Deserialize (Serialize INCLUDE_TIMESTAMPS s) s0 = (true, mkLabelStore (reread (labels_ s)) false).
Proof.
  intros Hok Hp Hs0. unfold Deserialize, mbind, St_bind, get. cbn [fst snd].
  rewrite DoDeserialize_spec, labels_of_Serialize, Hs0 by done. cbn [fmap option_fmap option_map].
  rewrite apply_labels_sorted; [|cbn [app]; by apply to_the_second_sorted, filter_sorted, Hok].
  cbn [app orb]. rewrite reread_live. unfold modify, mret, St_ret. by rewrite Hs0.
Qed.

End RoundTrip.

(** ** Examples *)

Definition sample_clock : RegEnv.
Proof.
  refine {| GetCurrent100NSTime := 133860103830000000; NewGuid := 7; GetProcessUser := inr (_T "S-1-5-18");
            IsVistaOrLater := true |}. done.
Defined.

(** Two labels, the second of which expires within the current second. *)
Definition sample_store : LabelStore :=
  mkLabelStore [(_T "a", (_T "1", 133860103830000000 + kDaysTo100ns + 5)); (_T "b", (_T "x:y", 133860103830000000 + 1))] false.

Lemma labels_roundtrip_witness :
  @Deserialize sample_clock gregorian (@Serialize sample_clock gregorian INCLUDE_TIMESTAMPS sample_store) LabelStore_init
    = (true, mkLabelStore [(_T "a", (_T "1", 133860967830000000))] false).
Proof.
  rewrite (@labels_roundtrip sample_clock gregorian sample_store LabelStore_init).
  - by vm_compute.
  - split; repeat constructor.
  - repeat (apply Forall_cons; split; [split; [split; by vm_compute|by vm_compute]|]). constructor.
  - done.
Defined.

(** An expired label that follows another one survives [ExpireLabels]. *)
Example ExpireLabels_skips :
  let s := mkLabelStore [(_T "a", (_T "1", 5)); (_T "b", (_T "2", 5))] false in
  labels_ok s /\ Forall (fun l => label_expiration l < @GetCurrent100NSTime sample_clock) (labels_ s) /\
  labels_ (exec (@ExpireLabels sample_clock) s) = [(_T "b", (_T "2", 5))].
Proof. split; [split; repeat constructor|]. split; [|by vm_compute].
  repeat (apply Forall_cons; split; [by vm_compute|]). constructor.
Qed.
