(* ===== verification/ExtraArgsFacts.v ===== *)
(** The "extra" arguments of a command line: the applications that are installed are
    the ones of the [appguid] tokens, in order, whatever other tokens there are. *)

From S2P Require Import Prelude Hresult CStrings Words Text Policy PolicyFacts AppRegistry ExtraArgs.

(** ** Tokens *)

Lemma tokens_from_pieces d s : forall fuel pos, 0 <= pos -> (length (pieces d (drop (Z.to_nat pos) s)) < fuel)%nat -> tokens_from fuel s [d] pos = pieces d (drop (Z.to_nat pos) s).
Proof.
  induction fuel as [|fuel IH]; intros pos Hpos Hf; [lia|]. cbn [tokens_from]. pose proof (Tokenize_pieces d s pos Hpos) as Ht.
  destruct (pieces d (drop (Z.to_nat pos) s)) as [|w ws]; [by rewrite Ht|]. destruct Ht as (Hne & pos' & -> & Hpos' & Hws).
  rewrite (proj2 (IsEmpty_false w) Hne). cbn [length] in Hf. rewrite IH, Hws; [done|done|rewrite Hws; lia].
Qed.
(** The loops see every part of the text, whatever its length. *)
Lemma tokens_pieces d s : tokens s [d] = pieces d s.
Proof.
  unfold tokens. pose proof (pieces_length d s). apply (tokens_from_pieces d s _ 0); [lia|]. change (drop (Z.to_nat 0) s) with s. lia.
Qed.

Section Facts.
Context `{GuidOps, UrlCodec}.

(** The identifier that a token names an application by. *)
Definition token_guid (token : CString) : option GUID :=
  match ParseNameValuePair token kNameValueSeparatorChar with
  | Some (name, value) => if EqualNoCase name kExtraArgAppGuid then StringToGuidSafe value else None
  | None => None
  end.

(** The fields that have limits. *)
Definition within_limits (args : CommandLineExtraArgs) : Prop :=
  (length (ea_brand_code args) <= kBrandIdLength)%nat /\ (length (ea_language args) <= 10)%nat /\ ea_browser_type args < BROWSER_MAX.

Lemma limits_init : within_limits CommandLineExtraArgs_init.
Proof. split_and!; cbn; unfold kBrandIdLength, BROWSER_UNKNOWN, BROWSER_MAX; lia. Qed.

(** The state after tokens that named the applications [gs]. *)
Definition parser_ok (gs : list GUID) (s : ExtraArgsParser) : Prop :=
  within_limits (ep_args s) /\ Forall (fun g => g <> GUID_NULL) gs /\
  if first_app_ s then gs = [] /\ ea_apps (ep_args s) = [] /\ aa_app_guid (cur_extra_app_args_ s) = GUID_NULL
  else (aa_app_guid <$> ea_apps (ep_args s)) ++ [aa_app_guid (cur_extra_app_args_ s)] = gs /\ ea_runtime_mode (ep_args s) = RUNTIME_MODE_NOT_SET.

Lemma name_excludes name k k' : EqualNoCase name k = true -> EqualNoCase k k' = false -> EqualNoCase name k' = false.
Proof. unfold EqualNoCase. rewrite bool_decide_eq_true, !bool_decide_eq_false. congruence. Qed.

(** What a token that is for all applications leaves alone. *)
Definition bundle_step (s s' : ExtraArgsParser) : Prop :=
  first_app_ s' = first_app_ s /\ cur_extra_app_args_ s' = cur_extra_app_args_ s /\ ea_apps (ep_args s') = ea_apps (ep_args s) /\
  (within_limits (ep_args s) -> within_limits (ep_args s')) /\
  (ea_runtime_mode (ep_args s') = ea_runtime_mode (ep_args s) \/ aa_app_guid (cur_extra_app_args_ s) = GUID_NULL).

Ltac same_bundle := unfold bundle_step, within_limits, ep_with_args; cbn; tauto.

Lemma HandleBundleToken_step name value s hr s' : HandleBundleToken name value s = Some (hr, s') -> FAILED hr = false -> bundle_step s s' /\ EqualNoCase name kExtraArgAppGuid = false.
Proof.
  unfold HandleBundleToken. intros Hh Hok.
  repeat match type of Hh with context [if EqualNoCase name ?k then _ else _] =>
    destruct (EqualNoCase name k) eqn:?; [split; [|eapply name_excludes; [eassumption|vm_compute; reflexivity]]|] end; [..|done].
  - destruct (Z.ltb_spec kMaxNameLength (GetLength value)); [by injection Hh as <- <-|]. destruct (ConvertUtf8UrlEncodedString _ _). injection Hh as <- <-. same_bundle.
  - destruct (StringToGuidSafe value); injection Hh as <- <-; [same_bundle|done].
  - destruct (Z.ltb_spec (Z.of_nat kBrandIdLength) (GetLength value)) as [|Hl]; injection Hh as <- <-; [done|]. unfold GetLength in Hl. unfold bundle_step, within_limits, ep_with_args. cbn. intuition lia.
  - injection Hh as <- <-. same_bundle.
  - destruct (ConvertUtf8UrlEncodedString _ _). injection Hh as <- <-. same_bundle.
  - injection Hh as <- <-. same_bundle.
  - destruct (ConvertStringToBrowserType value) as [type|] eqn:Ht; injection Hh as <- <-; [|same_bundle]. unfold ConvertStringToBrowserType in Ht. destruct (negb _); [done|].
    destruct (String_StringToDecimalIntChecked value) as [t|]; [|done]. destruct (Z.leb_spec BROWSER_MAX t); [done|]. injection Ht as <-. unfold bundle_step, within_limits, ep_with_args. cbn. tauto.
  - destruct (Z.ltb_spec kLangMaxLength (GetLength value)) as [|Hl]; injection Hh as <- <-; [done|]. unfold GetLength, kLangMaxLength in Hl. unfold bundle_step, within_limits, ep_with_args. cbn. intuition lia.
  - destruct (String_StringToTristate value); injection Hh as <- <-; [same_bundle|done].
  - destruct (_ || _) eqn:Hg; [by injection Hh as <- <-|]. apply orb_false_iff in Hg as [_ Hg%negb_false_iff%Z.eqb_eq].
    destruct (StringToRuntimeMode value); injection Hh as <- <-; [same_bundle|done].
  - destruct (negb _); injection Hh as <- <-; [done|same_bundle].
Qed.
Lemma bundle_step_ok gs s s' : bundle_step s s' -> parser_ok gs s -> parser_ok gs s'.
Proof.
  intros (Hf & Hc & Ha & Hl & Hr) (Hlim & Hgs & Hs). split_and!; [by apply Hl|done|]. rewrite Hf. rewrite Hc, Ha in *. destruct (first_app_ s); [done|].
  destruct Hs as [Hs Hm]. split; [done|]. destruct Hr as [Hr|Hr]; [by rewrite Hr|]. rewrite <- Hs in Hgs. apply Forall_app in Hgs as [_ Hg%Forall_inv]. done.
Qed.

(** What a token leaves alone that is for one application and does not name it. *)
Definition app_step (s s' : ExtraArgsParser) : Prop :=
  first_app_ s' = first_app_ s /\ ep_args s' = ep_args s /\ aa_app_guid (cur_extra_app_args_ s') = aa_app_guid (cur_extra_app_args_ s).
Lemma app_step_ok gs s s' : app_step s s' -> parser_ok gs s -> parser_ok gs s'.
Proof. intros (Hf & Ha & Hg). unfold parser_ok. by rewrite Hf, Ha, Hg. Qed.
Lemma HandleAppToken_step name value s hr s' : HandleAppToken name value s = (hr, s') -> FAILED hr = false ->
  if EqualNoCase name kExtraArgAppGuid then
    exists g, StringToGuidSafe value = Some g /\ g <> GUID_NULL /\ first_app_ s' = false /\ aa_app_guid (cur_extra_app_args_ s') = g /\
      ea_runtime_mode (ep_args s) = RUNTIME_MODE_NOT_SET /\
      ep_args s' = if first_app_ s then ep_args s else ea_with_apps (ea_apps (ep_args s) ++ [cur_extra_app_args_ s]) (ep_args s)
  else app_step s s'.
Proof.
  unfold HandleAppToken. intros Hh Hok. destruct (EqualNoCase name kExtraArgAppGuid) eqn:Hg.
  - rewrite !(name_excludes name kExtraArgAppGuid) in Hh by (done || (vm_compute; reflexivity)). cbv zeta in Hh. destruct (StringToGuidSafe value) as [g|].
    2: { injection Hh as <- _. by rewrite IIDFromString_fails in Hok. }
    destruct (_ || _) eqn:Hx; injection Hh as <- <-; [done|]. apply orb_false_iff in Hx as [Hn%Z.eqb_neq Hm%negb_false_iff%bool_decide_eq_true]. exists g.
    destruct (first_app_ s); done.
  - repeat match type of Hh with context [if EqualNoCase name ?k then _ else _] => destruct (EqualNoCase name k) end; try (injection Hh as <- <-; done).
    + destruct (ConvertUtf8UrlEncodedString _ _). injection Hh as <- <-. done.
    + destruct (kMaxNameLength <? GetLength value); [injection Hh as <- <-; done|]. destruct (ConvertUtf8UrlEncodedString _ _). injection Hh as <- <-. done.
    + destruct (StringToNeedsAdmin value); injection Hh as <- <-; done.
Qed.

Lemma HandleToken_ok gs token s hr s' : HandleToken token s = (hr, s') -> FAILED hr = false -> parser_ok gs s -> parser_ok (gs ++ option_list (token_guid token)) s'.
Proof.
  unfold HandleToken, token_guid. destruct (ParseNameValuePair _ _) as [[name value]|]; [|by intros [= <- <-]]. destruct (HandleBundleToken name value s) as [[hr1 s1]|] eqn:Hb.
  - intros [= <- <-] Hok Hs. destruct (HandleBundleToken_step _ _ _ _ _ Hb Hok) as [Hstep ->]. rewrite app_nil_r. by apply (bundle_step_ok gs s).
  - intros Hh Hok Hs. apply HandleAppToken_step in Hh; [|done]. destruct (EqualNoCase name kExtraArgAppGuid); [|rewrite app_nil_r; by apply (app_step_ok gs s)].
    destruct Hh as (g & -> & Hn & Hf & Hg & Hm & Ha). destruct Hs as (Hlim & Hgs & Hs). cbn [option_list]. split_and!.
    + rewrite Ha. by destruct (first_app_ s).
    + apply Forall_app. split; [done|]. by constructor.
    + rewrite Hf, Hg, Ha. destruct (first_app_ s); [destruct Hs as (-> & Happs & _); by rewrite Happs|]. destruct Hs as [<- Hs]. cbn. by rewrite fmap_app.
Qed.
Lemma handle_tokens_ok l : forall gs s hr s', handle_tokens HandleToken l s = (hr, s') -> FAILED hr = false -> parser_ok gs s -> parser_ok (gs ++ omap token_guid l) s'.
Proof.
  induction l as [|t l IH]; intros gs s hr s' Hh Hok Hs; [injection Hh as <- <-; by rewrite app_nil_r|]. cbn [handle_tokens] in Hh.
  unfold mbind, St_bind in Hh. destruct (HandleToken t s) as [hr1 s1] eqn:Ht. destruct (FAILED hr1) eqn:Hf; [by injection Hh as <- <-; rewrite Hf in Hok|].
  apply (HandleToken_ok gs _ _ _ _ Ht Hf), (IH _ _ _ _ Hh Hok) in Hs. rewrite <- app_assoc in Hs. cbn [omap list_omap]. by destruct (token_guid t).
Qed.

(** ** The arguments of the applications *)

(** The applications stay, and what was set for all of them. *)
Definition same_apps (args args' : CommandLineExtraArgs) : Prop :=
  exists apps, args' = ea_with_apps apps args /\ aa_app_guid <$> apps = aa_app_guid <$> ea_apps args.
Lemma HandleAppArgsToken_keeps token args cur : same_apps args (HandleAppArgsToken token (args, cur)).2.1.
Proof.
  assert (same_apps args args) as Hsame by (exists (ea_apps args); by destruct args). unfold HandleAppArgsToken. destruct (_ <? _); [done|].
  destruct (ParseNameValuePair _ _) as [[name value]|]; [|done]. destruct (EqualNoCase name kExtraArgAppGuid); [by destruct (find_app _ _)|].
  destruct (EqualNoCase name kExtraArgInstallerData); [|done]. destruct cur as [i|]; [|done]. exists (alter (aa_with_encoded_installer_data value) i (ea_apps args)). split; [done|].
  apply list_eq. intros j. rewrite !list_lookup_fmap, list_lookup_alter. case_decide as Hij; [|done]. subst j. by destruct (ea_apps args !! i).
Qed.
Lemma same_apps_trans a b c : same_apps a b -> same_apps b c -> same_apps a c.
Proof. intros (x & -> & Hx) (y & -> & Hy). exists y. split; [done|]. by rewrite Hy. Qed.
Lemma handle_app_args_keeps l : forall args cur, same_apps args (handle_tokens HandleAppArgsToken l (args, cur)).2.1.
Proof.
  induction l as [|t l IH]; intros args cur; [exists (ea_apps args); by destruct args|]. cbn [handle_tokens]. unfold mbind, St_bind.
  pose proof (HandleAppArgsToken_keeps t args cur) as Ht. destruct (HandleAppArgsToken t (args, cur)) as [hr [args1 cur1]]. destruct (FAILED hr); [done|].
  eapply same_apps_trans; [exact Ht|apply IH].
Qed.
Lemma ParseAppArgs_keeps app_args args : same_apps args (ParseAppArgs app_args args).2.
Proof.
  assert (same_apps args args) as Hsame by (exists (ea_apps args); by destruct args). unfold ParseAppArgs. cbv zeta. destruct (IsEmpty _); [done|]. destruct (FAILED _); [done|].
  pose proof (handle_app_args_keeps (tokens (c_str app_args) kExtraArgsSeparators) args None) as Hk. by destruct (handle_tokens _ _ _) as [hr [args1 cur1]].
Qed.

(** The applications after the extra arguments. *)
Definition apps_ok (gs : list GUID) (args : CommandLineExtraArgs) : Prop :=
  aa_app_guid <$> ea_apps args = (if decide (gs = []) then [GUID_NULL] else gs) /\ Forall (fun g => g <> GUID_NULL) gs /\
  (ea_runtime_mode args = RUNTIME_MODE_NOT_SET \/ gs = []) /\ within_limits args.
Lemma apps_ok_same gs args args' : same_apps args args' -> apps_ok gs args -> apps_ok gs args'.
Proof. intros (apps & -> & Ha). unfold apps_ok, within_limits. cbn. by rewrite Ha. Qed.
Lemma ParseExtraArgs_ok extra_args s hr s' : ParseExtraArgs extra_args s = (hr, s') -> FAILED hr = false -> within_limits (ep_args s) -> ea_apps (ep_args s) = [] ->
  aa_app_guid (cur_extra_app_args_ s) = GUID_NULL -> apps_ok (omap token_guid (pieces 38 (c_str extra_args))) (ep_args s').
Proof.
  intros Hp Hok Hlim Ha Hg. unfold ParseExtraArgs in Hp. cbv zeta in Hp. destruct (FAILED (ValidateExtraArgs _)) eqn:Hv; [injection Hp as <- <-; by rewrite Hv in Hok|].
  change (tokens (c_str extra_args) kExtraArgsSeparators) with (tokens (c_str extra_args) [38]) in Hp. rewrite tokens_pieces in Hp. set (s0 := mkExtraArgsParser _ _ true) in Hp.
  destruct (handle_tokens _ _ s0) as [hr1 s1] eqn:Hh. destruct (FAILED hr1) eqn:Hf; [injection Hp as <- <-; by rewrite Hf in Hok|].
  apply (handle_tokens_ok _ [] _ _ _) in Hh; [|done|by split_and!]. set (gs := omap _ _) in *. cbn [app] in Hh. destruct Hh as (Hl1 & Hgs & Hs).
  assert (apps_ok gs (ea_with_apps (ea_apps (ep_args s1) ++ [cur_extra_app_args_ s1]) (ep_args s1))) as Hdone.
  { split_and!; [|done| |done]; cbn; [rewrite fmap_app|]; destruct (first_app_ s1).
    - destruct Hs as (-> & -> & Hs). cbn. by rewrite Hs.
    - destruct Hs as [Hs _]. cbn [fmap list_fmap]. rewrite decide_False; [done|]. intros ->. by destruct (aa_app_guid <$> ea_apps (ep_args s1)).
    - right. apply Hs.
    - left. apply Hs. }
  injection Hp as <- <-. destruct (IsEmpty _); exact Hdone.
Qed.

(** C23. The applications that are installed are the ones that the [appguid] tokens of the
    extra arguments name, in their order and none of them null, whatever tokens stand
    between them and whatever the arguments of the applications say; without such a
    token there is one application without an identifier, and only then can a mode of
    the runtime be set. Brand code, language and browser are within their limits. *)
Theorem extra_args_name_apps extra_args app_args hr args :
  ExtraArgs_Parse extra_args app_args CommandLineExtraArgs_init = (hr, args) -> FAILED hr = false ->
  let gs := omap token_guid (pieces 38 (c_str extra_args)) in
  aa_app_guid <$> ea_apps args = (if decide (gs = []) then [GUID_NULL] else gs) /\ Forall (fun g => g <> GUID_NULL) gs /\
  (ea_runtime_mode args = RUNTIME_MODE_NOT_SET \/ gs = []) /\
  (length (ea_brand_code args) <= kBrandIdLength)%nat /\ (length (ea_language args) <= 10)%nat /\ ea_browser_type args < BROWSER_MAX.
Proof.
  unfold ExtraArgs_Parse. destruct (ParseExtraArgs _ _) as [hr1 s1] eqn:Hp. destruct (FAILED hr1) eqn:Hf; [intros [= <- <-]; by rewrite Hf|]. intros Ha Hok.
  apply ParseExtraArgs_ok in Hp; [|done|exact limits_init|done|done]. eapply apps_ok_same; [|exact Hp].
  pose proof (ParseAppArgs_keeps app_args (ep_args s1)) as Hk. by rewrite Ha in Hk.
Qed.
End Facts.

(** ** A concrete codec *)

Definition hex_digit (c : Z) : Z := if (48 <=? c) && (c <=? 57) then c - 48 else (if 97 <=? c then c - 87 else c - 55).
Fixpoint unescape (s : list Z) : list Z :=
  match s with
  | [] => []
  | 37 :: h :: l :: s => 16 * hex_digit h + hex_digit l :: unescape s
  | c :: s => c :: unescape s
  end.
(** Escapes are decoded; the text is ASCII. *)
#[refine]
Definition sample_codec : UrlCodec := {|
  UrlUnescapeA s := inr (unescape s);
  Utf8ToWide s := s;
  IIDFromString_error _ := E_INVALIDARG;
  UrlUnescapeA_fails := _;
  IIDFromString_fails := _
|}.
Proof. all: done. Defined.

Definition sample_extra_args : CString :=
  _T "bundlename=Two%20apps&appguid=" ++ guid_text example_guid ++ _T "&appname=One&lang=en&APPGUID=" ++ guid_text 0x99 ++ _T "&needsadmin=prefers&brand=GGLS".
Definition sample_app_args : CString := _T "appguid=" ++ guid_text 0x99 ++ _T "&installerdata=abc".
Definition sample_parsed : HRESULT * CommandLineExtraArgs := @ExtraArgs_Parse guid_ops sample_codec sample_extra_args sample_app_args CommandLineExtraArgs_init.

Lemma extra_args_name_apps_witness : aa_app_guid <$> ea_apps sample_parsed.2 = [example_guid; 0x99].
Proof.
  destruct (@extra_args_name_apps guid_ops sample_codec sample_extra_args sample_app_args sample_parsed.1 sample_parsed.2) as [Hg _].
  - unfold sample_parsed. by destruct (ExtraArgs_Parse _ _ _).
  - vm_compute. reflexivity.
  - rewrite Hg. vm_compute. reflexivity.
Defined.
