(* ===== verification/CommandLineFacts.v ===== *)
(** Command lines: what the rules of goopdate accept, that they exclude each other,
    and that what the builder writes is what the parser reads. *)

From Stdlib Require Import Sorting.Sorted.
From S2P Require Import Prelude Hresult CStrings Maps Paths Text Policy ExtraArgs CommandLine.

(** ** Maps *)

Lemma map_put_put {V} k (x y : V) m : map_put k x (map_put k y m) = map_put k x m.
Proof.
  induction m as [|[k' z] m IH]; cbn; [by rewrite decide_True|]. destruct (decide (k' = k)) as [->|Hn]; [cbn; by rewrite decide_True|].
  destruct (CString_ltb k k') eqn:Hl; cbn; [by rewrite decide_True|]. by rewrite decide_False, Hl, IH.
Qed.
Lemma map_put_length {V} k (x : V) m : map_find k m = None -> length (map_put k x m) = S (length m).
Proof.
  induction m as [|[k' y] m IH]; cbn; [done|]. destruct (decide (k' = k)); [done|]. intros Hf. destruct (CString_ltb k k'); cbn; [done|]. by rewrite IH.
Qed.
Lemma map_put_map {V W} (f : V -> W) k x (m : smap V) : map_put k (f x) (prod_map id f <$> m) = prod_map id f <$> map_put k x m.
Proof. induction m as [|[k' y] m IH]; [done|]. cbn. case_decide; [done|]. destruct (CString_ltb k k'); [done|]. cbn. f_equal. exact IH. Qed.
Lemma map_find_map {V W} (f : V -> W) k (m : smap V) : map_find k (prod_map id f <$> m) = f <$> map_find k m.
Proof. induction m as [|[k' y] m IH]; [done|]. cbn. case_decide; [done|]. exact IH. Qed.
Lemma map_find_elem {V} k (x : V) m : map_find k m = Some x -> (k, x) ∈ m.
Proof.
  induction m as [|[k' y] m IH]; cbn; [done|]. destruct (decide (k' = k)) as [->|Hn]; [intros [= ->]; apply list_elem_of_here|].
  intros Hf. apply list_elem_of_further. by apply IH.
Qed.
Lemma map_find_None {V} k (m : smap V) : map_find k m = None <-> k ∉ m.*1.
Proof.
  induction m as [|[k' y] m IH]; cbn; [split; [intros _ []%elem_of_nil|done]|]. rewrite not_elem_of_cons. destruct (decide (k' = k)) as [->|Hn]; [naive_solver|].
  rewrite IH. naive_solver.
Qed.

(** ** The rules *)

(** The words of a text, separated by single blanks. *)
Fixpoint words (s cur : CString) : list CString :=
  match s with
  | [] => if IsEmpty cur then [] else [cur]
  | c :: s => if c =? 32 then cur :: words s [] else words s (cur ++ [c])
  end.

(** [Goopdate_CreateScenario] on the words of a rule, for handlers of any type. *)
Definition create_words {H} (g : CommandLineValidator * smap H) (rule : list CString * H) : CommandLineValidator * smap H :=
  let '(v, handlers) := g in
  let '(hr, parser) := ParseFromArgv (_T "prog.exe" :: rule.1) CommandLineParser_init in
  let '(_, name, v) := if FAILED hr then (hr, [], v) else scenario_from_parser parser v in
  (v, map_put name rule.2 handlers).
Definition setup_words {H} (rules : list (list CString * H)) : CommandLineValidator * smap H := fold_left create_words rules (CommandLineValidator_init, []).

Lemma create_words_map {V W} (f : V -> W) l : forall v (m : smap V),
  fold_left create_words (prod_map id f <$> l) (v, prod_map id f <$> m) = prod_map id (fmap (prod_map id f)) (fold_left create_words l (v, m)).
Proof.
  induction l as [|[ws h] l IH]; intros v m; [done|]. cbn [fmap list_fmap fold_left]. unfold create_words at 2 4. cbn [prod_map fst snd].
  destruct (ParseFromArgv _ _) as [hr parser]. destruct (if FAILED hr then _ else _) as [[? name] v']. rewrite map_put_map. apply IH.
Qed.

Lemma trim_blanks_id c s d : c <> 32 -> d <> 32 -> trim_blanks (c :: s ++ [d]) = c :: s ++ [d].
Proof.
  intros Hc Hd. unfold trim_blanks. cbn [drop_while]. rewrite (proj2 (Z.eqb_neq 32 c)) by congruence.
  rewrite app_comm_cons, reverse_app. cbn [reverse]. change (reverse [d]) with [d]. cbn [app drop_while]. rewrite (proj2 (Z.eqb_neq 32 d)) by congruence.
  change (d :: reverse (c :: s)) with ([d] ++ reverse (c :: s)). by rewrite reverse_app, reverse_involutive.
Qed.

(** The texts of the rules, and what their words lead to: the scenarios in the
    order of the map, and the numbers of their handlers. *)
Section Setup.
Context `{GuidOps, UrlCodec, ShellApi}.

Definition rule_words (text : CString) : list CString := words text [].
Definition rule_ok (text : CString) : bool :=
  bool_decide (trim_blanks (c_str (_T "prog.exe " ++ text)) = command_text (Bare (_T "prog.exe")) (Bare <$> rule_words text)) &&
  forallb (fun w => negb (IsEmpty w) && forallb (fun c => (32 <? c) && negb (c =? 34)) w) (rule_words text).

Lemma rules_ok : forallb (fun r => rule_ok r.1) rules = true.
Proof. vm_compute. reflexivity. Qed.

Lemma bare_ok w : negb (IsEmpty w) && forallb (fun c => (32 <? c) && negb (c =? 34)) w = true -> well_formed (Bare w).
Proof.
  intros [Hw Hf]%andb_true_iff. split; [by destruct w|]. rewrite forallb_forall in Hf. apply List.Forall_forall. intros c Hc. specialize (Hf c Hc). lia.
Qed.
Lemma rule_parsed text p : rule_ok text = true -> ParseFromString (_T "prog.exe " ++ text) p = ParseFromArgv (_T "prog.exe" :: rule_words text) p.
Proof.
  intros [He%bool_decide_eq_true Hw]%andb_true_iff. unfold ParseFromString. rewrite He. cbv zeta.
  assert (IsEmpty (command_text (Bare (_T "prog.exe")) (Bare <$> rule_words text)) = false) as -> by reflexivity.
  rewrite CommandLineToArgvW_text.
  - rewrite fmap_cons, <- list_fmap_compose. f_equal. f_equal. apply list_fmap_id.
  - by apply bare_ok.
  - apply Forall_fmap, List.Forall_forall. intros w Hin. rewrite forallb_forall in Hw. by apply bare_ok, Hw.
Qed.

Lemma setup_step l : forall v hs, forallb (fun r => rule_ok r.1) l = true ->
  fold_left Goopdate_CreateScenario l (mkGoopdateCommandLineValidator v hs) =
  let '(v', hs') := fold_left create_words ((fun r => (rule_words r.1, r.2)) <$> l) (v, hs) in mkGoopdateCommandLineValidator v' hs'.
Proof.
  induction l as [|[text h] l IH]; intros v hs Hok; [done|]. cbn [forallb] in Hok. apply andb_true_iff in Hok as [Hr Hok]. cbn [fst] in Hr.
  cbn [fmap list_fmap fold_left]. unfold Goopdate_CreateScenario at 2, create_words at 2. cbn [validator_ scenario_handlers_ fst snd].
  unfold CreateScenarioFromCmdLine. rewrite (rule_parsed _ _ Hr). destruct (ParseFromArgv _ _) as [hr parser].
  destruct (if FAILED hr then _ else _) as [[? name] v']. by apply IH.
Qed.

Lemma numbered {A B} (f : A -> B) (l : list (A * ScenarioHandler)) d :
  (fun r => (f r.1, r.2)) <$> l = prod_map id (fun i => nth i l.*2 d) <$> imap (fun i t => (f t, i)) l.*1.
Proof.
  apply list_eq. intros i. rewrite !list_lookup_fmap, list_lookup_imap, list_lookup_fmap. destruct (l !! i) as [[a h]|] eqn:E; [|done].
  cbn. do 2 f_equal. symmetry. apply nth_lookup_Some. by rewrite list_lookup_fmap, E.
Qed.

Lemma setup_numbered l d : forallb (fun r => rule_ok r.1) l = true ->
  let g := setup_words (imap (fun i t => (rule_words t, i)) l.*1) in
  fold_left Goopdate_CreateScenario l (mkGoopdateCommandLineValidator CommandLineValidator_init []) =
  mkGoopdateCommandLineValidator g.1 (prod_map id (fun i => nth i l.*2 d) <$> g.2).
Proof.
  intros Hok g. rewrite setup_step by done. rewrite (numbered rule_words l d).
  change (@nil (CString * ScenarioHandler)) with (prod_map id (fun i => nth i l.*2 d) <$> @nil (CString * nat)). rewrite create_words_map.
  change (fold_left create_words _ _) with g. by destruct g.
Qed.

Definition rule_texts : list CString := Eval vm_compute in rules.*1.
End Setup.

Definition scenario_setup : CommandLineValidator * smap nat := Eval vm_compute in setup_words (imap (fun i t => (rule_words t, i)) rule_texts).
Definition scenario_list : smap ScenarioParameters := Eval vm_compute in scenarios_ scenario_setup.1.

Section Rules.
Context `{GuidOps, UrlCodec, ShellApi}.

Lemma Setup_eq : Setup = mkGoopdateCommandLineValidator scenario_setup.1 (prod_map id (fun i => nth i rules.*2 OnNoArgs) <$> scenario_setup.2).
Proof.
  unfold Setup. rewrite (setup_numbered rules OnNoArgs rules_ok). cbv zeta.
  assert (setup_words (imap (fun i t => (rule_words t, i)) rules.*1) = scenario_setup) as -> by (vm_compute; reflexivity). reflexivity.
Qed.
End Rules.

(** ** What a scenario accepts *)

Lemma fmap_sublist {A B} (f : A -> B) l k : sublist l k -> sublist (f <$> l) (f <$> k).
Proof. induction 1; cbn; [constructor|by apply sublist_skip|by apply sublist_cons]. Qed.
Lemma NoDup_fmap_inj {A B} (f : A -> B) l x y : NoDup (f <$> l) -> x ∈ l -> y ∈ l -> f x = f y -> x = y.
Proof.
  induction l as [|z l IH]; [intros _ []%elem_of_nil|]. cbn [fmap list_fmap]. rewrite NoDup_cons, !elem_of_cons. intros [Hz Hl] [->|Hx] [->|Hy] He; [done| | |by apply IH].
  - exfalso. apply Hz. rewrite He. by apply list_elem_of_fmap_2.
  - exfalso. apply Hz. rewrite <- He. by apply list_elem_of_fmap_2.
Qed.

Definition sp_all (sp : ScenarioParameters) : list ScenarioParameter := sp_required sp ++ sp_optional sp.
(** The names of a scenario are in lower case and different. *)
Definition scenario_ok (sp : ScenarioParameters) : Prop :=
  NoDup (switch_name_ <$> sp_all sp) /\ Forall (fun x => MakeLower (switch_name_ x) = switch_name_ x) (sp_all sp).

(** The test of [Validator_Validate]. *)
Definition accepts (p : CommandLineParser) (sp : ScenarioParameters) : bool :=
  negb ((length (required_args_ p) <? length (sp_required sp))%nat || (length (sp_required sp) + length (sp_optional sp) <? length (required_args_ p))%nat)
  && DoesScenarioMatch p sp.

Section Accepts.
Context (p : CommandLineParser) (sp : ScenarioParameters) (Hp : NoDup (required_args_ p).*1) (Hsp : scenario_ok sp).
#[local] Abbreviation m := (required_args_ p).

(** The command line has the switch, with its number of arguments. *)
Definition present (x : ScenarioParameter) : Prop := switch_name_ x ∈ m.*1.
#[local] Instance present_dec x : Decision (present x).
Proof. unfold present. apply _. Defined.
Definition right (x : ScenarioParameter) : Prop := exists values, map_find (switch_name_ x) m = Some values /\ length values = num_required_parameters_ x.

Lemma present_find x : present x <-> exists values, map_find (switch_name_ x) m = Some values.
Proof.
  unfold present. destruct (map_find (switch_name_ x) m) as [v|] eqn:E.
  - split; [by eexists|]. intros _. apply map_find_elem in E. apply list_elem_of_fmap. by exists (switch_name_ x, v).
  - apply map_find_None in E. split; [done|]. intros [? [=]].
Qed.
Lemma right_present x : right x -> present x.
Proof. intros (v & Hv & _). apply present_find. by exists v. Qed.

Lemma required_match_spec l : Forall (fun x => MakeLower (switch_name_ x) = switch_name_ x) l -> required_match p l = true <-> Forall right l.
Proof.
  induction 1 as [|x l Hx Hl IH]; [done|]. cbn [required_match]. unfold Args_HasSwitch, Args_GetSwitchArgumentCount. rewrite Hx, Forall_cons.
  unfold right at 1. destruct (map_find (switch_name_ x) m) as [v|]; cbn [negb fmap option_fmap option_map].
  - destruct (Nat.eqb_spec (length v) (num_required_parameters_ x)); cbn [negb]; [rewrite IH; naive_solver|]. split; [done|]. intros [(? & [= <-] & ?) _]. done.
  - split; [done|]. intros [(? & [=] & _) _].
Qed.

(** The optional switches that were found. *)
Lemma optional_match_found l k : Forall (fun x => MakeLower (switch_name_ x) = switch_name_ x) l -> optional_match p k l = Some 0%nat ->
  exists found, sublist found l /\ length found = k /\ Forall right found.
Proof.
  intros Hl. revert k. induction Hl as [|x l Hx Hl IH]; intros k; cbn [optional_match]; [intros [= ->]; by exists []|].
  destruct (Nat.eqb_spec k 0) as [->|Hk]; [intros _; exists []; split_and!; [apply sublist_nil_l|done|constructor]|].
  unfold Args_HasSwitch, Args_GetSwitchArgumentCount. rewrite Hx. destruct (map_find (switch_name_ x) m) as [v|] eqn:E; cbn [negb fmap option_fmap option_map].
  - destruct (Nat.eqb_spec (length v) (num_required_parameters_ x)); cbn [negb]; [|done]. intros (found & Hs & Hf & Hr)%IH. exists (x :: found). split_and!.
    + by apply sublist_skip.
    + cbn. lia.
    + constructor; [by exists v|done].
  - intros (found & Hs & Hf & Hr)%IH. exists found. split_and!; [by apply sublist_cons|done|done].
Qed.
Lemma optional_match_all l : Forall (fun x => MakeLower (switch_name_ x) = switch_name_ x) l -> Forall (fun x => present x -> right x) l ->
  optional_match p (length (filter present l)) l = Some 0%nat.
Proof.
  induction 1 as [|x l Hx Hl IH]; [done|]. intros [Hr Hrl]%Forall_cons. cbn [optional_match]. rewrite filter_cons. unfold Args_HasSwitch, Args_GetSwitchArgumentCount. rewrite Hx.
  destruct (decide (present x)) as [Hpx|Hpx].
  - cbn [length]. destruct (Hr Hpx) as (v & -> & Hv). cbn. rewrite (proj2 (Nat.eqb_eq _ _)) by done. cbn. rewrite Nat.sub_0_r. by apply IH.
  - assert (map_find (switch_name_ x) m = None) as -> by (by apply map_find_None). cbn [negb]. rewrite IH by done.
    by destruct (Nat.eqb_spec (length (filter present l)) 0) as [->|].
Qed.

Lemma names_NoDup l : sublist l (sp_optional sp) -> NoDup (switch_name_ <$> sp_required sp ++ l).
Proof.
  intros Hs. destruct Hsp as [Hn _]. unfold sp_all in Hn. eapply sublist_NoDup; [exact Hn|]. apply fmap_sublist. by apply sublist_app.
Qed.
(** All switches are names of the scenario if their number says so. *)
Lemma names_cover l : sublist l (sp_optional sp) -> Forall (fun x => present x) (sp_required sp ++ l) -> length (sp_required sp ++ l) = length m ->
  forall k, k ∈ m.*1 -> k ∈ switch_name_ <$> (sp_required sp ++ l).
Proof.
  intros Hs Hall Hlen k Hk. assert (switch_name_ <$> (sp_required sp ++ l) ⊆+ m.*1) as Hsub.
  { apply NoDup_submseteq; [by apply names_NoDup|]. intros n (x & -> & Hx)%list_elem_of_fmap. rewrite Forall_forall in Hall. by apply Hall. }
  apply submseteq_length_Permutation in Hsub; [by rewrite Hsub|]. rewrite !length_fmap. lia.
Qed.
Lemma present_number : Forall right (sp_required sp) -> Forall (fun kv => kv.1 ∈ switch_name_ <$> sp_all sp) m ->
  (length (sp_required sp) + length (filter present (sp_optional sp)))%nat = length m.
Proof.
  intros Hr Hm. rewrite <- length_app, <- (length_fmap fst m), <- (length_fmap switch_name_). apply Permutation_length, NoDup_Permutation; [|done|].
  - apply names_NoDup, sublist_filter.
  - intros k. rewrite fmap_app, elem_of_app, !(list_elem_of_fmap switch_name_). split.
    + intros [(x & -> & Hx)|(x & -> & [Hx _]%list_elem_of_filter)]; [|exact Hx]. rewrite Forall_forall in Hr. by apply right_present, Hr.
    + intros Hk. pose proof Hk as Hk'. apply list_elem_of_fmap in Hk' as (kv & -> & Hkv). rewrite Forall_forall in Hm. pose proof (Hm kv Hkv) as Hn.
      unfold sp_all in Hn. rewrite fmap_app, elem_of_app, !list_elem_of_fmap in Hn. destruct Hn as [(x & Hx & Hin)|(x & Hx & Hin)]; [left; by exists x|].
      right. exists x. split; [done|]. apply list_elem_of_filter. split; [|done]. unfold present. by rewrite <- Hx.
Qed.

Lemma accepts_spec : accepts p sp = true <-> Forall right (sp_required sp) /\ Forall (fun kv => exists x, x ∈ sp_all sp /\ switch_name_ x = kv.1 /\ right x) m.
Proof.
  pose proof Hsp as [Hn Hlow]. unfold sp_all in Hlow. apply Forall_app in Hlow as [Hlr Hlo]. unfold accepts, DoesScenarioMatch. split.
  - rewrite andb_true_iff, negb_true_iff, orb_false_iff, !Nat.ltb_ge. intros [[Hge Hle] Hmatch].
    destruct (required_match p (sp_required sp)) eqn:Hrm; cbn [negb] in Hmatch; [|done]. apply required_match_spec in Hrm; [|done]. split; [done|].
    destruct (optional_match _ _ _) as [k|] eqn:Ho; [|done]. apply Nat.eqb_eq in Hmatch as ->. apply optional_match_found in Ho as (found & Hs & Hlen & Hf); [|done].
    assert (Forall right (sp_required sp ++ found)) as Hall by (by apply Forall_app). apply Forall_forall. intros kv Hkv.
    assert (kv.1 ∈ switch_name_ <$> (sp_required sp ++ found)) as (x & Hx & Hin)%list_elem_of_fmap.
    { apply names_cover; [done|eapply Forall_impl; [exact Hall|apply right_present]|rewrite length_app; lia|]. apply list_elem_of_fmap. by exists kv. }
    exists x. split_and!; [|done|by rewrite Forall_forall in Hall; apply Hall]. unfold sp_all. rewrite elem_of_app in Hin |- *.
    destruct Hin as [?|Hin]; [by left|right]. eapply elem_of_submseteq; [exact Hin|by apply sublist_submseteq].
  - intros [Hr Hm]. assert (Forall (fun kv => kv.1 ∈ switch_name_ <$> sp_all sp) m) as Hm'.
    { eapply Forall_impl; [exact Hm|]. cbn. intros kv (x & Hx & <- & _). apply list_elem_of_fmap. by exists x. }
    pose proof (present_number Hr Hm') as Hnum. assert (length (filter present (sp_optional sp)) <= length (sp_optional sp))%nat as Hle by apply sublist_length, sublist_filter.
    apply andb_true_iff. split; [rewrite negb_true_iff, orb_false_iff, !Nat.ltb_ge; lia|]. rewrite (proj2 (required_match_spec _ Hlr) Hr). cbn [negb].
    replace (length m - length (sp_required sp))%nat with (length (filter present (sp_optional sp))) by lia. rewrite optional_match_all; [done|done|].
    apply Forall_forall. intros x Hx Hpx. pose proof Hpx as Hpx'. unfold present in Hpx'. apply list_elem_of_fmap in Hpx' as (kv & He & Hkv). rewrite Forall_forall in Hm.
    destruct (Hm kv Hkv) as (y & Hyin & Hy & Hry). rewrite <- He in Hy.
    by rewrite <- (NoDup_fmap_inj switch_name_ (sp_all sp) y x Hn Hyin ltac:(apply elem_of_app; by right) Hy).
Qed.
End Accepts.

(** ** The scenarios exclude each other *)

(** A required switch of the one that the other does not have. *)
Definition clash (a b : ScenarioParameters) : bool :=
  existsb (fun x => negb (existsb (fun y => bool_decide (switch_name_ x = switch_name_ y) && (num_required_parameters_ x =? num_required_parameters_ y)%nat) (sp_all a))) (sp_required b).

Lemma clash_excludes p a b : NoDup (required_args_ p).*1 -> scenario_ok a -> scenario_ok b -> clash a b = true -> accepts p a = true -> accepts p b = true -> False.
Proof.
  intros Hp Ha Hb (x & Hin & Hx%negb_true_iff)%existsb_exists [_ Hma]%accepts_spec [Hrb _]%accepts_spec; try done.
  rewrite Forall_forall in Hrb. destruct (Hrb x) as (v & Hv & Hlen); [by apply list_elem_of_In|].
  rewrite Forall_forall in Hma. destruct (Hma (switch_name_ x, v) (map_find_elem _ _ _ Hv)) as (y & Hy & Hname & (v' & Hv' & Hlen')). cbn in Hname.
  rewrite Hname, Hv in Hv'. injection Hv' as <-. apply not_true_iff_false in Hx. apply Hx. apply existsb_exists. exists y. split; [by apply list_elem_of_In|].
  apply andb_true_iff. split; [by apply bool_decide_eq_true|]. apply Nat.eqb_eq. congruence.
Qed.

Definition scenario_okb (sp : ScenarioParameters) : bool :=
  bool_decide (NoDup (switch_name_ <$> sp_all sp)) && forallb (fun x => bool_decide (MakeLower (switch_name_ x) = switch_name_ x)) (sp_all sp).
Lemma scenarios_ok : Forall (fun s => scenario_ok s.2) scenario_list.
Proof.
  apply List.Forall_forall. intros s Hs. assert (forallb (fun s => scenario_okb s.2) scenario_list = true) as Hall by (vm_compute; reflexivity).
  rewrite forallb_forall in Hall. apply Hall, andb_true_iff in Hs as [Hn%bool_decide_eq_true Hl]. split; [done|]. rewrite forallb_forall in Hl.
  apply List.Forall_forall. intros x Hx. by apply Hl, bool_decide_eq_true in Hx.
Qed.

Lemma scenarios_clash s t : s ∈ scenario_list -> t ∈ scenario_list -> s.1 = t.1 \/ clash s.2 t.2 = true \/ clash t.2 s.2 = true.
Proof.
  assert (forallb (fun s => forallb (fun t => bool_decide (s.1 = t.1) || clash s.2 t.2 || clash t.2 s.2) scenario_list) scenario_list = true) as Hall by (vm_compute; reflexivity).
  rewrite forallb_forall in Hall. intros Hs%list_elem_of_In Ht%list_elem_of_In. pose proof (Hall s Hs) as Hst. rewrite forallb_forall in Hst. specialize (Hst t Ht).
  apply orb_true_iff in Hst as [[H%bool_decide_eq_true|H]%orb_true_iff|H]; auto.
Qed.

Lemma accepts_unique p s t : NoDup (required_args_ p).*1 -> s ∈ scenario_list -> t ∈ scenario_list -> accepts p s.2 = true -> accepts p t.2 = true -> s.1 = t.1.
Proof.
  intros Hp Hs Ht Has Hat. pose proof scenarios_ok as Hok. rewrite Forall_forall in Hok.
  destruct (scenarios_clash s t Hs Ht) as [?|[Hc|Hc]]; [done|exfalso; by eapply clash_excludes; [| | |exact Hc| |]; eauto..].
Qed.

Lemma validate_loop_unique p name sp l : (name, sp) ∈ l -> accepts p sp = true -> (forall s, s ∈ l -> accepts p s.2 = true -> s.1 = name) -> validate_loop p l = inr name.
Proof.
  intros Hin Ha Hu. induction l as [|[n sp'] l IH]; [by apply elem_of_nil in Hin|]. cbn [validate_loop].
  assert (forall s, s ∈ l -> accepts p s.2 = true -> s.1 = name) as Hu' by (intros s Hs; apply Hu; by apply list_elem_of_further).
  pose proof (Hu (n, sp') (list_elem_of_here _ _)) as Hn. unfold accepts in Hn. cbn [fst snd] in Hn. apply elem_of_cons in Hin as [[= -> ->]|Hin].
  - unfold accepts in Ha. destruct (_ || _); [done|]. cbn [negb andb] in Ha. by rewrite Ha.
  - destruct (_ || _); [by apply IH|]. cbn [negb andb] in Hn. destruct (DoesScenarioMatch p sp'); [by rewrite Hn|by apply IH].
Qed.

(** ** The switches of a parser are different *)

Definition parser_sorted (p : CommandLineParser) : Prop := StronglySorted key_lt (required_args_ p) /\ StronglySorted key_lt (optional_args_ p).
Lemma AddSwitch_sorted name m : StronglySorted key_lt m -> StronglySorted key_lt (Args_AddSwitch name m).2.
Proof. intros Hm. unfold Args_AddSwitch. destruct (map_find name m); [done|]. by apply map_put_sorted. Qed.
Lemma AddSwitchArgument_sorted name value m : StronglySorted key_lt m -> StronglySorted key_lt (Args_AddSwitchArgument name value m).2.
Proof. intros Hm. unfold Args_AddSwitchArgument. destruct (IsEmpty name); [done|]. destruct (map_find name m); [|done]. by apply map_put_sorted. Qed.
Lemma on_sorted (f : CommandLineParserArgs -> HRESULT * CommandLineParserArgs) p : (forall m, StronglySorted key_lt m -> StronglySorted key_lt (f m).2) -> parser_sorted p ->
  parser_sorted (on_required f p).2 /\ parser_sorted (on_optional f p).2.
Proof.
  intros Hf [Hr Ho]. unfold on_required, on_optional. pose proof (Hf _ Hr) as Hfr. pose proof (Hf _ Ho) as Hfo.
  destruct (f (required_args_ p)), (f (optional_args_ p)). by repeat split.
Qed.
Lemma parse_loop_sorted argv : forall cur opt p, parser_sorted p -> parser_sorted (parse_loop argv cur opt p).2.
Proof.
  induction argv as [|arg argv IH]; intros cur opt p Hp; [done|]. cbn [parse_loop]. destruct (IsSwitch _).
  { destruct (StripSwitchNameFromArgv _) as [hr|name]; [done|]. destruct (on_sorted (Args_AddSwitch name) p (AddSwitch_sorted name) Hp) as [Hs _].
    destruct (on_required _ p) as [hr p']. destruct (FAILED hr); [done|by apply IH]. }
  destruct (IsOptionalSwitch _).
  { destruct (StripOptionalSwitchNameFromArgv _) as [hr|name]; [done|]. destruct (on_sorted (Args_AddSwitch name) p (AddSwitch_sorted name) Hp) as [_ Hs].
    destruct (on_optional _ p) as [hr p']. destruct (FAILED hr); [done|by apply IH]. }
  destruct (on_sorted (Args_AddSwitchArgument cur (trim_blanks arg)) p (AddSwitchArgument_sorted cur (trim_blanks arg)) Hp) as [Hs1 Hs2].
  assert (parser_sorted ((if opt then on_optional else on_required) (Args_AddSwitchArgument cur (trim_blanks arg)) p).2) as Hs by (by destruct opt).
  destruct ((if opt then on_optional else on_required) _ p) as [hr p']. destruct (FAILED hr); [done|by apply IH].
Qed.


Section Theorems.
Context `{GuidOps, UrlCodec, ShellApi}.

Lemma ParseFromString_sorted cmd_line p : parser_sorted p -> parser_sorted (ParseFromString cmd_line p).2.
Proof.
  intros Hp. unfold ParseFromString. cbv zeta. destruct (CommandLineToArgvW _) as [hr|[|prog argv]]; [done|done|].
  unfold ParseFromArgv. apply parse_loop_sorted. split; constructor.
Qed.
Lemma init_sorted : parser_sorted CommandLineParser_init.
Proof. split; constructor. Qed.

Lemma Setup_scenarios : scenarios_ (validator_ Setup) = scenario_list.
Proof. rewrite Setup_eq. reflexivity. Qed.
Lemma Validate_accepts p name : parser_sorted p ->
  Validator_Validate p (validator_ Setup) = inr name <-> exists sp, (name, sp) ∈ scenarios_ (validator_ Setup) /\ accepts p sp = true.
Proof.
  intros [Hp%sorted_NoDup _]. unfold Validator_Validate. rewrite Setup_scenarios. split.
  - generalize scenario_list. intros l. induction l as [|[n sp] l IH]; [done|]. cbn [validate_loop]. destruct (_ || _) eqn:Hg.
    { intros (sp' & Hin & Ha)%IH. exists sp'. split; [by apply list_elem_of_further|done]. }
    destruct (DoesScenarioMatch p sp) eqn:Hm.
    + intros [= <-]. exists sp. split; [apply list_elem_of_here|]. unfold accepts. by rewrite Hg, Hm.
    + intros (sp' & Hin & Ha)%IH. exists sp'. split; [by apply list_elem_of_further|done].
  - intros (sp & Hin & Ha). apply (validate_loop_unique p name sp); [done|done|]. intros s Hs Has. exact (accepts_unique p s (name, sp) Hp Hs Hin Has Ha).
Qed.

(** C22. The rules for command lines exclude each other: whatever the command line, the
    scenario that is found is the only one that accepts it, so that the mode goopdate
    runs in does not depend on the order in which the scenarios are tried. *)
Theorem scenarios_exclude_each_other cmd_line name :
  let p := (ParseFromString cmd_line CommandLineParser_init).2 in
  (Validator_Validate p (validator_ Setup) = inr name <-> exists sp, (name, sp) ∈ scenarios_ (validator_ Setup) /\ accepts p sp = true) /\
  (forall s t, s ∈ scenarios_ (validator_ Setup) -> t ∈ scenarios_ (validator_ Setup) -> accepts p s.2 = true -> accepts p t.2 = true -> s.1 = t.1).
Proof.
  intros p. pose proof (ParseFromString_sorted cmd_line _ init_sorted) as Hs. fold p in Hs. split; [by apply Validate_accepts|].
  rewrite Setup_scenarios. intros s t. apply accepts_unique. by apply sorted_NoDup, Hs.
Qed.

Lemma Validate_rule i p a sp : let name := _T "scenario_" ++ decimal (Z.of_nat i + 1) in
  map_find name scenario_list = Some sp -> map_find name scenario_setup.2 = Some i -> parser_sorted p -> accepts p sp = true ->
  Goopdate_Validate Setup p a = nth i rules.*2 OnNoArgs p a.
Proof.
  intros name Hsp Hi Hs Ha. unfold Goopdate_Validate. rewrite (proj2 (Validate_accepts p name Hs)).
  - rewrite Setup_eq. cbn [scenario_handlers_]. rewrite map_find_map, Hi. reflexivity.
  - exists sp. split; [|done]. rewrite Setup_scenarios. by apply map_find_elem.
Qed.
End Theorems.
