(* ===== verification/CommandLineBuilt.v ===== *)
(** Command lines that the builder writes are read back: the parser finds the
    scenario of the mode, and the properties that were set. *)

From Stdlib Require Import Sorting.Sorted.
From S2P Require Import Prelude Hresult CStrings Maps Paths Text Policy PolicyFacts ExtraArgs ExtraArgsFacts CommandLine CommandLineFacts.

(** ** Switches with their values *)

(** A switch that may be there, with the values it has then. *)
Definition group : Type := bool * (CString * list argument).
Definition group_args (g : group) : list argument := if g.1 then Bare (47 :: g.2.1) :: g.2.2 else [].
Definition group_values (g : group) : list (CString * list CString) := if g.1 then [(g.2.1, arg_value <$> g.2.2)] else [].
Definition group_name (g : group) : CString := g.2.1.

Definition good_switch (n : CString) : bool :=
  bool_decide (trim_blanks (47 :: n) = 47 :: n) && IsSwitch (47 :: n) && bool_decide (MakeLower (trim_blanks n) = n) && negb (IsEmpty n)
  && forallb (fun c => (32 <? c) && negb (c =? 34)) n.
(** What an argument must not look like to be a value. *)
Definition plain_value (v : CString) : Prop := trim_blanks v = v /\ IsSwitch v = false /\ IsOptionalSwitch v = false.
Definition argument_ok (a : argument) : Prop := well_formed a /\ plain_value (arg_value a).

Lemma Right_tail c s : Right (c :: s) (GetLength (c :: s) - 1) = s.
Proof. unfold Right, GetLength. cbn [length]. replace (S (length s) - Z.to_nat (Z.of_nat (S (length s)) - 1))%nat with 1%nat by lia. done. Qed.
Lemma good_switch_spec n : good_switch n = true -> trim_blanks (47 :: n) = 47 :: n /\ IsSwitch (47 :: n) = true /\ StripSwitchNameFromArgv (47 :: n) = inr n /\ n <> [] /\
  well_formed (Bare (47 :: n)).
Proof.
  unfold good_switch. intros [[[[H1%bool_decide_eq_true H2]%andb_true_iff H3%bool_decide_eq_true]%andb_true_iff H4]%andb_true_iff H5]%andb_true_iff.
  split_and!; [done|done| |by destruct n|]. { unfold StripSwitchNameFromArgv. rewrite H2, Right_tail. cbn [negb]. by rewrite H3. }
  split; [done|]. constructor; [lia|]. rewrite forallb_forall in H5. apply List.Forall_forall. intros c Hc. specialize (H5 c Hc). lia.
Qed.

Definition put_groups (gs : list (CString * list CString)) (m : CommandLineParserArgs) : CommandLineParserArgs := fold_left (fun m g => map_put g.1 g.2 m) gs m.

Lemma parse_switch n argv cur opt m o : good_switch n = true -> map_find n m = None ->
  parse_loop ((47 :: n) :: argv) cur opt (mkCommandLineParser m o) = parse_loop argv n false (mkCommandLineParser (map_put n [] m) o).
Proof.
  intros (Ht & Hs & Hn & _)%good_switch_spec Hf. cbn [parse_loop]. rewrite Ht, Hs, Hn. unfold on_required, Args_AddSwitch. cbn [required_args_ optional_args_]. rewrite Hf. done.
Qed.
Lemma parse_values vs : forall n argv ws m o, Forall plain_value vs -> n <> [] ->
  parse_loop (vs ++ argv) n false (mkCommandLineParser (map_put n ws m) o) = parse_loop argv n false (mkCommandLineParser (map_put n (ws ++ vs) m) o).
Proof.
  induction vs as [|v vs IH]; intros n argv ws m o Hv Hn; [by rewrite app_nil_r|]. apply Forall_cons in Hv as [(Ht & Hs & Ho) Hv].
  cbn [app parse_loop]. rewrite Ht, Hs, Ho. unfold on_required, Args_AddSwitchArgument. cbn [required_args_ optional_args_].
  rewrite (proj2 (IsEmpty_false n) Hn), map_find_put, decide_True by done. change (FAILED S_OK) with false. cbv iota. rewrite map_put_put, IH by done.
  by rewrite <- app_assoc.
Qed.

Lemma parse_groups gs : forall cur opt m o, Forall (fun g => good_switch g.1 = true /\ Forall plain_value g.2) gs -> NoDup gs.*1 -> Forall (fun g => map_find g.1 m = None) gs ->
  parse_loop (concat ((fun g => (47 :: g.1) :: g.2) <$> gs)) cur opt (mkCommandLineParser m o) = (S_OK, mkCommandLineParser (put_groups gs m) o).
Proof.
  induction gs as [|[n vs] gs IH]; intros cur opt m o Hg Hn Hm; [done|]. apply Forall_cons in Hg as [[Hgn Hgv] Hg]. apply NoDup_cons in Hn as [Hn Hns]. apply Forall_cons in Hm as [Hf Hm].
  cbn [fst snd] in *. cbn [fmap list_fmap concat app]. rewrite parse_switch by done. rewrite parse_values by (done || by apply good_switch_spec). cbn [app]. rewrite IH; [done|done|done|].
  apply Forall_forall. intros g Hgin. rewrite Forall_forall in Hm. rewrite map_find_put, decide_False; [by apply Hm|]. intros He. apply Hn. apply list_elem_of_fmap. exists g. by split.
Qed.

Lemma put_groups_find gs : forall m k, NoDup gs.*1 -> map_find k (put_groups gs m) = match map_find k gs with Some v => Some v | None => map_find k m end.
Proof.
  induction gs as [|[n vs] gs IH]; intros m k Hn; [done|]. cbn [fmap list_fmap] in Hn. apply NoDup_cons in Hn as [Hn Hns]. unfold put_groups. cbn [fold_left fst snd]. fold (put_groups gs (map_put n vs m)).
  rewrite IH, map_find_put by done. cbn [map_find]. destruct (decide (n = k)) as [->|]; [|done]. by rewrite (proj2 (map_find_None k gs)).
Qed.
Lemma put_groups_elem gs : forall m g, g ∈ put_groups gs m -> g ∈ gs \/ g ∈ m.
Proof.
  induction gs as [|[n vs] gs IH]; intros m g Hg; [by right|]. apply IH in Hg as [Hg|[->|Hg]%map_put_elem]; [left; by apply list_elem_of_further|left; apply list_elem_of_here|by right].
Qed.
Lemma put_groups_sorted gs : forall m, StronglySorted key_lt m -> StronglySorted key_lt (put_groups gs m).
Proof. induction gs as [|g gs IH]; intros m Hm; [done|]. apply IH. by apply map_put_sorted. Qed.

(** ** The values that are found *)

Fixpoint find_on (k : CString) (gs : list group) : option (list CString) :=
  match gs with
  | [] => None
  | (there, (n, vs)) :: gs => if decide (n = k) then (if there then Some (arg_value <$> vs) else None) else find_on k gs
  end.
Definition active (gs : list group) : list (CString * list CString) := concat (group_values <$> gs).
Definition parser_of (gs : list group) : CommandLineParser := mkCommandLineParser (put_groups (active gs) []) [].

Lemma active_names gs : sublist (active gs).*1 (group_name <$> gs).
Proof.
  induction gs as [|[[|] [n vs]] gs IH]; [done| |].
  - unfold active in *. cbn. by apply sublist_skip.
  - unfold active in *. cbn. by apply sublist_cons.
Qed.
Lemma active_NoDup gs : NoDup (group_name <$> gs) -> NoDup (active gs).*1.
Proof. intros Hn. eapply sublist_NoDup; [exact Hn|apply active_names]. Qed.
Lemma find_on_active k gs : NoDup (group_name <$> gs) -> map_find k (active gs) = find_on k gs.
Proof.
  induction gs as [|[there [n vs]] gs IH]; [done|]. cbn [fmap list_fmap]. rewrite NoDup_cons. intros [Hn Hns]. unfold active in *. cbn [fmap list_fmap concat find_on].
  change (group_values (there, (n, vs))) with (if there then [(n, arg_value <$> vs)] else []). destruct there; cbn [app map_find]; destruct (decide (n = k)) as [->|]; [done|by apply IH| |by apply IH].
  apply map_find_None. intros Hin. apply Hn. exact (elem_of_sublist _ _ _ Hin (active_names gs)).
Qed.
Lemma parser_of_find k gs : NoDup (group_name <$> gs) -> map_find k (required_args_ (parser_of gs)) = find_on k gs.
Proof. intros Hn. cbn [parser_of required_args_]. rewrite put_groups_find by (by apply active_NoDup). rewrite find_on_active by done. by destruct (find_on k gs). Qed.

(** The switches fit a scenario. *)
Definition fits (gs : list group) (sp : ScenarioParameters) : bool :=
  forallb (fun x => existsb (fun g => g.1 && bool_decide (g.2.1 = switch_name_ x) && (length g.2.2 =? num_required_parameters_ x)%nat) gs) (sp_required sp)
  && forallb (fun g => existsb (fun y => bool_decide (switch_name_ y = g.2.1) && (num_required_parameters_ y =? length g.2.2)%nat) (sp_all sp)) gs.

Lemma find_on_elem g gs : NoDup (group_name <$> gs) -> g ∈ gs -> find_on (group_name g) gs = if g.1 then Some (arg_value <$> g.2.2) else None.
Proof.
  induction gs as [|[there [n vs]] gs IH]; [intros _ []%elem_of_nil|]. cbn [fmap list_fmap]. rewrite NoDup_cons, elem_of_cons. intros [Hn Hns] [->|Hg]; cbn [find_on group_name fst snd].
  - by rewrite decide_True.
  - rewrite decide_False; [by apply IH|]. intros He. apply Hn. change (group_name (there, (n, vs))) with n. rewrite He. by apply (list_elem_of_fmap_2 group_name).
Qed.

Lemma fits_accepts gs sp : NoDup (group_name <$> gs) -> scenario_ok sp -> fits gs sp = true -> accepts (parser_of gs) sp = true.
Proof.
  intros Hn Hsp [Hreq Hall]%andb_true_iff. rewrite forallb_forall in Hreq, Hall.
  assert (forall x v, map_find (switch_name_ x) (required_args_ (parser_of gs)) = Some v -> length v = num_required_parameters_ x -> right (parser_of gs) x) as Hright by (intros x v; by exists v).
  apply accepts_spec; [|done|].
  { apply sorted_NoDup, put_groups_sorted. constructor. }
  split.
  - apply List.Forall_forall. intros x Hx. apply Hreq, existsb_exists in Hx as (g & Hg%list_elem_of_In & [[Hg1 Hg2%bool_decide_eq_true]%andb_true_iff Hg3%Nat.eqb_eq]%andb_true_iff).
    apply (Hright x (arg_value <$> g.2.2)); [|by rewrite length_fmap]. rewrite parser_of_find, <- Hg2 by done. pose proof (find_on_elem g gs Hn Hg) as Hf. by rewrite Hg1 in Hf.
  - apply Forall_forall. intros [k v] [Hkv|Hkv]%put_groups_elem; [|by apply elem_of_nil in Hkv]. unfold active in Hkv. apply list_elem_of_In, in_concat in Hkv as (l & Hl & Hin).
    apply in_map_iff in Hl as (g & <- & Hg). unfold group_values in Hin. destruct g as [[|] [n vs]]; [|done]. cbn in Hin. destruct Hin as [[= <- <-]|[]].
    pose proof (Hall _ Hg) as (y & Hy & [Hy1%bool_decide_eq_true Hy2%Nat.eqb_eq]%andb_true_iff)%existsb_exists. cbn [fst snd] in *. exists y. split_and!; [by apply list_elem_of_In|done|].
    apply (Hright y (arg_value <$> vs)); [|by rewrite length_fmap]. rewrite parser_of_find, Hy1 by done. apply list_elem_of_In in Hg. exact (find_on_elem _ gs Hn Hg).
Qed.

(** ** The text *)

Lemma arg_text_last a : well_formed a -> exists t d, arg_text a = t ++ [d] /\ d <> 32.
Proof.
  destruct a as [s|s]; cbn [arg_text well_formed]; [|intros _; exists (34 :: s), 34; split; [done|lia]].
  intros [Hs Hf]. destruct s as [|d s _] using rev_ind; [done|]. exists s, d. split; [done|]. apply Forall_app in Hf as [_ Hd]. apply Forall_inv in Hd. lia.
Qed.
Lemma arg_text_chars a : well_formed a -> Forall (fun c => 0 < c) (arg_text a).
Proof.
  destruct a as [s|s]; cbn [arg_text well_formed].
  - intros [_ Hf]. eapply Forall_impl; [exact Hf|]. cbn. lia.
  - intros [Hf _]. constructor; [lia|]. apply Forall_app. split; [eapply Forall_impl; [exact Hf|]; cbn; lia|]. constructor; [lia|constructor].
Qed.
Definition args_text (args : list argument) : CString := concat ((fun a => 32 :: arg_text a) <$> args).
Lemma args_text_chars args : Forall well_formed args -> Forall (fun c => 0 < c) (args_text args).
Proof.
  unfold args_text. induction 1 as [|a args Ha Hargs IH]; [constructor|]. cbn [fmap list_fmap concat]. apply Forall_app. split; [|done]. constructor; [lia|]. by apply arg_text_chars.
Qed.
Lemma quoted_text_trim prog args : well_formed (Quoted prog) -> Forall well_formed args ->
  trim_blanks (c_str (command_text (Quoted prog) args)) = command_text (Quoted prog) args.
Proof.
  intros Hp Ha. assert (c_str (command_text (Quoted prog) args) = command_text (Quoted prog) args) as ->.
  { unfold c_str. apply take_while_all. apply forallb_forall. intros c Hc%list_elem_of_In. assert (0 < c); [|by destruct (Z.eqb_spec c 0); [lia|]].
    unfold command_text in Hc. apply elem_of_app in Hc as [Hc|Hc].
    - pose proof (arg_text_chars _ Hp) as Hf. rewrite Forall_forall in Hf. by apply Hf.
    - pose proof (args_text_chars _ Ha) as Hf. rewrite Forall_forall in Hf. by apply Hf. }
  unfold command_text. destruct args as [|a args _] using rev_ind.
  - cbn [fmap list_fmap concat arg_text]. rewrite app_nil_r. apply trim_blanks_id; lia.
  - apply Forall_app in Ha as [_ Ha%Forall_inv]. destruct (arg_text_last a Ha) as (t & d & Ht & Hd). rewrite fmap_app, concat_app. cbn [fmap list_fmap concat]. rewrite Ht, app_nil_r.
    cbn [arg_text]. change (32 :: t ++ [d]) with ((32 :: t) ++ [d]). rewrite (app_assoc (concat _)), (app_assoc (34 :: prog ++ [34])).
    change ((34 :: prog ++ [34]) ++ ?x) with (34 :: (prog ++ [34]) ++ x). rewrite <- app_comm_cons. apply trim_blanks_id; [lia|done].
Qed.

(** A program or value that gets quotes. *)
Lemma EnclosePath_text s : s <> [] -> well_formed (Quoted s) -> EnclosePath s = arg_text (Quoted s).
Proof.
  intros Hs [Hf _]. destruct s as [|c s]; [done|]. unfold EnclosePath. apply Forall_cons in Hf as [Hc _]. rewrite (proj2 (Z.eqb_neq c 34)) by apply Hc. done.
Qed.

Section Built.
Context `{GuidOps, UrlCodec, ShellApi}.

Definition names_ok (gs : list group) : bool := bool_decide (NoDup (group_name <$> gs)) && forallb (fun g => good_switch (group_name g)) gs.
Definition groups_ok (gs : list group) : Prop := Forall (fun g => g.1 = true -> Forall argument_ok g.2.2) gs.

Lemma groups_well_formed gs : names_ok gs = true -> groups_ok gs -> Forall well_formed (concat (group_args <$> gs)).
Proof.
  intros [_ Hn]%andb_true_iff Hg. rewrite forallb_forall in Hn. apply Forall_concat, Forall_fmap, Forall_forall. intros g Hin. unfold group_args. cbn. destruct g as [[|] [n vs]]; [|constructor].
  cbn [fst snd]. constructor; [apply (good_switch_spec n), (Hn (true, (n, vs))); by apply list_elem_of_In|]. eapply Forall_forall in Hg; [|exact Hin].
  eapply Forall_impl; [by apply Hg|]. intros a Ha. apply Ha.
Qed.
Lemma groups_argv gs : arg_value <$> concat (group_args <$> gs) = concat ((fun g => (47 :: g.1) :: g.2) <$> active gs).
Proof.
  unfold active. induction gs as [|[[|] [n vs]] gs IH]; [done| |exact IH]. cbn [fmap list_fmap concat]. rewrite fmap_app.
  change (group_args (true, (n, vs))) with (Bare (47 :: n) :: vs). change (group_values (true, (n, vs))) with [(n, arg_value <$> vs)]. cbn [app fmap list_fmap concat fst snd].
  cbn [arg_value app]. f_equal. f_equal. exact IH.
Qed.

Lemma built_parsed prog gs : prog <> [] -> well_formed (Quoted prog) -> names_ok gs = true -> groups_ok gs ->
  ParseFromString (EnclosePath prog ++ args_text (concat (group_args <$> gs))) CommandLineParser_init = (S_OK, parser_of gs).
Proof.
  intros Hp0 Hp Hn Hg. pose proof (groups_well_formed gs Hn Hg) as Hw. rewrite EnclosePath_text by done. unfold ParseFromString.
  change (arg_text (Quoted prog) ++ args_text _) with (command_text (Quoted prog) (concat (group_args <$> gs))). rewrite quoted_text_trim by done. cbv zeta.
  change (IsEmpty (command_text _ _)) with false. cbv iota. rewrite CommandLineToArgvW_text by done. cbn [fmap list_fmap]. unfold ParseFromArgv.
  change (list_fmap _ _ arg_value ?x) with (arg_value <$> x). rewrite groups_argv. apply andb_true_iff in Hn as [Hnd%bool_decide_eq_true Hgood]. rewrite forallb_forall in Hgood.
  apply parse_groups; [|by apply active_NoDup|by apply Forall_true].
  apply Forall_forall. intros [n v] Hin. unfold active in Hin. apply list_elem_of_In, in_concat in Hin as (l & Hl & Hin). apply in_map_iff in Hl as (g & <- & Hgin).
  unfold group_values in Hin. pose proof (Hgood g Hgin) as Hgs. apply list_elem_of_In in Hgin. eapply Forall_forall in Hg; [|exact Hgin]. destruct g as [[|] [n' vs]]; [|done].
  cbn in Hin. destruct Hin as [[= <- <-]|[]]. cbn [fst snd]. split; [done|]. apply Forall_fmap. eapply Forall_impl; [by apply Hg|]. intros a Ha. apply Ha.
Qed.

Lemma built_validated i prog gs sp a : let name := _T "scenario_" ++ decimal (Z.of_nat i + 1) in
  map_find name scenario_list = Some sp -> map_find name scenario_setup.2 = Some i ->
  prog <> [] -> well_formed (Quoted prog) -> names_ok gs = true -> groups_ok gs -> fits gs sp = true ->
  ParseCommandLine (EnclosePath prog ++ args_text (concat (group_args <$> gs))) a = nth i rules.*2 OnNoArgs (parser_of gs) a.
Proof.
  intros name Hsp Hi Hp0 Hp Hn Hg Hf. unfold ParseCommandLine. rewrite built_parsed by done. change (FAILED S_OK) with false. cbv iota.
  apply (Validate_rule i _ _ sp Hsp Hi).
  - split; [apply put_groups_sorted|]; constructor.
  - apply fits_accepts; [|apply (proj1 (Forall_forall _ _) scenarios_ok (name, sp)); by apply map_find_elem|done]. apply andb_true_iff in Hn as [Hn _]. by apply bool_decide_eq_true in Hn.
Qed.

(** ** The handlers *)

Lemma MakeLower_idempotent s : MakeLower (MakeLower s) = MakeLower s.
Proof.
  unfold MakeLower. rewrite <- list_fmap_compose. apply list_fmap_ext. intros _ c _. unfold String_ToLowerChar. cbn. repeat case_match; lia.
Qed.
Lemma fetch_given gs name set a v : NoDup (group_name <$> gs) -> find_on (MakeLower name) gs = Some [v] -> fetch name set (parser_of gs) a = (S_OK, set v a).
Proof.
  intros Hn Hf. unfold fetch, Args_GetSwitchArgumentValue, Args_GetSwitchArgumentCount. rewrite MakeLower_idempotent, parser_of_find, Hf by done. done.
Qed.
Lemma fetch_optional gs name set a v : NoDup (group_name <$> gs) -> find_on (MakeLower name) gs = (if negb (IsEmpty v) then Some [v] else None) -> set [] a = a ->
  (fetch name set (parser_of gs) a).2 = set v a.
Proof.
  intros Hn Hf Hs. destruct v as [|c v]; cbn [IsEmpty negb] in Hf; [|by rewrite (fetch_given _ _ _ _ _ Hn Hf)].
  unfold fetch, Args_GetSwitchArgumentValue, Args_GetSwitchArgumentCount. rewrite MakeLower_idempotent, parser_of_find, Hf by done. done.
Qed.
Lemma HasSwitch_optional gs name vs (c : bool) : NoDup (group_name <$> gs) -> find_on (MakeLower name) gs = (if c then Some vs else None) -> HasSwitch name (parser_of gs) = c.
Proof. intros Hn Hf. unfold HasSwitch, Args_HasSwitch. rewrite parser_of_find, Hf by done. by destruct c. Qed.
End Built.

(** ** What is written and read back *)

Section Roundtrip.
Context `{GuidOps, UrlCodec, ShellApi}.

(** A property that is written in quotes, or bare, if it is set. *)
Definition quoted_ok (s : CString) : Prop := s <> [] -> argument_ok (Quoted s).
Definition bare_value_ok (s : CString) : Prop := s <> [] -> argument_ok (Bare s).

(** What the caller of the builder has to see to, for each mode. *)
Definition buildable (b : CommandLineBuilder) : Prop :=
  match cb_mode_ b with
  | COMMANDLINE_MODE_UNKNOWN => False
  | COMMANDLINE_MODE_INSTALL =>
      cb_extra_args_ b <> [] /\ quoted_ok (cb_extra_args_ b) /\ quoted_ok (cb_app_args_ b) /\ bare_value_ok (cb_install_source_ b) /\ quoted_ok (cb_session_id_ b)
  | COMMANDLINE_MODE_UPDATE => quoted_ok (cb_session_id_ b)
  | COMMANDLINE_MODE_HANDOFF_INSTALL =>
      cb_extra_args_ b <> [] /\ quoted_ok (cb_extra_args_ b) /\ quoted_ok (cb_app_args_ b) /\ bare_value_ok (cb_install_source_ b) /\ quoted_ok (cb_session_id_ b) /\
      quoted_ok (cb_offline_dir_name_ b) /\
      (cb_offline_dir_name_ b <> [] -> IsGuid (cb_offline_dir_name_ b) = true /\ Forall (fun c => c <> 92 /\ c <> 47 /\ c <> 58) (cb_offline_dir_name_ b))
  | COMMANDLINE_MODE_UA => cb_install_source_ b <> [] /\ bare_value_ok (cb_install_source_ b)
  | COMMANDLINE_MODE_REPORTCRASH =>
      cb_crash_filename_ b <> [] /\ quoted_ok (cb_crash_filename_ b) /\ quoted_ok (cb_custom_info_filename_ b) /\
      (cb_is_interactive_set_ b = true -> cb_custom_info_filename_ b = [])
  | COMMANDLINE_MODE_RECOVER => cb_code_red_metainstaller_path_ b <> [] /\ bare_value_ok (cb_code_red_metainstaller_path_ b)
  | COMMANDLINE_MODE_REGISTER_PRODUCT | COMMANDLINE_MODE_UNREGISTER_PRODUCT => cb_extra_args_ b <> [] /\ quoted_ok (cb_extra_args_ b) /\ cb_app_args_ b = []
  | COMMANDLINE_MODE_PING => cb_ping_string_ b <> [] /\ bare_value_ok (cb_ping_string_ b)
  | _ => True
  end.

(** The extra arguments are parsed in turn. *)
Definition with_extra (a : CommandLineArgs) : HRESULT * CommandLineArgs :=
  let '(hr, extra) := ExtraArgs_Parse (cl_extra_args_str a) (cl_app_args_str a) CommandLineExtraArgs_init in (hr, cl_with_extra extra a).

(** What the process that is started reads: the mode and the properties that the
    mode writes. *)
Definition read_back (b : CommandLineBuilder) : HRESULT * CommandLineArgs :=
  let a := cl_with_mode (cb_mode_ b) CommandLineArgs_init in
  let installing a :=
    cl_with_is_enterprise_set (cb_is_enterprise_set_ b) (cl_with_is_always_launch_cmd_set (cb_is_always_launch_cmd_set_ b) (cl_with_is_silent_set (cb_is_silent_set_ b)
      (cl_with_session_id (cb_session_id_ b) (cl_with_install_source (cb_install_source_ b) a)))) in
  let apps a := with_extra (cl_with_app_args_str (cb_app_args_ b) (cl_with_extra_args_str (cb_extra_args_ b) a)) in
  match cb_mode_ b with
  | COMMANDLINE_MODE_INSTALL => apps (installing a)
  | COMMANDLINE_MODE_UPDATE => (S_OK, cl_with_session_id (cb_session_id_ b) a)
  | COMMANDLINE_MODE_HANDOFF_INSTALL =>
      apps (cl_with_offline_dir_name (cb_offline_dir_name_ b) (cl_with_is_offline_set (negb (IsEmpty (cb_offline_dir_name_ b)))
        (cl_with_is_eula_required_set (cb_is_eula_required_set_ b) (installing a))))
  | COMMANDLINE_MODE_UA => (S_OK, cl_with_install_source (cb_install_source_ b) (cl_with_is_machine_set (cb_is_machine_set_ b) a))
  | COMMANDLINE_MODE_REPORTCRASH =>
      (S_OK, cl_with_custom_info_filename (cb_custom_info_filename_ b) (cl_with_crash_filename (cb_crash_filename_ b)
        (cl_with_is_machine_set (cb_is_machine_set_ b) (cl_with_is_interactive_set (cb_is_interactive_set_ b) a))))
  | COMMANDLINE_MODE_RECOVER => (S_OK, cl_with_code_red_metainstaller_path (cb_code_red_metainstaller_path_ b) a)
  | COMMANDLINE_MODE_REGISTER_PRODUCT | COMMANDLINE_MODE_UNREGISTER_PRODUCT => apps a
  | COMMANDLINE_MODE_PING => (S_OK, cl_with_ping_string (cb_ping_string_ b) a)
  | _ => (S_OK, a)
  end.

Definition some_value (form : CString -> argument) (name v : CString) : group := (negb (IsEmpty v), (name, [form v])).
Definition flag (c : bool) (name : CString) : group := (c, (name, [])).
Definition install_groups (mode_name : CString) (b : CommandLineBuilder) : list group :=
  [(true, (mode_name, [Quoted (cb_extra_args_ b)])); some_value Quoted kCmdLineAppArgs (cb_app_args_ b); some_value Bare kCmdLineInstallSource (cb_install_source_ b);
   some_value Quoted kCmdLineSessionId (cb_session_id_ b); flag (cb_is_silent_set_ b) kCmdLineSilent; flag (cb_is_always_launch_cmd_set_ b) kCmdLineAlwaysLaunchCmd].

Definition group_text (g : group) : CString := if g.1 then 32 :: 47 :: g.2.1 ++ args_text g.2.2 else [].
Lemma groups_text gs : args_text (concat (group_args <$> gs)) = concat (group_text <$> gs).
Proof.
  induction gs as [|[[|] [n vs]] gs IH]; [done| |exact IH]. cbn [fmap list_fmap concat]. unfold args_text in *. rewrite fmap_app, concat_app, IH. done.
Qed.
Lemma some_value_ok form name v : (v <> [] -> argument_ok (form v)) -> (some_value form name v).1 = true -> Forall argument_ok (some_value form name v).2.2.
Proof. cbn. intros Hv Hs. constructor; [|constructor]. apply Hv. by destruct v. Qed.
Lemma some_quoted_text name v : quoted_ok v -> group_text (some_value Quoted name v) = if negb (IsEmpty v) then append_value name (EnclosePath v) else [].
Proof.
  intros Hv. destruct v as [|c v]; [done|]. unfold group_text, append_value. cbn [some_value fst snd IsEmpty negb]. rewrite EnclosePath_text by (done || by apply Hv).
  unfold args_text. cbn [fmap list_fmap concat]. by rewrite app_nil_r.
Qed.
Lemma some_bare_text name v : group_text (some_value Bare name v) = if negb (IsEmpty v) then append_value name v else [].
Proof. destruct v as [|c v]; [done|]. unfold group_text, append_value, args_text. cbn [some_value fst snd IsEmpty negb fmap list_fmap concat arg_text]. by rewrite app_nil_r. Qed.
Lemma some_session_text name v : group_text (some_value Quoted name v) = if negb (IsEmpty v) then append_quoted name v else [].
Proof. destruct v as [|c v]; [done|]. unfold group_text, append_quoted, args_text. cbn [some_value fst snd IsEmpty negb fmap list_fmap concat arg_text]. by rewrite app_nil_r. Qed.
Lemma flag_text c name : group_text (flag c name) = if c then append_switch name else [].
Proof. destruct c; [|done]. unfold group_text, append_switch, args_text. cbn [flag fst snd fmap list_fmap concat]. by rewrite app_nil_r. Qed.

Lemma bare_text name v : _T " " ++ _T "/" ++ name ++ _T " " ++ v = concat (group_text <$> [(true, (name, [Bare v]))]).
Proof. unfold group_text, args_text. cbn [fmap list_fmap concat fst snd arg_text]. by rewrite !app_nil_r. Qed.
Lemma quoted_group_text name v : v <> [] -> argument_ok (Quoted v) -> group_text (true, (name, [Quoted v])) = append_value name (EnclosePath v).
Proof. intros Hv0 [Hv _]. rewrite EnclosePath_text by done. unfold group_text, append_value, args_text. cbn [fmap list_fmap concat fst snd]. by rewrite app_nil_r. Qed.

Lemma get_extra_args gs name extra app a : NoDup (group_name <$> gs) -> find_on (MakeLower name) gs = Some [extra] ->
  find_on (MakeLower kCmdLineAppArgs) gs = (if negb (IsEmpty app) then Some [app] else None) -> cl_extra a = CommandLineExtraArgs_init ->
  Validator_GetExtraAndAppArgs name (parser_of gs) a = with_extra (cl_with_app_args_str app (cl_with_extra_args_str extra a)).
Proof.
  intros Hn He Ha Hi. unfold Validator_GetExtraAndAppArgs. rewrite (fetch_given _ _ _ _ _ Hn He). change (FAILED S_OK) with false. cbv iota.
  assert ((let '(hr, a0) := fetch kCmdLineAppArgs cl_with_app_args_str (parser_of gs) (cl_with_extra_args_str extra a) in if FAILED hr then cl_with_app_args_str [] a0 else a0) =
    cl_with_app_args_str app (cl_with_extra_args_str extra a)) as Happ.
  { destruct app as [|c app]; cbn [IsEmpty negb] in Ha; [|by rewrite (fetch_given _ _ _ _ _ Hn Ha)].
    unfold fetch, Args_GetSwitchArgumentValue, Args_GetSwitchArgumentCount. rewrite MakeLower_idempotent, parser_of_find, Ha by done. done. }
  destruct (fetch kCmdLineAppArgs _ _ _) as [hr a1]. cbv zeta. rewrite Happ. unfold with_extra. cbn [cl_extra cl_with_app_args_str cl_with_extra_args_str]. by rewrite Hi.
Qed.
Lemma fetch_set gs name set a v : NoDup (group_name <$> gs) -> find_on (MakeLower name) gs = (if negb (IsEmpty v) then Some [v] else None) -> set [] a = a ->
  exists hr, fetch name set (parser_of gs) a = (hr, set v a).
Proof. intros Hn Hf Hs. exists (fetch name set (parser_of gs) a).1. rewrite <- (fetch_optional gs name set a v Hn Hf Hs). by destruct (fetch _ _ _ _). Qed.

Lemma one_value_ok name v : argument_ok v -> let g : group := (true, (name, [v])) in g.1 = true -> Forall argument_ok g.2.2.
Proof. intros Hv g _. by constructor. Qed.
Lemma flag_ok c name : (flag c name).1 = true -> Forall argument_ok (flag c name).2.2.
Proof. constructor. Qed.
Ltac groups :=
  unfold groups_ok; cbn [app install_groups]; repeat (apply Forall_cons; split); try apply Forall_nil_2;
  first [apply flag_ok|apply some_value_ok; assumption|apply one_value_ok].

(** The handlers look at switches that are there or not. *)
Ltac look gs Hnd :=
  repeat lazymatch goal with
  | |- context [fetch ?n ?set (parser_of gs) ?a] => destruct (fetch_set gs n set a _ Hnd eq_refl eq_refl) as [? ->]
  | |- context [HasSwitch ?n (parser_of gs)] => first [rewrite (HasSwitch_optional gs n [] false Hnd eq_refl)|rewrite (HasSwitch_optional gs n _ _ Hnd eq_refl)]
  end.

(** ** Modes with arguments *)

Section Mode.
Context (prog : CString) (Hp0 : prog <> []) (Hp : well_formed (Quoted prog)).

Lemma extra_text name b : cb_extra_args_ b <> [] -> quoted_ok (cb_extra_args_ b) -> quoted_ok (cb_app_args_ b) ->
  IsEmpty (GetExtraAndAppArgs name b) = false /\
  _T " " ++ GetExtraAndAppArgs name b = group_text (true, (name, [Quoted (cb_extra_args_ b)])) ++ group_text (some_value Quoted kCmdLineAppArgs (cb_app_args_ b)).
Proof.
  intros He0 He Ha. unfold GetExtraAndAppArgs. rewrite (proj2 (IsEmpty_false _) He0). split; [done|]. rewrite some_quoted_text by done. rewrite EnclosePath_text by (done || by apply He).
  unfold group_text, args_text. cbn [fst snd fmap list_fmap concat]. rewrite app_nil_r. change (_T " " ++ _T "/" ++ ?x) with (32 :: 47 :: x). cbn [app]. by rewrite <- !app_assoc.
Qed.

Lemma install_roundtrip b : cb_mode_ b = COMMANDLINE_MODE_INSTALL -> buildable b -> ParseCommandLine (GetCommandLine prog b) CommandLineArgs_init = read_back b.
Proof.
  intros Hm Hb. unfold buildable in Hb. rewrite Hm in Hb. destruct Hb as (He0 & He & Ha & Hs & Hi). destruct (extra_text kCmdLineInstall b He0 He Ha) as [Hne Ht].
  set (gs := install_groups kCmdLineInstall b ++ [flag (cb_is_enterprise_set_ b) kCmdLineEnterprise]).
  assert (GetCommandLine prog b = EnclosePath prog ++ args_text (concat (group_args <$> gs))) as ->.
  { unfold GetCommandLine, GetCommandLineArgs. rewrite Hm, groups_text. f_equal. unfold GetInstall. rewrite Hne, app_assoc, Ht. unfold gs, install_groups.
    cbn [app fmap list_fmap concat]. rewrite some_bare_text, !some_session_text, !flag_text, app_nil_r. by rewrite <- !app_assoc. }
  assert (names_ok gs = true) as Hn by (vm_compute; reflexivity). pose proof Hn as [Hnd%bool_decide_eq_true _]%andb_true_iff.
  erewrite (built_validated 13); [|reflexivity|reflexivity|done|done|done| |vm_compute; reflexivity].
  2: { groups. by apply He. }
  change (nth 13 _ _) with OnInstall. unfold OnInstall. look gs Hnd. unfold read_back. rewrite Hm.
  apply get_extra_args; done.
Qed.

Lemma handoff_roundtrip b : cb_mode_ b = COMMANDLINE_MODE_HANDOFF_INSTALL -> buildable b -> ParseCommandLine (GetCommandLine prog b) CommandLineArgs_init = read_back b.
Proof.
  intros Hm Hb. unfold buildable in Hb. rewrite Hm in Hb. destruct Hb as (He0 & He & Ha & Hs & Hi & Ho & Hg). destruct (extra_text kCmdLineAppHandoffInstall b He0 He Ha) as [Hne Ht].
  set (gs := install_groups kCmdLineAppHandoffInstall b ++ [flag (cb_is_eula_required_set_ b) kCmdLineEulaRequired; flag (cb_is_enterprise_set_ b) kCmdLineEnterprise;
    some_value Quoted kCmdLineOfflineDir (cb_offline_dir_name_ b)]).
  assert (GetCommandLine prog b = EnclosePath prog ++ args_text (concat (group_args <$> gs))) as ->.
  { unfold GetCommandLine, GetCommandLineArgs. rewrite Hm, groups_text. f_equal. unfold GetHandoffInstall. rewrite Hne, app_assoc, Ht. unfold gs, install_groups.
    cbn [app fmap list_fmap concat]. rewrite some_bare_text, !some_session_text, !flag_text, app_nil_r. by rewrite <- !app_assoc. }
  assert (names_ok gs = true) as Hn by (vm_compute; reflexivity). pose proof Hn as [Hnd%bool_decide_eq_true _]%andb_true_iff.
  erewrite (built_validated 15); [|reflexivity|reflexivity|done|done|done| |vm_compute; reflexivity].
  2: { groups. by apply He. }
  change (nth 15 _ _) with OnInstallHandoffWorker. unfold OnInstallHandoffWorker. look gs Hnd. unfold read_back. rewrite Hm. cbn [orb].
  unfold Args_GetSwitchArgumentValue, Args_GetSwitchArgumentCount. rewrite MakeLower_idempotent, parser_of_find by done.
  replace (find_on (MakeLower kCmdLineOfflineDir) gs) with (if negb (IsEmpty (cb_offline_dir_name_ b)) then Some [cb_offline_dir_name_ b] else None) by reflexivity.
  destruct (cb_offline_dir_name_ b) as [|c dir] eqn:Hdir; cbn [IsEmpty negb fmap option_fmap option_map length Nat.leb lookup list_lookup].
  - change (FAILED S_OK) with false. cbv iota. rewrite (get_extra_args gs _ (cb_extra_args_ b) (cb_app_args_ b)); [reflexivity|exact Hnd|reflexivity|reflexivity|reflexivity].
  - destruct Hg as [Hguid Hplain]; [done|]. unfold SetOfflineDirName. rewrite PathStripPath_name by done. unfold IsGuid in Hguid. destruct (StringToGuidSafe (c :: dir)); [|done].
    change (FAILED S_OK) with false. cbv iota. rewrite (get_extra_args gs _ (cb_extra_args_ b) (cb_app_args_ b)); [reflexivity|exact Hnd|reflexivity|reflexivity|reflexivity].
Qed.

(** The text of the switches of a mode, and the rule that accepts them. *)
Lemma mode_read i gs sp b a : let name := _T "scenario_" ++ decimal (Z.of_nat i + 1) in
  map_find name scenario_list = Some sp -> map_find name scenario_setup.2 = Some i -> names_ok gs = true -> fits gs sp = true -> groups_ok gs ->
  _T " " ++ GetCommandLineArgs b = concat (group_text <$> gs) -> ParseCommandLine (GetCommandLine prog b) a = nth i rules.*2 OnNoArgs (parser_of gs) a.
Proof.
  intros name Hsp Hi Hn Hf Hg Ht. unfold GetCommandLine. rewrite Ht, <- groups_text. by apply (built_validated i prog gs sp).
Qed.

Lemma extra_only name b : cb_extra_args_ b <> [] -> quoted_ok (cb_extra_args_ b) -> cb_app_args_ b = [] ->
  _T " " ++ GetExtraAndAppArgs name b = concat (group_text <$> [(true, (name, [Quoted (cb_extra_args_ b)]))]) /\ groups_ok [(true, (name, [Quoted (cb_extra_args_ b)]))].
Proof.
  intros He0 He Ha. destruct (extra_text name b He0 He ltac:(by rewrite Ha)) as [_ Ht]. rewrite Ha in Ht. split; [exact Ht|]. groups. by apply He.
Qed.
Lemma register_roundtrip b : cb_mode_ b = COMMANDLINE_MODE_REGISTER_PRODUCT -> buildable b -> ParseCommandLine (GetCommandLine prog b) CommandLineArgs_init = read_back b.
Proof.
  intros Hm Hb. unfold buildable in Hb. rewrite Hm in Hb. destruct Hb as (He0 & He & Ha). destruct (extra_only kCmdLineRegisterProduct b He0 He Ha) as [Ht Hok].
  set (gs := [_]) in *. assert (names_ok gs = true) as Hn by (vm_compute; reflexivity). pose proof Hn as [Hnd%bool_decide_eq_true _]%andb_true_iff.
  erewrite (mode_read 23 gs); [|reflexivity|reflexivity|exact Hn|vm_compute; reflexivity|exact Hok|unfold GetCommandLineArgs; rewrite Hm; exact Ht].
  change (nth 23 _ _) with OnRegisterProduct. unfold OnRegisterProduct.
  destruct (fetch_set gs kCmdLineInstallSource cl_with_install_source (cl_with_mode COMMANDLINE_MODE_REGISTER_PRODUCT CommandLineArgs_init) [] Hnd eq_refl eq_refl) as [? ->].
  unfold read_back. rewrite Hm, Ha. rewrite (get_extra_args gs _ (cb_extra_args_ b) []); [reflexivity|exact Hnd|reflexivity|reflexivity|reflexivity].
Qed.
Lemma unregister_roundtrip b : cb_mode_ b = COMMANDLINE_MODE_UNREGISTER_PRODUCT -> buildable b -> ParseCommandLine (GetCommandLine prog b) CommandLineArgs_init = read_back b.
Proof.
  intros Hm Hb. unfold buildable in Hb. rewrite Hm in Hb. destruct Hb as (He0 & He & Ha). destruct (extra_only kCmdLineUnregisterProduct b He0 He Ha) as [Ht Hok].
  set (gs := [_]) in *. assert (names_ok gs = true) as Hn by (vm_compute; reflexivity). pose proof Hn as [Hnd%bool_decide_eq_true _]%andb_true_iff.
  erewrite (mode_read 24 gs); [|reflexivity|reflexivity|exact Hn|vm_compute; reflexivity|exact Hok|unfold GetCommandLineArgs; rewrite Hm; exact Ht].
  change (nth 24 _ _) with OnUnregisterProduct. unfold OnUnregisterProduct, read_back.
  rewrite Hm, Ha. rewrite (get_extra_args gs _ (cb_extra_args_ b) []); [reflexivity|exact Hnd|reflexivity|reflexivity|reflexivity].
Qed.

Lemma update_roundtrip b : cb_mode_ b = COMMANDLINE_MODE_UPDATE -> buildable b -> ParseCommandLine (GetCommandLine prog b) CommandLineArgs_init = read_back b.
Proof.
  intros Hm Hb. unfold buildable in Hb. rewrite Hm in Hb. set (gs := [flag true kCmdLineUpdate; some_value Quoted kCmdLineSessionId (cb_session_id_ b)]).
  assert (names_ok gs = true) as Hn by (vm_compute; reflexivity). pose proof Hn as [Hnd%bool_decide_eq_true _]%andb_true_iff.
  erewrite (mode_read 14 gs); [|reflexivity|reflexivity|exact Hn|vm_compute; reflexivity|groups|].
  2: { unfold GetCommandLineArgs. rewrite Hm. unfold GetUpdate, gs. cbn [fmap list_fmap concat]. rewrite some_session_text, app_nil_r. reflexivity. }
  change (nth 14 _ _) with OnUpdate. unfold OnUpdate. look gs Hnd. unfold read_back. rewrite Hm. reflexivity.
Qed.
Lemma ua_roundtrip b : cb_mode_ b = COMMANDLINE_MODE_UA -> buildable b -> ParseCommandLine (GetCommandLine prog b) CommandLineArgs_init = read_back b.
Proof.
  intros Hm Hb. unfold buildable in Hb. rewrite Hm in Hb. destruct Hb as [Hs0 Hs].
  set (gs := [flag true kCmdLineUpdateApps; flag (cb_is_machine_set_ b) kCmdLineMachine; some_value Bare kCmdLineInstallSource (cb_install_source_ b)]).
  assert (names_ok gs = true) as Hn by (vm_compute; reflexivity). pose proof Hn as [Hnd%bool_decide_eq_true _]%andb_true_iff.
  erewrite (mode_read 16 gs); [|reflexivity|reflexivity|exact Hn|vm_compute; reflexivity|groups|].
  2: { unfold GetCommandLineArgs. rewrite Hm. unfold GetUA, gs. cbn [fmap list_fmap concat]. rewrite some_bare_text, flag_text, app_nil_r, (proj2 (IsEmpty_false _) Hs0). reflexivity. }
  change (nth 16 _ _) with OnUpdateApps. unfold OnUpdateApps. look gs Hnd. unfold read_back. rewrite Hm. reflexivity.
Qed.

Lemma recover_roundtrip b : cb_mode_ b = COMMANDLINE_MODE_RECOVER -> buildable b -> ParseCommandLine (GetCommandLine prog b) CommandLineArgs_init = read_back b.
Proof.
  intros Hm Hb. unfold buildable in Hb. rewrite Hm in Hb. destruct Hb as [Hv0 Hv]. set (gs := [(true, (kCmdLineRecover, [Bare (cb_code_red_metainstaller_path_ b)]))] : list group).
  assert (names_ok gs = true) as Hn by (vm_compute; reflexivity). pose proof Hn as [Hnd%bool_decide_eq_true _]%andb_true_iff.
  erewrite (mode_read 20 gs); [|reflexivity|reflexivity|exact Hn|vm_compute; reflexivity|groups; by apply Hv|].
  2: { unfold GetCommandLineArgs. rewrite Hm. unfold GetRecover. rewrite (proj2 (IsEmpty_false _) Hv0). apply bare_text. }
  change (nth 20 _ _) with OnRecover. unfold OnRecover, read_back. rewrite Hm. exact (fetch_given gs kCmdLineRecover _ _ (cb_code_red_metainstaller_path_ b) Hnd eq_refl).
Qed.
Lemma ping_roundtrip b : cb_mode_ b = COMMANDLINE_MODE_PING -> buildable b -> ParseCommandLine (GetCommandLine prog b) CommandLineArgs_init = read_back b.
Proof.
  intros Hm Hb. unfold buildable in Hb. rewrite Hm in Hb. destruct Hb as [Hv0 Hv]. set (gs := [(true, (kCmdLinePing, [Bare (cb_ping_string_ b)]))] : list group).
  assert (names_ok gs = true) as Hn by (vm_compute; reflexivity). pose proof Hn as [Hnd%bool_decide_eq_true _]%andb_true_iff.
  erewrite (mode_read 25 gs); [|reflexivity|reflexivity|exact Hn|vm_compute; reflexivity|groups; by apply Hv|].
  2: { unfold GetCommandLineArgs. rewrite Hm. apply bare_text. }
  change (nth 25 _ _) with OnPing. unfold OnPing, read_back. rewrite Hm. exact (fetch_given gs kCmdLinePing _ _ (cb_ping_string_ b) Hnd eq_refl).
Qed.

Lemma crash_roundtrip b : cb_mode_ b = COMMANDLINE_MODE_REPORTCRASH -> cb_is_interactive_set_ b = false -> buildable b ->
  ParseCommandLine (GetCommandLine prog b) CommandLineArgs_init = read_back b.
Proof.
  intros Hm Hi Hb. unfold buildable in Hb. rewrite Hm in Hb. destruct Hb as (Hf0 & Hf & Hc & _).
  set (gs := [(true, (kCmdLineReport, [Quoted (cb_crash_filename_ b)])); flag (cb_is_machine_set_ b) kCmdLineMachine; some_value Quoted kCmdLineCustomInfoFileName (cb_custom_info_filename_ b)]).
  assert (names_ok gs = true) as Hn by (vm_compute; reflexivity). pose proof Hn as [Hnd%bool_decide_eq_true _]%andb_true_iff.
  erewrite (mode_read 17 gs); [|reflexivity|reflexivity|exact Hn|vm_compute; reflexivity|groups; by apply Hf|].
  2: { unfold GetCommandLineArgs. rewrite Hm. unfold GetReportCrash, gs. rewrite (proj2 (IsEmpty_false _) Hf0), Hi. cbn [fmap list_fmap concat].
       rewrite (quoted_group_text kCmdLineReport _ Hf0 (Hf Hf0)), (some_quoted_text _ _ Hc), flag_text, app_nil_r. reflexivity. }
  change (nth 17 _ _) with OnReportCrash. unfold OnReportCrash, read_back. rewrite Hm, Hi, (HasSwitch_optional gs kCmdLineMachine _ _ Hnd eq_refl).
  destruct (fetch_set gs kCmdLineCustomInfoFileName cl_with_custom_info_filename
    (cl_with_is_machine_set (cb_is_machine_set_ b) (cl_with_mode COMMANDLINE_MODE_REPORTCRASH CommandLineArgs_init)) _ Hnd eq_refl eq_refl) as [? ->].
  rewrite (fetch_given gs kCmdLineReport _ _ (cb_crash_filename_ b) Hnd eq_refl). reflexivity.
Qed.
Lemma interactive_roundtrip b : cb_mode_ b = COMMANDLINE_MODE_REPORTCRASH -> cb_is_interactive_set_ b = true -> buildable b ->
  ParseCommandLine (GetCommandLine prog b) CommandLineArgs_init = read_back b.
Proof.
  intros Hm Hi Hb. unfold buildable in Hb. rewrite Hm in Hb. destruct Hb as (Hf0 & Hf & _ & Hc). specialize (Hc Hi).
  set (gs := [flag true kCmdLineReport; (true, (kCmdLineInteractive, [Quoted (cb_crash_filename_ b)])); flag (cb_is_machine_set_ b) kCmdLineMachine]).
  assert (names_ok gs = true) as Hn by (vm_compute; reflexivity). pose proof Hn as [Hnd%bool_decide_eq_true _]%andb_true_iff.
  erewrite (mode_read 18 gs); [|reflexivity|reflexivity|exact Hn|vm_compute; reflexivity|groups; by apply Hf|].
  2: { unfold GetCommandLineArgs. rewrite Hm. unfold GetReportCrash, gs. rewrite (proj2 (IsEmpty_false _) Hf0), Hi, Hc. cbn [fmap list_fmap concat IsEmpty negb].
       rewrite (quoted_group_text kCmdLineInteractive _ Hf0 (Hf Hf0)), !flag_text, !app_nil_r. reflexivity. }
  change (nth 18 _ _) with OnReportCrashInteractive. unfold OnReportCrashInteractive, read_back. rewrite Hm, Hi, Hc, (HasSwitch_optional gs kCmdLineMachine _ _ Hnd eq_refl).
  rewrite (fetch_given gs kCmdLineInteractive _ _ (cb_crash_filename_ b) Hnd eq_refl). reflexivity.
Qed.

(** ** Modes with one switch, and without *)

(** The name of the switch, and the number of the rule. *)
Definition single_switch (mode : CommandLineMode) : option (CString * nat) :=
  match mode with
  | COMMANDLINE_MODE_CORE => Some (kCmdLineCore, 1%nat)
  | COMMANDLINE_MODE_CRASH_HANDLER => Some (kCmdLineCrashHandler, 2%nat)
  | COMMANDLINE_MODE_SERVICE => Some (kCmdLineService, 3%nat)
  | COMMANDLINE_MODE_MEDIUM_SERVICE => Some (kCmdLineMediumService, 4%nat)
  | COMMANDLINE_MODE_SERVICE_REGISTER => Some (kCmdLineRegisterService, 5%nat)
  | COMMANDLINE_MODE_SERVICE_UNREGISTER => Some (kCmdLineUnregisterService, 6%nat)
  | COMMANDLINE_MODE_REGSERVER => Some (kCmdRegServer, 7%nat)
  | COMMANDLINE_MODE_UNREGSERVER => Some (kCmdUnregServer, 8%nat)
  | COMMANDLINE_MODE_CRASH => Some (kCmdLineCrash, 9%nat)
  | COMMANDLINE_MODE_COMBROKER => Some (_T "broker", 11%nat)
  | COMMANDLINE_MODE_ONDEMAND => Some (_T "ondemand", 12%nat)
  | COMMANDLINE_MODE_CODE_RED_CHECK => Some (kCmdLineCodeRedCheck, 19%nat)
  | COMMANDLINE_MODE_UNINSTALL => Some (kCmdLineUninstall, 22%nat)
  | COMMANDLINE_MODE_HEALTH_CHECK => Some (kCmdLineHealthCheck, 26%nat)
  | _ => None
  end.
Lemma single_roundtrip b name i : single_switch (cb_mode_ b) = Some (name, i) -> ParseCommandLine (GetCommandLine prog b) CommandLineArgs_init = read_back b.
Proof.
  intros Hs. assert (_T " " ++ GetCommandLineArgs b = concat (group_text <$> [flag true name])) as Ht.
  { cbn [fmap list_fmap concat]. rewrite flag_text, app_nil_r. unfold GetCommandLineArgs. destruct (cb_mode_ b); try discriminate Hs; injection Hs as <- <-; vm_compute; reflexivity. }
  set (scenario := _T "scenario_" ++ decimal (Z.of_nat i + 1)). assert (exists sp, map_find scenario scenario_list = Some sp /\ fits [flag true name] sp = true) as (sp & Hsp & Hfit).
  { destruct (cb_mode_ b); try discriminate Hs; injection Hs as <- <-; eexists; split; vm_compute; reflexivity. }
  assert (map_find scenario scenario_setup.2 = Some i) as Hi by (destruct (cb_mode_ b); try discriminate Hs; injection Hs as <- <-; vm_compute; reflexivity).
  assert (names_ok [flag true name] = true) as Hn by (destruct (cb_mode_ b); try discriminate Hs; injection Hs as <- <-; vm_compute; reflexivity).
  rewrite (mode_read i [flag true name] sp b CommandLineArgs_init Hsp Hi Hn Hfit ltac:(groups) Ht). clear Ht Hsp Hi Hn scenario. unfold read_back.
  destruct (cb_mode_ b); try discriminate Hs; injection Hs as <- <-; reflexivity.
Qed.

(** A blank after the program is taken off. *)
Lemma program_blank : trim_blanks (c_str (EnclosePath prog ++ _T " ")) = command_text (Quoted prog) [].
Proof.
  rewrite EnclosePath_text by done. assert (c_str (arg_text (Quoted prog) ++ _T " ") = arg_text (Quoted prog) ++ [32]) as ->.
  { apply take_while_all, forallb_forall. intros c Hc%list_elem_of_In. assert (0 < c); [|by destruct (Z.eqb_spec c 0); [lia|]].
    apply elem_of_app in Hc as [Hc|Hc%list_elem_of_singleton]; [|subst c; lia]. pose proof (arg_text_chars _ Hp) as Hf. rewrite Forall_forall in Hf. by apply Hf. }
  unfold command_text. cbn [fmap list_fmap concat arg_text]. rewrite app_nil_r. etransitivity; [|exact (trim_blanks_id 34 prog 34 ltac:(lia) ltac:(lia))].
  unfold trim_blanks. cbn [drop_while app]. change (32 =? 34) with false. cbv iota. rewrite app_comm_cons, reverse_app. reflexivity.
Qed.
Lemma parsed_args text args : trim_blanks (c_str text) = command_text (Quoted prog) args -> Forall well_formed args ->
  ParseFromString text CommandLineParser_init = parse_loop (arg_value <$> args) [] false CommandLineParser_init.
Proof.
  intros Ht Ha. unfold ParseFromString. rewrite Ht. cbv zeta. change (IsEmpty (command_text _ _)) with false. cbv iota. by rewrite CommandLineToArgvW_text.
Qed.
Lemma validated_args i text args gs sp a : let name := _T "scenario_" ++ decimal (Z.of_nat i + 1) in
  map_find name scenario_list = Some sp -> map_find name scenario_setup.2 = Some i -> names_ok gs = true -> fits gs sp = true -> Forall well_formed args ->
  parse_loop (arg_value <$> args) [] false CommandLineParser_init = (S_OK, parser_of gs) -> trim_blanks (c_str text) = command_text (Quoted prog) args ->
  ParseCommandLine text a = nth i rules.*2 OnNoArgs (parser_of gs) a.
Proof.
  intros name Hsp Hi Hn Hf Ha Hl Ht. unfold ParseCommandLine. rewrite (parsed_args text args Ht Ha), Hl. change (FAILED S_OK) with false. cbv iota.
  apply (Validate_rule i _ _ sp Hsp Hi); [split; [apply put_groups_sorted|]; constructor|].
  apply fits_accepts; [|apply (proj1 (Forall_forall _ _) scenarios_ok (name, sp)); by apply map_find_elem|done]. apply andb_true_iff in Hn as [Hn _]. by apply bool_decide_eq_true in Hn.
Qed.

Lemma noargs_roundtrip b : cb_mode_ b = COMMANDLINE_MODE_NOARGS -> ParseCommandLine (GetCommandLine prog b) CommandLineArgs_init = read_back b.
Proof.
  intros Hm. erewrite (validated_args 0 _ [] []); [|reflexivity|reflexivity|reflexivity|reflexivity|constructor|reflexivity|].
  - unfold read_back. rewrite Hm. reflexivity.
  - unfold GetCommandLine, GetCommandLineArgs. rewrite Hm, app_nil_r. exact program_blank.
Qed.
Lemma comserver_roundtrip b : cb_mode_ b = COMMANDLINE_MODE_COMSERVER -> ParseCommandLine (GetCommandLine prog b) CommandLineArgs_init = read_back b.
Proof.
  intros Hm. assert (Forall well_formed [Bare kCmdLineComServerDash]) as Hw by (constructor; [apply bare_ok; reflexivity|constructor]).
  erewrite (validated_args 10 _ [Bare kCmdLineComServerDash] [flag true (_T "embedding")]); [|reflexivity|reflexivity|vm_compute; reflexivity|vm_compute; reflexivity|exact Hw|vm_compute; reflexivity|].
  - unfold read_back. rewrite Hm. reflexivity.
  - unfold GetCommandLine, GetCommandLineArgs. rewrite Hm, EnclosePath_text by done. exact (quoted_text_trim prog _ Hp Hw).
Qed.
End Mode.

End Roundtrip.

(** ** A concrete shell *)

(** The arguments of a text: [cur] is the one being read, [quoted] after an odd number
    of quotes. *)
Fixpoint argv_of (s : CString) (cur : option CString) (quoted : bool) : list CString :=
  match s with
  | [] => match cur with Some a => [a] | None => [] end
  | c :: s =>
      if c =? 34 then argv_of s (Some (default [] cur)) (negb quoted)
      else if quoted || (32 <? c) then argv_of s (Some (default [] cur ++ [c])) quoted
      else match cur with Some a => a :: argv_of s None false | None => argv_of s None false end
  end.
Lemma argv_of_bare w : forall cur rest, Forall (fun c => 32 < c /\ c <> 34) w -> w <> [] -> argv_of (w ++ rest) cur false = argv_of rest (Some (default [] cur ++ w)) false.
Proof.
  induction w as [|c w IH]; intros cur rest Hw Hne; [done|]. apply Forall_cons in Hw as [[Hc1 Hc2] Hw]. cbn [app argv_of].
  rewrite (proj2 (Z.eqb_neq c 34) Hc2), (proj2 (Z.ltb_lt 32 c) Hc1). cbn [orb]. destruct w as [|d w]; [done|]. rewrite IH by done. cbn [from_option id]. by rewrite <- app_assoc.
Qed.
Lemma argv_of_quoted w : forall cur rest, Forall (fun c => 0 < c /\ c <> 34) w -> argv_of (w ++ 34 :: rest) (Some cur) true = argv_of rest (Some (cur ++ w)) false.
Proof.
  induction w as [|c w IH]; intros cur rest Hw; [by rewrite app_nil_r|]. apply Forall_cons in Hw as [[Hc1 Hc2] Hw]. cbn [app argv_of].
  rewrite (proj2 (Z.eqb_neq c 34) Hc2). cbn [orb from_option id]. rewrite IH by done. by rewrite <- app_assoc.
Qed.
Lemma argv_of_text a rest : well_formed a -> argv_of (arg_text a ++ rest) None false = argv_of rest (Some (arg_value a)) false.
Proof.
  destruct a as [w|w]; cbn [arg_text arg_value well_formed].
  - intros [Hne Hw]. by apply argv_of_bare.
  - intros [Hw _]. cbn [app argv_of]. rewrite Z.eqb_refl, <- app_assoc. by apply argv_of_quoted.
Qed.
Lemma argv_of_command args : forall program, well_formed program -> Forall well_formed args -> argv_of (command_text program args) None false = arg_value <$> program :: args.
Proof.
  unfold command_text. induction args as [|a args IH]; intros program Hp Ha; rewrite argv_of_text by done; [done|]. apply Forall_cons in Ha as [Ha Hargs].
  cbn [fmap list_fmap concat app argv_of]. change (32 =? 34) with false. change (false || (32 <? 32)) with false. cbv iota. f_equal. by apply IH.
Qed.

(** The part of a path after the last separator. *)
Fixpoint strip_path (s rest : CString) : CString :=
  match s with
  | [] => rest
  | c :: s => if (c =? 92) || (c =? 47) || (c =? 58) then strip_path s s else strip_path s rest
  end.
Lemma strip_path_plain s : forall rest, Forall (fun c => c <> 92 /\ c <> 47 /\ c <> 58) s -> strip_path s rest = rest.
Proof. induction s as [|c s IH]; intros rest Hs; [done|]. apply Forall_cons in Hs as [Hc Hs]. cbn [strip_path]. rewrite (proj2 (Z.eqb_neq c 92)), (proj2 (Z.eqb_neq c 47)), (proj2 (Z.eqb_neq c 58)) by apply Hc. by apply IH. Qed.

#[refine]
Definition sample_shell : ShellApi := {|
  CommandLineToArgvW s := inr (argv_of s None false);
  PathStripPath s := strip_path s s;
  GetModulePath := _T "C:\BraveUpdate.exe";
  CommandLineToArgvW_text := _;
  CommandLineToArgvW_fails := _;
  PathStripPath_name := _
|}.
Proof.
  - intros program args Hp Ha. f_equal. by apply argv_of_command.
  - done.
  - intros s Hs. by apply strip_path_plain.
Defined.

(** An installation that is handed off, with every switch of the mode. *)
Definition sample_builder : CommandLineBuilder :=
  mkCommandLineBuilder COMMANDLINE_MODE_HANDOFF_INSTALL false false true true true true sample_extra_args sample_app_args (_T "taggedmi") (guid_text 0x55) [] [] [] [] (guid_text 0x66).
Definition sample_program : CString := _T "C:\Program Files\BraveUpdate.exe".

Lemma quoted_ok_by s : forallb (fun c => (0 <? c) && negb (c =? 34)) s && bool_decide (last s <> Some 92) && bool_decide (trim_blanks s = s) && negb (IsSwitch s) && negb (IsOptionalSwitch s) = true ->
  argument_ok (Quoted s).
Proof.
  intros [[[[Hc Hl%bool_decide_eq_true]%andb_true_iff Ht%bool_decide_eq_true]%andb_true_iff Hs%negb_true_iff]%andb_true_iff Ho%negb_true_iff]%andb_true_iff.
  split; [|done]. split; [|done]. rewrite forallb_forall in Hc. apply List.Forall_forall. intros c Hin. specialize (Hc c Hin). lia.
Qed.

