(* ===== verification/AppModel.v ===== *)
(** An application of a bundle: [App] (omaha/goopdate/app.cc, app.h) with the
    operations that do not depend on its state machine, and the interfaces to
    what surrounds it.

    Code that runs on an application is in the state monad [AppM] over the
    application and the [World]: the calls made to the registry, the crash
    handler and the metrics, in order, and the clock.  The macros [ASSERT1] and
    [ASSERT] compile to nothing in the shipped build and [VERIFY_SUCCEEDED]
    only evaluates its argument: the model is that of the shipped build. *)

From S2P Require Import Prelude Hresult CStrings Registry Files Machine Protocol Policy Package.

(** ** States ([omaha3_idl.idl], the classes of namespace [fsm]) *)

Inductive CurrentState :=
| STATE_INIT | STATE_WAITING_TO_CHECK_FOR_UPDATE | STATE_CHECKING_FOR_UPDATE
| STATE_UPDATE_AVAILABLE | STATE_WAITING_TO_DOWNLOAD | STATE_RETRYING_DOWNLOAD
| STATE_DOWNLOADING | STATE_DOWNLOAD_COMPLETE | STATE_EXTRACTING
| STATE_APPLYING_DIFFERENTIAL_PATCH | STATE_READY_TO_INSTALL
| STATE_WAITING_TO_INSTALL | STATE_INSTALLING | STATE_INSTALL_COMPLETE
| STATE_PAUSED | STATE_NO_UPDATE | STATE_ERROR.

#[export] Instance CurrentState_eq_dec : EqDecision CurrentState.
Proof. solve_decision. Defined.

Definition CurrentState_value (s : CurrentState) : Z :=
  match s with
  | STATE_INIT => 1 | STATE_WAITING_TO_CHECK_FOR_UPDATE => 2
  | STATE_CHECKING_FOR_UPDATE => 3 | STATE_UPDATE_AVAILABLE => 4
  | STATE_WAITING_TO_DOWNLOAD => 5 | STATE_RETRYING_DOWNLOAD => 6
  | STATE_DOWNLOADING => 7 | STATE_DOWNLOAD_COMPLETE => 8
  | STATE_EXTRACTING => 9 | STATE_APPLYING_DIFFERENTIAL_PATCH => 10
  | STATE_READY_TO_INSTALL => 11 | STATE_WAITING_TO_INSTALL => 12
  | STATE_INSTALLING => 13 | STATE_INSTALL_COMPLETE => 14
  | STATE_PAUSED => 15 | STATE_NO_UPDATE => 16 | STATE_ERROR => 17
  end.

(** The object [app_state_] points to: one constructor per class. *)
Inductive AppState :=
| AppStateInit | AppStateWaitingToCheckForUpdate | AppStateCheckingForUpdate
| AppStateUpdateAvailable | AppStateWaitingToDownload | AppStateDownloading
| AppStateDownloadComplete | AppStateReadyToInstall | AppStateWaitingToInstall
| AppStateInstalling | AppStateInstallComplete | AppStateNoUpdate | AppStateError.

#[export] Instance AppState_eq_dec : EqDecision AppState.
Proof. solve_decision. Defined.

(** [AppState::state()]: what each constructor passes to the base class. *)
Definition AppState_state (s : AppState) : CurrentState :=
  match s with
  | AppStateInit => STATE_INIT
  | AppStateWaitingToCheckForUpdate => STATE_WAITING_TO_CHECK_FOR_UPDATE
  | AppStateCheckingForUpdate => STATE_CHECKING_FOR_UPDATE
  | AppStateUpdateAvailable => STATE_UPDATE_AVAILABLE
  | AppStateWaitingToDownload => STATE_WAITING_TO_DOWNLOAD
  | AppStateDownloading => STATE_DOWNLOADING
  | AppStateDownloadComplete => STATE_DOWNLOAD_COMPLETE
  | AppStateReadyToInstall => STATE_READY_TO_INSTALL
  | AppStateWaitingToInstall => STATE_WAITING_TO_INSTALL
  | AppStateInstalling => STATE_INSTALLING
  | AppStateInstallComplete => STATE_INSTALL_COMPLETE
  | AppStateNoUpdate => STATE_NO_UPDATE
  | AppStateError => STATE_ERROR
  end.

(** ** The data members of [App] *)

Inductive InstallerResultType :=
| INSTALLER_RESULT_UNKNOWN | INSTALLER_RESULT_SUCCESS | INSTALLER_RESULT_ERROR_MSI
| INSTALLER_RESULT_ERROR_SYSTEM | INSTALLER_RESULT_ERROR_OTHER.

#[export] Instance InstallerResultType_eq_dec : EqDecision InstallerResultType.
Proof. solve_decision. Defined.

Inductive PostInstallAction :=
| POST_INSTALL_ACTION_DEFAULT | POST_INSTALL_ACTION_EXIT_SILENTLY
| POST_INSTALL_ACTION_LAUNCH_COMMAND | POST_INSTALL_ACTION_EXIT_SILENTLY_ON_LAUNCH_COMMAND
| POST_INSTALL_ACTION_RESTART_BROWSER | POST_INSTALL_ACTION_RESTART_ALL_BROWSERS
| POST_INSTALL_ACTION_REBOOT.

#[export] Instance PostInstallAction_eq_dec : EqDecision PostInstallAction.
Proof. solve_decision. Defined.

Record InstallerResultInfo := mkInstallerResultInfo {
  iri_type : InstallerResultType;
  iri_code : Z;
  iri_extra_code1 : Z;
  iri_text : CString;
  iri_post_install_launch_command_line : CString;
  iri_post_install_url : CString;
  iri_post_install_action : PostInstallAction
}.

(** What a client sets and the registry holds. *)
Record AppProps := mkAppProps {
  pv_ : CString;
  language_ : CString;
  display_name_ : CString;
  app_defined_attributes_ : list (CString * CString);
  ap_ : CString;
  tt_token_ : CString;
  cohort_ : CString * CString * CString;
  iid_ : GUID;
  brand_code_ : CString;
  client_id_ : CString;
  referral_id_ : CString;
  install_time_diff_sec_ : Z;
  is_eula_accepted_ : Tristate;
  browser_type_ : Z;
  days_since_last_active_ping_ : Z;
  days_since_last_roll_call_ : Z;
  ping_freshness_ : CString;
  day_of_last_activity_ : Z;
  day_of_last_roll_call_ : Z;
  day_of_install_ : Z;
  day_of_last_response_ : Z;
  usage_stats_enable_ : Tristate;
  did_run_ : ActiveStates;
  server_install_data_index_ : CString;
  untrusted_data_ : CString;
  client_install_data_ : CString;
  server_install_data_ : CString;
  can_skip_signature_verification_ : bool
}.

(** How the application ended, for the client and the completion ping. *)
Record Completion := mkCompletion {
  is_canceled_ : bool;
  error_context_ : ErrorContext;
  completion_message_ : CString;
  completion_result_ : EventResult;
  installer_result_code_ : Z;
  installer_result_extra_code1_ : Z;
  post_install_launch_command_line_ : CString;
  post_install_url_ : CString;
  post_install_action_ : PostInstallAction
}.

Inductive TimeMetricType :=
| TIME_UPDATE_AVAILABLE | TIME_DOWNLOAD_START | TIME_DOWNLOAD_COMPLETE
| TIME_INSTALL_START | TIME_INSTALL_COMPLETE | TIME_UPDATE_CHECK_START
| TIME_UPDATE_CHECK_COMPLETE | TIME_CANCELLED.

#[export] Instance TimeMetricType_eq_dec : EqDecision TimeMetricType.
Proof. solve_decision. Defined.

Record AppMetrics := mkAppMetrics {
  source_url_index_ : Z;
  state_cancelled_ : CurrentState;
  previous_total_download_bytes_ : Z;
  num_bytes_downloaded_ : Z;
  time_metrics_ : TimeMetricType -> Z
}.

Record App := mkApp {
  app_state : AppState;
  current_version : AppVersion;
  next_version : AppVersion;
  ping_events : list PingEvent;
  event_log_text : CString;
  is_update : bool;
  has_update_available : bool;
  app_guid : GUID;
  props : AppProps;
  completion : Completion;
  metrics : AppMetrics
}.

Definition AppProps_default : AppProps :=
  mkAppProps [] [] [] [] [] [] ([], [], []) GUID_NULL [] [] [] 0 TRISTATE_NONE 0 0 0 [] 0 0 0 0
    TRISTATE_NONE ACTIVE_UNKNOWN [] [] [] [] false.

Definition Completion_default : Completion :=
  mkCompletion false ErrorContext_default [] EVENT_RESULT_SUCCESS 0 0 [] [] POST_INSTALL_ACTION_DEFAULT.

Definition AppMetrics_default : AppMetrics :=
  mkAppMetrics (-1) STATE_ERROR 0 0 (fun _ => 0).

(** [App::App]. *)
Definition App_init (guid : GUID) (update : bool) : App :=
  mkApp AppStateInit AppVersion_init AppVersion_init [] [] update false guid
    AppProps_default Completion_default AppMetrics_default.

Definition set_app_state (s : AppState) (a : App) : App :=
  mkApp s (current_version a) (next_version a) (ping_events a) (event_log_text a) (is_update a)
    (has_update_available a) (app_guid a) (props a) (completion a) (metrics a).
Definition set_current_version (v : AppVersion) (a : App) : App :=
  mkApp (app_state a) v (next_version a) (ping_events a) (event_log_text a) (is_update a)
    (has_update_available a) (app_guid a) (props a) (completion a) (metrics a).
Definition set_next_version (v : AppVersion) (a : App) : App :=
  mkApp (app_state a) (current_version a) v (ping_events a) (event_log_text a) (is_update a)
    (has_update_available a) (app_guid a) (props a) (completion a) (metrics a).
Definition set_ping_events (l : list PingEvent) (a : App) : App :=
  mkApp (app_state a) (current_version a) (next_version a) l (event_log_text a) (is_update a)
    (has_update_available a) (app_guid a) (props a) (completion a) (metrics a).
Definition set_event_log_text (t : CString) (a : App) : App :=
  mkApp (app_state a) (current_version a) (next_version a) (ping_events a) t (is_update a)
    (has_update_available a) (app_guid a) (props a) (completion a) (metrics a).
Definition set_has_update_available (b : bool) (a : App) : App :=
  mkApp (app_state a) (current_version a) (next_version a) (ping_events a) (event_log_text a)
    (is_update a) b (app_guid a) (props a) (completion a) (metrics a).
Definition set_props (p : AppProps) (a : App) : App :=
  mkApp (app_state a) (current_version a) (next_version a) (ping_events a) (event_log_text a)
    (is_update a) (has_update_available a) (app_guid a) p (completion a) (metrics a).
Definition set_completion (c : Completion) (a : App) : App :=
  mkApp (app_state a) (current_version a) (next_version a) (ping_events a) (event_log_text a)
    (is_update a) (has_update_available a) (app_guid a) (props a) c (metrics a).
Definition set_metrics (m : AppMetrics) (a : App) : App :=
  mkApp (app_state a) (current_version a) (next_version a) (ping_events a) (event_log_text a)
    (is_update a) (has_update_available a) (app_guid a) (props a) (completion a) m.

(** [state()] and [error_code()]. *)
Definition App_state (a : App) : CurrentState := AppState_state (app_state a).
Definition App_error_code (a : App) : HRESULT := error_code (error_context_ (completion a)).
Definition App_is_install (a : App) : bool := negb (is_update a).
Definition App_is_eula_accepted (a : App) : bool :=
  bool_decide (is_eula_accepted_ (props a) = TRISTATE_TRUE).

(** Setters of the properties a client or the server changes. *)
Definition with_tt_token (x : CString) (p : AppProps) : AppProps :=
  mkAppProps (pv_ p) (language_ p) (display_name_ p) (app_defined_attributes_ p) (ap_ p) x (cohort_
    p) (iid_ p) (brand_code_ p) (client_id_ p) (referral_id_ p) (install_time_diff_sec_ p)
    (is_eula_accepted_ p) (browser_type_ p) (days_since_last_active_ping_ p)
    (days_since_last_roll_call_ p) (ping_freshness_ p) (day_of_last_activity_ p)
    (day_of_last_roll_call_ p) (day_of_install_ p) (day_of_last_response_ p) (usage_stats_enable_ p)
    (did_run_ p) (server_install_data_index_ p) (untrusted_data_ p) (client_install_data_ p)
    (server_install_data_ p) (can_skip_signature_verification_ p).
Definition with_cohort (x : CString * CString * CString) (p : AppProps) : AppProps :=
  mkAppProps (pv_ p) (language_ p) (display_name_ p) (app_defined_attributes_ p) (ap_ p) (tt_token_
    p) x (iid_ p) (brand_code_ p) (client_id_ p) (referral_id_ p) (install_time_diff_sec_ p)
    (is_eula_accepted_ p) (browser_type_ p) (days_since_last_active_ping_ p)
    (days_since_last_roll_call_ p) (ping_freshness_ p) (day_of_last_activity_ p)
    (day_of_last_roll_call_ p) (day_of_install_ p) (day_of_last_response_ p) (usage_stats_enable_ p)
    (did_run_ p) (server_install_data_index_ p) (untrusted_data_ p) (client_install_data_ p)
    (server_install_data_ p) (can_skip_signature_verification_ p).
Definition with_is_eula_accepted (x : Tristate) (p : AppProps) : AppProps :=
  mkAppProps (pv_ p) (language_ p) (display_name_ p) (app_defined_attributes_ p) (ap_ p) (tt_token_
    p) (cohort_ p) (iid_ p) (brand_code_ p) (client_id_ p) (referral_id_ p) (install_time_diff_sec_
    p) x (browser_type_ p) (days_since_last_active_ping_ p) (days_since_last_roll_call_ p)
    (ping_freshness_ p) (day_of_last_activity_ p) (day_of_last_roll_call_ p) (day_of_install_ p)
    (day_of_last_response_ p) (usage_stats_enable_ p) (did_run_ p) (server_install_data_index_ p)
    (untrusted_data_ p) (client_install_data_ p) (server_install_data_ p)
    (can_skip_signature_verification_ p).
Definition with_browser_type (x : Z) (p : AppProps) : AppProps :=
  mkAppProps (pv_ p) (language_ p) (display_name_ p) (app_defined_attributes_ p) (ap_ p) (tt_token_
    p) (cohort_ p) (iid_ p) (brand_code_ p) (client_id_ p) (referral_id_ p) (install_time_diff_sec_
    p) (is_eula_accepted_ p) x (days_since_last_active_ping_ p) (days_since_last_roll_call_ p)
    (ping_freshness_ p) (day_of_last_activity_ p) (day_of_last_roll_call_ p) (day_of_install_ p)
    (day_of_last_response_ p) (usage_stats_enable_ p) (did_run_ p) (server_install_data_index_ p)
    (untrusted_data_ p) (client_install_data_ p) (server_install_data_ p)
    (can_skip_signature_verification_ p).
Definition with_day_of_last_response (x : Z) (p : AppProps) : AppProps :=
  mkAppProps (pv_ p) (language_ p) (display_name_ p) (app_defined_attributes_ p) (ap_ p) (tt_token_
    p) (cohort_ p) (iid_ p) (brand_code_ p) (client_id_ p) (referral_id_ p) (install_time_diff_sec_
    p) (is_eula_accepted_ p) (browser_type_ p) (days_since_last_active_ping_ p)
    (days_since_last_roll_call_ p) (ping_freshness_ p) (day_of_last_activity_ p)
    (day_of_last_roll_call_ p) (day_of_install_ p) x (usage_stats_enable_ p) (did_run_ p)
    (server_install_data_index_ p) (untrusted_data_ p) (client_install_data_ p)
    (server_install_data_ p) (can_skip_signature_verification_ p).
Definition with_usage_stats_enable (x : Tristate) (p : AppProps) : AppProps :=
  mkAppProps (pv_ p) (language_ p) (display_name_ p) (app_defined_attributes_ p) (ap_ p) (tt_token_
    p) (cohort_ p) (iid_ p) (brand_code_ p) (client_id_ p) (referral_id_ p) (install_time_diff_sec_
    p) (is_eula_accepted_ p) (browser_type_ p) (days_since_last_active_ping_ p)
    (days_since_last_roll_call_ p) (ping_freshness_ p) (day_of_last_activity_ p)
    (day_of_last_roll_call_ p) (day_of_install_ p) (day_of_last_response_ p) x (did_run_ p)
    (server_install_data_index_ p) (untrusted_data_ p) (client_install_data_ p)
    (server_install_data_ p) (can_skip_signature_verification_ p).
Definition with_server_install_data_index (x : CString) (p : AppProps) : AppProps :=
  mkAppProps (pv_ p) (language_ p) (display_name_ p) (app_defined_attributes_ p) (ap_ p) (tt_token_
    p) (cohort_ p) (iid_ p) (brand_code_ p) (client_id_ p) (referral_id_ p) (install_time_diff_sec_
    p) (is_eula_accepted_ p) (browser_type_ p) (days_since_last_active_ping_ p)
    (days_since_last_roll_call_ p) (ping_freshness_ p) (day_of_last_activity_ p)
    (day_of_last_roll_call_ p) (day_of_install_ p) (day_of_last_response_ p) (usage_stats_enable_ p)
    (did_run_ p) x (untrusted_data_ p) (client_install_data_ p) (server_install_data_ p)
    (can_skip_signature_verification_ p).
Definition with_untrusted_data (x : CString) (p : AppProps) : AppProps :=
  mkAppProps (pv_ p) (language_ p) (display_name_ p) (app_defined_attributes_ p) (ap_ p) (tt_token_
    p) (cohort_ p) (iid_ p) (brand_code_ p) (client_id_ p) (referral_id_ p) (install_time_diff_sec_
    p) (is_eula_accepted_ p) (browser_type_ p) (days_since_last_active_ping_ p)
    (days_since_last_roll_call_ p) (ping_freshness_ p) (day_of_last_activity_ p)
    (day_of_last_roll_call_ p) (day_of_install_ p) (day_of_last_response_ p) (usage_stats_enable_ p)
    (did_run_ p) (server_install_data_index_ p) x (client_install_data_ p) (server_install_data_ p)
    (can_skip_signature_verification_ p).
Definition with_client_install_data (x : CString) (p : AppProps) : AppProps :=
  mkAppProps (pv_ p) (language_ p) (display_name_ p) (app_defined_attributes_ p) (ap_ p) (tt_token_
    p) (cohort_ p) (iid_ p) (brand_code_ p) (client_id_ p) (referral_id_ p) (install_time_diff_sec_
    p) (is_eula_accepted_ p) (browser_type_ p) (days_since_last_active_ping_ p)
    (days_since_last_roll_call_ p) (ping_freshness_ p) (day_of_last_activity_ p)
    (day_of_last_roll_call_ p) (day_of_install_ p) (day_of_last_response_ p) (usage_stats_enable_ p)
    (did_run_ p) (server_install_data_index_ p) (untrusted_data_ p) x (server_install_data_ p)
    (can_skip_signature_verification_ p).
Definition with_server_install_data (x : CString) (p : AppProps) : AppProps :=
  mkAppProps (pv_ p) (language_ p) (display_name_ p) (app_defined_attributes_ p) (ap_ p) (tt_token_
    p) (cohort_ p) (iid_ p) (brand_code_ p) (client_id_ p) (referral_id_ p) (install_time_diff_sec_
    p) (is_eula_accepted_ p) (browser_type_ p) (days_since_last_active_ping_ p)
    (days_since_last_roll_call_ p) (ping_freshness_ p) (day_of_last_activity_ p)
    (day_of_last_roll_call_ p) (day_of_install_ p) (day_of_last_response_ p) (usage_stats_enable_ p)
    (did_run_ p) (server_install_data_index_ p) (untrusted_data_ p) (client_install_data_ p) x
    (can_skip_signature_verification_ p).
Definition with_language (x : CString) (p : AppProps) : AppProps :=
  mkAppProps (pv_ p) x (display_name_ p) (app_defined_attributes_ p) (ap_ p) (tt_token_ p) (cohort_
    p) (iid_ p) (brand_code_ p) (client_id_ p) (referral_id_ p) (install_time_diff_sec_ p)
    (is_eula_accepted_ p) (browser_type_ p) (days_since_last_active_ping_ p)
    (days_since_last_roll_call_ p) (ping_freshness_ p) (day_of_last_activity_ p)
    (day_of_last_roll_call_ p) (day_of_install_ p) (day_of_last_response_ p) (usage_stats_enable_ p)
    (did_run_ p) (server_install_data_index_ p) (untrusted_data_ p) (client_install_data_ p)
    (server_install_data_ p) (can_skip_signature_verification_ p).
Definition with_display_name (x : CString) (p : AppProps) : AppProps :=
  mkAppProps (pv_ p) (language_ p) x (app_defined_attributes_ p) (ap_ p) (tt_token_ p) (cohort_ p)
    (iid_ p) (brand_code_ p) (client_id_ p) (referral_id_ p) (install_time_diff_sec_ p)
    (is_eula_accepted_ p) (browser_type_ p) (days_since_last_active_ping_ p)
    (days_since_last_roll_call_ p) (ping_freshness_ p) (day_of_last_activity_ p)
    (day_of_last_roll_call_ p) (day_of_install_ p) (day_of_last_response_ p) (usage_stats_enable_ p)
    (did_run_ p) (server_install_data_index_ p) (untrusted_data_ p) (client_install_data_ p)
    (server_install_data_ p) (can_skip_signature_verification_ p).
Definition with_ap (x : CString) (p : AppProps) : AppProps :=
  mkAppProps (pv_ p) (language_ p) (display_name_ p) (app_defined_attributes_ p) x (tt_token_ p)
    (cohort_ p) (iid_ p) (brand_code_ p) (client_id_ p) (referral_id_ p) (install_time_diff_sec_ p)
    (is_eula_accepted_ p) (browser_type_ p) (days_since_last_active_ping_ p)
    (days_since_last_roll_call_ p) (ping_freshness_ p) (day_of_last_activity_ p)
    (day_of_last_roll_call_ p) (day_of_install_ p) (day_of_last_response_ p) (usage_stats_enable_ p)
    (did_run_ p) (server_install_data_index_ p) (untrusted_data_ p) (client_install_data_ p)
    (server_install_data_ p) (can_skip_signature_verification_ p).
Definition with_pv (x : CString) (p : AppProps) : AppProps :=
  mkAppProps x (language_ p) (display_name_ p) (app_defined_attributes_ p) (ap_ p) (tt_token_ p)
    (cohort_ p) (iid_ p) (brand_code_ p) (client_id_ p) (referral_id_ p) (install_time_diff_sec_ p)
    (is_eula_accepted_ p) (browser_type_ p) (days_since_last_active_ping_ p)
    (days_since_last_roll_call_ p) (ping_freshness_ p) (day_of_last_activity_ p)
    (day_of_last_roll_call_ p) (day_of_install_ p) (day_of_last_response_ p) (usage_stats_enable_ p)
    (did_run_ p) (server_install_data_index_ p) (untrusted_data_ p) (client_install_data_ p)
    (server_install_data_ p) (can_skip_signature_verification_ p).
Definition with_brand_code (x : CString) (p : AppProps) : AppProps :=
  mkAppProps (pv_ p) (language_ p) (display_name_ p) (app_defined_attributes_ p) (ap_ p) (tt_token_
    p) (cohort_ p) (iid_ p) x (client_id_ p) (referral_id_ p) (install_time_diff_sec_ p)
    (is_eula_accepted_ p) (browser_type_ p) (days_since_last_active_ping_ p)
    (days_since_last_roll_call_ p) (ping_freshness_ p) (day_of_last_activity_ p)
    (day_of_last_roll_call_ p) (day_of_install_ p) (day_of_last_response_ p) (usage_stats_enable_ p)
    (did_run_ p) (server_install_data_index_ p) (untrusted_data_ p) (client_install_data_ p)
    (server_install_data_ p) (can_skip_signature_verification_ p).
Definition with_client_id (x : CString) (p : AppProps) : AppProps :=
  mkAppProps (pv_ p) (language_ p) (display_name_ p) (app_defined_attributes_ p) (ap_ p) (tt_token_
    p) (cohort_ p) (iid_ p) (brand_code_ p) x (referral_id_ p) (install_time_diff_sec_ p)
    (is_eula_accepted_ p) (browser_type_ p) (days_since_last_active_ping_ p)
    (days_since_last_roll_call_ p) (ping_freshness_ p) (day_of_last_activity_ p)
    (day_of_last_roll_call_ p) (day_of_install_ p) (day_of_last_response_ p) (usage_stats_enable_ p)
    (did_run_ p) (server_install_data_index_ p) (untrusted_data_ p) (client_install_data_ p)
    (server_install_data_ p) (can_skip_signature_verification_ p).
Definition with_referral_id (x : CString) (p : AppProps) : AppProps :=
  mkAppProps (pv_ p) (language_ p) (display_name_ p) (app_defined_attributes_ p) (ap_ p) (tt_token_
    p) (cohort_ p) (iid_ p) (brand_code_ p) (client_id_ p) x (install_time_diff_sec_ p)
    (is_eula_accepted_ p) (browser_type_ p) (days_since_last_active_ping_ p)
    (days_since_last_roll_call_ p) (ping_freshness_ p) (day_of_last_activity_ p)
    (day_of_last_roll_call_ p) (day_of_install_ p) (day_of_last_response_ p) (usage_stats_enable_ p)
    (did_run_ p) (server_install_data_index_ p) (untrusted_data_ p) (client_install_data_ p)
    (server_install_data_ p) (can_skip_signature_verification_ p).
Definition with_can_skip_signature_verification (x : bool) (p : AppProps) : AppProps :=
  mkAppProps (pv_ p) (language_ p) (display_name_ p) (app_defined_attributes_ p) (ap_ p) (tt_token_
    p) (cohort_ p) (iid_ p) (brand_code_ p) (client_id_ p) (referral_id_ p) (install_time_diff_sec_
    p) (is_eula_accepted_ p) (browser_type_ p) (days_since_last_active_ping_ p)
    (days_since_last_roll_call_ p) (ping_freshness_ p) (day_of_last_activity_ p)
    (day_of_last_roll_call_ p) (day_of_install_ p) (day_of_last_response_ p) (usage_stats_enable_ p)
    (did_run_ p) (server_install_data_index_ p) (untrusted_data_ p) (client_install_data_ p)
    (server_install_data_ p) x.

(** ** The surroundings *)

Inductive StringId :=
| IDS_INSTALL_FAILED | IDS_CANCELED | IDS_APP_INSTALL_DISABLED_BY_GROUP_POLICY
| IDS_NO_UPDATE_RESPONSE | IDS_UNKNOWN_APPLICATION | IDS_RESTRICTED_RESPONSE_FROM_SERVER
| IDS_HW_NOT_SUPPORTED | IDS_OS_NOT_SUPPORTED | IDS_NON_OK_RESPONSE_FROM_SERVER
| IDS_INSTALLER_OLD | IDS_NO_NETWORK_PRESENT_ERROR | IDS_ERROR_HTTPSTATUS_UNAUTHORIZED
| IDS_ERROR_HTTPSTATUS_FORBIDDEN | IDS_ERROR_HTTPSTATUS_PROXY_AUTH_REQUIRED
| IDS_DOWNLOAD_ERROR | IDS_CACHING_ERROR | IDS_DOWNLOAD_HASH_MISMATCH
| IDS_APPLICATION_INSTALLED_SUCCESSFULLY | IDS_INSTALLER_FAILED_TO_START
| IDS_INSTALLER_TIMED_OUT | IDS_INSTALLER_FAILED_NO_MESSAGE | IDS_INSTALLER_FAILED_WITH_MESSAGE
| IDS_INVALID_INSTALLER_FILENAME | IDS_MSI_INSTALL_ALREADY_RUNNING
| IDS_DEFAULT_APP_DISPLAY_NAME | IDS_FRIENDLY_COMPANY_NAME.

(** What [App] relies on from the policies of [ConfigManager]: Omaha itself can
    always be updated. *)
Class GroupPolicy := {
  CanUpdateApp : GUID -> bool -> bool;
  CanInstallApp : GUID -> bool -> bool;
  EffectivePolicyForAppUpdates : GUID -> Z;
  PolicyTargetChannel : GUID -> CString;
  PolicyTargetVersionPrefix : GUID -> CString;
  PolicyRollbackAllowed : GUID -> bool;
  CanUpdateApp_self : forall manual, CanUpdateApp kGoopdateGuid manual = true
}.

(** [ConfigManager] implements it. *)
#[refine]
Definition ConfigManager_GroupPolicy (uninit_dword : Z) (uninit_bool : bool) (cm : ConfigManager) : GroupPolicy := {|
  CanUpdateApp := ConfigManager_CanUpdateApp uninit_dword cm;
  CanInstallApp := ConfigManager_CanInstallApp uninit_dword cm;
  EffectivePolicyForAppUpdates g := pv_value (ConfigManager_GetEffectivePolicyForAppUpdates uninit_dword cm g).1;
  PolicyTargetChannel g := pv_value (ConfigManager_GetTargetChannel cm g).1;
  PolicyTargetVersionPrefix g := pv_value (ConfigManager_GetTargetVersionPrefix cm g).1;
  PolicyRollbackAllowed g := pv_value (ConfigManager_IsRollbackToTargetVersionAllowed uninit_bool cm g).1;
  CanUpdateApp_self := _
|}.
Proof. intros manual. unfold ConfigManager_CanUpdateApp. by rewrite Z.eqb_refl. Defined.

(** What the methods of [App] read of the bundle it belongs to. *)
Record BundleCtx := mkBundleCtx {
  bc_is_machine : bool;
  bc_is_auto_update : bool;
  bc_display_language : CString;
  bc_is_offline_install : bool;
  bc_number_of_apps : Z;
  bc_xdaynum : Z;
  bc_xdaystart : Z
}.

Inductive Metric :=
| metric_worker_apps_not_updated_eula | metric_worker_self_updates_available
| metric_worker_app_updates_available.

(** The calls that leave the application. *)
Inductive ExtCall :=
| Call_ResetInstallProgress (g : GUID)
| Call_ResetCurrentStateKey (g : GUID)
| Call_SynchronizeClientState (g : GUID)
| Call_PurgeAppLowerVersions (g : GUID) (version : CString)
| Call_PersistUpdateCheckSuccessfullySent (g : GUID) (elapsed_days elapsed_seconds : Z)
| Call_PersistSuccessfulUpdateCheckResponse (g : GUID) (is_update_available : bool)
| Call_PersistSuccessfulInstall (g : GUID)
| Call_WriteDownloadProgress (g : GUID) (bytes total : Z) (time_remaining_ms : Z)
| Call_WriteInstallProgress (g : GUID) (percentage time_remaining_ms : Z)
| Call_WriteStateValue (g : GUID) (state : CurrentState)
| Call_BuildAndPersistPing
| Call_StartCrashHandler (is_machine : bool)
| Call_Metric (m : Metric).

(** The string resources, the clock and the machine, which the sources only
    call.  [GetCurrentMsTime n] is the [n]-th reading of the clock.  String
    resources that load are not empty.  [perform] is what a call does to the
    machine; the results of the calls are not looked at. *)
Class Env := {
  LoadString : CString -> StringId -> CString;
  FormatMessage : CString -> StringId -> list CString -> CString;
  GetCurrentMsTime : nat -> Z;
  CanCollectStats : bool -> bool;
  IsRunningAsSystem : bool;
  ExperimentLabels : bool -> CString -> CString;
  RemoveTimestamps : CString -> CString;
  InstallerProgress : GUID -> nat -> HRESULT + Z;
  GetOSInfo : option CString;
  GetArchitecture : CString;
  IsArchitectureSupported : CString -> bool;
  perform : ExtCall -> App -> Machine -> Machine;
  LoadString_not_empty : forall lang id, LoadString lang id <> [];
  FormatMessage_not_empty : forall lang id args, FormatMessage lang id args <> []
}.

Record World := mkWorld {
  w_trace : list ExtCall;
  w_tick : nat;
  w_error_extra_code1 : Z;
  w_machine : Machine
}.

Record AppSt := mkAppSt { st_world : World; st_app : App }.

Abbreviation AppM := (St AppSt).

Definition call `{Env} (c : ExtCall) : AppM unit :=
  modify (fun s =>
    let w := st_world s in
    mkAppSt (mkWorld (w_trace w ++ [c]) (w_tick w) (w_error_extra_code1 w) (perform c (st_app s) (w_machine w)))
      (st_app s)).

Definition modify_app (f : App -> App) : AppM unit :=
  modify (fun s => mkAppSt (st_world s) (f (st_app s))).

Definition get_app : AppM App := gets st_app.

(** A computation on the registry or on the files of the machine. *)
Definition with_machine {A} (f : Machine -> A * Machine) : AppM A := fun s =>
  let w := st_world s in
  let '(a, m) := f (w_machine w) in
  (a, mkAppSt (mkWorld (w_trace w) (w_tick w) (w_error_extra_code1 w) m) (st_app s)).
Definition with_registry {A} (m : RegM A) : AppM A :=
  with_machine (fun mach => let '(a, r) := m (m_registry mach) in (a, set_registry r mach)).
Definition with_files {A} (m : FsM A) : AppM A :=
  with_machine (fun mach => let '(a, fs) := m (m_fs mach) in (a, set_fs fs mach)).
Definition Sleep (ms : Z) : AppM unit := with_machine (fun m => (tt, add_slept_ms ms m)).
Definition App_set_error_extra_code1 (extra_code : Z) : AppM unit := fun s =>
  let w := st_world s in
  (tt, mkAppSt (mkWorld (w_trace w) (w_tick w) extra_code (w_machine w)) (st_app s)).

Lemma eval_get_app s : eval get_app s = st_app s.
Proof. done. Qed.
Lemma exec_get_app s : exec get_app s = s.
Proof. done. Qed.
Lemma exec_modify_app f s : exec (modify_app f) s = mkAppSt (st_world s) (f (st_app s)).
Proof. done. Qed.
Lemma exec_bind_get_app {A} (k : App -> AppM A) s : exec (get_app ≫= k) s = exec (k (st_app s)) s.
Proof. done. Qed.
Lemma eval_bind_get_app {A} (k : App -> AppM A) s : eval (get_app ≫= k) s = eval (k (st_app s)) s.
Proof. done. Qed.
#[export] Hint Rewrite eval_get_app exec_get_app exec_modify_app : st.

(** ** Operations of [App] *)

Section App.
Context `{Env, GroupPolicy, GuidOps} (ctx : BundleCtx).

(** A reading of the clock. *)
Definition current_ms_time : AppM Z := fun s =>
  let w := st_world s in
  (GetCurrentMsTime (w_tick w),
   mkAppSt (mkWorld (w_trace w) (S (w_tick w)) (w_error_extra_code1 w) (w_machine w)) (st_app s)).

Definition App_SetError (ec : ErrorContext) (message : CString) : AppM unit :=
  modify_app (fun a =>
    let c := completion a in
    let cancelled := error_code ec =? GOOPDATE_E_CANCELLED in
    set_completion (mkCompletion cancelled ec message
      (if cancelled then EVENT_RESULT_CANCELLED else EVENT_RESULT_ERROR)
      (installer_result_code_ c) (installer_result_extra_code1_ c)
      (post_install_launch_command_line_ c) (post_install_url_ c) (post_install_action_ c)) a).

Definition App_SetNoUpdate (ec : ErrorContext) (message : CString) : AppM unit :=
  modify_app (fun a =>
    let c := completion a in
    let is_deferred_update := error_code ec =? GOOPDATE_E_UPDATE_DEFERRED in
    set_completion (mkCompletion (is_canceled_ c) ec message
      (if is_deferred_update then EVENT_RESULT_UPDATE_DEFERRED else EVENT_RESULT_SUCCESS)
      (installer_result_code_ c) (installer_result_extra_code1_ c)
      (post_install_launch_command_line_ c) (post_install_url_ c) (post_install_action_ c)) a).

Definition App_SetInstallerResult (r : InstallerResultInfo) : AppM unit :=
  let finish hr result :=
    modify_app (fun a =>
      let c := completion a in
      set_completion (mkCompletion (is_canceled_ c)
        (mkErrorContext hr (extra_code1 (error_context_ c))) (iri_text r) result
        (s32 (iri_code r)) (s32 (iri_extra_code1 r))
        (iri_post_install_launch_command_line r) (iri_post_install_url r)
        (iri_post_install_action r)) a) in
  match iri_type r with
  | INSTALLER_RESULT_SUCCESS =>
      finish S_OK EVENT_RESULT_SUCCESS;;
      a ← get_app;
      when (negb (kGoopdateGuid =? app_guid a)) (call (Call_PersistSuccessfulInstall (app_guid a)))
  | INSTALLER_RESULT_ERROR_MSI =>
      finish GOOPDATEINSTALL_E_INSTALLER_FAILED EVENT_RESULT_INSTALLER_ERROR_MSI
  | INSTALLER_RESULT_ERROR_SYSTEM =>
      finish GOOPDATEINSTALL_E_INSTALLER_FAILED EVENT_RESULT_INSTALLER_ERROR_SYSTEM
  | INSTALLER_RESULT_ERROR_OTHER =>
      finish GOOPDATEINSTALL_E_INSTALLER_FAILED EVENT_RESULT_INSTALLER_ERROR_OTHER
  | INSTALLER_RESULT_UNKNOWN => finish E_FAIL EVENT_RESULT_ERROR
  end.

Definition App_AddPingEvent (p : PingEvent) : AppM unit :=
  modify_app (fun a => set_ping_events (ping_events a ++ [p]) a);;
  call Call_BuildAndPersistPing.

Definition App_LogTextAppendFormat (log_string : CString) : AppM unit :=
  modify_app (fun a =>
    set_event_log_text (event_log_text a ++ _T "App=" ++ GuidToString (app_guid a) ++ _T ", Ver=" ++
      version (current_version a) ++ _T ", " ++ log_string ++ [10]) a).

Definition App_FetchAndResetLogText : AppM CString :=
  a ← get_app;
  modify_app (set_event_log_text []);;
  mret (event_log_text a).

Definition App_CheckGroupPolicy (a : App) : HRESULT :=
  if is_update a then
    if negb (CanUpdateApp (app_guid a) (negb (bc_is_auto_update ctx))) then
      if EffectivePolicyForAppUpdates (app_guid a) =? kPolicyAutomaticUpdatesOnly
      then GOOPDATE_E_APP_UPDATE_DISABLED_BY_POLICY_MANUAL
      else GOOPDATE_E_APP_UPDATE_DISABLED_BY_POLICY
    else S_OK
  else if negb (CanInstallApp (app_guid a) (bc_is_machine ctx))
  then GOOPDATE_E_APP_INSTALL_DISABLED_BY_POLICY
  else S_OK.

Definition with_num_bytes_downloaded (n : Z) (m : AppMetrics) : AppMetrics :=
  mkAppMetrics (source_url_index_ m) (state_cancelled_ m) (previous_total_download_bytes_ m) n (time_metrics_ m).
Definition with_source_url_index (n : Z) (m : AppMetrics) : AppMetrics :=
  mkAppMetrics n (state_cancelled_ m) (previous_total_download_bytes_ m) (num_bytes_downloaded_ m) (time_metrics_ m).
Definition with_state_cancelled (s : CurrentState) (m : AppMetrics) : AppMetrics :=
  mkAppMetrics (source_url_index_ m) s (previous_total_download_bytes_ m) (num_bytes_downloaded_ m) (time_metrics_ m).
Definition with_previous_total (n : Z) (m : AppMetrics) : AppMetrics :=
  mkAppMetrics (source_url_index_ m) (state_cancelled_ m) n (num_bytes_downloaded_ m) (time_metrics_ m).
Definition with_time_metric (t : TimeMetricType) (ms : Z) (m : AppMetrics) : AppMetrics :=
  mkAppMetrics (source_url_index_ m) (state_cancelled_ m) (previous_total_download_bytes_ m)
    (num_bytes_downloaded_ m) (fun t' => if decide (t' = t) then ms else time_metrics_ m t').

Definition App_UpdateNumBytesDownloaded (num_bytes : Z) : AppM unit :=
  modify_app (fun a =>
    set_metrics (with_num_bytes_downloaded (u64 (num_bytes_downloaded_ (metrics a) + num_bytes)) (metrics a)) a).

Definition App_set_source_url_index (index : Z) : AppM unit :=
  modify_app (fun a => set_metrics (with_source_url_index index (metrics a)) a).

Definition App_set_state_cancelled (s : CurrentState) : AppM unit :=
  modify_app (fun a => set_metrics (with_state_cancelled s (metrics a)) a).

Definition App_SetCurrentTimeAs (t : TimeMetricType) : AppM unit :=
  ms ← current_ms_time;
  modify_app (fun a => set_metrics (with_time_metric t ms (metrics a)) a).

(** [working_version_] is always [next_version_]. *)
Definition App_working_version (a : App) : AppVersion := next_version a.

Definition App_GetPackagesTotalSize (a : App) : Z :=
  fold_left (fun total p => u64 (total + expected_size p)) (packages (App_working_version a)) 0.

Definition App_GetTimeDifferenceMs (start_metric end_metric : TimeMetricType) (a : App) : Z :=
  let start_time_ms := time_metrics_ (metrics a) start_metric in
  let end_time_ms := time_metrics_ (metrics a) end_metric in
  if (start_time_ms =? 0) || (end_time_ms <? start_time_ms) then 0
  else s32 (end_time_ms - start_time_ms).

Definition App_GetDownloadTimeMs : App -> Z :=
  App_GetTimeDifferenceMs TIME_DOWNLOAD_START TIME_DOWNLOAD_COMPLETE.
Definition App_GetInstallTimeMs : App -> Z :=
  App_GetTimeDifferenceMs TIME_INSTALL_START TIME_INSTALL_COMPLETE.
Definition App_GetUpdateCheckTimeMs : App -> Z :=
  App_GetTimeDifferenceMs TIME_UPDATE_CHECK_START TIME_UPDATE_CHECK_COMPLETE.

Definition App_GetTimeSinceUpdateAvailable (a : App) : Z :=
  if (time_metrics_ (metrics a) TIME_UPDATE_AVAILABLE =? 0)
     || (time_metrics_ (metrics a) TIME_CANCELLED =? 0)
  then -1 else App_GetTimeDifferenceMs TIME_UPDATE_AVAILABLE TIME_CANCELLED a.

Definition App_GetTimeSinceDownloadStart (a : App) : Z :=
  if (time_metrics_ (metrics a) TIME_DOWNLOAD_START =? 0)
     || (time_metrics_ (metrics a) TIME_CANCELLED =? 0)
  then -1 else App_GetTimeDifferenceMs TIME_DOWNLOAD_START TIME_CANCELLED a.

Definition App_is_bundled : bool := 1 <? bc_number_of_apps ctx.

Definition App_GetInstallData (a : App) : CString :=
  if negb (IsEmpty (client_install_data_ (props a))) then client_install_data_ (props a)
  else server_install_data_ (props a).

(** ** Progress *)

Definition kCurrentStateProgressUnknown : Z := -1.

Record DownloadProgress := mkDownloadProgress {
  dp_bytes_downloaded : Z;
  dp_bytes_total : Z;
  dp_time_remaining_ms : Z;
  dp_next_retry_time : Z
}.

(** One iteration of the loop of [GetDownloadProgress]. *)
Definition add_package_progress (d : DownloadProgress) (p : Package) : DownloadProgress :=
  let package_bytes := u64 (bytes_downloaded p) in
  let package_size := expected_size p in
  let remaining := Package_GetEstimatedRemainingDownloadTimeMs p in
  let retry := next_download_retry_time p in
  mkDownloadProgress (u64 (dp_bytes_downloaded d + package_bytes))
    (u64 (dp_bytes_total d + package_size))
    (if dp_time_remaining_ms d <? remaining then remaining else dp_time_remaining_ms d)
    (if (package_bytes <? package_size) && negb (retry =? 0)
        && ((dp_next_retry_time d =? 0) || (retry <? dp_next_retry_time d))
     then retry else dp_next_retry_time d).

Definition App_GetDownloadProgress : AppM DownloadProgress :=
  a ← get_app;
  let d := fold_left add_package_progress (packages (App_working_version a))
             (mkDownloadProgress 0 0 kCurrentStateProgressUnknown 0) in
  modify_app (fun a => set_metrics (with_previous_total (dp_bytes_total d) (metrics a)) a);;
  mret d.

(** The percentage, or unknown when the registry value cannot be read. *)
Definition App_GetInstallProgress (a : App) (tick : nat) : Z :=
  match InstallerProgress (app_guid a) tick with
  | inl _ => kCurrentStateProgressUnknown
  | inr percent => Z.min 100 percent
  end.

Record CurrentAppState := mkCurrentAppState {
  cas_state : CurrentState;
  cas_version : CString;
  cas_bytes_downloaded : Z;
  cas_total_bytes_to_download : Z;
  cas_download_time_remaining_ms : Z;
  cas_next_download_retry_time : Z;
  cas_install_progress_percentage : Z;
  cas_install_time_remaining_ms : Z;
  cas_completion : Completion
}.

Definition App_get_currentState : AppM CurrentAppState :=
  a ← get_app;
  let unknown := kCurrentStateProgressUnknown in
  let finish dl percent ms :=
    call (Call_WriteStateValue (app_guid a) (App_state a));;
    a' ← get_app;
    mret (mkCurrentAppState (App_state a') (version (next_version a'))
      (dp_bytes_downloaded dl) (dp_bytes_total dl) (dp_time_remaining_ms dl)
      (dp_next_retry_time dl) percent ms (completion a')) in
  let none := mkDownloadProgress 0 0 unknown 0 in
  match App_state a with
  | STATE_WAITING_TO_DOWNLOAD | STATE_RETRYING_DOWNLOAD | STATE_DOWNLOADING
  | STATE_DOWNLOAD_COMPLETE | STATE_EXTRACTING | STATE_APPLYING_DIFFERENTIAL_PATCH
  | STATE_READY_TO_INSTALL =>
      dl ← App_GetDownloadProgress;
      call (Call_WriteDownloadProgress (app_guid a) (dp_bytes_downloaded dl) (dp_bytes_total dl)
              (dp_time_remaining_ms dl));;
      finish dl unknown unknown
  | STATE_INSTALLING =>
      s ← get;
      let percent := App_GetInstallProgress a (w_tick (st_world s)) in
      call (Call_WriteInstallProgress (app_guid a) percent unknown);;
      finish none percent unknown
  | STATE_INSTALL_COMPLETE =>
      call (Call_WriteInstallProgress (app_guid a) 100 0);;
      finish none 100 0
  | _ => finish none unknown unknown
  end.

(** ** The properties a client sets *)

Definition BROWSER_UNKNOWN : Z := 0.
Definition BROWSER_MAX : Z := 5.

Definition App_put_isEulaAccepted (is_eula_accepted : bool) : AppM HRESULT :=
  modify_app (fun a =>
    set_props (with_is_eula_accepted (if is_eula_accepted then TRISTATE_TRUE else TRISTATE_FALSE) (props a)) a);;
  mret S_OK.

Definition App_put_browserType (browser_type : Z) : AppM HRESULT :=
  if BROWSER_MAX <=? browser_type then mret E_INVALIDARG
  else modify_app (fun a => set_props (with_browser_type browser_type (props a)) a);; mret S_OK.

Definition App_put_usageStatsEnable (usage_stats_enable : Z) : AppM HRESULT :=
  if 2 <? usage_stats_enable then mret E_INVALIDARG
  else
    modify_app (fun a => set_props (with_usage_stats_enable
      (if usage_stats_enable =? 0 then TRISTATE_FALSE
       else if usage_stats_enable =? 1 then TRISTATE_TRUE else TRISTATE_NONE) (props a)) a);;
    mret S_OK.

Definition App_put_ttToken (tt_token : CString) : AppM HRESULT :=
  modify_app (fun a => set_props (with_tt_token tt_token (props a)) a);; mret S_OK.

Definition App_set_cohort (c : CString * CString * CString) : AppM unit :=
  modify_app (fun a => set_props (with_cohort c (props a)) a).

Definition App_set_server_install_data (data : CString) : AppM unit :=
  modify_app (fun a => set_props (with_server_install_data data (props a)) a).

Definition App_set_day_of_last_response (day_num : Z) : AppM unit :=
  modify_app (fun a => set_props (with_day_of_last_response day_num (props a)) a).

Definition App_put_clientInstallData (data : CString) : AppM HRESULT :=
  modify_app (fun a => set_props (with_client_install_data data (props a)) a);; mret S_OK.

Definition App_put_serverInstallDataIndex (index : CString) : AppM HRESULT :=
  modify_app (fun a => set_props (with_server_install_data_index index (props a)) a);; mret S_OK.

Definition App_put_untrustedData (data : CString) : AppM HRESULT :=
  modify_app (fun a => set_props (with_untrusted_data data (props a)) a);; mret S_OK.

Definition App_put_language (x : CString) : AppM HRESULT :=
  modify_app (fun a => set_props (with_language x (props a)) a);; mret S_OK.

Definition App_put_displayName (x : CString) : AppM HRESULT :=
  modify_app (fun a => set_props (with_display_name x (props a)) a);; mret S_OK.

Definition App_put_ap (x : CString) : AppM HRESULT :=
  modify_app (fun a => set_props (with_ap x (props a)) a);; mret S_OK.

Definition App_put_pv (x : CString) : AppM HRESULT :=
  modify_app (fun a => set_props (with_pv x (props a)) a);; mret S_OK.

Definition App_put_brandCode (x : CString) : AppM HRESULT :=
  modify_app (fun a => set_props (with_brand_code x (props a)) a);; mret S_OK.

Definition App_put_clientId (x : CString) : AppM HRESULT :=
  modify_app (fun a => set_props (with_client_id x (props a)) a);; mret S_OK.

Definition App_put_referralId (x : CString) : AppM HRESULT :=
  modify_app (fun a => set_props (with_referral_id x (props a)) a);; mret S_OK.

End App.
