(* ===== verification/AppManager.v ===== *)
(** The application manager: omaha/goopdate/app_manager.cc.

    It reads what the registry has about an application into the [App] and
    writes what has to survive the process.  Every operation holds the registry
    access lock, so it is one step. *)

From S2P Require Import Prelude Hresult CStrings Protocol Policy Paths Registry AppRegistry Package AppModel.

Definition kInitialInstallTimeDiff : Z := u32 (-1 * (24 * 60 * 60)).
Definition kInitialDayOfInstall : Z := u32 (-1).
Definition kUnknownDayOfInstall : Z := 0.
Definition kMaxLifeOfInstallationIDSec : Z := 7 * 24 * 60 * 60.

Definition kRegValueInstallerResult : CString := _T "InstallerResult".
Definition kRegValueInstallerError : CString := _T "InstallerError".
Definition kRegValueInstallerExtraCode1 : CString := _T "InstallerExtraCode1".
Definition kRegValueInstallerResultUIString : CString := _T "InstallerResultUIString".
Definition kRegValueInstallerSuccessLaunchCmdLine : CString := _T "InstallerSuccessLaunchCmdLine".
Definition kRegValueLastInstallerResult : CString := _T "LastInstallerResult".
Definition kRegValueLastInstallerError : CString := _T "LastInstallerError".
Definition kRegValueLastInstallerExtraCode1 : CString := _T "LastInstallerExtraCode1".
Definition kRegValueLastInstallerResultUIString : CString := _T "LastInstallerResultUIString".
Definition kRegValueLastInstallerSuccessLaunchCmdLine : CString := _T "LastInstallerSuccessLaunchCmdLine".

Definition kRegSubkeyCurrentState : CString := _T "CurrentState".
Definition kRegValueStateValue : CString := _T "StateValue".
Definition kRegValueDownloadTimeRemainingMs : CString := _T "DownloadTimeRemainingMs".
Definition kRegValueDownloadProgressPercent : CString := _T "DownloadProgressPercent".
Definition kRegValueInstallTimeRemainingMs : CString := _T "InstallTimeRemainingMs".
Definition kRegValueInstallProgressPercent : CString := _T "InstallProgressPercent".

Definition kRegValueAppDefinedPrefix : Z := 95.
Definition kRegValueAppDefinedAggregate : CString := _T "aggregate".
Definition kRegValueAppDefinedAggregateSum : CString := _T "sum()".

(** [AppManager::InstallerResult]. *)
Definition INSTALLER_RESULT_EXIT_CODE : Z := 4.
Definition INSTALLER_RESULT_DEFAULT : Z := INSTALLER_RESULT_EXIT_CODE.
Definition INSTALLER_RESULT_MAX : Z := 5.

Section Manager.
Context `{Env, GuidOps, RegEnv} (is_machine : bool).

(** ** Keys *)

Definition GetClientKeyName (app_guid : GUID) : CString := GetAppClientsKey is_machine (GuidToString app_guid).
Definition GetClientStateKeyName (app_guid : GUID) : CString := GetAppClientStateKey is_machine (GuidToString app_guid).
Definition GetClientStateMediumKeyName (app_guid : GUID) : CString := GetAppClientStateMediumKey (GuidToString app_guid).
Definition GetCurrentStateKeyName (app_guid : CString) : CString :=
  AppendRegKeyPath (AppendRegKeyPath (registry_client_state is_machine) app_guid) kRegSubkeyCurrentState.

Definition CreateClientStateKey (app_guid : GUID) : RegM HRESULT :=
  hr ← RegKey_Create (GetClientStateKeyName app_guid);
  if FAILED hr then mret hr
  else if negb is_machine then mret S_OK
  else if kGoopdateGuid =? app_guid then mret S_OK
  else
    hr ← RegKey_Create (GetClientStateMediumKeyName app_guid);
    mret (if FAILED hr then hr else S_OK).

(** ** Which applications there are *)

Definition IsAppRegistered (app_id : CString) (r : Registry) : bool :=
  existsb (fun subkey => EqualNoCase subkey app_id) (GetSubkeys (registry_clients is_machine) r).

Definition IsAppUninstalled_guid (app_guid : GUID) (r : Registry) : bool :=
  if IsAppRegistered (GuidToString app_guid) r then false
  else RegKey_HasValue (GetClientStateKeyName app_guid) kRegValueProductVersion r.

Definition IsAppUninstalled (app_id : CString) (r : Registry) : bool :=
  match StringToGuidSafe app_id with
  | None => false
  | Some app_guid => IsAppUninstalled_guid app_guid r
  end.

(** [IsAppEulaAccepted] may write, as for every reader of the licence. *)
Definition IsAppOemInstalledAndEulaAccepted (app_id : CString) : RegM bool :=
  match StringToGuidSafe app_id with
  | None => mret false
  | Some app_guid =>
      r ← get;
      if IsAppUninstalled_guid app_guid r then mret false
      else
        accepted ← (IsAppEulaAccepted is_machine app_id false : RegM bool);
        if negb accepted then mret false
        else r ← get; mret (RegKey_HasValue (GetClientStateKeyName app_guid) kRegValueOemInstall r)
  end.

Definition GetRegisteredApps (r : Registry) : HRESULT + list CString :=
  if RegKey_HasKey (registry_clients is_machine) r
  then inr (List.filter (fun subkey => IsAppRegistered subkey r) (GetSubkeys (registry_clients is_machine) r))
  else inl (HRESULT_FROM_WIN32 ERROR_FILE_NOT_FOUND).

Definition GetUninstalledApps (r : Registry) : HRESULT + list CString :=
  if RegKey_HasKey (registry_client_state is_machine) r
  then inr (List.filter (fun subkey => IsAppUninstalled subkey r) (GetSubkeys (registry_client_state is_machine) r))
  else inl (HRESULT_FROM_WIN32 ERROR_FILE_NOT_FOUND).

(** The key is enumerated while the licences are read. *)
Fixpoint filter_oem_installed (app_ids : list CString) : RegM (list CString) :=
  match app_ids with
  | [] => mret []
  | subkey :: app_ids =>
      oem_installed ← (IsAppOemInstalledAndEulaAccepted subkey : RegM bool);
      rest ← filter_oem_installed app_ids;
      mret (if oem_installed : bool then subkey :: rest else rest)
  end.
Definition GetOemInstalledAndEulaAcceptedApps : RegM (HRESULT + list CString) :=
  r ← get;
  if RegKey_HasKey (registry_client_state is_machine) r
  then app_ids ← filter_oem_installed (GetSubkeys (registry_client_state is_machine) r); mret (inr app_ids)
  else mret (inl (HRESULT_FROM_WIN32 ERROR_FILE_NOT_FOUND)).

(** ** Attributes an application defines *)

Definition starts_with_prefix (s : CString) : bool :=
  match s with c :: _ => c =? kRegValueAppDefinedPrefix | [] => false end.

Definition ReadAppDefinedAttributeValues (app_id_key : CString) (r : Registry) : list (CString * CString) :=
  omap (fun nv =>
    let attribute_name := MakeLower nv.1 in
    if negb (starts_with_prefix attribute_name) then None
    else match nv.2 with REG_SZ attribute_value => Some (attribute_name, attribute_value) | _ => None end)
    (GetValues app_id_key r).

Definition attribute_sum (subkey : CString) (r : Registry) : Z :=
  fold_left (fun sum nv => match nv.2 with REG_DWORD val => u32 (sum + val) | _ => sum end) (GetValues subkey r) 0.

Definition ReadAppDefinedAttributeSubkeys (app_id_key : CString) (r : Registry) : list (CString * CString) :=
  omap (fun name =>
    let attribute_subkey_name := MakeLower name in
    let subkey := AppendRegKeyPath app_id_key attribute_subkey_name in
    if negb (starts_with_prefix attribute_subkey_name) then None
    else
      match GetValueString subkey kRegValueAppDefinedAggregate r with
      | inl _ => None
      | inr value =>
          if negb (EqualNoCase value kRegValueAppDefinedAggregateSum) then None
          else Some (attribute_subkey_name, itostr (s32 (attribute_sum subkey r)))
      end) (GetSubkeys app_id_key r).

Definition ReadAppDefinedAttributes (app_id : CString) (attributes : list (CString * CString)) (r : Registry) :
    list (CString * CString) :=
  let base := if is_machine then machine_registry_client_state_medium else registry_client_state is_machine in
  let app_id_key := AppendRegKeyPath base app_id in
  if RegKey_HasKey app_id_key r
  then attributes ++ ReadAppDefinedAttributeValues app_id_key r ++ ReadAppDefinedAttributeSubkeys app_id_key r
  else attributes.

(** ** Days *)

Definition GetNumberOfDaysSince (time : Z) : Z :=
  if now_sec <? time then 0 else Z.quot (s32 (now_sec - time)) (24 * 60 * 60).

Definition GetInstallTimeDiffSec (app_guid : GUID) (r : Registry) : Z :=
  if negb (IsAppRegistered (GuidToString app_guid) r) && negb (IsAppUninstalled_guid app_guid r)
  then kInitialInstallTimeDiff
  else u32 (utils_GetInstallTimeDiffSec is_machine (GuidToString app_guid) r).

Definition GetDayOfInstall (app_guid : GUID) (r : Registry) : Z :=
  if negb (IsAppRegistered (GuidToString app_guid) r) && negb (IsAppUninstalled_guid app_guid r)
  then kInitialDayOfInstall
  else
    match utils_GetDayOfInstall is_machine (GuidToString app_guid) r with
    | inr day_of_install => if negb (day_of_install =? u32 (-1)) then day_of_install else kUnknownDayOfInstall
    | inl _ => kUnknownDayOfInstall
    end.

Definition GetAppUsageStatsEnabled (app_guid : GUID) (r : Registry) : Tristate :=
  if negb (IsAppRegistered (GuidToString app_guid) r) && negb (IsAppUninstalled_guid app_guid r) then TRISTATE_NONE
  else if AreAppUsageStatsEnabled is_machine (GuidToString app_guid) r then TRISTATE_TRUE
  else TRISTATE_FALSE.

(** ** Reading *)

(** The part of [ReadAppPersistentData] that reads the [ClientState] key. *)
Definition ReadClientState (a : App) (r : Registry) : App :=
  let p := props a in
  let guid := app_guid a in
  let key := GetClientStateKeyName guid in
  let str old name := out_or old (GetValueString key name r) in
  let days_since name :=
    match GetValueDword key name r with
    | inr sec => GetNumberOfDaysSince (s32 sec)
    | inl _ => -1
    end in
  let active := days_since kRegValueActivePingDayStartSec in
  let roll_call := days_since kRegValueRollCallDayStartSec in
  let day_of name since :=
    match GetValueDword key name r with
    | inr day => s32 day
    | inl _ => if since =? -1 then -1 else 0
    end in
  set_props
    (mkAppProps (pv_ p)
       (if IsEmpty (language_ p) then str (language_ p) kRegValueLanguage else language_ p)
       (display_name_ p)
       (ReadAppDefinedAttributes (GuidToString guid) (app_defined_attributes_ p) r)
       (str (ap_ p) kRegValueAdditionalParams)
       (str (tt_token_ p) kRegValueTTToken)
       (utils_ReadCohort is_machine (GuidToString guid) (cohort_ p) r).2
       (default (iid_ p) (StringToGuidSafe (str [] kRegValueInstallationId)))
       (str (brand_code_ p) kRegValueBrandCode)
       (str (client_id_ p) kRegValueClientId)
       (referral_id_ p)
       (GetInstallTimeDiffSec guid r)
       (is_eula_accepted_ p) (browser_type_ p)
       active roll_call
       (str (ping_freshness_ p) kRegValuePingFreshness)
       (day_of kRegValueDayOfLastActivity active)
       (day_of kRegValueDayOfLastRollCall roll_call)
       (GetDayOfInstall guid r)
       (day_of_last_response_ p)
       (GetAppUsageStatsEnabled guid r)
       (did_run_ p) (server_install_data_index_ p) (untrusted_data_ p) (client_install_data_ p)
       (server_install_data_ p) (can_skip_signature_verification_ p)) a.

(** What is read before: the licence, the [Clients] key, and whether the
    application ran.  A [Clients] key without a version is a failure. *)
Definition ReadClients (display_language : CString) (eula_accepted : bool) (did_run : ActiveStates) (a : App)
    (r : Registry) : App :=
  let p := props a in
  let key := GetClientKeyName (app_guid a) in
  let name := out_or (display_name_ p) (GetValueString key kRegValueAppName r) in
  set_props
    (mkAppProps (pv_ p)
       (out_or (language_ p) (GetValueString key kRegValueLanguage r))
       (if IsEmpty name
        then FormatMessage display_language IDS_DEFAULT_APP_DISPLAY_NAME
               [LoadString display_language IDS_FRIENDLY_COMPANY_NAME]
        else name)
       (app_defined_attributes_ p) (ap_ p) (tt_token_ p) (cohort_ p) (iid_ p) (brand_code_ p) (client_id_ p)
       (referral_id_ p) (install_time_diff_sec_ p)
       (if eula_accepted then TRISTATE_TRUE else TRISTATE_FALSE) (browser_type_ p)
       (-1) (-1) (ping_freshness_ p) (-1) (-1) (day_of_install_ p) (day_of_last_response_ p) (usage_stats_enable_ p)
       did_run (server_install_data_index_ p) (untrusted_data_ p) (client_install_data_ p) (server_install_data_ p)
       (can_skip_signature_verification_ p))
    (match GetValueString key kRegValueProductVersion r with
     | inr version => set_current_version (AppVersion_set_version version (current_version a)) a
     | inl _ => a
     end).

Definition with_eula (eula_accepted : bool) (a : App) : App :=
  set_props (with_is_eula_accepted (if eula_accepted then TRISTATE_TRUE else TRISTATE_FALSE) (props a)) a.

Definition ReadAppPersistentData (display_language : CString) (a : App) : RegM (HRESULT * App) :=
  eula_accepted ← (IsAppEulaAccepted is_machine (GuidToString (app_guid a)) false : RegM bool);
  r ← get;
  let client_key := GetClientKeyName (app_guid a) in
  let client_key_exists := RegKey_HasKey client_key r in
  match (if client_key_exists then GetValueString client_key kRegValueProductVersion r else inr []) with
  | inl hr => mret (hr, with_eula eula_accepted a)
  | inr _ =>
      did_run ← ReadDidRun is_machine (GuidToString (app_guid a));
      let a := ReadClients display_language eula_accepted did_run a r in
      r ← get;
      let hr := RegKey_Open (GetClientStateKeyName (app_guid a)) r in
      if FAILED hr then mret (if client_key_exists then S_OK else hr, a)
      else mret (S_OK, ReadClientState a r)
  end.

Definition with_install_age (diff_sec day : Z) (p : AppProps) : AppProps :=
  mkAppProps (pv_ p) (language_ p) (display_name_ p) (app_defined_attributes_ p) (ap_ p) (tt_token_ p) (cohort_ p) (iid_ p)
    (brand_code_ p) (client_id_ p) (referral_id_ p) diff_sec (is_eula_accepted_ p) (browser_type_ p)
    (days_since_last_active_ping_ p) (days_since_last_roll_call_ p) (ping_freshness_ p) (day_of_last_activity_ p)
    (day_of_last_roll_call_ p) day (day_of_last_response_ p) (usage_stats_enable_ p) (did_run_ p)
    (server_install_data_index_ p) (untrusted_data_ p) (client_install_data_ p) (server_install_data_ p)
    (can_skip_signature_verification_ p).

Definition ReadAppInstallTimeDiff (a : App) (r : Registry) : App :=
  set_props (with_install_age (GetInstallTimeDiffSec (app_guid a) r) (day_of_install_ (props a)) (props a)) a.
Definition ReadDayOfInstall (a : App) (r : Registry) : App :=
  set_props (with_install_age (install_time_diff_sec_ (props a)) (GetDayOfInstall (app_guid a) r) (props a)) a.

Definition ReadUninstalledAppPersistentData (display_language : CString) (a : App) : RegM (HRESULT * App) :=
  '(hr, a) ← ReadAppPersistentData display_language a;
  if FAILED hr then mret (hr, a)
  else
    r ← get;
    let version := out_or [] (GetValueString (GetClientStateKeyName (app_guid a)) kRegValueProductVersion r) in
    mret (S_OK, set_current_version (AppVersion_set_version version (current_version a)) a).

Definition ReadFirstInstallAppVersion (a : App) (r : Registry) : App :=
  let pv := GetAppVersion is_machine (GuidToString (app_guid a)) [] r in
  if negb (IsEmpty pv) then set_current_version (AppVersion_set_version (45 :: pv) (current_version a)) a else a.

(** ** Before the installation *)

Definition WritePreInstallData (a : App) : RegM HRESULT :=
  let p := props a in
  let guid := app_guid a in
  let key := GetClientStateKeyName guid in
  hr ← CreateClientStateKey guid;
  if FAILED hr then mret hr
  else
    r ← get;
    when (negb (RegKey_HasValue key kRegValuePingFreshness r))
      (RegKey_SetValue key kRegValuePingFreshness (REG_SZ (GuidToString NewGuid));; mret tt);;
    r ← get;
    hr ← (if App_is_eula_accepted a then ClearAppEulaNotAccepted is_machine (GuidToString guid)
          else if negb (IsAppRegistered (GuidToString guid) r) then SetAppEulaNotAccepted is_machine (GuidToString guid)
          else mret S_OK);
    if FAILED hr then mret hr
    else
      when (negb (IsEmpty (language_ p))) (RegKey_SetValue key kRegValueLanguage (REG_SZ (language_ p));; mret tt);;
      (if IsEmpty (ap_ p) then RegKey_DeleteValue key kRegValueAdditionalParams
       else RegKey_SetValue key kRegValueAdditionalParams (REG_SZ (ap_ p)));;
      SetAppBranding key (brand_code_ p) (client_id_ p) (referral_id_ p) (day_of_last_response_ p);;
      r ← get;
      when (IsOemInstalling is_machine r) (RegKey_SetValue key kRegValueOemInstall (REG_SZ (_T "1"));; mret tt);;
      (if browser_type_ p =? BROWSER_UNKNOWN then RegKey_DeleteValue key kRegValueBrowser
       else RegKey_SetValue key kRegValueBrowser (REG_DWORD (u32 (browser_type_ p))));;
      when (negb (bool_decide (usage_stats_enable_ p = TRISTATE_NONE)))
        (SetUsageStatsEnable is_machine (GuidToString guid) (usage_stats_enable_ p);; mret tt);;
      mret S_OK.

(** ** The results an installer leaves *)

(** Renames a value, whatever the result. *)
Definition rename_value (key old_name new_name : CString) : RegM unit :=
  RegKey_RenameValue key old_name new_name;; mret tt.
Definition delete_value (key name : CString) : RegM unit := RegKey_DeleteValue key name;; mret tt.
Definition copy_value (from to name : CString) : RegM unit := RegKey_CopyValue from to name;; mret tt.

Definition last_values : list CString :=
  [kRegValueLastInstallerResult; kRegValueLastInstallerResultUIString; kRegValueLastInstallerError;
   kRegValueLastInstallerExtraCode1; kRegValueLastInstallerSuccessLaunchCmdLine].
Definition renamed_values : list (CString * CString) :=
  [(kRegValueInstallerResult, kRegValueLastInstallerResult); (kRegValueInstallerError, kRegValueLastInstallerError);
   (kRegValueInstallerExtraCode1, kRegValueLastInstallerExtraCode1);
   (kRegValueInstallerResultUIString, kRegValueLastInstallerResultUIString);
   (kRegValueInstallerSuccessLaunchCmdLine, kRegValueLastInstallerSuccessLaunchCmdLine)].
Definition copied_values : list CString :=
  [kRegValueLastInstallerResult; kRegValueLastInstallerError; kRegValueLastInstallerExtraCode1;
   kRegValueLastInstallerResultUIString; kRegValueLastInstallerSuccessLaunchCmdLine].

Definition ClearInstallerResultApiValues (app_guid : GUID) : RegM unit :=
  let client_state_key_name := GetClientStateKeyName app_guid in
  let update_key_name := registry_update is_machine in
  for_each (delete_value client_state_key_name) last_values;;
  for_each (delete_value update_key_name) last_values;;
  for_each (fun on => rename_value client_state_key_name on.1 on.2) renamed_values;;
  for_each (copy_value client_state_key_name update_key_name) copied_values.

Record InstallerApiValues := mkApiValues {
  av_installer_result : Z;
  av_installer_error : Z;
  av_extra_code1 : Z;
  av_uistring : CString;
  av_success_launch_cmd : CString
}.

(** The values given stay where the registry has none. *)
Definition ReadInstallerResultApiValues (app_guid : GUID) (v : InstallerApiValues) : RegM InstallerApiValues :=
  let key := GetClientStateKeyName app_guid in
  r ← get;
  if FAILED (RegKey_Open key r) then mret v
  else
    let installer_result := out_or (av_installer_result v) (GetValueDword key kRegValueInstallerResult r) in
    let installer_result := if INSTALLER_RESULT_MAX <=? installer_result then INSTALLER_RESULT_DEFAULT else installer_result in
    let v := mkApiValues installer_result
      (out_or (av_installer_error v) (GetValueDword key kRegValueInstallerError r))
      (out_or (av_extra_code1 v) (GetValueDword key kRegValueInstallerExtraCode1 r))
      (out_or (av_uistring v) (GetValueString key kRegValueInstallerResultUIString r))
      (out_or (av_success_launch_cmd v) (GetValueString key kRegValueInstallerSuccessLaunchCmdLine r)) in
    ClearInstallerResultApiValues app_guid;;
    mret v.

Definition with_language (language : CString) (p : AppProps) : AppProps :=
  mkAppProps (pv_ p) language (display_name_ p) (app_defined_attributes_ p) (ap_ p) (tt_token_ p) (cohort_ p) (iid_ p)
    (brand_code_ p) (client_id_ p) (referral_id_ p) (install_time_diff_sec_ p) (is_eula_accepted_ p) (browser_type_ p)
    (days_since_last_active_ping_ p) (days_since_last_roll_call_ p) (ping_freshness_ p) (day_of_last_activity_ p)
    (day_of_last_roll_call_ p) (day_of_install_ p) (day_of_last_response_ p) (usage_stats_enable_ p) (did_run_ p)
    (server_install_data_index_ p) (untrusted_data_ p) (client_install_data_ p) (server_install_data_ p)
    (can_skip_signature_verification_ p).

Definition ReadInstallerRegistrationValues (a : App) (r : Registry) : HRESULT * App :=
  let key := GetClientKeyName (app_guid a) in
  match GetValueString key kRegValueProductVersion r with
  | inl _ => (GOOPDATEINSTALL_E_INSTALLER_DID_NOT_WRITE_CLIENTS_KEY, a)
  | inr version =>
      if IsEmpty version then (GOOPDATEINSTALL_E_INSTALLER_DID_NOT_WRITE_CLIENTS_KEY, a)
      else
        (S_OK, set_props (with_language (out_or (language_ (props a)) (GetValueString key kRegValueLanguage r)) (props a))
                 (set_next_version (AppVersion_set_version version (next_version a)) a))
  end.

(** ** After an update check *)

Definition SetTTToken (a : App) : RegM HRESULT :=
  let key := GetClientStateKeyName (app_guid a) in
  hr ← CreateClientStateKey (app_guid a);
  if FAILED hr then mret hr
  else if IsEmpty (tt_token_ (props a)) then RegKey_DeleteValue key kRegValueTTToken
  else RegKey_SetValue key kRegValueTTToken (REG_SZ (tt_token_ (props a))).

Definition WriteCohort (a : App) : RegM HRESULT :=
  utils_WriteCohort is_machine (GuidToString (app_guid a)) (cohort_ (props a)).

Definition UpdateUpdateAvailableStats (app_guid : GUID) : RegM unit :=
  let key := GetClientStateKeyName app_guid in
  hr ← CreateClientStateKey app_guid;
  if FAILED hr then mret tt
  else
    r ← get;
    let update_available_count := out_or 0 (GetValueDword key kRegValueUpdateAvailableCount r) in
    RegKey_SetValue key kRegValueUpdateAvailableCount (REG_DWORD (u32 (update_available_count + 1)));;
    r ← get;
    match GetValueQword key kRegValueUpdateAvailableSince r with
    | inl _ => RegKey_SetValue key kRegValueUpdateAvailableSince (REG_QWORD GetCurrent100NSTime);; mret tt
    | inr _ => mret tt
    end.

Definition ReadUpdateAvailableStats (app_guid : GUID) (r : Registry) : Z * Z :=
  let key := GetClientStateKeyName app_guid in
  (out_or 0 (GetValueDword key kRegValueUpdateAvailableCount r),
   match GetValueQword key kRegValueUpdateAvailableSince r with
   | inr since => u64 (GetCurrent100NSTime - since) / kMillisecsTo100ns
   | inl _ => 0
   end).

Definition PersistSuccessfulUpdateCheckResponse (a : App) (is_update_available : bool) : RegM unit :=
  let key := GetClientStateKeyName (app_guid a) in
  SetTTToken a;;
  WriteCohort a;;
  if is_update_available then
    if App_error_code a =? GOOPDATE_E_APP_UPDATE_DISABLED_BY_POLICY then ClearUpdateAvailableStats key
    else when (is_update a) (UpdateUpdateAvailableStats (app_guid a))
  else
    ClearUpdateAvailableStats key;;
    PersistSuccessfulUpdateCheck key.

Definition PersistSuccessfulInstall (a : App) : RegM unit :=
  let key := GetClientStateKeyName (app_guid a) in
  CreateClientStateKey (app_guid a);;
  RegKey_SetValue key kRegValueProductVersion (REG_SZ (version (next_version a)));;
  when (negb (IsEmpty (language_ (props a))))
    (RegKey_SetValue key kRegValueLanguage (REG_SZ (language_ (props a)));; mret tt);;
  (if iid_ (props a) =? GUID_NULL then RegKey_DeleteValue key kRegValueInstallationId
   else RegKey_SetValue key kRegValueInstallationId (REG_SZ (GuidToString (iid_ (props a)))));;
  utils_PersistSuccessfulInstall key (is_update a) false.

(** ** The state a client watches *)

Definition ResetCurrentStateKey (app_guid : CString) : RegM HRESULT := RegKey_DeleteKey (GetCurrentStateKeyName app_guid).

Definition WriteStateValue (a : App) (state_value : CurrentState) : RegM HRESULT :=
  RegKey_SetValue (GetCurrentStateKeyName (GuidToString (app_guid a))) kRegValueStateValue
    (REG_DWORD (u32 (CurrentState_value state_value))).

Definition WriteDownloadProgress (a : App) (bytes_downloaded bytes_total download_time_remaining_ms : Z) : RegM HRESULT :=
  if bytes_total <=? 0 then mret E_INVALIDARG
  else
    let percentage := s32 (u64 (100 * bytes_downloaded) / bytes_total) in
    let key := GetCurrentStateKeyName (GuidToString (app_guid a)) in
    hr ← RegKey_SetValue key kRegValueDownloadTimeRemainingMs (REG_DWORD (u32 download_time_remaining_ms));
    if FAILED hr then mret hr
    else RegKey_SetValue key kRegValueDownloadProgressPercent (REG_DWORD (u32 percentage)).

Definition WriteInstallProgress (a : App) (install_progress_percentage install_time_remaining_ms : Z) : RegM HRESULT :=
  let key := GetCurrentStateKeyName (GuidToString (app_guid a)) in
  hr ← RegKey_SetValue key kRegValueInstallTimeRemainingMs (REG_DWORD (u32 install_time_remaining_ms));
  if FAILED hr then mret hr
  else RegKey_SetValue key kRegValueInstallProgressPercent (REG_DWORD (u32 install_progress_percentage)).

(** The result of reading the version is not looked at. *)
Definition SynchronizeClientState (app_guid : GUID) : RegM HRESULT :=
  r ← get;
  let client_key := GetClientKeyName app_guid in
  let key := GetClientStateKeyName app_guid in
  let hr := RegKey_Open client_key r in
  if hr =? HRESULT_FROM_WIN32 ERROR_FILE_NOT_FOUND then mret S_OK
  else if FAILED hr then mret hr
  else
    hr ← CreateClientStateKey app_guid;
    if FAILED hr then mret hr
    else
      r ← get;
      let version := out_or [] (GetValueString client_key kRegValueProductVersion r) in
      hr ← RegKey_SetValue key kRegValueProductVersion (REG_SZ version);
      if FAILED hr then mret hr
      else
        r ← get;
        let language := out_or [] (GetValueString client_key kRegValueLanguage r) in
        if negb (IsEmpty language) then RegKey_SetValue key kRegValueLanguage (REG_SZ language) else mret S_OK.

(** ** Counting *)

Definition ClearOemInstalled (app_ids : list CString) : RegM unit :=
  for_each (fun app_id =>
    match StringToGuidSafe app_id with
    | None => mret tt
    | Some app_guid =>
        let key := GetClientStateKeyName app_guid in
        r ← get;
        if FAILED (RegKey_Open key r) then mret tt
        else
          RegKey_DeleteValue key kRegValueOemInstall;;
          RegKey_SetValue key kRegValueInstallTimeSec (REG_DWORD (u32 now_sec));;
          SetInitialDayOfValues key (-1);;
          mret tt
    end) app_ids.

Definition ClearInstallationId (a : App) : RegM HRESULT :=
  if iid_ (props a) =? GUID_NULL then mret S_OK
  else if bool_decide (did_run_ (props a) = ACTIVE_RUN)
          || (kMaxLifeOfInstallationIDSec <=? install_time_diff_sec_ (props a)) || (kGoopdateGuid =? app_guid a)
  then
    hr ← CreateClientStateKey (app_guid a);
    if FAILED hr then mret hr else RegKey_DeleteValue (GetClientStateKeyName (app_guid a)) kRegValueInstallationId
  else mret S_OK.

Definition SetLastPingTimeMetrics (a : App) (elapsed_days_since_datum elapsed_seconds_since_day_start : Z) : RegM unit :=
  let p := props a in
  let key := GetClientStateKeyName (app_guid a) in
  hr ← CreateClientStateKey (app_guid a);
  if FAILED hr then mret tt
  else
    let day_start := REG_DWORD (u32 (now_sec - elapsed_seconds_since_day_start)) in
    let day := REG_DWORD (u32 elapsed_days_since_datum) in
    let ran := bool_decide (did_run_ p = ACTIVE_RUN) in
    let did_send_active_ping := ran && negb (days_since_last_active_ping_ p =? 0) in
    when did_send_active_ping (RegKey_SetValue key kRegValueActivePingDayStartSec day_start;; mret tt);;
    let did_send_roll_call := negb (days_since_last_roll_call_ p =? 0) in
    when did_send_roll_call (RegKey_SetValue key kRegValueRollCallDayStartSec day_start;; mret tt);;
    let did_send_day_of_last_activity := ran && negb (day_of_last_activity_ p =? 0) in
    when (did_send_active_ping || did_send_day_of_last_activity)
      (RegKey_SetValue key kRegValueDayOfLastActivity day;; mret tt);;
    let did_send_day_of_roll_call := negb (day_of_last_roll_call_ p =? 0) in
    when (did_send_roll_call || did_send_day_of_roll_call)
      (RegKey_SetValue key kRegValueDayOfLastRollCall day;; mret tt);;
    RegKey_SetValue key kRegValuePingFreshness (REG_SZ (GuidToString NewGuid));;
    mret tt.

Definition UpdateDayOfInstallIfNecessary (a : App) (elapsed_days_since_datum : Z) : RegM unit :=
  let key := GetClientStateKeyName (app_guid a) in
  hr ← CreateClientStateKey (app_guid a);
  if FAILED hr then mret tt
  else
    r ← get;
    match GetValueDword key kRegValueDayOfInstall r with
    | inl _ => mret tt
    | inr existing_day_of_install =>
        when (existing_day_of_install =? u32 (-1))
          (RegKey_SetValue key kRegValueDayOfInstall (REG_DWORD (u32 elapsed_days_since_datum));; mret tt)
    end.

Definition PersistUpdateCheckSuccessfullySent (a : App) (elapsed_days_since_datum elapsed_seconds_since_day_start : Z) :
    RegM HRESULT :=
  ResetDidRun is_machine (GuidToString (app_guid a));;
  SetLastPingTimeMetrics a elapsed_days_since_datum elapsed_seconds_since_day_start;;
  UpdateDayOfInstallIfNecessary a elapsed_days_since_datum;;
  ClearInstallationId a;;
  mret S_OK.

Definition RemoveClientState (app_guid : GUID) : RegM HRESULT :=
  utils_RemoveClientState is_machine (GuidToString app_guid).

End Manager.
