(* ===== verification/AppManagerFacts.v ===== *)
(** The theorems about the application manager: what an installer reports is
    read once, what is written for an application is read back, counts are
    sent once a day, and the first brand stays. *)

From S2P Require Import Prelude Hresult CStrings Protocol Policy PolicyFacts Paths Registry RegistryFacts AppRegistry.
From S2P Require Import Package AppModel AppManager.

(** Decides the comparisons of the names of values of one key. *)
Ltac names :=
  repeat (first
    [ rewrite same_value_key
    | rewrite reg_value_SetValue
    | rewrite reg_value_DeleteValue
    | rewrite reg_value_Create
    | match goal with
      | |- context [bool_decide (MakeLower ?a = MakeLower ?b)] =>
          let x := eval vm_compute in (bool_decide (MakeLower a = MakeLower b)) in
          lazymatch x with
          | true => change (bool_decide (MakeLower a = MakeLower b)) with true
          | false => change (bool_decide (MakeLower a = MakeLower b)) with false
          end; cbv iota
      end ]).

Section Facts.
Context `{Env, GuidOps, RegEnv} (is_machine : bool).

(** ** Keys of applications *)

Lemma guid_key_name base g :
  reg_name (AppendRegKeyPath base (GuidToString g)) = MakeLower (trim_right base) ++ 92 :: MakeLower (GuidToString g).
Proof.
  apply plain_key_name. split; [by destruct (GuidToString_brace g) as [t ->]|].
  apply forallb_forall. intros c Hc%list_elem_of_In. pose proof (proj1 (Forall_forall _ _) (GuidToString_plain g) c Hc). cbn in *. lia.
Qed.

Lemma guid_key_length base g :
  length (reg_name (AppendRegKeyPath base (GuidToString g))) = (length (trim_right base) + 39)%nat.
Proof. rewrite guid_key_name, length_app, length_MakeLower. cbn [length]. rewrite length_MakeLower, GuidToString_length. lia. Qed.

Lemma client_state_length g :
  length (reg_name (GetClientStateKeyName is_machine g)) = 85%nat.
Proof. unfold GetClientStateKeyName, GetAppClientStateKey. rewrite guid_key_length. by destruct is_machine. Qed.

Lemma client_state_not_update g :
  reg_name (GetClientStateKeyName is_machine g) <> reg_name (registry_update is_machine).
Proof. intros Heq%(f_equal length). rewrite client_state_length in Heq. by destruct is_machine. Qed.

Lemma client_state_inj g g' :
  0 <= g < 2 ^ 128 -> 0 <= g' < 2 ^ 128 ->
  reg_name (GetClientStateKeyName is_machine g) = reg_name (GetClientStateKeyName is_machine g') -> g = g'.
Proof.
  intros Hg Hg'. unfold GetClientStateKeyName, GetAppClientStateKey. rewrite !guid_key_name.
  intros [= Heq]%app_inv_head. apply (f_equal StringToGuidSafe) in Heq.
  rewrite !StringToGuidSafe_lower in Heq by done. by injection Heq.
Qed.

(** ** What an installer reports *)

(** The values of another key stay. *)
Lemma for_each_other_key {A} (k v k' : CString) (body : A -> RegM unit) l r :
  (forall x r, reg_value k v (exec (body x) r) = reg_value k v r) ->
  reg_value k v (exec (for_each body l) r) = reg_value k v r.
Proof. intros Hb. apply (for_each_inv (fun s => reg_value k v s = reg_value k v r)); [|done]. intros x s _ <-. apply Hb. Qed.

Lemma delete_values_spec k v l r :
  reg_value k v (exec (for_each (delete_value k) l) r) =
    if existsb (fun v' => bool_decide (MakeLower v = MakeLower v')) l then None else reg_value k v r.
Proof.
  revert r. induction l as [|v' l IH]; intros r; [done|]. cbn [for_each existsb]. rewrite exec_bind, IH.
  unfold delete_value. rewrite exec_bind, exec_ret. names. destruct (existsb _ l); [by destruct (bool_decide _)|].
  by destruct (bool_decide (MakeLower v = MakeLower v')).
Qed.

Lemma rename_value_spec k v o n r :
  MakeLower o <> MakeLower n ->
  reg_value k v (exec (rename_value k o n) r) =
    if bool_decide (MakeLower v = MakeLower o) then None
    else if bool_decide (MakeLower v = MakeLower n)
         then match reg_value k o r with Some x => Some x | None => reg_value k v r end
    else reg_value k v r.
Proof. intros Hne. unfold rename_value. rewrite exec_bind, exec_ret, reg_value_RenameValue by done. names. done. Qed.

(** The values are renamed, and there are none under the old names. *)
Lemma Clear_spec g r o n :
  (o, n) ∈ renamed_values ->
  let key := GetClientStateKeyName is_machine g in
  let r' := exec (ClearInstallerResultApiValues is_machine g) r in
  reg_value key o r' = None /\ reg_value key n r' = reg_value key o r.
Proof.
  intros Hon. cbv zeta. unfold ClearInstallerResultApiValues. rewrite !exec_bind.
  set (key := GetClientStateKeyName is_machine g). set (upd := registry_update is_machine).
  assert (reg_name key <> reg_name upd) as Hne by apply client_state_not_update.
  set (r1 := exec (for_each (delete_value key) last_values) r).
  set (r2 := exec (for_each (delete_value upd) last_values) r1).
  set (r3 := exec (for_each (fun on => rename_value key on.1 on.2) renamed_values) r2).
  assert (forall v, reg_value key v (exec (for_each (copy_value key upd) copied_values) r3) = reg_value key v r3) as Hcopy.
  { intros v. apply (for_each_other_key key v upd). intros x s. unfold copy_value.
    rewrite exec_bind, exec_ret. by apply reg_value_CopyValue, same_value_other_key. }
  assert (forall v, reg_value key v r2 = reg_value key v r1) as Hupd.
  { intros v. apply (for_each_other_key key v upd). intros x s. unfold delete_value.
    rewrite exec_bind, exec_ret, reg_value_DeleteValue. by rewrite same_value_other_key. }
  rewrite !Hcopy. unfold r3. unfold renamed_values in Hon |- *. cbn [for_each fst snd]. rewrite !exec_bind, exec_ret.
  rewrite !rename_value_spec by (by vm_compute). rewrite !Hupd. unfold r1. rewrite !delete_values_spec.
  set (f := fun v => reg_value key v r).
  repeat match goal with |- context [reg_value key ?v r] => change (reg_value key v r) with (f v) end. clearbody f. clear -Hon.
  repeat (apply elem_of_cons in Hon as [[= -> ->]|Hon]; [by vm_compute; split; [|destruct (f _)]|]).
  by apply elem_of_nil in Hon.
Qed.

Lemma Open_FAILED k r : FAILED (RegKey_Open k r) = negb (RegKey_HasKey k r).
Proof. unfold RegKey_Open. by destruct (RegKey_HasKey k r). Qed.

Lemma reg_value_no_key k v r : RegKey_HasKey k r = false -> reg_value k v r = None.
Proof. unfold RegKey_HasKey, reg_value. intros Hk%bool_decide_eq_false. destruct (reg_values k r); [|done]. destruct Hk. eauto. Qed.

Lemma reading_nothing g v r :
  Forall (fun on => reg_value (GetClientStateKeyName is_machine g) on.1 r = None) renamed_values ->
  av_installer_result v < INSTALLER_RESULT_MAX ->
  eval (ReadInstallerResultApiValues is_machine g v) r = v.
Proof.
  intros Hnone Hv. unfold ReadInstallerResultApiValues. rewrite eval_bind. change (eval get r) with r. change (exec get r) with r.
  destruct (FAILED _); [done|]. cbv zeta. rewrite eval_bind, eval_ret. unfold GetValueDword, GetValueString.
  unfold renamed_values in Hnone. rewrite !Forall_cons in Hnone. cbn [fst] in Hnone. destruct Hnone as (-> & -> & -> & -> & -> & _).
  cbn [out_or]. rewrite (proj2 (Z.leb_gt _ _)) by exact Hv. by destruct v.
Qed.

(** C20. What an installer reports in the registry is read once: reading moves the
    values to the names of the last results, where they stay until the next
    installer runs, and a second reading finds none of them. *)
Theorem installer_results_read_once g v v' r :
  av_installer_result v' < INSTALLER_RESULT_MAX ->
  let key := GetClientStateKeyName is_machine g in
  let r1 := exec (ReadInstallerResultApiValues is_machine g v) r in
  eval (ReadInstallerResultApiValues is_machine g v') r1 = v'
  /\ forall o n, (o, n) ∈ renamed_values ->
     reg_value key o r1 = None /\ (RegKey_HasKey key r = true -> reg_value key n r1 = reg_value key o r).
Proof.
  intros Hv key r1.
  assert (forall o n, (o, n) ∈ renamed_values ->
    reg_value key o r1 = None /\ (RegKey_HasKey key r = true -> reg_value key n r1 = reg_value key o r)) as Hmoved.
  { intros o n Hon. unfold r1, ReadInstallerResultApiValues. rewrite exec_bind. change (eval get r) with r.
    change (exec get r) with r. fold key. rewrite Open_FAILED. destruct (RegKey_HasKey key r) eqn:Ek; cbn [negb].
    - cbv zeta. rewrite exec_bind, exec_ret. destruct (Clear_spec g r o n Hon) as [Ho Hn]. by split.
    - split; [by apply reg_value_no_key|done]. }
  split; [|exact Hmoved]. apply reading_nothing; [|exact Hv]. apply Forall_forall. intros [o n] Hon. by apply (Hmoved o n).
Qed.

(** ** The version and the cohort *)

Lemma client_not_state g g' : reg_name (GetClientKeyName is_machine g) <> reg_name (GetClientStateKeyName is_machine g').
Proof.
  intros Heq%(f_equal length). rewrite client_state_length in Heq.
  unfold GetClientKeyName, GetAppClientsKey in Heq. rewrite guid_key_length in Heq. by destruct is_machine.
Qed.

Lemma cohort_missing k id r : reg_value (GetCohortKeyName k id) [] r = None -> forall cohort,
  FAILED (utils_ReadCohort k id cohort r).1 = true /\ (utils_ReadCohort k id cohort r).2 = cohort.
Proof. intros Hn [[c h] n]. unfold utils_ReadCohort, GetValueString. by rewrite Hn. Qed.

(** The cohort that was written is read; without an identifier there is none. *)
Lemma cohort_roundtrip id c hint name cohort r :
  let r' := exec (utils_WriteCohort is_machine id (c, hint, name)) r in
  if IsEmpty c
  then FAILED (utils_ReadCohort is_machine id cohort r').1 = true /\ (utils_ReadCohort is_machine id cohort r').2 = cohort
  else utils_ReadCohort is_machine id cohort r' = (S_OK, (c, hint, name)).
Proof.
  cbv zeta. unfold utils_WriteCohort. destruct (IsEmpty c).
  - apply cohort_missing. unfold utils_DeleteCohortKey. rewrite reg_value_DeleteKey, is_at_or_below_refl, andb_true_r.
    destruct (RegKey_HasKey _ r) eqn:Ek; [done|]. unfold reg_value, RegKey_HasKey in *. apply bool_decide_eq_false in Ek.
    destruct (reg_values _ r); [destruct Ek; eauto|done].
  - reg_run. destruct cohort as [[c0 h0] n0]. unfold utils_ReadCohort, GetValueString. by names.
Qed.

(** ** Counting days *)

Lemma reg_value_set_when k v (b : bool) k' v' x r :
  reg_value k v (exec (when b (RegKey_SetValue k' v' x;; mret tt)) r) =
    if b && same_value k v k' v' then Some x else reg_value k v r.
Proof. destruct b; cbn [when andb]; [|done]. autorewrite with st. apply reg_value_SetValue. Qed.

Lemma CreateClientStateKey_ok g r : eval (CreateClientStateKey is_machine g) r = S_OK.
Proof. unfold CreateClientStateKey. destruct is_machine; [|done]. by destruct (kGoopdateGuid =? g). Qed.

Lemma CreateClientStateKey_value k v g r :
  reg_value k v (exec (CreateClientStateKey is_machine g) r) = reg_value k v r.
Proof.
  unfold CreateClientStateKey. autorewrite with st. change (FAILED (eval _ r)) with false. cbv iota.
  destruct is_machine; cbn [negb]; [|by autorewrite with st reg].
  destruct (kGoopdateGuid =? g); by autorewrite with st reg.
Qed.

(** The start of the day is written exactly for the counts that were sent. *)
Lemma SetLastPingTimeMetrics_day_starts a days sec r :
  let key := GetClientStateKeyName is_machine (app_guid a) in
  let r' := exec (SetLastPingTimeMetrics is_machine a days sec) r in
  let day_start := REG_DWORD (u32 (now_sec - sec)) in
  reg_value key kRegValueRollCallDayStartSec r' =
    (if days_since_last_roll_call_ (props a) =? 0 then reg_value key kRegValueRollCallDayStartSec r else Some day_start)
  /\ reg_value key kRegValueActivePingDayStartSec r' =
    (if bool_decide (did_run_ (props a) = ACTIVE_RUN) && negb (days_since_last_active_ping_ (props a) =? 0)
     then Some day_start else reg_value key kRegValueActivePingDayStartSec r).
Proof.
  cbv zeta. unfold SetLastPingTimeMetrics. rewrite exec_bind, CreateClientStateKey_ok.
  change (FAILED S_OK) with false. cbv iota zeta. autorewrite with st reg. rewrite !reg_value_set_when, !CreateClientStateKey_value.
  names. rewrite !andb_false_r, !andb_true_r. split; [by destruct (days_since_last_roll_call_ _ =? 0)|done].
Qed.

End Facts.

(** ** Branding *)

Lemma reg_value_SetInitialDay k v key days r `{RegEnv} :
  reg_name k = reg_name key -> MakeLower v = MakeLower kRegValueBrandCode ->
  reg_value k v (exec (SetInitialDayOfValues key days) r) = reg_value k v r.
Proof.
  intros Hk Hv. assert (forall v' x b r, MakeLower kRegValueBrandCode <> MakeLower v' ->
    reg_value k v (exec (when b (RegKey_SetValue key v' x;; mret tt)) r) = reg_value k v r) as Hw.
  { intros v' x b r' Hne. rewrite reg_value_set_when. unfold same_value. rewrite (bool_decide_eq_false_2 (MakeLower v = _)) by congruence.
    by rewrite !andb_false_r. }
  unfold SetInitialDayOfValues. autorewrite with st. destruct (FAILED _); [done|]. cbv zeta. autorewrite with st.
  rewrite !Hw by done. rewrite reg_value_SetValue. unfold same_value.
  by rewrite (bool_decide_eq_false_2 (MakeLower v = _)), andb_false_r by (by rewrite Hv).
Qed.

Lemma take_IsEmpty n (s : CString) : n <> 0%nat -> s <> [] -> take n s <> [].
Proof. by destruct n, s. Qed.

(** The brand an application has after it was branded. *)
Definition brand_of (key : CString) (r : Registry) : CString := out_or [] (GetValueString key kRegValueBrandCode r).

Lemma SetAppBranding_brand `{RegEnv} key brand client referral days r :
  FAILED (eval (SetAppBranding key brand client referral days) r) = false ->
  let r' := exec (SetAppBranding key brand client referral days) r in
  brand_of key r' =
    (if negb (IsEmpty (brand_of key r)) then take kBrandIdLength (brand_of key r)
     else if IsEmpty brand then kDefaultGoogleUpdateBrandCode else brand)
  /\ (length brand <= kBrandIdLength)%nat.
Proof.
  intros Hok. cbv zeta. unfold SetAppBranding in *. destruct (Nat.ltb_spec kBrandIdLength (length brand)) as [?|Hlen]; [done|].
  split; [|exact Hlen]. clear Hok. rewrite exec_bind, eval_Create. change (FAILED S_OK) with false. cbv iota. autorewrite with st.
  set (r1 := exec (RegKey_Create key) r).
  assert (out_or [] (GetValueString key kRegValueBrandCode r1) = brand_of key r) as ->.
  { unfold brand_of, GetValueString, r1. by autorewrite with reg. }
  cbv zeta. destruct (IsEmpty (brand_of key r)) eqn:Eb; cbn [negb].
  - reg_run. destruct (IsEmpty client), (IsEmpty referral); cbn [negb]; reg_run; unfold brand_of at 1, GetValueString;
      rewrite reg_value_SetInitialDay by done; by names.
  - autorewrite with st. unfold brand_of at 1, GetValueString. rewrite reg_value_set_when. names. rewrite andb_true_r.
    unfold r1. autorewrite with reg. destruct (Nat.ltb _ _) eqn:El; [done|]. fold (GetValueString key kRegValueBrandCode r).
    fold (brand_of key r). apply Nat.ltb_ge in El. by rewrite take_ge.
Qed.

(** The first brand stays: once an application was branded it has a brand of at
    most four characters, and branding it again, whatever with, succeeds for a
    brand of at most four characters and changes no value of the registry. *)
Theorem first_brand_stays `{RegEnv} key brand client referral days brand' client' referral' days' r :
  FAILED (eval (SetAppBranding key brand client referral days) r) = false ->
  let r1 := exec (SetAppBranding key brand client referral days) r in
  let second := SetAppBranding key brand' client' referral' days' in
  (0 < length (brand_of key r1) <= kBrandIdLength)%nat
  /\ (IsEmpty (brand_of key r) = true -> brand <> [] -> brand_of key r1 = brand)
  /\ eval second r1 = (if Nat.ltb kBrandIdLength (length brand') then E_INVALIDARG else S_OK)
  /\ forall k v, reg_value k v (exec second r1) = reg_value k v r1.
Proof.
  intros Hok r1 second. destruct (SetAppBranding_brand key brand client referral days r Hok) as [Hb Hlen]. fold r1 in Hb.
  assert (0 < length (brand_of key r1) <= kBrandIdLength)%nat as Hr1.
  { rewrite Hb. destruct (brand_of key r) as [|c s]; cbn [IsEmpty negb]; [|rewrite length_take; unfold kBrandIdLength; cbn [length]; lia].
    destruct brand; cbn [IsEmpty]; [by vm_compute; lia|cbn in *; lia]. }
  split; [exact Hr1|]. split; [intros He Hne; rewrite Hb, He; by destruct brand|].
  unfold second, SetAppBranding. destruct (Nat.ltb _ (length brand')); [by split|]. reg_run. cbv zeta.
  assert (out_or [] (GetValueString key kRegValueBrandCode (exec (RegKey_Create key) r1)) = brand_of key r1) as ->.
  { unfold brand_of, GetValueString. by autorewrite with reg. }
  assert (IsEmpty (brand_of key r1) = false) as -> by (destruct (brand_of key r1); [cbn in Hr1; lia|done]).
  cbn [negb]. rewrite (proj2 (Nat.ltb_ge _ _)) by apply Hr1. split; [done|]. intros k v. cbn [when]. by autorewrite with st reg.
Qed.

(** A later reading, with the clock [e'], of the day that was written with the
    clock [e]. *)
Lemma days_since_day_start (e e' : RegEnv) sec :
  let passed := @now_sec e' - (@now_sec e - sec) in
  - 2 ^ 31 <= @now_sec e - sec < 2 ^ 31 -> 0 <= passed < 2 ^ 31 ->
  @GetNumberOfDaysSince e' (s32 (u32 (@now_sec e - sec))) = passed / 86400.
Proof.
  cbv zeta. intros Hs Hp. rewrite s32_u32, s32_small by lia. unfold GetNumberOfDaysSince.
  rewrite (proj2 (Z.ltb_ge _ _)) by lia. rewrite s32_small by lia. by rewrite Z.quot_div_nonneg by lia.
Qed.

(** Users are counted once a day: after a roll call was sent and persisted, an
    application read later has as many days since the last roll call as full
    days passed since the start of the server's day; within that day it is zero,
    and persisting the next check does not move the day.  The same holds for
    the active ping of an application that ran. *)
Theorem counted_once_a_day `{GuidOps} (e e' : RegEnv) (is_machine : bool) a b days sec days' sec' r :
  let passed := @now_sec e' - (@now_sec e - sec) in
  let r1 := exec (@SetLastPingTimeMetrics _ e is_machine a days sec) r in
  let b1 := @ReadClientState _ e' is_machine b r1 in
  let key := GetClientStateKeyName is_machine (app_guid a) in
  let r2 := exec (@SetLastPingTimeMetrics _ e' is_machine b1 days' sec') r1 in
  app_guid b = app_guid a ->
  - 2 ^ 31 <= @now_sec e - sec < 2 ^ 31 -> 0 <= passed < 2 ^ 31 ->
  (days_since_last_roll_call_ (props a) <> 0 ->
     days_since_last_roll_call_ (props b1) = passed / 86400
     /\ (passed < 86400 -> reg_value key kRegValueRollCallDayStartSec r2 = reg_value key kRegValueRollCallDayStartSec r1))
  /\ (did_run_ (props a) = ACTIVE_RUN -> days_since_last_active_ping_ (props a) <> 0 ->
     days_since_last_active_ping_ (props b1) = passed / 86400
     /\ (passed < 86400 -> reg_value key kRegValueActivePingDayStartSec r2 = reg_value key kRegValueActivePingDayStartSec r1)).
Proof.
  cbv zeta. intros Hg Hs Hp. pose proof (days_since_day_start e e' sec Hs Hp) as Hd. cbv zeta in Hd.
  set (r1 := exec (@SetLastPingTimeMetrics _ e is_machine a days sec) r).
  destruct (@SetLastPingTimeMetrics_day_starts _ e is_machine a days sec r) as [Hr Ha]. fold r1 in Hr, Ha.
  set (b1 := @ReadClientState _ e' is_machine b r1).
  assert (app_guid b1 = app_guid a) as Hg1 by exact Hg.
  destruct (@SetLastPingTimeMetrics_day_starts _ e' is_machine b1 days' sec' r1) as [Hr2 Ha2]. rewrite Hg1 in Hr2, Ha2.
  split.
  - intros Hne. rewrite (proj2 (Z.eqb_neq _ _)) in Hr by exact Hne.
    assert (days_since_last_roll_call_ (props b1) = (@now_sec e' - (@now_sec e - sec)) / 86400) as Hb.
    { unfold b1, ReadClientState. cbn -[GetClientStateKeyName GetNumberOfDaysSince]. unfold GetValueDword. rewrite Hg, Hr. exact Hd. }
    split; [exact Hb|]. intros Hlt. by rewrite Hr2, Hb, Z.div_small by lia.
  - intros Hran Hne. rewrite (proj2 (Z.eqb_neq _ _)), bool_decide_eq_true_2 in Ha by done. cbn [andb negb] in Ha.
    assert (days_since_last_active_ping_ (props b1) = (@now_sec e' - (@now_sec e - sec)) / 86400) as Hb.
    { unfold b1, ReadClientState. cbn -[GetClientStateKeyName GetNumberOfDaysSince]. unfold GetValueDword. rewrite Hg, Ha. exact Hd. }
    split; [exact Hb|]. intros Hlt. rewrite Ha2, Hb, Z.div_small by lia. by rewrite andb_false_r.
Qed.

(** ** Synchronizing the two keys of an application *)

Lemma SynchronizeClientState_version `{GuidOps} (is_machine : bool) g r :
  let client := GetClientKeyName is_machine g in
  let key := GetClientStateKeyName is_machine g in
  RegKey_HasKey client r = true ->
  GetValueString key kRegValueProductVersion (exec (SynchronizeClientState is_machine g) r) =
    inr (out_or [] (GetValueString client kRegValueProductVersion r)).
Proof.
  cbv zeta. intros Hk. unfold SynchronizeClientState. autorewrite with st. unfold RegKey_Open. rewrite Hk.
  change (S_OK =? _) with false. change (FAILED S_OK) with false. cbv iota zeta. rewrite exec_bind, CreateClientStateKey_ok.
  reg_run. set (r1 := exec (CreateClientStateKey _ _) r). cbv zeta.
  set (version := out_or [] (GetValueString _ kRegValueProductVersion r1)).
  assert (version = out_or [] (GetValueString (GetClientKeyName is_machine g) kRegValueProductVersion r)) as <-.
  { unfold version, r1. f_equal. apply GetValueString_ext, CreateClientStateKey_value. }
  unfold GetValueString at 1. destruct (IsEmpty (out_or [] _)); cbn [negb]; autorewrite with st; by names.
Qed.

(** An application whose [Clients] key has no version loses the version it had in
    the [ClientState] key: the result of reading is not looked at. *)
Lemma synchronize_loses_version `{GuidOps} (is_machine : bool) g r :
  let client := GetClientKeyName is_machine g in
  let key := GetClientStateKeyName is_machine g in
  RegKey_HasKey client r = true -> reg_value client kRegValueProductVersion r = None ->
  GetValueString key kRegValueProductVersion (exec (SynchronizeClientState is_machine g) r) = inr [].
Proof.
  cbv zeta. intros Hk Hv. rewrite SynchronizeClientState_version by exact Hk. unfold GetValueString. by rewrite Hv.
Qed.

(** ** Concrete registries *)

Definition sample_reg_env (hours : Z) : RegEnv.
Proof.
  refine {| GetCurrent100NSTime := kSecsTo100ns * (60 * 60 * 24 * (365 * 369 + 89) + 1600000000 + 3600 * hours);
            NewGuid := 7; GetProcessUser := inr (_T "S-1-5-18"); IsVistaOrLater := true |}. done.
Defined.

Definition sample_state_key : CString := @GetClientStateKeyName guid_ops true example_guid.

(** What an installer that failed leaves. *)
Definition sample_registry : Registry :=
  exec (RegKey_SetValue sample_state_key kRegValueInstallerResult (REG_DWORD 1);;
        RegKey_SetValue sample_state_key kRegValueInstallerError (REG_DWORD 5)) ∅.

Definition sample_api_values : InstallerApiValues := mkApiValues INSTALLER_RESULT_DEFAULT 0 0 [] [].

Lemma installer_results_read_once_witness :
  let r1 := exec (@ReadInstallerResultApiValues guid_ops true example_guid sample_api_values) sample_registry in
  eval (@ReadInstallerResultApiValues guid_ops true example_guid sample_api_values) sample_registry = mkApiValues 1 5 0 [] []
  /\ eval (@ReadInstallerResultApiValues guid_ops true example_guid sample_api_values) r1 = sample_api_values.
Proof.
  split; [by vm_compute|].
  exact (proj1 (@installer_results_read_once guid_ops true example_guid sample_api_values sample_api_values sample_registry
    ltac:(by vm_compute))).
Defined.

Lemma first_brand_stays_witness :
  let r1 := exec (@SetAppBranding (sample_reg_env 0) sample_state_key (_T "BRVA") [] [] 10) ∅ in
  brand_of sample_state_key r1 = _T "BRVA"
  /\ forall k v, reg_value k v (exec (@SetAppBranding (sample_reg_env 0) sample_state_key (_T "ABCD") [] [] 11) r1) = reg_value k v r1.
Proof.
  assert (FAILED (eval (@SetAppBranding (sample_reg_env 0) sample_state_key (_T "BRVA") [] [] 10) ∅) = false) as Hok by (by vm_compute).
  split; [by vm_compute|].
  destruct (@first_brand_stays (sample_reg_env 0) sample_state_key (_T "BRVA") [] [] 10 (_T "ABCD") [] [] 11 ∅ Hok)
    as (_ & _ & _ & Hsame). exact Hsame.
Defined.

(** An application that was never counted. *)
Definition sample_uncounted : App := @ReadClientState guid_ops (sample_reg_env 0) true (App_init example_guid true) ∅.

(** A check at noon of the server's day, the next one thirty hours later. *)
Lemma counted_once_a_day_witness :
  let a := sample_uncounted in
  let r1 := exec (@SetLastPingTimeMetrics guid_ops (sample_reg_env 0) true a 5000 43200) ∅ in
  days_since_last_roll_call_ (props a) = -1
  /\ days_since_last_roll_call_ (props (@ReadClientState guid_ops (sample_reg_env 30) true a r1)) = 1.
Proof.
  cbv zeta. assert (days_since_last_roll_call_ (props sample_uncounted) = -1) as Ha by (by vm_compute).
  assert (days_since_last_roll_call_ (props sample_uncounted) <> 0) as Hne by (by rewrite Ha).
  assert (- 2 ^ 31 <= @now_sec (sample_reg_env 0) - 43200 < 2 ^ 31) as Hs by (by vm_compute).
  assert (@now_sec (sample_reg_env 30) - (@now_sec (sample_reg_env 0) - 43200) = 151200) as Hp by (by vm_compute).
  split; [exact Ha|].
  destruct (@counted_once_a_day guid_ops (sample_reg_env 0) (sample_reg_env 30) true sample_uncounted sample_uncounted
    5000 43200 5000 43200 ∅ eq_refl Hs ltac:(rewrite Hp; lia)) as [Hr _].
  destruct (Hr Hne) as [-> _]. by rewrite Hp.
Defined.
