(* ===== verification/Sample.v ===== *)
(** A concrete environment and concrete data: string resources, a clock, a
    policy read from a registry, an application and a server's response.  The
    witnesses of the theorems are evaluated in it. *)

From S2P Require Import Prelude Hresult CStrings Machine Protocol Policy PolicyFacts Package AppModel.

(** Every resource is the text "text"; the clock advances 10 ms per reading. *)
#[refine]
Definition sample_env : Env := {|
  LoadString _ _ := _T "text";
  FormatMessage _ _ args := _T "text " ++ concat args;
  GetCurrentMsTime n := 10 * Z.of_nat n;
  CanCollectStats _ := false;
  IsRunningAsSystem := false;
  ExperimentLabels _ _ := [];
  RemoveTimestamps l := l;
  InstallerProgress _ _ := inl E_FAIL;
  GetOSInfo := Some (_T "10.0.19045.2546");
  GetArchitecture := _T "x64";
  IsArchitectureSupported arch := EqualNoCase arch (_T "x86") || EqualNoCase arch (_T "x64");
  perform _ _ m := m;
  LoadString_not_empty := _;
  FormatMessage_not_empty := _
|}.
Proof. all: done. Defined.

(** No policy is configured. *)
Definition open_policy : GroupPolicy := ConfigManager_GroupPolicy 0 false ConfigManager_init.

(** The administrator forbids updates of [example_guid]. *)
Definition closed_policy : GroupPolicy :=
  ConfigManager_GroupPolicy 0 false (example_load true (KeyOpen example_values)).

Definition sample_ctx : BundleCtx := mkBundleCtx true false (_T "en") false 1 (-1) (-1).
Definition sample_world : World := mkWorld [] 0 0 Machine_empty.

Definition sample_props : AppProps := with_is_eula_accepted TRISTATE_TRUE AppProps_default.

(** An application that has been added to a bundle. *)
Definition sample_app (update : bool) : App := set_props sample_props (App_init example_guid update).
Definition sample_state (update : bool) : AppSt := mkAppSt sample_world (sample_app update).
Definition sample_state_in (st : AppState) (update : bool) : AppSt :=
  mkAppSt sample_world (set_app_state st (sample_app update)).

Definition sample_package : InstallPackage :=
  mkInstallPackage (_T "setup.exe") [] true 1000 [] (_T "0123").
Definition sample_manifest : InstallManifest := mkInstallManifest (_T "app") (_T "2.0.0.0") [sample_package] [].
Definition sample_response_app (status : CString) : ResponseApp :=
  mkResponseApp kStatusOkValue (@GuidToString guid_ops example_guid) [] [] [] []
    (mkResponseUpdateCheck status [] [] [_T "https://host/path/"] sample_manifest) [] kStatusOkValue [].
Definition sample_response (status : CString) : Response :=
  mkResponse (_T "3.0") 100 5000 (mkSystemRequirements [] [] []) [sample_response_app status].

Definition sample_installer_result : InstallerResultInfo :=
  mkInstallerResultInfo INSTALLER_RESULT_SUCCESS 0 0 (_T "installed") [] [] POST_INSTALL_ACTION_DEFAULT.

(** A request with no applications yet. *)
Definition sample_request : Request :=
  UpdateRequest_Create
    (mkRequestEnv (fun _ => []) (_T "1.3.361.151") (_T "1.3.361.151") [] None [] false (Some (8 * 2 ^ 30))
       (true, true, true, true, true, true, true) (_T "10.0.19045.2546") [] (_T "x64"))
    true [] [] [] [].
