(* ===== verification/UpdateResponse.v ===== *)
(** Building update requests from applications and applying update responses
    to them: omaha/goopdate/update_request_utils.cc, update_response_utils.cc
    and worker_utils.cc. *)

From S2P Require Import Prelude Hresult CStrings Protocol Policy Package AppModel.

Section UpdateUtils.
Context `{Env, GroupPolicy, GuidOps} (ctx : BundleCtx).

(** ** [update_request_utils::BuildRequest] *)

Definition BuildRequest (a : App) (is_update_check : bool) (update_request : Request) : Request :=
  if negb is_update_check && (match ping_events a with [] => true | _ => false end) then update_request
  else if negb (App_is_eula_accepted a) && negb (bc_is_offline_install ctx) then update_request
  else
    let p := props a in
    let '(cohort, hint, name) := cohort_ p in
    let data :=
      (if negb (IsEmpty (server_install_data_index_ p))
       then [mkRequestData kInstallData (server_install_data_index_ p) []] else []) ++
      (if negb (IsEmpty (untrusted_data_ p))
       then [mkRequestData kUntrusted [] (untrusted_data_ p)] else []) in
    let ping :=
      mkRequestPing (did_run_ p) (days_since_last_active_ping_ p) (days_since_last_roll_call_ p)
        (day_of_last_activity_ p) (day_of_last_roll_call_ p) (ping_freshness_ p) in
    let update_check :=
      mkRequestUpdateCheck true (FAILED (App_CheckGroupPolicy ctx a)) (tt_token_ p)
        (PolicyRollbackAllowed (app_guid a)) (PolicyTargetVersionPrefix (app_guid a))
        (PolicyTargetChannel (app_guid a)) in
    UpdateRequest_AddApp update_request
      (mkRequestApp (GuidToString (app_guid a)) (version (current_version a)) (version (next_version a))
         (app_defined_attributes_ p) (ap_ p) (language_ p) (GuidToString (iid_ p)) (brand_code_ p)
         (client_id_ p) (RemoveTimestamps (ExperimentLabels (bc_is_machine ctx) (GuidToString (app_guid a))))
         (install_time_diff_sec_ p) (day_of_install_ p) cohort hint name
         (if is_update_check then update_check else RequestUpdateCheck_default)
         (if is_update_check then data else [])
         (if is_update_check then ping else RequestPing_default)
         (ping_events a)).

(** ** System requirements *)

(** [std::regex_search(s, L"^\\d+\\.\\d+$")]. *)
Definition is_dotted_pair (s : CString) : bool :=
  let major := take_while String_IsDigit s in
  match drop_while String_IsDigit s with
  | c :: rest =>
      negb (IsEmpty major) && (c =? 46) && negb (IsEmpty rest) && forallb String_IsDigit rest
  | [] => false
  end.

Definition OSVersionFromString (s : CString) : Z :=
  if is_dotted_pair s then VersionFromString (s ++ _T ".0.0") else VersionFromString s.

Definition IsPlatformCompatible (platform : CString) : bool :=
  IsEmpty platform || EqualNoCase platform kPlatformWin.

(** The loop that splits the list at the commas.  Every token consumes a
    character, so the length of the string bounds the iterations. *)
Fixpoint tokenize_arch (fuel : nat) (arch_list : CString) (pos : Z) : list CString :=
  match fuel with
  | O => []
  | S fuel' =>
      let '(token, pos') := Tokenize arch_list (_T ",") pos in
      let arch := MakeLower (Trim token) in
      (if IsEmpty arch then [] else [arch]) ++
      (if pos' =? -1 then [] else tokenize_arch fuel' arch_list pos')
  end.

(** [arch[0] == '-']. *)
Definition is_negative_arch (arch : CString) : bool :=
  match arch with c :: _ => c =? 45 | [] => false end.

Definition IsArchCompatible (arch_list : CString) : bool :=
  let architectures := tokenize_arch (S (length arch_list)) arch_list 0 in
  match architectures with
  | [] => true
  | _ =>
      if bool_decide (_T "-" ++ MakeLower GetArchitecture ∈ architectures) then false
      else
        let positive := List.filter (fun arch => negb (is_negative_arch arch)) architectures in
        match positive with
        | [] => true
        | _ => existsb IsArchitectureSupported positive
        end
  end.

Definition IsOSVersionCompatible (min_os_version : CString) : bool :=
  IsEmpty min_os_version ||
  match GetOSInfo with
  | None => true
  | Some current_os_ver => OSVersionFromString min_os_version <=? OSVersionFromString current_os_ver
  end.

(** An [UpdateResponseResult]. *)
Definition UpdateResponseResult : Type := HRESULT * CString.

Definition CheckSystemRequirements (response : Response) (language : CString) : UpdateResponseResult :=
  let sys_req := rs_sys_req response in
  if IsPlatformCompatible (sr_platform sys_req) && IsArchCompatible (sr_arch sys_req)
     && IsOSVersionCompatible (sr_min_os_version sys_req)
  then (S_OK, [])
  else (GOOPDATE_E_OS_NOT_SUPPORTED, LoadString language IDS_OS_NOT_SUPPORTED).

(** ** The response for one application *)

Definition GetApp (response : Response) (appid : CString) : option ResponseApp :=
  List.find (fun app => EqualNoCase appid (sa_appid app)) (rs_apps response).

(** The loop of [ValidateUntrustedData]: the count and the last status. *)
Definition untrusted_scan (data : list ResponseData) : Z * bool :=
  fold_left (fun '(n, valid) d =>
    if bool_decide (sd_name d = kUntrusted)
    then (n + 1, bool_decide (sd_status d = kStatusOkValue)) else (n, valid)) data (0, false).

Definition ValidateUntrustedData (data : list ResponseData) : HRESULT :=
  let '(num_untrusted_data_elements, is_valid) := untrusted_scan data in
  if (num_untrusted_data_elements =? 1) && is_valid then S_OK
  else GOOPDATEINSTALL_E_INVALID_UNTRUSTED_DATA.

(** [GetInstallData]: the code and the data written to the out parameter. *)
Definition GetInstallData (data : list ResponseData) (install_data_index : CString) : HRESULT * CString :=
  if IsEmpty install_data_index then (S_OK, [])
  else
    match List.find (fun d => bool_decide (install_data_index = sd_install_data_index d)) data with
    | Some d =>
        if negb (bool_decide (sd_status d = kStatusOkValue)) then (GOOPDATE_E_INVALID_INSTALL_DATA_INDEX, [])
        else (S_OK, sd_install_data d)
    | None => (GOOPDATE_E_INVALID_INSTALL_DATA_INDEX, [])
    end.

(** A child element reports an error when it has a status other than "ok". *)
Definition bad_status (status : CString) : bool :=
  negb (IsEmpty status) && negb (EqualNoCase kStatusOkValue status).

Definition GetAppResponseStatus (app : ResponseApp) : CString :=
  if negb (EqualNoCase kStatusOkValue (sa_status app)) then sa_status app
  else if bad_status (suc_status (sa_update_check app)) then suc_status (sa_update_check app)
  else
    match List.find (fun d => bad_status (sd_status d)) (sa_data app) with
    | Some d => sd_status d
    | None =>
        if bad_status (sa_ping_status app) then sa_ping_status app
        else
          match List.find bad_status (sa_events app) with
          | Some status => status
          | None => sa_status app
          end
    end.

Definition kShortCompanyName : CString := _T "BraveSoftware".
Definition kOmahaShellFileName : CString := _T "BraveUpdate.exe".
Definition kGoogleUpdateAppId : CString := _T "{B131C935-9BE6-41DA-9599-1F776BEB8019}".

Definition GetResult (response : Response) (appid app_name language : CString) : UpdateResponseResult :=
  match GetApp response appid with
  | None => (GOOPDATE_E_NO_SERVER_RESPONSE, LoadString language IDS_UNKNOWN_APPLICATION)
  | Some response_app =>
      let status := GetAppResponseStatus response_app in
      if EqualNoCase kStatusOkValue status then (S_OK, [])
      else if EqualNoCase kStatusNoUpdate status then
        (GOOPDATE_E_NO_UPDATE_RESPONSE, LoadString language IDS_NO_UPDATE_RESPONSE)
      else if EqualNoCase kStatusRestrictedExportCountry status then
        (GOOPDATE_E_RESTRICTED_SERVER_RESPONSE, LoadString language IDS_RESTRICTED_RESPONSE_FROM_SERVER)
      else if EqualNoCase kStatusUnKnownApplication status then
        (GOOPDATE_E_UNKNOWN_APP_SERVER_RESPONSE, LoadString language IDS_UNKNOWN_APPLICATION)
      else if EqualNoCase kStatusHwNotSupported status then
        (GOOPDATE_E_HW_NOT_SUPPORTED, FormatMessage language IDS_HW_NOT_SUPPORTED [app_name])
      else if EqualNoCase kStatusOsNotSupported status then
        (GOOPDATE_E_OS_NOT_SUPPORTED, LoadString language IDS_OS_NOT_SUPPORTED)
      else if EqualNoCase kStatusInternalError status then
        (GOOPDATE_E_INTERNAL_ERROR_SERVER_RESPONSE,
         FormatMessage language IDS_NON_OK_RESPONSE_FROM_SERVER [status])
      else if EqualNoCase kStatusHashError status then
        (GOOPDATE_E_SERVER_RESPONSE_NO_HASH,
         FormatMessage language IDS_NON_OK_RESPONSE_FROM_SERVER [status])
      else if EqualNoCase kStatusUnsupportedProtocol status then
        (GOOPDATE_E_SERVER_RESPONSE_UNSUPPORTED_PROTOCOL,
         FormatMessage language IDS_INSTALLER_OLD [kShortCompanyName])
      else
        (GOOPDATE_E_UNKNOWN_SERVER_RESPONSE,
         FormatMessage language IDS_NON_OK_RESPONSE_FROM_SERVER [status])
  end.

(** [IsOmahaUpdateAvailable] only looks at the code: the language is not used. *)
Definition IsOmahaUpdateAvailable (response : Response) : bool :=
  (GetResult response kGoogleUpdateAppId [] []).1 =? S_OK.

(** ** [BuildApp] *)

Fixpoint add_urls (urls : list CString) (av : AppVersion) : AppVersion :=
  match urls with
  | [] => av
  | url :: urls' => add_urls urls' (AppVersion_AddDownloadBaseUrl url av).2
  end.

(** The packages added before the first failure stay. *)
Fixpoint add_packages (l : list InstallPackage) (av : AppVersion) : HRESULT * AppVersion :=
  match l with
  | [] => (S_OK, av)
  | package :: l' =>
      match AppVersion_AddPackage (ip_name package) (ip_size package) (ip_hash_sha256 package) av with
      | None => (E_INVALIDARG, av)
      | Some av' => add_packages l' av'
      end
  end.

(** The part of [BuildApp] for an update that is available. *)
Definition BuildApp_update (response_app : ResponseApp) : AppM HRESULT :=
  let update_check := sa_update_check response_app in
  a ← get_app;
  let av := add_urls (suc_urls update_check) (next_version a) in
  let '(hr, av') := add_packages (im_packages (suc_install_manifest update_check)) av in
  modify_app (set_next_version av');;
  if FAILED hr then mret hr
  else
    let hr := if negb (IsEmpty (untrusted_data_ (props a)))
              then ValidateUntrustedData (sa_data response_app) else S_OK in
    if FAILED hr then mret hr
    else
      let '(hr, data) := GetInstallData (sa_data response_app) (server_install_data_index_ (props a)) in
      if FAILED hr then mret hr
      else
        App_set_server_install_data data;;
        let manifest := suc_install_manifest update_check in
        modify_app (fun a =>
          set_next_version (AppVersion_set_version (im_version manifest)
            (AppVersion_set_install_manifest manifest (next_version a))) a);;
        mret S_OK.

(** The code dereferences the response of the application, which is there
    when [GetResult] gave one of the two codes [BuildApp] is called with; a
    missing one is not a return of the code, [E_POINTER] stands for it. *)
Definition BuildApp (response : Response) (code : HRESULT) : AppM HRESULT :=
  a ← get_app;
  match GetApp response (GuidToString (app_guid a)) with
  | None => mret E_POINTER
  | Some response_app =>
      App_put_ttToken (suc_tt_token (sa_update_check response_app));;
      App_set_cohort (sa_cohort response_app, sa_cohort_hint response_app, sa_cohort_name response_app);;
      if code =? GOOPDATE_E_NO_UPDATE_RESPONSE then mret S_OK
      else BuildApp_update response_app
  end.

(** ** Messages for network errors ([worker_utils.cc]) *)

Definition FormatMessageForNetworkError (error : HRESULT) (language : CString) : bool * CString :=
  if error =? GOOPDATE_E_NO_NETWORK then
    (true, FormatMessage language IDS_NO_NETWORK_PRESENT_ERROR [kOmahaShellFileName])
  else if error =? GOOPDATE_E_NETWORK_UNAUTHORIZED then
    (true, LoadString language IDS_ERROR_HTTPSTATUS_UNAUTHORIZED)
  else if error =? GOOPDATE_E_NETWORK_FORBIDDEN then
    (true, LoadString language IDS_ERROR_HTTPSTATUS_FORBIDDEN)
  else if error =? GOOPDATE_E_NETWORK_PROXYAUTHREQUIRED then
    (true, LoadString language IDS_ERROR_HTTPSTATUS_PROXY_AUTH_REQUIRED)
  else (false, FormatMessage language IDS_NO_NETWORK_PRESENT_ERROR [kOmahaShellFileName]).

End UpdateUtils.
