(* ===== verification/UpdateFacts.v ===== *)
(** Theorems about requests and responses: which applications a request holds,
    when a response means an update, what [BuildApp] leaves in the
    application, and the architecture lists of the system requirements. *)

From S2P Require Import Prelude Hresult CStrings Protocol Policy PolicyFacts Package AppModel Sample UpdateResponse.

(** ** Architecture lists *)

(** The list split at its commas. *)
Fixpoint comma_pieces (s : CString) : list CString :=
  match s with
  | [] => [[]]
  | c :: s' =>
      if c =? 44 then [] :: comma_pieces s'
      else match comma_pieces s' with
           | p :: ps => (c :: p) :: ps
           | [] => [[c]]
           end
  end.

(** The entry of one piece: trimmed and in lower case, none when empty. *)
Definition arch_entry (piece : CString) : list CString :=
  let arch := MakeLower (Trim piece) in if IsEmpty arch then [] else [arch].

Lemma comma_pieces_app p t :
  forallb (fun c => negb (c =? 44)) p = true -> comma_pieces (p ++ 44 :: t) = p :: comma_pieces t.
Proof.
  induction p as [|c p IH]; cbn [forallb comma_pieces app]; [done|].
  intros [Hc Hp]%andb_true_iff. apply negb_true_iff in Hc. rewrite Hc, IH by done. done.
Qed.

Lemma comma_pieces_single p :
  forallb (fun c => negb (c =? 44)) p = true -> comma_pieces p = [p].
Proof.
  induction p as [|c p IH]; cbn [forallb comma_pieces]; [done|].
  intros [Hc Hp]%andb_true_iff. apply negb_true_iff in Hc. by rewrite Hc, IH.
Qed.

Lemma comma_delim c : is_delim (_T ",") c = (c =? 44).
Proof. unfold is_delim. change (_T ",") with [44]. cbn [existsb]. apply orb_false_r. Qed.

Lemma entries_skip s :
  flat_map arch_entry (comma_pieces s) =
  flat_map arch_entry (comma_pieces (drop_while (is_delim (_T ",")) s)).
Proof.
  induction s as [|c s IH]; [done|].
  cbn [drop_while comma_pieces]. rewrite comma_delim. destruct (c =? 44) eqn:Ec; [|cbn [comma_pieces]; by rewrite Ec].
  cbn [flat_map arch_entry]. rewrite <- IH. done.
Qed.

Lemma take_while_forallb p s : forallb p (take_while p s) = true.
Proof. induction s as [|c s IH]; cbn; [done|]. destruct (p c) eqn:E; cbn; [by rewrite E|done]. Qed.

Lemma drop_while_head p s c t : drop_while p s = c :: t -> p c = false.
Proof.
  induction s as [|d s IH]; cbn; [done|]. destruct (p d) eqn:E; [done|]. intros Heq. by injection Heq as -> ->.
Qed.

Lemma drop_while_length p s : (length (drop_while p s) <= length s)%nat.
Proof. induction s as [|c s IH]; cbn; [done|]. destruct (p c); cbn; lia. Qed.

Lemma drop_while_drop p s :
  drop_while p s = drop (length s - length (drop_while p s)) s.
Proof.
  induction s as [|c s IH]; [done|]. cbn [drop_while]. destruct (p c) eqn:E.
  - pose proof (drop_while_length p s). cbn [length].
    replace (S (length s) - length (drop_while p s))%nat
      with (S (length s - length (drop_while p s))) by lia. done.
  - by rewrite Nat.sub_diag.
Qed.

(** One token and the pieces it stands for. *)
Lemma entries_step rest :
  let nd c := negb (is_delim (_T ",") c) in
  flat_map arch_entry (comma_pieces rest) =
  arch_entry (take_while nd rest) ++
  flat_map arch_entry (comma_pieces (drop (length (take_while nd rest) + 1) rest)).
Proof.
  intros nd.
  assert (forall c, nd c = negb (c =? 44)) as Hnd.
  { intros c. unfold nd. by rewrite comma_delim. }
  pose proof (take_drop_while nd rest) as Hsplit. pose proof (take_while_forallb nd rest) as Hall.
  set (tok := take_while nd rest) in *.
  assert (forallb (fun c => negb (c =? 44)) tok = true) as Htok
    by (eapply forallb_impl; [|exact Hall]; intros x Hx; by rewrite <- Hnd).
  destruct (drop_while nd rest) as [|c t] eqn:Ed.
  - rewrite app_nil_r in Hsplit. rewrite <- Hsplit, comma_pieces_single by done.
    rewrite drop_ge by lia. cbn. by rewrite !app_nil_r.
  - assert (c = 44) as ->.
    { apply drop_while_head in Ed. rewrite Hnd in Ed. apply negb_false_iff in Ed. by apply Z.eqb_eq. }
    rewrite <- Hsplit, comma_pieces_app by done.
    rewrite drop_app_ge by lia. replace (length tok + 1 - length tok)%nat with 1%nat by lia.
    cbn [drop flat_map]. by rewrite drop_0.
Qed.

(** The tokenizing loop of [IsArchCompatible] ends within the fuel given and
    finds the entries of the list. *)
Lemma tokenize_arch_pieces fuel s pos :
  0 <= pos -> (length (drop (Z.to_nat pos) s) < fuel)%nat ->
  tokenize_arch fuel s pos = flat_map arch_entry (comma_pieces (drop (Z.to_nat pos) s)).
Proof.
  revert pos. induction fuel as [|fuel IH]; intros pos Hpos Hf; [lia|].
  cbn [tokenize_arch]. unfold Tokenize.
  set (place := drop (Z.to_nat pos) s) in *.
  rewrite (entries_skip place).
  pose proof (drop_while_drop (is_delim (_T ",")) place) as Hdd.
  pose proof (drop_while_length (is_delim (_T ",")) place) as Hlen.
  destruct (drop_while (is_delim (_T ",")) place) as [|c t] eqn:Ed; [done|].
  set (rest := c :: t) in *.
  set (nd := fun c0 => negb (is_delim (_T ",") c0)).
  rewrite (entries_step rest). fold nd. f_equal.
  set (k := length (take_while nd rest)).
  assert (take_while nd rest <> []) as Hk.
  { apply drop_while_head in Ed. unfold rest, nd. cbn [take_while]. by rewrite Ed. }
  assert (1 <= k)%nat by (unfold k; destruct (take_while nd rest); [done|cbn; lia]).
  destruct (Z.eqb_spec (pos + (Z.of_nat (length place) - Z.of_nat (length rest)) + Z.of_nat k + 1) (-1)); [lia|].
  assert (drop (Z.to_nat (pos + (Z.of_nat (length place) - Z.of_nat (length rest)) + Z.of_nat k + 1)) s
          = drop (k + 1) rest) as Hdrop.
  { transitivity (drop (k + 1) (drop (length place - length rest) place)); [|by f_equal].
    replace (Z.of_nat (length place) - Z.of_nat (length rest)) with (Z.of_nat (length place - length rest)) by lia.
    generalize (length place - length rest)%nat. intros d. unfold place. rewrite !drop_drop. f_equal. lia. }
  rewrite IH; [by rewrite Hdrop|lia|].
  assert (1 <= length rest)%nat by (unfold rest; cbn; lia).
  rewrite Hdrop, length_drop. lia.
Qed.

Lemma architectures_pieces arch_list :
  tokenize_arch (S (length arch_list)) arch_list 0 = flat_map arch_entry (comma_pieces arch_list).
Proof. rewrite tokenize_arch_pieces; cbn [Z.to_nat]; rewrite ?drop_0; [done|lia|lia]. Qed.

Section Facts.
Context `{Env, GroupPolicy, GuidOps} (ctx : BundleCtx).

Lemma existsb_filter_neg (entries : list CString) :
  existsb IsArchitectureSupported (List.filter (fun arch => negb (is_negative_arch arch)) entries) =
  existsb (fun e => negb (is_negative_arch e) && IsArchitectureSupported e) entries.
Proof.
  induction entries as [|e entries IH]; [done|]. cbn [List.filter existsb].
  destruct (is_negative_arch e); cbn [negb andb orb existsb]; by rewrite IH.
Qed.

Lemma filter_neg_nil (entries : list CString) :
  List.filter (fun arch => negb (is_negative_arch arch)) entries = [] <->
  forallb is_negative_arch entries = true.
Proof.
  induction entries as [|e entries IH]; [done|]. cbn [List.filter forallb].
  destruct (is_negative_arch e); [exact IH|done].
Qed.

(** An architecture list is met exactly when no entry is the host's
    architecture with a minus sign, and either all entries have one, or some
    entry without one is supported on the host; entries are the pieces between
    commas, trimmed and without regard to case.  The loop that splits the list
    always ends. *)
Theorem arch_list_spec arch_list :
  let entries := flat_map arch_entry (comma_pieces arch_list) in
  IsArchCompatible arch_list =
  negb (bool_decide (_T "-" ++ MakeLower GetArchitecture ∈ entries))
  && (forallb is_negative_arch entries
      || existsb (fun e => negb (is_negative_arch e) && IsArchitectureSupported e) entries).
Proof.
  intros entries. unfold IsArchCompatible. rewrite architectures_pieces. fold entries.
  destruct entries as [|e es] eqn:Ee.
  - rewrite bool_decide_eq_false_2; [done|]. apply not_elem_of_nil.
  - rewrite <- Ee in *. clear Ee e es. destruct (bool_decide (_ ∈ entries)); [done|]. cbn [negb andb].
    destruct (List.filter _ entries) as [|x xs] eqn:Ef.
    + by rewrite (proj1 (filter_neg_nil entries) Ef).
    + rewrite <- Ef, existsb_filter_neg.
      destruct (forallb _ entries) eqn:Ea; [|done].
      apply filter_neg_nil in Ea. by rewrite Ea in Ef.
Qed.

(** ** The verdict on one application *)

Lemma find_none_forall {A} (p : A -> bool) l : List.find p l = None <-> forallb (fun x => negb (p x)) l = true.
Proof.
  induction l as [|x l IH]; cbn; [done|]. destruct (p x); [done|]. exact IH.
Qed.

Lemma bad_status_not_ok status : bad_status status = true -> EqualNoCase kStatusOkValue status = false.
Proof. unfold bad_status. intros [_ Hb]%andb_true_iff. by apply negb_true_iff. Qed.

Lemma GetAppResponseStatus_ok app :
  EqualNoCase kStatusOkValue (GetAppResponseStatus app) = true <->
  EqualNoCase kStatusOkValue (sa_status app) = true
  /\ bad_status (suc_status (sa_update_check app)) = false
  /\ forallb (fun d => negb (bad_status (sd_status d))) (sa_data app) = true
  /\ bad_status (sa_ping_status app) = false
  /\ forallb (fun s => negb (bad_status s)) (sa_events app) = true.
Proof.
  unfold GetAppResponseStatus.
  destruct (EqualNoCase kStatusOkValue (sa_status app)) eqn:E1; cbn [negb]; [|split; [congruence|by intros [? _]]].
  destruct (bad_status (suc_status _)) eqn:E2; [apply bad_status_not_ok in E2; split; [congruence|by intros (_ & ? & _)]|].
  rewrite <- (find_none_forall (fun d => bad_status (sd_status d))), <- (find_none_forall bad_status).
  destruct (List.find _ (sa_data app)) as [d|] eqn:E3.
  { apply List.find_some in E3 as [_ E3]. apply bad_status_not_ok in E3.
    split; [congruence|by intros (_ & _ & ? & _)]. }
  destruct (bad_status (sa_ping_status app)) eqn:E4.
  { apply bad_status_not_ok in E4. split; [congruence|by intros (_ & _ & _ & ? & _)]. }
  destruct (List.find bad_status (sa_events app)) as [st|] eqn:E5.
  { apply List.find_some in E5 as [_ E5]. apply bad_status_not_ok in E5.
    split; [congruence|by intros (_ & _ & _ & _ & ?)]. }
  rewrite E1. split; [intros _; split_and!; reflexivity|intros _; reflexivity].
Qed.

(** Every verdict but "ok" is a failure that comes with a message. *)
Lemma GetResult_cases response appid name lang :
  GetResult response appid name lang = (S_OK, [])
  \/ (FAILED (GetResult response appid name lang).1 = true
      /\ (GetResult response appid name lang).2 <> []
      /\ (GetResult response appid name lang).1 <> GOOPDATE_E_UPDATE_DEFERRED).
Proof.
  unfold GetResult. destruct (GetApp response appid) as [app|].
  2:{ right. split_and!; [reflexivity|apply LoadString_not_empty|discriminate]. }
  destruct (EqualNoCase kStatusOkValue _); [by left|]. right.
  repeat match goal with |- context [if EqualNoCase ?k ?s then _ else _] => destruct (EqualNoCase k s) end;
    split_and!; first [reflexivity|discriminate|apply LoadString_not_empty|apply FormatMessage_not_empty].
Qed.

(** The server's answer is an update for an application exactly when the
    application is in the response and no element of it (the application, its
    update check, its data, its ping, its events) reports anything but "ok";
    otherwise the result is a failure with a message that is not empty. *)
Theorem GetResult_ok_iff response appid name lang :
  ((GetResult response appid name lang).1 = S_OK <->
   exists app, GetApp response appid = Some app
     /\ EqualNoCase kStatusOkValue (sa_status app) = true
     /\ bad_status (suc_status (sa_update_check app)) = false
     /\ forallb (fun d => negb (bad_status (sd_status d))) (sa_data app) = true
     /\ bad_status (sa_ping_status app) = false
     /\ forallb (fun s => negb (bad_status s)) (sa_events app) = true)
  /\ ((GetResult response appid name lang).1 <> S_OK ->
      FAILED (GetResult response appid name lang).1 = true
      /\ (GetResult response appid name lang).2 <> []).
Proof.
  split.
  - unfold GetResult. destruct (GetApp response appid) as [app|]; [|split; [done|by intros (? & ? & _)]].
    destruct (EqualNoCase kStatusOkValue (GetAppResponseStatus app)) eqn:E.
    + split; [|done]. intros _. exists app. split; [done|]. by apply GetAppResponseStatus_ok.
    + split; [repeat case_match; done|]. intros (app' & Heq & Hok). injection Heq as <-.
      apply GetAppResponseStatus_ok in Hok. congruence.
  - intros Hne. destruct (GetResult_cases response appid name lang) as [Heq|(? & ? & _)]; [|done].
    by rewrite Heq in Hne.
Qed.

(** ** Untrusted data *)

Lemma untrusted_scan_spec data n v :
  fold_left (fun '(n, valid) d =>
    if bool_decide (sd_name d = kUntrusted)
    then (n + 1, bool_decide (sd_status d = kStatusOkValue)) else (n, valid)) data (n, v) =
  (n + Z.of_nat (length (filter (fun d => sd_name d = kUntrusted) data)),
   match last (filter (fun d => sd_name d = kUntrusted) data) with
   | Some d => bool_decide (sd_status d = kStatusOkValue) | None => v end).
Proof.
  revert n v. induction data as [|d data IH]; intros n v; cbn [fold_left].
  - rewrite filter_nil. cbn. f_equal. lia.
  - rewrite filter_cons. destruct (decide (sd_name d = kUntrusted)) as [Hd|Hd].
    + rewrite bool_decide_eq_true_2, IH by done. cbn [length]. f_equal; [lia|].
      rewrite last_cons. by destruct (last (filter _ data)).
    + rewrite bool_decide_eq_false_2, IH by done. done.
Qed.

(** The untrusted data of a response are valid exactly when there is one such
    element and its status is "ok". *)
Lemma ValidateUntrustedData_iff data :
  ValidateUntrustedData data = S_OK <->
  exists d, filter (fun d => sd_name d = kUntrusted) data = [d] /\ sd_status d = kStatusOkValue.
Proof.
  unfold ValidateUntrustedData, untrusted_scan. rewrite untrusted_scan_spec.
  destruct (filter _ data) as [|d [|d' l]] eqn:Ef.
  - cbn. split; [done|by intros (? & ? & _)].
  - cbn. split.
    + intros Hv. exists d. split; [done|]. case_bool_decide; done.
    + intros (d' & Heq & Hst). injection Heq as <-. by rewrite bool_decide_eq_true_2.
  - cbn [length]. destruct (Z.eqb_spec (0 + Z.of_nat (S (S (length l)))) 1); [lia|].
    cbn [andb]. split; [done|by intros (? & ? & _)].
Qed.

(** ** [BuildApp] *)

(** The package an entry of the manifest becomes. *)
Definition manifest_package (p : InstallPackage) : Package :=
  Package_SetFileInfo (ip_name p) (u32 (ip_size p)) (ip_hash_sha256 p) Package_init.

Lemma add_urls_spec urls av :
  add_urls urls av = mkAppVersion (version av) (install_manifest av) (packages av)
                       (download_base_urls av ++ urls).
Proof.
  revert av. induction urls as [|u urls IH]; intros av; cbn [add_urls].
  - rewrite app_nil_r. by destruct av.
  - rewrite IH. cbn. by rewrite <- app_assoc.
Qed.

Lemma add_packages_spec l av hr av' :
  add_packages l av = (hr, av') -> SUCCEEDED hr = true ->
  hr = S_OK
  /\ av' = mkAppVersion (version av) (install_manifest av) (packages av ++ (manifest_package <$> l))
             (download_base_urls av)
  /\ Forall (fun p => ip_hash_sha256 p <> []) l.
Proof.
  revert av. induction l as [|p l IH]; intros av; cbn [add_packages].
  - intros Heq _. simplify_eq. split_and!; [done| |constructor]. cbn. rewrite app_nil_r. by destruct av'.
  - unfold AppVersion_AddPackage. destruct (IsEmpty (ip_hash_sha256 p)) eqn:Eh; [intros; simplify_eq; done|].
    intros Heq Hs. destruct (IH _ Heq Hs) as (-> & -> & Hall). cbn. rewrite <- app_assoc.
    split_and!; [done|done|]. constructor; [by apply IsEmpty_false|done].
Qed.

(** What [BuildApp] never touches: everything but the next version and the
    properties. *)
Definition build_frame (s s' : AppSt) : Prop :=
  st_world s' = st_world s
  /\ exists nv p, st_app s' = set_props p (set_next_version nv (st_app s)).

Lemma build_frame_refl s : build_frame s s.
Proof. split; [done|]. exists (next_version (st_app s)), (props (st_app s)). by destruct (st_app s). Qed.

Lemma build_frame_trans s1 s2 s3 : build_frame s1 s2 -> build_frame s2 s3 -> build_frame s1 s3.
Proof.
  intros [Hw (nv & p & Ha)] [Hw' (nv' & p' & Ha')]. split; [congruence|].
  exists nv', p'. rewrite Ha', Ha. done.
Qed.

Lemma build_frame_intro s nv p :
  build_frame s (mkAppSt (st_world s) (set_props p (set_next_version nv (st_app s)))).
Proof. split; [done|]. by exists nv, p. Qed.

Lemma build_frame_props s p : build_frame s (mkAppSt (st_world s) (set_props p (st_app s))).
Proof.
  replace (set_props p (st_app s)) with (set_props p (set_next_version (next_version (st_app s)) (st_app s)))
    by (by destruct (st_app s)). apply build_frame_intro.
Qed.

Lemma build_frame_next s nv : build_frame s (mkAppSt (st_world s) (set_next_version nv (st_app s))).
Proof.
  replace (set_next_version nv (st_app s)) with (set_props (props (st_app s)) (set_next_version nv (st_app s)))
    by (by destruct (st_app s)). apply build_frame_intro.
Qed.

Lemma BuildApp_update_frame app s : build_frame s (exec (BuildApp_update app) s).
Proof.
  unfold BuildApp_update. autorewrite with st.
  destruct (add_packages _ _) as [hr av']. autorewrite with st.
  destruct (FAILED hr); [apply build_frame_next|].
  destruct (FAILED (if _ : bool then _ else _)); [apply build_frame_next|].
  destruct (GetInstallData _ _) as [hr' data]. destruct (FAILED hr'); [apply build_frame_next|].
  unfold App_set_server_install_data. autorewrite with st.
  split; [done|by eexists _, _].
Qed.

Lemma BuildApp_frame response code s : build_frame s (exec (BuildApp response code) s).
Proof.
  unfold BuildApp. autorewrite with st. destruct (GetApp _ _) as [app|]; [|apply build_frame_refl].
  unfold App_put_ttToken, App_set_cohort. autorewrite with st.
  eapply build_frame_trans; [apply build_frame_props|].
  eapply build_frame_trans; [apply build_frame_props|].
  cbn [st_world st_app]. destruct (code =? _); [apply build_frame_refl|apply BuildApp_update_frame].
Qed.

Lemma not_FAILED hr : SUCCEEDED hr = true -> FAILED hr = true -> False.
Proof. rewrite FAILED_not_SUCCEEDED. by intros ->. Qed.

Lemma BuildApp_update_success app s :
  SUCCEEDED (eval (BuildApp_update app) s) = true ->
  let manifest := suc_install_manifest (sa_update_check app) in
  next_version (st_app (exec (BuildApp_update app) s)) =
    mkAppVersion (im_version manifest) (Some manifest)
      (packages (next_version (st_app s)) ++ (manifest_package <$> im_packages manifest))
      (download_base_urls (next_version (st_app s)) ++ suc_urls (sa_update_check app))
  /\ Forall (fun p => ip_hash_sha256 p <> []) (im_packages manifest).
Proof.
  intros Hs manifest. unfold BuildApp_update in *. autorewrite with st in *.
  change (eval get_app s) with (st_app s) in *. change (exec get_app s) with s in *.
  rewrite add_urls_spec in *. destruct (add_packages _ _) as [hr av'] eqn:Ep. autorewrite with st in *.
  destruct (FAILED hr) eqn:Ef; [destruct (not_FAILED _ Hs Ef)|].
  rewrite FAILED_not_SUCCEEDED in Ef. apply negb_false_iff in Ef.
  destruct (add_packages_spec _ _ _ _ Ep Ef) as (-> & -> & Hall).
  match goal with |- context [FAILED (if ?b then ?x else ?y)] => set (hr2 := if b then x else y) in * end.
  destruct (FAILED hr2) eqn:Ef2; [destruct (not_FAILED _ Hs Ef2)|].
  destruct (GetInstallData _ _) as [hr3 data].
  destruct (FAILED hr3) eqn:Ef3; [destruct (not_FAILED _ Hs Ef3)|].
  unfold App_set_server_install_data in *. autorewrite with st in *. split; done.
Qed.

(** C37. When [BuildApp] succeeds for an available update, the next version of
    the application is exactly what the manifest says: its version, the
    download URLs and one package per entry, in order, each with a hash; the
    state and the completion of the application are not touched. *)
Theorem BuildApp_success response code s app :
  GetApp response (GuidToString (app_guid (st_app s))) = Some app ->
  code <> GOOPDATE_E_NO_UPDATE_RESPONSE ->
  SUCCEEDED (eval (BuildApp response code) s) = true ->
  let manifest := suc_install_manifest (sa_update_check app) in
  let a := st_app s in
  let a' := st_app (exec (BuildApp response code) s) in
  next_version a' =
    mkAppVersion (im_version manifest) (Some manifest)
      (packages (next_version a) ++ (manifest_package <$> im_packages manifest))
      (download_base_urls (next_version a) ++ suc_urls (sa_update_check app))
  /\ Forall (fun p => ip_hash_sha256 p <> []) (im_packages manifest)
  /\ app_state a' = app_state a /\ completion a' = completion a /\ ping_events a' = ping_events a.
Proof.
  intros Hget Hcode Hs manifest a a'. pose proof (BuildApp_frame response code s) as [_ (nv & p & Ha')].
  fold a' in Ha'. rewrite Ha'. cbn [next_version app_state completion ping_events set_props set_next_version].
  assert (next_version a' = nv) as Hnv by (by rewrite Ha'). rewrite <- Hnv. unfold a' in *. clear Ha' Hnv nv p a'.
  unfold BuildApp in *. autorewrite with st in *.
  change (eval get_app s) with (st_app s) in *. change (exec get_app s) with s in *. rewrite Hget in *.
  unfold App_put_ttToken, App_set_cohort in *. autorewrite with st in *.
  destruct (Z.eqb_spec code GOOPDATE_E_NO_UPDATE_RESPONSE); [done|].
  apply BuildApp_update_success in Hs as [Hnv Hall]. split_and!; [exact Hnv|exact Hall|done..].
Qed.

End Facts.

Lemma BuildApp_success_witness :
  packages (next_version (st_app (exec (@BuildApp guid_ops (sample_response kStatusOkValue) S_OK)
    (sample_state false)))) = [manifest_package sample_package].
Proof.
  destruct (@BuildApp_success guid_ops (sample_response kStatusOkValue) S_OK (sample_state false)
    (sample_response_app kStatusOkValue) ltac:(by vm_compute) ltac:(done) ltac:(by vm_compute)) as [-> _].
  reflexivity.
Defined.
