(* ===== verification/Timers.v ===== *)
(** When to check for updates: the times [ConfigManager] keeps in the registry
    (omaha/common/config_manager.cc), the decision of the update client
    (omaha/client/ua.cc) and of the long-running core (omaha/core/core.cc), and
    the wish of the server to be left alone ([Worker::PersistRetryAfter]).

    [now_sec] (AppRegistry.v) is the clock in seconds.  A random number is an
    argument, [None] when there is none. *)

From S2P Require Import Prelude Hresult CStrings Registry RegistryFacts WebClient Policy AppRegistry AppModel UpdateResponse.
From S2P Require Import AppManagerFacts.

Definition MACHINE_REG_UPDATE_DEV : CString := _T "HKLM\Software\BraveSoftware\UpdateDev\".
Definition kRegValueLastChecked : CString := _T "LastChecked".
Definition kRegValueRetryAfter : CString := _T "RetryAfter".
Definition kRegValueLastStartedAU : CString := _T "LastStartedAU".
Definition kRegValueLastCodeRedCheck : CString := _T "LastCodeRedCheck".
Definition kRegValueOmahaEulaAccepted : CString := _T "eulaaccepted".
Definition kRegValueAuCheckPeriodMs : CString := _T "AuCheckPeriodMs".
Definition kRegValueCrCheckPeriodMs : CString := _T "CrCheckPeriodMs".
Definition kRegValueAutoUpdateJitterMs : CString := _T "AutoUpdateJitterMs".
Definition kRegValueLastCheckPeriodSec : CString := _T "LastCheckPeriodSec".
Definition kRegValueForceUsageStats : CString := _T "UsageStats".
Definition kRegValueDisableUpdateAppsHourlyJitter : CString := _T "DisableUpdateAppsHourlyJitter".
Definition kRegValueNoCodeRedCheck : CString := _T "NoCrCheck".

Definition kSecondsPerHour : Z := 60 * 60.
Definition kAUCheckPeriodMs : Z := 60 * 60 * 1000.
Definition kAUCheckPeriodInternalUserMs : Z := 30 * 60 * 1000.
Definition kUpdateTimerStartupDelayMinMs : Z := 5 * 60 * 1000.
Definition kUpdateTimerStartupDelayMaxMs : Z := 15 * 60 * 1000.
Definition kMinAUCheckPeriodMs : Z := 1000 * 3.
Definition kCodeRedCheckPeriodMs : Z := 24 * 60 * 60 * 1000.
Definition kMinCodeRedCheckPeriodMs : Z := 60 * 1000.
Definition kMaxJitterMs : Z := 60000.
Definition ULONG64_MAX : Z := 2 ^ 64 - 1.

(** [abs] of an [int]: its most negative value is its own absolute value. *)
Definition abs_int (x : Z) : Z := s32 (Z.abs x).

Section Timers.
Context `{RegEnv}.

(** ** Last check *)

Definition GetLastCheckedTime (is_machine : bool) (r : Registry) : Z :=
  out_or 0 (GetValueDword (registry_update is_machine) kRegValueLastChecked r).
Definition SetLastCheckedTime (is_machine : bool) (time : Z) : RegM HRESULT :=
  RegKey_SetValue (registry_update is_machine) kRegValueLastChecked (Registry.REG_DWORD time).
Definition GetTimeSinceLastCheckedSec (is_machine : bool) (r : Registry) : Z :=
  abs_int (s32 (u32 now_sec - GetLastCheckedTime is_machine r)).
Definition UpdateLastChecked (is_machine : bool) : RegM HRESULT :=
  hr ← SetLastCheckedTime is_machine (u32 now_sec);
  mret (if FAILED hr then hr else S_OK).
Definition SetLastStartedAU (is_machine : bool) : RegM HRESULT :=
  RegKey_SetValue (registry_update is_machine) kRegValueLastStartedAU (Registry.REG_DWORD (u32 now_sec)).

(** ** Retry-after *)

Definition GetRetryAfterTime (is_machine : bool) (r : Registry) : Z :=
  out_or 0 (GetValueDword (registry_update is_machine) kRegValueRetryAfter r).
Definition SetRetryAfterTime (is_machine : bool) (time : Z) : RegM HRESULT :=
  RegKey_SetValue (registry_update is_machine) kRegValueRetryAfter (Registry.REG_DWORD time).
Definition CanRetryNow (is_machine : bool) (r : Registry) : bool :=
  let now := u32 now_sec in
  let retry_after := GetRetryAfterTime is_machine r in
  (retry_after <=? now) || (u32 (now + kSecondsPerDay) <? retry_after).

Definition PersistRetryAfter (is_machine : bool) (retry_after_sec : Z) : RegM unit :=
  if retry_after_sec <=? 0 then mret tt
  else SetRetryAfterTime is_machine (u32 (u32 now_sec + retry_after_sec));; mret tt.

(** ** Last update *)

Definition registry_client_state_goopdate (is_machine : bool) : CString :=
  registry_client_state is_machine ++ kGoogleUpdateAppId.
Definition GetLastUpdateTime (is_machine : bool) (r : Registry) : Z :=
  let key := registry_client_state_goopdate is_machine in
  match GetValueDword key kRegValueLastUpdateTimeSec r with
  | inr update_time => update_time
  | inl _ => out_or 0 (GetValueDword key kRegValueInstallTimeSec r)
  end.
Definition Is24HoursSinceLastUpdate (is_machine : bool) (r : Registry) : bool :=
  24 * 60 * 60 <=? abs_int (s32 (u32 now_sec - GetLastUpdateTime is_machine r)).

(** ** Whether the network may be used *)

Definition CanUseNetwork (is_machine : bool) (r : Registry) : bool :=
  match GetValueDword (registry_update is_machine) kRegValueOmahaEulaAccepted r with
  | inr 0 => false
  | _ => negb (IsOemInstalling is_machine r)
  end.

Definition ConfigManager_CanCollectStats (is_machine : bool) (r : Registry) : bool :=
  if RegKey_HasValue MACHINE_REG_UPDATE_DEV kRegValueForceUsageStats r then true
  else if FAILED (RegKey_Open (registry_client_state is_machine) r) then false
  else existsb (fun sub_key_name => AreAppUsageStatsEnabled is_machine sub_key_name r)
         (GetSubkeys (registry_client_state is_machine) r).

(** ** Periods *)

Definition clamp_interval (interval minimum : Z) : Z :=
  if INT_MAX <? interval then INT_MAX else if interval <? minimum then minimum else interval.

Definition GetAutoUpdateTimerIntervalMs (is_internal_user : bool) (r : Registry) : Z :=
  match GetValueDword MACHINE_REG_UPDATE_DEV kRegValueAuCheckPeriodMs r with
  | inr interval => clamp_interval interval kMinAUCheckPeriodMs
  | inl _ => if is_internal_user then kAUCheckPeriodInternalUserMs else kAUCheckPeriodMs
  end.

Definition GetUpdateWorkerStartUpDelayMs (is_internal_user : bool) (rand : option Z) (r : Registry) : Z :=
  let au_timer_interval_ms := GetAutoUpdateTimerIntervalMs is_internal_user r in
  if RegKey_HasValue MACHINE_REG_UPDATE_DEV kRegValueAuCheckPeriodMs r then au_timer_interval_ms
  else
    match rand with
    | None => au_timer_interval_ms
    | Some random_value =>
        let kRangeMs := kUpdateTimerStartupDelayMaxMs - kUpdateTimerStartupDelayMinMs + 1 in
        kUpdateTimerStartupDelayMinMs + random_value mod kRangeMs
    end.

Definition GetAutoUpdateJitterMs (rand : option Z) (r : Registry) : Z :=
  match GetValueDword MACHINE_REG_UPDATE_DEV kRegValueAutoUpdateJitterMs r with
  | inr auto_update_jitter_ms =>
      if kMaxJitterMs <=? auto_update_jitter_ms then kMaxJitterMs - 1 else auto_update_jitter_ms
  | inl _ => default 0 rand mod kMaxJitterMs
  end.

Definition GetCodeRedTimerIntervalMs (r : Registry) : Z :=
  match GetValueDword MACHINE_REG_UPDATE_DEV kRegValueCrCheckPeriodMs r with
  | inr interval => clamp_interval interval kMinCodeRedCheckPeriodMs
  | inl _ => kCodeRedCheckPeriodMs
  end.

Definition GetLastCodeRedCheckTimeMs (is_machine : bool) (r : Registry) : Z :=
  out_or 0 (GetValueQword (registry_update is_machine) kRegValueLastCodeRedCheck r).
Definition SetLastCodeRedCheckTimeMs (is_machine : bool) (time : Z) : RegM HRESULT :=
  RegKey_SetValue (registry_update is_machine) kRegValueLastCodeRedCheck (Registry.REG_QWORD time).

(** [now_ms] is [GetCurrentMsTime()]. *)
Definition GetTimeSinceLastCodeRedCheckMs (is_machine : bool) (now_ms : Z) (r : Registry) : Z :=
  let last_code_red_check := GetLastCodeRedCheckTimeMs is_machine r in
  if now_ms <? last_code_red_check then ULONG64_MAX else now_ms - last_code_red_check.

(** ** The update client *)

Definition IsUpdateAppsHourlyJitterDisabled (r : Registry) : bool :=
  negb (out_or 0 (GetValueDword MACHINE_REG_UPDATE_DEV kRegValueDisableUpdateAppsHourlyJitter r) =? 0).

Definition update_dev_period (r : Registry) : option Z :=
  match GetValueDword MACHINE_REG_UPDATE_DEV kRegValueLastCheckPeriodSec r with inr z => Some z | inl _ => None end.

(** [tm_hour] and [tm_min] are the local time. *)
Definition ShouldCheckForUpdates (cm : ConfigManager) (is_internal_user : bool) (tm_hour tm_min : Z)
    (rand : option Z) (is_machine : bool) (r : Registry) : bool :=
  if negb (CanRetryNow is_machine r) then false
  else
    let '(update_interval, is_period_overridden, _) :=
      ConfigManager_GetLastCheckPeriodSec cm (update_dev_period r) is_internal_user in
    if update_interval =? 0 then false
    else
      let time_since_last_check := GetTimeSinceLastCheckedSec is_machine r in
      if ConfigManager_AreUpdatesSuppressedNow cm tm_hour tm_min then false
      else if time_since_last_check <? update_interval then false
      else if (update_interval <=? time_since_last_check)
              && (time_since_last_check <? s32 (update_interval + kSecondsPerHour)) then
        if negb is_period_overridden && negb (IsUpdateAppsHourlyJitterDisabled r)
        then default 0 rand mod 100 <? 100 - 10
        else true
      else true.

(** ** The core *)

Definition k14DaysSec : Z := 14 * 24 * 60 * 60.

Definition IsCheckingForUpdates (is_system : bool) (r : Registry) : bool :=
  if negb (Is24HoursSinceLastUpdate is_system r) then true
  else if k14DaysSec <=? GetTimeSinceLastCheckedSec is_system r then false
  else true.

(** The task scheduler, as Windows reports it. *)
Record ScheduledTask := mkScheduledTask {
  is_service_running : bool;
  is_installed : bool;
  is_disabled : bool;
  has_ever_run : bool;
  last_exit_code : HRESULT
}.

Definition SCHED_S_TASK_HAS_NOT_RUN : HRESULT := 0x41303.

Definition AreScheduledTasksHealthy (t : ScheduledTask) (is_system : bool) (r : Registry) : bool :=
  if negb (is_service_running t) then false
  else if negb (is_installed t) then false
  else if is_disabled t then false
  else
    let ua_task_has_not_run := (last_exit_code t =? SCHED_S_TASK_HAS_NOT_RUN) || negb (has_ever_run t) in
    let ua_task_last_exit_code :=
      if ua_task_has_not_run && negb (Is24HoursSinceLastUpdate is_system r) then S_OK else last_exit_code t in
    ua_task_last_exit_code =? S_OK.

Definition ShouldRunForever (t : ScheduledTask) (is_system : bool) (r : Registry) : bool :=
  negb (AreScheduledTasksHealthy t is_system r) || negb (IsCheckingForUpdates is_system r).

Definition ShouldRunCodeRed (is_system : bool) (now_ms : Z) (r : Registry) : bool :=
  if RegKey_HasValue MACHINE_REG_UPDATE_DEV kRegValueNoCodeRedCheck r then false
  else GetCodeRedTimerIntervalMs r <=? GetTimeSinceLastCodeRedCheckMs is_system now_ms r.

(** [start_process] is the result of starting the worker. *)
Definition StartCodeRed (start_process : HRESULT) (is_system : bool) (now_ms : Z) : RegM HRESULT :=
  r ← get;
  if negb (ShouldRunCodeRed is_system now_ms r) then mret S_FALSE
  else if SUCCEEDED start_process then SetLastCodeRedCheckTimeMs is_system now_ms;; mret start_process
  else mret start_process.

End Timers.

(** ** Facts *)

Lemma GetRetryAfterTime_Set is_machine time r :
  GetRetryAfterTime is_machine (exec (SetRetryAfterTime is_machine time) r) = time.
Proof.
  unfold GetRetryAfterTime, SetRetryAfterTime, GetValueDword. autorewrite with reg. by rewrite same_value_refl.
Qed.


(** Whether an update check is due: never when updates are disabled or
    suppressed or the server wants to be left alone; otherwise never before the
    period has passed and always an hour after it has.  In the hour between one
    check in ten is skipped, unless the period is configured. *)
Theorem ShouldCheckForUpdates_spec `{RegEnv} cm internal h m rand is_machine r :
  let '(period, overridden, _) := ConfigManager_GetLastCheckPeriodSec cm (update_dev_period r) internal in
  let since := GetTimeSinceLastCheckedSec is_machine r in
  period + kSecondsPerHour < 2 ^ 31 -> 0 <= period ->
  ShouldCheckForUpdates cm internal h m rand is_machine r =
    CanRetryNow is_machine r && negb (period =? 0) && negb (ConfigManager_AreUpdatesSuppressedNow cm h m)
    && ((period + kSecondsPerHour <=? since)
        || ((period <=? since) &&
            (overridden || IsUpdateAppsHourlyJitterDisabled r || (default 0 rand mod 100 <? 90)))).
Proof.
  destruct (ConfigManager_GetLastCheckPeriodSec cm _ internal) as [[period overridden] status] eqn:Hp.
  cbv zeta. set (since := GetTimeSinceLastCheckedSec is_machine r). intros Hmax Hmin.
  unfold ShouldCheckForUpdates. rewrite Hp. fold since. unfold kSecondsPerHour in *.
  rewrite (s32_small (period + _)) by lia. change (100 - 10) with 90.
  destruct (CanRetryNow is_machine r); [|done].
  destruct (period =? 0); [done|]. destruct (ConfigManager_AreUpdatesSuppressedNow cm h m); [done|]. cbn [negb andb].
  destruct (Z.lt_ge_cases since period) as [Hsoon|Hdue].
  { rewrite (proj2 (Z.ltb_lt since period)), (proj2 (Z.leb_gt (period + _) since)), (proj2 (Z.leb_gt period since)) by lia.
    done. }
  rewrite (proj2 (Z.ltb_ge since period)), (proj2 (Z.leb_le period since)) by lia. cbn [andb].
  destruct (Z.lt_ge_cases since (period + 60 * 60)) as [Hhour|Hlate].
  - rewrite (proj2 (Z.ltb_lt since _)), (proj2 (Z.leb_gt _ since)) by lia.
    by destruct overridden, (IsUpdateAppsHourlyJitterDisabled r).
  - by rewrite (proj2 (Z.ltb_ge since _)), (proj2 (Z.leb_le _ since)) by lia.
Qed.

(** ** Concrete times *)


(** Nothing was ever checked: a check is due. *)
Lemma ShouldCheckForUpdates_spec_witness :
  @ShouldCheckForUpdates (sample_reg_env 0) ConfigManager_init false 12 0 (Some 95) true ∅ = true.
Proof.
  pose proof (@ShouldCheckForUpdates_spec (sample_reg_env 0) ConfigManager_init false 12 0 (Some 95) true ∅) as Hspec.
  assert (ConfigManager_GetLastCheckPeriodSec ConfigManager_init (update_dev_period ∅) false =
    (kLastCheckPeriodSec, false, (ConfigManager_GetLastCheckPeriodSec ConfigManager_init (update_dev_period ∅) false).2)) as Hp
    by (by vm_compute).
  rewrite Hp in Hspec. cbv zeta in Hspec. rewrite Hspec; [by vm_compute|by vm_compute|by vm_compute].
Defined.
