(* ===== verification/Ping.v ===== *)
(** Pings: omaha/common/ping.cc, and [GetClientStateData] of
    omaha/common/app_registry_utils.cc.

    A ping is a request without an update check.  It is kept in the registry
    until it was sent; it is sent by another process that is given the request on
    its command line, or by this one. *)

From S2P Require Import Prelude Hresult CStrings Text Base64 Protocol WebClient Policy.
From S2P Require Import Registry Machine AppRegistry Time Labels AppModel UpdateResponse.

Definition kRegKeyPersistedPings : CString := _T "PersistedPings".
Definition kRegValuePersistedPingTime : CString := _T "PersistedPingTime".
Definition kRegValuePersistedPingString : CString := _T "PersistedPingString".
Definition kPersistedPingExpiry100ns : Z := 10 * kDaysTo100ns.
Definition kMinOmahaVersionForPingOOP : Z := 0x0001000300000000.
Definition kHeaderXRequestAge : CString := _T "X-RequestAge".
Definition kCmdLinePing : CString := _T "ping".
Definition _UI64_MAX : Z := 2 ^ 64 - 1.

(** [_tcstoui64(str, NULL, 10)]. *)
Definition tcstoui64 (str : CString) : Z :=
  let '(neg, s) := strip_sign (drop_while is_space (c_str str)) in
  let v := digits_value (take_while String_IsDigit s) in
  if _UI64_MAX <? v then _UI64_MAX else if neg : bool then u64 (- v) else v.

Record AppData := mkAppData {
  ad_app_id : CString;
  ad_language : CString;
  ad_brand_code : CString;
  ad_client_id : CString;
  ad_installation_id : CString;
  ad_pv : CString;
  ad_experiment_labels : CString;
  ad_cohort : CString * CString * CString;
  ad_install_time_diff_sec : Z;
  ad_day_of_install : Z
}.
Definition AppData_init (app_id : CString) : AppData := mkAppData app_id [] [] [] [] [] [] ([], [], []) 0 0.

Record Ping := mkPing {
  pg_is_machine : bool;
  pg_request_id : CString;
  pg_request : Request;
  pg_apps_data : list AppData;
  pg_omaha_data : AppData
}.

(** A persisted ping: the name of its key, its time and its request. *)
Definition PersistedPing : Type := CString * (Z * CString).

(** The other process, the address pings are sent to, and the version of the
    installed shell.  Processes are counted. *)
Class PingEnv := {
  GetPingUrl : CString;
  GetInstalledShellVersion : bool -> CString;
  StartGoogleUpdateWithArgs : nat -> bool -> CString -> HRESULT;
  PingProcess_exit : nat -> option Z;
  Utf8ToWideChar : list Z -> CString
}.

Definition Response_init : Response := mkResponse [] 0 0 (mkSystemRequirements [] [] []) [].

(** ** Building *)

Section Building.
Context `{RegEnv, Calendar}.

(** What an application left in the registry; [pv] is read when it is wanted. *)
Definition GetClientStateData (is_machine : bool) (want_pv : bool) (r : Registry) (d : AppData) : AppData :=
  let app_id := ad_app_id d in
  let key := GetAppClientStateKey is_machine app_id in
  if FAILED (RegKey_Open key r) then d
  else
    mkAppData app_id
      (out_or (ad_language d) (GetValueString key kRegValueLanguage r))
      (out_or (ad_brand_code d) (GetValueString key kRegValueBrandCode r))
      (out_or (ad_client_id d) (GetValueString key kRegValueClientId r))
      (out_or (ad_installation_id d) (GetValueString key kRegValueInstallationId r))
      (if want_pv then out_or (ad_pv d) (GetValueString key kRegValueProductVersion r) else ad_pv d)
      (ReadRegistry is_machine app_id r)
      (utils_ReadCohort is_machine app_id (ad_cohort d) r).2
      (utils_GetInstallTimeDiffSec is_machine app_id r)
      (s32 (out_or 0 (utils_GetDayOfInstall is_machine app_id r))).

Definition LoadOmahaDataFromRegistry (r : Registry) (p : Ping) : Ping :=
  mkPing (pg_is_machine p) (pg_request_id p) (pg_request p) (pg_apps_data p)
    (GetClientStateData (pg_is_machine p) false r
       (let d := pg_omaha_data p in
        mkAppData kGoogleUpdateAppId (ad_language d) (ad_brand_code d) (ad_client_id d) (ad_installation_id d) (ad_pv d)
          (ad_experiment_labels d) (ad_cohort d) (ad_install_time_diff_sec d) (ad_day_of_install d))).

Definition LoadAppDataFromRegistry (app_ids : list CString) (r : Registry) (p : Ping) : Ping :=
  let loaded := (fun app_id => GetClientStateData (pg_is_machine p) true r (AppData_init app_id)) <$> app_ids in
  LoadOmahaDataFromRegistry r
    (mkPing (pg_is_machine p) (pg_request_id p) (pg_request p) (pg_apps_data p ++ loaded) (pg_omaha_data p)).

Definition AddExtraOmahaLabel (label_set : CString) (p : Ping) : Ping :=
  if IsEmpty label_set then p
  else
    let d := pg_omaha_data p in
    match MergeLabelSets (ad_experiment_labels d) label_set with
    | None => p
    | Some new_labels =>
        mkPing (pg_is_machine p) (pg_request_id p) (pg_request p) (pg_apps_data p)
          (mkAppData (ad_app_id d) (ad_language d) (ad_brand_code d) (ad_client_id d) (ad_installation_id d) (ad_pv d)
             new_labels (ad_cohort d) (ad_install_time_diff_sec d) (ad_day_of_install d))
    end.

Definition request_of (d : AppData) (version next_version : CString) (events : list PingEvent) : RequestApp :=
  let '(cohort, hint, name) := ad_cohort d in
  mkRequestApp (ad_app_id d) version next_version [] [] (ad_language d) (ad_installation_id d) (ad_brand_code d)
    (ad_client_id d) (Labels_RemoveTimestamps (ad_experiment_labels d)) (ad_install_time_diff_sec d)
    (ad_day_of_install d) cohort hint name RequestUpdateCheck_default [] RequestPing_default events.

Definition ping_AddApp (app : RequestApp) (p : Ping) : Ping :=
  mkPing (pg_is_machine p) (pg_request_id p) (UpdateRequest_AddApp (pg_request p) app) (pg_apps_data p) (pg_omaha_data p).

Definition BuildOmahaApp (version next_version : CString) (p : Ping) : RequestApp :=
  request_of (pg_omaha_data p) version next_version [].
Definition BuildOmahaPing (version next_version : CString) (ping_events : list PingEvent) (p : Ping) : Ping :=
  ping_AddApp (request_of (pg_omaha_data p) version next_version ping_events) p.

Definition BuildAppsPing (ping_event : PingEvent) (p : Ping) : Ping :=
  fold_left (fun p d => ping_AddApp (request_of d (ad_pv d) [] [ping_event]) p) (pg_apps_data p) p.

End Building.

Definition Ping_Initialize `{PingEnv} (env : RequestEnv) (is_machine : bool)
    (session_id install_source request_id : CString) : Ping :=
  let r := UpdateRequest_Create env is_machine session_id install_source [] request_id in
  let shell_version_string := GetInstalledShellVersion is_machine in
  let r := if IsEmpty shell_version_string then r
           else mkRequest (rq_is_machine r) (rq_uid r) (rq_protocol_version r) (rq_omaha_version r)
                  shell_version_string (rq_install_source r) (rq_origin_url r) (rq_test_source r) (rq_request_id r)
                  (rq_session_id r) (rq_check_period_sec r) (rq_dlpref r) (rq_domain_joined r) (rq_hw r) (rq_os r) (rq_apps r) in
  mkPing is_machine request_id r [] (AppData_init []).

Definition Ping_BuildRequest `{Env, GroupPolicy, GuidOps} (ctx : BundleCtx) (app : App) (p : Ping) : Ping :=
  mkPing (pg_is_machine p) (pg_request_id p) (BuildRequest ctx app false (pg_request p)) (pg_apps_data p) (pg_omaha_data p).

(** ** Sending and keeping *)

Section Sending.
Context `{HttpStack, RegEnv, Calendar, PingEnv}.

(** A fresh client posts the request; the machine counts the posts. *)
Definition with_client {A} (c : WebServicesClient) (m : WsM A) : MachM (A * Response) := fun s =>
  let '(a, w) := m (mkWsSt c Response_init (m_attempts s) (m_posts s)) in
  ((a, ws_response w), set_posts (ws_attempts w) (ws_posts w) s).

Definition Ping_SendString (is_machine : bool) (headers : Headers) (request_string : CString) : MachM HRESULT :=
  let c := WebServicesClient_Initialize GetPingUrl headers false (WebServicesClient_init is_machine) in
  '(hr, response) ← with_client c (SendString false request_string);
  if FAILED hr then mret hr
  else
    on_reg (ApplyExperimentLabelDeltas is_machine response);;
    mret S_OK.

Definition SendInProcess (request_string : CString) (p : Ping) : MachM HRESULT :=
  hr ← Ping_SendString (pg_is_machine p) [] request_string;
  mret (if FAILED hr then hr else S_OK).

Definition GetPing (ping_string : CString) : CString := _T "/" ++ kCmdLinePing ++ _T " " ++ ping_string.

Definition SendUsingGoogleUpdate (request_string : CString) (wait : bool) (p : Ping) : MachM HRESULT :=
  s ← get;
  let pv := GetAppVersion (pg_is_machine p) kGoogleUpdateAppId [] (m_registry s) in
  if VersionFromString pv <? kMinOmahaVersionForPingOOP then mret E_NOTIMPL
  else
    let request_string_utf8 := WideToUtf8 request_string in
    let ping_string_utf8 := WebSafeBase64Escape request_string_utf8 in
    let args := GetPing (Utf8ToWideChar ping_string_utf8) in
    let n := m_processes s in
    modify (set_processes (S n));;
    let hr := StartGoogleUpdateWithArgs n (pg_is_machine p) args in
    if FAILED hr then mret hr
    else if wait then
      mret (match PingProcess_exit n with
            | Some exit_code => if exit_code =? 0 then S_OK else s32 exit_code
            | None => E_FAIL
            end)
    else mret S_OK.

Definition GetPersistedPingsRegPath (is_machine : bool) : CString :=
  AppendRegKeyPath (registry_update is_machine) kRegKeyPersistedPings.
Definition persisted_path (is_machine : bool) (persisted_subkey_name : CString) : CString :=
  AppendRegKeyPath (GetPersistedPingsRegPath is_machine) persisted_subkey_name.
Definition GetPersistedPingRegPath (p : Ping) : CString := persisted_path (pg_is_machine p) (pg_request_id p).

(** The ping below a key, when it is complete. *)
Definition load_ping (is_machine : bool) (r : Registry) (persisted_subkey_name : CString) : option PersistedPing :=
  let path := persisted_path is_machine persisted_subkey_name in
  if FAILED (RegKey_Open path r) then None
  else match GetValueString path kRegValuePersistedPingTime r with
       | inl _ => None
       | inr persisted_time_string =>
           let persisted_time := tcstoui64 persisted_time_string in
           if (persisted_time =? 0) || (persisted_time =? _UI64_MAX) then None
           else match GetValueString path kRegValuePersistedPingString r with
                | inl _ => None
                | inr persisted_ping_string => Some (persisted_subkey_name, (persisted_time, persisted_ping_string))
                end
       end.

Definition LoadPersistedPings (is_machine : bool) (r : Registry) : HRESULT + list PersistedPing :=
  let path := GetPersistedPingsRegPath is_machine in
  let hr := RegKey_Open path r in
  if FAILED hr then inl hr else inr (omap (load_ping is_machine r) (GetSubkeys path r)).

Definition IsPingExpired (persisted_time : Z) : bool :=
  (GetCurrent100NSTime <? persisted_time) || (kPersistedPingExpiry100ns <=? GetCurrent100NSTime - persisted_time).

Definition DeletePersistedPing (is_machine : bool) (persisted_subkey_name : CString) : RegM HRESULT :=
  r ← get;
  let path := persisted_path is_machine persisted_subkey_name in
  if negb (RegKey_HasKey path r) then mret S_OK else RegKey_DeleteKey path.

Definition DeletePersistedPingOnSuccess (hr : HRESULT) (p : Ping) : RegM unit :=
  when (SUCCEEDED hr) (DeletePersistedPing (pg_is_machine p) (pg_request_id p);; mret tt).

Definition PersistPing (p : Ping) : RegM HRESULT :=
  match Request_Serialize (pg_request p) with
  | inl hr => mret hr
  | inr ping_string =>
      let time_now_str := decimal GetCurrent100NSTime in
      let path := GetPersistedPingRegPath p in
      hr ← RegKey_SetValue path kRegValuePersistedPingString (REG_SZ ping_string);
      if FAILED hr then mret hr
      else RegKey_SetValue path kRegValuePersistedPingTime (REG_SZ time_now_str)
  end.

(** The age of a persisted ping in seconds, for the header. *)
Definition request_age (persisted_time : Z) : Z :=
  s32 (Time64ToInt32 GetCurrent100NSTime - Time64ToInt32 persisted_time).

(** The loop of [SendPersistedPings]; the results of the pings are collected. *)
Fixpoint send_persisted (is_machine : bool) (persisted_pings : list PersistedPing) : MachM (list HRESULT) :=
  match persisted_pings with
  | [] => mret []
  | (name, (persisted_time, persisted_ping_string)) :: persisted_pings =>
      let headers := [(kHeaderXRequestAge, itostr (request_age persisted_time))] in
      hr ← Ping_SendString is_machine headers persisted_ping_string;
      when (SUCCEEDED hr || IsPingExpired persisted_time) (on_reg (DeletePersistedPing is_machine name);; mret tt);;
      hrs ← send_persisted is_machine persisted_pings;
      mret (hr :: hrs)
  end.

Definition SendPersistedPings (is_machine : bool) : MachM HRESULT :=
  s ← get;
  match LoadPersistedPings is_machine (m_registry s) with
  | inl hr => mret (if negb (hr =? HRESULT_FROM_WIN32 ERROR_FILE_NOT_FOUND) then hr else S_OK)
  | inr persisted_pings => send_persisted is_machine persisted_pings;; mret S_OK
  end.

(** [Send] without its scope guard, which is [DeletePersistedPingOnSuccess]. *)
Definition send_ping (is_fire_and_forget : bool) (p : Ping) : MachM HRESULT :=
  if UpdateRequest_IsEmpty (pg_request p) then mret S_FALSE
  else match Request_Serialize (pg_request p) with
       | inl hr => mret hr
       | inr request_string =>
           hr ← SendUsingGoogleUpdate request_string (negb is_fire_and_forget) p;
           if SUCCEEDED hr then mret hr else SendInProcess request_string p
       end.
Definition Ping_Send (is_fire_and_forget : bool) (p : Ping) : MachM HRESULT :=
  hr ← send_ping is_fire_and_forget p;
  on_reg (DeletePersistedPingOnSuccess hr p);;
  mret hr.

Definition HandlePing (is_machine : bool) (ping_string : CString) : MachM HRESULT :=
  let ping_string_utf8 := WideToUtf8 ping_string in
  match WebSafeBase64Unescape ping_string_utf8 (GetLength ping_string_utf8) with
  | None => mret E_FAIL
  | Some request_string_utf8 => Ping_SendString is_machine [] (Utf8ToWideChar request_string_utf8)
  end.

Definition SendReliablePing (is_fire_and_forget : bool) (p : Ping) : MachM HRESULT :=
  on_reg (PersistPing p);;
  Ping_Send is_fire_and_forget p.

End Sending.
