(* ===== verification/PingFacts.v ===== *)
(** Pings: a ping reaches the server as it was written, and it is kept in the
    registry until it was sent or is too old. *)

From S2P Require Import Prelude Hresult CStrings Text Base64 Paths Protocol WebClient Policy.
From S2P Require Import Registry RegistryFacts Machine AppRegistry Time Gregorian Labels LabelsFacts AppModel UpdateResponse Ping.

(** ** Times *)

Lemma tcstoui64_decimal n : 0 <= n < 2 ^ 64 -> tcstoui64 (decimal n) = n.
Proof.
  intros Hn. destruct (decimal_spec n ltac:(lia)) as (c & ds & -> & Hd & Hv). unfold tcstoui64.
  assert (c_str (c :: ds) = c :: ds) as ->.
  { apply take_while_all. eapply forallb_impl; [|exact Hd]. unfold String_IsDigit. intros x Hx. lia. }
  pose proof Hd as [Hc _]%andb_true_iff. unfold String_IsDigit in Hc.
  rewrite drop_while_none by (unfold is_space; lia). unfold strip_sign.
  rewrite !(proj2 (Z.eqb_neq c _)) by lia. rewrite take_while_all, Hv by done.
  unfold _UI64_MAX. by rewrite (proj2 (Z.ltb_ge _ _)) by lia.
Qed.

(** ** Keys *)

(** No key of a ping is a key of an application. *)
Lemma persisted_not_client_state is_machine n app_id :
  reg_name (persisted_path is_machine n) <> reg_name (GetAppClientStateKey is_machine app_id).
Proof.
  unfold persisted_path, GetPersistedPingsRegPath, GetAppClientStateKey, AppendRegKeyPath. destruct is_machine.
  - apply (reg_name_differs (_T "HKLM\Software\BraveSoftware\Update\") (_T "HKLM\Software\BraveSoftware\Update\") 80 67); done.
  - apply (reg_name_differs (_T "HKCU\Software\BraveSoftware\Update\") (_T "HKCU\Software\BraveSoftware\Update\") 80 67); done.
Qed.

Lemma persisted_not_client_state_medium n app_id :
  reg_name (persisted_path true n) <> reg_name (GetAppClientStateMediumKey app_id).
Proof.
  unfold persisted_path, GetPersistedPingsRegPath, GetAppClientStateMediumKey, AppendRegKeyPath.
  apply (reg_name_differs (_T "HKLM\Software\BraveSoftware\Update\") (_T "HKLM\Software\BraveSoftware\Update\") 80 67); done.
Qed.

(** What is kept of a ping is what the values of its key say. *)
Lemma load_ping_ext is_machine n r r' :
  (forall v, reg_value (persisted_path is_machine n) v r = reg_value (persisted_path is_machine n) v r') ->
  load_ping is_machine r n = load_ping is_machine r' n.
Proof.
  intros Hr.
  assert (forall r v hr, FAILED (RegKey_Open (persisted_path is_machine n) r) = true ->
    GetValueString (persisted_path is_machine n) v r = inr hr -> False) as Hopen.
  { intros r0 v x. unfold RegKey_Open, GetValueString. destruct (reg_value _ v r0) eqn:Hv; [|done].
    by rewrite (reg_value_HasKey _ _ _ _ Hv). }
  unfold load_ping. cbv zeta.
  rewrite !(GetValueString_ext _ _ _ _ _ _ (Hr _)).
  destruct (GetValueString _ kRegValuePersistedPingTime r') as [|x] eqn:Ht; [by repeat case_match|].
  rewrite <- (GetValueString_ext _ _ _ _ _ _ (Hr _)) in Ht.
  destruct (FAILED (RegKey_Open (persisted_path is_machine n) r)) eqn:Ho; [by destruct (Hopen _ _ _ Ho Ht)|].
  rewrite (GetValueString_ext _ _ _ _ _ _ (Hr _)) in Ht.
  destruct (FAILED (RegKey_Open (persisted_path is_machine n) r')) eqn:Ho'; [by destruct (Hopen _ _ _ Ho' Ht)|]. done.
Qed.

Lemma load_ping_gone is_machine n r :
  (forall v, reg_value (persisted_path is_machine n) v r = None) -> load_ping is_machine r n = None.
Proof.
  intros Hr. unfold load_ping, GetValueString. rewrite !Hr. by destruct (FAILED _).
Qed.

Lemma exec_DeletePersistedPing is_machine n r :
  exec (DeletePersistedPing is_machine n) r =
    if RegKey_HasKey (persisted_path is_machine n) r then exec (RegKey_DeleteKey (persisted_path is_machine n)) r else r.
Proof.
  unfold DeletePersistedPing. rewrite exec_bind. change (eval get r) with r. change (exec get r) with r. cbv zeta.
  by destruct (RegKey_HasKey _ r).
Qed.

Lemma load_ping_deleted is_machine n r :
  load_ping is_machine (exec (DeletePersistedPing is_machine n) r) n = None.
Proof.
  rewrite exec_DeletePersistedPing. destruct (RegKey_HasKey _ r) eqn:Hk.
  - apply load_ping_gone. intros v. rewrite reg_value_DeleteKey, Hk, is_at_or_below_refl. done.
  - unfold load_ping, RegKey_Open. by rewrite Hk.
Qed.

Lemma load_ping_other is_machine n n' r :
  plain_name n -> plain_name n' -> MakeLower n <> MakeLower n' ->
  load_ping is_machine (exec (DeletePersistedPing is_machine n') r) n = load_ping is_machine r n.
Proof.
  intros Hn Hn' Hne. rewrite exec_DeletePersistedPing. destruct (RegKey_HasKey _ r) eqn:Hk; [|done].
  apply load_ping_ext. intros v. rewrite reg_value_DeleteKey, Hk. unfold persisted_path.
  rewrite plain_not_below, bool_decide_eq_false_2 by (done || congruence). done.
Qed.

Section Facts.
Context `{HttpStack, RegEnv, Calendar, PingEnv}.

(** Labels are written below the keys of applications. *)
Lemma WriteRegistry_value is_machine app_id new_labels n v r :
  reg_value (persisted_path is_machine n) v (exec (WriteRegistry is_machine app_id new_labels) r) =
  reg_value (persisted_path is_machine n) v r.
Proof.
  unfold WriteRegistry. destruct (IsEmpty new_labels); [done|].
  rewrite exec_bind. change (eval get r) with r. change (exec get r) with r. cbv zeta.
  destruct (ReadFromRegistry is_machine app_id r LabelStore_init) as [hr labels].
  destruct ((if SUCCEEDED hr then DeserializeAndApplyDelta new_labels else Deserialize new_labels) labels) as [ok labels'].
  destruct ok; [|done]. cbn [negb].
  rewrite exec_bind. unfold WriteToRegistry. set (r1 := exec (RegKey_SetValue _ _ _) r).
  assert (reg_value (persisted_path is_machine n) v r1 = reg_value (persisted_path is_machine n) v r) as <-.
  { unfold r1. rewrite reg_value_SetValue, same_value_other_key by apply persisted_not_client_state. done. }
  rewrite exec_bind. change (eval get r1) with r1. change (exec get r1) with r1.
  rewrite exec_bind, exec_ret. destruct is_machine; cbn [andb when]; [|done].
  destruct (RegKey_HasValue _ _ r1); cbn [when]; [|done]. rewrite exec_bind, exec_ret, reg_value_DeleteValue.
  by rewrite same_value_other_key by apply persisted_not_client_state_medium.
Qed.

Lemma ApplyExperimentLabelDeltas_value is_machine response n v r :
  reg_value (persisted_path is_machine n) v (exec (ApplyExperimentLabelDeltas is_machine response) r) =
  reg_value (persisted_path is_machine n) v r.
Proof.
  unfold ApplyExperimentLabelDeltas. revert r. induction (rs_apps response) as [|app apps IH]; intros r; [done|].
  cbn [apply_deltas]. destruct (IsEmpty _); [apply IH|]. rewrite exec_bind.
  set (r1 := exec (WriteRegistry _ _ _) r). destruct (FAILED _); [|rewrite IH]; apply WriteRegistry_value.
Qed.

Lemma exec_on_reg {A} (m : RegM A) s : m_registry (exec (on_reg m) s) = exec m (m_registry s).
Proof. unfold on_reg, exec. by destruct (m (m_registry s)). Qed.
Lemma eval_on_reg {A} (m : RegM A) s : eval (on_reg m) s = eval m (m_registry s).
Proof. unfold on_reg, eval. by destruct (m (m_registry s)). Qed.

Lemma with_client_registry {A} c (m : WsM A) s : m_registry (exec (with_client c m) s) = m_registry s.
Proof. unfold with_client, exec. by destruct (m _). Qed.

(** A request that could not be sent leaves the registry alone, and in any case
    the pings that are kept. *)
Lemma SendString_registry is_machine headers text s :
  let s' := exec (Ping_SendString is_machine headers text) s in
  (FAILED (eval (Ping_SendString is_machine headers text) s) = true -> m_registry s' = m_registry s) /\
  forall n, load_ping is_machine (m_registry s') n = load_ping is_machine (m_registry s) n.
Proof.
  cbv zeta. unfold Ping_SendString. set (c := WebServicesClient_Initialize _ _ _ _).
  rewrite exec_bind, eval_bind. destruct (eval (with_client c (SendString false text)) s) as [hr response].
  set (s1 := exec (with_client c _) s). assert (m_registry s1 = m_registry s) as <- by apply with_client_registry.
  destruct (FAILED hr) eqn:Hhr; [by rewrite exec_ret|].
  rewrite exec_bind, eval_bind, exec_ret, eval_ret. split; [done|].
  intros n. rewrite exec_on_reg. apply load_ping_ext. intros v. apply ApplyExperimentLabelDeltas_value.
Qed.

(** ** Pings that were kept *)

Lemma send_persisted_spec is_machine pings s :
  Forall (fun p => plain_name p.1) pings -> NoDup ((fun p => MakeLower p.1) <$> pings) ->
  Forall (fun p => load_ping is_machine (m_registry s) p.1 = Some p) pings ->
  let hrs := eval (send_persisted is_machine pings) s in
  let r' := m_registry (exec (send_persisted is_machine pings) s) in
  length hrs = length pings /\
  (forall i p hr, pings !! i = Some p -> hrs !! i = Some hr ->
     load_ping is_machine r' p.1 = if SUCCEEDED hr || IsPingExpired p.2.1 then None else Some p) /\
  (forall n, plain_name n -> MakeLower n ∉ ((fun p => MakeLower p.1) <$> pings) ->
     load_ping is_machine r' n = load_ping is_machine (m_registry s) n).
Proof.
  revert s. induction pings as [|[name [time text]] pings IH]; intros s Hplain Hdup Hload; [by split; [|split]|].
  apply Forall_cons in Hplain as [Hname Hplain]. cbn [fmap list_fmap] in Hdup |- *. apply NoDup_cons in Hdup as [Hnot Hdup].
  apply Forall_cons in Hload as [Hhead Hload]. cbn [fst snd] in *. cbv zeta. cbn [send_persisted].
  set (headers := [(kHeaderXRequestAge, _)]). rewrite exec_bind, eval_bind.
  destruct (SendString_registry is_machine headers text s) as [_ Hkeep].
  set (hr := eval (Ping_SendString is_machine headers text) s) in *.
  set (s1 := exec (Ping_SendString is_machine headers text) s) in *.
  set (gone := SUCCEEDED hr || IsPingExpired time). rewrite exec_bind, eval_bind.
  set (s2 := exec (when gone _) s1).
  assert (m_registry s2 = if gone then exec (DeletePersistedPing is_machine name) (m_registry s1) else m_registry s1) as Hs2.
  { unfold s2. destruct gone; cbn [when]; [|done]. rewrite exec_bind, exec_ret. apply exec_on_reg. }
  assert (forall n, plain_name n -> MakeLower n <> MakeLower name ->
            load_ping is_machine (m_registry s2) n = load_ping is_machine (m_registry s) n) as Hother.
  { intros n Hn Hne. rewrite Hs2, <- Hkeep. destruct gone; [by apply load_ping_other|done]. }
  assert (load_ping is_machine (m_registry s2) name = if gone then None else Some (name, (time, text))) as Hself.
  { rewrite Hs2. destruct gone; [apply load_ping_deleted|]. by rewrite Hkeep. }
  assert (Forall (fun p => load_ping is_machine (m_registry s2) p.1 = Some p) pings) as Hload2.
  { apply Forall_forall. intros p Hp. rewrite Hother; [by eapply Forall_forall in Hload|by eapply Forall_forall in Hplain|].
    intros Heq. apply Hnot. rewrite <- Heq. by apply (list_elem_of_fmap_2 (fun p : PersistedPing => MakeLower p.1)). }
  rewrite exec_bind, eval_bind, exec_ret, eval_ret.
  destruct (IH s2 Hplain Hdup Hload2) as (Hlen & Hdone & Hrest). cbv zeta in Hlen, Hdone, Hrest.
  split; [cbn [length]; congruence|]. split.
  - intros [|i] p hr' Hp Hhr; [|by eapply Hdone]. injection Hp as <-. injection Hhr as <-. cbn [fst snd].
    fold gone. rewrite <- Hself. by apply Hrest.
  - intros n Hn [Hne Hnin]%not_elem_of_cons. rewrite Hrest by done. by apply Hother.
Qed.

Lemma LoadPersistedPings_load is_machine r pings :
  LoadPersistedPings is_machine r = inr pings -> Forall (fun p => load_ping is_machine r p.1 = Some p) pings.
Proof.
  unfold LoadPersistedPings. destruct (FAILED _); [done|]. intros [= <-]. apply Forall_forall. intros p Hp.
  apply list_elem_of_omap in Hp as (n & _ & Hn). rewrite <- Hn. f_equal. revert Hn. unfold load_ping.
  repeat case_match; try done. by intros [= <-].
Qed.

(** C31. [SendPersistedPings] sends every ping that was kept, in turn, and forgets
    exactly those that were sent or are ten days old; every other ping stays as
    it was. *)
Theorem persisted_until_sent is_machine pings s :
  LoadPersistedPings is_machine (m_registry s) = inr pings ->
  Forall (fun p => plain_name p.1) pings -> NoDup ((fun p => MakeLower p.1) <$> pings) ->
  let hrs := eval (send_persisted is_machine pings) s in
  let r' := m_registry (exec (SendPersistedPings is_machine) s) in
  eval (SendPersistedPings is_machine) s = S_OK /\ length hrs = length pings /\
  (forall i p hr, pings !! i = Some p -> hrs !! i = Some hr ->
     load_ping is_machine r' p.1 = if SUCCEEDED hr || IsPingExpired p.2.1 then None else Some p) /\
  (forall n, plain_name n -> MakeLower n ∉ ((fun p => MakeLower p.1) <$> pings) ->
     load_ping is_machine r' n = load_ping is_machine (m_registry s) n).
Proof.
  intros Hload Hplain Hdup. cbv zeta. unfold SendPersistedPings. rewrite exec_bind, eval_bind.
  change (eval get s) with s. change (exec get s) with s. rewrite Hload, exec_bind, eval_bind, exec_ret, eval_ret.
  split; [done|]. apply send_persisted_spec; [done|done|]. by apply LoadPersistedPings_load.
Qed.

(** ** Reliable pings *)

Lemma PersistPing_load p text r :
  Request_Serialize (pg_request p) = inr text -> 0 < GetCurrent100NSTime < 2 ^ 64 - 1 ->
  load_ping (pg_is_machine p) (exec (PersistPing p) r) (pg_request_id p) =
    Some (pg_request_id p, (GetCurrent100NSTime, text)).
Proof.
  intros Htext Hnow. unfold PersistPing. rewrite Htext. unfold GetPersistedPingRegPath. cbv zeta.
  set (path := persisted_path _ _). rewrite exec_bind, eval_SetValue. change (FAILED S_OK) with false. cbv iota.
  set (r1 := exec (RegKey_SetValue path kRegValuePersistedPingString _) r).
  set (r2 := exec (RegKey_SetValue path kRegValuePersistedPingTime _) r1).
  assert (reg_value path kRegValuePersistedPingTime r2 = Some (REG_SZ (decimal GetCurrent100NSTime))) as Ht.
  { unfold r2. by rewrite reg_value_SetValue, same_value_refl. }
  assert (reg_value path kRegValuePersistedPingString r2 = Some (REG_SZ text)) as Hs.
  { unfold r2. rewrite reg_value_SetValue, same_value_key. change (bool_decide _) with false. cbv iota.
    unfold r1. by rewrite reg_value_SetValue, same_value_refl. }
  unfold load_ping. fold path. unfold RegKey_Open, GetValueString. rewrite (reg_value_HasKey _ _ _ _ Ht), Ht, Hs.
  change (FAILED S_OK) with false. cbv iota. rewrite tcstoui64_decimal by lia.
  rewrite !(proj2 (Z.eqb_neq GetCurrent100NSTime _)) by (unfold _UI64_MAX; lia). done.
Qed.

Lemma SendUsingGoogleUpdate_registry text wait p s :
  m_registry (exec (SendUsingGoogleUpdate text wait p) s) = m_registry s.
Proof.
  unfold SendUsingGoogleUpdate. rewrite exec_bind. change (eval get s) with s. change (exec get s) with s. cbv zeta.
  destruct (_ <? _); [done|]. rewrite exec_bind. destruct (FAILED _); [done|]. by destruct wait.
Qed.

Lemma send_ping_registry fire p s :
  FAILED (eval (send_ping fire p) s) = true -> m_registry (exec (send_ping fire p) s) = m_registry s.
Proof.
  unfold send_ping. destruct (UpdateRequest_IsEmpty _); [done|]. destruct (Request_Serialize _) as [hr|text]; [done|].
  rewrite exec_bind, eval_bind. set (s1 := exec (SendUsingGoogleUpdate _ _ _) s).
  assert (m_registry s1 = m_registry s) as <- by apply SendUsingGoogleUpdate_registry.
  destruct (SUCCEEDED _) eqn:Hhr; [by rewrite exec_ret|].
  unfold SendInProcess. rewrite exec_bind, eval_bind, exec_ret, eval_ret.
  destruct (SendString_registry (pg_is_machine p) [] text s1) as [Hr _]. cbv zeta in Hr.
  destruct (FAILED (eval (Ping_SendString _ _ _) s1)); [by intros _; apply Hr|done].
Qed.

(** C32. A reliable ping is not lost: after [SendReliablePing] it is gone from the
    registry when the call succeeded, and it is kept there, with the time and the
    request, when the call failed. *)
Theorem reliable_ping_kept fire p text s :
  Request_Serialize (pg_request p) = inr text -> 0 < GetCurrent100NSTime < 2 ^ 64 - 1 ->
  load_ping (pg_is_machine p) (m_registry (exec (SendReliablePing fire p) s)) (pg_request_id p) =
    if SUCCEEDED (eval (SendReliablePing fire p) s) then None
    else Some (pg_request_id p, (GetCurrent100NSTime, text)).
Proof.
  intros Htext Hnow. unfold SendReliablePing. rewrite exec_bind, eval_bind.
  set (s1 := exec (on_reg (PersistPing p)) s).
  pose proof (PersistPing_load p text (m_registry s) Htext Hnow) as Hload. rewrite <- exec_on_reg in Hload. fold s1 in Hload.
  unfold Ping_Send. rewrite exec_bind, eval_bind, exec_bind, eval_bind, exec_ret, eval_ret.
  set (s2 := exec (send_ping fire p) s1). set (hr := eval (send_ping fire p) s1). rewrite exec_on_reg.
  unfold DeletePersistedPingOnSuccess. destruct (SUCCEEDED hr) eqn:Hhr; cbn [when].
  - rewrite exec_bind, exec_ret. apply load_ping_deleted.
  - rewrite exec_ret. unfold s2. rewrite send_ping_registry; [done|]. fold hr. unfold SUCCEEDED in Hhr. unfold FAILED. lia.
Qed.

(** ** From process to process *)

Section Transport.
(** UTF-8 leaves ASCII alone, and converting back gives the text. *)
Hypothesis utf8_ascii : forall s, Forall (fun c => 0 < c < 128) s -> WideToUtf8 s = s /\ Utf8ToWideChar s = s.
Hypothesis utf8_bytes : forall s, Forall is_byte (WideToUtf8 s).

(** C33. The request that is handed to another process on its command line is the
    request that process posts: [HandlePing] of the argument does what sending the
    text here does. *)
Theorem ping_transport is_machine text s :
  Utf8ToWideChar (WideToUtf8 text) = text -> Z.of_nat (length (WideToUtf8 text)) < 2 ^ 27 ->
  HandlePing is_machine (Utf8ToWideChar (WebSafeBase64Escape (WideToUtf8 text))) s = Ping_SendString is_machine [] text s.
Proof.
  intros Hback Hlen. destruct (WebSafeBase64_roundtrip (WideToUtf8 text) (utf8_bytes text) Hlen) as [Hascii Hround].
  set (escaped := WebSafeBase64Escape (WideToUtf8 text)) in *.
  destruct (utf8_ascii escaped Hascii) as [Hu1 Hu2]. unfold HandlePing. rewrite Hu2, Hu1. unfold GetLength.
  by rewrite Hround, Hback.
Qed.
End Transport.

End Facts.

(** ** Examples *)

Definition sample_ping_env (start : HRESULT) (exit_code : option Z) : PingEnv := {|
  GetPingUrl := _T "https://update/service";
  GetInstalledShellVersion _ := _T "1.3.361.151";
  StartGoogleUpdateWithArgs _ _ _ := start;
  PingProcess_exit _ := exit_code;
  Utf8ToWideChar s := s
|}.

Definition sample_ping : Ping :=
  @BuildOmahaPing sample_clock gregorian (_T "1.3.361.151") (_T "1.3.361.153") []
    (@Ping_Initialize (sample_ping_env S_OK (Some 0))
       (mkRequestEnv (fun _ => []) [] [] [] None [] false None (true, true, true, true, true, true, true) [] [] [])
       true (_T "{s}") [] (_T "{1}")).
Definition sample_ping_text : CString := _T "<request>" ++ UpdateRequest_app_ids (pg_request sample_ping).

Definition sample_answer (body : CString) : HttpOutcome := mkHttpOutcome S_OK body [] 200.

(** The other process cannot be started, and the server's answer is [body]. *)
#[local] Notation sample_send body :=
  (@SendReliablePing (sample_stack (sample_answer body)) sample_clock gregorian (sample_ping_env E_FAIL None) false sample_ping).

Lemma reliable_ping_kept_witness :
  load_ping (pg_is_machine sample_ping) (m_registry (exec (sample_send (_T "ok")) Machine_empty)) (pg_request_id sample_ping) = None /\
  load_ping (pg_is_machine sample_ping) (m_registry (exec (sample_send (_T "no")) Machine_empty)) (pg_request_id sample_ping) =
    Some (pg_request_id sample_ping, (@GetCurrent100NSTime sample_clock, sample_ping_text)).
Proof.
  assert (0 < @GetCurrent100NSTime sample_clock < 2 ^ 64 - 1) as Hnow by (by vm_compute).
  assert (SUCCEEDED (eval (sample_send (_T "ok")) Machine_empty) = true) as Hok by (by vm_compute).
  assert (SUCCEEDED (eval (sample_send (_T "no")) Machine_empty) = false) as Hno by (by vm_compute).
  split.
  - rewrite (@reliable_ping_kept (sample_stack (sample_answer (_T "ok"))) sample_clock gregorian
      (sample_ping_env E_FAIL None) false sample_ping sample_ping_text Machine_empty eq_refl Hnow), Hok. reflexivity.
  - rewrite (@reliable_ping_kept (sample_stack (sample_answer (_T "no"))) sample_clock gregorian
      (sample_ping_env E_FAIL None) false sample_ping sample_ping_text Machine_empty eq_refl Hnow), Hno. reflexivity.
Defined.

(** A ping whose answer is malformed was posted, twice, and is kept to be posted
    again. *)
Example malformed_answer_keeps_ping :
  let s := exec (sample_send (_T "no")) Machine_empty in
  FAILED (eval (sample_send (_T "no")) Machine_empty) = true /\
  (post_url <$> m_posts s) = [_T "https://update/service"; _T "http://update/service"] /\
  is_Some (load_ping true (m_registry s) (_T "{1}")).
Proof. split; [by vm_compute|]. split; [by vm_compute|]. vm_compute. by eexists. Qed.

#[local] Notation sample_answers := (sample_stack (sample_answer (_T "ok"))).
#[local] Notation sample_process := (sample_ping_env S_OK (Some 0)).

Lemma ping_transport_witness :
  @HandlePing sample_answers sample_clock gregorian sample_process true
    (@Utf8ToWideChar sample_process (WebSafeBase64Escape (@WideToUtf8 sample_answers (_T "<request>")))) Machine_empty
  = @Ping_SendString sample_answers sample_clock gregorian sample_process true [] (_T "<request>") Machine_empty.
Proof.
  apply (@ping_transport sample_answers sample_clock gregorian sample_process).
  - intros s Hs. split; [|done]. cbn. induction Hs as [|c s Hc _ IH]; [done|]. cbn. rewrite IH, Z.mod_small by lia. done.
  - intros s. cbn. apply Forall_fmap, Forall_true. intros c. unfold is_byte. cbn. apply Z.mod_pos_bound. lia.
  - by vm_compute.
  - by vm_compute.
Defined.

(** One ping of today and one of long ago; nothing can be sent. *)
Definition sample_pings : list PersistedPing :=
  [(_T "{2}", (5, _T "old")); (_T "{1}", (133860103830000000, _T "new"))].
Definition sample_pings_machine : Machine :=
  let put n v s := RegKey_SetValue (persisted_path true n) v (REG_SZ s) in
  set_registry (exec (put (_T "{1}") kRegValuePersistedPingTime (_T "133860103830000000");;
                      put (_T "{1}") kRegValuePersistedPingString (_T "new");;
                      put (_T "{2}") kRegValuePersistedPingTime (_T "5");;
                      put (_T "{2}") kRegValuePersistedPingString (_T "old")) ∅) Machine_empty.

Definition sample_resend : MachM HRESULT :=
  @SendPersistedPings (sample_stack (mkHttpOutcome E_FAIL [] [] 0)) sample_clock gregorian (sample_ping_env S_OK (Some 0)) true.

Lemma persisted_until_sent_witness :
  let r' := m_registry (exec sample_resend sample_pings_machine) in
  load_ping true r' (_T "{1}") = Some (_T "{1}", (133860103830000000, _T "new")) /\ load_ping true r' (_T "{2}") = None.
Proof.
  cbv zeta. assert (LoadPersistedPings true (m_registry sample_pings_machine) = inr sample_pings) as Hload by (by vm_compute).
  assert (Forall (fun p => plain_name p.1) sample_pings) as Hplain by (by repeat constructor).
  assert (NoDup ((fun p : PersistedPing => MakeLower p.1) <$> sample_pings)) as Hdup
    by (apply (bool_decide_unpack _); by vm_compute).
  destruct (@persisted_until_sent (sample_stack (mkHttpOutcome E_FAIL [] [] 0)) sample_clock gregorian (sample_ping_env S_OK (Some 0))
    true sample_pings sample_pings_machine Hload Hplain Hdup) as (_ & _ & Hdone & _).
  assert (eval (@send_persisted (sample_stack (mkHttpOutcome E_FAIL [] [] 0)) sample_clock gregorian (sample_ping_env S_OK (Some 0))
    true sample_pings) sample_pings_machine = [E_FAIL; E_FAIL]) as Hhrs by (by vm_compute).
  rewrite Hhrs in Hdone.
  split; [exact (Hdone 1%nat (_T "{1}", (133860103830000000, _T "new")) E_FAIL eq_refl eq_refl)
         |exact (Hdone 0%nat (_T "{2}", (5, _T "old")) E_FAIL eq_refl eq_refl)].
Defined.
