(* ===== verification/AppFsm.v ===== *)
(** The state machine of an application: the class [AppState] and its thirteen
    subclasses (omaha/goopdate/app_state*.cc), and the methods of [App] that
    dispatch to the current state (app.cc).

    Each override of a subclass is a definition named after the class and the
    method; the methods a class does not override are those of the base class.
    A dispatcher [App_<method>] selects by the current state, which is what
    the virtual call does. *)

From S2P Require Import Prelude Hresult CStrings Protocol Policy Package AppModel UpdateResponse.

(** The download and install managers, as the state machine uses them: a
    blocking download of the application, a blocking installation from a
    directory, and the copying of the packages into it. *)
Class Managers := {
  mgr_DownloadApp : AppM HRESULT;
  mgr_InstallApp : CString -> AppM unit;
  mgr_install_working_dir : CString;
  mgr_GetGuid : nat -> HRESULT + CString;
  mgr_CopyAppVersionPackages : AppVersion -> CString -> AppM HRESULT;
  mgr_ConcatenatePath : CString -> CString -> CString
}.

Section Fsm.
Context `{Env, GroupPolicy, GuidOps} (ctx : BundleCtx).

Definition language : CString := bc_display_language ctx.

(** ** Pings of state changes: [CreatePingEvent]

    [a] is the application when the new state has been set,
    [previous_state] the state before, [extra] the global
    [error_extra_code1()]. *)

Definition event_by_kind (a : App) (update install : EventType) : EventType :=
  if is_update a then update else install.

Definition AppStateWaitingToDownload_CreatePingEvent (a : App) : option PingEvent :=
  Some (PingEvent4 (event_by_kind a EVENT_UPDATE_APPLICATION_BEGIN EVENT_INSTALL_APPLICATION_BEGIN)
          (completion_result_ (completion a)) (App_error_code a) 0).

Definition AppStateDownloading_CreatePingEvent (a : App) : option PingEvent :=
  Some (PingEvent4 (event_by_kind a EVENT_UPDATE_DOWNLOAD_START EVENT_INSTALL_DOWNLOAD_START)
          (completion_result_ (completion a)) (App_error_code a) 0).

Definition AppStateDownloadComplete_CreatePingEvent (a : App) : option PingEvent :=
  Some (PingEvent4 (event_by_kind a EVENT_UPDATE_DOWNLOAD_FINISH EVENT_INSTALL_DOWNLOAD_FINISH)
          (completion_result_ (completion a)) (App_error_code a) 0).

Definition AppStateInstalling_CreatePingEvent (a : App) : option PingEvent :=
  Some (PingEvent4 (event_by_kind a EVENT_UPDATE_INSTALLER_START EVENT_INSTALL_INSTALLER_START)
          (completion_result_ (completion a)) (App_error_code a) 0).

Definition AppStateInstallComplete_CreatePingEvent (a : App) : option PingEvent :=
  let is_omaha := kGoopdateGuid =? app_guid a in
  if is_omaha then None
  else Some (PingEvent10 (event_by_kind a EVENT_UPDATE_COMPLETE EVENT_INSTALL_COMPLETE)
               (completion_result_ (completion a)) (App_error_code a)
               (installer_result_extra_code1_ (completion a))
               (source_url_index_ (metrics a)) (App_GetUpdateCheckTimeMs a) (App_GetDownloadTimeMs a)
               (num_bytes_downloaded_ (metrics a)) (App_GetPackagesTotalSize a) (App_GetInstallTimeMs a)).

Definition AppStateNoUpdate_CreatePingEvent (a : App) : option PingEvent :=
  let completion_result := completion_result_ (completion a) in
  if bool_decide (completion_result = EVENT_RESULT_UPDATE_DEFERRED)
  then Some (PingEvent4 EVENT_UPDATE_COMPLETE completion_result (App_error_code a) 0)
  else None.

Definition AppStateError_CreatePingEvent (a : App) (previous_state : CurrentState) (extra : Z) :
    option PingEvent :=
  let event_type := event_by_kind a EVENT_UPDATE_COMPLETE EVENT_INSTALL_COMPLETE in
  let result := completion_result_ (completion a) in
  let is_installer_error :=
    bool_decide (result = EVENT_RESULT_INSTALLER_ERROR_MSI)
    || bool_decide (result = EVENT_RESULT_INSTALLER_ERROR_OTHER)
    || bool_decide (result = EVENT_RESULT_INSTALLER_ERROR_SYSTEM) in
  let error_code :=
    if is_installer_error then installer_result_code_ (completion a) else App_error_code a in
  let app_extra_code1 := extra_code1 (error_context_ (completion a)) in
  let extra_code1 :=
    if is_installer_error then installer_result_extra_code1_ (completion a)
    else if negb (app_extra_code1 =? 0) then app_extra_code1
    else Z.lor kAppStateExtraCodeMask (CurrentState_value previous_state) in
  let extra_code1 :=
    if (error_code =? GOOPDATEDOWNLOAD_E_CACHING_FAILED)
       || (error_code =? GOOPDATEINSTALL_E_INSTALLER_FAILED_START)
    then extra else extra_code1 in
  let can_ping := App_is_install a || has_update_available a in
  if negb can_ping then None
  else if bool_decide (result = EVENT_RESULT_CANCELLED) then
    Some (PingEventCancel event_type result error_code extra_code1 (App_is_bundled ctx)
            (CurrentState_value (state_cancelled_ (metrics a)))
            (App_GetTimeSinceUpdateAvailable a) (App_GetTimeSinceDownloadStart a))
  else
    Some (PingEvent10 event_type result error_code extra_code1 (source_url_index_ (metrics a))
            (App_GetUpdateCheckTimeMs a) (App_GetDownloadTimeMs a) (num_bytes_downloaded_ (metrics a))
            (App_GetPackagesTotalSize a) (App_GetInstallTimeMs a)).

(** The virtual call; the base class creates no ping. *)
Definition CreatePingEvent (st : AppState) (a : App) (previous_state : CurrentState) (extra : Z) :
    option PingEvent :=
  match st with
  | AppStateWaitingToDownload => AppStateWaitingToDownload_CreatePingEvent a
  | AppStateDownloading => AppStateDownloading_CreatePingEvent a
  | AppStateDownloadComplete => AppStateDownloadComplete_CreatePingEvent a
  | AppStateInstalling => AppStateInstalling_CreatePingEvent a
  | AppStateInstallComplete => AppStateInstallComplete_CreatePingEvent a
  | AppStateNoUpdate => AppStateNoUpdate_CreatePingEvent a
  | AppStateError => AppStateError_CreatePingEvent a previous_state extra
  | _ => None
  end.

(** [App::ChangeState]. *)
Definition ChangeState (new_state : AppState) : AppM unit :=
  a ← get_app;
  let existing_state := App_state a in
  modify_app (set_app_state new_state);;
  s ← get;
  match CreatePingEvent new_state (st_app s) existing_state (w_error_extra_code1 (st_world s)) with
  | Some ping_event => App_AddPingEvent ping_event
  | None => mret tt
  end.

(** ** The base class *)

(** [AppState::Error]. *)
Definition AppState_Error (ec : ErrorContext) (message : CString) : AppM unit :=
  App_SetError ec message;;
  ChangeState AppStateError.

(** [AppState::HandleInvalidStateTransition] in the state [st]. *)
Definition HandleInvalidStateTransition (st : AppState) : AppM unit :=
  AppState_Error (mkErrorContext GOOPDATE_E_INVALID_STATE_TRANSITION (CurrentState_value (AppState_state st)))
    (LoadString language IDS_INSTALL_FAILED).

(** [AppState::Cancel] in the state [st]. *)
Definition AppState_Cancel (st : AppState) : AppM unit :=
  App_SetError (ErrorContext_of GOOPDATE_E_CANCELLED) (LoadString language IDS_CANCELED);;
  App_set_state_cancelled (AppState_state st);;
  App_SetCurrentTimeAs TIME_CANCELLED;;
  ChangeState AppStateError.

(** The overrides of [Error]: the two terminal states report an invalid
    transition, the error state keeps its error. *)
Definition AppStateInstallComplete_Error (ec : ErrorContext) (message : CString) : AppM unit :=
  HandleInvalidStateTransition AppStateInstallComplete.
Definition AppStateNoUpdate_Error (ec : ErrorContext) (message : CString) : AppM unit :=
  HandleInvalidStateTransition AppStateNoUpdate.
Definition AppStateError_Error (ec : ErrorContext) (message : CString) : AppM unit := mret tt.

(** The virtual [Error] of the state [st]. *)
Definition state_Error (st : AppState) (ec : ErrorContext) (message : CString) : AppM unit :=
  match st with
  | AppStateInstallComplete => AppStateInstallComplete_Error ec message
  | AppStateNoUpdate => AppStateNoUpdate_Error ec message
  | AppStateError => AppStateError_Error ec message
  | _ => AppState_Error ec message
  end.

(** [AppState::HandleGroupPolicyError] in the state [st]. *)
Definition HandleGroupPolicyError (st : AppState) (code : HRESULT) : AppM unit :=
  a ← get_app;
  App_LogTextAppendFormat (_T "Status=" ++ (if is_update a then _T "update" else _T "install") ++ _T "-disabled");;
  state_Error st (ErrorContext_of code) (LoadString language IDS_APP_INSTALL_DISABLED_BY_GROUP_POLICY).

(** ** Init and waiting to check for an update *)

Definition AppStateInit_QueueUpdateCheck : AppM unit :=
  a ← get_app;
  call (Call_ResetInstallProgress (app_guid a));;
  call (Call_ResetCurrentStateKey (app_guid a));;
  ChangeState AppStateWaitingToCheckForUpdate.

(** The part of [PreUpdateCheck] after the policy check. *)
Definition PreUpdateCheck_allowed (update_request : Request) : AppM Request :=
  a ← get_app;
  let current := version (current_version a) in
  when (negb (IsEmpty current)) (call (Call_PurgeAppLowerVersions (app_guid a) current));;
  call (Call_SynchronizeClientState (app_guid a));;
  if App_is_eula_accepted a || bc_is_offline_install ctx then
    let update_request' := BuildRequest ctx a true update_request in
    App_SetCurrentTimeAs TIME_UPDATE_CHECK_START;;
    ChangeState AppStateCheckingForUpdate;;
    mret update_request'
  else
    call (Call_Metric metric_worker_apps_not_updated_eula);;
    state_Error AppStateWaitingToCheckForUpdate
      (ErrorContext_of GOOPDATE_E_APP_UPDATE_DISABLED_EULA_NOT_ACCEPTED)
      (LoadString language IDS_INSTALL_FAILED);;
    mret update_request.

(** [PreUpdateCheck] returns the request, with the application added when it
    goes on to the update check. *)
Definition AppStateWaitingToCheckForUpdate_PreUpdateCheck (update_request : Request) : AppM Request :=
  a ← get_app;
  let policy_hr := if negb (bc_is_auto_update ctx) then App_CheckGroupPolicy ctx a else S_OK in
  if FAILED policy_hr then
    HandleGroupPolicyError AppStateWaitingToCheckForUpdate policy_hr;;
    mret update_request
  else PreUpdateCheck_allowed update_request.

(** ** Checking for an update *)

Definition GetUpdateResponseResult (a : App) (update_response : Response) : UpdateResponseResult :=
  let system := CheckSystemRequirements update_response language in
  if FAILED system.1 then system
  else
    let result := GetResult update_response (GuidToString (app_guid a)) (display_name_ (props a)) language in
    let is_omaha := kGoopdateGuid =? app_guid a in
    let has_update := (result.1 =? S_OK) && is_update a in
    if negb is_omaha && has_update && IsOmahaUpdateAvailable update_response
    then (GOOPDATE_E_UPDATE_DEFERRED, LoadString language IDS_NO_UPDATE_RESPONSE)
    else result.

Definition PersistUpdateCheckValuesOnFailure : AppM unit :=
  let daynum := bc_xdaynum ctx in
  let daystart := bc_xdaystart ctx in
  if (daystart =? -1) || (daynum =? -1) then mret tt
  else
    App_set_day_of_last_response daynum;;
    a ← get_app;
    call (Call_PersistUpdateCheckSuccessfullySent (app_guid a) daynum daystart).

Definition PersistUpdateCheckSuccessfullySent (update_response : Response) : AppM unit :=
  if bc_is_offline_install ctx then mret tt
  else
    a ← get_app;
    call (Call_PersistUpdateCheckSuccessfullySent (app_guid a) (rs_elapsed_days update_response)
            (rs_elapsed_seconds update_response)).

Definition HandleUpdateAvailable (update_response : Response) (code : HRESULT) : AppM unit :=
  modify_app (set_has_update_available true);;
  hr ← BuildApp update_response code;
  if FAILED hr then
    state_Error AppStateCheckingForUpdate (ErrorContext_of hr) (LoadString language IDS_UNKNOWN_APPLICATION)
  else
    a ← get_app;
    App_LogTextAppendFormat (_T "Status=" ++ (if is_update a then _T "update" else _T "install"));;
    call (Call_PersistSuccessfulUpdateCheckResponse (app_guid a) true);;
    when (is_update a)
      (call (Call_Metric (if kGoopdateGuid =? app_guid a then metric_worker_self_updates_available
                          else metric_worker_app_updates_available)));;
    ChangeState AppStateUpdateAvailable.

Definition HandleUpdateDeferred (code : HRESULT) (message : CString) : AppM unit :=
  App_SetNoUpdate (ErrorContext_of code) message;;
  ChangeState AppStateNoUpdate.

Definition HandleNoUpdate (update_response : Response) (code : HRESULT) (message : CString) : AppM unit :=
  App_LogTextAppendFormat (_T "Status=no-update");;
  a ← get_app;
  if negb (is_update a) then
    state_Error AppStateCheckingForUpdate (ErrorContext_of code) message
  else
    BuildApp update_response code;;
    call (Call_PersistSuccessfulUpdateCheckResponse (app_guid a) false);;
    App_SetNoUpdate (ErrorContext_of S_OK) message;;
    ChangeState AppStateNoUpdate.

(** "0x%08x" of an HRESULT. *)
Definition format_hr (hr : HRESULT) : CString :=
  let digits := String_Uint64ToString (u32 hr) 16 in
  _T "0x" ++ replicate (8 - length digits) 48 ++ digits.

Definition HandleErrorResponse (code : HRESULT) (message : CString) : AppM unit :=
  let log_status :=
    if code =? GOOPDATE_E_NO_SERVER_RESPONSE then _T "no-response-received"
    else if code =? GOOPDATE_E_RESTRICTED_SERVER_RESPONSE then _T "restricted"
    else _T "error" in
  App_LogTextAppendFormat (_T "Status=" ++ log_status ++ _T ", Code=" ++ format_hr code);;
  state_Error AppStateCheckingForUpdate (ErrorContext_of code) message.

(** The verdict on a response that arrived. *)
Definition HandleResponse (update_response : Response) : AppM unit :=
  a ← get_app;
  let '(code, message) := GetUpdateResponseResult a update_response in
  if SUCCEEDED code then HandleUpdateAvailable update_response code
  else if code =? GOOPDATE_E_UPDATE_DEFERRED then HandleUpdateDeferred code message
  else if code =? GOOPDATE_E_NO_UPDATE_RESPONSE then HandleNoUpdate update_response code message
  else HandleErrorResponse code message.

Definition AppStateCheckingForUpdate_PostUpdateCheck (update_check_result : HRESULT)
    (update_response : Response) : AppM unit :=
  App_SetCurrentTimeAs TIME_UPDATE_CHECK_COMPLETE;;
  if FAILED update_check_result then
    PersistUpdateCheckValuesOnFailure;;
    state_Error AppStateCheckingForUpdate (ErrorContext_of update_check_result)
      (FormatMessageForNetworkError update_check_result language).2
  else
    App_set_day_of_last_response (rs_elapsed_days update_response);;
    PersistUpdateCheckSuccessfullySent update_response;;
    HandleResponse update_response.

(** ** From an available update to the installation *)

Definition AppStateUpdateAvailable_QueueDownload : AppM unit :=
  a ← get_app;
  let policy_hr := App_CheckGroupPolicy ctx a in
  if FAILED policy_hr then HandleGroupPolicyError AppStateUpdateAvailable policy_hr
  else
    App_SetCurrentTimeAs TIME_UPDATE_AVAILABLE;;
    ChangeState AppStateWaitingToDownload.

Definition AppStateUpdateAvailable_QueueDownloadOrInstall : AppM unit :=
  AppStateUpdateAvailable_QueueDownload.

Definition AppStateWaitingToDownload_Download `{Managers} : AppM unit :=
  hr ← mgr_DownloadApp;
  App_LogTextAppendFormat (_T "Download result=" ++ format_hr hr).

Definition AppStateWaitingToDownload_Downloading : AppM unit := ChangeState AppStateDownloading.
Definition AppStateWaitingToDownload_DownloadComplete : AppM unit := ChangeState AppStateDownloadComplete.
Definition AppStateDownloading_DownloadComplete : AppM unit := ChangeState AppStateDownloadComplete.
Definition AppStateDownloadComplete_MarkReadyToInstall : AppM unit := ChangeState AppStateReadyToInstall.
Definition AppStateReadyToInstall_QueueInstall : AppM unit := ChangeState AppStateWaitingToInstall.
Definition AppStateReadyToInstall_QueueDownloadOrInstall : AppM unit := AppStateReadyToInstall_QueueInstall.

(** [AppStateWaitingToInstall::Install]: [Error] is that of this state, whatever
    the state of the application when the copying has failed. *)
Definition kWaitBeforeInstallMs : Z := 500.
Definition AppStateWaitingToInstall_Install `{Managers} : AppM unit :=
  Sleep kWaitBeforeInstallMs;;
  s ← get;
  match mgr_GetGuid (w_tick (st_world s)) with
  | inl hr => state_Error AppStateWaitingToInstall (ErrorContext_of hr) (LoadString language IDS_INSTALL_FAILED)
  | inr guid =>
      let installer_dir := mgr_ConcatenatePath mgr_install_working_dir guid in
      a ← get_app;
      hr ← mgr_CopyAppVersionPackages (next_version a) installer_dir;
      if SUCCEEDED hr then mgr_InstallApp installer_dir
      else state_Error AppStateWaitingToInstall (ErrorContext_of hr) (LoadString language IDS_INSTALL_FAILED)
  end.

Definition AppStateWaitingToInstall_Installing : AppM unit := ChangeState AppStateInstalling.

(** The constructor of [AppStateInstallComplete] has effects of its own. *)
Definition AppStateInstallComplete_ctor : AppM unit :=
  a ← get_app;
  let is_machine := bc_is_machine ctx in
  when (CanCollectStats is_machine && (negb is_machine || IsRunningAsSystem))
    (call (Call_StartCrashHandler is_machine));;
  call (Call_PurgeAppLowerVersions (app_guid a) (version (next_version a))).

Definition AppStateInstalling_ReportInstallerComplete (result_info : InstallerResultInfo) : AppM unit :=
  App_SetInstallerResult result_info;;
  if bool_decide (iri_type result_info = INSTALLER_RESULT_SUCCESS) then
    AppStateInstallComplete_ctor;;
    ChangeState AppStateInstallComplete
  else ChangeState AppStateError.

(** Overrides with an empty body. *)
Definition no_op : AppM unit := mret tt.

(** ** The methods of [App]

    The current state selects the method; a class that does not override one
    takes the base class's, which is an invalid transition. *)

Definition with_state (k : AppState -> AppM unit) : AppM unit :=
  a ← get_app; k (app_state a).

Definition App_Error (ec : ErrorContext) (message : CString) : AppM unit :=
  with_state (fun st => state_Error st ec message).

Definition state_QueueUpdateCheck (st : AppState) : AppM unit :=
  match st with
  | AppStateInit => AppStateInit_QueueUpdateCheck
  | _ => HandleInvalidStateTransition st
  end.

(** The state is read again after the call of [Error]. *)
Definition App_QueueUpdateCheck : AppM unit :=
  a ← get_app;
  when (bool_decide (is_eula_accepted_ (props a) = TRISTATE_NONE))
    (App_Error (ErrorContext_of GOOPDATE_E_CALL_UNEXPECTED) (LoadString language IDS_INSTALL_FAILED));;
  with_state state_QueueUpdateCheck.

Definition App_PreUpdateCheck (update_request : Request) : AppM Request :=
  a ← get_app;
  match app_state a with
  | AppStateWaitingToCheckForUpdate => AppStateWaitingToCheckForUpdate_PreUpdateCheck update_request
  | AppStateError => mret update_request
  | st => HandleInvalidStateTransition st;; mret update_request
  end.

Definition App_PostUpdateCheck (result : HRESULT) (update_response : Response) : AppM unit :=
  with_state (fun st =>
    match st with
    | AppStateCheckingForUpdate => AppStateCheckingForUpdate_PostUpdateCheck result update_response
    | AppStateError => no_op
    | _ => HandleInvalidStateTransition st
    end).

Definition App_QueueDownload : AppM unit :=
  with_state (fun st =>
    match st with
    | AppStateUpdateAvailable => AppStateUpdateAvailable_QueueDownload
    | AppStateNoUpdate | AppStateError => no_op
    | _ => HandleInvalidStateTransition st
    end).

Definition App_QueueDownloadOrInstall : AppM unit :=
  with_state (fun st =>
    match st with
    | AppStateUpdateAvailable => AppStateUpdateAvailable_QueueDownloadOrInstall
    | AppStateReadyToInstall => AppStateReadyToInstall_QueueDownloadOrInstall
    | AppStateNoUpdate | AppStateError => no_op
    | _ => HandleInvalidStateTransition st
    end).

Definition App_Download `{Managers} : AppM unit :=
  with_state (fun st =>
    match st with
    | AppStateWaitingToDownload => AppStateWaitingToDownload_Download
    | AppStateWaitingToInstall | AppStateNoUpdate | AppStateError => no_op
    | _ => HandleInvalidStateTransition st
    end).

Definition App_Downloading : AppM unit :=
  with_state (fun st =>
    match st with
    | AppStateWaitingToDownload => AppStateWaitingToDownload_Downloading
    | _ => HandleInvalidStateTransition st
    end).

Definition App_DownloadComplete : AppM unit :=
  with_state (fun st =>
    match st with
    | AppStateWaitingToDownload => AppStateWaitingToDownload_DownloadComplete
    | AppStateDownloading => AppStateDownloading_DownloadComplete
    | AppStateError => no_op
    | _ => HandleInvalidStateTransition st
    end).

Definition App_MarkReadyToInstall : AppM unit :=
  with_state (fun st =>
    match st with
    | AppStateDownloadComplete => AppStateDownloadComplete_MarkReadyToInstall
    | AppStateError => no_op
    | _ => HandleInvalidStateTransition st
    end).

Definition App_QueueInstall : AppM unit :=
  with_state (fun st =>
    match st with
    | AppStateReadyToInstall => AppStateReadyToInstall_QueueInstall
    | AppStateWaitingToInstall | AppStateNoUpdate | AppStateError => no_op
    | _ => HandleInvalidStateTransition st
    end).

Definition App_Install `{Managers} : AppM unit :=
  with_state (fun st =>
    match st with
    | AppStateWaitingToInstall => AppStateWaitingToInstall_Install
    | AppStateNoUpdate | AppStateError => no_op
    | _ => HandleInvalidStateTransition st
    end).

Definition App_Installing : AppM unit :=
  with_state (fun st =>
    match st with
    | AppStateWaitingToInstall => AppStateWaitingToInstall_Installing
    | AppStateInstalling => no_op
    | _ => HandleInvalidStateTransition st
    end).

Definition App_ReportInstallerComplete (result_info : InstallerResultInfo) : AppM unit :=
  with_state (fun st =>
    match st with
    | AppStateInstalling => AppStateInstalling_ReportInstallerComplete result_info
    | _ => HandleInvalidStateTransition st
    end).

(** No class overrides [Pause]. *)
Definition App_Pause : AppM unit := with_state HandleInvalidStateTransition.

Definition App_Cancel : AppM unit :=
  with_state (fun st =>
    match st with
    | AppStateInstalling | AppStateInstallComplete | AppStateNoUpdate | AppStateError => no_op
    | _ => AppState_Cancel st
    end).

End Fsm.
