(* ===== verification/AppRun.v ===== *)
(** What any sequence of calls does to an application.

    The public methods of [App] run under the model lock, so a run of the
    program is, for one application, a sequence of these calls in any order:
    those of the worker, of the download and install managers on their
    threads, and of the client's stop requests.  Between them other threads
    change what is not part of the state machine (progress, metrics, the
    registry).  [app_step] is one such step; the theorems are about every
    reachable application, hence about every interleaving. *)

From S2P Require Import Prelude Hresult CStrings Protocol Policy Package AppModel UpdateResponse UpdateFacts AppFsm.

(** ** Calls *)

(** The calls of the public methods that run under the lock. *)
Inductive AppEvent :=
| Ev_QueueUpdateCheck
| Ev_PreUpdateCheck (update_request : Request)
| Ev_PostUpdateCheck (result : HRESULT) (update_response : Response)
| Ev_QueueDownload
| Ev_QueueDownloadOrInstall
| Ev_Download
| Ev_Downloading
| Ev_DownloadComplete
| Ev_MarkReadyToInstall
| Ev_QueueInstall
| Ev_Install
| Ev_Installing
| Ev_ReportInstallerComplete (result_info : InstallerResultInfo)
| Ev_Pause
| Ev_Cancel
| Ev_Error (ec : ErrorContext) (message : CString).

(** What the callers guarantee, and the code asserts: an error is a failure
    with a message, and an installer's result has a text. *)
Definition event_ok (e : AppEvent) : Prop :=
  match e with
  | Ev_Error ec message => FAILED (error_code ec) = true /\ message <> []
  | Ev_ReportInstallerComplete r => iri_text r <> []
  | _ => True
  end.

(** Starting a blocking call does nothing to the state: what the manager does
    then are calls of their own. *)
Definition StartOnly : Managers := {|
  mgr_DownloadApp := mret S_OK;
  mgr_InstallApp _ := mret tt;
  mgr_install_working_dir := [];
  mgr_GetGuid _ := inr [];
  mgr_CopyAppVersionPackages _ _ := mret S_OK;
  mgr_ConcatenatePath a b := a ++ b
|}.

Section Run.
Context `{Env, GroupPolicy, GuidOps}.

Definition App_call (ctx : BundleCtx) (e : AppEvent) : AppM unit :=
  match e with
  | Ev_QueueUpdateCheck => App_QueueUpdateCheck ctx
  | Ev_PreUpdateCheck r => App_PreUpdateCheck ctx r;; mret tt
  | Ev_PostUpdateCheck hr response => App_PostUpdateCheck ctx hr response
  | Ev_QueueDownload => App_QueueDownload ctx
  | Ev_QueueDownloadOrInstall => App_QueueDownloadOrInstall ctx
  | Ev_Download => @App_Download _ _ ctx StartOnly
  | Ev_Downloading => App_Downloading ctx
  | Ev_DownloadComplete => App_DownloadComplete ctx
  | Ev_MarkReadyToInstall => App_MarkReadyToInstall ctx
  | Ev_QueueInstall => App_QueueInstall ctx
  | Ev_Install => @App_Install _ ctx StartOnly
  | Ev_Installing => App_Installing ctx
  | Ev_ReportInstallerComplete r => App_ReportInstallerComplete ctx r
  | Ev_Pause => App_Pause ctx
  | Ev_Cancel => App_Cancel ctx
  | Ev_Error ec message => App_Error ctx ec message
  end.

(** ** Effects

    What one call can do to the part of an application the state machine is
    about: nothing, an advance to the next state, the end without an update,
    the end of the installer, or an error. *)

(** The advances, and what they need. *)
Inductive advance (ctx : BundleCtx) (a : App) : AppState -> Prop :=
| adv_wait : app_state a = AppStateInit -> advance ctx a AppStateWaitingToCheckForUpdate
| adv_check : app_state a = AppStateWaitingToCheckForUpdate ->
    App_is_eula_accepted a = true \/ bc_is_offline_install ctx = true ->
    advance ctx a AppStateCheckingForUpdate
| adv_available : app_state a = AppStateCheckingForUpdate -> advance ctx a AppStateUpdateAvailable
| adv_queue : app_state a = AppStateUpdateAvailable -> FAILED (App_CheckGroupPolicy ctx a) = false ->
    advance ctx a AppStateWaitingToDownload
| adv_downloading : app_state a = AppStateWaitingToDownload -> advance ctx a AppStateDownloading
| adv_cached : app_state a = AppStateWaitingToDownload -> advance ctx a AppStateDownloadComplete
| adv_downloaded : app_state a = AppStateDownloading -> advance ctx a AppStateDownloadComplete
| adv_ready : app_state a = AppStateDownloadComplete -> advance ctx a AppStateReadyToInstall
| adv_install : app_state a = AppStateReadyToInstall -> advance ctx a AppStateWaitingToInstall
| adv_installing : app_state a = AppStateWaitingToInstall -> advance ctx a AppStateInstalling.

Definition is_completion (p : PingEvent) : bool :=
  bool_decide (event_type p = EVENT_INSTALL_COMPLETE) || bool_decide (event_type p = EVENT_UPDATE_COMPLETE).

(** What stays the same in every call: what the application is. *)
Definition same_app (a a' : App) : Prop :=
  is_update a' = is_update a /\ app_guid a' = app_guid a.

(** The completion members an error leaves. *)
Definition error_completion (c : Completion) (ec : ErrorContext) (message : CString) (c' : Completion) : Prop :=
  error_context_ c' = ec /\ completion_message_ c' = message
  /\ is_canceled_ c' = (error_code ec =? GOOPDATE_E_CANCELLED)
  /\ completion_result_ c' = (if error_code ec =? GOOPDATE_E_CANCELLED then EVENT_RESULT_CANCELLED
                              else EVENT_RESULT_ERROR)
  /\ installer_result_code_ c' = installer_result_code_ c.

(** The pings of an application that ended: one when it can ping. *)
Definition end_pings (can_ping : bool) (l : list PingEvent) : Prop :=
  if can_ping then exists p, l = [p] /\ is_completion p = true else l = [].

Inductive effect (ctx : BundleCtx) (a a' : App) : Prop :=
| effect_quiet :
    same_app a a' -> app_state a' = app_state a -> completion a' = completion a ->
    ping_events a' = ping_events a -> has_update_available a' = has_update_available a ->
    effect ctx a a'
| effect_advance n l :
    advance ctx a n ->
    same_app a a' -> app_state a' = n -> completion a' = completion a ->
    ping_events a' = ping_events a ++ l -> forallb (fun p => negb (is_completion p)) l = true ->
    has_update_available a' = (if decide (n = AppStateUpdateAvailable) then true else has_update_available a) ->
    effect ctx a a'
| effect_no_update ec message l :
    app_state a = AppStateCheckingForUpdate -> is_update a = true ->
    error_code ec = S_OK \/ error_code ec = GOOPDATE_E_UPDATE_DEFERRED -> message <> [] ->
    same_app a a' -> app_state a' = AppStateNoUpdate ->
    error_context_ (completion a') = ec -> completion_message_ (completion a') = message ->
    completion_result_ (completion a') =
      (if error_code ec =? GOOPDATE_E_UPDATE_DEFERRED then EVENT_RESULT_UPDATE_DEFERRED else EVENT_RESULT_SUCCESS) ->
    is_canceled_ (completion a') = is_canceled_ (completion a) ->
    installer_result_code_ (completion a') = installer_result_code_ (completion a) ->
    ping_events a' = ping_events a ++ l -> end_pings (error_code ec =? GOOPDATE_E_UPDATE_DEFERRED) l ->
    has_update_available a' = has_update_available a ->
    effect ctx a a'
| effect_installer_done r l :
    app_state a = AppStateInstalling -> iri_text r <> [] ->
    same_app a a' -> completion_message_ (completion a') = iri_text r ->
    is_canceled_ (completion a') = is_canceled_ (completion a) ->
    (if decide (iri_type r = INSTALLER_RESULT_SUCCESS)
     then app_state a' = AppStateInstallComplete
          /\ error_code (error_context_ (completion a')) = S_OK
          /\ completion_result_ (completion a') = EVENT_RESULT_SUCCESS
          /\ end_pings (negb (kGoopdateGuid =? app_guid a)) l
     else app_state a' = AppStateError
          /\ FAILED (error_code (error_context_ (completion a'))) = true
          /\ completion_result_ (completion a') ∈
               [EVENT_RESULT_ERROR; EVENT_RESULT_INSTALLER_ERROR_MSI; EVENT_RESULT_INSTALLER_ERROR_OTHER;
                EVENT_RESULT_INSTALLER_ERROR_SYSTEM]
          /\ end_pings (App_is_install a || has_update_available a) l) ->
    ping_events a' = ping_events a ++ l -> has_update_available a' = has_update_available a ->
    effect ctx a a'
| effect_error ec message l :
    FAILED (error_code ec) = true -> message <> [] ->
    same_app a a' -> app_state a' = AppStateError ->
    error_completion (completion a) ec message (completion a') ->
    ping_events a' = ping_events a ++ l ->
    (has_update_available a = true -> has_update_available a' = true) ->
    end_pings (App_is_install a' || has_update_available a') l ->
    effect ctx a a'.

(** ** The effect of each call *)

Definition option_list {A} (o : option A) : list A := match o with Some x => [x] | None => [] end.

Lemma ChangeState_app ctx n s :
  st_app (exec (ChangeState ctx n) s) =
  set_ping_events (ping_events (st_app s) ++ option_list
      (CreatePingEvent ctx n (set_app_state n (st_app s)) (App_state (st_app s))
         (w_error_extra_code1 (st_world s))))
    (set_app_state n (st_app s)).
Proof.
  unfold ChangeState, exec, mbind, St_bind, get_app, gets, modify_app, modify, get. cbn [fst snd].
  cbn [st_app st_world].
  destruct (CreatePingEvent _ _ _ _ _); [done|].
  cbn. rewrite app_nil_r. by destruct (st_app s).
Qed.

(** The application before the final change of state: what a handler has done
    so far leaves the state machine's part alone. *)
Definition prepared (a b : App) : Prop :=
  same_app a b /\ app_state b = app_state a /\ completion b = completion a
  /\ ping_events b = ping_events a /\ has_update_available b = has_update_available a.

Lemma prepared_refl a : prepared a a.
Proof. by split_and!. Qed.

Lemma prepared_trans a b c : prepared a b -> prepared b c -> prepared a c.
Proof.
  intros ([? ?] & ? & ? & ? & ?) ([? ?] & ? & ? & ? & ?). unfold prepared, same_app.
  split_and!; congruence.
Qed.

Lemma prepared_quiet ctx a b : prepared a b -> effect ctx a b.
Proof. intros (? & ? & ? & ? & ?). by apply effect_quiet. Qed.

Lemma CheckGroupPolicy_same ctx a b : same_app a b -> App_CheckGroupPolicy ctx b = App_CheckGroupPolicy ctx a.
Proof. intros [Hu Hg]. unfold App_CheckGroupPolicy. by rewrite Hu, Hg. Qed.

(** Advancing from a prepared application. *)
Lemma effect_ChangeState ctx a n s :
  advance ctx a n -> n <> AppStateUpdateAvailable -> prepared a (st_app s) ->
  effect ctx a (st_app (exec (ChangeState ctx n) s)).
Proof.
  intros Hadv Hn ([Hu Hg] & Hst & Hc & Hp & Hav). rewrite ChangeState_app.
  eapply (effect_advance ctx a _ n); [done|done|done|exact Hc|cbn; by rewrite Hp| |].
  - destruct Hadv; cbn [CreatePingEvent option_list]; try done;
      unfold AppStateWaitingToDownload_CreatePingEvent, AppStateDownloading_CreatePingEvent,
        AppStateDownloadComplete_CreatePingEvent, AppStateInstalling_CreatePingEvent, event_by_kind;
      cbn; by destruct (is_update (st_app s)).
  - cbn. rewrite decide_False by done. done.
Qed.

Lemma effect_ChangeState_available ctx a s :
  app_state a = AppStateCheckingForUpdate ->
  same_app a (st_app s) -> completion (st_app s) = completion a -> ping_events (st_app s) = ping_events a ->
  has_update_available (st_app s) = true ->
  effect ctx a (st_app (exec (ChangeState ctx AppStateUpdateAvailable) s)).
Proof.
  intros Hst Hsame Hc Hp Hav. rewrite ChangeState_app.
  eapply (effect_advance ctx a _ AppStateUpdateAvailable []); [by constructor|done|done|exact Hc|..].
  - cbn. by rewrite Hp.
  - done.
  - exact Hav.
Qed.

Lemma error_ping_end ctx n a prev extra :
  n = AppStateError ->
  end_pings (App_is_install a || has_update_available a)
    (option_list (CreatePingEvent ctx n a prev extra)).
Proof.
  intros ->. cbn [CreatePingEvent]. unfold AppStateError_CreatePingEvent, event_by_kind.
  destruct (App_is_install a || has_update_available a); cbn [negb end_pings]; [|done].
  destruct (bool_decide (_ = EVENT_RESULT_CANCELLED)); (eexists; split; [reflexivity|]);
    cbn; by destruct (is_update a).
Qed.

(** An error from an application whose completion is untouched. *)
Lemma effect_AppState_Error ctx a ec message s :
  FAILED (error_code ec) = true -> message <> [] ->
  same_app a (st_app s) -> completion (st_app s) = completion a -> ping_events (st_app s) = ping_events a ->
  (has_update_available a = true -> has_update_available (st_app s) = true) ->
  effect ctx a (st_app (exec (AppState_Error ctx ec message) s)).
Proof.
  intros Hf Hm Hsame Hc Hp Hav. unfold AppState_Error, App_SetError.
  rewrite exec_bind, exec_modify_app, ChangeState_app. cbn [st_app st_world].
  eapply effect_error; [exact Hf|exact Hm|exact Hsame|done| | |exact Hav|].
  - split_and!; [done..|]. cbn. by rewrite Hc.
  - cbn. by rewrite Hp.
  - apply (error_ping_end ctx AppStateError (set_app_state AppStateError _)). done.
Qed.

Lemma effect_invalid ctx a st s :
  prepared a (st_app s) -> effect ctx a (st_app (exec (HandleInvalidStateTransition ctx st) s)).
Proof.
  intros (Hsame & _ & Hc & Hp & Hav). apply effect_AppState_Error; try done.
  - apply LoadString_not_empty.
  - by rewrite Hav.
Qed.

Lemma effect_Cancel ctx a st s :
  prepared a (st_app s) -> effect ctx a (st_app (exec (AppState_Cancel ctx st) s)).
Proof.
  intros (Hsame & _ & Hc & Hp & Hav). unfold AppState_Cancel, App_SetError, App_set_state_cancelled,
    App_SetCurrentTimeAs. rewrite !exec_bind, !exec_modify_app, ChangeState_app.
  cbn [st_app st_world exec eval current_ms_time fst snd].
  eapply (effect_error _ _ _ (ErrorContext_of GOOPDATE_E_CANCELLED) (LoadString (language ctx) IDS_CANCELED));
    [done|apply LoadString_not_empty|exact Hsame|done| | | |].
  - split_and!; [done..|]. cbn. by rewrite Hc.
  - cbn. by rewrite Hp.
  - cbn. by rewrite Hav.
  - apply (error_ping_end ctx AppStateError (set_app_state AppStateError _)). done.
Qed.

(** The virtual [Error], from an application prepared except that an update may
    have been found to be available. *)
Lemma effect_state_Error ctx a st ec message s :
  FAILED (error_code ec) = true -> message <> [] ->
  st <> AppStateError -> same_app a (st_app s) -> completion (st_app s) = completion a ->
  ping_events (st_app s) = ping_events a ->
  (has_update_available a = true -> has_update_available (st_app s) = true) ->
  effect ctx a (st_app (exec (state_Error ctx st ec message) s)).
Proof.
  intros Hf Hm Hst Hsame Hc Hp Hav.
  destruct st; cbn [state_Error]; try done; try (by apply effect_AppState_Error);
    unfold AppStateInstallComplete_Error, AppStateNoUpdate_Error, HandleInvalidStateTransition;
    (apply effect_AppState_Error; [done|apply LoadString_not_empty|done..]).
Qed.

Lemma prepared_state_Error ctx a st ec message s :
  FAILED (error_code ec) = true -> message <> [] -> st = app_state a -> prepared a (st_app s) ->
  effect ctx a (st_app (exec (state_Error ctx st ec message) s)).
Proof.
  intros Hf Hm -> Hprep. destruct Hprep as (Hsame & Hs & Hc & Hp & Hav).
  destruct (decide (app_state a = AppStateError)) as [E|E].
  - rewrite E. by apply effect_quiet.
  - apply effect_state_Error; try done. by rewrite Hav.
Qed.

Lemma prepared_LogText s text :
  prepared (st_app s) (st_app (exec (App_LogTextAppendFormat text) s)).
Proof. by split_and!. Qed.

Lemma prepared_SetCurrentTimeAs s t : prepared (st_app s) (st_app (exec (App_SetCurrentTimeAs t) s)).
Proof. by split_and!. Qed.

Lemma exec_call_app c s : st_app (exec (call c) s) = st_app s.
Proof. done. Qed.

Lemma exec_when_call_app b c s : st_app (exec (when b (call c)) s) = st_app s.
Proof. by destruct b. Qed.

Lemma effect_GroupPolicyError ctx a st code s :
  FAILED code = true -> st = app_state a -> prepared a (st_app s) ->
  effect ctx a (st_app (exec (HandleGroupPolicyError ctx st code) s)).
Proof.
  intros Hf Hst Hprep. unfold HandleGroupPolicyError. rewrite exec_bind_get_app, exec_bind.
  apply prepared_state_Error; [done|apply LoadString_not_empty|done|].
  eapply prepared_trans; [exact Hprep|apply prepared_LogText].
Qed.

Lemma effect_QueueDownload ctx s :
  app_state (st_app s) = AppStateUpdateAvailable ->
  effect ctx (st_app s) (st_app (exec (AppStateUpdateAvailable_QueueDownload ctx) s)).
Proof.
  intros Hst. unfold AppStateUpdateAvailable_QueueDownload.
  rewrite exec_bind_get_app.
  destruct (FAILED (App_CheckGroupPolicy ctx (st_app s))) eqn:Ef.
  - by apply effect_GroupPolicyError; [|by rewrite Hst|apply prepared_refl].
  - rewrite exec_bind. apply effect_ChangeState; [by constructor|done|apply prepared_SetCurrentTimeAs].
Qed.

Lemma effect_PreUpdateCheck ctx r s :
  app_state (st_app s) = AppStateWaitingToCheckForUpdate ->
  effect ctx (st_app s) (st_app (exec (AppStateWaitingToCheckForUpdate_PreUpdateCheck ctx r) s)).
Proof.
  intros Hst. unfold AppStateWaitingToCheckForUpdate_PreUpdateCheck.
  rewrite exec_bind_get_app. cbv zeta.
  destruct (FAILED (if negb (bc_is_auto_update ctx) then _ else _)) eqn:Ef.
  { rewrite exec_bind, exec_ret. by apply effect_GroupPolicyError; [|by rewrite Hst|apply prepared_refl]. }
  unfold PreUpdateCheck_allowed. rewrite exec_bind_get_app. cbv zeta.
  rewrite !exec_bind. set (s1 := exec (call (Call_SynchronizeClientState _)) _).
  assert (st_app s1 = st_app s) as Hs1 by (unfold s1; rewrite exec_call_app; apply exec_when_call_app).
  destruct (App_is_eula_accepted (st_app s) || bc_is_offline_install ctx) eqn:Ee.
  - rewrite !exec_bind, exec_ret. apply orb_true_iff in Ee.
    apply effect_ChangeState; [by apply adv_check|done|]. rewrite <- Hs1. apply prepared_SetCurrentTimeAs.
  - rewrite !exec_bind, exec_ret. apply prepared_state_Error; [done|apply LoadString_not_empty|by rewrite Hst|].
    rewrite exec_call_app, Hs1. apply prepared_refl.
Qed.

(** What a frame of [BuildApp] leaves alone. *)
Lemma build_frame_parts s s' :
  build_frame s s' ->
  same_app (st_app s) (st_app s') /\ app_state (st_app s') = app_state (st_app s)
  /\ completion (st_app s') = completion (st_app s) /\ ping_events (st_app s') = ping_events (st_app s)
  /\ has_update_available (st_app s') = has_update_available (st_app s).
Proof. intros [_ (nv & p & ->)]. by split_and!. Qed.

Lemma SetNoUpdate_effect ctx a ec message s :
  app_state a = AppStateCheckingForUpdate -> is_update a = true ->
  error_code ec = S_OK \/ error_code ec = GOOPDATE_E_UPDATE_DEFERRED -> message <> [] ->
  prepared a (st_app s) ->
  effect ctx a (st_app (exec (App_SetNoUpdate ec message;; ChangeState ctx AppStateNoUpdate) s)).
Proof.
  intros Hst Hu Hec Hm ((Hu' & Hg) & _ & Hc & Hp & Hav).
  unfold App_SetNoUpdate. rewrite exec_bind, exec_modify_app, ChangeState_app. cbn [st_app st_world].
  eapply (effect_no_update ctx a _ ec message); try done; cbn; rewrite ?Hc, ?Hp, ?Hav; try done.
  unfold AppStateNoUpdate_CreatePingEvent. cbn.
  by destruct Hec as [-> | ->]; cbn; [|eexists].
Qed.

Lemma HandleUpdateAvailable_effect ctx response code a s :
  app_state a = AppStateCheckingForUpdate -> prepared a (st_app s) ->
  effect ctx a (st_app (exec (HandleUpdateAvailable ctx response code) s)).
Proof.
  intros Hst ((Hu & Hg) & Hst' & Hc & Hp & Hav). unfold HandleUpdateAvailable.
  rewrite exec_bind, exec_modify_app, exec_bind.
  set (s1 := mkAppSt (st_world s) (set_has_update_available true (st_app s))).
  destruct (build_frame_parts _ _ (BuildApp_frame response code s1)) as ((Hu2 & Hg2) & Hst2 & Hc2 & Hp2 & Hav2).
  set (s2 := exec (BuildApp response code) s1) in *.
  assert (same_app a (st_app s2)) as Hsame by (split; [by rewrite Hu2|by rewrite Hg2]).
  destruct (FAILED (eval (BuildApp response code) s1)) eqn:Ef.
  - apply effect_state_Error; [done|apply LoadString_not_empty|done|done|by rewrite Hc2|by rewrite Hp2|by rewrite Hav2].
  - rewrite exec_bind_get_app, !exec_bind.
    set (s4 := exec (when _ _) _).
    assert (st_app s4 = st_app (exec (App_LogTextAppendFormat
              (_T "Status=" ++ (if is_update (st_app s2) then _T "update" else _T "install"))) s2)) as Hs4
      by (unfold s4; by rewrite exec_when_call_app, exec_call_app).
    apply effect_ChangeState_available; [done|rewrite Hs4..].
    + exact Hsame.
    + cbn. by rewrite Hc2.
    + cbn. by rewrite Hp2.
    + cbn. by rewrite Hav2.
Qed.

Lemma HandleNoUpdate_effect ctx response code message a s :
  app_state a = AppStateCheckingForUpdate -> FAILED code = true -> message <> [] -> prepared a (st_app s) ->
  effect ctx a (st_app (exec (HandleNoUpdate ctx response code message) s)).
Proof.
  intros Hst Hf Hm Hprep. unfold HandleNoUpdate. rewrite exec_bind, exec_bind_get_app.
  set (s1 := exec (App_LogTextAppendFormat _) s).
  assert (prepared a (st_app s1)) as Hprep1
    by (eapply prepared_trans; [exact Hprep|apply prepared_LogText]).
  destruct (is_update (st_app s1)) eqn:Eu; cbn [negb].
  2:{ apply prepared_state_Error; [done|done|by rewrite Hst|done]. }
  do 2 rewrite exec_bind.
  set (s3 := exec (call _) _).
  assert (prepared a (st_app s3)) as Hprep3.
  { unfold s3. rewrite exec_call_app. eapply prepared_trans; [exact Hprep1|].
    apply build_frame_parts, BuildApp_frame. }
  apply SetNoUpdate_effect; [done| |by left|done|done].
  destruct Hprep1 as ((Hu & _) & _). by rewrite <- Hu.
Qed.

(** The verdicts: a code that is not a failure is [S_OK]; a deferral is only
    for updates; every other one has a message. *)
Lemma GetUpdateResponseResult_cases ctx a response :
  let '(code, message) := GetUpdateResponseResult ctx a response in
  SUCCEEDED code = true
  \/ (code = GOOPDATE_E_UPDATE_DEFERRED /\ is_update a = true /\ message <> [])
  \/ (FAILED code = true /\ code <> GOOPDATE_E_UPDATE_DEFERRED /\ message <> []).
Proof.
  unfold GetUpdateResponseResult, CheckSystemRequirements.
  destruct (_ && _ && _) eqn:Es; cbn [fst].
  2:{ right. right. split_and!; [reflexivity|discriminate|apply LoadString_not_empty]. }
  change (FAILED S_OK) with false. cbv iota.
  set (r := GetResult _ _ _ _).
  destruct (negb (kGoopdateGuid =? app_guid a) && ((r.1 =? S_OK) && is_update a) && IsOmahaUpdateAvailable response)
    eqn:Ed.
  - right. left. apply andb_true_iff in Ed as [Ed _]. apply andb_true_iff in Ed as [_ Ed].
    apply andb_true_iff in Ed as [_ Ed]. split_and!; [done|done|apply LoadString_not_empty].
  - destruct (GetResult_cases response (GuidToString (app_guid a)) (display_name_ (props a)) (language ctx))
      as [Hr|(Hf & Hm & Hd)]; fold r in Hr || fold r in Hf, Hm, Hd.
    + rewrite Hr. by left.
    + destruct r as [code message]. right. right. split_and!; done.
Qed.

Lemma HandleResponse_effect ctx response a s :
  app_state a = AppStateCheckingForUpdate -> prepared a (st_app s) ->
  effect ctx a (st_app (exec (HandleResponse ctx response) s)).
Proof.
  intros Hst Hprep. unfold HandleResponse. rewrite exec_bind_get_app.
  pose proof (GetUpdateResponseResult_cases ctx (st_app s) response) as Hcases.
  destruct (GetUpdateResponseResult ctx (st_app s) response) as [code message].
  destruct (SUCCEEDED code) eqn:Es; [by apply HandleUpdateAvailable_effect|].
  destruct Hcases as [?|[(-> & Hu & Hm)|(Hf & Hd & Hm)]]; [congruence|..].
  - change (GOOPDATE_E_UPDATE_DEFERRED =? GOOPDATE_E_UPDATE_DEFERRED) with true. cbv iota.
    apply SetNoUpdate_effect; [done| |by right|done|done].
    destruct Hprep as ((Hu' & _) & _). by rewrite <- Hu'.
  - destruct (Z.eqb_spec code GOOPDATE_E_UPDATE_DEFERRED); [done|].
    destruct (Z.eqb_spec code GOOPDATE_E_NO_UPDATE_RESPONSE); [by apply HandleNoUpdate_effect|].
    unfold HandleErrorResponse. rewrite exec_bind. apply prepared_state_Error; [done|done|by rewrite Hst|].
    eapply prepared_trans; [exact Hprep|apply prepared_LogText].
Qed.

Lemma FormatMessageForNetworkError_not_empty hr lang : (FormatMessageForNetworkError hr lang).2 <> [].
Proof.
  unfold FormatMessageForNetworkError.
  repeat case_match; cbn; first [apply LoadString_not_empty|apply FormatMessage_not_empty].
Qed.

Lemma PostUpdateCheck_effect ctx hr response s :
  app_state (st_app s) = AppStateCheckingForUpdate ->
  effect ctx (st_app s) (st_app (exec (AppStateCheckingForUpdate_PostUpdateCheck ctx hr response) s)).
Proof.
  intros Hst. unfold AppStateCheckingForUpdate_PostUpdateCheck. rewrite exec_bind.
  set (s1 := exec (App_SetCurrentTimeAs TIME_UPDATE_CHECK_COMPLETE) s).
  assert (prepared (st_app s) (st_app s1)) as Hprep by apply prepared_SetCurrentTimeAs.
  destruct (FAILED hr) eqn:Ef; rewrite !exec_bind.
  - apply prepared_state_Error; [done|apply FormatMessageForNetworkError_not_empty|by rewrite Hst|].
    unfold PersistUpdateCheckValuesOnFailure. destruct (_ || _); [exact Hprep|].
    rewrite exec_bind, exec_bind_get_app, exec_call_app. exact Hprep.
  - apply HandleResponse_effect; [done|]. unfold PersistUpdateCheckSuccessfullySent.
    destruct (bc_is_offline_install ctx); [exact Hprep|].
    rewrite exec_bind_get_app, exec_call_app. exact Hprep.
Qed.

(** What [SetInstallerResult] leaves. *)
Lemma SetInstallerResult_app r s :
  let s' := exec (App_SetInstallerResult r) s in
  same_app (st_app s) (st_app s') /\ app_state (st_app s') = app_state (st_app s)
  /\ ping_events (st_app s') = ping_events (st_app s)
  /\ has_update_available (st_app s') = has_update_available (st_app s)
  /\ completion_message_ (completion (st_app s')) = iri_text r
  /\ is_canceled_ (completion (st_app s')) = is_canceled_ (completion (st_app s))
  /\ if decide (iri_type r = INSTALLER_RESULT_SUCCESS)
     then error_code (error_context_ (completion (st_app s'))) = S_OK
          /\ completion_result_ (completion (st_app s')) = EVENT_RESULT_SUCCESS
     else FAILED (error_code (error_context_ (completion (st_app s')))) = true
          /\ completion_result_ (completion (st_app s')) ∈
               [EVENT_RESULT_ERROR; EVENT_RESULT_INSTALLER_ERROR_MSI; EVENT_RESULT_INSTALLER_ERROR_OTHER;
                EVENT_RESULT_INSTALLER_ERROR_SYSTEM].
Proof.
  unfold App_SetInstallerResult. destruct (iri_type r); cbv zeta;
    [|rewrite exec_bind, exec_bind_get_app, exec_when_call_app|..]; rewrite exec_modify_app; cbn;
    split_and!; try done; set_solver.
Qed.

Lemma InstallComplete_ctor_app ctx s : st_app (exec (AppStateInstallComplete_ctor ctx) s) = st_app s.
Proof. unfold AppStateInstallComplete_ctor. by rewrite exec_bind_get_app, exec_bind, exec_call_app, exec_when_call_app. Qed.

Lemma ReportInstallerComplete_effect ctx r s :
  app_state (st_app s) = AppStateInstalling -> iri_text r <> [] ->
  effect ctx (st_app s) (st_app (exec (AppStateInstalling_ReportInstallerComplete ctx r) s)).
Proof.
  intros Hst Ht. unfold AppStateInstalling_ReportInstallerComplete. rewrite exec_bind.
  pose proof (SetInstallerResult_app r s) as (Hsame & Hst1 & Hp & Hav & Hm & Hcan & Hres).
  set (s1 := exec (App_SetInstallerResult r) s) in *.
  destruct (decide (iri_type r = INSTALLER_RESULT_SUCCESS)) as [Ht'|Ht'].
  - rewrite bool_decide_eq_true_2 by done. rewrite exec_bind, ChangeState_app, InstallComplete_ctor_app.
    destruct Hres as [He Hr].
    eapply (effect_installer_done ctx _ _ r); [done|done|done|done|done|rewrite decide_True by done| |].
    2:{ cbn. by rewrite Hp. } 2:{ cbn. by rewrite Hav. }
    split_and!; [done|done|done|]. cbn [CreatePingEvent]. unfold AppStateInstallComplete_CreatePingEvent.
    cbn [app_guid set_app_state]. destruct Hsame as [Hu ->].
    destruct (kGoopdateGuid =? _); cbn; [done|]. eexists. split; [reflexivity|].
    unfold event_by_kind. cbn. by destruct (is_update (st_app s1)).
  - rewrite bool_decide_eq_false_2 by done. rewrite ChangeState_app. destruct Hres as [He Hr].
    eapply (effect_installer_done ctx _ _ r); [done|done|done|done|done|rewrite decide_False by done| |].
    2:{ cbn. by rewrite Hp. } 2:{ cbn. by rewrite Hav. }
    split_and!; [done|done|done|].
    replace (App_is_install (st_app s) || has_update_available (st_app s))
      with (App_is_install (set_app_state AppStateError (st_app s1))
            || has_update_available (set_app_state AppStateError (st_app s1))).
    + by apply (error_ping_end ctx AppStateError (set_app_state AppStateError _)).
    + unfold App_is_install. cbn. by rewrite Hav, (proj1 Hsame).
Qed.

(** ** Every call is a sequence of effects *)

Lemma with_state_exec k s : exec (with_state k) s = exec (k (app_state (st_app s))) s.
Proof. reflexivity. Qed.

Lemma rtc_effect_once ctx a a' : effect ctx a a' -> rtc (effect ctx) a a'.
Proof. apply rtc_once. Qed.

Lemma effect_no_op ctx s : effect ctx (st_app s) (st_app (exec no_op s)).
Proof. apply prepared_quiet, prepared_refl. Qed.

Lemma App_Error_effect ctx ec message s :
  FAILED (error_code ec) = true -> message <> [] ->
  effect ctx (st_app s) (st_app (exec (App_Error ctx ec message) s)).
Proof.
  intros Hf Hm. unfold App_Error. rewrite with_state_exec.
  by apply prepared_state_Error; [..|apply prepared_refl].
Qed.

Lemma state_QueueUpdateCheck_effect ctx s :
  effect ctx (st_app s) (st_app (exec (with_state (state_QueueUpdateCheck ctx)) s)).
Proof.
  rewrite with_state_exec. destruct (app_state (st_app s)) eqn:Est; cbn [state_QueueUpdateCheck];
    [|apply effect_invalid, prepared_refl..].
  unfold AppStateInit_QueueUpdateCheck. rewrite exec_bind_get_app, !exec_bind.
  apply effect_ChangeState; [by constructor|done|]. rewrite !exec_call_app. apply prepared_refl.
Qed.

(** A method that dispatches to one handler: by the handler's lemma. *)
Ltac effect_case :=
  cbv beta iota;
  lazymatch goal with
  | |- effect _ _ (st_app (exec no_op _)) => apply effect_no_op
  | |- effect _ _ (st_app (exec (HandleInvalidStateTransition _ _) _)) => apply effect_invalid, prepared_refl
  | |- effect _ _ (st_app (exec (AppState_Cancel _ _) _)) => apply effect_Cancel, prepared_refl
  | |- effect _ _ (st_app (exec (AppStateCheckingForUpdate_PostUpdateCheck _ _ _) _)) =>
      by apply PostUpdateCheck_effect
  | |- effect _ _ (st_app (exec (AppStateUpdateAvailable_QueueDownload _) _)) => by apply effect_QueueDownload
  | |- effect _ _ (st_app (exec (AppStateUpdateAvailable_QueueDownloadOrInstall _) _)) =>
      by apply effect_QueueDownload
  | |- effect _ _ (st_app (exec (AppStateInstalling_ReportInstallerComplete _ _) _)) =>
      by apply ReportInstallerComplete_effect
  | |- effect _ _ (st_app (exec (ChangeState _ _) _)) =>
      apply effect_ChangeState; [by constructor|done|apply prepared_refl]
  end.

Ltac effect_method :=
  rewrite with_state_exec;
  lazymatch goal with |- effect _ (st_app ?s) _ => destruct (app_state (st_app s)) eqn:?Est end;
  effect_case.

Lemma App_PostUpdateCheck_effect ctx hr response s :
  effect ctx (st_app s) (st_app (exec (App_PostUpdateCheck ctx hr response) s)).
Proof. unfold App_PostUpdateCheck. effect_method. Qed.

Lemma App_QueueDownload_effect ctx s : effect ctx (st_app s) (st_app (exec (App_QueueDownload ctx) s)).
Proof. unfold App_QueueDownload. effect_method. Qed.

Lemma App_QueueDownloadOrInstall_effect ctx s :
  effect ctx (st_app s) (st_app (exec (App_QueueDownloadOrInstall ctx) s)).
Proof.
  unfold App_QueueDownloadOrInstall, AppStateReadyToInstall_QueueDownloadOrInstall, AppStateReadyToInstall_QueueInstall.
  rewrite with_state_exec. destruct (app_state (st_app s)) eqn:Est; effect_case.
Qed.

Lemma App_Download_effect ctx s : effect ctx (st_app s) (st_app (exec (@App_Download _ _ ctx StartOnly) s)).
Proof.
  unfold App_Download. rewrite with_state_exec. destruct (app_state (st_app s)) eqn:Est; try effect_case.
  cbv beta iota. apply prepared_quiet. unfold AppStateWaitingToDownload_Download.
  rewrite exec_bind. apply prepared_LogText.
Qed.

Lemma App_Downloading_effect ctx s : effect ctx (st_app s) (st_app (exec (App_Downloading ctx) s)).
Proof.
  unfold App_Downloading, AppStateWaitingToDownload_Downloading. rewrite with_state_exec.
  destruct (app_state (st_app s)) eqn:Est; effect_case.
Qed.

Lemma App_DownloadComplete_effect ctx s : effect ctx (st_app s) (st_app (exec (App_DownloadComplete ctx) s)).
Proof.
  unfold App_DownloadComplete, AppStateWaitingToDownload_DownloadComplete, AppStateDownloading_DownloadComplete.
  rewrite with_state_exec. destruct (app_state (st_app s)) eqn:Est; effect_case.
Qed.

Lemma App_MarkReadyToInstall_effect ctx s : effect ctx (st_app s) (st_app (exec (App_MarkReadyToInstall ctx) s)).
Proof.
  unfold App_MarkReadyToInstall, AppStateDownloadComplete_MarkReadyToInstall. rewrite with_state_exec.
  destruct (app_state (st_app s)) eqn:Est; effect_case.
Qed.

Lemma App_QueueInstall_effect ctx s : effect ctx (st_app s) (st_app (exec (App_QueueInstall ctx) s)).
Proof.
  unfold App_QueueInstall, AppStateReadyToInstall_QueueInstall. rewrite with_state_exec.
  destruct (app_state (st_app s)) eqn:Est; effect_case.
Qed.

Lemma App_Install_effect ctx s : effect ctx (st_app s) (st_app (exec (@App_Install _ ctx StartOnly) s)).
Proof.
  unfold App_Install. rewrite with_state_exec. destruct (app_state (st_app s)) eqn:Est; try effect_case.
  apply prepared_quiet, prepared_refl.
Qed.

Lemma App_Installing_effect ctx s : effect ctx (st_app s) (st_app (exec (App_Installing ctx) s)).
Proof.
  unfold App_Installing, AppStateWaitingToInstall_Installing. rewrite with_state_exec.
  destruct (app_state (st_app s)) eqn:Est; effect_case.
Qed.

Lemma App_ReportInstallerComplete_effect ctx r s :
  iri_text r <> [] -> effect ctx (st_app s) (st_app (exec (App_ReportInstallerComplete ctx r) s)).
Proof. intros Hr. unfold App_ReportInstallerComplete. effect_method. Qed.

Lemma App_Pause_effect ctx s : effect ctx (st_app s) (st_app (exec (App_Pause ctx) s)).
Proof. unfold App_Pause. rewrite with_state_exec. apply effect_invalid, prepared_refl. Qed.

Lemma App_Cancel_effect ctx s : effect ctx (st_app s) (st_app (exec (App_Cancel ctx) s)).
Proof. unfold App_Cancel. effect_method. Qed.

Lemma App_PreUpdateCheck_effect ctx r s : effect ctx (st_app s) (st_app (exec (App_PreUpdateCheck ctx r) s)).
Proof.
  unfold App_PreUpdateCheck. rewrite exec_bind_get_app.
  destruct (app_state (st_app s)) eqn:Est; [|by apply effect_PreUpdateCheck|..];
    [..|apply prepared_quiet, prepared_refl];
    rewrite exec_bind, exec_ret; apply effect_invalid, prepared_refl.
Qed.

Lemma App_QueueUpdateCheck_effects ctx s : rtc (effect ctx) (st_app s) (st_app (exec (App_QueueUpdateCheck ctx) s)).
Proof.
  unfold App_QueueUpdateCheck. rewrite exec_bind_get_app, exec_bind.
  destruct (bool_decide _); cbn [when].
  - eapply rtc_l; [exact (App_Error_effect ctx (ErrorContext_of GOOPDATE_E_CALL_UNEXPECTED)
      (LoadString (language ctx) IDS_INSTALL_FAILED) s eq_refl (LoadString_not_empty _ _))|].
    apply rtc_once, state_QueueUpdateCheck_effect.
  - apply rtc_once, state_QueueUpdateCheck_effect.
Qed.

Lemma App_call_effects ctx e s :
  event_ok e -> rtc (effect ctx) (st_app s) (st_app (exec (App_call ctx e) s)).
Proof.
  intros Hok. destruct e; cbn [App_call]; [apply App_QueueUpdateCheck_effects|..]; apply rtc_once.
  - rewrite exec_bind, exec_ret. apply App_PreUpdateCheck_effect.
  - apply App_PostUpdateCheck_effect.
  - apply App_QueueDownload_effect.
  - apply App_QueueDownloadOrInstall_effect.
  - apply App_Download_effect.
  - apply App_Downloading_effect.
  - apply App_DownloadComplete_effect.
  - apply App_MarkReadyToInstall_effect.
  - apply App_QueueInstall_effect.
  - apply App_Install_effect.
  - apply App_Installing_effect.
  - by apply App_ReportInstallerComplete_effect.
  - apply App_Pause_effect.
  - apply App_Cancel_effect.
  - destruct Hok. by apply App_Error_effect.
Qed.

End Run.
