(* ===== verification/AppTheorems.v ===== *)
(** The theorems about runs of an application: the order of the states, what
    the client reads of an application that ended, the pings it sends, group
    policy, cancellation, and calls in the wrong state. *)

From S2P Require Import Prelude Hresult CStrings Protocol Policy PolicyFacts Package AppModel Sample UpdateResponse UpdateFacts AppFsm AppRun.

Section Theorems.
Context `{Env, GroupPolicy, GuidOps}.

(** One step of a run: a call under the lock, in a bundle for the machine or
    the user and of an automatic or manual update, or a change of what is not
    the state machine's. *)
Inductive app_step (machine auto : bool) : AppSt -> AppSt -> Prop :=
| step_call ctx e s :
    bc_is_machine ctx = machine -> bc_is_auto_update ctx = auto -> event_ok e ->
    app_step machine auto s (exec (App_call ctx e) s)
| step_other s s' : prepared (st_app s) (st_app s') -> app_step machine auto s s'.

Definition reachable (machine auto : bool) (guid : GUID) (update : bool) (s : AppSt) : Prop :=
  exists w, rtc (app_step machine auto) (mkAppSt w (App_init guid update)) s.

(** Effects in bundles of the same kind. *)
Definition effect_in (machine auto : bool) (a a' : App) : Prop :=
  exists ctx, bc_is_machine ctx = machine /\ bc_is_auto_update ctx = auto /\ effect ctx a a'.

Lemma app_step_effects machine auto s s' :
  app_step machine auto s s' -> rtc (effect_in machine auto) (st_app s) (st_app s').
Proof.
  destruct 1 as [ctx e s Hm Ha Hok|s s' Hprep].
  - eapply rtc_subrel; [|by apply App_call_effects]. intros a a' He. by exists ctx.
  - apply rtc_once. exists (mkBundleCtx machine auto [] false 0 0 0). split_and!; [done|done|].
    by apply prepared_quiet.
Qed.

Lemma rtc_preserves {A} (R : relation A) (P : A -> Prop) x y :
  (forall a b, P a -> R a b -> P b) -> rtc R x y -> P x -> P y.
Proof. intros Hstep. induction 1; eauto. Qed.

(** Rule induction on runs: what holds of a new application and is kept by
    every effect holds of every reachable application. *)
Lemma reachable_ind (P : App -> Prop) machine auto guid update s :
  P (App_init guid update) ->
  (forall a a', P a -> effect_in machine auto a a' -> P a') ->
  reachable machine auto guid update s -> P (st_app s).
Proof.
  intros Hinit Hstep [w Hrun].
  refine (rtc_preserves _ (fun s => P (st_app s)) _ _ _ Hrun Hinit). intros s1 s2 Hp Hs.
  exact (rtc_preserves _ P _ _ Hstep (app_step_effects _ _ _ _ Hs) Hp).
Qed.

Lemma same_app_reachable machine auto guid update s :
  reachable machine auto guid update s ->
  is_update (st_app s) = update /\ app_guid (st_app s) = guid.
Proof.
  apply (reachable_ind (fun a => is_update a = update /\ app_guid a = guid)); [done|].
  intros a a' [Hu Hg] (ctx & _ & _ & He).
  destruct He as [Hs|? ? ? Hs|? ? ? ? ? ? ? Hs|? ? ? ? Hs|? ? ? ? ? Hs]; destruct Hs as [-> ->]; done.
Qed.

(** ** The order of the states *)

(** C10. Whatever calls arrive, in whatever order, the state of an application
    only moves forward in the order of the interface's enumeration: it never
    goes back to an earlier state, and the error state is never left. *)
Theorem state_never_goes_back machine auto s s' :
  rtc (app_step machine auto) s s' ->
  CurrentState_value (App_state (st_app s)) <= CurrentState_value (App_state (st_app s'))
  /\ (app_state (st_app s) = AppStateError -> app_state (st_app s') = AppStateError).
Proof.
  assert (forall a a', effect_in machine auto a a' ->
    CurrentState_value (App_state a) <= CurrentState_value (App_state a')
    /\ (app_state a = AppStateError -> app_state a' = AppStateError)) as Heff.
  { intros a a' (ctx & _ & _ & He). unfold App_state.
    destruct He as [_ -> _ _ _|n l Hadv _ -> _ _ _ _|ec m l -> _ _ _ _ -> |r l -> _ _ _ _ Hr _ _|ec m l _ _ _ ->].
    - done.
    - destruct Hadv as [-> | -> _| -> | -> _| -> | -> | -> | -> | -> | -> ]; cbn; split; try lia; done.
    - cbn. split; [lia|done].
    - destruct (decide _); destruct Hr as [-> _]; cbn; split; try lia; done.
    - split; [destruct (app_state a); cbn; lia|done]. }
  assert (forall a a', rtc (effect_in machine auto) a a' ->
    CurrentState_value (App_state a) <= CurrentState_value (App_state a')
    /\ (app_state a = AppStateError -> app_state a' = AppStateError)) as Hrtc.
  { induction 1 as [|a b c Hab _ IH]; [split; [lia|done]|].
    destruct (Heff _ _ Hab) as [? ?]. destruct IH as [? ?]. split; [lia|auto]. }
  induction 1 as [|x y z Hxy _ IH]; [split; [lia|done]|].
  destruct (Hrtc _ _ (app_step_effects _ _ _ _ Hxy)) as [? ?]. destruct IH as [? ?]. split; [lia|auto].
Qed.

(** ** What the client reads *)

(** What the code asserts when a client asks for the state of an application
    ([App::get_currentState]). *)
Definition completion_consistent (a : App) : Prop :=
  let c := completion a in
  match app_state a with
  | AppStateNoUpdate =>
      (error_code (error_context_ c) = S_OK \/ error_code (error_context_ c) = GOOPDATE_E_UPDATE_DEFERRED)
      /\ completion_message_ c <> []
      /\ (completion_result_ c = EVENT_RESULT_SUCCESS \/ completion_result_ c = EVENT_RESULT_UPDATE_DEFERRED)
      /\ installer_result_code_ c = 0
  | AppStateInstallComplete =>
      error_code (error_context_ c) = S_OK /\ completion_message_ c <> []
      /\ completion_result_ c = EVENT_RESULT_SUCCESS
  | AppStateError =>
      error_code (error_context_ c) <> S_OK /\ completion_message_ c <> []
      /\ completion_result_ c ∈ [EVENT_RESULT_ERROR; EVENT_RESULT_CANCELLED; EVENT_RESULT_INSTALLER_ERROR_MSI;
           EVENT_RESULT_INSTALLER_ERROR_OTHER; EVENT_RESULT_INSTALLER_ERROR_SYSTEM]
  | _ => c = Completion_default
  end.

Lemma FAILED_not_S_OK hr : FAILED hr = true -> hr <> S_OK.
Proof. unfold FAILED, S_OK. intros ?%Z.ltb_lt ->. lia. Qed.

Lemma completion_consistent_step machine auto a a' :
  completion_consistent a -> effect_in machine auto a a' -> completion_consistent a'.
Proof.
  intros Hc (ctx & _ & _ & He). unfold completion_consistent in *.
  destruct He as [_ Hs' Hc' _ _|n l Hadv _ -> Hc' _ _ _|ec m l Hs _ Hec Hm _ -> -> -> -> _ -> _ _ _
                 |r l Hs Ht _ Hm _ Hr _ _|ec m l Hf Hm _ -> (Hec & Hmsg & _ & Hres & _) _ _ _].
  - by rewrite Hs', Hc'.
  - rewrite Hc'. destruct Hadv as [E|E _|E|E _|E|E|E|E|E|E]; by rewrite E in Hc.
  - rewrite Hs in Hc. split_and!; [done|done| |by rewrite Hc].
    destruct (_ =? _); auto.
  - destruct (decide _).
    + destruct Hr as (-> & -> & -> & _). by rewrite Hm.
    + destruct Hr as (-> & Hf & Hres & _). split_and!; [by apply FAILED_not_S_OK|by rewrite Hm|]. revert Hres. rewrite !elem_of_cons. tauto.
  - rewrite Hec, Hmsg. split_and!; [by apply FAILED_not_S_OK|done|]. rewrite Hres.
    destruct (_ =? _); set_solver.
Qed.

(** C8. In every reachable application the completion data agree with the
    state as the code asserts it for clients: an application in the error
    state has a failure code, a message and an error result; a completed one
    has success; one without an update has success or the deferral; before
    the end nothing is set. *)
Theorem completion_always_consistent machine auto guid update s :
  reachable machine auto guid update s -> completion_consistent (st_app s).
Proof.
  apply (reachable_ind completion_consistent); [done|]. intros a a'. apply completion_consistent_step.
Qed.

(** ** Group policy *)

(** The states in which the files of an application are fetched or run. *)
Definition fetching (st : AppState) : bool :=
  match st with
  | AppStateWaitingToDownload | AppStateDownloading | AppStateDownloadComplete | AppStateReadyToInstall
  | AppStateWaitingToInstall | AppStateInstalling | AppStateInstallComplete => true
  | _ => false
  end.

(** C9. An application whose update or installation the group policy forbids is
    never downloaded or installed: no sequence of calls brings it into a state
    of downloading or installing. *)
Theorem policy_blocks_download ctx guid update s :
  FAILED (App_CheckGroupPolicy ctx (App_init guid update)) = true ->
  reachable (bc_is_machine ctx) (bc_is_auto_update ctx) guid update s ->
  fetching (app_state (st_app s)) = false.
Proof.
  intros Hpol.
  apply (reachable_ind (fun a => same_app (App_init guid update) a /\ fetching (app_state a) = false)); [done|].
  intros a a' [Hsame Hf] (ctx' & Hm & Ha & He).
  assert (FAILED (App_CheckGroupPolicy ctx' a) = true) as Hpol'.
  { rewrite (CheckGroupPolicy_same ctx' _ _ Hsame). unfold App_CheckGroupPolicy in *. by rewrite Hm, Ha. }
  destruct He as [[Hu Hg] -> _ _ _|n l Hadv [Hu Hg] -> _ _ _ _|ec m l _ _ _ _ [Hu Hg] -> 
                 |r l Hs _ [Hu Hg] _ _ Hr _ _|ec m l _ _ [Hu Hg] ->].
  1-3,5: split; [by unfold same_app; rewrite Hu, Hg|].
  - done.
  - destruct Hadv as [E|E _|E|E Hok|E|E|E|E|E|E]; try done; try (by rewrite E in Hf). congruence.
  - done.
  - done.
  - by rewrite Hs in Hf.
Qed.

(** ** Calls in the wrong state *)

(** The calls a state accepts: those its class overrides. *)
Definition expected (a : App) (e : AppEvent) : bool :=
  match e, app_state a with
  | Ev_QueueUpdateCheck, AppStateInit => negb (bool_decide (is_eula_accepted_ (props a) = TRISTATE_NONE))
  | Ev_PreUpdateCheck _, (AppStateWaitingToCheckForUpdate | AppStateError) => true
  | Ev_PostUpdateCheck _ _, (AppStateCheckingForUpdate | AppStateError) => true
  | Ev_QueueDownload, (AppStateUpdateAvailable | AppStateNoUpdate | AppStateError) => true
  | Ev_QueueDownloadOrInstall,
      (AppStateUpdateAvailable | AppStateReadyToInstall | AppStateNoUpdate | AppStateError) => true
  | Ev_Download, (AppStateWaitingToDownload | AppStateWaitingToInstall | AppStateNoUpdate | AppStateError) => true
  | Ev_Downloading, AppStateWaitingToDownload => true
  | Ev_DownloadComplete, (AppStateWaitingToDownload | AppStateDownloading | AppStateError) => true
  | Ev_MarkReadyToInstall, (AppStateDownloadComplete | AppStateError) => true
  | Ev_QueueInstall, (AppStateReadyToInstall | AppStateWaitingToInstall | AppStateNoUpdate | AppStateError) => true
  | Ev_Install, (AppStateWaitingToInstall | AppStateNoUpdate | AppStateError) => true
  | Ev_Installing, (AppStateWaitingToInstall | AppStateInstalling) => true
  | Ev_ReportInstallerComplete _, AppStateInstalling => true
  | Ev_Cancel, _ => true
  | Ev_Error _ _, (AppStateInstallComplete | AppStateNoUpdate) => false
  | Ev_Error _ _, _ => true
  | _, _ => false
  end.

Definition invalid_transition (a : App) : Prop :=
  app_state a = AppStateError
  /\ error_code (error_context_ (completion a)) = GOOPDATE_E_INVALID_STATE_TRANSITION
  /\ completion_result_ (completion a) = EVENT_RESULT_ERROR.

Lemma HandleInvalidStateTransition_invalid ctx st s :
  invalid_transition (st_app (exec (HandleInvalidStateTransition ctx st) s)).
Proof.
  unfold HandleInvalidStateTransition, AppState_Error, App_SetError.
  rewrite exec_bind, exec_modify_app, ChangeState_app. done.
Qed.

(** Splits on the state of the application and leaves the accepted calls. *)
Ltac by_state Hexp :=
  rewrite ?with_state_exec;
  lazymatch goal with |- context [app_state (st_app ?s)] => destruct (app_state (st_app s)) eqn:?Est end;
  cbn in Hexp; try discriminate Hexp; cbv beta iota.

(** A call that the state of the application does not accept ends the
    application in the error state with the invalid-transition code, whatever
    the state was, the terminal ones included. *)
Theorem unexpected_call_fails ctx e s :
  expected (st_app s) e = false -> invalid_transition (st_app (exec (App_call ctx e) s)).
Proof.
  intros Hexp. unfold expected in Hexp. destruct e; cbn [App_call].
  { unfold App_QueueUpdateCheck. rewrite exec_bind_get_app, exec_bind, with_state_exec.
    destruct (bool_decide _) eqn:Ee; cbn [when negb] in *.
    + assert (app_state (st_app (exec (App_Error ctx (ErrorContext_of GOOPDATE_E_CALL_UNEXPECTED)
        (LoadString (language ctx) IDS_INSTALL_FAILED)) s)) = AppStateError) as ->.
      { unfold App_Error. rewrite with_state_exec.
        destruct (app_state (st_app s)) eqn:Est; cbn [state_Error]; try exact Est;
          unfold AppStateInstallComplete_Error, AppStateNoUpdate_Error, HandleInvalidStateTransition,
            AppState_Error; by rewrite exec_bind, ChangeState_app. }
      apply HandleInvalidStateTransition_invalid.
    + rewrite exec_ret. by_state Hexp; apply HandleInvalidStateTransition_invalid. }
  { rewrite exec_bind, exec_ret. unfold App_PreUpdateCheck. rewrite exec_bind_get_app.
    by_state Hexp; rewrite exec_bind, exec_ret; apply HandleInvalidStateTransition_invalid. }
  13: discriminate Hexp.
  12: unfold App_Pause; rewrite with_state_exec; apply HandleInvalidStateTransition_invalid.
  all: unfold App_PostUpdateCheck, App_QueueDownload, App_QueueDownloadOrInstall, App_Download, App_Downloading,
    App_DownloadComplete, App_MarkReadyToInstall, App_QueueInstall, App_Install, App_Installing,
    App_ReportInstallerComplete, App_Error; by_state Hexp; apply HandleInvalidStateTransition_invalid.
Qed.

(** ** The completion ping *)

Definition completions (a : App) : nat := length (List.filter is_completion (ping_events a)).

(** The completion pings an application owes the server. *)
Definition due (a : App) : nat :=
  match app_state a with
  | AppStateInstallComplete => if kGoopdateGuid =? app_guid a then 0 else 1
  | AppStateNoUpdate =>
      if error_code (error_context_ (completion a)) =? GOOPDATE_E_UPDATE_DEFERRED then 1 else 0
  | AppStateError => if App_is_install a || has_update_available a then 1 else 0
  | _ => 0
  end.

Definition terminal (st : AppState) : bool :=
  match st with AppStateInstallComplete | AppStateNoUpdate | AppStateError => true | _ => false end.

Inductive expected_step (machine auto : bool) : AppSt -> AppSt -> Prop :=
| estep_call ctx e s :
    bc_is_machine ctx = machine -> bc_is_auto_update ctx = auto -> event_ok e -> expected (st_app s) e = true ->
    expected_step machine auto s (exec (App_call ctx e) s)
| estep_other s s' : prepared (st_app s) (st_app s') -> expected_step machine auto s s'.

Lemma completions_app a a' l :
  ping_events a' = ping_events a ++ l -> completions a' = (completions a + length (List.filter is_completion l))%nat.
Proof. intros Hp. unfold completions. by rewrite Hp, List.filter_app, length_app. Qed.

Lemma no_completions l : forallb (fun p => negb (is_completion p)) l = true -> List.filter is_completion l = [].
Proof.
  induction l as [|p l IH]; [done|]. cbn. intros [Hp Hl]%andb_true_iff. destruct (is_completion p); [done|auto].
Qed.

Lemma end_pings_count b l : end_pings b l -> length (List.filter is_completion l) = if b then 1%nat else 0%nat.
Proof. destruct b; cbn; [intros (p & -> & Hp); cbn; by rewrite Hp|by intros ->]. Qed.

(** One effect on an application that has not ended. *)
Lemma effect_due ctx a a' :
  terminal (app_state a) = false -> completions a = 0%nat -> effect ctx a a' -> completions a' = due a'.
Proof.
  intros Ht Hc He. unfold due.
  destruct He as [_ Hs _ Hp _|n l Hadv _ -> _ Hp Hl _|ec m l _ _ _ _ _ -> Hec _ _ _ _ Hp Hl _
                 |r l _ _ [Hu Hg] _ _ Hr Hp Hav|ec m l _ _ _ -> _ Hp _ Hl].
  - rewrite Hs. unfold completions in *. rewrite Hp, Hc. by destruct (app_state a).
  - rewrite (completions_app _ _ _ Hp), Hc, no_completions by done. by destruct Hadv.
  - by rewrite (completions_app _ _ _ Hp), Hc, (end_pings_count _ _ Hl), Hec.
  - rewrite (completions_app _ _ _ Hp), Hc. destruct (decide _).
    + destruct Hr as (-> & _ & _ & Hl). rewrite (end_pings_count _ _ Hl), Hg. by destruct (_ =? _).
    + destruct Hr as (-> & _ & _ & Hl). unfold App_is_install in *.
      by rewrite (end_pings_count _ _ Hl), Hu, Hav.
  - by rewrite (completions_app _ _ _ Hp), Hc, (end_pings_count _ _ Hl).
Qed.

(** An accepted call is one effect; on an application that has ended it does
    nothing. *)
Lemma expected_effect ctx e s :
  event_ok e -> expected (st_app s) e = true -> effect ctx (st_app s) (st_app (exec (App_call ctx e) s)).
Proof.
  intros Hok Hexp. destruct e; cbn [App_call]; auto using App_PostUpdateCheck_effect, App_QueueDownload_effect,
    App_QueueDownloadOrInstall_effect, App_Download_effect, App_Downloading_effect, App_DownloadComplete_effect,
    App_MarkReadyToInstall_effect, App_QueueInstall_effect, App_Install_effect, App_Installing_effect,
    App_ReportInstallerComplete_effect, App_Pause_effect, App_Cancel_effect.
  - unfold expected in Hexp. unfold App_QueueUpdateCheck. rewrite exec_bind_get_app, exec_bind.
    destruct (app_state (st_app s)) eqn:Est; try done. apply negb_true_iff in Hexp. rewrite Hexp.
    cbn [when]. rewrite exec_ret. apply state_QueueUpdateCheck_effect.
  - rewrite exec_bind, exec_ret. apply App_PreUpdateCheck_effect.
  - destruct Hok. by apply App_Error_effect.
Qed.

Lemma expected_terminal ctx e s :
  terminal (app_state (st_app s)) = true -> expected (st_app s) e = true ->
  st_app (exec (App_call ctx e) s) = st_app s.
Proof.
  intros Ht Hexp. unfold expected in Hexp.
  destruct e; cbn [App_call]; try (destruct (app_state (st_app s)); discriminate).
  { rewrite exec_bind, exec_ret. unfold App_PreUpdateCheck. rewrite exec_bind_get_app.
    by destruct (app_state (st_app s)). }
  all: unfold App_PostUpdateCheck, App_QueueDownload, App_QueueDownloadOrInstall, App_Download,
    App_DownloadComplete, App_MarkReadyToInstall, App_QueueInstall, App_Install, App_Cancel, App_Error.
  all: rewrite with_state_exec; by destruct (app_state (st_app s)).
Qed.

Definition pings_due (a : App) : Prop := completions a = due a.

Lemma terminal_due a : terminal (app_state a) = false -> due a = 0%nat.
Proof. unfold due. by destruct (app_state a). Qed.

Lemma expected_step_due machine auto s s' :
  pings_due (st_app s) -> expected_step machine auto s s' -> pings_due (st_app s').
Proof.
  unfold pings_due. intros Hd Hs. destruct Hs as [ctx e s _ _ Hok Hexp|s s' ((Hu & Hg) & Hs & Hc & Hp & Hav)].
  - destruct (terminal (app_state (st_app s))) eqn:Et; [by rewrite expected_terminal|].
    eapply effect_due; [exact Et|by rewrite Hd, terminal_due|by apply expected_effect].
  - unfold completions, due, App_is_install in *. by rewrite Hp, Hs, Hg, Hc, Hu, Hav.
Qed.

(** C7. When every call arrives in a state that accepts it, an application that
    ended has sent exactly the completion ping it owes and no second one: an
    installed application one (except the updater itself), a failed one one
    when it was an installation or an update had been found, a deferred update
    one, an application without an update none; before the end none is sent. *)
Theorem one_completion_ping machine auto guid update w s :
  rtc (expected_step machine auto) (mkAppSt w (App_init guid update)) s ->
  completions (st_app s) = due (st_app s).
Proof.
  intros Hrun. refine (rtc_preserves _ (fun s => pings_due (st_app s)) _ _ _ Hrun _); [|done].
  intros a b. apply expected_step_due.
Qed.

End Theorems.

(** ** Witnesses *)

Section Witnesses.
#[local] Existing Instances sample_env guid_ops open_policy.

(** A client stops an application before its update check. *)
Lemma state_never_goes_back_witness :
  CurrentState_value (App_state (st_app (sample_state false)))
    <= CurrentState_value (App_state (st_app (exec (App_call sample_ctx Ev_Cancel) (sample_state false)))).
Proof.
  apply (state_never_goes_back true false). apply rtc_once, step_call; done.
Defined.

Lemma sample_reachable `{GroupPolicy} update :
  reachable true false example_guid update (exec (App_call sample_ctx Ev_Cancel) (sample_state update)).
Proof.
  exists sample_world. eapply rtc_l; [apply (step_other _ _ _ (sample_state update)); done|].
  apply rtc_once, step_call; done.
Qed.

Lemma completion_always_consistent_witness :
  completion_consistent (st_app (exec (App_call sample_ctx Ev_Cancel) (sample_state true))).
Proof. apply (completion_always_consistent true false example_guid true), sample_reachable. Defined.

(** The download of a new application is not expected. *)
Lemma unexpected_call_fails_witness :
  invalid_transition (st_app (exec (App_call sample_ctx Ev_Download) (sample_state true))).
Proof. apply unexpected_call_fails. reflexivity. Defined.

Lemma one_completion_ping_witness :
  completions (st_app (exec (App_call sample_ctx Ev_Cancel) (sample_state false))) = 1%nat.
Proof.
  rewrite (one_completion_ping true false example_guid false sample_world); [done|].
  eapply rtc_l; [apply (estep_other _ _ _ (sample_state false)); done|].
  apply rtc_once, estep_call; done.
Defined.
End Witnesses.

Section ClosedWitness.
#[local] Existing Instances sample_env guid_ops closed_policy.

Lemma policy_blocks_download_witness :
  fetching (app_state (st_app (exec (App_call sample_ctx Ev_Cancel) (sample_state true)))) = false.
Proof.
  apply (policy_blocks_download sample_ctx example_guid true);
    [by vm_compute|apply (sample_reachable true)].
Defined.
End ClosedWitness.
