(* ===== verification/AppFlow.v ===== *)
(** What single calls and the normal sequence of calls do to an application:
    cancellation, the entry in the update request, and the way from an
    available update to the completed installation. *)

From S2P Require Import Prelude Hresult CStrings Protocol Policy PolicyFacts Package AppModel Sample UpdateResponse UpdateFacts AppFsm AppRun AppTheorems.

Section Flow.
Context `{Env, GroupPolicy, GuidOps}.

(** ** Cancellation *)

Definition cancelled_from (ctx : BundleCtx) (a a' : App) : Prop :=
  app_state a' = AppStateError
  /\ error_context_ (completion a') = ErrorContext_of GOOPDATE_E_CANCELLED
  /\ completion_message_ (completion a') = LoadString (language ctx) IDS_CANCELED
  /\ completion_result_ (completion a') = EVENT_RESULT_CANCELLED
  /\ is_canceled_ (completion a') = true
  /\ state_cancelled_ (metrics a') = App_state a
  /\ is_update a' = is_update a /\ has_update_available a' = has_update_available a
  /\ exists l, ping_events a' = ping_events a ++ l
     /\ length l = (if App_is_install a || has_update_available a then 1%nat else 0%nat)
     /\ Forall (fun p => event_result p = EVENT_RESULT_CANCELLED /\ is_completion p = true) l.

Lemma AppState_Cancel_spec ctx st s :
  st = app_state (st_app s) -> cancelled_from ctx (st_app s) (st_app (exec (AppState_Cancel ctx st) s)).
Proof.
  intros ->. unfold AppState_Cancel, App_SetError, App_set_state_cancelled, App_SetCurrentTimeAs.
  rewrite !exec_bind, !exec_modify_app, ChangeState_app. cbn [st_app st_world exec eval current_ms_time fst snd].
  unfold cancelled_from. split_and!; [done..|].
  eexists. split; [reflexivity|]. cbn [CreatePingEvent]. unfold AppStateError_CreatePingEvent, event_by_kind.
  match goal with |- context [App_is_install ?x || _] =>
    change (App_is_install x || has_update_available x) with
      (App_is_install (st_app s) || has_update_available (st_app s)) end.
  destruct (App_is_install (st_app s) || has_update_available (st_app s)); cbn [negb option_list]; [|by split].
  split; [done|]. constructor; [|constructor]. split; [done|]. cbn. by destruct (is_update (st_app s)).
Qed.

(** Cancelling does nothing to an application that is being installed or
    that has ended.  Any other application goes to the error state with the
    cancellation code, result and text, and the ping, sent for installations
    and for updates that were found, carries the cancelled result. *)
Theorem Cancel_spec ctx s :
  let a := st_app s in
  let a' := st_app (exec (App_Cancel ctx) s) in
  if bool_decide (app_state a = AppStateInstalling) || terminal (app_state a) then a' = a
  else cancelled_from ctx a a'.
Proof.
  cbv zeta. unfold App_Cancel. rewrite with_state_exec.
  destruct (app_state (st_app s)) eqn:Est; cbn [terminal]; try reflexivity; by apply AppState_Cancel_spec.
Qed.

(** ** The update request *)

Lemma AppState_Error_app ctx ec message s :
  app_state (st_app (exec (AppState_Error ctx ec message) s)) = AppStateError
  /\ App_error_code (st_app (exec (AppState_Error ctx ec message) s)) = error_code ec.
Proof. unfold AppState_Error, App_SetError. rewrite exec_bind, exec_modify_app, ChangeState_app. done. Qed.

(** What is decided once the policy lets the application pass. *)
Lemma PreUpdateCheck_allowed_spec ctx r s :
  let a' := st_app (exec (PreUpdateCheck_allowed ctx r) s) in
  let r' := eval (PreUpdateCheck_allowed ctx r) s in
  if App_is_eula_accepted (st_app s) || bc_is_offline_install ctx then
    app_state a' = AppStateCheckingForUpdate /\ r' = BuildRequest ctx (st_app s) true r
  else
    r' = r /\ app_state a' = AppStateError
    /\ App_error_code a' = GOOPDATE_E_APP_UPDATE_DISABLED_EULA_NOT_ACCEPTED.
Proof.
  cbv zeta. unfold PreUpdateCheck_allowed. rewrite exec_bind_get_app, eval_bind_get_app. cbv zeta.
  rewrite !exec_bind, !eval_bind.
  destruct (App_is_eula_accepted (st_app s) || bc_is_offline_install ctx); rewrite !exec_bind, !eval_bind, eval_ret, exec_ret.
  - split; [by rewrite ChangeState_app|done].
  - split; [done|]. apply (AppState_Error_app ctx (ErrorContext_of GOOPDATE_E_APP_UPDATE_DISABLED_EULA_NOT_ACCEPTED)).
Qed.

Lemma BuildRequest_entry ctx a r :
  App_is_eula_accepted a || bc_is_offline_install ctx = true ->
  exists entry, BuildRequest ctx a true r = UpdateRequest_AddApp r entry
    /\ ra_app_id entry = GuidToString (app_guid a)
    /\ ruc_is_valid (ra_update_check entry) = true
    /\ ruc_is_update_disabled (ra_update_check entry) = FAILED (App_CheckGroupPolicy ctx a).
Proof.
  intros Ho. unfold BuildRequest. rewrite <- negb_orb, Ho. cbn [negb andb]. cbv zeta.
  destruct (cohort_ (props a)) as [[cohort hint] name]. eexists. split_and!; [reflexivity|done..].
Qed.

(** Before the update check, an application that waits for it is added to
    the request exactly when it goes on to check: its policy allows it (an
    automatic update is checked anyway) and its licence is accepted or the
    installation is offline.  The entry then has its identifier, and its
    update is disabled when policy forbids it.  Otherwise the request is left
    alone and the application fails with the reason. *)
Theorem PreUpdateCheck_spec ctx r s :
  app_state (st_app s) = AppStateWaitingToCheckForUpdate ->
  let policy := App_CheckGroupPolicy ctx (st_app s) in
  let a' := st_app (exec (App_PreUpdateCheck ctx r) s) in
  let r' := eval (App_PreUpdateCheck ctx r) s in
  if negb (bc_is_auto_update ctx) && FAILED policy then
    r' = r /\ app_state a' = AppStateError /\ App_error_code a' = policy
  else if App_is_eula_accepted (st_app s) || bc_is_offline_install ctx then
    app_state a' = AppStateCheckingForUpdate
    /\ exists entry, r' = UpdateRequest_AddApp r entry
       /\ ra_app_id entry = GuidToString (app_guid (st_app s))
       /\ ruc_is_valid (ra_update_check entry) = true
       /\ ruc_is_update_disabled (ra_update_check entry) = FAILED policy
  else
    r' = r /\ app_state a' = AppStateError
    /\ App_error_code a' = GOOPDATE_E_APP_UPDATE_DISABLED_EULA_NOT_ACCEPTED.
Proof.
  intros Hst. cbv zeta. unfold App_PreUpdateCheck. rewrite exec_bind_get_app, eval_bind_get_app, Hst.
  unfold AppStateWaitingToCheckForUpdate_PreUpdateCheck. rewrite exec_bind_get_app, eval_bind_get_app. cbv zeta.
  pose proof (PreUpdateCheck_allowed_spec ctx r s) as Hall. cbv zeta in Hall.
  destruct (negb (bc_is_auto_update ctx) && FAILED (App_CheckGroupPolicy ctx (st_app s))) eqn:Ep.
  - apply andb_true_iff in Ep as [-> Ef]. rewrite Ef, exec_bind, eval_bind, eval_ret, exec_ret.
    split; [done|]. unfold HandleGroupPolicyError. rewrite exec_bind_get_app, exec_bind.
    apply (AppState_Error_app ctx (ErrorContext_of _)).
  - replace (FAILED (if negb (bc_is_auto_update ctx) then App_CheckGroupPolicy ctx (st_app s) else S_OK)) with false
      by (by destruct (bc_is_auto_update ctx)).
    destruct (App_is_eula_accepted (st_app s) || bc_is_offline_install ctx) eqn:Eo; [|exact Hall].
    destruct Hall as [-> ->]. split; [done|]. by apply BuildRequest_entry.
Qed.

(** ** The normal sequence of calls *)

Definition run (ctx : BundleCtx) (events : list AppEvent) (s : AppSt) : AppSt :=
  fold_left (fun s e => exec (App_call ctx e) s) events s.

(** The type of the ping of entering a state on the way to the end. *)
Definition entry_ping (update : bool) (guid : GUID) (st : AppState) : list EventType :=
  match st with
  | AppStateWaitingToDownload => [if update then EVENT_UPDATE_APPLICATION_BEGIN else EVENT_INSTALL_APPLICATION_BEGIN]
  | AppStateDownloading => [if update then EVENT_UPDATE_DOWNLOAD_START else EVENT_INSTALL_DOWNLOAD_START]
  | AppStateDownloadComplete => [if update then EVENT_UPDATE_DOWNLOAD_FINISH else EVENT_INSTALL_DOWNLOAD_FINISH]
  | AppStateInstalling => [if update then EVENT_UPDATE_INSTALLER_START else EVENT_INSTALL_INSTALLER_START]
  | AppStateInstallComplete =>
      if kGoopdateGuid =? guid then [] else [if update then EVENT_UPDATE_COMPLETE else EVENT_INSTALL_COMPLETE]
  | _ => []
  end.

(** [a] is the application [a0], now in the state [st], with the pings of the
    types [types] added. *)
Definition on_the_way (a0 : App) (st : AppState) (types : list EventType) (a : App) : Prop :=
  same_app a0 a /\ app_state a = st
  /\ event_type <$> ping_events a = (event_type <$> ping_events a0) ++ types.

Definition on_flow (st : AppState) : bool :=
  match st with AppStateError | AppStateNoUpdate => false | _ => true end.

Lemma on_the_way_change ctx a0 st st' types s :
  on_the_way a0 st types (st_app s) -> on_flow st' = true ->
  on_the_way a0 st' (types ++ entry_ping (is_update a0) (app_guid a0) st')
    (st_app (exec (ChangeState ctx st') s)).
Proof.
  intros ([Hu Hg] & _ & Hp) Hf. rewrite ChangeState_app. split_and!; [done|done|].
  cbn [ping_events set_ping_events set_app_state]. rewrite fmap_app, Hp, <- (assoc_L (++)). f_equal. f_equal.
  rewrite <- Hu, <- Hg. destruct st'; try discriminate Hf; try reflexivity.
  cbn [CreatePingEvent entry_ping]. unfold AppStateInstallComplete_CreatePingEvent.
  cbn [app_guid set_app_state]. by destruct (_ =? _).
Qed.

(** The application does not change apart from what [on_the_way] says of it. *)
Lemma on_the_way_prepared a0 st types a b :
  on_the_way a0 st types a -> prepared a b -> on_the_way a0 st types b.
Proof.
  intros ([Hu Hg] & Hs & Hp) ([Hu' Hg'] & Hs' & _ & Hp' & _). unfold on_the_way, same_app.
  rewrite Hu', Hg', Hs', Hp'. done.
Qed.

(** One call of the normal sequence. *)
Definition flow_call (e : AppEvent) (st : AppState) : option AppState :=
  match e, st with
  | Ev_QueueDownload, AppStateUpdateAvailable => Some AppStateWaitingToDownload
  | Ev_QueueDownloadOrInstall, AppStateUpdateAvailable => Some AppStateWaitingToDownload
  | Ev_QueueDownloadOrInstall, AppStateReadyToInstall => Some AppStateWaitingToInstall
  | Ev_Download, AppStateWaitingToDownload => Some AppStateWaitingToDownload
  | Ev_Downloading, AppStateWaitingToDownload => Some AppStateDownloading
  | Ev_DownloadComplete, (AppStateWaitingToDownload | AppStateDownloading) => Some AppStateDownloadComplete
  | Ev_MarkReadyToInstall, AppStateDownloadComplete => Some AppStateReadyToInstall
  | Ev_QueueInstall, AppStateReadyToInstall => Some AppStateWaitingToInstall
  | Ev_Install, AppStateWaitingToInstall => Some AppStateWaitingToInstall
  | Ev_Installing, AppStateWaitingToInstall => Some AppStateInstalling
  | Ev_ReportInstallerComplete r, AppStateInstalling =>
      if bool_decide (iri_type r = INSTALLER_RESULT_SUCCESS) then Some AppStateInstallComplete else None
  | _, _ => None
  end.

Definition new_pings (update : bool) (guid : GUID) (st st' : AppState) : list EventType :=
  if decide (st = st') then [] else entry_ping update guid st'.

Lemma flow_call_step ctx a0 e st st' types s :
  FAILED (App_CheckGroupPolicy ctx a0) = false -> flow_call e st = Some st' ->
  on_the_way a0 st types (st_app s) ->
  on_the_way a0 st' (types ++ new_pings (is_update a0) (app_guid a0) st st')
    (st_app (exec (App_call ctx e) s)).
Proof.
  intros Hpol Hcall Hway. assert (app_state (st_app s) = st) as Hst by apply Hway.
  destruct e; cbn [flow_call] in Hcall; try discriminate Hcall; destruct st; try discriminate Hcall;
    try (injection Hcall as <-); unfold new_pings; cbn [App_call].
  all: unfold App_QueueDownload, App_QueueDownloadOrInstall, App_Download, App_Downloading, App_DownloadComplete,
    App_MarkReadyToInstall, App_QueueInstall, App_Install, App_Installing, App_ReportInstallerComplete;
    rewrite with_state_exec, Hst.
  all: try (rewrite decide_False by done; by apply (on_the_way_change ctx _ _ _ _ _ Hway)).
  1-2: unfold AppStateUpdateAvailable_QueueDownloadOrInstall, AppStateUpdateAvailable_QueueDownload;
    rewrite exec_bind_get_app, (CheckGroupPolicy_same ctx a0) by apply Hway; rewrite Hpol, exec_bind;
    apply (on_the_way_change ctx _ AppStateUpdateAvailable AppStateWaitingToDownload); [|done];
    apply (on_the_way_prepared _ _ _ _ _ Hway), prepared_SetCurrentTimeAs.
  - rewrite app_nil_r. apply (on_the_way_prepared _ _ _ _ _ Hway).
    unfold AppStateWaitingToDownload_Download. rewrite exec_bind. apply prepared_LogText.
  - rewrite app_nil_r. apply (on_the_way_prepared _ _ _ _ _ Hway), prepared_refl.
  - destruct (bool_decide _) eqn:Er; [|discriminate]. injection Hcall as <-. rewrite decide_False by done.
    unfold AppStateInstalling_ReportInstallerComplete. rewrite exec_bind, Er, exec_bind.
    apply (on_the_way_change ctx _ AppStateInstalling); [|done]. rewrite InstallComplete_ctor_app.
    destruct (SetInstallerResult_app result_info s) as ([Hu Hg] & Hs & Hp & _).
    destruct Hway as ([Hu0 Hg0] & _ & Hp0). unfold on_the_way, same_app. by rewrite Hu, Hg, Hs, Hp.
Qed.

(** The abstract run: the states and pings of a sequence of calls. *)
Fixpoint flow_run (update : bool) (guid : GUID) (events : list AppEvent) (st : AppState) :
    option (AppState * list EventType) :=
  match events with
  | [] => Some (st, [])
  | e :: events' =>
      st' ← flow_call e st;
      '(final, types) ← flow_run update guid events' st';
      Some (final, new_pings update guid st st' ++ types)
  end.

Lemma flow_run_sound ctx a0 events st st' types0 types s :
  FAILED (App_CheckGroupPolicy ctx a0) = false ->
  flow_run (is_update a0) (app_guid a0) events st = Some (st', types) ->
  on_the_way a0 st types0 (st_app s) ->
  on_the_way a0 st' (types0 ++ types) (st_app (run ctx events s)).
Proof.
  intros Hpol. revert st types0 types s. induction events as [|e events IH]; intros st types0 types s Hrun Hway.
  - injection Hrun as <- <-. by rewrite app_nil_r.
  - cbn [flow_run] in Hrun. apply bind_Some in Hrun as (st1 & Hcall & Hrun).
    apply bind_Some in Hrun as ([final types1] & Hrun & [= -> <-]).
    rewrite (assoc_L (++)). cbn [run fold_left]. eapply IH; [exact Hrun|]. by apply flow_call_step.
Qed.

(** The calls of the worker and of the managers for one application that is
    downloaded and installed. *)
Definition download_and_install (r : InstallerResultInfo) : list AppEvent :=
  [Ev_QueueDownload; Ev_Download; Ev_Downloading; Ev_DownloadComplete; Ev_MarkReadyToInstall;
   Ev_QueueInstall; Ev_Install; Ev_Installing; Ev_ReportInstallerComplete r].

(** What it reports: the begin, the start and the end of the download, the
    start of the installer, and the completion, which the updater itself does
    not report. *)
Definition reported (update : bool) (guid : GUID) : list EventType :=
  (if update
   then [EVENT_UPDATE_APPLICATION_BEGIN; EVENT_UPDATE_DOWNLOAD_START; EVENT_UPDATE_DOWNLOAD_FINISH;
         EVENT_UPDATE_INSTALLER_START]
   else [EVENT_INSTALL_APPLICATION_BEGIN; EVENT_INSTALL_DOWNLOAD_START; EVENT_INSTALL_DOWNLOAD_FINISH;
         EVENT_INSTALL_INSTALLER_START])
  ++ (if kGoopdateGuid =? guid then []
      else [if update then EVENT_UPDATE_COMPLETE else EVENT_INSTALL_COMPLETE]).

(** C11. An application with an available update that policy allows reaches the
    completed installation by the worker's sequence of calls when the installer
    succeeds, and reports every phase once and in order. *)
Theorem download_and_install_completes ctx r s :
  app_state (st_app s) = AppStateUpdateAvailable ->
  FAILED (App_CheckGroupPolicy ctx (st_app s)) = false ->
  iri_type r = INSTALLER_RESULT_SUCCESS ->
  let a := st_app s in
  let a' := st_app (run ctx (download_and_install r) s) in
  app_state a' = AppStateInstallComplete
  /\ event_type <$> ping_events a' =
     (event_type <$> ping_events a) ++ reported (is_update a) (app_guid a).
Proof.
  intros Hst Hpol Hr a a'.
  assert (flow_run (is_update a) (app_guid a) (download_and_install r) AppStateUpdateAvailable =
    Some (AppStateInstallComplete, reported (is_update a) (app_guid a))) as Hrun.
  { unfold reported. cbn [flow_run download_and_install flow_call mbind option_bind].
    rewrite bool_decide_eq_true_2 by done. cbn [mbind option_bind].
    unfold new_pings, entry_ping. by destruct (is_update a), (kGoopdateGuid =? app_guid a). }
  destruct (flow_run_sound ctx a _ _ _ [] _ s Hpol Hrun) as (_ & Hs' & Hp'); [|by split].
  split_and!; [done|exact Hst|by rewrite app_nil_r].
Qed.

(** ** A cancellation in the middle of a download *)

(** When a client cancels an application that waits for its download and
    the download manager then reports that the download has started, the
    cancellation is overwritten: the application ends with an invalid
    transition instead, and two completion pings are sent for it. *)
Theorem cancel_before_downloading ctx s :
  app_state (st_app s) = AppStateWaitingToDownload ->
  App_is_install (st_app s) || has_update_available (st_app s) = true ->
  let a' := st_app (run ctx [Ev_Cancel; Ev_Downloading] s) in
  invalid_transition a' /\ is_canceled_ (completion a') = false
  /\ completions a' = (completions (st_app s) + 2)%nat.
Proof.
  intros Hst Hcan. cbn [run fold_left App_call].
  assert (cancelled_from ctx (st_app s) (st_app (exec (App_Cancel ctx) s))) as Hc.
  { unfold App_Cancel. rewrite with_state_exec, Hst. by apply AppState_Cancel_spec. }
  destruct Hc as (Hs & _ & _ & _ & _ & _ & Hu & Hav & l & Hp & Hlen & Hl). rewrite Hcan in Hlen.
  set (s1 := exec (App_Cancel ctx) s) in *.
  unfold App_Downloading. rewrite with_state_exec, Hs. split; [apply HandleInvalidStateTransition_invalid|].
  unfold HandleInvalidStateTransition, AppState_Error, App_SetError.
  rewrite exec_bind, exec_modify_app, ChangeState_app. split; [done|].
  cbn [st_app st_world]. set (a2 := set_app_state AppStateError _).
  assert (App_is_install a2 || has_update_available a2 = true) as Hcan2.
  { unfold a2, App_is_install. cbn. by rewrite Hu, Hav. }
  set (prev := App_state _). set (extra := w_error_extra_code1 _).
  pose proof (error_ping_end ctx AppStateError a2 prev extra eq_refl) as Hend.
  rewrite Hcan2 in Hend. apply end_pings_count in Hend.
  rewrite (completions_app (st_app s1) _ (option_list (CreatePingEvent ctx AppStateError a2 prev extra))) by done.
  rewrite Hend.
  rewrite (completions_app _ _ _ Hp).
  destruct l as [|p [|]]; try discriminate Hlen. apply Forall_singleton in Hl as [_ Hcomp]. cbn. rewrite Hcomp. cbn. lia.
Qed.

End Flow.

(** ** Witnesses *)

Section Witnesses.
#[local] Existing Instances sample_env guid_ops open_policy.

Lemma PreUpdateCheck_spec_witness :
  app_state (st_app (exec (App_PreUpdateCheck sample_ctx sample_request)
    (sample_state_in AppStateWaitingToCheckForUpdate true))) = AppStateCheckingForUpdate.
Proof.
  exact (proj1 (PreUpdateCheck_spec sample_ctx sample_request
    (sample_state_in AppStateWaitingToCheckForUpdate true) eq_refl)).
Defined.

Lemma download_and_install_completes_witness :
  app_state (st_app (run sample_ctx (download_and_install sample_installer_result)
    (sample_state_in AppStateUpdateAvailable true))) = AppStateInstallComplete.
Proof.
  exact (proj1 (download_and_install_completes sample_ctx sample_installer_result
    (sample_state_in AppStateUpdateAvailable true) eq_refl eq_refl eq_refl)).
Defined.

Lemma cancel_before_downloading_witness :
  invalid_transition (st_app (run sample_ctx [Ev_Cancel; Ev_Downloading]
    (sample_state_in AppStateWaitingToDownload false))).
Proof.
  exact (proj1 (cancel_before_downloading sample_ctx
    (sample_state_in AppStateWaitingToDownload false) eq_refl eq_refl)).
Defined.
End Witnesses.
