(* ===== verification/Installer.v ===== *)
(** Installing: the class [InstallerWrapper] (omaha/goopdate/installer_wrapper.cc),
    which runs an installer and finds out how it ended, and [InstallManager]
    (install_manager.cc), which installs an application and reports to it. *)

From S2P Require Import Prelude Hresult CStrings Paths Sha256 Files Registry Machine Protocol Policy AppRegistry Package AppModel.
From S2P Require Import AppManager AppFsm.

Inductive InstallerType := UNKNOWN_INSTALLER | CUSTOM_INSTALLER | MSI_INSTALLER | MAX_INSTALLER.

#[export] Instance InstallerType_eq_dec : EqDecision InstallerType.
Proof. solve_decision. Defined.

(** A process when the wait for it is over. *)
Inductive ProcessState := Running | Exited (exit_code : Z) | NoExitCode.

(** Windows and the installers: the environment of the n-th process, or the
    error of the system, and its start, its end, and what it has written to the registry by then; the names
    of temporary files, the system's messages and the conversion of strings. *)
Class Installers := {
  ins_CreateEnvironment : nat -> list (CString * CString) -> Z + list (CString * CString);
  ins_Start : nat -> CString -> CString -> list (CString * CString) -> HRESULT;
  ins_State : nat -> ProcessState;
  ins_Registry : nat -> Registry -> Registry;
  GetMessageForSystemErrorCode : Z -> CString;
  PathRemoveFileSpec : CString -> option CString;
  GetTempFilenameAt : nat -> CString -> CString -> CString;
  WideToUtf8 : CString -> list Z;
  IsRunningOnXPSP2OrLater : bool;
  ins_CreateEnvironment_error : forall n vars e, ins_CreateEnvironment n vars = inl e -> 0 <= e < 2 ^ 16;
  ins_State_code : forall n code, ins_State n = Exited code -> 0 <= code < 2 ^ 32
}.

Definition kMsiSuppressAllRebootsCmdLine : CString := _T "REBOOT=ReallySuppress".
Definition kCmdLineInstallerData : CString := _T "/installerdata=".
Definition kCmdLineSessionId : CString := _T "sessionid".
Definition kEnvVariableUntrustedData : CString := _T "BraveSoftwareUpdateUntrustedData".
Definition kEnvVariableIsMachine : CString := _T "BraveSoftwareUpdateIsMachine".
Definition kChromeAppId : CString := _T "{8A69D345-D564-463C-AFF1-A69D9E530F96}".

Definition kMsiAlreadyRunningRetryDelayBaseMs : Z := 5000.
Definition kNumMsiAlreadyRunningInteractiveMaxTries : nat := 4.
Definition kNumMsiAlreadyRunningSilentMaxTries : nat := 7.
Definition INSTALL_PRIORITY_HIGH : Z := 10.

Definition ERROR_INSTALL_ALREADY_RUNNING : Z := 1618.
Definition ERROR_SUCCESS_REBOOT_REQUIRED : Z := 3010.

(** [AppManager::InstallerResult], the values below [INSTALLER_RESULT_EXIT_CODE]. *)
Definition AM_INSTALLER_RESULT_SUCCESS : Z := 0.
Definition AM_INSTALLER_RESULT_FAILED_CUSTOM_ERROR : Z := 1.
Definition AM_INSTALLER_RESULT_FAILED_MSI_ERROR : Z := 2.
Definition AM_INSTALLER_RESULT_FAILED_SYSTEM_ERROR : Z := 3.

Definition InstallerResultInfo_init : InstallerResultInfo :=
  mkInstallerResultInfo INSTALLER_RESULT_UNKNOWN 0 0 [] [] [] POST_INSTALL_ACTION_DEFAULT.

Definition with_type (t : InstallerResultType) (r : InstallerResultInfo) : InstallerResultInfo :=
  mkInstallerResultInfo t (iri_code r) (iri_extra_code1 r) (iri_text r) (iri_post_install_launch_command_line r)
    (iri_post_install_url r) (iri_post_install_action r).
Definition with_code (c : Z) (r : InstallerResultInfo) : InstallerResultInfo :=
  mkInstallerResultInfo (iri_type r) c (iri_extra_code1 r) (iri_text r) (iri_post_install_launch_command_line r)
    (iri_post_install_url r) (iri_post_install_action r).
Definition with_text (s : CString) (r : InstallerResultInfo) : InstallerResultInfo :=
  mkInstallerResultInfo (iri_type r) (iri_code r) (iri_extra_code1 r) s (iri_post_install_launch_command_line r)
    (iri_post_install_url r) (iri_post_install_action r).
Definition with_url (s : CString) (r : InstallerResultInfo) : InstallerResultInfo :=
  mkInstallerResultInfo (iri_type r) (iri_code r) (iri_extra_code1 r) (iri_text r) (iri_post_install_launch_command_line r)
    s (iri_post_install_action r).
Definition with_action (p : PostInstallAction) (r : InstallerResultInfo) : InstallerResultInfo :=
  mkInstallerResultInfo (iri_type r) (iri_code r) (iri_extra_code1 r) (iri_text r) (iri_post_install_launch_command_line r)
    (iri_post_install_url r) p.

(** [FormatErrorCode]: a failure in hexadecimal, anything else in decimal. *)
Definition FormatErrorCode (error_code : Z) : CString :=
  if FAILED (s32 error_code) then format_hr (s32 error_code) else String_Uint64ToString error_code 10.

(** ** [InstallerWrapper] *)

Section Wrapper.
Context `{Env, GroupPolicy, GuidOps, RegEnv, Win32, Installers} (is_machine : bool).

(** The number of the process that is about to be started. *)
Definition next_process : AppM nat :=
  with_machine (fun m => (m_processes m, set_processes (S (m_processes m)) m)).

Definition BuildMsiCommandLine (arguments msi_file_path enclosed_installer_data_file_path : CString) : CString :=
  (if IsEmpty enclosed_installer_data_file_path then []
   else _T "INSTALLERDATA=" ++ enclosed_installer_data_file_path ++ _T " ")
  ++ arguments ++ _T " " ++ kMsiSuppressAllRebootsCmdLine ++ _T " /qn /i " ++ 34 :: msi_file_path ++ [34]
  ++ (if IsRunningOnXPSP2OrLater then _T " /log " ++ 34 :: (msi_file_path ++ _T ".log") ++ [34] else []).

Definition GetSystemErrorString (error_code : Z) (language : CString) : CString :=
  let error_code_string := FormatErrorCode error_code in
  let error_message := GetMessageForSystemErrorCode error_code in
  if negb (IsEmpty error_message)
  then FormatMessage language IDS_INSTALLER_FAILED_WITH_MESSAGE [error_code_string; error_message]
  else FormatMessage language IDS_INSTALLER_FAILED_NO_MESSAGE [error_code_string].

Definition InstallerWrapper_GetMessageForError (error_code : HRESULT) (installer_filename language : CString) : CString :=
  if error_code =? GOOPDATEINSTALL_E_FILENAME_INVALID
  then FormatMessage language IDS_INVALID_INSTALLER_FILENAME [installer_filename]
  else if error_code =? GOOPDATEINSTALL_E_INSTALLER_FAILED_START then LoadString language IDS_INSTALLER_FAILED_TO_START
  else if error_code =? GOOPDATEINSTALL_E_INSTALLER_TIMED_OUT then LoadString language IDS_INSTALLER_TIMED_OUT
  else if error_code =? GOOPDATEINSTALL_E_MSI_INSTALL_ALREADY_RUNNING
  then LoadString language IDS_MSI_INSTALL_ALREADY_RUNNING
  else LoadString language IDS_INSTALL_FAILED.

(** [goopdate_utils::WriteInstallerDataToTempFile]: the path stays empty unless
    the file was written. *)
Definition WriteInstallerDataToTempFile (directory installer_data : CString) : FsM (HRESULT * CString) :=
  fs ← get;
  if negb (bool_decide (path_key directory ∈ fs_dirs fs)) || IsEmpty installer_data then mret (S_FALSE, [])
  else
    win32 (fun hr => mret (hr, [])) (fun n =>
      let temp_file := GetTempFilenameAt n directory (_T "gui") in
      win32 (fun hr => mret (hr, [])) (fun n =>
        modify (set_file temp_file (mkFileData [] (w32_filetime n)));;
        win32 (fun hr => mret (hr, [])) (fun n =>
          let installer_data_utf8_bom := 0xEF :: 0xBB :: 0xBF :: WideToUtf8 installer_data in
          modify (set_file temp_file (mkFileData installer_data_utf8_bom (w32_filetime n)));;
          mret (S_OK, temp_file)))).

(** The result is the program, its command line and the kind of installer. *)
Definition BuildCommandLineFromFilename (file_path arguments installer_data : CString) :
    FsM (HRESULT + CString * CString * InstallerType) :=
  match PathRemoveFileSpec file_path with
  | None => mret (inl GOOPDATEINSTALL_E_FILENAME_INVALID)
  | Some app_installer_directory =>
      '(_, installer_data_file_path) ← WriteInstallerDataToTempFile app_installer_directory installer_data;
      let enclosed := EnclosePath installer_data_file_path in
      match PathFindExtension file_path [] with
      | [] => mret (inl GOOPDATEINSTALL_E_FILENAME_INVALID)
      | _ :: ext =>
          if EqualNoCase ext (_T "exe") then
            let command_line :=
              if IsEmpty enclosed then arguments else arguments ++ _T " " ++ kCmdLineInstallerData ++ enclosed in
            mret (inr (file_path, command_line, CUSTOM_INSTALLER))
          else if EqualNoCase ext (_T "msi")
          then mret (inr (_T "msiexec", BuildMsiCommandLine arguments file_path enclosed, MSI_INSTALLER))
          else mret (inl GOOPDATEINSTALL_E_FILENAME_INVALID)
      end
  end.

(** The verdict of the registry and the exit code, before the reboot case. *)
Definition installer_result_type (installer_result : Z) (installer_type : InstallerType) (result_code : Z) :
    InstallerResultType :=
  if installer_result =? AM_INSTALLER_RESULT_SUCCESS then INSTALLER_RESULT_SUCCESS
  else if installer_result =? AM_INSTALLER_RESULT_FAILED_CUSTOM_ERROR then INSTALLER_RESULT_ERROR_OTHER
  else if installer_result =? AM_INSTALLER_RESULT_FAILED_MSI_ERROR then INSTALLER_RESULT_ERROR_MSI
  else if installer_result =? AM_INSTALLER_RESULT_FAILED_SYSTEM_ERROR then INSTALLER_RESULT_ERROR_SYSTEM
  else if installer_result =? INSTALLER_RESULT_EXIT_CODE then
    if result_code =? 0 then INSTALLER_RESULT_SUCCESS
    else if u32 GOOPDATEINSTALL_E_INSTALLER_TIMED_OUT =? result_code then INSTALLER_RESULT_UNKNOWN
    else match installer_type with MSI_INSTALLER => INSTALLER_RESULT_ERROR_MSI | _ => INSTALLER_RESULT_ERROR_OTHER end
  else INSTALLER_RESULT_UNKNOWN.

Definition is_msi_or_system (t : InstallerResultType) : bool :=
  bool_decide (t = INSTALLER_RESULT_ERROR_MSI) || bool_decide (t = INSTALLER_RESULT_ERROR_SYSTEM).

Definition finish_reboot (r : InstallerResultInfo) : InstallerResultInfo :=
  if is_msi_or_system (iri_type r) && (iri_code r =? ERROR_SUCCESS_REBOOT_REQUIRED)
  then with_action POST_INSTALL_ACTION_REBOOT (with_code 0 (with_type INSTALLER_RESULT_SUCCESS r))
  else if negb (IsEmpty (iri_post_install_launch_command_line r)) then with_action POST_INSTALL_ACTION_LAUNCH_COMMAND r
  else r.

(** [result.text.FormatMessage] takes the resource of the module, which has no
    language of its own. *)
Definition finish_text (language : CString) (r : InstallerResultInfo) : InstallerResultInfo :=
  match iri_type r with
  | INSTALLER_RESULT_SUCCESS => r
  | INSTALLER_RESULT_ERROR_MSI | INSTALLER_RESULT_ERROR_SYSTEM => with_text (GetSystemErrorString (iri_code r) language) r
  | INSTALLER_RESULT_ERROR_OTHER =>
      if IsEmpty (iri_text r)
      then with_text (FormatMessage [] IDS_INSTALLER_FAILED_NO_MESSAGE [FormatErrorCode (iri_code r)]) r else r
  | INSTALLER_RESULT_UNKNOWN =>
      if IsEmpty (iri_text r)
      then with_text (InstallerWrapper_GetMessageForError (s32 (iri_code r)) [] language) r else r
  end.

Definition GetInstallerResultHelper (guid : GUID) (installer_type : InstallerType) (result_code : Z) (language : CString) :
    AppM InstallerResultInfo :=
  v ← with_registry (ReadInstallerResultApiValues is_machine guid
                       (mkApiValues INSTALLER_RESULT_DEFAULT result_code 0 [] []));
  let type := installer_result_type (av_installer_result v) installer_type result_code in
  let code :=
    if (av_installer_result v =? INSTALLER_RESULT_EXIT_CODE) && (result_code =? 0) then 0 else av_installer_error v in
  let result := mkInstallerResultInfo type code (av_extra_code1 v) (av_uistring v) (av_success_launch_cmd v) []
                  POST_INSTALL_ACTION_DEFAULT in
  mret (finish_text language (finish_reboot result)).

Definition GetInstallerExitCode (p : ProcessState) : HRESULT + Z :=
  match p with
  | Exited exit_code => inr exit_code
  | Running | NoExitCode => inl GOOPDATEINSTALL_E_INSTALLER_INTERNAL_ERROR
  end.

Definition GetInstallerResult (guid : GUID) (installer_type : InstallerType) (p : ProcessState) (language : CString)
    (result_info : InstallerResultInfo) : AppM (HRESULT * InstallerResultInfo) :=
  match p with
  | Running =>
      let hr := GOOPDATEINSTALL_E_INSTALLER_TIMED_OUT in
      result ← GetInstallerResultHelper guid installer_type (u32 hr) language;
      mret (hr, result)
  | _ =>
      match GetInstallerExitCode p with
      | inl hr => mret (hr, result_info)
      | inr exit_code =>
          result ← GetInstallerResultHelper guid installer_type exit_code language;
          mret (S_OK, result)
      end
  end.

Definition DoExecuteAndWaitForInstaller (guid : GUID) (executable_path command_line : CString)
    (installer_type : InstallerType) (language untrusted_data : CString) (result_info : InstallerResultInfo) :
    AppM (HRESULT * InstallerResultInfo) :=
  with_registry (ClearInstallerResultApiValues is_machine guid);;
  n ← next_process;
  let vars := (if IsEmpty untrusted_data then [] else [(kEnvVariableUntrustedData, untrusted_data)])
              ++ [(kEnvVariableIsMachine, if is_machine then _T "1" else _T "0")] in
  match ins_CreateEnvironment n vars with
  | inl last_error => mret (HRESULTFromLastError last_error, result_info)
  | inr env_block =>
      let hr := ins_Start n executable_path command_line env_block in
      if FAILED hr then
        App_set_error_extra_code1 (s32 hr);;
        mret (GOOPDATEINSTALL_E_INSTALLER_FAILED_START, result_info)
      else
        with_registry (modify (ins_Registry n));;
        if kGoopdateGuid =? guid then mret (S_OK, with_type INSTALLER_RESULT_SUCCESS result_info)
        else GetInstallerResult guid installer_type (ins_State n) language result_info
  end.

(** The loop: [left] tries are left, [first] is true for the first one. *)
Fixpoint execute_loop (left : nat) (first : bool) (retry_delay : Z) (run : AppM (HRESULT * InstallerResultInfo))
    (result_info : InstallerResultInfo) : AppM (HRESULT * InstallerResultInfo) :=
  match left with
  | O => mret (GOOPDATEINSTALL_E_MSI_INSTALL_ALREADY_RUNNING, result_info)
  | S left' =>
      when (negb first) (Sleep retry_delay);;
      '(hr, result_info) ← run;
      if FAILED hr then mret (hr, result_info)
      else if is_msi_or_system (iri_type result_info) && (iri_code result_info =? ERROR_INSTALL_ALREADY_RUNNING)
      then execute_loop left' false (if first then retry_delay else s32 (retry_delay * 2)) run result_info
      else mret (hr, result_info)
  end.

Definition ExecuteAndWaitForInstaller (num_tries_when_msi_busy : nat) (guid : GUID) (executable_path command_line : CString)
    (installer_type : InstallerType) (language untrusted_data : CString) (result_info : InstallerResultInfo) :
    AppM (HRESULT * InstallerResultInfo) :=
  execute_loop num_tries_when_msi_busy true kMsiAlreadyRunningRetryDelayBaseMs
    (DoExecuteAndWaitForInstaller guid executable_path command_line installer_type language untrusted_data
       InstallerResultInfo_init) result_info.

Definition DoInstallApp (num_tries_when_msi_busy : nat) (guid : GUID) (installer_path arguments installer_data language
    untrusted_data : CString) (result_info : InstallerResultInfo) : AppM (HRESULT * InstallerResultInfo) :=
  let modified_arguments :=
    if bool_decide (kChromeAppId = GuidToString guid) && is_machine then arguments ++ _T " --system-level" else arguments in
  command ← with_files (BuildCommandLineFromFilename installer_path modified_arguments installer_data);
  match command with
  | inl hr => mret (hr, result_info)
  | inr (executable_path, command_line, installer_type) =>
      '(hr, result_info) ← ExecuteAndWaitForInstaller num_tries_when_msi_busy guid executable_path command_line
                             installer_type language untrusted_data result_info;
      if FAILED hr then mret (hr, result_info)
      else if negb (bool_decide (iri_type result_info = INSTALLER_RESULT_SUCCESS))
      then mret (GOOPDATEINSTALL_E_INSTALLER_FAILED, result_info)
      else mret (S_OK, result_info)
  end.

(** [InstallerWrapper::InstallApp] asserts what its callers rely on. *)
Definition Wrapper_InstallApp (num_tries_when_msi_busy : nat) (guid : GUID) (installer_path arguments installer_data language
    untrusted_data : CString) (result_info : InstallerResultInfo) : AppM (HRESULT * InstallerResultInfo) :=
  DoInstallApp num_tries_when_msi_busy guid installer_path arguments installer_data language untrusted_data result_info.

Definition result_asserted (hr : HRESULT) (r : InstallerResultInfo) : bool :=
  (SUCCEEDED hr && bool_decide (iri_type r = INSTALLER_RESULT_SUCCESS))
  || ((hr =? GOOPDATEINSTALL_E_INSTALLER_FAILED)
      && (is_msi_or_system (iri_type r) || bool_decide (iri_type r = INSTALLER_RESULT_ERROR_OTHER)))
  || ((hr =? GOOPDATEINSTALL_E_MSI_INSTALL_ALREADY_RUNNING) && is_msi_or_system (iri_type r))
  || (FAILED hr && bool_decide (iri_type r = INSTALLER_RESULT_UNKNOWN)).

Definition text_asserted (hr : HRESULT) (r : InstallerResultInfo) : bool :=
  Bool.eqb (negb (IsEmpty (iri_text r)))
    ((hr =? GOOPDATEINSTALL_E_INSTALLER_FAILED) || (hr =? GOOPDATEINSTALL_E_INSTALLER_TIMED_OUT)
     || (hr =? GOOPDATEINSTALL_E_MSI_INSTALL_ALREADY_RUNNING))
  || SUCCEEDED hr.

Definition CheckApplicationRegistration (registered_version expected_version previous_version : CString)
    (is_update : bool) : HRESULT :=
  if IsEmpty registered_version then GOOPDATEINSTALL_E_INSTALLER_DID_NOT_WRITE_CLIENTS_KEY
  else
    let registered_version_number := VersionFromString registered_version in
    let expected_version_number := VersionFromString expected_version in
    if negb (IsEmpty expected_version) && negb (bool_decide (registered_version = expected_version))
       && ((is_update && negb (bool_decide (registered_version = previous_version)))
           || (registered_version_number <? expected_version_number)
           || (registered_version_number =? 0) || (expected_version_number =? 0))
    then GOOPDATEINSTALL_E_INSTALLER_VERSION_MISMATCH
    else if is_update && bool_decide (previous_version = registered_version)
    then GOOPDATEINSTALL_E_INSTALLER_DID_NOT_CHANGE_VERSION
    else S_OK.

End Wrapper.

(** ** [InstallManager] *)

Definition GetInstallActionForEvent (install_actions : list InstallAction) (install_event : InstallEvent) :
    option InstallAction :=
  List.find (fun action => bool_decide (ia_install_event action = Some install_event)) install_actions.

Section InstallManager.
Context `{Env, GroupPolicy, GuidOps, RegEnv, Win32, Installers} (ctx : BundleCtx) (priority : Z) (session_id : CString).

Let is_machine := bc_is_machine ctx.

Definition PopulateSuccessfulInstallResultInfo (a : App) (r : InstallerResultInfo) : InstallerResultInfo :=
  let r :=
    match GetInstallActionForEvent (from_option im_install_actions [] (install_manifest (next_version a))) kPostInstall with
    | None => r
    | Some action =>
        let r := with_url (ia_success_url action) r in
        if bool_decide (iri_post_install_action r = POST_INSTALL_ACTION_LAUNCH_COMMAND)
           && bool_decide (ia_success_action action = SUCCESS_ACTION_EXIT_SILENTLY_ON_LAUNCH_CMD)
        then with_action POST_INSTALL_ACTION_EXIT_SILENTLY_ON_LAUNCH_COMMAND r
        else if bool_decide (iri_post_install_action r = POST_INSTALL_ACTION_DEFAULT) then
          if bool_decide (ia_success_action action = SUCCESS_ACTION_EXIT_SILENTLY)
          then with_action POST_INSTALL_ACTION_EXIT_SILENTLY r
          else if negb (IsEmpty (iri_post_install_url r))
          then with_action (if ia_terminate_all_browsers action then POST_INSTALL_ACTION_RESTART_ALL_BROWSERS
                            else POST_INSTALL_ACTION_RESTART_BROWSER) r
          else r
        else r
    end in
  if IsEmpty (iri_text r)
  then with_text (LoadString (bc_display_language ctx) IDS_APPLICATION_INSTALLED_SUCCESSFULLY) r else r.

(** The arguments of the installer: a self-update gets the session, too. *)
Definition manifest_arguments (a : App) : CString :=
  let event := if is_update a then kUpdate else kInstall in
  match GetInstallActionForEvent (from_option im_install_actions [] (install_manifest (next_version a))) event with
  | None => []
  | Some action =>
      ia_program_arguments action ++
      (if is_update a && (kGoopdateGuid =? app_guid a)
       then _T " /" ++ kCmdLineSessionId ++ _T " " ++ 34 :: session_id ++ [34] else [])
  end.

(** What is read of the registration of an application that was installed. *)
Definition read_registration : AppM HRESULT := fun s =>
  let '(hr, a) := ReadInstallerRegistrationValues is_machine (st_app s) (m_registry (w_machine (st_world s))) in
  (hr, mkAppSt (st_world s) a).

Definition check_registration (expected_version existing_version : CString) : AppM HRESULT :=
  hr ← read_registration;
  if FAILED hr then mret hr
  else
    a ← get_app;
    mret (CheckApplicationRegistration (version (next_version a)) expected_version existing_version (is_update a)).

Definition report_failure (hr : HRESULT) (installer_path : CString) (result_info : InstallerResultInfo) : AppM HRESULT :=
  let language := bc_display_language ctx in
  a ← get_app;
  s ← get;
  when (negb (is_update a)
        && negb (IsAppRegistered is_machine (GuidToString (app_guid a)) (m_registry (w_machine (st_world s)))))
    (with_registry (RemoveClientState is_machine (app_guid a));; mret tt);;
  (if hr =? GOOPDATEINSTALL_E_INSTALLER_FAILED then App_ReportInstallerComplete ctx result_info
   else App_Error ctx (mkErrorContext hr (iri_extra_code1 result_info))
          (InstallerWrapper_GetMessageForError hr installer_path language));;
  mret hr.

(** [InstallManager::InstallApp] from the running of the installer on. *)
Definition install_and_report (num_tries : nat) (existing_version installer_path expected_version : CString) : AppM HRESULT :=
  let language := bc_display_language ctx in
  a ← get_app;
  App_SetCurrentTimeAs TIME_INSTALL_START;;
  '(hr, result_info) ← Wrapper_InstallApp is_machine num_tries (app_guid a) installer_path (manifest_arguments a)
                         (App_GetInstallData a) language (untrusted_data_ (props a)) InstallerResultInfo_init;
  App_SetCurrentTimeAs TIME_INSTALL_COMPLETE;;
  hr ← (if SUCCEEDED hr && negb (kGoopdateGuid =? app_guid a) then check_registration expected_version existing_version
        else mret hr);
  if FAILED hr then report_failure hr installer_path result_info
  else
    a ← get_app;
    App_ReportInstallerComplete ctx (PopulateSuccessfulInstallResultInfo a result_info);;
    mret S_OK.

Definition InstallApp_static (num_tries : nat) (existing_version dir : CString) : AppM HRESULT :=
  let language := bc_display_language ctx in
  App_Installing ctx;;
  a ← get_app;
  match packages (next_version a) with
  | [] =>
      App_Error ctx (ErrorContext_of E_FAIL) (InstallerWrapper_GetMessageForError E_FAIL [] language);;
      mret E_FAIL
  | package_manager :: _ =>
      let installer_path := ConcatenatePath dir (filename package_manager) in
      let expected_version := from_option im_version [] (install_manifest (next_version a)) in
      hr ← (if is_update a then mret S_OK else with_registry (WritePreInstallData is_machine a));
      if FAILED hr then
        App_Error ctx (ErrorContext_of hr) (InstallerWrapper_GetMessageForError hr [] language);;
        mret hr
      else install_and_report num_tries existing_version installer_path expected_version
  end.

Definition InstallManager_InstallApp (dir : CString) : AppM unit :=
  let num_tries := if priority <? INSTALL_PRIORITY_HIGH then kNumMsiAlreadyRunningSilentMaxTries
                   else kNumMsiAlreadyRunningInteractiveMaxTries in
  a ← get_app;
  hr ← InstallApp_static num_tries (version (current_version a)) dir;
  App_LogTextAppendFormat (_T "Install result=" ++ format_hr hr).

End InstallManager.
