(* ===== verification/InstallerFacts.v ===== *)
(** The theorems about installing: what the caller of an installer can rely on,
    how often and how long a busy MSI service is retried, and that the
    application is told the outcome. *)

From S2P Require Import Prelude Hresult CStrings Paths Sha256 Files Registry RegistryFacts Machine Protocol Policy PolicyFacts.
From S2P Require Import AppRegistry Package AppModel AppManager AppManagerFacts Sample UpdateResponse AppFsm AppRun Installer.
From S2P Require Import FilesFacts PackageCache PackageCacheFacts.

(** ** Checking the registration *)

(** C19. An update is accepted exactly when the installer registered a version other than
    the previous one, and the expected one if there is any.  An installation is
    also accepted when a valid version newer than the expected one is
    registered. *)
Theorem CheckApplicationRegistration_spec registered expected previous (update : bool) :
  CheckApplicationRegistration registered expected previous update = S_OK <->
  registered <> []
  /\ if update then registered <> previous /\ (expected = [] \/ registered = expected)
     else expected = [] \/ registered = expected \/ 0 < VersionFromString expected <= VersionFromString registered.
Proof.
  unfold CheckApplicationRegistration. pose proof (VersionFromString_range expected). pose proof (VersionFromString_range registered).
  destruct (IsEmpty registered) eqn:Er; [apply IsEmpty_true in Er; split; [discriminate|by intros [? _]]|].
  apply IsEmpty_false in Er. cbv zeta. set (n := VersionFromString registered) in *. set (m := VersionFromString expected) in *.
  destruct (Z.ltb_spec n m), (Z.eqb_spec n 0), (Z.eqb_spec m 0), update; destruct expected as [|c rest];
    repeat case_bool_decide; cbn [IsEmpty negb andb orb]; split; intros Hx; try discriminate Hx; naive_solver lia.
Qed.

(** ** Running the installer *)

Section Wrapper.
Context `{Env, GroupPolicy, GuidOps, RegEnv, Win32, Installers} (is_machine : bool).

(** The part of the machine the installer's time and tries are counted in. *)
Definition run_costs (s : AppSt) : nat * Z := (m_processes (w_machine (st_world s)), m_slept_ms (w_machine (st_world s))).

Definition free (s s' : AppSt) : Prop := run_costs s' = run_costs s.
Definition same_application (s s' : AppSt) : Prop := st_app s' = st_app s.

#[local] Instance free_preorder : PreOrder free.
Proof. split; [done|]. intros a b c Hab Hbc. unfold free in *. by rewrite Hbc, Hab. Qed.
#[local] Instance same_application_preorder : PreOrder same_application.
Proof. split; [done|]. intros a b c Hab Hbc. unfold same_application in *. by rewrite Hbc, Hab. Qed.

Lemma with_registry_exec {A} (m : RegM A) s :
  m_registry (w_machine (st_world (exec (with_registry m) s))) = exec m (m_registry (w_machine (st_world s))).
Proof. unfold with_registry, with_machine, exec. by destruct (m _). Qed.
Lemma with_registry_eval {A} (m : RegM A) s :
  eval (with_registry m) s = eval m (m_registry (w_machine (st_world s))).
Proof. unfold with_registry, with_machine, eval. by destruct (m _). Qed.
Lemma with_files_eval {A} (m : FsM A) s : eval (with_files m) s = eval m (m_fs (w_machine (st_world s))).
Proof. unfold with_files, with_machine, eval. by destruct (m _). Qed.
Lemma with_registry_free {A} (m : RegM A) : preserves free (with_registry m).
Proof. intros s. unfold free, run_costs, with_registry, with_machine, exec. by destruct (m _). Qed.
Lemma with_files_free {A} (m : FsM A) : preserves free (with_files m).
Proof. intros s. unfold free, run_costs, with_files, with_machine, exec. by destruct (m _). Qed.
Lemma set_extra_free z : preserves free (App_set_error_extra_code1 z).
Proof. done. Qed.
Lemma with_machine_same {A} (f : Machine -> A * Machine) : preserves same_application (with_machine f).
Proof. intros s. unfold same_application, with_machine, exec. by destruct (f _). Qed.
Lemma set_extra_same z : preserves same_application (App_set_error_extra_code1 z).
Proof. done. Qed.
#[local] Hint Resolve with_registry_free with_files_free set_extra_free set_extra_same : preserves.

Lemma with_registry_same {A} (m : RegM A) : preserves same_application (with_registry m).
Proof. apply with_machine_same. Qed.
Lemma with_files_same {A} (m : FsM A) : preserves same_application (with_files m).
Proof. apply with_machine_same. Qed.
Lemma next_process_same : preserves same_application next_process.
Proof. apply with_machine_same. Qed.
Lemma Sleep_same ms : preserves same_application (Sleep ms).
Proof. apply with_machine_same. Qed.
#[local] Hint Resolve with_registry_same with_files_same next_process_same Sleep_same : preserves.

Lemma GetInstallerResult_free guid t p lang r : preserves free (GetInstallerResult is_machine guid t p lang r).
Proof. unfold GetInstallerResult, GetInstallerResultHelper, GetInstallerExitCode. destruct p; preserve. Qed.

Lemma GetInstallerResult_same guid t p lang r : preserves same_application (GetInstallerResult is_machine guid t p lang r).
Proof. unfold GetInstallerResult, GetInstallerResultHelper, GetInstallerExitCode. destruct p; preserve. Qed.
#[local] Hint Resolve GetInstallerResult_free GetInstallerResult_same : preserves.

(** One try starts at most one process and does not sleep. *)
Lemma DoExecute_costs guid exe cmd t lang data r s :
  run_costs (exec (DoExecuteAndWaitForInstaller is_machine guid exe cmd t lang data r) s) = (S (run_costs s).1, (run_costs s).2).
Proof.
  unfold DoExecuteAndWaitForInstaller. rewrite !exec_bind.
  set (s1 := exec (with_registry _) s). assert (free s s1) as Hs1 by apply with_registry_free.
  set (n := eval next_process s1). set (s2 := exec next_process s1). cbv zeta.
  assert (run_costs s2 = (S (run_costs s).1, (run_costs s).2)) as <- by (rewrite <- Hs1; done).
  clearbody s2 n. match goal with |- run_costs (exec ?m s2) = _ => assert (preserves free m) as Hp; [|exact (Hp s2)] end. preserve.
Qed.

Lemma DoExecute_same guid exe cmd t lang data r :
  preserves same_application (DoExecuteAndWaitForInstaller is_machine guid exe cmd t lang data r).
Proof. unfold DoExecuteAndWaitForInstaller. preserve. Qed.
#[local] Hint Resolve DoExecute_same : preserves.

Lemma execute_loop_same left : forall first delay run r,
  preserves same_application run -> preserves same_application (execute_loop left first delay run r).
Proof.
  induction left as [|left IH]; intros first delay run r Hrun; cbn [execute_loop]; preserve.
Qed.

Lemma execute_loop_costs run : (forall s, run_costs (exec run s) = (S (run_costs s).1, (run_costs s).2)) ->
  forall k (first : bool) delay r s,
  let waits := if first then (k - 1)%nat else k in
  0 <= delay -> delay * 2 ^ Z.of_nat k < 2 ^ 31 ->
  let c := run_costs (exec (execute_loop k first delay run r) s) in
  ((run_costs s).1 <= c.1 <= (run_costs s).1 + k)%nat
  /\ (run_costs s).2 <= c.2 <= (run_costs s).2 + delay * (2 ^ Z.of_nat waits - 1).
Proof.
  intros Hrun. induction k as [|k IH]; intros first delay r s; cbv zeta; intros Hd Hmax; cbn [execute_loop].
  { rewrite exec_ret. destruct first; cbn; lia. }
  rewrite exec_bind. set (s1 := exec (when (negb first) (Sleep delay)) s).
  assert (run_costs s1 = ((run_costs s).1, (run_costs s).2 + if first then 0 else delay)) as Hs1.
  { unfold s1. destruct first; cbn [negb when]; [rewrite exec_ret, Z.add_0_r; by destruct (run_costs s)|done]. }
  rewrite exec_bind. specialize (Hrun s1). set (s2 := exec run s1) in *. destruct (eval run s1) as [hr r'].
  rewrite Nat2Z.inj_succ, Z.pow_succ_r in Hmax by lia. assert (1 <= 2 ^ Z.of_nat k) by (pose proof (Z.pow_pos_nonneg 2 (Z.of_nat k)); lia).
  assert (delay * (2 ^ Z.of_nat (if first then S k - 1 else S k)%nat - 1) =
          delay * (2 ^ Z.of_nat k - 1) + if first then 0 else delay * 2 ^ Z.of_nat k) as ->.
  { destruct first; [by rewrite Nat.sub_succ, Nat.sub_0_r, Z.add_0_r|]. rewrite Nat2Z.inj_succ, Z.pow_succ_r by lia. ring. }
  assert (0 <= delay * (2 ^ Z.of_nat k - 1)) by nia.
  destruct (FAILED hr); [rewrite exec_ret, Hrun, Hs1; cbn; destruct first; nia|].
  destruct (_ && _); [|rewrite exec_ret, Hrun, Hs1; cbn; destruct first; nia].
  assert ((if first then delay else s32 (delay * 2)) = (if first then delay else 2 * delay)) as ->.
  { destruct first; [done|]. rewrite s32_small; nia. }
  specialize (IH false (if first then delay else 2 * delay) r' s2). cbv zeta in IH.
  destruct IH as [IH1 IH2]; [destruct first; lia|destruct first; nia|]. rewrite Hrun, Hs1 in IH1, IH2. cbn [fst snd] in IH1, IH2.
  destruct first; split; try lia; nia.
Qed.

Lemma Wrapper_same k guid path args data lang untrusted r :
  preserves same_application (Wrapper_InstallApp is_machine k guid path args data lang untrusted r).
Proof.
  unfold Wrapper_InstallApp, DoInstallApp, ExecuteAndWaitForInstaller. preserve; apply execute_loop_same, DoExecute_same.
Qed.

(** C18. A busy MSI service is retried a bounded number of times: installing starts at
    most as many processes as it may try, and sleeps between them for at most
    five seconds doubled for each retry.  For the four tries of an interactive
    installation these are 35 seconds, for the seven of a silent one 315. *)
Theorem retries_bounded k guid path args data lang untrusted r s :
  (1 <= k <= 10)%nat ->
  let s' := exec (Wrapper_InstallApp is_machine k guid path args data lang untrusted r) s in
  let m := w_machine (st_world s) in
  let m' := w_machine (st_world s') in
  (m_processes m <= m_processes m' <= m_processes m + k)%nat
  /\ m_slept_ms m <= m_slept_ms m' <= m_slept_ms m + 5000 * (2 ^ Z.of_nat (k - 1) - 1).
Proof.
  intros Hk. cbv zeta. change (m_processes (w_machine (st_world ?x))) with (run_costs x).1.
  change (m_slept_ms (w_machine (st_world ?x))) with (run_costs x).2.
  assert (1 <= 2 ^ Z.of_nat (k - 1)) by (pose proof (Z.pow_pos_nonneg 2 (Z.of_nat (k - 1))); lia).
  assert (2 ^ Z.of_nat k <= 2 ^ 10) by (apply Z.pow_le_mono_r; lia).
  unfold Wrapper_InstallApp, DoInstallApp. rewrite exec_bind. set (s1 := exec (with_files _) s).
  assert (run_costs s1 = run_costs s) as <- by apply with_files_free.
  destruct (eval (with_files _) s) as [hr|[[exe cmd] t]]; [rewrite exec_ret; lia|]. rewrite exec_bind.
  unfold ExecuteAndWaitForInstaller.
  destruct (execute_loop_costs (DoExecuteAndWaitForInstaller is_machine guid exe cmd t lang untrusted InstallerResultInfo_init)
    ltac:(intros; apply DoExecute_costs) k true kMsiAlreadyRunningRetryDelayBaseMs r s1) as [Hp Hs];
    [done|unfold kMsiAlreadyRunningRetryDelayBaseMs; lia|].
  set (s2 := exec (execute_loop _ _ _ _ _) s1) in *. change kMsiAlreadyRunningRetryDelayBaseMs with 5000 in Hs.
  destruct (eval (execute_loop _ _ _ _ _) s1) as [hr r']. destruct (FAILED hr); [|destruct (negb _)]; rewrite exec_ret; lia.
Qed.

(** ** What the callers rely on *)

Lemma IsEmpty_not_empty (s : CString) : s <> [] -> IsEmpty s = false.
Proof. by destruct s. Qed.

Lemma GetMessageForError_not_empty hr name lang : InstallerWrapper_GetMessageForError hr name lang <> [].
Proof.
  unfold InstallerWrapper_GetMessageForError.
  repeat (case_match; [apply FormatMessage_not_empty || apply LoadString_not_empty|]). apply LoadString_not_empty.
Qed.

(** Every failure of an installer has a text. *)
Lemma finish_text_spec lang r :
  iri_type (finish_text lang r) = iri_type r
  /\ (iri_type r = INSTALLER_RESULT_SUCCESS \/ iri_text (finish_text lang r) <> []).
Proof.
  unfold finish_text, GetSystemErrorString. destruct (iri_type r) eqn:Et; cbn; rewrite ?Et; try (by split; [|left]).
  2,3: split; [done|right; destruct (negb _); apply FormatMessage_not_empty].
  all: destruct (IsEmpty (iri_text r)) eqn:Ee; cbn; rewrite ?Et; (split; [done|right]).
  all: try (by apply IsEmpty_false). - apply GetMessageForError_not_empty. - apply FormatMessage_not_empty.
Qed.

Lemma finish_reboot_unknown r :
  iri_type r = INSTALLER_RESULT_UNKNOWN -> iri_type (finish_reboot r) = INSTALLER_RESULT_UNKNOWN.
Proof. intros Ht. unfold finish_reboot. rewrite Ht. cbn. by destruct (negb _). Qed.

Lemma Helper_spec guid t code lang s :
  let r := eval (GetInstallerResultHelper is_machine guid t code lang) s in
  iri_type r = INSTALLER_RESULT_SUCCESS \/ iri_text r <> [].
Proof.
  cbv zeta. unfold GetInstallerResultHelper. rewrite eval_bind. cbv zeta. rewrite eval_ret.
  match goal with |- context [finish_text lang ?x] => by destruct (finish_text_spec lang x) as [-> ?] end.
Qed.

(** An installer that did not end and reported nothing is unknown. *)
Lemma Helper_timed_out guid t lang s :
  let key := GetClientStateKeyName is_machine guid in
  reg_value key kRegValueInstallerResult (m_registry (w_machine (st_world s))) = None ->
  iri_type (eval (GetInstallerResultHelper is_machine guid t (u32 GOOPDATEINSTALL_E_INSTALLER_TIMED_OUT) lang) s)
    = INSTALLER_RESULT_UNKNOWN.
Proof.
  cbv zeta. intros Hn. unfold GetInstallerResultHelper. rewrite eval_bind, with_registry_eval. cbv zeta. rewrite eval_ret.
  rewrite (proj1 (finish_text_spec _ _)). apply finish_reboot_unknown. cbn [iri_type].
  assert (av_installer_result (eval (ReadInstallerResultApiValues is_machine guid
    (mkApiValues INSTALLER_RESULT_DEFAULT (u32 GOOPDATEINSTALL_E_INSTALLER_TIMED_OUT) 0 [] [])) (m_registry (w_machine (st_world s))))
    = INSTALLER_RESULT_EXIT_CODE) as ->; [|done].
  unfold ReadInstallerResultApiValues. autorewrite with st. destruct (FAILED _); [done|]. cbv zeta. rewrite eval_bind, eval_ret.
  cbn [av_installer_result]. unfold GetValueDword. by rewrite Hn.
Qed.

(** The codes that come with a text. *)
Definition reported_codes : list HRESULT :=
  [GOOPDATEINSTALL_E_INSTALLER_FAILED; GOOPDATEINSTALL_E_INSTALLER_TIMED_OUT; GOOPDATEINSTALL_E_MSI_INSTALL_ALREADY_RUNNING].

(** The outcomes of one try, and of the loop. *)
Definition failed_before (hr : HRESULT) (r : InstallerResultInfo) : Prop :=
  FAILED hr = true /\ r = InstallerResultInfo_init
  /\ hr ∉ reported_codes.
Definition timed_out (hr : HRESULT) (r : InstallerResultInfo) : Prop :=
  hr = GOOPDATEINSTALL_E_INSTALLER_TIMED_OUT /\ iri_type r = INSTALLER_RESULT_UNKNOWN /\ iri_text r <> [].
Definition ended (hr : HRESULT) (r : InstallerResultInfo) : Prop :=
  hr = S_OK /\ (iri_type r = INSTALLER_RESULT_SUCCESS \/ iri_text r <> []).
Definition stays_busy (hr : HRESULT) (r : InstallerResultInfo) : Prop :=
  hr = GOOPDATEINSTALL_E_MSI_INSTALL_ALREADY_RUNNING /\ is_msi_or_system (iri_type r) = true /\ iri_text r <> [].

(** An installer that is still running when the wait is over has not reported a
    result. *)
Definition hanging_installers_silent (guid : GUID) : Prop :=
  forall n r, let key := GetClientStateKeyName is_machine guid in
  ins_State n = Running -> reg_value key kRegValueInstallerResult r = None ->
  reg_value key kRegValueInstallerResult (ins_Registry n r) = None.

Lemma HRESULTFromLastError_failed e :
  0 <= e < 2 ^ 16 -> FAILED (HRESULTFromLastError e) = true /\ HRESULTFromLastError e ∉ reported_codes.
Proof.
  intros Hr%HRESULTFromLastError_range.
  assert (E_FAIL < 0 /\ Forall (fun c => c <> E_FAIL /\ c < 0x80070000 - 2 ^ 32) reported_codes) as [Hfail Hcodes].
  { split; [done|]. by apply (bool_decide_eq_true_1 _). }
  split; [apply Z.ltb_lt; lia|]. intros Hin. rewrite Forall_forall in Hcodes. specialize (Hcodes _ Hin). lia.
Qed.

Lemma DoExecute_outcome guid exe cmd t lang data s :
  hanging_installers_silent guid ->
  let '(hr, r) := eval (DoExecuteAndWaitForInstaller is_machine guid exe cmd t lang data InstallerResultInfo_init) s in
  failed_before hr r \/ timed_out hr r \/ ended hr r.
Proof.
  intros Hsilent. unfold DoExecuteAndWaitForInstaller. rewrite !eval_bind. set (s1 := exec (with_registry _) s).
  assert (reg_value (GetClientStateKeyName is_machine guid) kRegValueInstallerResult (m_registry (w_machine (st_world s1))) = None) as Hclear.
  { unfold s1. rewrite with_registry_exec.
    apply (Clear_spec is_machine guid _ kRegValueInstallerResult kRegValueLastInstallerResult). by left. }
  set (n := eval next_process s1). set (s2 := exec next_process s1).
  assert (m_registry (w_machine (st_world s2)) = m_registry (w_machine (st_world s1))) as Hreg by done. rewrite <- Hreg in Hclear.
  clearbody s2 n. cbv zeta.
  destruct (ins_CreateEnvironment n _) as [e|env] eqn:Ee.
  { rewrite eval_ret. left. by destruct (HRESULTFromLastError_failed e (ins_CreateEnvironment_error n _ e Ee)). }
  destruct (FAILED (ins_Start n exe cmd env)) eqn:Es; autorewrite with st.
  { left. split_and!; [done|done|]. by apply (bool_decide_eq_true_1 _). }
  destruct (kGoopdateGuid =? guid); [rewrite eval_ret; right; right; split; [done|by left]|].
  set (s3 := exec (with_registry (modify (ins_Registry n))) s2). unfold GetInstallerResult.
  destruct (ins_State n) as [|code|] eqn:Estate; cbn [GetInstallerExitCode]; cbv zeta; autorewrite with st.
  - right; left. split_and!; [done| |].
    + apply Helper_timed_out. unfold s3. rewrite with_registry_exec. by apply Hsilent.
    + destruct (Helper_spec guid t (u32 GOOPDATEINSTALL_E_INSTALLER_TIMED_OUT) lang s3) as [Ht|]; [|done].
      rewrite Helper_timed_out in Ht; [done|]. unfold s3. rewrite with_registry_exec. by apply Hsilent.
  - right; right. split; [done|]. apply Helper_spec.
  - left. split_and!; [done|done|]. by apply (bool_decide_eq_true_1 _).
Qed.

Lemma execute_loop_outcome run :
  (forall s, let '(hr, r) := eval run s in failed_before hr r \/ timed_out hr r \/ ended hr r) ->
  forall k first delay r0 s, (k = 0%nat -> is_msi_or_system (iri_type r0) = true /\ iri_text r0 <> []) ->
  let '(hr, r) := eval (execute_loop k first delay run r0) s in
  failed_before hr r \/ timed_out hr r \/ ended hr r \/ stays_busy hr r.
Proof.
  intros Hrun. induction k as [|k IH]; intros first delay r0 s Hr0; cbn [execute_loop].
  { rewrite eval_ret. right; right; right. by destruct (Hr0 eq_refl). }
  rewrite !eval_bind. specialize (Hrun (exec (when (negb first) (Sleep delay)) s)).
  set (s2 := exec run _). destruct (eval run _) as [hr r]. destruct (FAILED hr) eqn:Ef; [rewrite eval_ret; tauto|].
  destruct (_ && _) eqn:Eb; [|rewrite eval_ret; tauto]. apply andb_true_iff in Eb as [Eb _]. apply IH. intros _.
  split; [done|]. destruct Hrun as [[? _]|[(-> & _)|[_ [Ht|?]]]]; [congruence|done| |done]. by rewrite Ht in Eb.
Qed.

Lemma BuildCommandLine_failed path args data fs hr :
  eval (BuildCommandLineFromFilename path args data) fs = inl hr -> hr = GOOPDATEINSTALL_E_FILENAME_INVALID.
Proof.
  unfold BuildCommandLineFromFilename. destruct (PathRemoveFileSpec path); [|by intros [= <-]].
  rewrite eval_bind. destruct (eval _ fs) as [? file]. cbv zeta. destruct (PathFindExtension path []); [by intros [= <-]|].
  destruct (EqualNoCase _ _); [done|]. destruct (EqualNoCase _ _); [done|]. by intros [= <-].
Qed.

Lemma failed_before_asserted hr r : failed_before hr r -> result_asserted hr r = true /\ text_asserted hr r = true.
Proof.
  intros (Hf & -> & Hn). unfold result_asserted, text_asserted, reported_codes in *. rewrite !not_elem_of_cons in Hn.
  destruct Hn as (Hn1 & Hn2 & Hn3 & _).
  rewrite (proj2 (Z.eqb_neq _ _) Hn1), (proj2 (Z.eqb_neq _ _) Hn2), (proj2 (Z.eqb_neq _ _) Hn3), Hf.
  cbn. by rewrite !orb_true_r.
Qed.

Lemma ended_asserted r : iri_type r = INSTALLER_RESULT_SUCCESS \/ iri_text r <> [] ->
  let hr := if bool_decide (iri_type r = INSTALLER_RESULT_SUCCESS) then S_OK else GOOPDATEINSTALL_E_INSTALLER_FAILED in
  result_asserted hr r = true /\ text_asserted hr r = true.
Proof.
  cbv zeta. intros Hr. unfold result_asserted, text_asserted. case_bool_decide as Ht.
  { change (SUCCEEDED S_OK) with true. by rewrite orb_true_r. }
  destruct Hr as [?|Hx]; [done|]. rewrite (IsEmpty_not_empty _ Hx). split; [|done]. by destruct (iri_type r).
Qed.

(** What [InstallerWrapper::InstallApp] asserts about its result holds, if an
    installer that is still running when the wait is over has not reported a
    result: a success has the success type, a failure of the installer one of
    the error types, any other failure none; and there is a text exactly for
    failures of the installer, time-outs and a busy MSI service. *)
Theorem InstallApp_assertions k guid path args data lang untrusted s :
  (1 <= k)%nat -> hanging_installers_silent guid ->
  let '(hr, r) := eval (Wrapper_InstallApp is_machine k guid path args data lang untrusted InstallerResultInfo_init) s in
  result_asserted hr r = true /\ text_asserted hr r = true.
Proof.
  intros Hk Hsilent. unfold Wrapper_InstallApp, DoInstallApp. rewrite eval_bind.
  destruct (eval (with_files _) s) as [hr|[[exe cmd] t]] eqn:Ec.
  { rewrite eval_ret. assert (hr = GOOPDATEINSTALL_E_FILENAME_INVALID) as ->; [|by vm_compute].
    rewrite with_files_eval in Ec. by eapply BuildCommandLine_failed. }
  set (s1 := exec (with_files _) s). rewrite eval_bind. unfold ExecuteAndWaitForInstaller.
  pose proof (execute_loop_outcome _ (fun s => DoExecute_outcome guid exe cmd t lang untrusted s Hsilent) k true
    kMsiAlreadyRunningRetryDelayBaseMs InstallerResultInfo_init s1 ltac:(lia)) as Ho.
  destruct (eval (execute_loop _ _ _ _ _) s1) as [hr r].
  destruct Ho as [Hb|[(-> & Ht & Hx)|[(-> & Hr)|(-> & Ht & Hx)]]].
  - rewrite (proj1 Hb), eval_ret. by apply failed_before_asserted.
  - change (FAILED _) with true. cbv iota. rewrite eval_ret. unfold result_asserted, text_asserted.
    by rewrite Ht, (IsEmpty_not_empty _ Hx).
  - change (FAILED S_OK) with false. pose proof (ended_asserted r Hr) as He. by destruct (bool_decide (iri_type r = _)).
  - change (FAILED _) with true. cbv iota. rewrite eval_ret. unfold result_asserted, text_asserted.
    by rewrite Ht, (IsEmpty_not_empty _ Hx).
Qed.

End Wrapper.

(** ** What the application is told *)

Section Outcome.
Context `{Env, GroupPolicy, GuidOps, RegEnv, Win32, Installers} (ctx : BundleCtx) (priority : Z) (session_id : CString).

Lemma state_Error_state st ec message s :
  st <> AppStateError -> app_state (st_app (exec (state_Error ctx st ec message) s)) = AppStateError.
Proof.
  intros Hst. unfold state_Error, AppStateInstallComplete_Error, AppStateNoUpdate_Error, HandleInvalidStateTransition, AppState_Error.
  by destruct st; try done; rewrite exec_bind, ChangeState_app.
Qed.

Lemma App_Error_state ec message s : app_state (st_app (exec (App_Error ctx ec message) s)) = AppStateError.
Proof.
  unfold App_Error. rewrite with_state_exec.
  destruct (decide (app_state (st_app s) = AppStateError)) as [Hst|Hne]; [by rewrite Hst|by apply state_Error_state].
Qed.

Lemma Report_state r s :
  app_state (st_app s) = AppStateInstalling ->
  let s' := exec (App_ReportInstallerComplete ctx r) s in
  app_state (st_app s') = (if bool_decide (iri_type r = INSTALLER_RESULT_SUCCESS) then AppStateInstallComplete else AppStateError)
  /\ next_version (st_app s') = next_version (st_app s).
Proof.
  intros Hst. cbv zeta. unfold App_ReportInstallerComplete. rewrite with_state_exec, Hst.
  unfold AppStateInstalling_ReportInstallerComplete. rewrite exec_bind.
  assert (next_version (st_app (exec (App_SetInstallerResult r) s)) = next_version (st_app s)) as Hn.
  { unfold App_SetInstallerResult. destruct (iri_type r); cbv zeta; [done|..|done]; try done.
    rewrite exec_bind, exec_bind_get_app, exec_when_call_app. done. }
  case_bool_decide; [rewrite exec_bind|]; rewrite ChangeState_app; rewrite ?InstallComplete_ctor_app; by split.
Qed.

Lemma Installing_state s :
  app_state (st_app s) = AppStateWaitingToInstall ->
  let s' := exec (App_Installing ctx) s in
  app_state (st_app s') = AppStateInstalling /\ same_app (st_app s) (st_app s')
  /\ next_version (st_app s') = next_version (st_app s).
Proof.
  intros Hst. cbv zeta. unfold App_Installing. rewrite with_state_exec, Hst. unfold AppStateWaitingToInstall_Installing.
  by rewrite ChangeState_app.
Qed.

(** ** The codes of the wrapper *)

Definition code_ok (hr : HRESULT) : Prop := hr = S_OK \/ FAILED hr = true /\ hr <> GOOPDATEINSTALL_E_INSTALLER_FAILED.

Lemma DoExecute_code guid exe cmd t lang data r s :
  code_ok (eval (DoExecuteAndWaitForInstaller (bc_is_machine ctx) guid exe cmd t lang data r) s).1.
Proof.
  unfold DoExecuteAndWaitForInstaller. rewrite !eval_bind. cbv zeta. destruct (ins_CreateEnvironment _ _) as [e|env] eqn:Ee.
  { rewrite eval_ret. right. destruct (HRESULTFromLastError_failed e (ins_CreateEnvironment_error _ _ e Ee)) as [Hf Hn]. split; [done|].
    cbn [fst]. intros Heq. apply Hn. rewrite Heq. by left. }
  destruct (FAILED _); autorewrite with st; [by right|]. destruct (kGoopdateGuid =? guid); [by left|].
  unfold GetInstallerResult. destruct (ins_State _); cbn [GetInstallerExitCode]; cbv zeta; autorewrite with st; [by right|by left|by right].
Qed.

Lemma execute_loop_code run : (forall s, code_ok (eval run s).1) ->
  forall k first delay r s, code_ok (eval (execute_loop k first delay run r) s).1.
Proof.
  intros Hrun. induction k as [|k IH]; intros first delay r s; cbn [execute_loop]; [by right|].
  rewrite !eval_bind. specialize (Hrun (exec (when (negb first) (Sleep delay)) s)). destruct (eval run _) as [hr r'].
  destruct (FAILED hr); [done|]. by destruct (_ && _).
Qed.

Lemma Wrapper_code k guid path args data lang untrusted r0 s :
  let '(hr, r) := eval (Wrapper_InstallApp (bc_is_machine ctx) k guid path args data lang untrusted r0) s in
  hr = S_OK /\ iri_type r = INSTALLER_RESULT_SUCCESS
  \/ FAILED hr = true /\ (hr = GOOPDATEINSTALL_E_INSTALLER_FAILED -> iri_type r <> INSTALLER_RESULT_SUCCESS).
Proof.
  unfold Wrapper_InstallApp, DoInstallApp. rewrite eval_bind.
  destruct (eval (with_files _) s) as [hr|[[exe cmd] t]] eqn:Ec.
  { rewrite eval_ret. assert (hr = GOOPDATEINSTALL_E_FILENAME_INVALID) as ->; [|by right].
    rewrite with_files_eval in Ec. by eapply BuildCommandLine_failed. }
  rewrite eval_bind. unfold ExecuteAndWaitForInstaller.
  match goal with |- context [eval (execute_loop _ _ _ _ _) ?s1] =>
    pose proof (execute_loop_code _ (fun s => DoExecute_code guid exe cmd t lang untrusted InstallerResultInfo_init s) k true
      kMsiAlreadyRunningRetryDelayBaseMs r0 s1) as Hc end.
  destruct (eval (execute_loop _ _ _ _ _) _) as [hr r]. cbn [fst] in Hc. destruct Hc as [->|[Hf Hne]].
  - change (FAILED S_OK) with false. cbv iota.
    destruct (bool_decide_reflect (iri_type r = INSTALLER_RESULT_SUCCESS)); cbn [negb]; rewrite eval_ret; [by left|by right].
  - rewrite Hf, eval_ret. by right.
Qed.

Lemma same_state_time t s :
  let s' := exec (App_SetCurrentTimeAs t) s in
  app_state (st_app s') = app_state (st_app s) /\ next_version (st_app s') = next_version (st_app s)
  /\ same_app (st_app s) (st_app s').
Proof. done. Qed.

Lemma check_registration_spec expected existing s :
  let hr := eval (check_registration ctx expected existing) s in
  let s' := exec (check_registration ctx expected existing) s in
  app_state (st_app s') = app_state (st_app s) /\ same_app (st_app s) (st_app s')
  /\ code_ok hr
  /\ (hr = S_OK -> CheckApplicationRegistration (version (next_version (st_app s'))) expected existing (is_update (st_app s')) = S_OK).
Proof.
  cbv zeta. unfold check_registration. rewrite !exec_bind, !eval_bind.
  assert (let s1 := exec (read_registration ctx) s in
    app_state (st_app s1) = app_state (st_app s) /\ same_app (st_app s) (st_app s1) /\ code_ok (eval (read_registration ctx) s))
    as (Hst & Hsame & Hc).
  { cbv zeta. unfold read_registration, ReadInstallerRegistrationValues, exec, eval.
    destruct (GetValueString _ _ _) as [?|v]; [by cbn; split_and!; [..|right]|]. destruct (IsEmpty v); cbn; split_and!; try done; [by right|by left]. }
  destruct (FAILED (eval (read_registration ctx) s)) eqn:Ef; [rewrite exec_ret, eval_ret; split_and!; [done..|]; by intros Hx; rewrite Hx in Ef|].
  rewrite exec_bind_get_app, eval_bind_get_app, exec_ret, eval_ret. split_and!; [done|done| |done].
  unfold CheckApplicationRegistration. repeat (case_match; try (by right)). by left.
Qed.

Lemma report_failure_spec hr path r s :
  app_state (st_app s) = AppStateInstalling ->
  (hr = GOOPDATEINSTALL_E_INSTALLER_FAILED -> iri_type r <> INSTALLER_RESULT_SUCCESS) ->
  eval (report_failure ctx hr path r) s = hr /\ app_state (st_app (exec (report_failure ctx hr path r) s)) = AppStateError.
Proof.
  intros Hst Hr. unfold report_failure. cbv zeta. rewrite exec_bind_get_app, eval_bind_get_app. autorewrite with st. split; [done|].
  set (s1 := exec (when _ _) s).
  assert (same_application s s1) as Hs1.
  { unfold s1. match goal with |- same_application s (exec ?m s) => assert (preserves same_application m) as Hp; [|exact (Hp s)] end.
    apply preserves_when; [done|]. apply preserves_bind; [intros ? ? ? Hab Hbc; unfold same_application in *; congruence| |done].
    apply with_registry_same. }
  destruct (Z.eqb_spec hr GOOPDATEINSTALL_E_INSTALLER_FAILED) as [Heq|Hne]; [|apply App_Error_state].
  destruct (Report_state r s1) as [-> _]; [by rewrite Hs1|]. rewrite bool_decide_eq_false_2; [done|auto].
Qed.

Lemma Populate_type a r : iri_type (PopulateSuccessfulInstallResultInfo ctx a r) = iri_type r.
Proof. unfold PopulateSuccessfulInstallResultInfo. cbv zeta. repeat case_match; done. Qed.

Definition installed_as (a : App) (existing expected : CString) (hr : HRESULT) (a' : App) : Prop :=
  if FAILED hr then app_state a' = AppStateError
  else hr = S_OK /\ app_state a' = AppStateInstallComplete
       /\ (app_guid a <> kGoopdateGuid ->
          CheckApplicationRegistration (version (next_version a')) expected existing (is_update a) = S_OK).

Lemma installed_complete a existing expected hr a' :
  FAILED hr = false -> installed_as a existing expected hr a' -> app_state a' = AppStateInstallComplete.
Proof. unfold installed_as. intros ->. by intros (_ & ? & _). Qed.

Lemma report_success_spec a existing expected r s :
  iri_type r = INSTALLER_RESULT_SUCCESS -> app_state (st_app s) = AppStateInstalling ->
  (app_guid a <> kGoopdateGuid ->
     CheckApplicationRegistration (version (next_version (st_app s))) expected existing (is_update a) = S_OK) ->
  installed_as a existing expected S_OK
    (st_app (exec (App_ReportInstallerComplete ctx (PopulateSuccessfulInstallResultInfo ctx (st_app s) r)) s)).
Proof.
  intros Ht Hst Hreg. unfold installed_as. change (FAILED S_OK) with false. cbv iota.
  destruct (Report_state (PopulateSuccessfulInstallResultInfo ctx (st_app s) r) s Hst) as [-> ->].
  rewrite Populate_type, Ht. by rewrite bool_decide_eq_true_2.
Qed.

Lemma install_and_report_spec k existing path expected s :
  app_state (st_app s) = AppStateInstalling ->
  installed_as (st_app s) existing expected (eval (install_and_report ctx session_id k existing path expected) s)
    (st_app (exec (install_and_report ctx session_id k existing path expected) s)).
Proof.
  intros Hst. unfold install_and_report. cbv zeta. rewrite exec_bind_get_app, eval_bind_get_app, !exec_bind, !eval_bind.
  set (s1 := exec (App_SetCurrentTimeAs TIME_INSTALL_START) s).
  destruct (same_state_time TIME_INSTALL_START s) as (Hst1 & _ & Hsame1). fold s1 in Hst1, Hsame1.
  set (m := Wrapper_InstallApp _ _ _ _ _ _ _ _ _).
  assert (same_application s1 (exec m s1)) as Hs2 by apply Wrapper_same. set (s2 := exec m s1) in *.
  pose proof (Wrapper_code k (app_guid (st_app s)) path (manifest_arguments session_id (st_app s)) (App_GetInstallData (st_app s))
    (bc_display_language ctx) (untrusted_data_ (props (st_app s))) InstallerResultInfo_init s1) as Hc. fold m in Hc.
  destruct (eval m s1) as [hr r]. rewrite !exec_bind, !eval_bind.
  destruct (same_state_time TIME_INSTALL_COMPLETE s2) as (Hst3 & _ & Hsame3).
  set (s3 := exec (App_SetCurrentTimeAs TIME_INSTALL_COMPLETE) s2) in *. rewrite Hs2, Hst1 in Hst3. rewrite Hs2 in Hsame3.
  assert (same_app (st_app s) (st_app s3)) as Hsame by (destruct Hsame1, Hsame3; split; congruence). rewrite Hst in Hst3.
  clearbody s1 s2 s3. clear m Hst1 Hsame1 Hsame3 Hs2.
  destruct Hc as [[-> Ht]|[Hf Hne]].
  2:{ assert (SUCCEEDED hr = false) as -> by (rewrite SUCCEEDED_not_FAILED; by rewrite Hf). cbn [andb]. rewrite exec_ret, eval_ret, Hf.
      destruct (report_failure_spec hr path r s3 Hst3 Hne) as [He Hx]. unfold installed_as. by rewrite He, Hf. }
  change (SUCCEEDED S_OK) with true. cbn [andb].
  destruct (Z.eqb_spec kGoopdateGuid (app_guid (st_app s))) as [Hg|Hg]; cbn [negb].
  - rewrite exec_ret, eval_ret. change (FAILED S_OK) with false. cbv iota.
    rewrite exec_bind_get_app, eval_bind_get_app. autorewrite with st. apply report_success_spec; [done|done|congruence].
  - destruct (check_registration_spec expected existing s3) as (Hst4 & Hsame4 & Hc4 & Hreg4).
    set (s4 := exec (check_registration ctx expected existing) s3) in *. set (hr := eval (check_registration ctx expected existing) s3) in *.
    rewrite Hst3 in Hst4. destruct Hc4 as [Hok|[Hf Hne]].
    + rewrite Hok. change (FAILED S_OK) with false. cbv iota. rewrite exec_bind_get_app, eval_bind_get_app. autorewrite with st.
      apply report_success_spec; [done|done|]. intros _. rewrite <- (Hreg4 Hok). f_equal.
      destruct Hsame, Hsame4. congruence.
    + rewrite Hf. destruct (report_failure_spec hr path r s4 Hst4 ltac:(congruence)) as [He Hx]. unfold installed_as. by rewrite He, Hf.
Qed.

Lemma InstallApp_static_outcome k existing dir s :
  app_state (st_app s) = AppStateWaitingToInstall ->
  installed_as (st_app s) existing (from_option im_version [] (install_manifest (next_version (st_app s))))
    (eval (InstallApp_static ctx session_id k existing dir) s)
    (st_app (exec (InstallApp_static ctx session_id k existing dir) s)).
Proof.
  intros Hst. unfold InstallApp_static. cbv zeta. rewrite (exec_bind (App_Installing ctx)), (eval_bind (App_Installing ctx)).
  destruct (Installing_state s Hst) as (Hst1 & Hsame1 & Hnv). set (s1 := exec (App_Installing ctx) s) in *.
  rewrite exec_bind_get_app, eval_bind_get_app, <- Hnv. clearbody s1.
  destruct (packages (next_version (st_app s1))) as [|pm rest].
  { rewrite exec_bind, eval_bind, exec_ret, eval_ret. unfold installed_as. change (FAILED E_FAIL) with true. apply App_Error_state. }
  rewrite !exec_bind, !eval_bind. set (m := if is_update (st_app s1) then _ else _).
  assert (same_application s1 (exec m s1)) as Hs2 by (unfold m; destruct (is_update (st_app s1)); [done|apply with_registry_same]).
  destruct (FAILED (eval m s1)) eqn:Ef.
  { rewrite exec_bind, eval_bind, exec_ret, eval_ret. unfold installed_as. rewrite Ef. apply App_Error_state. }
  set (expected := from_option im_version [] _).
  pose proof (install_and_report_spec k existing (ConcatenatePath dir (filename pm)) expected (exec m s1) ltac:(by rewrite Hs2)) as Hi.
  rewrite Hs2 in Hi. unfold installed_as in *. by destruct Hsame1 as [<- <-].
Qed.

Lemma InstallManager_ends dir s :
  app_state (st_app s) = AppStateWaitingToInstall ->
  let a' := st_app (exec (InstallManager_InstallApp ctx priority session_id dir) s) in
  app_state a' = AppStateError \/ app_state a' = AppStateInstallComplete.
Proof.
  intros Hst. cbv zeta. unfold InstallManager_InstallApp. cbv zeta. rewrite exec_bind_get_app, exec_bind.
  set (k := if priority <? _ then _ else _).
  pose proof (InstallApp_static_outcome k (version (current_version (st_app s))) dir s Hst) as Ho. unfold installed_as in Ho.
  destruct (FAILED _); [by left|right]. by destruct Ho as (_ & Hc & _).
Qed.

(** C17. Installing an application that waits for it ends it: it is complete or it
    has failed, and when it is complete the version the installer registered was
    accepted, except for the updater itself. *)
Theorem InstallApp_outcome dir s :
  app_state (st_app s) = AppStateWaitingToInstall ->
  let a := st_app s in
  let a' := st_app (exec (InstallManager_InstallApp ctx priority session_id dir) s) in
  app_state a' = AppStateError \/
  (app_state a' = AppStateInstallComplete /\
   (app_guid a <> kGoopdateGuid ->
    CheckApplicationRegistration (version (next_version a')) (from_option im_version [] (install_manifest (next_version a)))
      (version (current_version a)) (is_update a) = S_OK)).
Proof.
  intros Hst. cbv zeta. unfold InstallManager_InstallApp. cbv zeta. rewrite exec_bind_get_app, exec_bind.
  set (k := if priority <? _ then _ else _).
  pose proof (InstallApp_static_outcome k (version (current_version (st_app s))) dir s Hst) as Ho. unfold installed_as in Ho.
  set (s1 := exec (InstallApp_static _ _ _ _ _) s) in *. set (hr := eval (InstallApp_static _ _ _ _ _) s) in *.
  destruct (FAILED hr); [by left|right]. destruct Ho as (_ & Hc & Hr). done.
Qed.

End Outcome.

(** ** A concrete installer *)

(** It registers version 2.0.0.0 and ends with [code]. *)
Definition sample_installers (code : Z) (Hcode : 0 <= code < 2 ^ 32) : Installers.
Proof.
  refine {|
    ins_CreateEnvironment _ vars := inr vars;
    ins_Start _ _ _ _ := S_OK;
    ins_State _ := Exited code;
    ins_Registry _ r :=
      exec (RegKey_SetValue (@GetClientKeyName guid_ops true example_guid) kRegValueProductVersion (Registry.REG_SZ (_T "2.0.0.0"))) r;
    GetMessageForSystemErrorCode _ := [];
    PathRemoveFileSpec p := Some p;
    GetTempFilenameAt _ dir prefix := dir ++ prefix;
    WideToUtf8 s := s;
    IsRunningOnXPSP2OrLater := true |}.
  - done.
  - by intros n c [= <-].
Defined.

Definition sample_installed_version : AppVersion :=
  mkAppVersion (_T "2.0.0.0") (Some sample_manifest) [Package_SetFileInfo (_T "setup.exe") 1000 (_T "0123") Package_init] [].

Definition sample_waiting_to_install : AppSt :=
  mkAppSt sample_world (set_next_version sample_installed_version (set_app_state AppStateWaitingToInstall (sample_app false))).

Definition busy_installers : Installers := sample_installers 1618 ltac:(by vm_compute).
Definition good_installers : Installers := sample_installers 0 ltac:(by vm_compute).
Definition sample_clock : RegEnv := sample_reg_env 0.

Section Busy.
#[local] Existing Instances sample_env guid_ops open_policy good_disk sample_clock busy_installers.

Lemma InstallApp_assertions_witness :
  let '(hr, r) := eval (Wrapper_InstallApp true 4 example_guid (_T "C:\setup.msi") [] [] [] [] InstallerResultInfo_init)
                    (sample_state false) in
  hr = GOOPDATEINSTALL_E_MSI_INSTALL_ALREADY_RUNNING /\ result_asserted hr r = true /\ text_asserted hr r = true.
Proof.
  pose proof (InstallApp_assertions true 4 example_guid (_T "C:\setup.msi") [] [] [] [] (sample_state false)
    ltac:(lia) ltac:(by intros n r)) as Ha.
  assert ((eval (Wrapper_InstallApp true 4 example_guid (_T "C:\setup.msi") [] [] [] [] InstallerResultInfo_init)
             (sample_state false)).1 = GOOPDATEINSTALL_E_MSI_INSTALL_ALREADY_RUNNING) as Hr by (by vm_compute).
  destruct (eval _ _) as [hr r]. exact (conj Hr Ha).
Defined.

(** Three waits of five, ten and twenty seconds. *)
Lemma retries_bounded_witness :
  let s' := exec (Wrapper_InstallApp true 4 example_guid (_T "C:\setup.msi") [] [] [] [] InstallerResultInfo_init)
              (sample_state false) in
  m_slept_ms (w_machine (st_world s')) = 35000 /\ m_slept_ms (w_machine (st_world s')) <= 0 + 5000 * (2 ^ Z.of_nat 3 - 1).
Proof.
  cbv zeta. split; [by vm_compute|].
  destruct (retries_bounded true 4 example_guid (_T "C:\setup.msi") [] [] [] [] InstallerResultInfo_init (sample_state false)
    ltac:(lia)) as [_ [_ Hs]]. exact Hs.
Defined.

End Busy.

Section Good.
#[local] Existing Instances sample_env guid_ops open_policy good_disk sample_clock good_installers.

Lemma InstallApp_outcome_witness :
  let a' := st_app (exec (InstallManager_InstallApp sample_ctx 0 [] (_T "C:\dir")) sample_waiting_to_install) in
  app_state a' = AppStateInstallComplete /\
  CheckApplicationRegistration (version (next_version a')) (_T "2.0.0.0") [] false = S_OK.
Proof.
  cbv zeta.
  assert (app_state (st_app (exec (InstallManager_InstallApp sample_ctx 0 [] (_T "C:\dir")) sample_waiting_to_install))
    = AppStateInstallComplete) as Hst by (by vm_compute).
  split; [exact Hst|].
  destruct (InstallApp_outcome sample_ctx 0 [] (_T "C:\dir") sample_waiting_to_install eq_refl) as [He|[_ Hr]].
  - rewrite Hst in He. discriminate He.
  - apply Hr. vm_compute. discriminate.
Defined.

End Good.
