(* ===== verification/Bundle.v ===== *)
(** Bundles of applications: the class [AppBundle] (omaha/goopdate/app_bundle.cc),
    its state machine (app_bundle_state*.cc), and the calls of the worker that
    start asynchronous work ([Worker::*Async], worker.cc, called through
    [Model], model.cc).

    Every method runs under the lock of the model and is one step.  The
    asynchronous work itself is in Worker.v. *)

From S2P Require Import Prelude Hresult CStrings Registry Files Machine Protocol WebClient Policy AppRegistry Package AppModel.
From S2P Require Import AppManager UpdateResponse AppFsm.

Definition kDefaultInstallSource : CString := _T "unknown".
Definition INSTALL_PRIORITY_LOW : Z := 0.
Definition INSTALL_PRIORITY_HIGH : Z := 10.
Definition ERROR_INVALID_INDEX : Z := 1413.

(** The subclasses of [AppBundleState], with their members. *)
Inductive AppBundleState :=
| AppBundleStateInit
| AppBundleStateInitialized (has_new_app_ has_installed_app_ has_reloaded_policy_managers_ : bool)
| AppBundleStateBusy
| AppBundleStateReady
| AppBundleStatePaused (is_async_call_complete_ : bool)
| AppBundleStateStopped.

#[export] Instance AppBundleState_eq_dec : EqDecision AppBundleState.
Proof. solve_decision. Defined.

(** The functions the worker defers to a thread.  A package is given by the
    position of its application and its name. *)
Inductive WorkItem :=
| Work_CheckForUpdate
| Work_Download
| Work_DownloadAndInstall
| Work_UpdateAllApps
| Work_DownloadPackage (app_index : nat) (package_name : CString).

#[export] Instance WorkItem_eq_dec : EqDecision WorkItem.
Proof. solve_decision. Defined.

Record BundleProps := mkBundleProps {
  b_display_name : CString;
  install_source_ : CString;
  origin_url_ : CString;
  offline_dir_ : CString;
  session_id_ : CString;
  request_id_ : CString;
  is_auto_update_ : bool;
  send_pings_ : bool;
  priority_ : Z;
  display_language_ : CString
}.

(** Whether the bundle holds the tokens of its client. *)
Record Tokens := mkTokens {
  impersonation_token_ : bool;
  primary_token_ : bool;
  alt_impersonation_token_ : bool;
  alt_primary_token_ : bool
}.

Record AppBundle := mkAppBundle {
  apps_ : list App;
  uninstalled_apps_ : list App;
  app_bundle_state_ : AppBundleState;
  user_work_item_ : option WorkItem;
  is_machine_ : bool;
  bundle_props : BundleProps;
  tokens : Tokens;
  update_check_client_ : option WebServicesClient
}.

(** [AppBundle::AppBundle]. *)
Definition AppBundle_init (is_machine : bool) (request_id display_language : CString) : AppBundle :=
  mkAppBundle [] [] AppBundleStateInit None is_machine
    (mkBundleProps [] kDefaultInstallSource [] [] [] request_id false true INSTALL_PRIORITY_HIGH display_language)
    (mkTokens false false false false) None.

(** The bundle with the world it is in and the number of calls that left the
    program. *)
Record BundleSt := mkBundleSt { bs_world : World; bs_bundle : AppBundle; bs_calls : nat }.

Abbreviation BundleM := (St BundleSt).

(** What the bundle calls and the sources do not define: Windows' tokens and
    thread pool, random names, the registration hooks of applications and the
    loading of policies, by the number of the call. *)
Class BundleEnv := {
  impersonate : nat -> HRESULT;
  GetCallerToken : nat -> HRESULT;
  TokenIsAdmin : nat -> bool;
  CreatePrimaryToken : nat -> HRESULT;
  OpenProcess : nat -> HRESULT;
  DuplicateTokenIntoCurrentProcess : nat -> HRESULT;
  QueueUserWorkItem : nat -> HRESULT;
  NewGuidString : nat -> CString;
  GetUpdateCheckUrl : CString;
  LoadPolicies_result : nat -> HRESULT;
  CreateExternalUpdaterActiveEvent : nat -> CString -> HRESULT;
  RunRegistrationUpdateHook : nat -> CString -> Registry -> Registry;
  RunAllRegistrationUpdateHooks : nat -> Registry -> Registry;
  IsLanguageSupported : CString -> bool
}.

Definition set_apps (l : list App) (b : AppBundle) : AppBundle :=
  mkAppBundle l (uninstalled_apps_ b) (app_bundle_state_ b) (user_work_item_ b) (is_machine_ b) (bundle_props b)
    (tokens b) (update_check_client_ b).
Definition set_uninstalled_apps (l : list App) (b : AppBundle) : AppBundle :=
  mkAppBundle (apps_ b) l (app_bundle_state_ b) (user_work_item_ b) (is_machine_ b) (bundle_props b)
    (tokens b) (update_check_client_ b).
Definition set_bundle_state (st : AppBundleState) (b : AppBundle) : AppBundle :=
  mkAppBundle (apps_ b) (uninstalled_apps_ b) st (user_work_item_ b) (is_machine_ b) (bundle_props b)
    (tokens b) (update_check_client_ b).
Definition set_work_item (w : option WorkItem) (b : AppBundle) : AppBundle :=
  mkAppBundle (apps_ b) (uninstalled_apps_ b) (app_bundle_state_ b) w (is_machine_ b) (bundle_props b)
    (tokens b) (update_check_client_ b).
Definition set_bundle_props (p : BundleProps) (b : AppBundle) : AppBundle :=
  mkAppBundle (apps_ b) (uninstalled_apps_ b) (app_bundle_state_ b) (user_work_item_ b) (is_machine_ b) p
    (tokens b) (update_check_client_ b).
Definition set_tokens (t : Tokens) (b : AppBundle) : AppBundle :=
  mkAppBundle (apps_ b) (uninstalled_apps_ b) (app_bundle_state_ b) (user_work_item_ b) (is_machine_ b) (bundle_props b)
    t (update_check_client_ b).
Definition set_update_check_client (c : option WebServicesClient) (b : AppBundle) : AppBundle :=
  mkAppBundle (apps_ b) (uninstalled_apps_ b) (app_bundle_state_ b) (user_work_item_ b) (is_machine_ b) (bundle_props b)
    (tokens b) c.

Definition modify_bundle (f : AppBundle -> AppBundle) : BundleM unit :=
  modify (fun s => mkBundleSt (bs_world s) (f (bs_bundle s)) (bs_calls s)).
Definition get_bundle : BundleM AppBundle := gets bs_bundle.
Definition set_props_with (f : BundleProps -> BundleProps) : BundleM unit :=
  modify_bundle (fun b => set_bundle_props (f (bundle_props b)) b).
(** A call that leaves the program. *)
Definition ext_call {A} (f : nat -> A) : BundleM A := fun s =>
  (f (bs_calls s), mkBundleSt (bs_world s) (bs_bundle s) (S (bs_calls s))).
(** A computation on the registry. *)
Definition on_registry {A} (m : RegM A) : BundleM A := fun s =>
  let w := bs_world s in
  let '(a, r) := m (m_registry (w_machine w)) in
  (a, mkBundleSt (mkWorld (w_trace w) (w_tick w) (w_error_extra_code1 w) (set_registry r (w_machine w)))
        (bs_bundle s) (bs_calls s)).

(** What its applications read of a bundle. *)
Definition bundle_ctx (b : AppBundle) : BundleCtx :=
  let p := bundle_props b in
  mkBundleCtx (is_machine_ b) (is_auto_update_ p) (display_language_ p) (negb (IsEmpty (offline_dir_ p)))
    (Z.of_nat (length (apps_ b)))
    (match update_check_client_ b with Some c => http_xdaynum_header_value_ c | None => -1 end)
    (match update_check_client_ b with Some c => http_xdaystart_header_value_ c | None => -1 end).

(** A method of one application, of all of them in order. *)
Definition on_app (i : nat) (m : BundleCtx -> AppM unit) : BundleM unit := fun s =>
  let b := bs_bundle s in
  match apps_ b !! i with
  | None => (tt, s)
  | Some a =>
      let s' := exec (m (bundle_ctx b)) (mkAppSt (bs_world s) a) in
      (tt, mkBundleSt (st_world s') (set_apps (<[i := st_app s']> (apps_ b)) b) (bs_calls s))
  end.
Definition for_apps (m : BundleCtx -> AppM unit) : BundleM unit :=
  b ← get_bundle;
  for_each (fun i => on_app i m) (seq 0 (length (apps_ b))).

(** ** Properties *)

Definition props_display_name (x : CString) (p : BundleProps) : BundleProps :=
  mkBundleProps x (install_source_ p) (origin_url_ p) (offline_dir_ p) (session_id_ p) (request_id_ p)
    (is_auto_update_ p) (send_pings_ p) (priority_ p) (display_language_ p).
Definition props_install_source (x : CString) (p : BundleProps) : BundleProps :=
  mkBundleProps (b_display_name p) x (origin_url_ p) (offline_dir_ p) (session_id_ p) (request_id_ p)
    (is_auto_update_ p) (send_pings_ p) (priority_ p) (display_language_ p).
Definition props_origin_url (x : CString) (p : BundleProps) : BundleProps :=
  mkBundleProps (b_display_name p) (install_source_ p) x (offline_dir_ p) (session_id_ p) (request_id_ p)
    (is_auto_update_ p) (send_pings_ p) (priority_ p) (display_language_ p).
Definition props_offline_dir (x : CString) (p : BundleProps) : BundleProps :=
  mkBundleProps (b_display_name p) (install_source_ p) (origin_url_ p) x (session_id_ p) (request_id_ p)
    (is_auto_update_ p) (send_pings_ p) (priority_ p) (display_language_ p).
Definition props_session_id (x : CString) (p : BundleProps) : BundleProps :=
  mkBundleProps (b_display_name p) (install_source_ p) (origin_url_ p) (offline_dir_ p) x (request_id_ p)
    (is_auto_update_ p) (send_pings_ p) (priority_ p) (display_language_ p).
Definition props_is_auto_update (x : bool) (p : BundleProps) : BundleProps :=
  mkBundleProps (b_display_name p) (install_source_ p) (origin_url_ p) (offline_dir_ p) (session_id_ p) (request_id_
    p) x (send_pings_ p) (priority_ p) (display_language_ p).
Definition props_send_pings (x : bool) (p : BundleProps) : BundleProps :=
  mkBundleProps (b_display_name p) (install_source_ p) (origin_url_ p) (offline_dir_ p) (session_id_ p) (request_id_
    p) (is_auto_update_ p) x (priority_ p) (display_language_ p).
Definition props_priority (x : Z) (p : BundleProps) : BundleProps :=
  mkBundleProps (b_display_name p) (install_source_ p) (origin_url_ p) (offline_dir_ p) (session_id_ p) (request_id_
    p) (is_auto_update_ p) (send_pings_ p) x (display_language_ p).
Definition props_display_language (x : CString) (p : BundleProps) : BundleProps :=
  mkBundleProps (b_display_name p) (install_source_ p) (origin_url_ p) (offline_dir_ p) (session_id_ p) (request_id_
    p) (is_auto_update_ p) (send_pings_ p) (priority_ p) x.

Section Bundle.
Context `{Env, GroupPolicy, GuidOps, RegEnv, BundleEnv}.

Definition put_displayName (display_name : CString) : BundleM HRESULT :=
  set_props_with (props_display_name display_name);; mret S_OK.
Definition put_installSource (install_source : CString) : BundleM HRESULT :=
  set_props_with (props_install_source install_source);; mret S_OK.
Definition put_originURL (origin_url : CString) : BundleM HRESULT :=
  set_props_with (props_origin_url origin_url);; mret S_OK.
Definition put_offlineDirectory (offline_dir : CString) : BundleM HRESULT :=
  set_props_with (props_offline_dir offline_dir);; mret S_OK.
Definition put_sendPings (send_pings : bool) : BundleM HRESULT :=
  set_props_with (props_send_pings send_pings);; mret S_OK.
Definition put_priority (priority : Z) : BundleM HRESULT :=
  if (priority <? INSTALL_PRIORITY_LOW) || (INSTALL_PRIORITY_HIGH <? priority) then mret E_INVALIDARG
  else set_props_with (props_priority priority);; mret S_OK.
Definition put_displayLanguage (language : CString) : BundleM HRESULT :=
  if IsEmpty language then mret E_INVALIDARG
  else if negb (IsLanguageSupported language) then mret E_INVALIDARG
  else set_props_with (props_display_language language);; mret S_OK.

Definition get_Count (b : AppBundle) : HRESULT + Z :=
  let num_apps := Z.of_nat (length (apps_ b)) in
  if LONG_MAX <? num_apps then inl E_FAIL else inr num_apps.
Definition get_Item (index : Z) (b : AppBundle) : HRESULT + App :=
  if (index <? 0) || (Z.of_nat (length (apps_ b)) <=? index) then inl (HRESULT_FROM_WIN32 ERROR_INVALID_INDEX)
  else match apps_ b !! Z.to_nat index with
       | Some a => inr a
       | None => inl (HRESULT_FROM_WIN32 ERROR_INVALID_INDEX)
       end.

(** ** Tokens *)

Definition CaptureCallerImpersonationToken : BundleM HRESULT :=
  b ← get_bundle;
  if negb (is_machine_ b) then mret S_OK
  else
    hr ← ext_call GetCallerToken;
    let set x := modify_bundle (fun b =>
      set_tokens (mkTokens x (primary_token_ (tokens b)) (alt_impersonation_token_ (tokens b)) (alt_primary_token_ (tokens b))) b) in
    if FAILED hr then set false;; mret hr else set true;; mret S_OK.

Definition CaptureCallerPrimaryToken : BundleM HRESULT :=
  b ← get_bundle;
  if negb (is_machine_ b) then mret S_OK
  else
    is_admin ← ext_call TokenIsAdmin;
    if negb is_admin then mret E_UNEXPECTED
    else
      hr ← ext_call CreatePrimaryToken;
      let set x := modify_bundle (fun b =>
        set_tokens (mkTokens (impersonation_token_ (tokens b)) x (alt_impersonation_token_ (tokens b)) (alt_primary_token_ (tokens b))) b) in
      if FAILED hr then set false;; mret hr else set true;; mret S_OK.

(** ** The worker's side of a call: [Worker::*Async] through [Model] *)

Definition QueueDeferredFunctionCall (w : WorkItem) : BundleM HRESULT :=
  hr ← ext_call QueueUserWorkItem;
  if FAILED hr then mret hr
  else modify_bundle (set_work_item (Some w));; mret S_OK.

(** Queueing the work, then the applications. *)
Definition start_async (w : WorkItem) (queue : BundleM unit) : BundleM HRESULT :=
  hr ← QueueDeferredFunctionCall w;
  if FAILED hr then mret hr else queue;; mret S_OK.

Definition CheckForUpdateAsync : BundleM HRESULT := start_async Work_CheckForUpdate (for_apps App_QueueUpdateCheck).
Definition DownloadAsync : BundleM HRESULT := start_async Work_Download (for_apps App_QueueDownload).
Definition DownloadAndInstallAsync : BundleM HRESULT :=
  start_async Work_DownloadAndInstall (for_apps App_QueueDownloadOrInstall).
Definition UpdateAllAppsAsync : BundleM HRESULT := start_async Work_UpdateAllApps (for_apps App_QueueUpdateCheck).
Definition DownloadPackageAsync (app_index : nat) (package_name : CString) : BundleM HRESULT :=
  start_async (Work_DownloadPackage app_index package_name) (on_app app_index App_QueueDownload).

(** The downloads in flight are cancelled by the network; what they return then
    is theirs. *)
Definition Worker_Stop : BundleM HRESULT := for_apps App_Cancel;; mret S_OK.
Definition Worker_Pause : BundleM HRESULT := mret E_NOTIMPL.
Definition Worker_Resume : BundleM HRESULT := mret E_NOTIMPL.

(** ** The states *)

Definition ChangeBundleState (st : AppBundleState) : BundleM unit := modify_bundle (set_bundle_state st).

(** [AppBundleState::HandleInvalidStateTransition]: the methods a class does not
    override. *)
Definition InvalidBundleCall : BundleM HRESULT := mret GOOPDATE_E_CALL_UNEXPECTED.

(** The work is started and the bundle is busy. *)
Definition become_busy (start : BundleM HRESULT) : BundleM HRESULT :=
  hr ← start;
  if FAILED hr then mret hr else ChangeBundleState AppBundleStateBusy;; mret S_OK.

Definition IsAppInBundle (b : AppBundle) (guid : GUID) : bool := existsb (fun a => app_guid a =? guid) (apps_ b).

Definition AddApp (a : App) : BundleM HRESULT :=
  b ← get_bundle;
  if IsAppInBundle b (app_guid a) then mret GOOPDATE_E_CALL_UNEXPECTED
  else modify_bundle (fun b => set_apps (apps_ b ++ [a]) b);; mret S_OK.

(** *** [AppBundleStateInit] *)

Definition Init_put_altTokens : BundleM HRESULT :=
  hr ← ext_call OpenProcess;
  if FAILED hr then mret hr
  else
    b ← get_bundle;
    let t := tokens b in
    if alt_impersonation_token_ t || alt_primary_token_ t then mret E_UNEXPECTED
    else
      hr ← ext_call DuplicateTokenIntoCurrentProcess;
      if FAILED hr then mret hr
      else
        modify_bundle (fun b => set_tokens (mkTokens (impersonation_token_ t) (primary_token_ t) true false) b);;
        hr ← ext_call DuplicateTokenIntoCurrentProcess;
        modify_bundle (fun b => set_tokens (mkTokens (impersonation_token_ t) (primary_token_ t) true (SUCCEEDED hr)) b);;
        mret hr.

(** [None] is a null pointer. *)
Definition Init_put_sessionId (session_id : option CString) : BundleM HRESULT :=
  match session_id with
  | None => mret E_POINTER
  | Some session_id => set_props_with (props_session_id session_id);; mret S_OK
  end.

(** [WebServicesClient::Initialize] does not fail. *)
Definition Init_Initialize : BundleM HRESULT :=
  b ← get_bundle;
  (if IsEmpty (session_id_ (bundle_props b))
   then guid ← ext_call NewGuidString; set_props_with (props_session_id guid)
   else mret tt);;
  hr ← CaptureCallerImpersonationToken;
  if FAILED hr then mret hr
  else
    modify_bundle (fun b => set_update_check_client
      (Some (WebServicesClient_Initialize GetUpdateCheckUrl [] true (WebServicesClient_init (is_machine_ b)))) b);;
    ChangeBundleState (AppBundleStateInitialized false false false);;
    mret S_OK.

(** *** [AppBundleStateInitialized] *)

(** The policies are loaded once. *)
Definition reload_policies (needed : bool) (reloaded : bool) : BundleM bool :=
  if negb reloaded && needed then hr ← ext_call LoadPolicies_result; mret (SUCCEEDED hr) else mret reloaded.

(** The application is read after it has been added; nothing is written in
    between. *)
Definition Initialized_CreateApp (has_new has_installed reloaded : bool) (app_id : CString) : BundleM HRESULT :=
  if has_installed then InvalidBundleCall
  else
    match StringToGuidSafe app_id with
    | None => mret E_INVALIDARG
    | Some guid =>
        b ← get_bundle;
        r ← on_registry get;
        hr ← AddApp (ReadDayOfInstall (is_machine_ b) (ReadAppInstallTimeDiff (is_machine_ b) (App_init guid false) r) r);
        if FAILED hr then mret hr
        else
          reloaded ← reload_policies (negb (is_machine_ b)) reloaded;
          ChangeBundleState (AppBundleStateInitialized true has_installed reloaded);;
          mret S_OK
    end.

(** Whether an application was added. *)
Definition AddInstalledApp (app_id : CString) : BundleM HRESULT :=
  match StringToGuidSafe app_id with
  | None => mret E_INVALIDARG
  | Some guid =>
      b ← get_bundle;
      if IsAppInBundle b guid then mret GOOPDATE_E_CALL_UNEXPECTED
      else
        hr ← ext_call (fun n => CreateExternalUpdaterActiveEvent n app_id);
        if FAILED hr && (hr =? GOOPDATE_E_APP_USING_EXTERNAL_UPDATER) then mret hr
        else
          '(hr, a) ← on_registry (ReadAppPersistentData (is_machine_ b) (display_language_ (bundle_props b)) (App_init guid true));
          if FAILED hr then mret hr
          else
            hr ← AddApp a;
            if FAILED hr then mret hr else mret S_OK
  end.

Definition Initialized_CreateInstalledApp (has_new has_installed reloaded : bool) (app_id : CString) : BundleM HRESULT :=
  if has_new then InvalidBundleCall
  else
    n ← ext_call id;
    on_registry (modify (RunRegistrationUpdateHook n app_id));;
    hr ← AddInstalledApp app_id;
    if FAILED hr then mret hr
    else
      reloaded ← reload_policies true reloaded;
      ChangeBundleState (AppBundleStateInitialized has_new true reloaded);;
      mret S_OK.

(** Applications that cannot be added are skipped. *)
Fixpoint add_installed_apps (app_ids : list CString) (has_installed : bool) : BundleM bool :=
  match app_ids with
  | [] => mret has_installed
  | app_id :: app_ids => hr ← AddInstalledApp app_id; add_installed_apps app_ids (has_installed || negb (FAILED hr))
  end.

Definition Initialized_CreateAllInstalledApps (has_new has_installed reloaded : bool) : BundleM HRESULT :=
  b ← get_bundle;
  if (0 <? length (apps_ b))%nat then InvalidBundleCall
  else
    n ← ext_call id;
    on_registry (modify (RunAllRegistrationUpdateHooks n));;
    r ← on_registry get;
    match GetRegisteredApps (is_machine_ b) r with
    | inl hr => mret hr
    | inr registered_app_ids =>
        has_installed ← add_installed_apps registered_app_ids has_installed;
        reloaded ← reload_policies true reloaded;
        ChangeBundleState (AppBundleStateInitialized has_new has_installed reloaded);;
        mret S_OK
    end.

Definition Initialized_CheckForUpdate : BundleM HRESULT :=
  b ← get_bundle;
  if (length (apps_ b) =? 0)%nat then InvalidBundleCall else become_busy CheckForUpdateAsync.

(** [createAllInstalledApps] of the bundle, which is in this state. *)
Definition Initialized_UpdateAllApps (has_new has_installed reloaded : bool) : BundleM HRESULT :=
  b ← get_bundle;
  if negb (length (apps_ b) =? 0)%nat then InvalidBundleCall
  else
    set_props_with (props_is_auto_update true);;
    hr ← ext_call impersonate;
    if FAILED hr then mret hr
    else
      hr ← Initialized_CreateAllInstalledApps has_new has_installed reloaded;
      if FAILED hr then mret hr else become_busy UpdateAllAppsAsync.

(** The application with the identifier and its package with the name. *)
Definition DoDownloadPackage (app_id package_name : CString) : BundleM HRESULT :=
  match StringToGuidSafe app_id with
  | None => mret E_INVALIDARG
  | Some guid =>
      b ← get_bundle;
      match list_find (fun a => app_guid a = guid) (apps_ b) with
      | None => mret E_INVALIDARG
      | Some (i, a) =>
          if existsb (fun p => bool_decide (filename p = package_name)) (packages (current_version a))
          then become_busy (DownloadPackageAsync i package_name)
          else mret E_INVALIDARG
      end
  end.

Definition Initialized_DownloadPackage (has_new : bool) (app_id package_name : CString) : BundleM HRESULT :=
  b ← get_bundle;
  if (length (apps_ b) =? 0)%nat || has_new then InvalidBundleCall else DoDownloadPackage app_id package_name.

(** *** [AppBundleStateBusy], [AppBundleStatePaused] *)

Definition Busy_Pause : BundleM HRESULT :=
  hr ← Worker_Pause;
  if FAILED hr then mret hr else ChangeBundleState (AppBundleStatePaused false);; mret S_OK.
Definition Busy_Stop : BundleM HRESULT :=
  hr ← Worker_Stop;
  if FAILED hr then mret hr else ChangeBundleState AppBundleStateStopped;; mret S_OK.
Definition Paused_Resume (is_async_call_complete : bool) : BundleM HRESULT :=
  hr ← Worker_Resume;
  if FAILED hr then mret hr
  else ChangeBundleState (if is_async_call_complete then AppBundleStateReady else AppBundleStateBusy);; mret S_OK.

(** ** The methods of the bundle *)

Definition with_bundle_state (k : AppBundleState -> BundleM HRESULT) : BundleM HRESULT :=
  b ← get_bundle; k (app_bundle_state_ b).
(** A method that acts as its client. *)
Definition impersonating (m : BundleM HRESULT) : BundleM HRESULT :=
  hr ← ext_call impersonate; if FAILED hr then mret hr else m.

Definition put_altTokens : BundleM HRESULT :=
  with_bundle_state (fun st => match st with AppBundleStateInit => Init_put_altTokens | _ => InvalidBundleCall end).
Definition put_sessionId (session_id : option CString) : BundleM HRESULT :=
  with_bundle_state (fun st => match st with AppBundleStateInit => Init_put_sessionId session_id | _ => InvalidBundleCall end).
Definition initialize : BundleM HRESULT :=
  with_bundle_state (fun st => match st with AppBundleStateInit => Init_Initialize | _ => InvalidBundleCall end).
Definition createApp (app_id : CString) : BundleM HRESULT :=
  impersonating (with_bundle_state (fun st =>
    match st with AppBundleStateInitialized n i p => Initialized_CreateApp n i p app_id | _ => InvalidBundleCall end)).
Definition createInstalledApp (app_id : CString) : BundleM HRESULT :=
  impersonating (with_bundle_state (fun st =>
    match st with AppBundleStateInitialized n i p => Initialized_CreateInstalledApp n i p app_id | _ => InvalidBundleCall end)).
Definition createAllInstalledApps : BundleM HRESULT :=
  impersonating (with_bundle_state (fun st =>
    match st with AppBundleStateInitialized n i p => Initialized_CreateAllInstalledApps n i p | _ => InvalidBundleCall end)).
Definition checkForUpdate : BundleM HRESULT :=
  impersonating (with_bundle_state (fun st =>
    match st with AppBundleStateInitialized _ _ _ => Initialized_CheckForUpdate | _ => InvalidBundleCall end)).
Definition download : BundleM HRESULT :=
  impersonating (with_bundle_state (fun st =>
    match st with
    | AppBundleStateReady => become_busy DownloadAsync
    | AppBundleStateBusy => mret GOOPDATE_E_NON_BLOCKING_CALL_PENDING
    | _ => InvalidBundleCall
    end)).
Definition install : BundleM HRESULT :=
  hr ← CaptureCallerPrimaryToken;
  if FAILED hr then mret hr
  else impersonating (with_bundle_state (fun st =>
    match st with
    | AppBundleStateReady => become_busy DownloadAndInstallAsync
    | AppBundleStateBusy => mret GOOPDATE_E_NON_BLOCKING_CALL_PENDING
    | _ => InvalidBundleCall
    end)).
Definition updateAllApps : BundleM HRESULT :=
  impersonating (with_bundle_state (fun st =>
    match st with AppBundleStateInitialized n i p => Initialized_UpdateAllApps n i p | _ => InvalidBundleCall end)).
Definition stop : BundleM HRESULT :=
  with_bundle_state (fun st =>
    match st with
    | AppBundleStateInitialized _ _ _ => ChangeBundleState AppBundleStateStopped;; mret S_OK
    | AppBundleStateBusy => Busy_Stop
    | AppBundleStateStopped => mret S_OK
    | _ => InvalidBundleCall
    end).
Definition pause : BundleM HRESULT :=
  with_bundle_state (fun st =>
    match st with
    | AppBundleStateInitialized _ _ _ => ChangeBundleState (AppBundleStatePaused false);; mret S_OK
    | AppBundleStateBusy => Busy_Pause
    | AppBundleStateReady | AppBundleStatePaused _ => mret S_OK
    | _ => InvalidBundleCall
    end).
Definition resume : BundleM HRESULT :=
  with_bundle_state (fun st =>
    match st with
    | AppBundleStatePaused is_async_call_complete => Paused_Resume is_async_call_complete
    | AppBundleStateReady => mret S_OK
    | _ => InvalidBundleCall
    end).
Definition downloadPackage (app_id package_name : CString) : BundleM HRESULT :=
  impersonating (with_bundle_state (fun st =>
    match st with
    | AppBundleStateInitialized n _ _ => Initialized_DownloadPackage n app_id package_name
    | AppBundleStateReady => DoDownloadPackage app_id package_name
    | AppBundleStateBusy => mret GOOPDATE_E_NON_BLOCKING_CALL_PENDING
    | _ => InvalidBundleCall
    end)).

Definition IsBusy (b : AppBundle) : bool := match app_bundle_state_ b with AppBundleStateBusy => true | _ => false end.

(** The state's part of the completion of the work. *)
Definition state_CompleteAsyncCall : BundleM HRESULT :=
  with_bundle_state (fun st =>
    match st with
    | AppBundleStateBusy => ChangeBundleState AppBundleStateReady;; mret S_OK
    | AppBundleStatePaused _ => ChangeBundleState (AppBundleStatePaused true);; mret S_OK
    | AppBundleStateStopped => mret S_OK
    | _ => InvalidBundleCall
    end).
Definition CompleteAsyncCall : BundleM unit := state_CompleteAsyncCall;; modify_bundle (set_work_item None).

Definition CreateUninstalledApp (app_id : CString) : BundleM (HRESULT * nat) :=
  match StringToGuidSafe app_id with
  | None => mret (E_INVALIDARG, 0%nat)
  | Some guid =>
      b ← get_bundle;
      '(hr, a) ← on_registry (ReadUninstalledAppPersistentData (is_machine_ b) (display_language_ (bundle_props b)) (App_init guid true));
      if FAILED hr then mret (hr, 0%nat)
      else
        modify_bundle (fun b => set_uninstalled_apps (uninstalled_apps_ b ++ [a]) b);;
        mret (S_OK, length (uninstalled_apps_ b))
  end.

End Bundle.
