(* ===== verification/BundleFacts.v ===== *)
(** Bundles behave: the step relation of a bundle that its client calls while
    the worker works on its applications, an abstract machine that says what the
    bundle promises its clients, and the proof that the bundle implements it. *)

From S2P Require Import Prelude Hresult CStrings Registry Machine Protocol WebClient Policy PolicyFacts AppRegistry Package AppModel.
From S2P Require Import AppManager AppManagerFacts Sample UpdateResponse UpdateFacts AppFsm AppRun AppTheorems Bundle.

(** ** The calls of a client *)

Inductive BundleCall :=
| put_displayName_ (x : CString) | put_installSource_ (x : CString) | put_originURL_ (x : CString)
| put_offlineDirectory_ (x : CString) | put_sendPings_ (x : bool) | put_priority_ (x : Z)
| put_displayLanguage_ (x : CString) | put_altTokens_ | put_sessionId_ (x : option CString)
| initialize_ | createApp_ (app_id : CString) | createInstalledApp_ (app_id : CString) | createAllInstalledApps_
| checkForUpdate_ | download_ | install_ | updateAllApps_ | stop_ | pause_ | resume_
| downloadPackage_ (app_id package_name : CString).

Create HintDb sim.

Section Steps.
Context `{Env, GroupPolicy, GuidOps, RegEnv, BundleEnv}.

Definition bundle_call (c : BundleCall) : BundleM HRESULT :=
  match c with
  | put_displayName_ x => put_displayName x
  | put_installSource_ x => put_installSource x
  | put_originURL_ x => put_originURL x
  | put_offlineDirectory_ x => put_offlineDirectory x
  | put_sendPings_ x => put_sendPings x
  | put_priority_ x => put_priority x
  | put_displayLanguage_ x => put_displayLanguage x
  | put_altTokens_ => put_altTokens
  | put_sessionId_ x => put_sessionId x
  | initialize_ => initialize
  | createApp_ app_id => createApp app_id
  | createInstalledApp_ app_id => createInstalledApp app_id
  | createAllInstalledApps_ => createAllInstalledApps
  | checkForUpdate_ => checkForUpdate
  | download_ => download
  | install_ => install
  | updateAllApps_ => updateAllApps
  | stop_ => stop
  | pause_ => pause
  | resume_ => resume
  | downloadPackage_ app_id package_name => downloadPackage app_id package_name
  end.

(** The client calls at any time.  While work is pending the worker calls the
    applications, adds uninstalled ones, uses the bundle's network client and
    completes.  The client changes properties of applications, and the world
    changes. *)
Inductive bundle_step : BundleSt -> BundleSt -> Prop :=
| bstep_call c s : bundle_step s (exec (bundle_call c) s)
| bstep_app i e s :
    is_Some (user_work_item_ (bs_bundle s)) -> event_ok e ->
    bundle_step s (exec (on_app i (fun ctx => App_call ctx e)) s)
| bstep_complete s : is_Some (user_work_item_ (bs_bundle s)) -> bundle_step s (exec CompleteAsyncCall s)
| bstep_uninstalled app_id s :
    is_Some (user_work_item_ (bs_bundle s)) -> bundle_step s (exec (CreateUninstalledApp app_id) s)
| bstep_network c s :
    is_Some (user_work_item_ (bs_bundle s)) ->
    bundle_step s (exec (modify_bundle (set_update_check_client (Some c))) s)
| bstep_app_property i a a' s :
    apps_ (bs_bundle s) !! i = Some a -> prepared a a' ->
    bundle_step s (exec (modify_bundle (fun b => set_apps (<[i := a']> (apps_ b)) b)) s)
| bstep_world w n s : bundle_step s (mkBundleSt w (bs_bundle s) n).

(** ** What a bundle promises *)

Inductive Phase :=
| PNew
| POpen (kind : option bool)
| PBusy
| PReady
| PPaused
| PStopped.

(** The applications are given by their identifiers and whether they are
    updates; an open bundle holds only updates or only installations. *)
Record Abs := mkAbs { abs_phase : Phase; abs_pending : option WorkItem; abs_apps : list (GUID * bool) }.

Definition abs_init : Abs := mkAbs PNew None [].

Inductive abs_step : Abs -> Abs -> Prop :=
| abs_open : abs_step (mkAbs PNew None []) (mkAbs (POpen None) None [])
| abs_add k g u l :
    k = None \/ k = Some u -> g ∉ l.*1 -> abs_step (mkAbs (POpen k) None l) (mkAbs (POpen (Some u)) None (l ++ [(g, u)]))
| abs_start_open k w l : abs_step (mkAbs (POpen k) None l) (mkAbs PBusy (Some w) l)
| abs_start_ready w l : abs_step (mkAbs PReady None l) (mkAbs PBusy (Some w) l)
| abs_finish w l : abs_step (mkAbs PBusy (Some w) l) (mkAbs PReady None l)
| abs_stop_open k l : abs_step (mkAbs (POpen k) None l) (mkAbs PStopped None l)
| abs_stop_busy w l : abs_step (mkAbs PBusy (Some w) l) (mkAbs PStopped (Some w) l)
| abs_finish_stopped w l : abs_step (mkAbs PStopped (Some w) l) (mkAbs PStopped None l)
| abs_pause_open k l : abs_step (mkAbs (POpen k) None l) (mkAbs PPaused None l).

Definition abs_phase_of (st : AppBundleState) : Phase :=
  match st with
  | AppBundleStateInit => PNew
  | AppBundleStateInitialized has_new has_installed _ =>
      POpen (if has_new then Some false else if has_installed then Some true else None)
  | AppBundleStateBusy => PBusy
  | AppBundleStateReady => PReady
  | AppBundleStatePaused _ => PPaused
  | AppBundleStateStopped => PStopped
  end.

Definition app_entry (a : App) : GUID * bool := (app_guid a, is_update a).

Definition abs (b : AppBundle) : Abs :=
  mkAbs (abs_phase_of (app_bundle_state_ b)) (user_work_item_ b) (app_entry <$> apps_ b).

(** What holds besides. *)
Definition state_ok (st : AppBundleState) (pending : option WorkItem) (apps : list App) : Prop :=
  match st with
  | AppBundleStateInit => pending = None /\ apps = []
  | AppBundleStateInitialized has_new has_installed _ =>
      pending = None /\ (has_new = true -> has_installed = false /\ apps <> [])
  | AppBundleStateBusy => is_Some pending
  | AppBundleStateReady | AppBundleStatePaused _ => pending = None
  | AppBundleStateStopped => True
  end.

Definition auto_of (b : AppBundle) : bool := is_auto_update_ (bundle_props b).

(** Steps of an application, whatever happens to the world meanwhile. *)
Definition moves (machine auto : bool) (a a' : App) : Prop :=
  forall w w', rtc (app_step machine auto) (mkAppSt w a) (mkAppSt w' a').

(** The state fits the pending work, and every application runs as one. *)
Record bundle_ok (b : AppBundle) : Prop := {
  ok_state : state_ok (app_bundle_state_ b) (user_work_item_ b) (apps_ b);
  ok_apps : Forall (fun a => moves (is_machine_ b) (auto_of b) (App_init (app_guid a) (is_update a)) a) (apps_ b)
}.

#[local] Instance moves_refl machine auto : Reflexive (moves machine auto).
Proof. intros a w w'. apply rtc_once, step_other, prepared_refl. Qed.

#[local] Instance moves_trans machine auto : Transitive (moves machine auto).
Proof. intros a b c Hab Hbc w w'. etrans; [exact (Hab w w)|apply Hbc]. Qed.

Lemma moves_once machine auto s s' : app_step machine auto s s' -> moves machine auto (st_app s) (st_app s').
Proof.
  intros Hs w w'. eapply rtc_l; [apply step_other; cbn; apply (prepared_refl (st_app s))|].
  destruct s as [w1 a], s' as [w2 a']. eapply rtc_l; [exact Hs|]. apply rtc_once, step_other, prepared_refl.
Qed.

Lemma moves_entry machine auto a a' : moves machine auto a a' -> app_entry a' = app_entry a.
Proof.
  intros Hm. set (w := mkWorld [] 0 0 Machine_empty). specialize (Hm w w).
  refine (rtc_preserves _ (fun s => app_entry (st_app s) = app_entry a) _ _ _ Hm eq_refl).
  intros s1 s2 Hs Hstep. rewrite <- Hs. unfold app_entry.
  assert (same_app (st_app s1) (st_app s2)) as [-> ->]; [|done].
  refine (rtc_preserves _ (fun b => same_app (st_app s1) b) _ _ _ (app_step_effects _ _ _ _ Hstep) (conj eq_refl eq_refl)).
  intros b b' Hb (ctx & _ & _ & He). destruct Hb as [Hu Hg]. unfold same_app.
  destruct He as [Hs'|? ? ? Hs'|? ? ? ? ? ? ? Hs'|? ? ? ? Hs'|? ? ? ? ? Hs']; destruct Hs' as [-> ->]; done.
Qed.

(** ** Moves that leave the members alone *)

(** The bundle is then in the given state with the given work pending, and its
    applications took steps of their own. *)
Record moved (st : AppBundleState) (w : option WorkItem) (b b' : AppBundle) : Prop := {
  moved_state : app_bundle_state_ b' = st;
  moved_pending : user_work_item_ b' = w;
  moved_machine : is_machine_ b' = is_machine_ b;
  moved_auto : auto_of b' = auto_of b;
  moved_apps : Forall2 (moves (is_machine_ b) (auto_of b)) (apps_ b) (apps_ b')
}.

Definition quiet (s s' : BundleSt) : Prop :=
  moved (app_bundle_state_ (bs_bundle s)) (user_work_item_ (bs_bundle s)) (bs_bundle s) (bs_bundle s').

Lemma moved_trans st w b1 b2 b3 st' w' : moved st w b1 b2 -> moved st' w' b2 b3 -> moved st' w' b1 b3.
Proof.
  intros [] [He3 Hw3 Hm3 Ha3 Hf3]. rewrite moved_machine0, moved_auto0 in *.
  split; [done|done|done|done|]. etrans; eassumption.
Qed.

Lemma moved_refl b : moved (app_bundle_state_ b) (user_work_item_ b) b b.
Proof. split; [done..|]. reflexivity. Qed.

#[local] Instance quiet_refl : Reflexive quiet.
Proof. intros s. apply moved_refl. Qed.

#[local] Instance quiet_trans : Transitive quiet.
Proof.
  intros s1 s2 s3 H12 H23. pose proof (moved_trans _ _ _ _ _ _ _ H12 H23) as H13.
  destruct H12 as [E1 E2 _ _ _]. by rewrite E1, E2 in H13.
Qed.

Lemma quiet_modify f :
  (forall b, app_bundle_state_ (f b) = app_bundle_state_ b /\ user_work_item_ (f b) = user_work_item_ b /\
     is_machine_ (f b) = is_machine_ b /\ auto_of (f b) = auto_of b /\ apps_ (f b) = apps_ b) ->
  preserves quiet (modify_bundle f).
Proof. intros Hf s. destruct (Hf (bs_bundle s)) as (? & ? & ? & ? & Ha). split; try done. cbn. by rewrite Ha. Qed.

Lemma quiet_ext_call {A} (f : nat -> A) : preserves quiet (ext_call f).
Proof. intros s. apply moved_refl. Qed.

Lemma quiet_on_registry {A} (m : RegM A) : preserves quiet (on_registry m).
Proof. intros s. unfold on_registry, exec. destruct (m _). apply moved_refl. Qed.

Lemma quiet_get_bundle : preserves quiet get_bundle.
Proof. intros s. apply moved_refl. Qed.

(** The methods of an application that a bundle calls. *)
Definition app_method (m : BundleCtx -> AppM unit) : Prop :=
  forall ctx s, app_step (bc_is_machine ctx) (bc_is_auto_update ctx) s (exec (m ctx) s).

Lemma quiet_set_app i a a' s :
  apps_ (bs_bundle s) !! i = Some a -> moves (is_machine_ (bs_bundle s)) (auto_of (bs_bundle s)) a a' ->
  Forall2 (moves (is_machine_ (bs_bundle s)) (auto_of (bs_bundle s))) (apps_ (bs_bundle s)) (<[i := a']> (apps_ (bs_bundle s))).
Proof.
  intros Ha Hm. rewrite <- (list_insert_id (apps_ (bs_bundle s)) i a Ha) at 1.
  apply Forall2_insert; [reflexivity|done].
Qed.

Lemma quiet_on_app i m : app_method m -> preserves quiet (on_app i m).
Proof.
  intros Hm s. unfold quiet, on_app, exec. destruct (apps_ (bs_bundle s) !! i) as [a|] eqn:Ha; [|apply moved_refl].
  split; [done..|]. apply (quiet_set_app i a); [done|].
  exact (moves_once _ _ _ _ (Hm (bundle_ctx (bs_bundle s)) (mkAppSt (bs_world s) a))).
Qed.

Lemma quiet_for_apps m : app_method m -> preserves quiet (for_apps m).
Proof.
  intros Hm. apply preserves_bind; [apply _|apply quiet_get_bundle|]. intros b.
  apply preserves_for_each; [apply _..|]. intros i. by apply quiet_on_app.
Qed.

Lemma event_method e : event_ok e -> app_method (fun ctx => App_call ctx e).
Proof. intros He ctx s. by apply step_call. Qed.

Lemma event_method_QueueUpdateCheck : app_method App_QueueUpdateCheck.
Proof. by apply (event_method Ev_QueueUpdateCheck). Qed.
Lemma event_method_QueueDownload : app_method App_QueueDownload.
Proof. by apply (event_method Ev_QueueDownload). Qed.
Lemma event_method_QueueDownloadOrInstall : app_method App_QueueDownloadOrInstall.
Proof. by apply (event_method Ev_QueueDownloadOrInstall). Qed.
Lemma event_method_Cancel : app_method App_Cancel.
Proof. by apply (event_method Ev_Cancel). Qed.

#[local] Hint Resolve quiet_ext_call quiet_on_registry quiet_get_bundle quiet_on_app quiet_for_apps
  event_method_QueueUpdateCheck event_method_QueueDownload event_method_QueueDownloadOrInstall event_method_Cancel : preserves.
#[local] Hint Extern 1 (preserves quiet (modify_bundle _)) => apply quiet_modify; by intros [] : preserves.
#[local] Hint Extern 1 (preserves quiet (set_props_with _)) => apply quiet_modify; by intros [] : preserves.

Lemma quiet_put_priority x : preserves quiet (put_priority x).
Proof. unfold put_priority. preserve. Qed.
Lemma quiet_put_displayLanguage x : preserves quiet (put_displayLanguage x).
Proof. unfold put_displayLanguage. preserve. Qed.
Lemma quiet_capture : preserves quiet CaptureCallerImpersonationToken.
Proof. unfold CaptureCallerImpersonationToken. preserve. Qed.
Lemma quiet_capture_primary : preserves quiet CaptureCallerPrimaryToken.
Proof. unfold CaptureCallerPrimaryToken. preserve. Qed.
Lemma quiet_put_altTokens : preserves quiet Init_put_altTokens.
Proof. unfold Init_put_altTokens. preserve. Qed.
Lemma quiet_put_sessionId x : preserves quiet (Init_put_sessionId x).
Proof. unfold Init_put_sessionId. preserve. Qed.
Lemma quiet_reload b1 b2 : preserves quiet (reload_policies b1 b2).
Proof. unfold reload_policies. preserve. Qed.
Lemma quiet_Worker_Stop : preserves quiet Worker_Stop.
Proof. unfold Worker_Stop. preserve. Qed.

(** ** Simulation *)

(** The bundle stays well-formed and the abstract machine follows it. *)
Definition sim (s s' : BundleSt) : Prop :=
  bundle_ok (bs_bundle s) -> bundle_ok (bs_bundle s') /\ rtc abs_step (abs (bs_bundle s)) (abs (bs_bundle s')).

#[local] Instance sim_refl : Reflexive sim.
Proof. by intros s. Qed.

#[local] Instance sim_trans : Transitive sim.
Proof. intros s1 s2 s3 H12 H23 Hok1. destruct (H12 Hok1) as [Hok2 Ha]. destruct (H23 Hok2) as [Hok3 Hb]. split; [done|by etrans]. Qed.

Lemma moved_abs st w b b' : moved st w b b' -> abs b' = mkAbs (abs_phase_of st) w (app_entry <$> apps_ b).
Proof.
  intros [Hst Hw _ _ Ha]. unfold abs. rewrite Hst, Hw. f_equal.
  induction Ha as [|a a' l l' Hm _ IH]; [done|]. cbn. by rewrite (moves_entry _ _ _ _ Hm), IH.
Qed.

Lemma moved_ok st w b b' :
  moved st w b b' -> bundle_ok b -> state_ok st w (apps_ b) -> bundle_ok b'.
Proof.
  intros [Hst Hw Hm Hau Ha] [_ Hok] Hs. split.
  - rewrite Hst, Hw. destruct st; try done.
    + destruct Hs as [-> Hnil]. rewrite Hnil in Ha. by inversion Ha.
    + destruct Hs as [-> Hnew]. split; [done|]. intros ->. destruct (Hnew eq_refl) as [-> Hne]. split; [done|].
      intros Hnil. rewrite Hnil in Ha. by inversion Ha; subst.
  - rewrite Hm, Hau. clear Hs. induction Ha as [|a a' l l' Hmv _ IH]; [done|].
    apply Forall_cons in Hok as [Ha Hl]. apply Forall_cons. split; [|by apply IH].
    pose proof (moves_entry _ _ _ _ Hmv) as He. injection He as -> ->. by etrans.
Qed.

Lemma quiet_sim s s' : quiet s s' -> sim s s'.
Proof.
  intros Hq Hok. split; [exact (moved_ok _ _ _ _ Hq Hok (ok_state _ Hok))|].
  by rewrite (moved_abs _ _ _ _ Hq).
Qed.

(** Runs of computations from a given state of the bundle. *)
Definition sim_in {A} (st : AppBundleState) (m : BundleM A) : Prop :=
  forall s, app_bundle_state_ (bs_bundle s) = st -> sim s (exec m s).

Lemma sim_in_quiet {A} st (m : BundleM A) : preserves quiet m -> sim_in st m.
Proof. intros Hm s _. apply quiet_sim, Hm. Qed.

Lemma sim_in_bind {A B} st (m : BundleM A) (f : A -> BundleM B) :
  preserves quiet m -> (forall a, sim_in st (f a)) -> sim_in st (m ≫= f).
Proof.
  intros Hm Hf s Hs. rewrite exec_bind. etrans; [apply quiet_sim, Hm|].
  apply Hf. by rewrite (moved_state _ _ _ _ (Hm s)).
Qed.

Lemma sim_in_state st (k : AppBundleState -> BundleM HRESULT) : sim_in st (k st) -> sim_in st (with_bundle_state k).
Proof.
  intros Hk s Hs. unfold with_bundle_state. rewrite exec_bind. change (exec get_bundle s) with s.
  change (eval get_bundle s) with (bs_bundle s). rewrite Hs. by apply Hk.
Qed.

Lemma sim_in_impersonating st m : sim_in st m -> sim_in st (impersonating m).
Proof.
  intros Hm. apply sim_in_bind; [apply quiet_ext_call|]. intros hr. destruct (FAILED hr); [|done].
  apply sim_in_quiet. preserve.
Qed.

Lemma sim_in_any {A} (m : BundleM A) s : (forall st, sim_in st m) -> sim s (exec m s).
Proof. intros Hm. by apply (Hm (app_bundle_state_ (bs_bundle s))). Qed.

(** A change of state that the abstract machine allows. *)
Lemma sim_in_change st st' :
  (forall w l, state_ok st w l -> state_ok st' w l) ->
  (forall w l, state_ok st w l ->
     rtc abs_step (mkAbs (abs_phase_of st) w (app_entry <$> l)) (mkAbs (abs_phase_of st') w (app_entry <$> l))) ->
  sim_in st (ChangeBundleState st';; mret S_OK).
Proof.
  intros Hok Habs s Hs Hb. rewrite exec_bind, exec_ret. destruct Hb as [Hst Happs]. rewrite Hs in Hst.
  split; [split; [by apply Hok|done]|]. unfold abs. rewrite Hs. by apply Habs.
Qed.

(** Starting work. *)
Lemma start_async_cases w queue s :
  let s1 := exec (ext_call QueueUserWorkItem) s in
  let s' := exec (start_async w queue) s in
  let hr := eval (start_async w queue) s in
  (FAILED hr = true /\ s' = s1) \/
  (hr = S_OK /\ s' = exec queue (exec (modify_bundle (set_work_item (Some w))) s1)).
Proof.
  cbv zeta. unfold start_async, QueueDeferredFunctionCall.
  set (s1 := exec (ext_call QueueUserWorkItem) s). set (hr := eval (ext_call QueueUserWorkItem) s).
  assert (ext_call QueueUserWorkItem s = (hr, s1)) as Hcall by done.
  unfold exec, eval, mbind, St_bind, mret, St_ret. rewrite Hcall.
  destruct (FAILED hr) eqn:Hf; [left; by rewrite Hf|right].
  cbn -[set_work_item]. change (FAILED S_OK) with false. cbv beta iota. by destruct (queue _).
Qed.

Lemma sim_in_busy st w queue :
  (forall l, state_ok st None l ->
    abs_step (mkAbs (abs_phase_of st) None (app_entry <$> l)) (mkAbs PBusy (Some w) (app_entry <$> l))) ->
  (forall w l, state_ok st w l -> w = None) -> preserves quiet queue ->
  sim_in st (become_busy (start_async w queue)).
Proof.
  intros Hstep Hnone Hq s Hs Hok. unfold become_busy. rewrite exec_bind.
  destruct (start_async_cases w queue s) as [[Hf ->]|[-> ->]].
  { rewrite Hf, exec_ret. exact (quiet_sim _ _ (quiet_ext_call QueueUserWorkItem s) Hok). }
  change (FAILED S_OK) with false. cbv iota. rewrite exec_bind, exec_ret.
  set (s2 := exec (modify_bundle _) _).
  pose proof (Hq s2) as Hmove. destruct Hok as [Hst Happs]. rewrite Hs in Hst.
  assert (user_work_item_ (bs_bundle s) = None) as Hw by (by eapply Hnone).
  assert (moved AppBundleStateBusy (Some w) (bs_bundle s) (bs_bundle (exec (ChangeBundleState AppBundleStateBusy) (exec queue s2))))
    as Hm by (destruct Hmove; by split).
  split; [apply (moved_ok _ _ _ _ Hm); [by split; [rewrite Hs|]|by eexists]|].
  rewrite (moved_abs _ _ _ _ Hm). apply rtc_once. unfold abs. rewrite Hs, Hw. apply Hstep. by rewrite <- Hw.
Qed.

(** ** The members *)

(** The application that [AddApp] adds. *)
Lemma AddApp_cases a s :
  (FAILED (eval (AddApp a) s) = true /\ exec (AddApp a) s = s) \/
  (eval (AddApp a) s = S_OK /\ app_guid a ∉ (app_entry <$> apps_ (bs_bundle s)).*1 /\
   exec (AddApp a) s = exec (modify_bundle (fun b => set_apps (apps_ b ++ [a]) b)) s).
Proof.
  unfold AddApp. rewrite exec_bind, eval_bind. change (exec get_bundle s) with s.
  change (eval get_bundle s) with (bs_bundle s).
  destruct (IsAppInBundle (bs_bundle s) (app_guid a)) eqn:Hin; [by left|right].
  split; [done|]. split; [|done]. intros Hg. apply not_true_iff_false in Hin. apply Hin.
  unfold IsAppInBundle. apply existsb_exists. rewrite <- list_fmap_compose in Hg.
  apply list_elem_of_fmap in Hg as (x & Hx & Hel). exists x. split; [by apply list_elem_of_In|].
  apply Z.eqb_eq. by rewrite Hx.
Qed.

(** A bundle that gained a member. *)
Lemma sim_add (has_new has_installed reloaded has_new' has_installed' reloaded' : bool) a s s1 s2 :
  let b := bs_bundle s in
  app_bundle_state_ b = AppBundleStateInitialized has_new has_installed reloaded ->
  (if is_update a then has_new = false /\ has_new' = false /\ has_installed' = true
   else has_installed = false /\ has_new' = true /\ has_installed' = false) ->
  quiet s s1 -> app_guid a ∉ (app_entry <$> apps_ (bs_bundle s1)).*1 ->
  prepared (App_init (app_guid a) (is_update a)) a ->
  quiet (exec (modify_bundle (fun b => set_apps (apps_ b ++ [a]) b)) s1) s2 ->
  sim s (exec (ChangeBundleState (AppBundleStateInitialized has_new' has_installed' reloaded')) s2).
Proof.
  intros b Hs Hflags Hq Hfresh Hprep Hq2 Hok. destruct (quiet_sim _ _ Hq Hok) as [Hok1 Habs1].
  assert (app_bundle_state_ (bs_bundle s1) = AppBundleStateInitialized has_new has_installed reloaded) as Hs1
    by (by rewrite (moved_state _ _ _ _ Hq)).
  set (st' := AppBundleStateInitialized has_new' has_installed' reloaded').
  set (s3 := exec (ChangeBundleState st') s2).
  destruct Hok1 as [Hst1 Happs1]. rewrite Hs1 in Hst1. destruct Hst1 as [Hpend Hnew].
  set (b2 := set_bundle_state st' (set_apps (apps_ (bs_bundle s1) ++ [a]) (bs_bundle s1))).
  assert (moved st' None b2 (bs_bundle s3)) as Hm.
  { destruct Hq2 as [_ Hw Hmm Ha Hf]. split; [done|by rewrite <- Hpend|done|done|done]. }
  assert (bundle_ok b2) as Hok2.
  { split; [|apply Forall_app; split; [done|]; apply Forall_singleton].
    - cbn. split; [done|]. intros ->. destruct (is_update a); destruct Hflags as (? & ? & ?); [done|].
      split; [done|]. by destruct (apps_ (bs_bundle s1)).
    - intros w w'. by apply rtc_once, step_other. }
  split; [apply (moved_ok _ _ _ _ Hm Hok2); rewrite <- Hpend; apply (ok_state _ Hok2)|].
  etrans; [exact Habs1|]. rewrite (moved_abs _ _ _ _ Hm). apply rtc_once. unfold abs. rewrite Hs1, Hpend.
  cbn [b2 set_bundle_state set_apps apps_ abs_phase_of]. rewrite fmap_app.
  destruct (is_update a) eqn:Hu; destruct Hflags as (-> & -> & ->); cbn [abs_phase_of st'];
    change (app_entry <$> [a]) with [app_entry a]; unfold app_entry at 3; rewrite Hu; apply abs_add; try done.
  - destruct has_installed; auto.
  - destruct has_new; auto.
Qed.

Lemma prepared_new a p v guid update :
  a = set_props p (set_current_version v (App_init guid update)) -> prepared (App_init (app_guid a) (is_update a)) a.
Proof. intros ->. done. Qed.

Lemma sim_in_CreateApp n i p app_id : sim_in (AppBundleStateInitialized n i p) (Initialized_CreateApp n i p app_id).
Proof.
  unfold Initialized_CreateApp. destruct i; [apply sim_in_quiet; unfold InvalidBundleCall; preserve|].
  destruct (StringToGuidSafe app_id) as [guid|]; [|apply sim_in_quiet; preserve].
  intros s Hs. rewrite exec_bind. change (exec get_bundle s) with s. change (eval get_bundle s) with (bs_bundle s).
  rewrite exec_bind. set (s1 := exec (on_registry get) s). set (r := eval (on_registry get) s).
  set (a := ReadDayOfInstall _ _ _). rewrite exec_bind.
  assert (quiet s s1) as Hq1 by apply quiet_on_registry.
  destruct (AddApp_cases a s1) as [[Hf ->]|(-> & Hfresh & ->)].
  { rewrite Hf, exec_ret. by apply quiet_sim. }
  change (FAILED S_OK) with false. cbv iota. rewrite !exec_bind, exec_ret.
  eapply (sim_add n false p true false _ a s s1); [done|done|done|done|done|apply quiet_reload].
Qed.

(** [ReadAppPersistentData] only reads properties into the application. *)
Lemma ReadAppPersistentData_app machine language a r :
  exists p v, (eval (ReadAppPersistentData machine language a) r).2 = set_props p (set_current_version v a).
Proof.
  unfold ReadAppPersistentData. rewrite !eval_bind, eval_get.
  set (accepted := eval (IsAppEulaAccepted _ _ _) r). rewrite exec_get.
  destruct (if RegKey_HasKey _ _ then _ else _) as [hr|pv] eqn:Hpv.
  { rewrite eval_ret. eexists _, (current_version a). by destruct a. }
  rewrite !eval_bind, eval_get. set (a1 := ReadClients _ _ _ _ _ _).
  assert (exists p v, a1 = set_props p (set_current_version v a)) as (p & v & ->).
  { unfold a1, ReadClients. destruct (GetValueString (GetClientKeyName machine (app_guid a)) kRegValueProductVersion _) as [hr|version'].
    - eexists _, (current_version a). by destruct a.
    - by eexists _, _. }
  destruct (FAILED _); rewrite eval_ret; by eexists _, v.
Qed.

Lemma AddInstalledApp_cases app_id s :
  let s' := exec (AddInstalledApp app_id) s in
  (FAILED (eval (AddInstalledApp app_id) s) = true /\ quiet s s') \/
  (eval (AddInstalledApp app_id) s = S_OK /\
   exists s1 a, quiet s s1 /\ is_update a = true /\ prepared (App_init (app_guid a) (is_update a)) a /\
     app_guid a ∉ (app_entry <$> apps_ (bs_bundle s1)).*1 /\
     s' = exec (modify_bundle (fun b => set_apps (apps_ b ++ [a]) b)) s1).
Proof.
  cbv zeta. unfold AddInstalledApp. destruct (StringToGuidSafe app_id) as [guid|]; [|by left].
  rewrite exec_bind, eval_bind. change (exec get_bundle s) with s. change (eval get_bundle s) with (bs_bundle s).
  destruct (IsAppInBundle _ guid); [by left|]. rewrite exec_bind, eval_bind.
  set (s1 := exec (ext_call _) s). set (hr := eval (ext_call _) s).
  assert (quiet s s1) as Hq1 by apply quiet_ext_call.
  destruct (FAILED hr && _) eqn:Hext.
  { left. rewrite eval_ret. by apply andb_true_iff in Hext as [-> _]. }
  rewrite exec_bind, eval_bind. set (m := ReadAppPersistentData _ _ _). set (s2 := exec (on_registry m) s1).
  assert (quiet s s2) as Hq2 by (etrans; [exact Hq1|apply quiet_on_registry]).
  assert (eval (on_registry m) s1 = eval m (m_registry (w_machine (bs_world s1)))) as ->
    by (unfold on_registry, eval; by destruct (m _)).
  destruct (ReadAppPersistentData_app (is_machine_ (bs_bundle s)) (display_language_ (bundle_props (bs_bundle s)))
              (App_init guid true) (m_registry (w_machine (bs_world s1)))) as (p & v & Ha). fold m in Ha.
  destruct (eval m _) as [hr2 a]. cbn [snd] in Ha. destruct (FAILED hr2) eqn:Hf; [by left|].
  rewrite exec_bind, eval_bind. destruct (AddApp_cases a s2) as [[Hf2 ->]|(-> & Hfresh & ->)].
  - left. by rewrite Hf2, eval_ret, exec_ret.
  - right. change (FAILED S_OK) with false. cbv iota. rewrite eval_ret, exec_ret. split; [done|].
    exists s2, a. split_and!; [done|by rewrite Ha|by eapply prepared_new|done|done].
Qed.

Lemma quiet_change st s s' :
  quiet s s' -> quiet (exec (ChangeBundleState st) s) (exec (ChangeBundleState st) s').
Proof. intros []. by split. Qed.

Lemma sim_reloaded n i p p' s : sim (exec (ChangeBundleState (AppBundleStateInitialized n i p)) s)
  (exec (ChangeBundleState (AppBundleStateInitialized n i p')) s).
Proof. intros [Hst Ha]. split; [by split|done]. Qed.

Lemma sim_in_CreateInstalledApp n i p app_id :
  sim_in (AppBundleStateInitialized n i p) (Initialized_CreateInstalledApp n i p app_id).
Proof.
  unfold Initialized_CreateInstalledApp. destruct n; [apply sim_in_quiet; unfold InvalidBundleCall; preserve|].
  apply sim_in_bind; [apply quiet_ext_call|]. intros n0. apply sim_in_bind; [apply quiet_on_registry|]. intros _ s Hs.
  rewrite exec_bind. destruct (AddInstalledApp_cases app_id s) as [[-> Hq]|(-> & s1 & a & Hq & Hu & Hprep & Hfresh & ->)].
  { rewrite exec_ret. by apply quiet_sim. }
  change (FAILED S_OK) with false. cbv iota. rewrite !exec_bind, exec_ret.
  eapply (sim_add false i p false true _ a s s1); [done|by rewrite Hu|done|done|done|apply quiet_reload].
Qed.

Lemma sim_add_installed_apps p app_ids i s :
  let s' := exec (add_installed_apps app_ids i) s in
  let i' := eval (add_installed_apps app_ids i) s in
  sim (exec (ChangeBundleState (AppBundleStateInitialized false i p)) s)
      (exec (ChangeBundleState (AppBundleStateInitialized false i' p)) s').
Proof.
  cbv zeta. revert i s. induction app_ids as [|app_id app_ids IH]; intros i s; [reflexivity|].
  cbn [add_installed_apps]. rewrite exec_bind, eval_bind.
  destruct (AddInstalledApp_cases app_id s) as [[-> Hq]|(-> & s1 & a & Hq & Hu & Hprep & Hfresh & ->)].
  - cbn [negb]. rewrite orb_false_r. etrans; [apply quiet_sim, quiet_change, Hq|apply IH].
  - change (negb (FAILED S_OK)) with true. rewrite orb_true_r. etrans; [|apply IH].
    pose proof (sim_add false i p false true p a (exec (ChangeBundleState (AppBundleStateInitialized false i p)) s)
      (exec (ChangeBundleState (AppBundleStateInitialized false i p)) s1)
      (exec (modify_bundle (fun b => set_apps (apps_ b ++ [a]) b))
         (exec (ChangeBundleState (AppBundleStateInitialized false i p)) s1))) as Hadd.
    cbv zeta in Hadd. rewrite Hu in Hadd. rewrite Hu in Hprep.
    apply Hadd; [done|done|by apply quiet_change|done|done|reflexivity].
Qed.

Lemma sim_in_CreateAllInstalledApps n i p :
  sim_in (AppBundleStateInitialized n i p) (Initialized_CreateAllInstalledApps n i p).
Proof.
  intros s Hs. unfold Initialized_CreateAllInstalledApps. rewrite exec_bind.
  change (exec get_bundle s) with s. change (eval get_bundle s) with (bs_bundle s).
  destruct (0 <? length (apps_ (bs_bundle s)))%nat eqn:Hlen; [reflexivity|].
  intros Hok. assert (n = false) as ->.
  { destruct n; [|done]. destruct Hok as [Hst _]. rewrite Hs in Hst. destruct Hst as [_ Hst].
    destruct (Hst eq_refl) as [_ Hne]. by destruct (apps_ (bs_bundle s)). }
  revert Hok. rewrite !exec_bind. set (s1 := exec (ext_call id) s).
  set (s2 := exec (on_registry (modify _)) s1). set (s3 := exec (on_registry get) s2).
  assert (quiet s s3) as Hq3.
  { etrans; [exact (quiet_ext_call id s)|]. etrans; [exact (quiet_on_registry (modify (RunAllRegistrationUpdateHooks (eval (ext_call id) s))) s1)|exact (quiet_on_registry get s2)]. }
  assert (sim s (exec (ChangeBundleState (AppBundleStateInitialized false i p)) s3)) as Hs3.
  { etrans; [apply quiet_sim, Hq3|]. apply quiet_sim. destruct Hq3 as [E _ _ _ _]. rewrite Hs in E.
    split; [by rewrite E|done|done|done|reflexivity]. }
  destruct (GetRegisteredApps _ _) as [hr|ids]; [rewrite exec_ret; by apply quiet_sim|].
  rewrite !exec_bind, exec_ret. set (s4 := exec (add_installed_apps ids i) s3).
  fold (sim s (exec (ChangeBundleState (AppBundleStateInitialized false (eval (add_installed_apps ids i) s3)
     (eval (reload_policies true p) s4))) (exec (reload_policies true p) s4))).
  etrans; [exact Hs3|]. etrans; [apply sim_add_installed_apps|].
  etrans; [apply quiet_sim, quiet_change, quiet_reload|apply sim_reloaded].
Qed.

Lemma CreateAllInstalledApps_state n i p s :
  app_bundle_state_ (bs_bundle s) = AppBundleStateInitialized n i p ->
  exists n' i' p', app_bundle_state_ (bs_bundle (exec (Initialized_CreateAllInstalledApps n i p) s)) =
    AppBundleStateInitialized n' i' p'.
Proof.
  intros Hs. unfold Initialized_CreateAllInstalledApps. rewrite exec_bind.
  change (exec get_bundle s) with s. change (eval get_bundle s) with (bs_bundle s).
  destruct (0 <? _)%nat; [by eexists _, _, _|]. rewrite !exec_bind.
  set (s1 := exec (ext_call id) s). set (s2 := exec (on_registry (modify _)) s1).
  assert (quiet s (exec (on_registry get) s2)) as [E _ _ _ _].
  { etrans; [exact (quiet_ext_call id s)|].
    etrans; [exact (quiet_on_registry (modify (RunAllRegistrationUpdateHooks (eval (ext_call id) s))) s1)|].
    exact (quiet_on_registry get s2). }
  destruct (GetRegisteredApps _ _) as [hr|ids].
  - rewrite exec_ret, E, Hs. by eexists _, _, _.
  - rewrite !exec_bind, exec_ret. by eexists _, _, _.
Qed.

Lemma sim_in_busy_open n i p w queue : preserves quiet queue ->
  sim_in (AppBundleStateInitialized n i p) (become_busy (start_async w queue)).
Proof. intros Hq. apply sim_in_busy; [intros l _; apply abs_start_open|by intros w0 l []|done]. Qed.

Lemma sim_in_busy_ready w queue : preserves quiet queue -> sim_in AppBundleStateReady (become_busy (start_async w queue)).
Proof. intros Hq. apply sim_in_busy; [intros l _; apply abs_start_ready|by intros w0 l ->|done]. Qed.

Lemma sim_in_UpdateAllApps n i p : sim_in (AppBundleStateInitialized n i p) (Initialized_UpdateAllApps n i p).
Proof.
  intros s Hs. unfold Initialized_UpdateAllApps. rewrite exec_bind.
  change (exec get_bundle s) with s. change (eval get_bundle s) with (bs_bundle s).
  destruct (length (apps_ (bs_bundle s))) eqn:Hlen; cbn [Nat.eqb negb]; [|reflexivity].
  apply length_zero_iff_nil in Hlen. rewrite exec_bind. set (s1 := exec (set_props_with _) s).
  assert (sim s s1) as Hs1.
  { intros [Hst _]. split; [|done]. split; [done|]. cbn. by rewrite Hlen. }
  etrans; [exact Hs1|]. rewrite exec_bind. set (s2 := exec (ext_call impersonate) s1).
  etrans; [apply quiet_sim; exact (quiet_ext_call impersonate s1)|]. fold s2.
  destruct (FAILED (eval (ext_call impersonate) s1)); [by rewrite exec_ret|].
  rewrite exec_bind. set (s3 := exec (Initialized_CreateAllInstalledApps n i p) s2).
  etrans; [by apply (sim_in_CreateAllInstalledApps n i p)|]. fold s3.
  destruct (CreateAllInstalledApps_state n i p s2) as (n' & i' & p' & Hs3); [done|]. fold s3 in Hs3.
  destruct (FAILED (eval _ s2)); [by rewrite exec_ret|].
  apply (sim_in_busy_open n' i' p' _ _); [|done]. auto with preserves.
Qed.

Lemma sim_in_DoDownloadPackage st app_id package_name :
  (forall w queue, preserves quiet queue -> sim_in st (become_busy (start_async w queue))) ->
  sim_in st (DoDownloadPackage app_id package_name).
Proof.
  intros Hbusy. unfold DoDownloadPackage. destruct (StringToGuidSafe app_id) as [guid|]; [|apply sim_in_quiet; preserve].
  apply sim_in_bind; [apply quiet_get_bundle|]. intros b.
  destruct (list_find _ _) as [[i a]|]; [|apply sim_in_quiet; preserve].
  destruct (existsb _ _); [|apply sim_in_quiet; preserve].
  apply Hbusy. auto with preserves.
Qed.

Lemma sim_in_Initialize : sim_in AppBundleStateInit Init_Initialize.
Proof.
  unfold Init_Initialize. apply sim_in_bind; [apply quiet_get_bundle|]. intros b.
  apply sim_in_bind; [preserve|]. intros _. apply sim_in_bind; [apply quiet_capture|]. intros hr.
  destruct (FAILED hr); [apply sim_in_quiet; preserve|]. apply sim_in_bind; [auto with preserves|]. intros _.
  apply sim_in_change.
  - by intros w l [-> ->].
  - intros w l [-> ->]. apply rtc_once, abs_open.
Qed.

Lemma sim_in_invalid st : sim_in st InvalidBundleCall.
Proof. apply sim_in_quiet. unfold InvalidBundleCall. preserve. Qed.

Lemma sim_in_ret st (hr : HRESULT) : sim_in st (mret hr).
Proof. apply sim_in_quiet. preserve. Qed.

Lemma sim_in_CheckForUpdate n i p : sim_in (AppBundleStateInitialized n i p) Initialized_CheckForUpdate.
Proof.
  apply sim_in_bind; [apply quiet_get_bundle|]. intros b. destruct (_ =? 0)%nat; [apply sim_in_invalid|].
  apply sim_in_busy_open. auto with preserves.
Qed.

Lemma sim_in_DownloadPackage n i p app_id package_name :
  sim_in (AppBundleStateInitialized n i p) (Initialized_DownloadPackage n app_id package_name).
Proof.
  apply sim_in_bind; [apply quiet_get_bundle|]. intros b. destruct (_ || _); [apply sim_in_invalid|].
  apply sim_in_DoDownloadPackage. intros w queue. apply sim_in_busy_open.
Qed.

Lemma sim_in_stop_open n i p : sim_in (AppBundleStateInitialized n i p) (ChangeBundleState AppBundleStateStopped;; mret S_OK).
Proof.
  apply sim_in_change; [done|]. intros w l [-> _]. apply rtc_once, abs_stop_open.
Qed.

Lemma sim_in_pause_open n i p :
  sim_in (AppBundleStateInitialized n i p) (ChangeBundleState (AppBundleStatePaused false);; mret S_OK).
Proof.
  apply sim_in_change; [by intros w l [-> _]|]. intros w l [-> _]. apply rtc_once, abs_pause_open.
Qed.

Lemma sim_in_Busy_Stop : sim_in AppBundleStateBusy Busy_Stop.
Proof.
  apply sim_in_bind; [apply quiet_Worker_Stop|]. intros hr. destruct (FAILED hr); [apply sim_in_ret|].
  apply sim_in_change; [done|]. intros w l [w0 ->]. apply rtc_once, abs_stop_busy.
Qed.

(** Pausing and resuming work is not implemented. *)
Lemma sim_in_Busy_Pause : sim_in AppBundleStateBusy Busy_Pause.
Proof. by intros s _. Qed.
Lemma sim_in_Paused_Resume st b : sim_in st (Paused_Resume b).
Proof. by intros s _. Qed.

#[local] Hint Resolve sim_in_invalid sim_in_ret sim_in_CheckForUpdate sim_in_DownloadPackage sim_in_stop_open sim_in_pause_open
  sim_in_Busy_Stop sim_in_Busy_Pause sim_in_Paused_Resume sim_in_Initialize sim_in_CreateApp sim_in_CreateInstalledApp
  sim_in_CreateAllInstalledApps sim_in_UpdateAllApps sim_in_busy_ready sim_in_DoDownloadPackage : sim.
#[local] Hint Resolve quiet_put_altTokens quiet_put_sessionId quiet_put_priority quiet_put_displayLanguage quiet_capture_primary : preserves.
#[local] Hint Extern 1 (sim_in _ (become_busy _)) => apply sim_in_busy_ready; solve [auto with preserves] : sim.
#[local] Hint Extern 2 (sim_in _ _) => apply sim_in_quiet; solve [auto with preserves] : sim.

Lemma bundle_call_sim c s : sim s (exec (bundle_call c) s).
Proof.
  apply sim_in_any. intros st.
  destruct c; cbn [bundle_call];
    try (apply sim_in_quiet; unfold put_displayName, put_installSource, put_originURL, put_offlineDirectory, put_sendPings;
         first [by auto with preserves|by preserve]);
    try (apply sim_in_state; destruct st; by eauto with sim);
    try (apply sim_in_impersonating, sim_in_state; destruct st; by eauto with sim).
  apply sim_in_bind; [apply quiet_capture_primary|]. intros hr. destruct (FAILED hr); [apply sim_in_ret|].
  apply sim_in_impersonating, sim_in_state; destruct st; by eauto with sim.
Qed.

Lemma quiet_CreateUninstalledApp app_id : preserves quiet (CreateUninstalledApp app_id).
Proof. unfold CreateUninstalledApp. preserve. Qed.

Lemma CompleteAsyncCall_sim s : is_Some (user_work_item_ (bs_bundle s)) -> sim s (exec CompleteAsyncCall s).
Proof.
  intros [w Hw] [Hst Happs]. unfold CompleteAsyncCall, state_CompleteAsyncCall, with_bundle_state.
  rewrite !exec_bind. change (exec get_bundle s) with s. change (eval get_bundle s) with (bs_bundle s).
  destruct (app_bundle_state_ (bs_bundle s)) eqn:Hs; cbn in Hst; rewrite ?Hw in Hst;
    try congruence; try (exfalso; destruct Hst; congruence).
  - split; [by split|]. unfold abs. rewrite Hs, Hw. apply rtc_once, abs_finish.
  - split; [split; [cbn; by rewrite Hs|done]|]. unfold abs. cbn. rewrite Hs, Hw. apply rtc_once, abs_finish_stopped.
Qed.

Lemma bundle_step_sim s s' : bundle_step s s' -> sim s s'.
Proof.
  destruct 1 as [c s|i e s _ He|s Hw|app_id s _|c s _|i a a' s Ha Hp|w n s].
  - apply bundle_call_sim.
  - apply quiet_sim, quiet_on_app, event_method, He.
  - by apply CompleteAsyncCall_sim.
  - apply quiet_sim, quiet_CreateUninstalledApp.
  - apply quiet_sim. split; [done..|reflexivity].
  - apply quiet_sim. split; [done..|]. apply (quiet_set_app i a); [done|].
    intros w w'. by apply rtc_once, step_other.
  - apply quiet_sim. apply moved_refl.
Qed.

Definition new_bundle (machine : bool) (request_id language : CString) (w : World) : BundleSt :=
  mkBundleSt w (AppBundle_init machine request_id language) 0.

Lemma bundle_run_sim machine request_id language w s :
  rtc bundle_step (new_bundle machine request_id language w) s ->
  bundle_ok (bs_bundle s) /\ rtc abs_step abs_init (abs (bs_bundle s)).
Proof.
  intros Hrun.
  assert (sim (new_bundle machine request_id language w) s) as Hsim.
  { clear -Hrun. induction Hrun as [s|s1 s2 s3 Hs _ IH]; [reflexivity|]. etrans; [by apply bundle_step_sim|done]. }
  apply Hsim. split; [done|constructor].
Qed.

(** What the abstract machine keeps. *)
Definition abs_ok (a : Abs) : Prop :=
  NoDup (abs_apps a).*1 /\
  match abs_phase a with
  | PNew => abs_apps a = [] /\ abs_pending a = None
  | POpen k => match k with None => abs_apps a = [] | Some u => Forall (fun x => x.2 = u) (abs_apps a) end /\ abs_pending a = None
  | PBusy => (exists u, Forall (fun x => x.2 = u) (abs_apps a)) /\ is_Some (abs_pending a)
  | PReady | PPaused => (exists u, Forall (fun x => x.2 = u) (abs_apps a)) /\ abs_pending a = None
  | PStopped => exists u, Forall (fun x => x.2 = u) (abs_apps a)
  end.

Lemma abs_step_ok a a' : abs_step a a' -> abs_ok a -> abs_ok a'.
Proof.
  assert (forall k l, match k with None => l = [] | Some u => Forall (fun x : GUID * bool => x.2 = u) l end ->
    exists u, Forall (fun x => x.2 = u) l) as Hkind by (intros [u|] l Hl; [by exists u|exists true; by rewrite Hl]).
  unfold abs_ok. destruct 1 as [|k g u l Hk Hg|k w l|w l|w l|k l|w l|w l|k l]; cbn; intros [Hnd Hrest];
    try (split; [done|]; by naive_solver).
  split; [|split; [|done]].
  - rewrite fmap_app. apply NoDup_app. split; [done|]. split; [|apply NoDup_singleton].
    intros x Hx. by intros ->%list_elem_of_singleton.
  - apply Forall_app. split; [|by apply Forall_singleton]. destruct Hrest as [Hl _].
    destruct Hk as [-> | ->]; [by rewrite Hl|done].
Qed.


(** C5. In every reachable bundle no application is twice, all applications are
    updates or all are installations, a busy bundle has its work pending and a
    bundle that is neither busy nor stopped has none; and every application is
    one that its own state machine can reach. *)
Theorem bundle_invariant machine request_id language w s :
  rtc bundle_step (new_bundle machine request_id language w) s ->
  let b := bs_bundle s in
  NoDup (app_guid <$> apps_ b) /\
  (exists update, Forall (fun a => is_update a = update) (apps_ b)) /\
  (IsBusy b = true -> is_Some (user_work_item_ b)) /\
  (is_Some (user_work_item_ b) -> IsBusy b = true \/ app_bundle_state_ b = AppBundleStateStopped) /\
  Forall (fun a => forall w', reachable (is_machine_ b) (is_auto_update_ (bundle_props b)) (app_guid a) (is_update a)
                       (mkAppSt w' a)) (apps_ b).
Proof.
  intros Hrun b. destruct (bundle_run_sim _ _ _ _ _ Hrun) as [[Hst Happs] Habs]. fold b in Hst, Happs, Habs.
  assert (abs_ok (abs b)) as [Hnd Hab].
  { refine (rtc_preserves _ abs_ok _ _ (fun x y Hx Hs => abs_step_ok x y Hs Hx) Habs _).
    split; [constructor|done]. }
  assert ((abs_apps (abs b)).*1 = app_guid <$> apps_ b) as Hg by (cbn; by rewrite <- list_fmap_compose).
  rewrite Hg in Hnd. split; [done|].
  assert (forall u, Forall (fun x => x.2 = u) (abs_apps (abs b)) -> Forall (fun a => is_update a = u) (apps_ b)) as Hu
    by (intros u; cbn; by rewrite Forall_fmap).
  split; [|split; [|split]].
  - cbn [abs_phase abs] in Hab.
    destruct (app_bundle_state_ b) as [|n i p| | | |]; cbn in Hab; try (destruct Hab as [[u Hl] _]; exists u; by apply Hu).
    + destruct Hab as [Hl _]. exists true. apply Hu. cbn. by rewrite Hl.
    + destruct Hab as [Hl _]. destruct n; [exists false; by apply Hu|]. destruct i; exists true; apply Hu; [done|].
      cbn. by rewrite Hl.
    + destruct Hab as [u Hl]. exists u. by apply Hu.
  - unfold IsBusy. by destruct (app_bundle_state_ b).
  - intros [w0 Hw]. unfold IsBusy. destruct (app_bundle_state_ b); cbn in Hst; rewrite ?Hw in Hst; auto; try congruence;
      destruct Hst; congruence.
  - eapply Forall_impl; [exact Happs|]. intros a Ha w'. exists w'. apply Ha.
Qed.

(** ** One call at a time *)

Definition pending_same (s s' : BundleSt) : Prop := user_work_item_ (bs_bundle s') = user_work_item_ (bs_bundle s).

Lemma quiet_pending s s' : quiet s s' -> pending_same s s'.
Proof. by intros []. Qed.

(** A bundle at work or stopped does not take other work. *)
Lemma bundle_call_pending c s :
  app_bundle_state_ (bs_bundle s) = AppBundleStateBusy \/ app_bundle_state_ (bs_bundle s) = AppBundleStateStopped ->
  pending_same s (exec (bundle_call c) s).
Proof.
  intros Hs.
  assert (forall k s1, app_bundle_state_ (bs_bundle s1) = app_bundle_state_ (bs_bundle s) ->
    pending_same s1 (exec (k AppBundleStateBusy) s1) -> pending_same s1 (exec (k AppBundleStateStopped) s1) ->
    pending_same s1 (exec (with_bundle_state k) s1)) as Hstate.
  { intros k s1 Es Hb Hst. unfold with_bundle_state. rewrite exec_bind. change (exec get_bundle s1) with s1.
    change (eval get_bundle s1) with (bs_bundle s1). rewrite Es. by destruct Hs as [-> | ->]. }
  assert (forall k s1, app_bundle_state_ (bs_bundle s1) = app_bundle_state_ (bs_bundle s) ->
    (forall s2, pending_same s2 (exec (k AppBundleStateBusy) s2)) -> (forall s2, pending_same s2 (exec (k AppBundleStateStopped) s2)) ->
    pending_same s1 (exec (impersonating (with_bundle_state k)) s1)) as Himp.
  { intros k s1 Es Hb Hst. unfold impersonating. rewrite exec_bind. destruct (FAILED _); [done|].
    exact (Hstate k (exec (ext_call impersonate) s1) Es (Hb _) (Hst _)). }
  destruct c; cbn [bundle_call];
    try (apply quiet_pending; unfold put_displayName, put_installSource, put_originURL, put_offlineDirectory, put_sendPings;
         revert s Hs Hstate Himp; intros s _ _ _; apply (fun Hq : preserves quiet _ => Hq s);
         first [by auto with preserves|by preserve]);
    try (by apply Himp); try (by apply Hstate).
  - unfold install. rewrite exec_bind. pose proof (quiet_capture_primary s) as Hq.
    set (s1 := exec CaptureCallerPrimaryToken s) in *. apply quiet_pending in Hq as Hp.
    destruct (FAILED _); [done|]. unfold pending_same in *. rewrite <- Hp. apply Himp; [by destruct Hq|done..].
  - apply Hstate; [done| |done]. unfold Busy_Stop. rewrite exec_bind.
    pose proof (quiet_pending _ _ (quiet_Worker_Stop s)) as Hp. by destruct (FAILED _).
Qed.

(** C6. While an asynchronous call is pending no second one starts: a step of the
    system either leaves the pending call alone or is the worker completing it. *)
Theorem one_call_at_a_time machine request_id language w s s' item :
  rtc bundle_step (new_bundle machine request_id language w) s ->
  user_work_item_ (bs_bundle s) = Some item -> bundle_step s s' ->
  user_work_item_ (bs_bundle s') = Some item \/
  (s' = exec CompleteAsyncCall s /\ user_work_item_ (bs_bundle s') = None).
Proof.
  intros Hrun Hitem Hstep. apply bundle_run_sim in Hrun as [[Hst _] _]. rewrite Hitem in Hst.
  assert (pending_same s s' -> user_work_item_ (bs_bundle s') = Some item) as Hsame by (by intros ->).
  destruct Hstep as [c s|i e s _ He|s Hw|app_id s _|c s _|i a a' s Ha Hp|w0 n s]; try (left; by apply Hsame).
  - left. apply Hsame, bundle_call_pending. destruct (app_bundle_state_ _); cbn in Hst; auto; try congruence; destruct Hst; congruence.
  - left. by apply Hsame, quiet_pending, quiet_on_app, event_method.
  - right. split; [done|]. unfold CompleteAsyncCall. by rewrite exec_bind.
  - left. by apply Hsame, quiet_pending, quiet_CreateUninstalledApp.
Qed.

End Steps.

(** ** A concrete bundle *)

(** Everything works; every language is supported; there are no hooks. *)
Definition sample_bundle_env : BundleEnv := {|
  impersonate _ := S_OK;
  GetCallerToken _ := S_OK;
  TokenIsAdmin _ := true;
  CreatePrimaryToken _ := S_OK;
  OpenProcess _ := S_OK;
  DuplicateTokenIntoCurrentProcess _ := S_OK;
  QueueUserWorkItem _ := S_OK;
  NewGuidString _ := _T "{00000000-0000-0000-0000-000000000001}";
  GetUpdateCheckUrl := _T "https://updates.bravesoftware.com/service/update2";
  LoadPolicies_result _ := S_OK;
  CreateExternalUpdaterActiveEvent _ _ := S_OK;
  RunRegistrationUpdateHook _ _ r := r;
  RunAllRegistrationUpdateHooks _ r := r;
  IsLanguageSupported _ := true
|}.

Section Witnesses.
#[local] Existing Instances sample_env guid_ops open_policy sample_bundle_env.
#[local] Instance now_env : RegEnv := sample_reg_env 0.

Definition sample_new_bundle : BundleSt := new_bundle true [] (_T "en") sample_world.

(** A client asks for an update check of one application. *)
Definition sample_busy_bundle : BundleSt :=
  exec (bundle_call checkForUpdate_)
    (exec (bundle_call (createApp_ (GuidToString example_guid))) (exec (bundle_call initialize_) sample_new_bundle)).

Lemma sample_busy_run : rtc bundle_step sample_new_bundle sample_busy_bundle.
Proof.
  eapply rtc_l; [apply (bstep_call initialize_)|].
  eapply rtc_l; [apply (bstep_call (createApp_ (GuidToString example_guid)))|].
  apply rtc_once, (bstep_call checkForUpdate_).
Qed.


Lemma bundle_invariant_witness :
  NoDup (app_guid <$> apps_ (bs_bundle sample_busy_bundle)) /\ IsBusy (bs_bundle sample_busy_bundle) = true.
Proof.
  destruct (bundle_invariant true [] (_T "en") sample_world sample_busy_bundle sample_busy_run) as [Hnd _].
  split; [exact Hnd|by vm_compute].
Defined.

(** A second call does not disturb the first. *)
Lemma one_call_at_a_time_witness :
  eval (bundle_call install_) sample_busy_bundle = GOOPDATE_E_NON_BLOCKING_CALL_PENDING /\
  user_work_item_ (bs_bundle (exec (bundle_call install_) sample_busy_bundle)) = Some Work_CheckForUpdate.
Proof.
  split; [by vm_compute|].
  assert (user_work_item_ (bs_bundle sample_busy_bundle) = Some Work_CheckForUpdate) as Hw by (by vm_compute).
  destruct (one_call_at_a_time true [] (_T "en") sample_world sample_busy_bundle _ _ sample_busy_run Hw
              (bstep_call install_ sample_busy_bundle)) as [Hs|[_ Hs]]; [exact Hs|].
  exfalso. assert (user_work_item_ (bs_bundle (exec (bundle_call install_) sample_busy_bundle)) <> None) as Hne
    by (vm_compute; congruence).
  exact (Hne Hs).
Defined.

End Witnesses.
