(* ===== verification/DownloadManager.v ===== *)
(** The download manager: omaha/goopdate/download_manager.cc.

    Downloading an application fetches each of its packages that is not cached
    from the first server that delivers it, verifies it on its way into the
    cache, and reports the outcome to the application. *)

From S2P Require Import Prelude Hresult CStrings Protocol Policy Package AppModel UpdateResponse AppFsm.
From S2P Require Import Paths Sha256 Files PackageCache.

(** The network, the configuration and the other services the manager calls.
    [net_DownloadFile n url] is the outcome of the n-th download: an error or the
    bytes received; [net_metrics n] what it measured.  A failed call returns a
    failure code. *)
Class Network := {
  net_CreateNetworkRequest : nat -> HRESULT;
  net_DownloadFile : nat -> CString -> HRESULT + list Z;
  net_metrics : nat -> list DownloadMetrics;
  UrlCombine : CString -> CString -> HRESULT + CString;
  CoCreateGuid : nat -> HRESULT + GUID;
  cm_CanUseNetwork : bool -> bool;
  cm_GetTempDownloadDir : CString;
  cm_ShouldVerifyPayloadAuthenticodeSignature : bool;
  VerifyGoogleAuthenticodeSignature : CString -> HRESULT;
  net_DownloadFile_failed : forall n url hr, net_DownloadFile n url = inl hr -> FAILED hr = true;
  UrlCombine_failed : forall base name hr, UrlCombine base name = inl hr -> FAILED hr = true;
  CoCreateGuid_failed : forall n hr, CoCreateGuid n = inl hr -> FAILED hr = true
}.

(** The manager: its cache and the applications being downloaded, with the
    application at hand, the files and the number of network calls. *)
Record DmSt := mkDmSt {
  ds_app : AppSt;
  ds_fs : FS;
  ds_calls : nat;
  ds_download_state : list GUID
}.

Abbreviation DmM := (St DmSt).

Definition with_app {A} (m : AppM A) : DmM A :=
  fun s => let '(a, s') := m (ds_app s) in (a, mkDmSt s' (ds_fs s) (ds_calls s) (ds_download_state s)).
Definition with_fs {A} (m : FsM A) : DmM A :=
  fun s => let '(a, fs') := m (ds_fs s) in (a, mkDmSt (ds_app s) fs' (ds_calls s) (ds_download_state s)).
Definition net_call : DmM nat :=
  fun s => (ds_calls s, mkDmSt (ds_app s) (ds_fs s) (S (ds_calls s)) (ds_download_state s)).
Definition dm_app : DmM App := gets (fun s => st_app (ds_app s)).
Definition set_download_state (l : list GUID) : DmM unit :=
  modify (fun s => mkDmSt (ds_app s) (ds_fs s) (ds_calls s) l).
Definition set_error_extra_code1 (extra_code : Z) : DmM unit :=
  modify (fun s =>
    let w := st_world (ds_app s) in
    mkDmSt (mkAppSt (mkWorld (w_trace w) (w_tick w) extra_code (w_machine w)) (st_app (ds_app s)))
      (ds_fs s) (ds_calls s) (ds_download_state s)).
Definition error_extra_code1 : DmM Z := gets (fun s => w_error_extra_code1 (st_world (ds_app s))).

Section Manager.
Context `{Env, GroupPolicy, GuidOps, Win32, Network} (ctx : BundleCtx) (pc : PackageCache).

(** [length] is the file's; [GetLength] fails on the value that marks an
    error. *)
Definition ValidateSize (length expected_size : Z) : HRESULT :=
  let file_size := u32 length in
  if file_size =? 0xFFFFFFFF then E_FAIL
  else if file_size =? 0 then GOOPDATEDOWNLOAD_E_FILE_SIZE_ZERO
  else if file_size <? expected_size then GOOPDATEDOWNLOAD_E_FILE_SIZE_SMALLER
  else if expected_size <? file_size then GOOPDATEDOWNLOAD_E_FILE_SIZE_LARGER
  else S_OK.

Definition AddDownloadMetricsPingEvents (download_metrics : list DownloadMetrics) : AppM unit :=
  for_each (fun m =>
    a ← get_app;
    let result := if dm_error m =? 0 then EVENT_RESULT_SUCCESS else EVENT_RESULT_ERROR in
    App_AddPingEvent (PingEventDownloadMetrics (is_update a) result m)) download_metrics.

Definition GetMessageForError (ec : ErrorContext) (language : CString) : CString :=
  let code := error_code ec in
  if (code =? SIGS_E_INVALID_SIGNATURE) || (code =? GOOPDATEDOWNLOAD_E_FILE_SIZE_ZERO)
     || (code =? GOOPDATEDOWNLOAD_E_FILE_SIZE_SMALLER) || (code =? GOOPDATEDOWNLOAD_E_FILE_SIZE_LARGER)
     || (code =? GOOPDATEDOWNLOAD_E_AUTHENTICODE_VERIFICATION_FAILED)
  then LoadString language IDS_DOWNLOAD_HASH_MISMATCH
  else if code =? GOOPDATEDOWNLOAD_E_CACHING_FAILED
  then FormatMessage language IDS_CACHING_ERROR [itostr (extra_code1 ec)]
  else
    let '(known, message) := FormatMessageForNetworkError code language in
    if known then message else LoadString language IDS_DOWNLOAD_ERROR.

Definition package_key (a : App) (package : Package) : Key :=
  PackageCache_Key (GuidToString (app_guid a)) (version (App_working_version a)) (filename package).

(** ** Signatures of executables *)

Definition kAuthenticodeVerifiableExtensions : list CString := [
  _T "exe"; _T "msi"; _T "dll"; _T "sys"; _T "cab"; _T "ocx"; _T "xpi"; _T "xap"; _T "cat"; _T "jar"; _T "ps1";
  _T "psm1"; _T "psd1"; _T "ps1xml"; _T "psc1"; _T "acm "; _T "ax"; _T "cpl"; _T "drv"; _T "efi"; _T "mui"; _T "scr";
  _T "sys"; _T "tsp"].

Definition EnsureSignatureIsValid (file_path : CString) : HRESULT :=
  match PathFindExtension file_path [] with
  | [] => S_OK
  | _ :: ext =>
      if existsb (fun e => EqualNoCase e ext) kAuthenticodeVerifiableExtensions
      then VerifyGoogleAuthenticodeSignature file_path
      else S_OK
  end.

(** ** One package *)

Definition CachePackage (package : Package) (source_file : list Z) (source_file_path : CString) : DmM HRESULT :=
  a ← dm_app;
  if cm_ShouldVerifyPayloadAuthenticodeSignature && FAILED (EnsureSignatureIsValid source_file_path)
  then mret GOOPDATEDOWNLOAD_E_AUTHENTICODE_VERIFICATION_FAILED
  else
    hr ← with_fs (Put pc (package_key a package) source_file (expected_hash package));
    if negb (hr =? SIGS_E_INVALID_SIGNATURE) then
      if FAILED hr then set_error_extra_code1 hr;; mret GOOPDATEDOWNLOAD_E_CACHING_FAILED
      else mret hr
    else
      let size_hr := ValidateSize (Z.of_nat (length source_file)) (expected_size package) in
      mret (if FAILED size_hr then size_hr else hr).

(** The received bytes are written to [filename], which is then opened. *)
Definition DoDownloadPackageFromUrl (url filename : CString) (package : Package) : DmM (HRESULT * list DownloadMetrics) :=
  n ← net_call;
  match net_DownloadFile n url with
  | inl hr => mret (hr, net_metrics n)
  | inr content =>
      with_fs (modify (set_file filename (mkFileData content (w32_filetime n))));;
      open_hr ← with_fs (win32 mret (fun _ => mret S_OK));
      if FAILED open_hr then mret (open_hr, net_metrics n)
      else hr ← CachePackage package content filename; mret (hr, net_metrics n)
  end.

(** The loop over the servers; [hr] is the result so far. *)
Fixpoint try_urls (urls : list CString) (i : Z) (unique_filename : CString) (package : Package) (hr : HRESULT) :
    DmM HRESULT :=
  match urls with
  | [] => mret hr
  | base :: urls' =>
      match UrlCombine base (filename package) with
      | inl hr => try_urls urls' (i + 1) unique_filename package hr
      | inr url =>
          '(hr, metrics) ← DoDownloadPackageFromUrl url unique_filename package;
          with_app (AddDownloadMetricsPingEvents metrics);;
          if SUCCEEDED hr then with_app (App_set_source_url_index i);; mret hr
          else try_urls urls' (i + 1) unique_filename package hr
      end
  end.

Definition BuildUniqueFileName (name : CString) : DmM (HRESULT + CString) :=
  n ← net_call;
  match CoCreateGuid n with
  | inl hr => mret (inl hr)
  | inr guid =>
      if IsEmpty cm_GetTempDownloadDir then mret (inl E_UNEXPECTED)
      else
        let unique := ConcatenatePath cm_GetTempDownloadDir (GuidToString guid ++ _T "-" ++ name) in
        mret (if IsEmpty unique then inl GOOPDATEDOWNLOAD_E_UNIQUE_FILE_PATH_EMPTY else inr unique)
  end.

(** [DoDownloadPackage] when the package is not cached. *)
Definition download_uncached (package : Package) : DmM HRESULT :=
  a ← dm_app;
  if negb (App_is_eula_accepted a) then mret GOOPDATE_E_APP_UPDATE_DISABLED_EULA_NOT_ACCEPTED
  else if negb (cm_CanUseNetwork (bc_is_machine ctx)) then mret GOOPDATE_E_CANNOT_USE_NETWORK
  else
    r ← BuildUniqueFileName (filename package);
    match r with
    | inl hr => mret hr
    | inr unique_filename =>
        with_app (App_SetCurrentTimeAs TIME_DOWNLOAD_START);;
        hr ← try_urls (download_base_urls (App_working_version a)) 0 unique_filename package E_FAIL;
        with_fs (DeleteBeforeOrAfterReboot unique_filename);;
        with_app (App_SetCurrentTimeAs TIME_DOWNLOAD_COMPLETE);;
        if FAILED hr then mret hr
        else with_app (App_UpdateNumBytesDownloaded (expected_size package));; mret S_OK
    end.

Definition DoDownloadPackage (package : Package) : DmM HRESULT :=
  a ← dm_app;
  if IsEmpty (GuidToString (app_guid a)) || IsEmpty (filename package) then mret E_INVALIDARG
  else
    is_cached ← (with_fs (IsCached pc (package_key a package) (expected_hash package)) : DmM bool);
    if (is_cached : bool) then mret S_OK else download_uncached package.

(** ** An application *)

Definition CreateStateForApp (guid : GUID) : DmM HRESULT :=
  n ← net_call;
  let hr := net_CreateNetworkRequest n in
  if FAILED hr then mret hr
  else
    l ← gets ds_download_state;
    set_download_state (l ++ [guid]);;
    mret S_OK.

(** Removes the first state of the application. *)
Fixpoint remove_state (guid : GUID) (l : list GUID) : option (list GUID) :=
  match l with
  | [] => None
  | g :: l' => if g =? guid then Some l' else (fun r => g :: r) <$> remove_state guid l'
  end.

Definition DeleteStateForApp (guid : GUID) : DmM HRESULT :=
  l ← gets ds_download_state;
  match remove_state guid l with
  | Some l' => set_download_state l';; mret S_OK
  | None => mret E_UNEXPECTED
  end.

(** The loop over the packages stops at the first failure. *)
Fixpoint download_packages (l : list Package) : DmM HRESULT :=
  match l with
  | [] => mret S_OK
  | package :: l' =>
      hr ← DoDownloadPackage package;
      if FAILED hr then mret hr else download_packages l'
  end.

Definition DownloadApp : DmM HRESULT :=
  a ← dm_app;
  let app_packages := packages (App_working_version a) in
  hr ← CreateStateForApp (app_guid a);
  if FAILED hr then mret hr
  else
    with_app (App_Downloading ctx);;
    hr ← download_packages app_packages;
    code1 ← error_extra_code1;
    (if SUCCEEDED hr then with_app (App_DownloadComplete ctx);; with_app (App_MarkReadyToInstall ctx)
     else
       let ec := mkErrorContext hr code1 in
       with_app (App_Error ctx ec (GetMessageForError ec (bc_display_language ctx))));;
    DeleteStateForApp (app_guid a);;
    mret hr.

Definition IsBusy (s : DmSt) : bool := match ds_download_state s with [] => false | _ => true end.

(** [GetPackage] copies a package out of the cache into a directory. *)
Definition GetPackage (package : Package) (dir : CString) : DmM HRESULT :=
  a ← dm_app;
  hr ← with_fs (Get pc (package_key a package) (ConcatenatePath dir (filename package)) (expected_hash package));
  mret (if FAILED hr then hr else S_OK).

Definition IsPackageAvailable (package : Package) : DmM bool :=
  a ← dm_app;
  with_fs (IsCached pc (package_key a package) (expected_hash package)).

End Manager.
