(* ===== verification/DownloadFacts.v ===== *)
(** The theorems about the download manager: what it puts into the cache has
    the hash of the manifest, what it reports to the application is what
    happened, and it forgets an application when it is done with it. *)

From S2P Require Import Prelude Hresult CStrings Protocol Policy PolicyFacts Package AppModel Sample UpdateResponse AppFsm.
From S2P Require Import AppRun AppTheorems AppFlow Paths Sha256 Files FilesFacts PackageCache PackageCacheFacts PurgeFacts DownloadManager.

(** ** What downloading leaves alone *)

(** The application is the same apart from its metrics and from pings that do
    not report its completion. *)
Definition app_kept (s s' : AppSt) : Prop :=
  same_app (st_app s) (st_app s')
  /\ app_state (st_app s') = app_state (st_app s)
  /\ completion (st_app s') = completion (st_app s)
  /\ next_version (st_app s') = next_version (st_app s)
  /\ has_update_available (st_app s') = has_update_available (st_app s)
  /\ completions (st_app s') = completions (st_app s).

#[export] Instance app_kept_refl : Reflexive app_kept.
Proof. intros s. by split_and!. Qed.

#[export] Instance app_kept_trans : Transitive app_kept.
Proof.
  intros a b c ([? ?] & ? & ? & ? & ? & ?) ([? ?] & ? & ? & ? & ? & ?). unfold app_kept, same_app.
  split_and!; congruence.
Qed.

Definition dm_kept (s s' : DmSt) : Prop := app_kept (ds_app s) (ds_app s').

#[export] Instance dm_kept_refl : Reflexive dm_kept.
Proof. intros s. unfold dm_kept. reflexivity. Qed.
#[export] Instance dm_kept_trans : Transitive dm_kept.
Proof. intros a b c. unfold dm_kept. apply app_kept_trans. Qed.

(** The file at [path] is the same. *)
Definition file_kept (path : CString) (s s' : DmSt) : Prop := fs_file path (ds_fs s') = fs_file path (ds_fs s).

#[export] Instance file_kept_refl path : Reflexive (file_kept path).
Proof. by intros s. Qed.
#[export] Instance file_kept_trans path : Transitive (file_kept path).
Proof. intros a b c. unfold file_kept. congruence. Qed.

(** The applications being downloaded are the same. *)
Definition states_kept (s s' : DmSt) : Prop := ds_download_state s' = ds_download_state s.

#[export] Instance states_kept_refl : Reflexive states_kept.
Proof. by intros s. Qed.
#[export] Instance states_kept_trans : Transitive states_kept.
Proof. intros a b c. unfold states_kept. congruence. Qed.

Lemma with_app_exec {A} (m : AppM A) s :
  exec (with_app m) s = mkDmSt (exec m (ds_app s)) (ds_fs s) (ds_calls s) (ds_download_state s).
Proof. unfold exec, with_app. by destruct (m (ds_app s)). Qed.

Lemma with_fs_exec {A} (m : FsM A) s :
  exec (with_fs m) s = mkDmSt (ds_app s) (exec m (ds_fs s)) (ds_calls s) (ds_download_state s).
Proof. unfold exec, with_fs. by destruct (m (ds_fs s)). Qed.

Lemma with_fs_eval {A} (m : FsM A) s : eval (with_fs m) s = eval m (ds_fs s).
Proof. unfold eval, with_fs. by destruct (m (ds_fs s)). Qed.

Lemma kept_with_app {A} (m : AppM A) : preserves app_kept m -> preserves dm_kept (with_app m).
Proof. intros Hm s. rewrite with_app_exec. apply Hm. Qed.
Lemma kept_with_fs {A} (m : FsM A) : preserves dm_kept (with_fs m).
Proof. intros s. by rewrite with_fs_exec. Qed.
Lemma kept_net_call : preserves dm_kept net_call.
Proof. by intros s. Qed.
Lemma kept_set_error z : preserves dm_kept (set_error_extra_code1 z).
Proof. by intros s. Qed.

Lemma states_with_app {A} (m : AppM A) : preserves states_kept (with_app m).
Proof. intros s. by rewrite with_app_exec. Qed.
Lemma states_with_fs {A} (m : FsM A) : preserves states_kept (with_fs m).
Proof. intros s. by rewrite with_fs_exec. Qed.
Lemma states_net_call : preserves states_kept net_call.
Proof. by intros s. Qed.
Lemma states_set_error z : preserves states_kept (set_error_extra_code1 z).
Proof. by intros s. Qed.

Lemma file_with_app {A} path (m : AppM A) : preserves (file_kept path) (with_app m).
Proof. intros s. by rewrite with_app_exec. Qed.
Lemma file_net_call path : preserves (file_kept path) net_call.
Proof. by intros s. Qed.
Lemma file_set_error path z : preserves (file_kept path) (set_error_extra_code1 z).
Proof. by intros s. Qed.
Lemma file_with_fs {A} path (m : FsM A) :
  (forall fs, fs_file path (exec m fs) = fs_file path fs) -> preserves (file_kept path) (with_fs m).
Proof. intros Hm s. rewrite with_fs_exec. apply Hm. Qed.

#[export] Hint Resolve kept_with_fs kept_net_call kept_set_error states_with_app states_with_fs states_net_call
  states_set_error file_with_app file_net_call file_set_error : preserves.

Section Facts.
Context `{Env, GroupPolicy, GuidOps, Win32, Network} (ctx : BundleCtx) (pc : PackageCache).

Lemma kept_SetCurrentTimeAs t : preserves dm_kept (with_app (App_SetCurrentTimeAs t)).
Proof. apply kept_with_app. intros s. by split_and!. Qed.
Lemma kept_set_source_url_index i : preserves dm_kept (with_app (App_set_source_url_index i)).
Proof. apply kept_with_app. intros s. by split_and!. Qed.
Lemma kept_UpdateNumBytes n : preserves dm_kept (with_app (App_UpdateNumBytesDownloaded n)).
Proof. apply kept_with_app. intros s. by split_and!. Qed.

Lemma kept_metrics_pings l : preserves dm_kept (with_app (AddDownloadMetricsPingEvents l)).
Proof.
  apply kept_with_app. unfold AddDownloadMetricsPingEvents. apply preserves_for_each; [apply _|apply _|].
  intros m s. rewrite exec_bind_get_app. cbv zeta. unfold App_AddPingEvent. rewrite exec_bind, exec_modify_app.
  unfold app_kept, completions. cbn. split_and!; try done.
  rewrite List.filter_app, length_app. cbn. by destruct (is_update (st_app s)).
Qed.

#[local] Hint Resolve kept_SetCurrentTimeAs kept_set_source_url_index kept_UpdateNumBytes kept_metrics_pings : preserves.

Lemma kept_CachePackage p c f : preserves dm_kept (CachePackage pc p c f).
Proof. unfold CachePackage, dm_app. preserve. Qed.

Lemma kept_FromUrl url f p : preserves dm_kept (DoDownloadPackageFromUrl pc url f p).
Proof. unfold DoDownloadPackageFromUrl. pose proof kept_CachePackage. preserve. Qed.

Lemma kept_try_urls urls : forall i f p hr, preserves dm_kept (try_urls pc urls i f p hr).
Proof. pose proof kept_FromUrl. induction urls as [|u urls IH]; intros i f p hr; cbn [try_urls]; preserve. Qed.

Lemma kept_DoDownloadPackage p : preserves dm_kept (DoDownloadPackage ctx pc p).
Proof.
  pose proof kept_try_urls. unfold DoDownloadPackage, download_uncached, dm_app, BuildUniqueFileName. preserve.
Qed.

Lemma kept_download_packages l : preserves dm_kept (download_packages ctx pc l).
Proof. pose proof kept_DoDownloadPackage. induction l as [|p l IH]; cbn [download_packages]; preserve. Qed.

Lemma states_try_urls urls : forall i f p hr, preserves states_kept (try_urls pc urls i f p hr).
Proof.
  induction urls as [|u urls IH]; intros i f p hr; cbn [try_urls];
    unfold DoDownloadPackageFromUrl, CachePackage, dm_app; preserve.
Qed.

Lemma states_download_packages l : preserves states_kept (download_packages ctx pc l).
Proof.
  pose proof states_try_urls. induction l as [|p l IH]; cbn [download_packages];
    unfold DoDownloadPackage, download_uncached, BuildUniqueFileName, dm_app; preserve.
Qed.

(** ** What is in the cache *)

(** The package is in the cache, with contents of the hash the manifest gives. *)
Definition stored (a : App) (p : Package) (fs : FS) : Prop :=
  exists path c, BuildCacheFileNameForKey pc (package_key a p) = inr path
    /\ fs_content path fs = Some c /\ hash_matches c (expected_hash p).

(** Temporary files are kept apart from the cache: none is at or above [path]. *)
Definition apart (path : CString) : Prop :=
  forall guid name,
  is_at_or_below (path_key (ConcatenatePath cm_GetTempDownloadDir (GuidToString guid ++ _T "-" ++ name)))
    (path_key path) = false.

Lemma IsCached_sound key hash fs :
  same_files fs (exec (IsCached pc key hash) fs)
  /\ (eval (IsCached pc key hash) fs = true ->
      exists path c, BuildCacheFileNameForKey pc key = inr path /\ fs_content path fs = Some c /\ hash_matches c hash).
Proof.
  unfold IsCached. destruct (BuildCacheFileNameForKey pc key) as [hr|path]; [done|].
  rewrite exec_bind, eval_bind. change (eval get fs) with fs. change (exec get fs) with fs.
  destruct (File_Exists path fs); cbn [negb]; [|done]. rewrite exec_bind, eval_bind, exec_ret, eval_ret.
  destruct (VerifyHash_sound path hash fs) as [Hs Hok]. split; [exact Hs|].
  intros (c & Hc & Hm)%Hok. by exists path, c.
Qed.

Lemma Put_leaves key source hash q fs :
  (forall path, BuildCacheFileNameForKey pc key = inr path -> path_key q <> path_key path) ->
  fs_file q (exec (Put pc key source hash) fs) = fs_file q fs.
Proof.
  intros Hq. destruct (BuildCacheFileNameForKey pc key) as [hr|path] eqn:Eb.
  - unfold Put. rewrite Eb. by destruct (key_incomplete key).
  - destruct (Put_sound pc key source hash fs path Eb) as [_ Hframe]. by apply Hframe, Hq.
Qed.

(** [CachePackage] that succeeds stores the package. *)
Lemma CachePackage_stores p source f s :
  SUCCEEDED (eval (CachePackage pc p source f) s) = true ->
  stored (st_app (ds_app s)) p (ds_fs (exec (CachePackage pc p source f) s)).
Proof.
  unfold CachePackage. rewrite exec_bind, eval_bind. change (eval dm_app s) with (st_app (ds_app s)).
  change (exec dm_app s) with s. set (a := st_app (ds_app s)).
  destruct (cm_ShouldVerifyPayloadAuthenticodeSignature && _); [done|].
  rewrite exec_bind, eval_bind, with_fs_exec, with_fs_eval.
  lazymatch goal with |- context [negb (?x =? SIGS_E_INVALID_SIGNATURE)] => set (hr := x) end.
  destruct (hr =? SIGS_E_INVALID_SIGNATURE) eqn:Esig; cbn [negb].
  { cbv zeta. rewrite eval_ret. apply Z.eqb_eq in Esig. rewrite Esig. intros Hok. exfalso. revert Hok.
    rewrite SUCCEEDED_not_FAILED. destruct (FAILED (ValidateSize _ _)) eqn:Ev; [by rewrite Ev|done]. }
  destruct (FAILED hr) eqn:Ef.
  { rewrite eval_bind, eval_ret. done. }
  intros _. rewrite exec_ret. cbn [ds_fs].
  assert (SUCCEEDED hr = true) as Hok by (by rewrite SUCCEEDED_not_FAILED, Ef).
  destruct (BuildCacheFileNameForKey pc (package_key a p)) as [hr'|path] eqn:Eb.
  { exfalso. subst hr. revert Hok. unfold Put, eval. rewrite Eb. unfold BuildCacheFileNameForKey, BuildCacheFileName in Eb.
    destruct (contains_dotdot _); [|done]. injection Eb as <-. by destruct (key_incomplete _). }
  destruct (Put_sound pc (package_key a p) source (expected_hash p) (ds_fs s) path Eb) as [Hput _].
  destruct (Hput Hok) as (c & Hc & Hm). by exists path, c.
Qed.

Lemma stored_kept s s' p fs : app_kept s s' -> stored (st_app s') p fs <-> stored (st_app s) p fs.
Proof.
  intros ([_ Hg] & _ & _ & Hv & _). unfold stored, package_key, App_working_version. by rewrite Hg, Hv.
Qed.

Lemma FromUrl_stores url f p s :
  SUCCEEDED (eval (DoDownloadPackageFromUrl pc url f p) s).1 = true ->
  stored (st_app (ds_app s)) p (ds_fs (exec (DoDownloadPackageFromUrl pc url f p) s)).
Proof.
  unfold DoDownloadPackageFromUrl. rewrite exec_bind, eval_bind.
  change (eval net_call s) with (ds_calls s). set (s0 := exec net_call s).
  destruct (net_DownloadFile (ds_calls s) url) as [hr|c] eqn:Ed.
  { rewrite eval_ret. cbn [fst]. by rewrite SUCCEEDED_not_FAILED, (net_DownloadFile_failed _ _ _ Ed). }
  rewrite exec_bind, eval_bind, with_fs_exec, exec_bind, eval_bind, with_fs_exec.
  lazymatch goal with |- context [FAILED ?x] => set (open_hr := x) end.
  destruct (FAILED open_hr) eqn:Eo.
  { rewrite eval_ret. cbn [fst]. by rewrite SUCCEEDED_not_FAILED, Eo. }
  rewrite exec_bind, eval_bind, exec_ret, eval_ret. cbn [fst]. apply CachePackage_stores.
Qed.

Lemma try_urls_stores urls : forall i f p hr s,
  FAILED hr = true -> SUCCEEDED (eval (try_urls pc urls i f p hr) s) = true ->
  stored (st_app (ds_app s)) p (ds_fs (exec (try_urls pc urls i f p hr) s)).
Proof.
  induction urls as [|u urls IH]; intros i f p hr s Hhr; cbn [try_urls].
  { by rewrite eval_ret, SUCCEEDED_not_FAILED, Hhr. }
  destruct (UrlCombine u (filename p)) as [hr'|url] eqn:Eu; [apply IH; by eapply UrlCombine_failed|].
  rewrite exec_bind, eval_bind. pose proof (FromUrl_stores url f p s) as Hstore.
  pose proof (kept_FromUrl url f p s) as Hkept.
  destruct (eval (DoDownloadPackageFromUrl pc url f p) s) as [hr1 metrics]. cbn [fst] in Hstore.
  set (s1 := exec (DoDownloadPackageFromUrl pc url f p) s) in *.
  rewrite exec_bind, eval_bind. set (s2 := exec (with_app (AddDownloadMetricsPingEvents metrics)) s1).
  assert (ds_fs s2 = ds_fs s1) as Hfs by (unfold s2; by rewrite with_app_exec).
  destruct (SUCCEEDED hr1) eqn:E1.
  - rewrite exec_bind, exec_ret, with_app_exec. cbn [ds_fs]. intros _. rewrite Hfs. by apply Hstore.
  - intros Hok. assert (app_kept (ds_app s) (ds_app s2)) as Hk by (etrans; [exact Hkept|apply kept_metrics_pings]).
    apply (stored_kept _ _ _ _ Hk). apply IH; [by rewrite FAILED_not_SUCCEEDED, E1|exact Hok].
Qed.

(** The temporary file is deleted; what is apart from it stays. *)
Lemma stored_delete a p unique fs :
  (forall path, BuildCacheFileNameForKey pc (package_key a p) = inr path ->
   is_at_or_below (path_key unique) (path_key path) = false) ->
  stored a p fs -> stored a p (exec (DeleteBeforeOrAfterReboot unique) fs).
Proof.
  intros Hapart (path & c & Hb & Hc & Hm). exists path, c. split_and!; [done| |done].
  destruct (Delete_spec unique fs) as [Hkeep _]. unfold fs_content. rewrite Hkeep; [exact Hc|by apply Hapart].
Qed.

Definition package_apart (a : App) (p : Package) : Prop :=
  forall path, BuildCacheFileNameForKey pc (package_key a p) = inr path -> apart path.

Lemma BuildUniqueFileName_cases name s :
  match eval (BuildUniqueFileName name) s with
  | inl hr => FAILED hr = true
  | inr unique => exists guid, unique = ConcatenatePath cm_GetTempDownloadDir (GuidToString guid ++ _T "-" ++ name)
  end.
Proof.
  unfold BuildUniqueFileName. rewrite eval_bind. change (eval net_call s) with (ds_calls s).
  destruct (CoCreateGuid (ds_calls s)) as [hr|guid] eqn:Eg; [by eapply CoCreateGuid_failed|].
  destruct (IsEmpty cm_GetTempDownloadDir); [done|]. cbv zeta. rewrite eval_ret.
  destruct (IsEmpty _); [done|]. by exists guid.
Qed.

Lemma BuildUniqueFileName_state name s :
  ds_app (exec (BuildUniqueFileName name) s) = ds_app s /\ ds_fs (exec (BuildUniqueFileName name) s) = ds_fs s.
Proof.
  unfold BuildUniqueFileName. rewrite exec_bind. change (eval net_call s) with (ds_calls s).
  destruct (CoCreateGuid _); [done|]. by destruct (IsEmpty cm_GetTempDownloadDir).
Qed.

Lemma download_uncached_stores p s :
  package_apart (st_app (ds_app s)) p ->
  SUCCEEDED (eval (download_uncached ctx pc p) s) = true ->
  stored (st_app (ds_app s)) p (ds_fs (exec (download_uncached ctx pc p) s)).
Proof.
  intros Hapart. unfold download_uncached. rewrite exec_bind, eval_bind.
  change (eval dm_app s) with (st_app (ds_app s)). change (exec dm_app s) with s.
  destruct (negb (App_is_eula_accepted _)); [done|]. destruct (negb (cm_CanUseNetwork _)); [done|].
  rewrite exec_bind, eval_bind. pose proof (BuildUniqueFileName_cases (filename p) s) as Hu.
  destruct (BuildUniqueFileName_state (filename p) s) as [Happ _].
  destruct (eval (BuildUniqueFileName (filename p)) s) as [hr|unique].
  { rewrite eval_ret, SUCCEEDED_not_FAILED, Hu. done. }
  destruct Hu as [guid Hu]. set (s1 := exec (BuildUniqueFileName (filename p)) s) in *.
  rewrite exec_bind, eval_bind. set (s2 := exec (with_app (App_SetCurrentTimeAs TIME_DOWNLOAD_START)) s1).
  rewrite exec_bind, eval_bind.
  pose proof (try_urls_stores (download_base_urls (App_working_version (st_app (ds_app s)))) 0 unique p E_FAIL s2 eq_refl) as Hst.
  set (hr := eval (try_urls _ _ _ _ _ _) s2) in *. set (s3 := exec (try_urls _ _ _ _ _ _) s2) in *.
  do 2 rewrite exec_bind, eval_bind. rewrite with_fs_exec, with_app_exec. cbn [ds_fs ds_app ds_calls ds_download_state].
  destruct (FAILED hr) eqn:Ef; [by rewrite eval_ret, SUCCEEDED_not_FAILED, Ef|].
  intros _. rewrite exec_bind, exec_ret, with_app_exec. cbn [ds_fs].
  apply stored_delete; [intros path Hb; rewrite Hu; by apply (Hapart path Hb)|].
  assert (app_kept (ds_app s) (ds_app s2)) as Hk.
  { rewrite <- Happ. apply (kept_SetCurrentTimeAs TIME_DOWNLOAD_START s1). }
  apply (stored_kept _ _ _ _ Hk), Hst. by rewrite SUCCEEDED_not_FAILED, Ef.
Qed.

Lemma DoDownloadPackage_stores p s :
  package_apart (st_app (ds_app s)) p ->
  SUCCEEDED (eval (DoDownloadPackage ctx pc p) s) = true ->
  stored (st_app (ds_app s)) p (ds_fs (exec (DoDownloadPackage ctx pc p) s)).
Proof.
  intros Hapart. unfold DoDownloadPackage. rewrite exec_bind, eval_bind.
  change (eval dm_app s) with (st_app (ds_app s)). change (exec dm_app s) with s.
  destruct (_ || _); [done|]. rewrite exec_bind, eval_bind, with_fs_exec, with_fs_eval.
  destruct (IsCached_sound (package_key (st_app (ds_app s)) p) (expected_hash p) (ds_fs s)) as [Hs Hok].
  set (fs1 := exec (IsCached _ _ _) _) in *.
  destruct (eval (IsCached _ _ _) _).
  - intros _. rewrite exec_ret. cbn [ds_fs]. destruct (Hok eq_refl) as (path & c & Hb & Hc & Hm).
    exists path, c. by rewrite (same_files_content (ds_fs s)).
  - apply (download_uncached_stores p (mkDmSt (ds_app s) fs1 (ds_calls s) (ds_download_state s))). exact Hapart.
Qed.

(** ** What the download of a package leaves in the cache *)

Lemma file_CachePackage q p c f s :
  (forall path, BuildCacheFileNameForKey pc (package_key (st_app (ds_app s)) p) = inr path -> path_key q <> path_key path) ->
  file_kept q s (exec (CachePackage pc p c f) s).
Proof.
  intros Hq. unfold CachePackage. rewrite exec_bind. change (eval dm_app s) with (st_app (ds_app s)).
  change (exec dm_app s) with s. destruct (_ && _); [done|]. rewrite exec_bind, with_fs_exec.
  assert (file_kept q s (mkDmSt (ds_app s) (exec (Put pc (package_key (st_app (ds_app s)) p) c (expected_hash p)) (ds_fs s))
    (ds_calls s) (ds_download_state s))) as Hput by by apply Put_leaves.
  destruct (negb _); [|exact Hput]. destruct (FAILED _); exact Hput.
Qed.

(** [q] is not where the package is cached. *)
Definition elsewhere (q : CString) (a : App) (p : Package) : Prop :=
  forall path, BuildCacheFileNameForKey pc (package_key a p) = inr path -> path_key q <> path_key path.

Lemma elsewhere_kept q s s' p : app_kept s s' -> elsewhere q (st_app s) p -> elsewhere q (st_app s') p.
Proof. intros ([_ Hg] & _ & _ & Hv & _). unfold elsewhere, package_key, App_working_version. by rewrite Hg, Hv. Qed.

Lemma file_FromUrl q url f p s :
  path_key q <> path_key f -> elsewhere q (st_app (ds_app s)) p ->
  file_kept q s (exec (DoDownloadPackageFromUrl pc url f p) s).
Proof.
  intros Hf Hq. unfold DoDownloadPackageFromUrl. rewrite exec_bind. change (eval net_call s) with (ds_calls s).
  set (s0 := exec net_call s). destruct (net_DownloadFile (ds_calls s) url) as [hr|c]; [done|].
  rewrite exec_bind, with_fs_exec. set (s1 := mkDmSt _ _ _ _).
  assert (file_kept q s s1) as Hk1.
  { unfold file_kept, s1. cbn [ds_fs]. unfold fs_file, set_file, exec. cbn. rewrite lookup_insert_ne; [done|by apply not_eq_sym]. }
  rewrite exec_bind, with_fs_exec. set (s2 := mkDmSt (ds_app s1) _ _ _).
  assert (file_kept q s s2) as Hk2.
  { etrans; [exact Hk1|]. unfold file_kept, s2. cbn [ds_fs].
    apply same_files_file. generalize (ds_fs s1). intros fs1. unfold exec. by win32_step. }
  destruct (FAILED _); [exact Hk2|]. rewrite exec_bind, exec_ret. etrans; [exact Hk2|]. by apply file_CachePackage.
Qed.

Lemma file_try_urls urls : forall q i f p hr s,
  path_key q <> path_key f -> elsewhere q (st_app (ds_app s)) p ->
  file_kept q s (exec (try_urls pc urls i f p hr) s).
Proof.
  induction urls as [|u urls IH]; intros q i f p hr s Hf Hq; cbn [try_urls]; [done|].
  destruct (UrlCombine u (filename p)) as [hr'|url]; [by apply IH|].
  rewrite exec_bind. pose proof (file_FromUrl q url f p s Hf Hq) as Hkeep.
  pose proof (kept_FromUrl url f p s) as Hkept.
  destruct (eval (DoDownloadPackageFromUrl pc url f p) s) as [hr1 metrics].
  set (s1 := exec (DoDownloadPackageFromUrl pc url f p) s) in *.
  rewrite exec_bind. set (s2 := exec (with_app (AddDownloadMetricsPingEvents metrics)) s1).
  assert (file_kept q s s2) as Hk2 by (etrans; [exact Hkeep|apply file_with_app]).
  destruct (SUCCEEDED hr1).
  - etrans; [exact Hk2|]. rewrite exec_bind. apply file_with_app.
  - etrans; [exact Hk2|]. apply IH; [done|]. apply (elsewhere_kept q (ds_app s)); [|done].
    etrans; [exact Hkept|apply kept_metrics_pings].
Qed.

Lemma file_uncached q p s :
  apart q -> elsewhere q (st_app (ds_app s)) p -> file_kept q s (exec (download_uncached ctx pc p) s).
Proof.
  intros Hapart Hq. unfold download_uncached. rewrite exec_bind.
  change (eval dm_app s) with (st_app (ds_app s)). change (exec dm_app s) with s.
  destruct (negb _); [done|]. destruct (negb _); [done|]. rewrite exec_bind.
  pose proof (BuildUniqueFileName_cases (filename p) s) as Hu. destruct (BuildUniqueFileName_state (filename p) s) as [Happ Hfs].
  destruct (eval (BuildUniqueFileName (filename p)) s) as [hr|unique]; [exact (f_equal (fs_file q) Hfs)|].
  destruct Hu as [guid ->]. set (unique := ConcatenatePath _ _). set (s1 := exec (BuildUniqueFileName _) s) in *.
  assert (file_kept q s s1) as Hk1 by exact (f_equal (fs_file q) Hfs). etrans; [exact Hk1|].
  rewrite exec_bind. set (s2 := exec (with_app (App_SetCurrentTimeAs TIME_DOWNLOAD_START)) s1).
  assert (file_kept q s1 s2) as Hk2 by apply file_with_app. etrans; [exact Hk2|].
  pose proof (Hapart guid (filename p)) as Hbelow. fold unique in Hbelow. rewrite exec_bind. etrans.
  { apply (file_try_urls (download_base_urls (App_working_version (st_app (ds_app s)))) q 0 unique p E_FAIL s2).
    - intros Heq. by rewrite Heq, is_at_or_below_refl in Hbelow.
    - apply (elsewhere_kept q (ds_app s)); [|done]. rewrite <- Happ. apply (kept_SetCurrentTimeAs TIME_DOWNLOAD_START s1). }
  rewrite exec_bind. etrans.
  { apply (file_with_fs q (DeleteBeforeOrAfterReboot unique)). intros fs. destruct (Delete_spec unique fs) as [Hkeep _].
    by apply Hkeep. }
  rewrite exec_bind. etrans; [apply (file_with_app q (App_SetCurrentTimeAs TIME_DOWNLOAD_COMPLETE))|].
  destruct (FAILED _); [done|]. rewrite exec_bind. apply (file_with_app q (App_UpdateNumBytesDownloaded (expected_size p))).
Qed.

Lemma file_DoDownloadPackage q p s :
  apart q -> elsewhere q (st_app (ds_app s)) p -> file_kept q s (exec (DoDownloadPackage ctx pc p) s).
Proof.
  intros Hapart Hq. unfold DoDownloadPackage. rewrite exec_bind.
  change (eval dm_app s) with (st_app (ds_app s)). change (exec dm_app s) with s.
  destruct (_ || _); [done|]. rewrite exec_bind, with_fs_exec, with_fs_eval.
  destruct (IsCached_sound (package_key (st_app (ds_app s)) p) (expected_hash p) (ds_fs s)) as [Hs _].
  set (s1 := mkDmSt _ _ _ _). assert (file_kept q s s1) as Hk1 by exact (same_files_file _ _ q Hs).
  destruct (eval (IsCached _ _ _) _); [exact Hk1|]. etrans; [exact Hk1|]. by apply file_uncached.
Qed.

(** The packages of an application are cached under different names, apart from
    the temporary files. *)
Definition packages_apart (a : App) (l : list Package) : Prop :=
  Forall (package_apart a) l
  /\ forall i j p q path, l !! i = Some p -> l !! j = Some q -> i <> j ->
     BuildCacheFileNameForKey pc (package_key a p) = inr path -> elsewhere path a q.

Lemma stored_other a p s s' :
  (forall path, BuildCacheFileNameForKey pc (package_key a p) = inr path -> file_kept path s s') ->
  stored a p (ds_fs s) -> stored a p (ds_fs s').
Proof.
  intros Hk (path & c & Hb & Hc & Hm). exists path, c. split_and!; [done| |done].
  unfold fs_content. by rewrite (Hk path Hb).
Qed.

Lemma packages_apart_kept s s' l : app_kept s s' -> packages_apart (st_app s) l -> packages_apart (st_app s') l.
Proof.
  intros ([_ Hg] & _ & _ & Hv & _). unfold packages_apart, package_apart, elsewhere, package_key, App_working_version.
  by rewrite Hg, Hv.
Qed.

Lemma packages_apart_tail a p l : packages_apart a (p :: l) ->
  package_apart a p /\ packages_apart a l
  /\ forall path, BuildCacheFileNameForKey pc (package_key a p) = inr path -> Forall (elsewhere path a) l.
Proof.
  intros [[Hp Hl]%Forall_cons Hne]. split_and!; [done| |].
  - split; [done|]. intros i j p1 q path Hi Hj Hij. apply (Hne (S i) (S j)); [done|done|lia].
  - intros path Hb. apply Forall_lookup_2. intros i q Hq. by apply (Hne 0%nat (S i) p q path).
Qed.

Lemma file_download_packages q l : forall s,
  apart q -> Forall (elsewhere q (st_app (ds_app s))) l -> file_kept q s (exec (download_packages ctx pc l) s).
Proof.
  induction l as [|p l IH]; intros s Hq Hl; cbn [download_packages]; [done|].
  apply Forall_cons in Hl as [Hp Hl]. rewrite exec_bind. etrans; [by apply (file_DoDownloadPackage q p)|].
  destruct (FAILED _); [done|]. apply IH; [done|]. eapply Forall_impl; [exact Hl|].
  intros p' Hp'. by apply (elsewhere_kept q (ds_app s)); [apply kept_DoDownloadPackage|].
Qed.

Lemma download_packages_store l : forall s,
  packages_apart (st_app (ds_app s)) l ->
  SUCCEEDED (eval (download_packages ctx pc l) s) = true ->
  Forall (fun p => stored (st_app (ds_app s)) p (ds_fs (exec (download_packages ctx pc l) s))) l.
Proof.
  induction l as [|p l IH]; intros s Hl; cbn [download_packages]; [by constructor|].
  apply packages_apart_tail in Hl as (Hp & Hl & Hother). rewrite exec_bind, eval_bind.
  pose proof (DoDownloadPackage_stores p s Hp) as Hst. pose proof (kept_DoDownloadPackage p s) as Hk.
  set (hr := eval (DoDownloadPackage ctx pc p) s) in *. set (s1 := exec (DoDownloadPackage ctx pc p) s) in *.
  destruct (FAILED hr) eqn:Ef; [by rewrite eval_ret, SUCCEEDED_not_FAILED, Ef|]. intros Hok. constructor.
  - apply (stored_other _ _ s1); [|apply Hst; by rewrite SUCCEEDED_not_FAILED, Ef].
    intros path Hb. apply file_download_packages; [by apply Hp|]. eapply Forall_impl; [exact (Hother path Hb)|].
    intros q. by apply elsewhere_kept.
  - eapply Forall_impl; [apply (IH s1); [by apply (packages_apart_kept (ds_app s))|exact Hok]|].
    intros q. cbn. apply (stored_kept _ _ _ _ Hk).
Qed.

(** ** An application *)

(** [Downloading] changes the state of the application, not what it installs. *)
Lemma Downloading_version s :
  let a' := st_app (exec (App_Downloading ctx) s) in
  app_guid a' = app_guid (st_app s) /\ next_version a' = next_version (st_app s).
Proof.
  cbv zeta. unfold App_Downloading, AppStateWaitingToDownload_Downloading. rewrite with_state_exec.
  destruct (app_state (st_app s)); unfold HandleInvalidStateTransition, AppState_Error, App_SetError;
    rewrite ?exec_bind, ?exec_modify_app, ChangeState_app; done.
Qed.

(** What [DownloadApp] does after the state of the download is created. *)
Definition report_download (hr : HRESULT) : DmM unit :=
  code1 ← error_extra_code1;
  if SUCCEEDED hr then with_app (App_DownloadComplete ctx);; with_app (App_MarkReadyToInstall ctx)
  else
    let ec := mkErrorContext hr code1 in
    with_app (App_Error ctx ec (GetMessageForError ec (bc_display_language ctx))).

Lemma report_download_kept hr s :
  ds_fs (exec (report_download hr) s) = ds_fs s /\ ds_download_state (exec (report_download hr) s) = ds_download_state s.
Proof.
  unfold report_download. rewrite exec_bind. change (exec error_extra_code1 s) with s.
  destruct (SUCCEEDED hr); [rewrite exec_bind|cbv zeta]; rewrite !with_app_exec; done.
Qed.

Lemma CreateStateForApp_cases guid s :
  let hr := net_CreateNetworkRequest (ds_calls s) in
  CreateStateForApp guid s =
    (if FAILED hr then (hr, mkDmSt (ds_app s) (ds_fs s) (S (ds_calls s)) (ds_download_state s))
     else (S_OK, mkDmSt (ds_app s) (ds_fs s) (S (ds_calls s)) (ds_download_state s ++ [guid]))).
Proof.
  cbv zeta. unfold CreateStateForApp, net_call, mbind, St_bind. by destruct (FAILED _).
Qed.

(** The states of a call that creates the state of the download: after the
    creation, after [Downloading], after the packages and after the report. *)
Lemma DownloadApp_phases s :
  let a := st_app (ds_app s) in
  if FAILED (net_CreateNetworkRequest (ds_calls s)) then
    eval (DownloadApp ctx pc) s = net_CreateNetworkRequest (ds_calls s)
    /\ exec (DownloadApp ctx pc) s = mkDmSt (ds_app s) (ds_fs s) (S (ds_calls s)) (ds_download_state s)
  else
    let s1 := mkDmSt (ds_app s) (ds_fs s) (S (ds_calls s)) (ds_download_state s ++ [app_guid a]) in
    let s2 := exec (with_app (App_Downloading ctx)) s1 in
    let hr := eval (download_packages ctx pc (packages (App_working_version a))) s2 in
    let s3 := exec (download_packages ctx pc (packages (App_working_version a))) s2 in
    eval (DownloadApp ctx pc) s = hr
    /\ exec (DownloadApp ctx pc) s = exec (DeleteStateForApp (app_guid a)) (exec (report_download hr) s3).
Proof.
  cbv zeta. unfold DownloadApp. rewrite exec_bind, eval_bind. change (eval dm_app s) with (st_app (ds_app s)).
  change (exec dm_app s) with s. cbv zeta. rewrite exec_bind, eval_bind.
  pose proof (CreateStateForApp_cases (app_guid (st_app (ds_app s))) s) as Hc. cbv zeta in Hc.
  destruct (FAILED (net_CreateNetworkRequest (ds_calls s))) eqn:Ef.
  - rewrite (f_equal fst Hc : eval _ s = _), (f_equal snd Hc : exec _ s = _). cbn [fst snd]. by rewrite Ef.
  - rewrite (f_equal fst Hc : eval _ s = _), (f_equal snd Hc : exec _ s = _). cbn [fst snd].
    change (FAILED S_OK) with false. cbv iota. rewrite exec_bind, eval_bind, exec_bind, eval_bind.
    split; [by rewrite !eval_bind|]. unfold report_download. by rewrite !exec_bind.
Qed.

Lemma DeleteStateForApp_last guid l s :
  ds_download_state s = l ++ [guid] -> guid ∉ l ->
  exec (DeleteStateForApp guid) s = mkDmSt (ds_app s) (ds_fs s) (ds_calls s) l.
Proof.
  intros Hl Hnew. unfold DeleteStateForApp. rewrite exec_bind.
  change (eval (gets ds_download_state) s) with (ds_download_state s). rewrite Hl.
  assert (remove_state guid (l ++ [guid]) = Some l) as ->; [|done].
  clear Hl. induction l as [|g l IH]; cbn [remove_state app]; [by rewrite Z.eqb_refl|].
  apply not_elem_of_cons in Hnew as [Hne Hnew]. rewrite (proj2 (Z.eqb_neq g guid)) by congruence.
  by rewrite IH.
Qed.

Lemma DeleteStateForApp_fs guid s :
  ds_fs (exec (DeleteStateForApp guid) s) = ds_fs s /\ ds_app (exec (DeleteStateForApp guid) s) = ds_app s.
Proof.
  unfold DeleteStateForApp. rewrite exec_bind. by destruct (remove_state _ _).
Qed.

Lemma report_download_app hr s :
  app_state (st_app (ds_app s)) = AppStateDownloading ->
  let a' := st_app (ds_app (exec (report_download hr) s)) in
  if SUCCEEDED hr then app_state a' = AppStateReadyToInstall
  else app_state a' = AppStateError /\ App_error_code a' = hr.
Proof.
  intros Hst. cbv zeta. unfold report_download. rewrite exec_bind. change (exec error_extra_code1 s) with s.
  destruct (SUCCEEDED hr); [rewrite exec_bind|cbv zeta]; rewrite !with_app_exec; cbn [ds_app].
  - unfold App_DownloadComplete. rewrite with_state_exec, Hst. unfold AppStateDownloading_DownloadComplete.
    set (s1 := exec (ChangeState _ _) _). assert (app_state (st_app s1) = AppStateDownloadComplete) as Hs1
      by (unfold s1; by rewrite ChangeState_app).
    unfold App_MarkReadyToInstall. rewrite with_state_exec, Hs1. unfold AppStateDownloadComplete_MarkReadyToInstall.
    by rewrite ChangeState_app.
  - unfold App_Error. rewrite with_state_exec, Hst. cbn [state_Error].
    apply (AppState_Error_app ctx (mkErrorContext hr (eval error_extra_code1 s))).
Qed.

(** What happens to the application. *)
Lemma DownloadApp_app s :
  app_state (st_app (ds_app s)) = AppStateWaitingToDownload ->
  let hr := eval (DownloadApp ctx pc) s in
  let s' := exec (DownloadApp ctx pc) s in
  if FAILED (net_CreateNetworkRequest (ds_calls s))
  then hr = net_CreateNetworkRequest (ds_calls s) /\ ds_app s' = ds_app s /\ ds_fs s' = ds_fs s
  else if SUCCEEDED hr then app_state (st_app (ds_app s')) = AppStateReadyToInstall
  else app_state (st_app (ds_app s')) = AppStateError /\ App_error_code (st_app (ds_app s')) = hr.
Proof.
  intros Hst. cbv zeta. pose proof (DownloadApp_phases s) as Hp. cbv zeta in Hp.
  destruct (FAILED (net_CreateNetworkRequest (ds_calls s))); [by destruct Hp as [-> ->]|].
  set (s1 := mkDmSt _ _ _ _) in Hp. set (s2 := exec (with_app (App_Downloading ctx)) s1) in Hp.
  destruct Hp as [Hev Hex]. rewrite Hev, Hex. clear Hev Hex.
  set (l := packages _). set (hr := eval (download_packages ctx pc l) s2). set (s3 := exec (download_packages ctx pc l) s2).
  assert (app_state (st_app (ds_app s2)) = AppStateDownloading) as Hs2.
  { unfold s2. rewrite with_app_exec. cbn [ds_app]. unfold App_Downloading.
    rewrite with_state_exec. cbn [s1 ds_app]. rewrite Hst. unfold AppStateWaitingToDownload_Downloading.
    by rewrite ChangeState_app. }
  assert (app_state (st_app (ds_app s3)) = AppStateDownloading) as Hs3.
  { destruct (kept_download_packages l s2) as (_ & Hk & _). unfold s3. by rewrite Hk. }
  pose proof (report_download_app hr s3 Hs3) as Hr. cbv zeta in Hr.
  by rewrite (proj2 (DeleteStateForApp_fs (app_guid (st_app (ds_app s))) _)).
Qed.

(** The manager forgets the application. *)
Lemma DownloadApp_state s :
  app_guid (st_app (ds_app s)) ∉ ds_download_state s ->
  ds_download_state (exec (DownloadApp ctx pc) s) = ds_download_state s.
Proof.
  intros Hnew. pose proof (DownloadApp_phases s) as Hp. cbv zeta in Hp.
  destruct (FAILED (net_CreateNetworkRequest (ds_calls s))); [by destruct Hp as [_ ->]|].
  set (s1 := mkDmSt _ _ _ _) in Hp. set (s2 := exec (with_app (App_Downloading ctx)) s1) in Hp.
  destruct Hp as [_ Hex]. rewrite Hex. clear Hex.
  set (l := packages _). set (hr := eval (download_packages ctx pc l) s2). set (s3 := exec (download_packages ctx pc l) s2).
  assert (ds_download_state s3 = ds_download_state s ++ [app_guid (st_app (ds_app s))]) as Hd3.
  { unfold s3. rewrite (states_download_packages l s2). unfold s2. by rewrite with_app_exec. }
  destruct (report_download_kept hr s3) as [_ Hd]. rewrite Hd3 in Hd.
  by rewrite (DeleteStateForApp_last _ _ _ Hd Hnew).
Qed.

(** C13. The outcome of downloading an application that waits for it is what the
    manager reports: if the network request cannot be created nothing happens
    to the application, which stays waiting; otherwise it is ready to install
    when the call succeeds and fails with the code of the call when it does not.
    The manager keeps no state of the application in any case. *)
Theorem DownloadApp_outcome s :
  app_state (st_app (ds_app s)) = AppStateWaitingToDownload ->
  app_guid (st_app (ds_app s)) ∉ ds_download_state s ->
  let hr := eval (DownloadApp ctx pc) s in
  let s' := exec (DownloadApp ctx pc) s in
  ds_download_state s' = ds_download_state s
  /\ if FAILED (net_CreateNetworkRequest (ds_calls s))
     then hr = net_CreateNetworkRequest (ds_calls s) /\ ds_app s' = ds_app s /\ ds_fs s' = ds_fs s
     else if SUCCEEDED hr then app_state (st_app (ds_app s')) = AppStateReadyToInstall
     else app_state (st_app (ds_app s')) = AppStateError /\ App_error_code (st_app (ds_app s')) = hr.
Proof. intros Hst Hnew. split; [by apply DownloadApp_state|by apply DownloadApp_app]. Qed.

(** C12. When downloading an application succeeds, every package of the version
    it installs is in the cache with contents of the hash that the manifest
    gives, provided the packages are cached under different names and apart
    from the temporary files.  What is cached while another package is fetched
    stays. *)
Theorem DownloadApp_stores s :
  let a := st_app (ds_app s) in
  let l := packages (App_working_version a) in
  packages_apart a l ->
  SUCCEEDED (eval (DownloadApp ctx pc) s) = true ->
  Forall (fun p => stored a p (ds_fs (exec (DownloadApp ctx pc) s))) l.
Proof.
  intros a l Hapart Hok. pose proof (DownloadApp_phases s) as Hp. cbv zeta in Hp. fold a in Hp. fold l in Hp.
  destruct (FAILED (net_CreateNetworkRequest (ds_calls s))) eqn:Ef.
  { destruct Hp as [Hev _]. by rewrite Hev, SUCCEEDED_not_FAILED, Ef in Hok. }
  set (s1 := mkDmSt _ _ _ _) in Hp. set (s2 := exec (with_app (App_Downloading ctx)) s1) in Hp.
  destruct Hp as [Hev Hex]. rewrite Hev in Hok. rewrite Hex.
  rewrite (proj1 (DeleteStateForApp_fs _ _)), (proj1 (report_download_kept _ _)).
  assert (app_guid (st_app (ds_app s2)) = app_guid a /\ next_version (st_app (ds_app s2)) = next_version a) as [Hg Hv].
  { unfold s2. rewrite with_app_exec. apply (Downloading_version (ds_app s1)). }
  assert (forall p, package_key (st_app (ds_app s2)) p = package_key a p) as Hkey.
  { intros p. unfold package_key, App_working_version. by rewrite Hg, Hv. }
  assert (packages_apart (st_app (ds_app s2)) l) as Hapart2.
  { revert Hapart. unfold packages_apart, package_apart, elsewhere. by setoid_rewrite Hkey. }
  pose proof (download_packages_store l s2 Hapart2 Hok) as Hst. eapply Forall_impl; [exact Hst|].
  intros p. unfold stored. by rewrite Hkey.
Qed.

(** ** The codes of a failure to cache *)

(** Caching a downloaded file fails with the signature code exactly when
    the signature of an executable is required and not valid; else the error of
    the cache decides: an integrity failure is reported as a wrong size when
    the file is empty, smaller or larger than announced, and as the integrity
    failure otherwise; any other error becomes the caching code, with the error
    as its extra code. *)
Theorem CachePackage_codes p source f s :
  let r := eval (CachePackage pc p source f) s in
  let size := u32 (Z.of_nat (length source)) in
  let put := eval (Put pc (package_key (st_app (ds_app s)) p) source (expected_hash p)) (ds_fs s) in
  let s' := exec (CachePackage pc p source f) s in
  if cm_ShouldVerifyPayloadAuthenticodeSignature && FAILED (EnsureSignatureIsValid f)
  then r = GOOPDATEDOWNLOAD_E_AUTHENTICODE_VERIFICATION_FAILED /\ ds_fs s' = ds_fs s
  else if put =? SIGS_E_INVALID_SIGNATURE then
    (size = 2 ^ 32 - 1 -> r = E_FAIL)
    /\ (size = 0 -> r = GOOPDATEDOWNLOAD_E_FILE_SIZE_ZERO)
    /\ (0 < size < 2 ^ 32 - 1 -> size < expected_size p -> r = GOOPDATEDOWNLOAD_E_FILE_SIZE_SMALLER)
    /\ (0 < size < 2 ^ 32 - 1 -> expected_size p < size -> r = GOOPDATEDOWNLOAD_E_FILE_SIZE_LARGER)
    /\ (0 < size < 2 ^ 32 - 1 -> size = expected_size p -> r = SIGS_E_INVALID_SIGNATURE)
  else if FAILED put then
    r = GOOPDATEDOWNLOAD_E_CACHING_FAILED /\ w_error_extra_code1 (st_world (ds_app s')) = put
  else r = put.
Proof.
  cbv zeta. unfold CachePackage. rewrite exec_bind, eval_bind. change (eval dm_app s) with (st_app (ds_app s)).
  change (exec dm_app s) with s.
  destruct (cm_ShouldVerifyPayloadAuthenticodeSignature && FAILED (EnsureSignatureIsValid f)); [done|].
  rewrite exec_bind, eval_bind, with_fs_exec, with_fs_eval.
  lazymatch goal with |- context [negb (?x =? SIGS_E_INVALID_SIGNATURE)] => set (hr := x) end.
  change (eval (Put pc (package_key (st_app (ds_app s)) p) source (expected_hash p)) (ds_fs s)) with hr.
  destruct (hr =? SIGS_E_INVALID_SIGNATURE) eqn:Es; cbn [negb];
    [|destruct (FAILED hr); [by rewrite eval_bind, exec_bind|done]].
  apply Z.eqb_eq in Es. rewrite eval_ret, Es. unfold ValidateSize. set (size := u32 _).
  split_and!; intros; repeat (case_match; try (rewrite ?Z.eqb_eq, ?Z.eqb_neq, ?Z.ltb_lt, ?Z.ltb_ge in * ); try lia); try done.
Qed.

(** The extension "acm" is listed with a blank after it among the extensions
    whose signatures are verified, so that no file whose name ends in ".acm" is
    verified, whatever the verification would find. *)
Theorem acm_files_are_not_verified name : EnsureSignatureIsValid (name ++ _T ".acm") = S_OK.
Proof.
  unfold EnsureSignatureIsValid.
  assert (forall ext, PathFindExtension (name ++ _T ".acm") ext = _T ".acm") as ->; [|done].
  induction name as [|c name IH]; intros ext; [done|]. cbn [app PathFindExtension]. apply IH.
Qed.

End Facts.

(** ** Witnesses *)

(** The first server is down; the second delivers "abc" for every name. *)
#[refine]
Definition sample_network : Network := {|
  net_CreateNetworkRequest _ := S_OK;
  net_DownloadFile _ url := if existsb (Z.eqb 33) url then inl E_FAIL else inr [97; 98; 99];
  net_metrics _ := [];
  UrlCombine base name := inr (base ++ name);
  CoCreateGuid n := inr (Z.of_nat n);
  cm_CanUseNetwork _ := true;
  cm_GetTempDownloadDir := _T "C:\Temp";
  cm_ShouldVerifyPayloadAuthenticodeSignature := true;
  VerifyGoogleAuthenticodeSignature _ := S_OK
|}.
Proof.
  - intros n url hr. destruct (existsb _ url); [by intros [= <-]|discriminate].
  - discriminate.
  - discriminate.
Defined.

Definition abc_package (name : CString) : Package := Package_SetFileInfo name 3 abc_hash Package_init.

(** An application with two packages on two servers. *)
Definition sample_download : DmSt :=
  mkDmSt
    (mkAppSt sample_world
      (set_next_version
        (mkAppVersion (_T "2.0.0.0") None [abc_package (_T "a.exe"); abc_package (_T "b.exe")]
          [_T "https://down!/"; _T "https://up/"])
        (set_app_state AppStateWaitingToDownload (sample_app false))))
    empty_disk 0 [].

Section Witnesses.
#[local] Existing Instances sample_env guid_ops open_policy good_disk sample_network.

Lemma DownloadApp_outcome_witness :
  app_state (st_app (ds_app (exec (DownloadApp sample_ctx sample_cache) sample_download))) = AppStateReadyToInstall.
Proof.
  assert (SUCCEEDED (eval (DownloadApp sample_ctx sample_cache) sample_download) = true) as Hok by (by vm_compute).
  pose proof (DownloadApp_outcome sample_ctx sample_cache sample_download eq_refl) as Hout.
  cbv zeta in Hout. rewrite Hok in Hout. apply Hout. apply not_elem_of_nil.
Defined.

Lemma sample_cache_apart rest : apart (_T "C:\Cache" ++ rest).
Proof. intros guid name. by destruct guid. Qed.

Lemma sample_packages_apart :
  let a := st_app (ds_app sample_download) in packages_apart sample_cache a (packages (App_working_version a)).
Proof.
  cbv zeta. split.
  - apply Forall_cons; split; [|apply Forall_singleton]; intros path Hb; vm_compute in Hb; injection Hb as <-;
      lazymatch goal with |- apart ?path => exact (sample_cache_apart (drop 8 path)) end.
  - intros i j p q path Hp Hq Hij Hb path' Hb'.
    destruct i as [|[|i]]; [| |discriminate Hp]; (destruct j as [|[|j]]; [| |discriminate Hq]); try done;
      injection Hp as <-; injection Hq as <-; vm_compute in Hb, Hb'; injection Hb as <-; injection Hb' as <-;
      by apply (bool_decide_eq_true_1 (_ <> _)).
Qed.

Lemma DownloadApp_stores_witness :
  stored sample_cache (st_app (ds_app sample_download)) (abc_package (_T "b.exe"))
    (ds_fs (exec (DownloadApp sample_ctx sample_cache) sample_download)).
Proof.
  assert (SUCCEEDED (eval (DownloadApp sample_ctx sample_cache) sample_download) = true) as Hok by (by vm_compute).
  pose proof (DownloadApp_stores sample_ctx sample_cache sample_download sample_packages_apart Hok) as Hst.
  exact (proj1 (proj1 (Forall_cons _ _ _) (proj2 (proj1 (Forall_cons _ _ _) Hst)))).
Defined.
End Witnesses.
