(* ===== verification/Worker.v ===== *)
(** The worker: what the bundles' asynchronous calls do (omaha/goopdate/worker.cc),
    the copying of packages (app_version.cc) and offline installations
    (offline_utils.cc).

    The work of a bundle runs on one thread.  Its methods are composed of the
    methods of the applications, of the download and install managers, of the
    update server's client, of the pings and of the application manager; all of
    them share the machine.  The clock of [RegEnv] is that of the work. *)

From S2P Require Import Prelude Hresult CStrings Paths Sha256 Files PackageCache Protocol WebClient Policy Package.
From S2P Require Import Registry AppRegistry Machine Time Labels AppModel AppManager UpdateResponse Timers Ping AppFsm.
From S2P Require Import Installer DownloadManager Bundle.

Definition kOfflineManifestFileName : CString := _T "OfflineManifest.gup".
Definition kRegValueInstallerProgress : CString := _T "InstallerProgress".
Definition DEBUG_SOURCE_CUP_FAILURE : Z := 0.

(** What the sources do not define: the surroundings of requests, unique names
    for the directories of installers, and the directory they are in. *)
Class WorkerEnv := {
  wk_request_env : RequestEnv;
  wk_GetGuid : nat -> HRESULT + CString;
  wk_install_working_dir : CString;
  wk_GetGuid_failed : forall n hr, wk_GetGuid n = inl hr -> FAILED hr = true
}.

(** ** Sharing the machine *)

(** The download manager at work on an application. *)
Definition dm_lift {A} (m : DmM A) : AppM A := fun s =>
  let mach := w_machine (st_world s) in
  let '(a, d) := m (mkDmSt s (m_fs mach) (m_calls mach) (m_download_state mach)) in
  let w := st_world (ds_app d) in
  (a, mkAppSt (mkWorld (w_trace w) (w_tick w) (w_error_extra_code1 w)
                 (set_downloads (ds_fs d) (ds_calls d) (ds_download_state d) (w_machine w)))
        (st_app (ds_app d))).

(** A computation on the machine. *)
Definition on_machine {A} (m : MachM A) : BundleM A := fun s =>
  let w := bs_world s in
  let '(a, mach) := m (w_machine w) in
  (a, mkBundleSt (mkWorld (w_trace w) (w_tick w) (w_error_extra_code1 w) mach) (bs_bundle s) (bs_calls s)).

(** A method of an application that returns a value. *)
Definition on_app_with {A} (default : A) (i : nat) (m : BundleCtx -> AppM A) : BundleM A := fun s =>
  let b := bs_bundle s in
  match apps_ b !! i with
  | None => (default, s)
  | Some a =>
      let '(x, s') := m (bundle_ctx b) (mkAppSt (bs_world s) a) in
      (x, mkBundleSt (st_world s') (set_apps (<[i := st_app s']> (apps_ b)) b) (bs_calls s))
  end.

(** The client is made when the bundle is initialized, before any work. *)
Definition client_of (b : AppBundle) : WebServicesClient :=
  default (WebServicesClient_init (is_machine_ b)) (update_check_client_ b).

Section Worker.
Context `{Env, GroupPolicy, GuidOps, RegEnv, Calendar, HttpStack, PingEnv, Win32, Network, Installers, BundleEnv, WorkerEnv}.
Context (pc : PackageCache).

(** ** The managers of an application *)

Fixpoint copy_packages (l : list Package) (dir : CString) : AppM HRESULT :=
  match l with
  | [] => mret S_OK
  | package :: l =>
      hr ← dm_lift (GetPackage pc package dir);
      if FAILED hr then mret hr else copy_packages l dir
  end.
Definition CopyAppVersionPackages (app_version : AppVersion) (dir : CString) : AppM HRESULT :=
  hr ← with_files (CreateDir dir);
  if FAILED hr then mret hr else copy_packages (packages app_version) dir.

Definition worker_managers (b : AppBundle) : Managers := {|
  mgr_DownloadApp := dm_lift (DownloadApp (bundle_ctx b) pc);
  mgr_InstallApp := InstallManager_InstallApp (bundle_ctx b) (priority_ (bundle_props b)) (session_id_ (bundle_props b));
  mgr_install_working_dir := wk_install_working_dir;
  mgr_GetGuid := wk_GetGuid;
  mgr_CopyAppVersionPackages := CopyAppVersionPackages;
  mgr_ConcatenatePath := ConcatenatePath
|}.

(** ** Pings of the worker *)

Definition uninstall_ping : PingEvent := PingEvent4 EVENT_UNINSTALL EVENT_RESULT_SUCCESS 0 0.

(** The ping of a bundle: the events of the applications whose licence was
    accepted. *)
Definition BuildPing (b : AppBundle) : Ping :=
  let p := bundle_props b in
  let ping := Ping_Initialize wk_request_env (is_machine_ b) (session_id_ p) (install_source_ p) (request_id_ p) in
  fold_left (fun ping a => if App_is_eula_accepted a then Ping_BuildRequest (bundle_ctx b) a ping else ping)
    (apps_ b ++ uninstalled_apps_ b) ping.
Definition BuildAndPersistPing : BundleM HRESULT :=
  b ← get_bundle;
  on_registry (PersistPing (BuildPing b)).

(** [App::AddPingEvent] of an uninstalled application. *)
Definition add_uninstall_ping (i : nat) : BundleM unit :=
  modify_bundle (fun b =>
    set_uninstalled_apps (alter (fun a => set_ping_events (ping_events a ++ [uninstall_ping]) a) i (uninstalled_apps_ b)) b);;
  BuildAndPersistPing;;
  mret tt.

(** An application that cannot be created ends the loop. *)
Fixpoint add_uninstalled (app_ids : list CString) : BundleM HRESULT :=
  match app_ids with
  | [] => mret S_OK
  | app_id :: app_ids =>
      if decide (app_id = kGoogleUpdateAppId) then add_uninstalled app_ids
      else
        '(hr, i) ← CreateUninstalledApp app_id;
        if FAILED hr then mret hr
        else
          add_uninstall_ping i;;
          b ← get_bundle;
          match uninstalled_apps_ b !! i with
          | Some a => on_registry (RemoveClientState (is_machine_ b) (app_guid a));; mret tt
          | None => mret tt
          end;;
          add_uninstalled app_ids
  end.
Definition AddUninstalledAppsPings : BundleM HRESULT :=
  b ← get_bundle;
  r ← on_registry get;
  match GetUninstalledApps (is_machine_ b) r with
  | inl hr => mret hr
  | inr uninstalled_app_ids => add_uninstalled uninstalled_app_ids
  end.

Definition SendOemInstalledPing (is_machine : bool) (session_id : CString) : BundleM HRESULT :=
  apps ← on_registry (GetOemInstalledAndEulaAcceptedApps is_machine);
  match apps with
  | inl hr => mret hr
  | inr oem_installed_apps =>
      request_id ← ext_call NewGuidString;
      r ← on_registry get;
      let ping := Ping_Initialize wk_request_env is_machine session_id [] request_id in
      let ping := LoadAppDataFromRegistry oem_installed_apps r ping in
      let ping := BuildAppsPing (PingEvent4 EVENT_INSTALL_OEM_FIRST_CHECK EVENT_RESULT_SUCCESS 0 0) ping in
      hr ← on_machine (SendReliablePing false ping);
      if FAILED hr then mret hr
      else on_registry (ClearOemInstalled is_machine oem_installed_apps);; mret S_OK
  end.

Definition SendCupFailurePing (is_machine : bool) (session_id install_source : CString) (extra_code : HRESULT) : BundleM unit :=
  request_id ← ext_call NewGuidString;
  r ← on_registry get;
  let ping := Ping_Initialize wk_request_env is_machine session_id install_source request_id in
  let ping := LoadOmahaDataFromRegistry r ping in
  let ping := BuildOmahaPing [] [] [PingEvent4 EVENT_DEBUG EVENT_RESULT_ERROR DEBUG_SOURCE_CUP_FAILURE extra_code] ping in
  on_machine (SendReliablePing false ping);;
  mret tt.

(** The end of a bundle: its ping is sent on a thread of its own. *)
Definition SendPingEvents (ping : Ping) : BundleM unit :=
  ext_call impersonate;;
  on_machine (Ping_Send false ping);;
  mret tt.
Definition SendPingEventsAsync : BundleM HRESULT :=
  ext_call impersonate;;
  b ← get_bundle;
  r ← on_registry get;
  if negb (CanUseNetwork (is_machine_ b) r) then mret S_OK
  else
    hr ← ext_call QueueUserWorkItem;
    if FAILED hr then mret hr else SendPingEvents (BuildPing b);; mret S_OK.
Definition AppBundle_destroy : BundleM unit :=
  b ← get_bundle;
  when (send_pings_ (bundle_props b)) (SendPingEventsAsync;; mret tt);;
  modify_bundle (fun b => set_update_check_client None (set_uninstalled_apps [] (set_apps [] b))).

(** ** The update check *)

(** The applications add themselves to the request. *)
Fixpoint pre_update_checks (indices : list nat) (update_request : Request) : BundleM Request :=
  match indices with
  | [] => mret update_request
  | i :: indices =>
      update_request ← on_app_with update_request i (fun ctx => App_PreUpdateCheck ctx update_request);
      pre_update_checks indices update_request
  end.
Definition DoPreUpdateCheck (update_request : Request) : BundleM Request :=
  b ← get_bundle;
  pre_update_checks (seq 0 (length (apps_ b))) update_request.

Definition GetV2OfflineManifest (app_id offline_dir : CString) : CString := ConcatenatePath offline_dir (app_id ++ _T ".gup").

(** [DeserializeFromFile]: a file that cannot be read has a failure. *)
Definition ParseOfflineManifest (app_id offline_dir : CString) (fs : FS) : HRESULT * Response :=
  let manifest_path := ConcatenatePath offline_dir kOfflineManifestFileName in
  let manifest_path := if File_Exists manifest_path fs then manifest_path else GetV2OfflineManifest app_id offline_dir in
  match fs_content manifest_path fs with
  | None => (HRESULT_FROM_WIN32 ERROR_FILE_NOT_FOUND, Response_init)
  | Some buffer =>
      let '(hr, response) := Response_Deserialize buffer Response_init in
      (if FAILED hr then hr else S_OK, response)
  end.

Definition is_offline_install (b : AppBundle) : bool := negb (IsEmpty (offline_dir_ (bundle_props b))).

(** The client of the bundle posts the request. *)
Definition with_update_check_client {A} (m : WsM A) : BundleM (A * Response) := fun s =>
  let w := bs_world s in
  let mach := w_machine w in
  let '(a, ws) := m (mkWsSt (client_of (bs_bundle s)) Response_init (m_attempts mach) (m_posts mach)) in
  ((a, ws_response ws),
   mkBundleSt (mkWorld (w_trace w) (w_tick w) (w_error_extra_code1 w) (set_posts (ws_attempts ws) (ws_posts ws) mach))
     (set_update_check_client (Some (ws_client ws)) (bs_bundle s)) (bs_calls s)).

Definition DoUpdateCheck (update_request : Request) : BundleM (HRESULT * Response) :=
  b ← get_bundle;
  let is_machine := is_machine_ b in
  if UpdateRequest_IsEmpty update_request then mret (S_OK, Response_init)
  else if is_offline_install b then
    m ← on_machine get;
    let app_id := match apps_ b with a :: _ => GuidToString (app_guid a) | [] => [] end in
    mret (ParseOfflineManifest app_id (offline_dir_ (bundle_props b)) (m_fs m))
  else
    r ← on_registry get;
    if negb (CanUseNetwork is_machine r) then mret (GOOPDATE_E_CANNOT_USE_NETWORK, Response_init)
    else
      let is_foreground := priority_ (bundle_props b) =? INSTALL_PRIORITY_HIGH in
      '(hr, response) ← with_update_check_client (Send (fun m => CanUseNetwork m r) is_foreground update_request);
      mret (if FAILED hr then hr else S_OK, response).

(** ** Offline installations *)

Definition FindV2OfflinePackagePath (offline_app_dir : CString) : FsM (HRESULT + CString) :=
  files ← FindFiles offline_app_dir;
  match files with
  | inl hr => mret (inl hr)
  | inr files =>
      if negb (length files =? 3)%nat then mret (inl (HRESULT_FROM_WIN32 ERROR_FILE_NOT_FOUND))
      else
        fs ← get;
        mret (match List.find (fun d => negb (bool_decide (path_key (ConcatenatePath offline_app_dir (fd_cFileName d)) ∈ fs_dirs fs))) files with
              | Some d => inr (ConcatenatePath offline_app_dir (fd_cFileName d))
              | None => inl (HRESULT_FROM_WIN32 ERROR_FILE_NOT_FOUND)
              end)
  end.

Definition cache_offline_package (offline_dir : CString) (package : Package) : AppM HRESULT :=
  available ← (dm_lift (IsPackageAvailable pc package) : AppM bool);
  if (available : bool) then mret S_OK
  else
    a ← get_app;
    let offline_app_dir := ConcatenatePath offline_dir (GuidToString (app_guid a)) in
    let offline_package_path := ConcatenatePath offline_app_dir (filename package) in
    exists_ ← (with_files (gets (File_Exists offline_package_path)) : AppM bool);
    path ← (if (exists_ : bool) then mret (inr offline_package_path) else with_files (FindV2OfflinePackagePath offline_app_dir));
    match path with
    | inl hr => mret hr
    | inr offline_package_path =>
        hr ← with_files (win32 mret (fun _ => mret S_OK));
        if FAILED hr then mret hr
        else
          content ← with_files (gets (fs_content offline_package_path));
          match content with
          | None => mret (HRESULT_FROM_WIN32 ERROR_FILE_NOT_FOUND)
          | Some content => dm_lift (CachePackage pc package content offline_package_path)
          end
    end.

Fixpoint cache_packages (offline_dir : CString) (l : list Package) : AppM HRESULT :=
  match l with
  | [] => mret S_OK
  | package :: l =>
      hr ← cache_offline_package offline_dir package;
      if FAILED hr then mret hr else cache_packages offline_dir l
  end.

Fixpoint cache_apps (offline_dir : CString) (indices : list nat) : BundleM HRESULT :=
  match indices with
  | [] => mret S_OK
  | i :: indices =>
      hr ← on_app_with S_OK i (fun _ => a ← get_app; cache_packages offline_dir (packages (App_working_version a)));
      if FAILED hr then mret hr else cache_apps offline_dir indices
  end.
Definition CacheOfflinePackages : BundleM HRESULT :=
  b ← get_bundle;
  cache_apps (offline_dir_ (bundle_props b)) (seq 0 (length (apps_ b))).

Definition DoPostUpdateCheck (update_check_result : HRESULT) (update_response : Response) : BundleM unit :=
  b ← get_bundle;
  on_registry (ApplyExperimentLabelDeltas (is_machine_ b) update_response);;
  on_registry (PersistRetryAfter (is_machine_ b) (retry_after_sec_ (client_of b)));;
  for_apps (fun ctx => App_PostUpdateCheck ctx update_check_result update_response);;
  if is_offline_install b then
    CacheOfflinePackages;;
    on_machine (fun m => let '(_, fs) := DeleteBeforeOrAfterReboot (offline_dir_ (bundle_props b)) (m_fs m) in (tt, set_fs fs m))
  else mret tt.

Definition FetchAndResetLogText : BundleM CString := fun s =>
  let b := bs_bundle s in
  (concat (event_log_text <$> apps_ b),
   mkBundleSt (bs_world s) (set_apps (set_event_log_text [] <$> apps_ b) b) (bs_calls s)).

(** The result says whether the check was successful. *)
Definition CheckForUpdateHelper : BundleM bool :=
  b ← get_bundle;
  let is_machine := is_machine_ b in
  let p := bundle_props b in
  r ← on_registry get;
  when (CanUseNetwork is_machine r) (SendOemInstalledPing is_machine (session_id_ p);; mret tt);;
  hr ← ext_call impersonate;
  if FAILED hr then mret false
  else
    request_id ← ext_call NewGuidString;
    let update_request :=
      UpdateRequest_Create wk_request_env is_machine (session_id_ p) (install_source_ p) (origin_url_ p) request_id in
    update_request ← DoPreUpdateCheck update_request;
    '(hr, update_response) ← DoUpdateCheck update_request;
    DoPostUpdateCheck hr update_response;;
    b ← get_bundle;
    when (IsCupError hr && (retry_after_sec_ (client_of b) <=? 0))
      (SendCupFailurePing is_machine (session_id_ p) (install_source_ p) hr);;
    FetchAndResetLogText;;
    mret (SUCCEEDED hr).

Definition Worker_CheckForUpdate : BundleM unit := CheckForUpdateHelper;; CompleteAsyncCall.

(** ** Downloads and installations *)

Definition download_app : BundleM unit :=
  b ← get_bundle; for_apps (fun ctx => @App_Download _ _ ctx (worker_managers b)).

(** The bundle stays busy when the client cannot be impersonated. *)
Definition Worker_Download : BundleM unit :=
  hr ← ext_call impersonate;
  if FAILED hr then mret tt
  else
    download_app;;
    FetchAndResetLogText;;
    CompleteAsyncCall.

Definition download_and_install_app (b : AppBundle) (ctx : BundleCtx) : AppM unit :=
  @App_Download _ _ ctx (worker_managers b);;
  App_QueueInstall ctx;;
  @App_Install _ ctx (worker_managers b).

Definition DownloadAndInstallHelper : BundleM unit :=
  hr ← ext_call impersonate;
  if FAILED hr then mret tt
  else
    b ← get_bundle;
    for_apps (download_and_install_app b);;
    FetchAndResetLogText;;
    mret tt.

Definition Worker_DownloadAndInstall : BundleM unit :=
  AddUninstalledAppsPings;;
  DownloadAndInstallHelper;;
  CompleteAsyncCall.

(** What the metrics of available updates record: the updater's own numbers and
    those of the application with the most responses. *)
Definition max_responses (is_machine : bool) (r : Registry) (best : GUID * Z * Z) (app_id : CString) : GUID * Z * Z :=
  match StringToGuidSafe app_id with
  | None => best
  | Some app_guid =>
      if kGoopdateGuid =? app_guid then best
      else
        let '(update_responses, time_since_first_response_ms) := ReadUpdateAvailableStats is_machine app_guid r in
        if best.1.2 <? update_responses then (app_guid, update_responses, time_since_first_response_ms) else best
  end.
Definition RecordUpdateAvailableUsageStats (is_machine : bool) (r : Registry) : (Z * Z) * option (GUID * Z * Z) :=
  let own := ReadUpdateAvailableStats is_machine kGoopdateGuid r in
  (own, match GetRegisteredApps is_machine r with
        | inl _ => None
        | inr registered_app_ids =>
            let best := fold_left (max_responses is_machine r) registered_app_ids (GUID_NULL, 0, 0) in
            if best.1.2 =? 0 then None else Some best
        end).

Definition Worker_UpdateAllApps : BundleM unit :=
  is_check_successful ← (CheckForUpdateHelper : BundleM bool);
  b ← get_bundle;
  when is_check_successful (on_registry (UpdateLastChecked (is_machine_ b));; mret tt);;
  for_apps App_QueueDownloadOrInstall;;
  AddUninstalledAppsPings;;
  DownloadAndInstallHelper;;
  CompleteAsyncCall.

Definition Worker_DownloadPackage : BundleM unit :=
  hr ← ext_call impersonate;
  if FAILED hr then mret tt
  else
    FetchAndResetLogText;;
    CompleteAsyncCall.

(** The work that is queued. *)
Definition run_work_item (w : WorkItem) : BundleM unit :=
  match w with
  | Work_CheckForUpdate => Worker_CheckForUpdate
  | Work_Download => Worker_Download
  | Work_DownloadAndInstall => Worker_DownloadAndInstall
  | Work_UpdateAllApps => Worker_UpdateAllApps
  | Work_DownloadPackage _ _ => Worker_DownloadPackage
  end.

End Worker.
