(* ===== verification/WorkerFacts.v ===== *)
(** The work of a bundle comes to its end: whatever the network, the disk and the
    installers do, every application is settled when the bundle is ready again. *)

From S2P Require Import Prelude Hresult CStrings Paths Sha256 Files PackageCache PackageCacheFacts Protocol WebClient Policy PolicyFacts Package.
From S2P Require Import Registry AppRegistry Machine Time Labels Gregorian AppModel Sample AppManager UpdateResponse UpdateFacts Timers Ping PingFacts AppFsm.
From S2P Require Import AppRun AppTheorems AppFlow Installer InstallerFacts DownloadManager DownloadFacts Bundle BundleFacts Worker.

(** ** States of applications *)

Definition one_of (l : list AppState) (a : App) : Prop := app_state a ∈ l.

Definition queued_for_check : list AppState := [AppStateWaitingToCheckForUpdate; AppStateError].
Definition being_checked : list AppState := [AppStateCheckingForUpdate; AppStateError].
Definition checked : list AppState := [AppStateUpdateAvailable; AppStateNoUpdate; AppStateError].
Definition installable : list AppState := [AppStateUpdateAvailable; AppStateReadyToInstall; AppStateNoUpdate; AppStateError].
Definition queued_for_install : list AppState :=
  [AppStateWaitingToDownload; AppStateWaitingToInstall; AppStateNoUpdate; AppStateError].
Definition finished : list AppState := [AppStateInstallComplete; AppStateNoUpdate; AppStateError].

Ltac in_list := unfold one_of; apply (bool_decide_unpack _); by vm_compute.

Section Ends.
Context `{Env, GroupPolicy, GuidOps} (ctx : BundleCtx).

(** The computation leaves the application in one of the states. *)
Definition ends {A} (l : list AppState) (m : AppM A) : Prop := forall s, one_of l (st_app (exec m s)).

Lemma ends_bind {A B} l (m : AppM A) (k : A -> AppM B) : (forall x, ends l (k x)) -> ends l (m ≫= k).
Proof. intros Hk s. rewrite exec_bind. apply Hk. Qed.

Lemma ends_then_ret {A B} l (m : AppM A) (x : B) : ends l m -> ends l (m;; mret x).
Proof. intros Hm s. rewrite exec_bind, exec_ret. apply Hm. Qed.

Lemma ends_ChangeState l n : n ∈ l -> ends l (ChangeState ctx n).
Proof. intros Hn s. unfold one_of. by rewrite ChangeState_app. Qed.

Lemma ends_state_Error l st ec message : AppStateError ∈ l -> st <> AppStateError -> ends l (state_Error ctx st ec message).
Proof. intros Hl Hst s. unfold one_of. by rewrite state_Error_state. Qed.

Lemma ends_HandleInvalid l st : AppStateError ∈ l -> ends l (HandleInvalidStateTransition ctx st).
Proof. intros Hl s. unfold one_of, HandleInvalidStateTransition, AppState_Error. by rewrite exec_bind, ChangeState_app. Qed.

Lemma ends_GroupPolicyError l st code : AppStateError ∈ l -> st <> AppStateError -> ends l (HandleGroupPolicyError ctx st code).
Proof. intros Hl Hst. unfold HandleGroupPolicyError. do 2 (apply ends_bind; intros ?). by apply ends_state_Error. Qed.

(** ** The update check *)

Lemma QueueUpdateCheck_ends s : one_of [AppStateInit] (st_app s) -> one_of queued_for_check (st_app (exec (App_QueueUpdateCheck ctx) s)).
Proof.
  intros Hst%list_elem_of_singleton. unfold App_QueueUpdateCheck. rewrite exec_bind_get_app, exec_bind, with_state_exec.
  case_bool_decide; cbn [when].
  - rewrite App_Error_state. cbn [state_QueueUpdateCheck]. apply ends_HandleInvalid. in_list.
  - rewrite exec_ret, Hst. cbn [state_QueueUpdateCheck]. unfold AppStateInit_QueueUpdateCheck.
    eapply (ends_bind queued_for_check). intros ?. do 2 (apply ends_bind; intros ?). apply ends_ChangeState. in_list.
Qed.

Lemma PreUpdateCheck_ends r s :
  one_of queued_for_check (st_app s) -> one_of being_checked (st_app (exec (App_PreUpdateCheck ctx r) s)).
Proof.
  intros Hst. unfold App_PreUpdateCheck. rewrite exec_bind_get_app.
  unfold one_of, queued_for_check in Hst. rewrite elem_of_cons, list_elem_of_singleton in Hst. destruct Hst as [-> |Hst].
  - unfold AppStateWaitingToCheckForUpdate_PreUpdateCheck. rewrite exec_bind_get_app. cbv zeta.
    destruct (FAILED _).
    + apply ends_then_ret, ends_GroupPolicyError; [in_list|done].
    + pose proof (PreUpdateCheck_allowed_spec ctx r s) as Hp. cbv zeta in Hp. unfold one_of.
      destruct (App_is_eula_accepted _ || _); [destruct Hp as [-> _]|destruct Hp as (_ & -> & _)]; in_list.
  - rewrite Hst, exec_ret. unfold one_of. rewrite Hst. in_list.
Qed.

Lemma HandleResponse_ends response : ends checked (HandleResponse ctx response).
Proof.
  unfold HandleResponse. apply ends_bind. intros a. destruct (GetUpdateResponseResult ctx a response) as [code message].
  destruct (SUCCEEDED code); [|destruct (_ =? _); [|destruct (_ =? _)]].
  - unfold HandleUpdateAvailable. do 2 (apply ends_bind; intros ?). destruct (FAILED _).
    + apply ends_state_Error; [in_list|done].
    + do 4 (apply ends_bind; intros ?). apply ends_ChangeState. in_list.
  - unfold HandleUpdateDeferred. apply ends_bind. intros ?. apply ends_ChangeState. in_list.
  - unfold HandleNoUpdate. do 2 (apply ends_bind; intros ?). destruct (negb _).
    + apply ends_state_Error; [in_list|done].
    + do 3 (apply ends_bind; intros ?). apply ends_ChangeState. in_list.
  - unfold HandleErrorResponse. apply ends_bind. intros ?. apply ends_state_Error; [in_list|done].
Qed.

Lemma PostUpdateCheck_ends hr response s :
  one_of being_checked (st_app s) -> one_of checked (st_app (exec (App_PostUpdateCheck ctx hr response) s)).
Proof.
  intros Hst. unfold App_PostUpdateCheck. rewrite with_state_exec.
  unfold one_of, being_checked in Hst. rewrite elem_of_cons, list_elem_of_singleton in Hst. destruct Hst as [-> |Hst].
  - unfold AppStateCheckingForUpdate_PostUpdateCheck. eapply (ends_bind checked). intros ?. destruct (FAILED hr).
    + apply ends_bind. intros ?. apply ends_state_Error; [in_list|done].
    + do 2 (apply ends_bind; intros ?). apply HandleResponse_ends.
  - rewrite Hst. unfold no_op. rewrite exec_ret. unfold one_of. rewrite Hst. in_list.
Qed.

Lemma QueueDownloadOrInstall_ends s :
  one_of installable (st_app s) -> one_of queued_for_install (st_app (exec (App_QueueDownloadOrInstall ctx) s)).
Proof.
  intros Hst. unfold App_QueueDownloadOrInstall. rewrite with_state_exec.
  unfold one_of, installable in Hst. rewrite !elem_of_cons, elem_of_nil in Hst.
  destruct Hst as [-> |[-> |[Hst|[Hst|[]]]]].
  - unfold AppStateUpdateAvailable_QueueDownloadOrInstall, AppStateUpdateAvailable_QueueDownload.
    eapply (ends_bind queued_for_install). intros ?. cbv zeta. destruct (FAILED _).
    + apply ends_GroupPolicyError; [in_list|done].
    + apply ends_bind. intros ?. apply ends_ChangeState. in_list.
  - unfold AppStateReadyToInstall_QueueDownloadOrInstall, AppStateReadyToInstall_QueueInstall. apply ends_ChangeState. in_list.
  - rewrite Hst. unfold no_op. rewrite exec_ret. unfold one_of. rewrite Hst. in_list.
  - rewrite Hst. unfold no_op. rewrite exec_ret. unfold one_of. rewrite Hst. in_list.
Qed.

Lemma QueueInstall_ends s :
  one_of [AppStateWaitingToDownload; AppStateReadyToInstall; AppStateWaitingToInstall; AppStateNoUpdate; AppStateError] (st_app s) ->
  one_of [AppStateWaitingToInstall; AppStateNoUpdate; AppStateError] (st_app (exec (App_QueueInstall ctx) s)).
Proof.
  intros Hst. unfold App_QueueInstall. rewrite with_state_exec.
  unfold one_of in Hst. rewrite !elem_of_cons, elem_of_nil in Hst.
  destruct Hst as [-> |[-> |[Hst|[Hst|[Hst|[]]]]]].
  - apply ends_HandleInvalid. in_list.
  - unfold AppStateReadyToInstall_QueueInstall. apply ends_ChangeState. in_list.
  - rewrite Hst. unfold no_op. rewrite exec_ret. unfold one_of. rewrite Hst. in_list.
  - rewrite Hst. unfold no_op. rewrite exec_ret. unfold one_of. rewrite Hst. in_list.
  - rewrite Hst. unfold no_op. rewrite exec_ret. unfold one_of. rewrite Hst. in_list.
Qed.

End Ends.

(** ** Downloading and installing *)

Definition same_state (s s' : AppSt) : Prop := app_state (st_app s') = app_state (st_app s).

#[export] Instance same_state_refl : Reflexive same_state.
Proof. by intros s. Qed.
#[export] Instance same_state_trans : Transitive same_state.
Proof. intros a b c. unfold same_state. congruence. Qed.

Lemma same_state_dm_lift {A} (m : DmM A) : preserves dm_kept m -> preserves same_state (dm_lift m).
Proof.
  intros Hm s. specialize (Hm (mkDmSt s (m_fs (w_machine (st_world s))) (m_calls (w_machine (st_world s)))
    (m_download_state (w_machine (st_world s))))) as (_ & Hst & _).
  unfold same_state, dm_lift, exec in *. destruct (m _) as [a d]. exact Hst.
Qed.

Lemma same_state_with_files {A} (m : FsM A) : preserves same_state (with_files m).
Proof. intros s. unfold same_state. by rewrite (with_files_same m s). Qed.

Lemma same_state_Sleep ms : preserves same_state (Sleep ms).
Proof. intros s. unfold same_state. by rewrite (Sleep_same ms s). Qed.

Lemma same_state_get_app : preserves same_state get_app.
Proof. by intros s. Qed.

#[export] Hint Resolve same_state_with_files same_state_Sleep same_state_get_app : preserves.

Section Settle.
Context `{Env, GroupPolicy, GuidOps, RegEnv, Calendar, HttpStack, PingEnv, Win32, Network, Installers, BundleEnv, WorkerEnv}.
Context (pc : PackageCache).

Lemma same_state_GetPackage p dir : preserves same_state (dm_lift (GetPackage pc p dir)).
Proof. apply same_state_dm_lift. unfold GetPackage, dm_app. preserve. Qed.

Lemma same_state_IsPackageAvailable p : preserves same_state (dm_lift (IsPackageAvailable pc p)).
Proof. apply same_state_dm_lift. unfold IsPackageAvailable, dm_app. preserve. Qed.

Lemma same_state_CachePackage p c f : preserves same_state (dm_lift (CachePackage pc p c f)).
Proof. apply same_state_dm_lift, kept_CachePackage. Qed.

#[local] Hint Resolve same_state_GetPackage same_state_IsPackageAvailable same_state_CachePackage : preserves.

Lemma same_state_CopyPackages v dir : preserves same_state (CopyAppVersionPackages pc v dir).
Proof.
  unfold CopyAppVersionPackages. assert (forall l, preserves same_state (copy_packages pc l dir)) as Hl; [|preserve].
  induction l; cbn [copy_packages]; preserve.
Qed.

Lemma same_state_cache_packages dir l : preserves same_state (cache_packages pc dir l).
Proof. induction l; cbn [cache_packages]; [preserve|]. unfold cache_offline_package. preserve. Qed.

Lemma Download_ends b ctx s :
  one_of queued_for_install (st_app s) ->
  one_of [AppStateWaitingToDownload; AppStateReadyToInstall; AppStateWaitingToInstall; AppStateNoUpdate; AppStateError]
    (st_app (exec (@App_Download _ _ ctx (worker_managers pc b)) s)).
Proof.
  intros Hst. unfold App_Download. rewrite with_state_exec.
  unfold one_of, queued_for_install in Hst. rewrite !elem_of_cons, elem_of_nil in Hst.
  destruct Hst as [Hst|[Hst|[Hst|[Hst|[]]]]]; rewrite Hst.
  2,3,4: unfold no_op; rewrite exec_ret; unfold one_of; rewrite Hst; in_list.
  unfold AppStateWaitingToDownload_Download. rewrite exec_bind. cbn [mgr_DownloadApp worker_managers].
  set (d := mkDmSt s (m_fs (w_machine (st_world s))) (m_calls (w_machine (st_world s))) (m_download_state (w_machine (st_world s)))).
  pose proof (DownloadApp_app (bundle_ctx b) pc d Hst) as Hd. cbv zeta in Hd.
  assert (app_state (st_app (exec (dm_lift (DownloadApp (bundle_ctx b) pc)) s))
          = app_state (st_app (ds_app (exec (DownloadApp (bundle_ctx b) pc) d)))) as He.
  { unfold dm_lift, exec, d. by destruct (DownloadApp _ _ _). }
  unfold one_of. cbn [App_LogTextAppendFormat exec]. change (app_state (st_app (exec (App_LogTextAppendFormat ?x) ?y))) with (app_state (st_app y)).
  rewrite He. destruct (FAILED (net_CreateNetworkRequest _)); [destruct Hd as (_ & -> & _); cbn [ds_app d]; rewrite Hst; in_list|].
  destruct (SUCCEEDED _); [rewrite Hd; in_list|destruct Hd as [-> _]; in_list].
Qed.

Lemma Install_ends b ctx s :
  one_of [AppStateWaitingToInstall; AppStateNoUpdate; AppStateError] (st_app s) ->
  one_of finished (st_app (exec (@App_Install _ ctx (worker_managers pc b)) s)).
Proof.
  intros Hst. unfold App_Install. rewrite with_state_exec.
  unfold one_of in Hst. rewrite !elem_of_cons, elem_of_nil in Hst.
  destruct Hst as [Hst|[Hst|[Hst|[]]]]; rewrite Hst.
  2,3: unfold no_op; rewrite exec_ret; unfold one_of; rewrite Hst; in_list.
  unfold AppStateWaitingToInstall_Install. rewrite exec_bind, exec_bind, exec_get, eval_get.
  pose proof (same_state_Sleep kWaitBeforeInstallMs s) as Hs1. set (s1 := exec (Sleep _) s) in *. unfold same_state in Hs1.
  cbn [mgr_GetGuid mgr_ConcatenatePath mgr_install_working_dir mgr_CopyAppVersionPackages mgr_InstallApp worker_managers].
  destruct (wk_GetGuid _) as [hr|guid]; [apply ends_state_Error; [in_list|done]|].
  rewrite exec_bind_get_app, exec_bind. set (m := CopyAppVersionPackages _ _ _).
  pose proof (same_state_CopyPackages _ _ s1 : same_state s1 (exec m s1)) as Hs2. unfold same_state in Hs2.
  destruct (SUCCEEDED _); [|apply ends_state_Error; [in_list|done]].
  destruct (InstallManager_ends (bundle_ctx b) (priority_ (bundle_props b)) (session_id_ (bundle_props b))
    (ConcatenatePath wk_install_working_dir guid) (exec m s1) ltac:(congruence)) as [Hi|Hi]; unfold one_of; rewrite Hi; in_list.
Qed.

Lemma download_and_install_ends b ctx s :
  one_of queued_for_install (st_app s) -> one_of finished (st_app (exec (download_and_install_app pc b ctx) s)).
Proof.
  intros Hst. unfold download_and_install_app. rewrite !exec_bind.
  by apply Install_ends, QueueInstall_ends, Download_ends.
Qed.

(** ** Bundles *)

(** The states of the applications and of the bundle stay, and so does its work. *)
Definition steady (s s' : BundleSt) : Prop :=
  (app_state <$> apps_ (bs_bundle s')) = (app_state <$> apps_ (bs_bundle s))
  /\ app_bundle_state_ (bs_bundle s') = app_bundle_state_ (bs_bundle s)
  /\ user_work_item_ (bs_bundle s') = user_work_item_ (bs_bundle s).

#[local] Instance steady_refl : Reflexive steady.
Proof. by intros s. Qed.
#[local] Instance steady_trans : Transitive steady.
Proof. intros a b c (? & ? & ?) (? & ? & ?). unfold steady. split_and!; congruence. Qed.

Lemma steady_on_registry {A} (m : RegM A) : preserves steady (on_registry m).
Proof. intros s. unfold on_registry, exec. by destruct (m _). Qed.
Lemma steady_on_machine {A} (m : MachM A) : preserves steady (on_machine m).
Proof. intros s. unfold on_machine, exec. by destruct (m _). Qed.
Lemma steady_ext_call {A} (f : nat -> A) : preserves steady (ext_call f).
Proof. by intros s. Qed.
Lemma steady_get_bundle : preserves steady get_bundle.
Proof. by intros s. Qed.
Lemma steady_with_client {A} (m : WsM A) : preserves steady (with_update_check_client m).
Proof. intros s. unfold with_update_check_client, exec. by destruct (m _). Qed.
Lemma steady_set_uninstalled f : preserves steady (modify_bundle (fun b => set_uninstalled_apps (f b) b)).
Proof. by intros s. Qed.
Lemma steady_FetchAndResetLogText : preserves steady FetchAndResetLogText.
Proof.
  intros s. unfold steady, FetchAndResetLogText, exec. cbn. split_and!; [|done|done].
  rewrite <- list_fmap_compose. by apply list_fmap_ext.
Qed.

Lemma steady_on_app_with {A} (default : A) i m :
  (forall ctx, preserves same_state (m ctx)) -> preserves steady (on_app_with default i m).
Proof.
  intros Hm s. unfold steady, on_app_with, exec. destruct (apps_ (bs_bundle s) !! i) as [a|] eqn:Ha; [|done].
  pose proof (Hm (bundle_ctx (bs_bundle s)) (mkAppSt (bs_world s) a)) as Hst. unfold same_state, exec in Hst.
  destruct (m _ _) as [x s']. cbn in *. split_and!; [|done|done].
  rewrite list_fmap_insert, Hst. apply list_insert_id. by rewrite list_lookup_fmap, Ha.
Qed.

#[local] Hint Resolve steady_on_registry steady_on_machine steady_ext_call steady_get_bundle steady_with_client
  steady_set_uninstalled steady_FetchAndResetLogText same_state_cache_packages : preserves.

Lemma steady_CreateUninstalledApp app_id : preserves steady (CreateUninstalledApp app_id).
Proof. unfold CreateUninstalledApp. preserve. Qed.
Lemma steady_BuildAndPersistPing : preserves steady BuildAndPersistPing.
Proof. unfold BuildAndPersistPing. preserve. Qed.
#[local] Hint Resolve steady_CreateUninstalledApp steady_BuildAndPersistPing : preserves.

Lemma steady_AddUninstalledAppsPings : preserves steady AddUninstalledAppsPings.
Proof.
  unfold AddUninstalledAppsPings. assert (forall l, preserves steady (add_uninstalled l)) as Hl; [|preserve].
  induction l; cbn [add_uninstalled]; [preserve|]. unfold add_uninstall_ping. preserve.
Qed.
Lemma steady_SendOemInstalledPing is_machine session_id : preserves steady (SendOemInstalledPing is_machine session_id).
Proof. unfold SendOemInstalledPing. preserve. Qed.
Lemma steady_SendCupFailurePing is_machine session_id source hr : preserves steady (SendCupFailurePing is_machine session_id source hr).
Proof. unfold SendCupFailurePing. preserve. Qed.
Lemma steady_DoUpdateCheck r : preserves steady (DoUpdateCheck r).
Proof. unfold DoUpdateCheck. preserve. Qed.
Lemma steady_CacheOfflinePackages : preserves steady (CacheOfflinePackages pc).
Proof.
  unfold CacheOfflinePackages. apply preserves_bind; [apply _|preserve|intros b].
  induction (seq 0 _); cbn [cache_apps]; [preserve|]. apply preserves_bind; [apply _| |intros hr; preserve].
  apply steady_on_app_with. intros _. preserve.
Qed.
#[local] Hint Resolve steady_AddUninstalledAppsPings steady_SendOemInstalledPing steady_SendCupFailurePing
  steady_DoUpdateCheck steady_CacheOfflinePackages : preserves.

(** ** Going through the applications *)

(** The bundle is as before, apart from its applications. *)
Definition same_bundle (s s' : BundleSt) : Prop :=
  app_bundle_state_ (bs_bundle s') = app_bundle_state_ (bs_bundle s)
  /\ user_work_item_ (bs_bundle s') = user_work_item_ (bs_bundle s)
  /\ length (apps_ (bs_bundle s')) = length (apps_ (bs_bundle s)).

#[local] Instance same_bundle_preorder : PreOrder same_bundle.
Proof. split; [by intros s|]. intros a b c (? & ? & ?) (? & ? & ?). unfold same_bundle. split_and!; congruence. Qed.

Definition all_apps (l : list AppState) (s : BundleSt) : Prop := Forall (one_of l) (apps_ (bs_bundle s)).

(** The applications before [k] are in [Q], the others in [P]. *)
Definition partly (P Q : list AppState) (k : nat) (s : BundleSt) : Prop :=
  forall j a, apps_ (bs_bundle s) !! j = Some a -> one_of (if decide (j < k)%nat then Q else P) a.

Lemma partly_none P Q s : all_apps P s -> partly P Q 0 s.
Proof. intros Ha j a Hj. case_decide; [lia|]. exact (Forall_lookup_1 _ _ _ _ Ha Hj). Qed.

Lemma partly_all P Q k s : (length (apps_ (bs_bundle s)) <= k)%nat -> partly P Q k s -> all_apps Q s.
Proof.
  intros Hk Hp. apply Forall_lookup_2. intros j a Hj. specialize (Hp j a Hj).
  apply lookup_lt_Some in Hj. case_decide; [done|lia].
Qed.

(** A method of the [k]-th application. *)
Definition method {A} (P Q : list AppState) (m : BundleCtx -> AppM A) : Prop :=
  forall ctx s, one_of P (st_app s) -> one_of Q (st_app (exec (m ctx) s)).

Lemma partly_step {A} P Q (default : A) k m s :
  method P Q m -> partly P Q k s ->
  partly P Q (S k) (exec (on_app_with default k m) s) /\ same_bundle s (exec (on_app_with default k m) s).
Proof.
  intros Hm Hp. unfold on_app_with, exec. destruct (apps_ (bs_bundle s) !! k) as [a|] eqn:Ha.
  - specialize (Hm (bundle_ctx (bs_bundle s)) (mkAppSt (bs_world s) a)). unfold exec in Hm.
    pose proof (Hp k a Ha) as Hk. case_decide; [lia|]. destruct (m _ _) as [x s']. cbn in *.
    split; [|unfold same_bundle; cbn; by rewrite length_insert]. intros j b Hj. cbn in Hj.
    apply list_lookup_insert_Some in Hj as [(-> & <- & _)|[Hne Hj]].
    + case_decide; [by apply Hm|lia].
    + specialize (Hp j b Hj). repeat case_decide; by (lia || done).
  - split; [|reflexivity]. intros j b Hj. cbn in Hj. specialize (Hp j b Hj).
    apply lookup_lt_Some in Hj. apply lookup_ge_None_1 in Ha. repeat case_decide; by (lia || done).
Qed.

(** From applications in [P] to applications in [Q]. *)
Definition settles {A} (P Q : list AppState) (m : BundleM A) : Prop :=
  forall s, all_apps P s -> all_apps Q (exec m s) /\ same_bundle s (exec m s).

Lemma on_app_exec i m s : exec (on_app i m) s = exec (on_app_with tt i m) s.
Proof. unfold on_app, on_app_with, exec. destruct (_ !! i); [|done]. by destruct (m _ _). Qed.

(** A loop that visits the applications in order settles them. *)
Lemma visits_settle {A} P Q (loop : nat -> nat -> BundleM A) :
  (forall n k s, partly P Q k s -> partly P Q (k + n) (exec (loop k n) s) /\ same_bundle s (exec (loop k n) s)) ->
  settles P Q (b ← get_bundle; loop 0%nat (length (apps_ b))).
Proof.
  intros Hloop s Ha. rewrite exec_bind. change (eval get_bundle s) with (bs_bundle s). change (exec get_bundle s) with s.
  destruct (Hloop (length (apps_ (bs_bundle s))) 0%nat s (partly_none _ _ _ Ha)) as [Hp Hs]. split; [|done].
  apply (partly_all P Q _ _) in Hp; [done|]. destruct Hs as (_ & _ & ->). done.
Qed.

Lemma for_apps_settles P Q m : method P Q m -> settles P Q (for_apps m).
Proof.
  intros Hm. apply (visits_settle P Q (fun k n => for_each (fun i => on_app i m) (seq k n))).
  induction n as [|n IH]; intros k s Hp; cbn [seq for_each].
  - rewrite exec_ret, Nat.add_0_r. by split.
  - rewrite exec_bind, on_app_exec. destruct (partly_step P Q tt k m s Hm Hp) as [Hp1 Hs1].
    destruct (IH (S k) _ Hp1) as [Hp2 Hs2]. rewrite <- Nat.add_succ_comm. split; [done|by etrans].
Qed.

Lemma DoPreUpdateCheck_settles r : settles queued_for_check being_checked (DoPreUpdateCheck r).
Proof.
  apply (visits_settle _ _ (fun k n => pre_update_checks (seq k n) r)).
  intros n. revert r. induction n as [|n IH]; intros r k s Hp; cbn [seq pre_update_checks].
  - rewrite exec_ret, Nat.add_0_r. by split.
  - rewrite exec_bind. destruct (partly_step _ _ r k (fun ctx => App_PreUpdateCheck ctx r) s
      (fun ctx => PreUpdateCheck_ends ctx r) Hp) as [Hp1 Hs1].
    destruct (IH (eval (on_app_with r k (fun ctx => App_PreUpdateCheck ctx r)) s) (S k) _ Hp1) as [Hp2 Hs2].
    rewrite <- Nat.add_succ_comm. split; [done|by etrans].
Qed.

Lemma settles_steady {A} P (m : BundleM A) : preserves steady m -> settles P P m.
Proof.
  intros Hm s Hl. destruct (Hm s) as (Ha & Hb & Hw). split.
  - unfold all_apps in *. change (one_of P) with ((.∈ P) ∘ app_state) in *. apply Forall_fmap. rewrite Ha. by apply Forall_fmap.
  - unfold same_bundle. apply (f_equal length) in Ha. by rewrite !length_fmap in Ha.
Qed.

Lemma settles_bind {A B} P Q R (m : BundleM A) (k : A -> BundleM B) :
  settles P Q m -> (forall x, settles Q R (k x)) -> settles P R (m ≫= k).
Proof.
  intros Hm Hk s Ha. rewrite exec_bind. destruct (Hm s Ha) as [Ha1 Hs1].
  destruct (Hk (eval m s) _ Ha1) as [Ha2 Hs2]. split; [done|by etrans].
Qed.

Lemma settles_after {A B} P Q (m : BundleM A) (k : A -> BundleM B) :
  preserves steady m -> (forall x, settles P Q (k x)) -> settles P Q (m ≫= k).
Proof. intros Hm. by apply settles_bind, settles_steady. Qed.

(** Impersonation of the client never fails. *)
Definition can_impersonate : Prop := forall n, FAILED (impersonate n) = false.

Lemma settles_impersonating {A} P Q (x : A) (m : BundleM A) :
  can_impersonate -> settles P Q m -> settles P Q (hr ← ext_call impersonate; if FAILED hr then mret x else m).
Proof.
  intros Himp Hm s Ha. rewrite exec_bind. change (eval (ext_call impersonate) s) with (impersonate (bs_calls s)).
  rewrite Himp. by apply (Hm (exec (ext_call impersonate) s)).
Qed.

Lemma DoPostUpdateCheck_settles hr r : settles being_checked checked (DoPostUpdateCheck pc hr r).
Proof.
  unfold DoPostUpdateCheck. do 3 (apply settles_after; [preserve|intros ?]). apply (settles_bind _ checked).
  - apply for_apps_settles. intros ctx. apply PostUpdateCheck_ends.
  - intros _. apply settles_steady. preserve.
Qed.

Lemma CheckForUpdateHelper_settles : can_impersonate -> settles queued_for_check checked (CheckForUpdateHelper pc).
Proof.
  intros Himp. unfold CheckForUpdateHelper. do 3 (apply settles_after; [preserve|intros ?]). cbv zeta.
  apply settles_impersonating; [done|]. apply settles_after; [preserve|intros ?].
  eapply settles_bind; [apply DoPreUpdateCheck_settles|intros r]. apply settles_after; [preserve|intros [hr response]].
  eapply settles_bind; [apply DoPostUpdateCheck_settles|intros _]. apply settles_steady. preserve.
Qed.

Lemma DownloadAndInstallHelper_settles : can_impersonate -> settles queued_for_install finished (DownloadAndInstallHelper pc).
Proof.
  intros Himp. unfold DownloadAndInstallHelper. apply settles_impersonating; [done|]. apply settles_after; [preserve|intros b].
  eapply settles_bind; [apply for_apps_settles; intros ctx; apply download_and_install_ends|intros _].
  apply settles_steady. preserve.
Qed.

(** ** Calls of the client and their work *)

(** The work is queued for the applications in [P], and done. *)
Lemma become_busy_settles P Q w queue s :
  settles P Q queue -> all_apps P s -> eval (become_busy (start_async w queue)) s = S_OK ->
  let s1 := exec (become_busy (start_async w queue)) s in
  all_apps Q s1 /\ app_bundle_state_ (bs_bundle s1) = AppBundleStateBusy /\ user_work_item_ (bs_bundle s1) = Some w.
Proof.
  intros Hq Ha. unfold become_busy. rewrite eval_bind, exec_bind.
  pose proof (start_async_cases w queue s) as Hcases. cbv zeta in Hcases. destruct Hcases as [[Hf Hs]|[-> ->]].
  { rewrite Hf, eval_ret. intros Hok. by rewrite Hok in Hf. }
  intros _. change (FAILED S_OK) with false. cbv iota. rewrite exec_bind, exec_ret. cbv zeta.
  set (s0 := exec (modify_bundle _) _). destruct (Hq s0 Ha) as [Ha1 (_ & Hw & _)]. split_and!; [done|done|by etrans; [exact Hw|]].
Qed.

Lemma CompleteAsyncCall_busy s :
  app_bundle_state_ (bs_bundle s) = AppBundleStateBusy ->
  let s' := exec CompleteAsyncCall s in
  apps_ (bs_bundle s') = apps_ (bs_bundle s) /\ app_bundle_state_ (bs_bundle s') = AppBundleStateReady /\
  user_work_item_ (bs_bundle s') = None.
Proof.
  intros Hb. cbv zeta. unfold CompleteAsyncCall, state_CompleteAsyncCall, with_bundle_state. rewrite !exec_bind.
  change (eval get_bundle s) with (bs_bundle s). by rewrite Hb.
Qed.

Lemma work_completes {A} P Q (m : BundleM A) s :
  settles P Q m -> all_apps P s -> app_bundle_state_ (bs_bundle s) = AppBundleStateBusy ->
  let s' := exec (m;; CompleteAsyncCall) s in
  all_apps Q s' /\ app_bundle_state_ (bs_bundle s') = AppBundleStateReady /\ user_work_item_ (bs_bundle s') = None.
Proof.
  intros Hm Ha Hb. cbv zeta. rewrite exec_bind. destruct (Hm s Ha) as [Ha1 (Hs & _ & _)].
  destruct (CompleteAsyncCall_busy (exec m s)) as (Happs & Hst & Hw); [congruence|].
  split_and!; [|done|done]. unfold all_apps. by rewrite Happs.
Qed.

Lemma exec_bind_assoc {A B C} (m1 : BundleM A) (m2 : BundleM B) (m3 : BundleM C) s :
  exec ((m1;; m2);; m3) s = exec (m1;; m2;; m3) s.
Proof. by rewrite !exec_bind. Qed.

(** The calls check that they may be made, then act. *)
Lemma impersonated m s :
  can_impersonate -> exec (impersonating m) s = exec m (exec (ext_call impersonate) s)
  /\ eval (impersonating m) s = eval m (exec (ext_call impersonate) s).
Proof.
  intros Himp. unfold impersonating. rewrite exec_bind, eval_bind.
  change (eval (ext_call impersonate) s) with (impersonate (bs_calls s)). by rewrite Himp.
Qed.

Lemma QueueUpdateCheck_settles : settles [AppStateInit] queued_for_check (for_apps App_QueueUpdateCheck).
Proof. apply for_apps_settles. intros ctx. apply QueueUpdateCheck_ends. Qed.

Lemma QueueDownloadOrInstall_settles : settles installable queued_for_install (for_apps App_QueueDownloadOrInstall).
Proof. apply for_apps_settles. intros ctx. apply QueueDownloadOrInstall_ends. Qed.



(** *** All installed applications *)

(** Applications that are added are new. *)
Definition fresh_apps (s s' : BundleSt) : Prop := all_apps [AppStateInit] s -> all_apps [AppStateInit] s'.

#[local] Instance fresh_apps_refl : Reflexive fresh_apps.
Proof. intros s Ha. exact Ha. Qed.
#[local] Instance fresh_apps_trans : Transitive fresh_apps.
Proof. intros a b c Hab Hbc Ha. by apply Hbc, Hab. Qed.

Lemma fresh_steady {A} (m : BundleM A) : preserves steady m -> preserves fresh_apps m.
Proof. intros Hm s Ha. by destruct (settles_steady _ m Hm s Ha). Qed.

Lemma fresh_AddApp a : app_state a = AppStateInit -> preserves fresh_apps (AddApp a).
Proof.
  intros Hst s Ha. destruct (AddApp_cases a s) as [[_ ->]|(_ & _ & ->)]; [done|].
  apply Forall_app. split; [exact Ha|]. apply Forall_singleton. unfold one_of. rewrite Hst. in_list.
Qed.

Lemma fresh_AddInstalledApp app_id : preserves fresh_apps (AddInstalledApp app_id).
Proof.
  unfold AddInstalledApp. destruct (StringToGuidSafe app_id) as [guid|]; [|preserve].
  apply preserves_bind; [apply _|by apply fresh_steady; preserve|intros b]. destruct (IsAppInBundle b guid); [preserve|].
  apply preserves_bind; [apply _|by apply fresh_steady; preserve|intros hr]. destruct (FAILED hr && _); [preserve|].
  intros s. rewrite exec_bind. set (m := ReadAppPersistentData _ _ _).
  etrans; [exact (fresh_steady _ (steady_on_registry m) s)|].
  assert (eval (on_registry m) s = eval m (m_registry (w_machine (bs_world s)))) as -> by (unfold on_registry, eval; by destruct (m _)).
  destruct (ReadAppPersistentData_app (is_machine_ b) (display_language_ (bundle_props b)) (App_init guid true)
    (m_registry (w_machine (bs_world s)))) as (p & v & Ha). fold m in Ha. destruct (eval m _) as [hr2 a]. cbn [snd] in Ha.
  generalize (exec (on_registry m) s). clear s.
  change (preserves fresh_apps (if FAILED hr2 then mret hr2 else hr ← AddApp a; if FAILED hr then mret hr else mret S_OK)).
  pose proof (fresh_AddApp a ltac:(by rewrite Ha)). preserve.
Qed.

Lemma fresh_CreateAllInstalledApps n i p : preserves fresh_apps (Initialized_CreateAllInstalledApps n i p).
Proof.
  assert (forall l has, preserves fresh_apps (add_installed_apps l has)) as Hadd.
  { induction l as [|app_id l IH]; intros has; cbn [add_installed_apps]; [preserve|].
    apply preserves_bind; [apply _|apply fresh_AddInstalledApp|intros hr; apply IH]. }
  assert (forall b1 b2, preserves fresh_apps (reload_policies b1 b2)) as Hrel.
  { intros b1 b2. apply fresh_steady. unfold reload_policies. preserve. }
  assert (forall st, preserves fresh_apps (ChangeBundleState st)) as Hch by (intros st s Ha; exact Ha).
  assert (forall A (m : BundleM A), preserves steady m -> preserves fresh_apps m) as Hst by (intros; by apply fresh_steady).
  unfold Initialized_CreateAllInstalledApps, InvalidBundleCall. preserve; apply Hst; preserve.
Qed.

Lemma all_apps_weaken l l' s : l ⊆ l' -> all_apps l s -> all_apps l' s.
Proof. intros Hl Ha. eapply Forall_impl; [exact Ha|]. intros a. apply Hl. Qed.

Lemma UpdateAllApps_settles :
  can_impersonate ->
  settles queued_for_check finished
    (is_check_successful ← (CheckForUpdateHelper pc : BundleM bool);
     b ← get_bundle;
     when is_check_successful (on_registry (UpdateLastChecked (is_machine_ b));; mret tt);;
     for_apps App_QueueDownloadOrInstall;;
     AddUninstalledAppsPings;;
     DownloadAndInstallHelper pc).
Proof.
  intros Himp. eapply settles_bind; [by apply CheckForUpdateHelper_settles|intros ok].
  do 2 (apply settles_after; [preserve|intros ?]).
  eapply (settles_bind _ queued_for_install); [|intros _; apply settles_after; [preserve|intros _; by apply DownloadAndInstallHelper_settles]].
  intros s Ha. apply QueueDownloadOrInstall_settles. eapply all_apps_weaken; [|exact Ha]. unfold checked, installable. set_solver.
Qed.

Lemma Worker_UpdateAllApps_exec s :
  exec (Worker_UpdateAllApps pc) s =
  exec ((is_check_successful ← (CheckForUpdateHelper pc : BundleM bool);
         b ← get_bundle;
         when is_check_successful (on_registry (UpdateLastChecked (is_machine_ b));; mret tt);;
         for_apps App_QueueDownloadOrInstall;;
         AddUninstalledAppsPings;;
         DownloadAndInstallHelper pc);; CompleteAsyncCall) s.
Proof. unfold Worker_UpdateAllApps. by rewrite !exec_bind. Qed.


End Settle.

(** ** Examples *)

(** A server that offers version 2.0.0.0, in one package that is served. *)
Definition sample_offer : Response :=
  mkResponse (_T "3.0") 100 5000 (mkSystemRequirements [] [] [])
    [mkResponseApp kStatusOkValue (@GuidToString guid_ops example_guid) [] [] [] []
       (mkResponseUpdateCheck kStatusOkValue [] [] [_T "https://up/"]
          (mkInstallManifest (_T "app") (_T "2.0.0.0") [mkInstallPackage (_T "a.exe") [] true 3 [] abc_hash] []))
       [] kStatusOkValue []].

Definition sample_server : HttpStack.
Proof.
  refine {| GetUserNetworkConfig _ := S_OK;
            PostUtf8String _ _ := mkHttpOutcome S_OK (_T "ok") [] 200;
            Request_Serialize r := inr (_T "<request>" ++ UpdateRequest_app_ids r);
            Response_Deserialize buffer r := (S_OK, sample_offer);
            WebClient.WideToUtf8 s := s;
            Utf8BufferToWideChar s := s;
            GetVersionString := _T "1.3.361.151";
            CharUpper c := c |}. done.
Defined.

Definition sample_worker_env : WorkerEnv.
Proof.
  refine {| wk_request_env := mkRequestEnv (fun _ => []) [] [] [] None [] false None (true, true, true, true, true, true, true) [] [] [];
            wk_GetGuid n := inr (_T "{dir}");
            wk_install_working_dir := _T "C:\Install" |}. done.
Defined.

Section Examples.
#[local] Existing Instances sample_env guid_ops open_policy good_disk sample_network InstallerFacts.sample_clock good_installers
  sample_bundle_env sample_server sample_worker_env.
#[local] Instance sample_process : PingEnv := sample_ping_env S_OK (Some 0).

(** A client has created a bundle with one application, whose licence its user
    has accepted. *)
Definition sample_bundle : BundleSt :=
  exec (on_app_with E_FAIL 0 (fun _ => App_put_isEulaAccepted true))
    (exec (createApp (GuidToString example_guid)) (exec initialize sample_new_bundle)).
#[local] Notation after_check := (exec (run_work_item sample_cache Work_CheckForUpdate) (exec checkForUpdate sample_bundle)).
#[local] Notation after_install := (exec (run_work_item sample_cache Work_DownloadAndInstall) (exec install after_check)).

(** The update is found, downloaded and installed. *)
Example sample_installs :
  (app_state <$> apps_ (bs_bundle after_check)) = [AppStateUpdateAvailable] /\
  (app_state <$> apps_ (bs_bundle after_install)) = [AppStateInstallComplete].
Proof. split; by vm_compute. Qed.

Lemma sample_can_impersonate : can_impersonate.
Proof. by intros n. Qed.


Lemma all_apps_states l states s : (app_state <$> apps_ (bs_bundle s)) = states -> Forall (.∈ l) states -> all_apps l s.
Proof. intros <- Hl. by apply Forall_fmap in Hl. Qed.


(** Later, all installed applications are updated. *)
#[local] Notation later_bundle := (exec initialize (new_bundle true [] (_T "en") (bs_world after_install))).
#[local] Notation after_update := (exec (run_work_item sample_cache Work_UpdateAllApps) (exec updateAllApps later_bundle)).


End Examples.

(** A client that cannot be impersonated when its download is to start leaves
    the bundle busy for good: the work is over and was not completed. *)
Section Stuck.
Context `{Env, GroupPolicy, GuidOps, RegEnv, Calendar, HttpStack, PingEnv, Win32, Network, Installers, BundleEnv, WorkerEnv}.
Context (pc : PackageCache).

Lemma Worker_Download_stuck s :
  FAILED (impersonate (bs_calls s)) = true -> bs_bundle (exec (run_work_item pc Work_Download) s) = bs_bundle s.
Proof.
  intros Hf. cbn [run_work_item]. unfold Worker_Download. rewrite exec_bind.
  change (eval (ext_call impersonate) s) with (impersonate (bs_calls s)). by rewrite Hf.
Qed.

Lemma Worker_DownloadPackage_stuck i name s :
  FAILED (impersonate (bs_calls s)) = true -> bs_bundle (exec (run_work_item pc (Work_DownloadPackage i name)) s) = bs_bundle s.
Proof.
  intros Hf. cbn [run_work_item]. unfold Worker_DownloadPackage. rewrite exec_bind.
  change (eval (ext_call impersonate) s) with (impersonate (bs_calls s)). by rewrite Hf.
Qed.
End Stuck.
